(* ===== verification/_CoqProject ===== *)
-Q . S2P
Prelude.v
ConstantTime.v
ByteOrder.v
Packet.v
QuicVlint.v
WPacket.v
WPacketSpec.v
WPacketRefine.v
WPacketOut.v
KeyMgmt.v
ZSum.v
SlhAdrs.v
SlhParams.v
SlhHash.v
SlhHashSpec.v
SlhSpec.v
SlhWots.v
SlhXmss.v
SlhHypertree.v
SlhFors.v
SlhDsa.v
SlhKey.v
BitPack.v
Result.v
ModCong.v
Transform.v
NttPass.v
MlDsaField.v
MlDsaRound.v
MlDsaNtt.v
MlDsaPoly.v
MlDsaParams.v
MlDsaPack.v
MlDsaEncode.v
MlDsaHint.v
MlDsaSig.v
MlDsaSample.v
MlDsaKey.v
MlDsaExample.v
MlDsaKeySpec.v
MlDsaLattice.v
MlDsaSign.v
MlDsaSignSpec.v
MlDsaVerify.v
MlKemField.v
MlKemNtt.v
MlKemCode.v
MlKemHash.v
MlKemPke.v
MlKemKey.v
MlKemKeySpec.v
MlKemSpec.v
MlKemDecap.v
Keccak.v
Sha3.v
Sha3Spec.v
Sha3Safe.v
EvpDigest.v
EvpSha3.v
EvpSpec.v
MlKemSha3.v
MlDsaSha3.v
SlhSha3.v
