(* ===== verification/Prelude.v ===== *)
(** * A verification of the post-quantum cryptography of OpenSSL 3.5 and of its packet code

    The repository wraps OpenSSL 3.5.7 ([src/openssl/]).  This development models, in
    C's own terms, the byte-level primitives, the packet readers and writers, and the
    three post-quantum schemes that OpenSSL implements in plain C: the signatures
    SLH-DSA (FIPS 205, [crypto/slh_dsa/]) and ML-DSA (FIPS 204, [crypto/ml_dsa/]) and
    the key encapsulation ML-KEM (FIPS 203, [crypto/ml_kem/ml_kem.c]), from the
    parameter tables to the exported operations; and the hash functions under them,
    SHA-3 and SHAKE (FIPS 202, [crypto/sha/]), with the digest calls of EVP through
    which the schemes reach them.

    ** Parts of the program and the files that model them

    - [Prelude]: machine integers ([u8], [u16], [u32], [u64], [i32]: a [Z] reduced to
      its width), byte lists, [slice] and [splice] for reads and writes at an offset,
      and the tactics and hints the other files share.  [ZSum]: finite sums.
      [Result]: results, errors and running out of rounds.  [BitPack]: packing numbers
      of a few bits into bytes.  [ModCong]: congruences.  [Transform] and [NttPass]:
      number-theoretic transforms and the passes the two lattice schemes share.
    - [ConstantTime] ([include/internal/constant_time.h]), [ByteOrder]
      ([include/openssl/byteorder.h]): masks, selections, loads and stores.
    - [Packet] ([include/internal/packet.h]): the read cursor [PACKET] over a byte
      buffer, with the copies to the heap of [crypto/o_str.c].  [QuicVlint]
      ([crypto/quic_vlint.c], [include/internal/quic_vlint.h], [packet_quic.h]): QUIC
      variable-length integers.
    - [WPacket] ([crypto/packet.c], [crypto/buffer/buffer.c]): the writable packet as a
      record, its operations in a state and error monad with a [Crash] outcome for
      undefined behaviour.  [WPacketSpec] has the memory-safety invariant and the
      sub-packets read back, [WPacketRefine] the abstract stack of open sub-packets and
      its refinement on every kind of buffer, [WPacketOut] the way the signature schemes
      use a packet.
    - SLH-DSA, bottom up: [SlhAdrs] ([slh_adrs.c]), [SlhParams] ([slh_params.c]),
      [SlhHash] ([slh_hash.c], [slh_dsa_hash_ctx.c], [PKCS1_MGF1] of
      [crypto/rsa/rsa_oaep.c]), [SlhHashSpec] (what these hash functions are, for every
      parameter set), [SlhSpec] (FIPS 205 as pure functions), [SlhWots] ([slh_wots.c]), [SlhXmss] ([slh_xmss.c]), [SlhHypertree] ([slh_hypertree.c]),
      [SlhFors] ([slh_fors.c]), [SlhDsa] ([slh_dsa.c]), [SlhKey] ([slh_dsa_key.c],
      [slh_dsa_gen] of [slh_dsa_kmgmt.c], the accessors of [crypto/params.c] it uses).
      [KeyMgmt] has the selection bits the schemes share.
    - ML-DSA, bottom up: [MlDsaField] ([ml_dsa_local.h], [reduce_montgomery]),
      [MlDsaRound] ([ml_dsa_key_compress.c]), [MlDsaNtt] ([ml_dsa_ntt.c]), [MlDsaPoly]
      ([ml_dsa_poly.h], [ml_dsa_vector.h], [ml_dsa_matrix.c]), [MlDsaParams]
      ([ml_dsa_params.c]), [MlDsaPack], [MlDsaEncode], [MlDsaHint] and [MlDsaSig]
      ([ml_dsa_encoders.c]), [MlDsaSample] ([ml_dsa_sample.c], [ml_dsa_hash.h]),
      [MlDsaKey] ([ml_dsa_key.c]) with [MlDsaKeySpec], [MlDsaSign] ([ml_dsa_sign.c])
      with [MlDsaLattice], [MlDsaSignSpec] and [MlDsaVerify] (FIPS 204 Algorithm 8 on
      its own terms).  [MlDsaExample] is a concrete digest
      for which whole runs can be followed.
    - ML-KEM, the parts of [ml_kem.c] bottom up: [MlKemField] (reductions, [compress]
      and [decompress]), [MlKemNtt] (transforms and products), [MlKemCode] (the scalar
      codecs), [MlKemHash] (hashes, rejection and binomial sampling), [MlKemPke]
      (variants, vectors, [encrypt_cpa] and [decrypt_cpa]), [MlKemKey] (the key object:
      life cycle, parsing, generation, encapsulation, decapsulation), [MlKemKeySpec]
      (its invariant, and what parsing and generation do to it), [MlKemSpec] (the
      theorems on the exported operations) and [MlKemDecap] (the decryption,
      re-encryption and implicit rejection of FIPS 203 on their own terms).
    - Hash functions, bottom up: [Keccak] (the permutation of [keccak1600.c] in all its
      compiled forms), [Sha3] (the sponge of [keccak1600.c], [sha3.c] and the generic
      code of [sha3_prov.c]), [Sha3Spec] (FIPS 202, and that the code computes it),
      [Sha3Safe] (calls in any order), [EvpDigest] ([crypto/evp/digest.c] over a
      provider, the class [DigestProvider]), [EvpSha3] (the dispatch tables of
      [sha3_prov.c] and what each call does to a context over them), [EvpSpec] (an
      abstract digest object that the calls refine).
      [MlKemSha3], [MlDsaSha3] and [SlhSha3] put the three schemes on top of this code.

    Definitions keep the names of the C functions.  A function that returns 0 on error
    returns [None], [Err] or [Fail]; what it writes through pointers is part of its
    result; a loop over an array is a recursion with the code's index arithmetic.

    ** Interfaces

    Code outside [src/], or replaced at run time, is a class that the theorems take as
    a parameter: [EVP] with [EVPLaws] (digests and HMAC of SLH-DSA), [Xof] with
    [XofLaws] (the SHAKE contexts of ML-DSA), [KemDigest] with [KemDigestLaws] (the
    digests of ML-KEM), [Allocator], [KeyEnv] and [KemEnv] (every allocation can fail,
    and the random generator returns what it likes).  The laws
    state documented behaviour only: calls succeed, return the advertised number of
    bytes, and hash the concatenation of the updates.  For the digests of ML-KEM, the
    SHAKE of ML-DSA and the SHAKE of SLH-DSA the laws are then proved, and the
    parameter is instantiated with the modelled code.  Inside the development [AdrsLaws] is what the tree code needs of an address
    format, proved for both method tables, and [Encodes] and [Decodes] what the vector
    encoders need of a polynomial codec, proved for each codec of the code.

    ** What the theorems show

    - Signatures that are produced are accepted.  [slh_dsa_keygen_sign_verify] and
      [ml_dsa_keygen_sign_verify]: for every parameter set, message, context and
      randomness, also with a key object that only has the exported public key.
    - What is encapsulated is decapsulated.  [ml_kem_encap_decap]: both sides get the
      same secret whenever the noise of the ciphertext rounds away;
      [ml_kem_decap_exact]: any other ciphertext gives the implicit rejection of FIPS
      203; [ml_kem_genkey_exact]: generated keys are those of the standard.
    - Verification is exact.  [slh_verify_exact], [ml_dsa_verify_exact]: a byte string
      is accepted exactly when it encodes a signature that FIPS 205 or FIPS 204
      accepts, with mu, the commitment and the hints computed as the standard says;
      [ml_dsa_sig_canonical]: a signature has one encoding.
    - Signing computes the standard's signature: [slh_sign_computes], over the hash
      functions that [slh_functions_exact] gives for the parameter set;
      [ml_dsa_sign_first_attempt]: the first attempt within the bounds, as soon as
      there is one.
    - The arithmetic is right: the transforms evaluate and multiply polynomials
      ([ml_dsa_ntt_evaluates], [ml_dsa_poly_mult_exact], [ml_kem_poly_mult_exact]), the
      division-free roundings and hints are those of the standard
      ([ml_dsa_rounding_exact], [ml_dsa_hint_recovers], [ml_kem_arithmetic_exact]),
      every unrolled codec is bit packing ([ml_dsa_codecs_are_bit_packing],
      [ml_kem_codecs_are_bit_packing]), samplers give the standard's distributions
      from the stream ([ml_dsa_rejection_sampling], [ml_kem_sampling_exact]), all
      within the machine widths.
    - The hash functions are those of FIPS 202: [keccak_forms_exact] (reference, unrolled,
      32-bit ARM, in-place and complemented permutations), [sha3_digest_exact] (every function of
      the provider, however the message is cut), [shake_squeeze_is_stream],
      [sha3_any_order_safe] (no order of calls over-fills the buffer, and which calls
      each state lets through) and [evp_digest_refines] (sequences of EVP calls:
      initialise with parameters, update, finish with or without a length, squeeze,
      copy, duplicate, reset, one-shot).
    - The layers fit: [ml_kem_on_sha3_code], [ml_dsa_on_sha3_code], [slh_on_sha3_code]
      say that the schemes over the hash code are the schemes over FIPS 202, so that
      the theorems above hold of the whole stack (of SLH-DSA, for the SHAKE parameter
      sets; the others call SHA-2).
    - Keys: life-cycle invariants, round trips, exact consistency checks, what is wiped
      when ([slh_key_life_invariant], [slh_key_bytes_roundtrip],
      [ml_dsa_keys_are_pairs], [ml_dsa_dup_respects_selection],
      [ml_kem_key_life_invariant], [ml_kem_key_roundtrip], ...);
      [ml_kem_dup_loses_public_data] shows a copy of an ML-KEM key to be unusable.
    - Packets: memory safety of sequences of writer operations ([wpacket_sequence_safe],
      which says what a caller of [WPACKET_set_max_size] has to respect), refinement of
      the stack of sub-packets ([wpacket_refines_stack]), DER lengths, exact readers
      ([packet_readers_sound]), and round trips between writers and readers and of QUIC
      integers.
    - Refusals: [slh_refusals], [ml_dsa_refusals], [slh_generate_failure_wipes].

    ** Fuel and bounds

    Loops with a bound in the code recurse on that bound.  Three kinds of loop have
    none: the rejection samplers of ML-DSA and ML-KEM, the index draws of the
    challenge, and the attempts of the signing loop.  They take the number of rounds from the class
    [Fuel], a parameter of every theorem, and running out is the result [Spin],
    distinct from an error; [ml_dsa_rejection_sampling], [ml_dsa_keygen_completes],
    [ml_dsa_sign_first_attempt], [ml_kem_sampling_exact] and [ml_kem_genkey_exact] show
    that a result is returned as soon as the digest stream and the number of rounds
    allow one.  The absorbing and squeezing loops of the sponge recurse on the length of
    their input or output, since each round takes or gives at least a byte.  [size_t]
    has 64 bits.

    ** Not modelled

    The other digests and MACs (SHA-2 and HMAC, reached through EVP, are assembly on
    most platforms), and the s390x, ARMv8 and bit-interleaved (32-bit) variants of Keccak; the engines,
    legacy methods, fetching and signature contexts of [digest.c]; RSA, elliptic curves, big numbers and symmetric ciphers; the
    TLS, DTLS and QUIC protocols; provider glue and parameter marshalling beyond the
    key import of SLH-DSA; ASN.1, X.509, PEM and BIO; command line tools and tests.
    Reference counts, locks and the error queue are not part of the state; the text
    printers of keys are left out, and so is the self test that the FIPS build runs
    on a generated SLH-DSA key.
    Timing is out of scope: the constant-time functions are shown to compute the right
    values, not to run in constant time. *)
From Stdlib Require Export ZArith Lia Bool.
From stdpp Require Export base option list numbers strings.

#[export] Set Default Goal Selector "!".
#[global] Open Scope Z_scope.

(** ** Machine integers

    An unsigned [w]-bit C integer is a [Z] in [0, 2^w); arithmetic is done in
    [Z] and reduced by the conversion of the result type.  The moduli are
    literals, which [lia] treats as constants. *)

Definition u8 (x : Z) : Z := x mod 256.
Definition u16 (x : Z) : Z := x mod 65536.
Definition u32 (x : Z) : Z := x mod 4294967296.
Definition u64 (x : Z) : Z := x mod 18446744073709551616.

(** Conversion to [int32_t]/[int]: two's complement. *)
Definition i32 (x : Z) : Z := (x + 2147483648) mod 4294967296 - 2147483648.

(** [size_t] is 64 bits wide: its conversion is [u64]. *)
Definition SIZE_MAX : Z := 18446744073709551615.

(** The generic [w]-bit reduction, for the families of functions the code
    writes once per width. *)
Definition wrap (w x : Z) : Z := x mod 2 ^ w.

(** [lia] with divisions and remainders turned into their defining equations. *)
Ltac dlia := Z.div_mod_to_equations; lia.

Lemma u8_range x : 0 <= u8 x < 256.
Proof. unfold u8; dlia. Qed.
Lemma u16_range x : 0 <= u16 x < 65536.
Proof. unfold u16; dlia. Qed.
Lemma u32_range x : 0 <= u32 x < 4294967296.
Proof. unfold u32; dlia. Qed.
Lemma u64_range x : 0 <= u64 x < 18446744073709551616.
Proof. unfold u64; dlia. Qed.
Lemma i32_range x : -2147483648 <= i32 x < 2147483648.
Proof. unfold i32; dlia. Qed.

Lemma u8_small x : 0 <= x < 256 -> u8 x = x.
Proof. unfold u8; dlia. Qed.
Lemma u16_small x : 0 <= x < 65536 -> u16 x = x.
Proof. unfold u16; dlia. Qed.
Lemma u32_small x : 0 <= x < 4294967296 -> u32 x = x.
Proof. unfold u32; dlia. Qed.
Lemma u64_small x : 0 <= x < 18446744073709551616 -> u64 x = x.
Proof. unfold u64; dlia. Qed.
Lemma i32_small x : -2147483648 <= x < 2147483648 -> i32 x = x.
Proof. unfold i32; dlia. Qed.
Lemma wrap_range w x : 0 <= w -> 0 <= wrap w x < 2 ^ w.
Proof. intros ?. apply Z.mod_pos_bound. apply Z.pow_pos_nonneg; lia. Qed.
Lemma wrap_small w x : 0 <= x < 2 ^ w -> wrap w x = x.
Proof. apply Z.mod_small. Qed.

Create HintDb cint.
Create Rewrite HintDb cint.
#[export] Hint Resolve u8_range u16_range u32_range u64_range i32_range : cint.
#[export] Hint Rewrite u8_small u16_small u32_small u64_small i32_small
  using lia : cint.

(** Close a goal about fixed-width arithmetic on in-range operands. *)
Ltac cint := unfold u8, u16, u32, u64, i32, SIZE_MAX in *; dlia.

(** ** Bit operations keep a [w]-bit range *)

Section BitRange.
Context (w : Z) (Hw : 0 <= w).
Implicit Types a b : Z.

Lemma in_range_bits a :
  0 <= a -> (forall l, w <= l -> Z.testbit a l = false) -> 0 <= a < 2 ^ w.
Proof. intros Ha Hb. split; [done|]. by apply Z.bounded_iff_bits_nonneg. Qed.

Lemma testbit_out a l : 0 <= a < 2 ^ w -> w <= l -> Z.testbit a l = false.
Proof. intros Ha. revert l. apply Z.bounded_iff_bits_nonneg; lia. Qed.

Lemma lxor_range a b : 0 <= a < 2 ^ w -> 0 <= b < 2 ^ w -> 0 <= Z.lxor a b < 2 ^ w.
Proof.
  intros Ha Hb. apply in_range_bits; [apply Z.lxor_nonneg; lia|]. intros l Hl.
  by rewrite Z.lxor_spec, !testbit_out by done.
Qed.
Lemma lor_range a b : 0 <= a < 2 ^ w -> 0 <= b < 2 ^ w -> 0 <= Z.lor a b < 2 ^ w.
Proof.
  intros Ha Hb. apply in_range_bits; [apply Z.lor_nonneg; lia|]. intros l Hl.
  by rewrite Z.lor_spec, !testbit_out by done.
Qed.
Lemma land_range_l a b : 0 <= a < 2 ^ w -> 0 <= Z.land a b < 2 ^ w.
Proof.
  intros Ha. apply in_range_bits; [apply Z.land_nonneg; lia|]. intros l Hl.
  by rewrite Z.land_spec, testbit_out by done.
Qed.
Lemma land_range_r a b : 0 <= b < 2 ^ w -> 0 <= Z.land a b < 2 ^ w.
Proof. rewrite Z.land_comm. apply land_range_l. Qed.
End BitRange.

(** A disjunction of values with disjoint bits is their sum. *)
Lemma lor_add a b : Z.land a b = 0 -> Z.lor a b = a + b.
Proof. intros. rewrite <- Z.lxor_lor by done. symmetry. by apply Z.add_nocarry_lxor. Qed.

Lemma land_shiftl_small a b k : 0 <= k -> 0 <= a < 2 ^ k -> Z.land a (Z.shiftl b k) = 0.
Proof.
  intros Hk Ha. apply Z.bits_inj'. intros i Hi. rewrite Z.land_spec, Z.bits_0.
  destruct (Z.lt_ge_cases i k).
  - by rewrite Z.shiftl_spec_low, andb_false_r by lia.
  - by rewrite (testbit_out k) by lia.
Qed.

Lemma lor_shiftl_add a b k : 0 <= k -> 0 <= a < 2 ^ k -> Z.lor a (Z.shiftl b k) = a + b * 2 ^ k.
Proof.
  intros Hk Ha. by rewrite lor_add, Z.shiftl_mul_pow2 by (done || by apply land_shiftl_small).
Qed.

(** Flipping the lowest bit of an index. *)
Lemma sibling i : 0 <= i -> Z.lxor i 1 = if i mod 2 =? 0 then i + 1 else i - 1.
Proof.
  intros Hi. assert (Z.lor 1 (Z.shiftl (i / 2) 1) = 1 + i / 2 * 2) as Hl by (rewrite lor_shiftl_add; lia).
  rewrite <- Z.lxor_lor in Hl by (apply land_shiftl_small; lia).
  assert (Z.shiftl (i / 2) 1 = i / 2 * 2) as Hs by (rewrite Z.shiftl_mul_pow2; lia).
  destruct (Z.eqb_spec (i mod 2) 0) as [E|E].
  - assert (i = i / 2 * 2) as Ei by dlia. rewrite Hs, <- Ei in Hl. rewrite Z.lxor_comm. lia.
  - assert (i = 1 + i / 2 * 2) as Ei by dlia. rewrite <- Hl in Ei. rewrite Ei at 1.
    rewrite (Z.lxor_comm 1), Z.lxor_assoc, Z.lxor_nilpotent, Z.lxor_0_r, Hs. dlia.
Qed.

(** ** Buffers

    A C byte buffer is a [list Z] of bytes; sizes and offsets are [size_t]
    values, hence [Z].  [slice b off len] reads [len] bytes at [b + off] and
    [splice b off d] is [memcpy(b + off, d, length of d)].  Every use of [splice] in
    the development is shown to be in range ([splice_length]). *)

Definition zlen {A} (l : list A) : Z := Z.of_nat (length l).
Definition slice {A} (b : list A) (off len : Z) : list A :=
  take (Z.to_nat len) (drop (Z.to_nat off) b).
Definition splice {A} (b : list A) (off : Z) (d : list A) : list A :=
  take (Z.to_nat off) b ++ d ++ drop (Z.to_nat off + length d) b.
Definition zeros (n : Z) : list Z := replicate (Z.to_nat n) 0.
(** [b[i]], with [0] outside the buffer (never read by the code). *)
Definition byte_at (b : list Z) (i : Z) : Z := default 0 (b !! Z.to_nat i).
Definition is_byte (x : Z) : Prop := 0 <= x < 256.
Definition bytes_ok (b : list Z) : Prop := Forall is_byte b.

Lemma zlen_nonneg {A} (l : list A) : 0 <= zlen l.
Proof. unfold zlen; lia. Qed.
Lemma zlen_nil {A} : zlen (@nil A) = 0.
Proof. done. Qed.
Lemma zlen_cons {A} (x : A) l : zlen (x :: l) = 1 + zlen l.
Proof. unfold zlen; simpl; lia. Qed.
Lemma zlen_app {A} (l k : list A) : zlen (l ++ k) = zlen l + zlen k.
Proof. unfold zlen; rewrite length_app; lia. Qed.
Lemma zlen_zeros n : 0 <= n -> zlen (zeros n) = n.
Proof. unfold zlen, zeros; rewrite length_replicate; lia. Qed.
Lemma zlen_to_nat {A} (l : list A) : Z.to_nat (zlen l) = length l.
Proof. unfold zlen; lia. Qed.
#[export] Hint Resolve zlen_nonneg : cint.

Create Rewrite HintDb zlen.
#[export] Hint Rewrite @zlen_nil @zlen_cons @zlen_app zlen_zeros using lia : zlen.

Section Buffers.
Context {A : Type}.
Implicit Types (b d l k : list A) (off len : Z).

Lemma slice_length b off len :
  0 <= off -> 0 <= len -> off + len <= zlen b -> zlen (slice b off len) = len.
Proof. unfold zlen, slice; intros. rewrite length_take, length_drop; lia. Qed.

Lemma splice_length b off d :
  0 <= off -> off + zlen d <= zlen b -> length (splice b off d) = length b.
Proof.
  unfold zlen, splice; intros.
  rewrite !length_app, length_take, length_drop; lia.
Qed.

Lemma splice_zlen b off d :
  0 <= off -> off + zlen d <= zlen b -> zlen (splice b off d) = zlen b.
Proof. intros. unfold zlen at 1. by rewrite splice_length. Qed.

(** A write at the end of the written prefix extends that prefix. *)
Lemma take_splice_end b off d :
  0 <= off -> off + zlen d <= zlen b ->
  take (Z.to_nat (off + zlen d)) (splice b off d) = take (Z.to_nat off) b ++ d.
Proof.
  unfold zlen, splice; intros. rewrite app_assoc, take_app_length'; [done|].
  rewrite length_app, length_take; lia.
Qed.

Lemma take_splice_before b off d n :
  0 <= off -> off + zlen d <= zlen b -> 0 <= n <= off ->
  take (Z.to_nat n) (splice b off d) = take (Z.to_nat n) b.
Proof.
  unfold zlen, splice; intros.
  rewrite take_app_le by (rewrite length_take; lia).
  rewrite take_take. f_equal; lia.
Qed.

Lemma slice_splice_same b off d :
  0 <= off -> off + zlen d <= zlen b -> slice (splice b off d) off (zlen d) = d.
Proof.
  unfold zlen, splice, slice; intros.
  rewrite drop_app_length' by (rewrite length_take; lia).
  rewrite take_app_length'; [done|lia].
Qed.

Lemma splice_splice_same b off d d' :
  0 <= off -> off + zlen d <= zlen b -> length d' = length d ->
  splice (splice b off d) off d' = splice b off d'.
Proof.
  unfold zlen, splice; intros Ho Hb Hd. rewrite Hd. f_equal.
  - rewrite take_app_le by (rewrite length_take; lia).
    rewrite take_take; f_equal; lia.
  - f_equal. rewrite app_assoc, drop_app_length'; [done|].
    rewrite length_app, length_take; lia.
Qed.

Lemma slice_app_l l k off len :
  0 <= off -> 0 <= len -> off + len <= zlen l -> slice (l ++ k) off len = slice l off len.
Proof.
  unfold zlen, slice; intros.
  rewrite drop_app_le by lia. rewrite take_app_le; [done|]. rewrite length_drop; lia.
Qed.

Lemma slice_whole (x : list Z) n : zlen x = n -> slice x 0 n = x.
Proof. intros <-. unfold slice. rewrite zlen_to_nat. by apply take_ge. Qed.
Lemma slice_slice l n : slice (slice l 0 n) 0 n = slice l 0 n.
Proof. unfold slice. simpl. rewrite !drop_0, take_take. f_equal. lia. Qed.

Lemma slice_app_r l k : slice (l ++ k) (zlen l) (zlen k) = k.
Proof. unfold slice. rewrite !zlen_to_nat, drop_app_length, take_ge; done. Qed.
End Buffers.

(** Reading next to, and inside, what was written. *)
Lemma slice_splice_before {A} (b : list A) off d o len :
  0 <= o -> 0 <= len -> o + len <= off -> off + zlen d <= zlen b -> slice (splice b off d) o len = slice b o len.
Proof.
  intros Ho Hl Hle Hb. unfold splice, zlen in *. rewrite slice_app_l by (unfold zlen; rewrite ?length_take; lia).
  rewrite <- (take_drop (Z.to_nat off) b) at 2. rewrite slice_app_l; [done|lia|lia|]. unfold zlen. rewrite length_take. lia.
Qed.
Lemma slice_splice_after {A} (b : list A) off d o len :
  0 <= off -> off + zlen d <= o -> o <= zlen b -> slice (splice b off d) o len = slice b o len.
Proof.
  intros Ho Hle Hb. unfold slice, splice, zlen in *. f_equal. rewrite app_assoc, drop_app_ge by (rewrite length_app, length_take; lia).
  rewrite drop_drop. f_equal. rewrite length_app, length_take. lia.
Qed.
Lemma slice_splice_sub {A} (b : list A) off d o len :
  0 <= off -> off + zlen d <= zlen b -> off <= o -> 0 <= len -> o + len <= off + zlen d ->
  slice (splice b off d) o len = slice d (o - off) len.
Proof.
  intros Ho Hb Hle Hl Hs. unfold slice, splice, zlen in *.
  rewrite drop_app_ge by (rewrite length_take; lia). rewrite length_take.
  rewrite drop_app_le by lia. rewrite take_app_le by (rewrite length_drop; lia). do 2 f_equal. lia.
Qed.
Lemma slice_add {A} (b : list A) off n m :
  0 <= off -> 0 <= n -> 0 <= m -> slice b off (n + m) = slice b off n ++ slice b (off + n) m.
Proof.
  intros Ho Hn Hm. unfold slice. rewrite !Z2Nat.inj_add, <- drop_drop by lia.
  rewrite <- (take_drop (Z.to_nat n) (take (Z.to_nat n + Z.to_nat m) (drop (Z.to_nat off) b))), take_take, skipn_firstn_comm.
  f_equal; f_equal; lia.
Qed.

(** Overwriting the middle of a prefix. *)
Lemma take_splice_mid {A} (b pre hole data d : list A) n :
  take n b = pre ++ hole ++ data -> zlen d = zlen hole ->
  take n (splice b (zlen pre) d) = pre ++ d ++ data.
Proof.
  unfold zlen. intros Ht Hd. assert (length d = length hole) as Hd' by lia.
  assert (length (pre ++ d ++ data) = length (take n b)) as Hl by (rewrite Ht, !length_app; lia).
  unfold splice. rewrite Nat2Z.id, Hd', <- (take_drop n b), Ht.
  rewrite <- !app_assoc, take_app_length, <- drop_drop, drop_app_length, drop_app_length.
  destruct (decide (n <= length b)%nat) as [Hn|Hn].
  - rewrite !app_assoc, take_app_length'; [done|]. rewrite <- app_assoc, Hl, length_take. lia.
  - rewrite (drop_ge b n) by lia. rewrite app_nil_r, take_ge; [done|]. rewrite Hl, length_take. lia.
Qed.

(** Overwriting an array front to back: after [n] steps the first [n]
    elements are new, the others old. *)
Lemma overwrite_step {A} (new old : list A) n x :
  new !! n = Some x -> (n < length old)%nat ->
  <[n := x]> (take n new ++ drop n old) = take (S n) new ++ drop (S n) old.
Proof.
  intros Hx Hn. assert (n < length new)%nat by (by eapply lookup_lt_Some).
  assert (length (take n new) = n) as Ht by (rewrite length_take; lia).
  destruct (lookup_lt_is_Some_2 old n Hn) as [y Hy].
  rewrite (drop_S old y n Hy), (take_S_r new n x Hx).
  rewrite insert_app_r_alt by lia. rewrite Ht, Nat.sub_diag. simpl.
  by rewrite <- app_assoc.
Qed.

Lemma overwrite_lookup {A} (new old : list A) n :
  (n <= length new)%nat -> (take n new ++ drop n old) !! n = old !! n.
Proof.
  intros Hn. rewrite lookup_app_r; rewrite length_take; [|lia].
  rewrite lookup_drop. f_equal. lia.
Qed.

Lemma byte_at_lookup b i : 0 <= i < zlen b -> b !! Z.to_nat i = Some (byte_at b i).
Proof.
  unfold zlen, byte_at; intros.
  destruct (lookup_lt_is_Some_2 b (Z.to_nat i)) as [x ->]; [lia|done].
Qed.

Lemma byte_at_ok b i : bytes_ok b -> is_byte (byte_at b i).
Proof.
  intros Hb. unfold byte_at. destruct (b !! Z.to_nat i) as [x|] eqn:Hx; simpl.
  - by eapply Forall_lookup in Hb.
  - unfold is_byte; lia.
Qed.

(** ** Loops

    [for (i = start; i < start + n; ++i) body] where the body may return an
    error: the loop state is threaded through, [None] is the error return. *)

Fixpoint for_loop {St} (n : nat) (i : Z) (body : Z -> St -> option St) (s : St) : option St :=
  match n with
  | O => Some s
  | S n' => s' ← body i s; for_loop n' (i + 1) body s'
  end.

(** The same loop with a body that cannot fail. *)
Fixpoint for_each {St} (n : nat) (i : Z) (body : Z -> St -> St) (s : St) : St :=
  match n with
  | O => s
  | S n' => for_each n' (i + 1) body (body i s)
  end.

(** Total-correctness rule: a body that succeeds under the invariant and
    re-establishes it makes the loop succeed. *)
Lemma for_loop_total {St} (P : Z -> St -> Prop) n i body s :
  P i s ->
  (forall j t, i <= j < i + Z.of_nat n -> P j t ->
     exists t', body j t = Some t' /\ P (j + 1) t') ->
  exists s', for_loop n i body s = Some s' /\ P (i + Z.of_nat n) s'.
Proof.
  revert i s; induction n as [|n IH]; intros i s Hi Hstep; cbn [for_loop].
  - exists s. by replace (i + Z.of_nat 0) with i by lia.
  - destruct (Hstep i s) as (t & -> & Ht); [lia|done|]. cbn [mbind option_bind].
    destruct (IH (i + 1) t Ht) as (s' & -> & Hs').
    { intros j u Hj. apply Hstep; lia. }
    exists s'. split; [done|]. by replace (i + Z.of_nat (S n)) with (i + 1 + Z.of_nat n) by lia.
Qed.

(** Partial-correctness rule: what holds of a loop that returned. *)
Lemma for_loop_partial {St} (P : Z -> St -> Prop) n i body s s' :
  P i s ->
  (forall j t t', i <= j < i + Z.of_nat n -> P j t -> body j t = Some t' -> P (j + 1) t') ->
  for_loop n i body s = Some s' -> P (i + Z.of_nat n) s'.
Proof.
  revert i s; induction n as [|n IH]; intros i s Hi Hstep; cbn [for_loop].
  - intros [= <-]. by replace (i + Z.of_nat 0) with i by lia.
  - destruct (body i s) as [t|] eqn:Ht; cbn [mbind option_bind]; [|done]. intros Hl.
    replace (i + Z.of_nat (S n)) with (i + 1 + Z.of_nat n) by lia.
    eapply (IH (i + 1) t); [apply (Hstep i s); [lia|done|done]| |done].
    intros j u u' Hj. apply Hstep; lia.
Qed.

Lemma for_loop_ext {St} n i (b b' : Z -> St -> option St) s :
  (forall j t, i <= j < i + Z.of_nat n -> b j t = b' j t) -> for_loop n i b s = for_loop n i b' s.
Proof.
  revert i s. induction n as [|n IH]; intros i s Hb; cbn [for_loop]; [done|].
  rewrite (Hb i s) by lia. destruct (b' i s) as [t|]; [|done]. cbn [mbind option_bind].
  apply IH. intros j u Hj. apply Hb. lia.
Qed.

Lemma for_each_inv {St} (P : Z -> St -> Prop) n i body s :
  P i s ->
  (forall j t, i <= j < i + Z.of_nat n -> P j t -> P (j + 1) (body j t)) ->
  P (i + Z.of_nat n) (for_each n i body s).
Proof.
  revert i s; induction n as [|n IH]; intros i s Hi Hstep; cbn [for_each].
  - by replace (i + Z.of_nat 0) with i by lia.
  - replace (i + Z.of_nat (S n)) with (i + 1 + Z.of_nat n) by lia.
    apply IH; [apply Hstep; [lia|done]|]. intros j t Hj. apply Hstep; lia.
Qed.
