(* ===== verification/ConstantTime.v ===== *)
(** * Branch-free comparison and selection masks

    Model of [include/internal/constant_time.h].  The header writes the same
    bodies at several widths ([unsigned int], [size_t], [uint32_t],
    [uint64_t], [BN_ULONG]); [Section Width] states each body once for a width
    [w] and the C names are its instances.  The theorems show that the bit
    tricks compute the comparison they are named after, for every pair of
    operands, and that the select/swap/lookup functions implement the
    conditional the comments describe. *)
From S2P Require Import Prelude.

Section Width.
Context (w : Z).

Definition ct_msb (a : Z) : Z := wrap w (0 - Z.shiftr a (w - 1)).
Definition ct_lt (a b : Z) : Z :=
  ct_msb (Z.lxor a (Z.lor (Z.lxor a b) (Z.lxor (wrap w (a - b)) b))).
(** [~x] on a [w]-bit unsigned value. *)
Definition ct_not (x : Z) : Z := wrap w (Z.lnot x).
Definition ct_ge (a b : Z) : Z := ct_not (ct_lt a b).
Definition ct_is_zero (a : Z) : Z := ct_msb (Z.land (ct_not a) (wrap w (a - 1))).
Definition ct_eq (a b : Z) : Z := ct_is_zero (Z.lxor a b).
(** The value barriers return their argument unchanged. *)
Definition ct_select (mask a b : Z) : Z :=
  Z.lor (Z.land mask a) (Z.land (ct_not mask) b).
(** The all-ones/all-zeros mask of a boolean. *)
Definition mask_of (c : bool) : Z := if c then 2 ^ w - 1 else 0.
End Width.

(** The swap and lookup functions. *)
Definition ct_cond_swap (mask a b : Z) : Z * Z :=
  let x := Z.land (Z.lxor a b) mask in (Z.lxor a x, Z.lxor b x).

Definition value_barrier (a : Z) : Z := a.
Definition value_barrier_32 (a : Z) : Z := a.
Definition value_barrier_64 (a : Z) : Z := a.
Definition value_barrier_s (a : Z) : Z := a.
Definition value_barrier_8 (a : Z) : Z := a.

Definition constant_time_msb : Z -> Z := ct_msb 32.
Definition constant_time_msb_32 : Z -> Z := ct_msb 32.
Definition constant_time_msb_64 : Z -> Z := ct_msb 64.
Definition constant_time_msb_s : Z -> Z := ct_msb 64.
Definition constant_time_lt : Z -> Z -> Z := ct_lt 32.
Definition constant_time_lt_s : Z -> Z -> Z := ct_lt 64.
Definition constant_time_lt_8 (a b : Z) : Z := u8 (constant_time_lt a b).
Definition constant_time_lt_32 : Z -> Z -> Z := ct_lt 32.
Definition constant_time_lt_64 : Z -> Z -> Z := ct_lt 64.
(** [BN_ULONG] on a 64-bit platform. *)
Definition constant_time_msb_bn : Z -> Z := ct_msb 64.
Definition constant_time_lt_bn : Z -> Z -> Z := ct_lt 64.
Definition constant_time_is_zero_bn : Z -> Z := ct_is_zero 64.
Definition constant_time_eq_bn : Z -> Z -> Z := ct_eq 64.
Definition constant_time_select_bn : Z -> Z -> Z -> Z := ct_select 64.
Definition constant_time_ge : Z -> Z -> Z := ct_ge 32.
Definition constant_time_ge_s : Z -> Z -> Z := ct_ge 64.
Definition constant_time_ge_8 (a b : Z) : Z := u8 (constant_time_ge a b).
Definition constant_time_ge_8_s (a b : Z) : Z := u8 (constant_time_ge_s a b).
Definition constant_time_is_zero : Z -> Z := ct_is_zero 32.
Definition constant_time_is_zero_s : Z -> Z := ct_is_zero 64.
Definition constant_time_is_zero_8 (a : Z) : Z := u8 (constant_time_is_zero a).
Definition constant_time_is_zero_32 : Z -> Z := ct_is_zero 32.
Definition constant_time_is_zero_64 : Z -> Z := ct_is_zero 64.
Definition constant_time_eq : Z -> Z -> Z := ct_eq 32.
Definition constant_time_eq_s : Z -> Z -> Z := ct_eq 64.
Definition constant_time_eq_8 (a b : Z) : Z := u8 (constant_time_eq a b).
Definition constant_time_eq_8_s (a b : Z) : Z := u8 (constant_time_eq_s a b).
(** The arguments are [int]s, converted to [unsigned]. *)
Definition constant_time_eq_int (a b : Z) : Z := constant_time_eq (u32 a) (u32 b).
Definition constant_time_eq_int_8 (a b : Z) : Z := constant_time_eq_8 (u32 a) (u32 b).
Definition constant_time_select : Z -> Z -> Z -> Z := ct_select 32.
Definition constant_time_select_s : Z -> Z -> Z -> Z := ct_select 64.
Definition constant_time_select_8 (mask a b : Z) : Z := u8 (constant_time_select mask a b).
Definition constant_time_select_int (mask a b : Z) : Z :=
  i32 (constant_time_select mask (u32 a) (u32 b)).
Definition constant_time_select_int_s (mask a b : Z) : Z :=
  i32 (constant_time_select (u32 mask) (u32 a) (u32 b)).
Definition constant_time_select_32 : Z -> Z -> Z -> Z := ct_select 32.
Definition constant_time_select_64 : Z -> Z -> Z -> Z := ct_select 64.
Definition constant_time_cond_swap_32 : Z -> Z -> Z -> Z * Z := ct_cond_swap.
Definition constant_time_cond_swap_64 : Z -> Z -> Z -> Z * Z := ct_cond_swap.

(** One iteration of the loop of [constant_time_cond_swap_buff] on [a[i]],
    [b[i]]. *)
Definition cond_swap_byte (mask a b : Z) : Z * Z :=
  let tmp := Z.land (Z.lxor a b) (value_barrier_8 mask) in (Z.lxor a tmp, Z.lxor b tmp).

Definition constant_time_cond_swap_buff (mask : Z) (a b : list Z) (len : Z) : list Z * list Z :=
  for_each (Z.to_nat len) 0 (fun i ab =>
    let '(a, b) := ab in
    let '(x, y) := cond_swap_byte mask (byte_at a i) (byte_at b i) in
    (<[Z.to_nat i := x]> a, <[Z.to_nat i := y]> b)) (a, b).

(** [table] is the flat array of [numrows * rowsize] bytes. *)
Definition lookup_row (mask : Z) (row out : list Z) : list Z :=
  zip_with (fun o t => Z.lor o (constant_time_select_8 mask t 0)) out row.

Definition constant_time_lookup (table : list Z) (rowsize numrows idx : Z) : list Z :=
  (for_each (Z.to_nat numrows) 0 (fun i '(out, idx) =>
    let mask := u8 (constant_time_is_zero_s idx) in
    (lookup_row mask (slice table (i * rowsize) rowsize) out, u64 (idx - 1)))
    (zeros rowsize, idx)).1.

(** ** The masks are the comparisons *)

Section Proofs.
Context (w : Z) (Hw : 0 < w).
Implicit Types a b x : Z.

Lemma testbit_msb x : 0 <= x < 2 ^ w -> Z.testbit x (w - 1) = (2 ^ (w - 1) <=? x).
Proof.
  intros Hx. assert (2 ^ w = 2 * 2 ^ (w - 1)) as Hp.
  { rewrite <- Z.pow_succ_r by lia. f_equal; lia. }
  destruct (Z.leb_spec (2 ^ (w - 1)) x) as [Hle|Hlt].
  - rewrite Z.testbit_true by lia.
    replace (x / 2 ^ (w - 1)) with 1; [done|]. apply Z.div_unique with (x - 2 ^ (w - 1)); lia.
  - apply (testbit_out (w - 1)); lia.
Qed.

Lemma ct_msb_spec x : 0 <= x < 2 ^ w -> ct_msb w x = mask_of w (2 ^ (w - 1) <=? x).
Proof.
  intros Hx. unfold ct_msb, mask_of. rewrite Z.shiftr_div_pow2 by lia.
  assert (2 ^ w = 2 * 2 ^ (w - 1)) as Hp.
  { rewrite <- Z.pow_succ_r by lia. f_equal; lia. }
  destruct (Z.leb_spec (2 ^ (w - 1)) x).
  - replace (x / 2 ^ (w - 1)) with 1
      by (apply Z.div_unique with (x - 2 ^ (w - 1)); lia).
    unfold wrap. symmetry. apply Z.mod_unique with (-1); lia.
  - rewrite Z.div_small by lia. apply wrap_small. lia.
Qed.

Lemma ct_not_mask c : ct_not w (mask_of w c) = mask_of w (negb c).
Proof.
  assert (0 < 2 ^ w) by (apply Z.pow_pos_nonneg; lia).
  unfold ct_not, mask_of, wrap, Z.lnot. symmetry.
  destruct c; simpl; apply Z.mod_unique with (-1); lia.
Qed.

Lemma ct_lt_mask a b :
  0 <= a < 2 ^ w -> 0 <= b < 2 ^ w -> ct_lt w a b = mask_of w (a <? b).
Proof.
  intros Ha Hb. set (d := wrap w (a - b)).
  assert (0 <= d < 2 ^ w) as Hd by (apply wrap_range; lia).
  assert (d = if a <? b then a - b + 2 ^ w else a - b) as Ed.
  { unfold d, wrap. symmetry. destruct (Z.ltb_spec a b).
    - apply Z.mod_unique with (-1); lia.
    - apply Z.mod_unique with 0; lia. }
  assert (0 <= Z.lxor a (Z.lor (Z.lxor a b) (Z.lxor d b)) < 2 ^ w) as Hr.
  { repeat (apply lxor_range || apply lor_range); lia. }
  unfold ct_lt. fold d. rewrite ct_msb_spec by done. f_equal.
  rewrite <- testbit_msb by done.
  rewrite Z.lxor_spec, Z.lor_spec, !Z.lxor_spec, !testbit_msb by done.
  assert (2 ^ w = 2 * 2 ^ (w - 1)) as Hp.
  { rewrite <- Z.pow_succ_r by lia. f_equal; lia. }
  destruct (Z.ltb_spec a b), (Z.leb_spec (2 ^ (w - 1)) a), (Z.leb_spec (2 ^ (w - 1)) b),
    (Z.leb_spec (2 ^ (w - 1)) d); simpl; (done || lia).
Qed.

Lemma ct_ge_mask a b :
  0 <= a < 2 ^ w -> 0 <= b < 2 ^ w -> ct_ge w a b = mask_of w (b <=? a).
Proof.
  intros. unfold ct_ge. rewrite ct_lt_mask, ct_not_mask by done. f_equal. lia.
Qed.

Lemma ct_is_zero_mask a : 0 <= a < 2 ^ w -> ct_is_zero w a = mask_of w (a =? 0).
Proof.
  intros Ha. unfold ct_is_zero.
  assert (0 < 2 ^ w) by (apply Z.pow_pos_nonneg; lia).
  assert (2 ^ w = 2 * 2 ^ (w - 1)) as Hp.
  { rewrite <- Z.pow_succ_r by lia. f_equal; lia. }
  assert (ct_not w a = 2 ^ w - 1 - a) as En.
  { unfold ct_not, wrap, Z.lnot. symmetry. apply Z.mod_unique with (-1); lia. }
  assert (wrap w (a - 1) = if a =? 0 then 2 ^ w - 1 else a - 1) as Em.
  { unfold wrap. symmetry. destruct (Z.eqb_spec a 0).
    - apply Z.mod_unique with (-1); lia.
    - apply Z.mod_unique with 0; lia. }
  assert (0 <= ct_not w a < 2 ^ w) by lia.
  assert (0 <= wrap w (a - 1) < 2 ^ w) by (apply wrap_range; lia).
  rewrite ct_msb_spec by (apply land_range_l; lia). f_equal.
  rewrite <- testbit_msb by (apply land_range_l; lia).
  rewrite Z.land_spec, !testbit_msb by done. rewrite En, Em.
  destruct (Z.eqb_spec a 0), (Z.leb_spec (2 ^ (w - 1)) (2 ^ w - 1 - a)); simpl; lia.
Qed.

Lemma ct_eq_mask a b :
  0 <= a < 2 ^ w -> 0 <= b < 2 ^ w -> ct_eq w a b = mask_of w (a =? b).
Proof.
  intros. unfold ct_eq. rewrite ct_is_zero_mask by (apply lxor_range; lia).
  f_equal. destruct (Z.eqb_spec a b) as [->|Hne].
  - by rewrite Z.lxor_nilpotent.
  - apply Z.eqb_neq. intros Hx%Z.lxor_eq. done.
Qed.

Lemma land_ones_small a : 0 <= a < 2 ^ w -> Z.land (2 ^ w - 1) a = a.
Proof.
  intros. rewrite Z.land_comm, Z.sub_1_r, <- Z.ones_equiv, Z.land_ones by lia.
  apply Z.mod_small; lia.
Qed.

Lemma ct_select_mask c a b :
  0 <= a < 2 ^ w -> 0 <= b < 2 ^ w -> ct_select w (mask_of w c) a b = if c then a else b.
Proof.
  intros. unfold ct_select. rewrite ct_not_mask. unfold mask_of.
  destruct c; simpl.
  - by rewrite land_ones_small, Z.land_0_l, Z.lor_0_r by done.
  - by rewrite land_ones_small, Z.land_0_l, Z.lor_0_l by done.
Qed.

Lemma ct_cond_swap_mask c a b :
  0 <= a < 2 ^ w -> 0 <= b < 2 ^ w ->
  ct_cond_swap (mask_of w c) a b = if c then (b, a) else (a, b).
Proof.
  intros. unfold ct_cond_swap, mask_of. rewrite Z.land_comm. destruct c.
  - rewrite land_ones_small by (apply lxor_range; lia).
    f_equal.
    + by rewrite <- Z.lxor_assoc, Z.lxor_nilpotent, Z.lxor_0_l.
    + by rewrite (Z.lxor_comm a b), <- Z.lxor_assoc, Z.lxor_nilpotent, Z.lxor_0_l.
  - by rewrite Z.land_0_l, !Z.lxor_0_r.
Qed.
End Proofs.

(** ** The C names

    The results the callers use, stated for the C functions. *)

Lemma constant_time_lt_32_spec a b :
  0 <= a < 4294967296 -> 0 <= b < 4294967296 ->
  constant_time_lt_32 a b = mask_of 32 (a <? b).
Proof. intros. by apply ct_lt_mask. Qed.

Lemma constant_time_lt_spec a b :
  0 <= a < 4294967296 -> 0 <= b < 4294967296 ->
  constant_time_lt a b = mask_of 32 (a <? b).
Proof. intros. by apply ct_lt_mask. Qed.

Lemma constant_time_ge_spec a b :
  0 <= a < 4294967296 -> 0 <= b < 4294967296 ->
  constant_time_ge a b = mask_of 32 (b <=? a).
Proof. intros. by apply ct_ge_mask. Qed.

Lemma constant_time_select_32_spec c a b :
  0 <= a < 4294967296 -> 0 <= b < 4294967296 ->
  constant_time_select_32 (mask_of 32 c) a b = if c then a else b.
Proof. intros. by apply ct_select_mask. Qed.

Lemma constant_time_select_8_spec c a b :
  0 <= a < 256 -> 0 <= b < 256 ->
  constant_time_select_8 (mask_of 8 c) a b = if c then a else b.
Proof.
  intros. unfold constant_time_select_8, constant_time_select, ct_select.
  change (mask_of 8 c) with (if c then 2 ^ 8 - 1 else 0). destruct c.
  - rewrite (land_ones_small 8) by lia.
    change (ct_not 32 (2 ^ 8 - 1)) with (Z.shiftl 16777215 8).
    rewrite (Z.land_comm _ b), land_shiftl_small, Z.lor_0_r by lia. by apply u8_small.
  - change (ct_not 32 0) with (2 ^ 32 - 1).
    rewrite (land_ones_small 32), Z.land_0_l, Z.lor_0_l by lia. by apply u8_small.
Qed.

Lemma constant_time_select_int_spec c a b :
  0 <= a < 4294967296 -> 0 <= b < 4294967296 ->
  u32 (constant_time_select_int (mask_of 32 c) a b) = if c then a else b.
Proof.
  intros. unfold constant_time_select_int, constant_time_select.
  rewrite (u32_small a), (u32_small b), ct_select_mask by lia. destruct c; cint.
Qed.

Lemma constant_time_is_zero_s_spec a :
  0 <= a < 18446744073709551616 -> constant_time_is_zero_s a = mask_of 64 (a =? 0).
Proof. intros. by apply ct_is_zero_mask. Qed.

Lemma u8_mask c : u8 (mask_of 64 c) = mask_of 8 c.
Proof. by destruct c. Qed.

#[export] Hint Rewrite constant_time_lt_32_spec constant_time_lt_spec constant_time_ge_spec
  constant_time_select_32_spec constant_time_select_int_spec using cint : cint.

(** ** Buffer swap and table lookup *)

Lemma cond_swap_byte_spec c a b :
  is_byte a -> is_byte b ->
  cond_swap_byte (mask_of 8 c) a b = if c then (b, a) else (a, b).
Proof. intros. by apply (ct_cond_swap_mask 8). Qed.

(** [constant_time_cond_swap_buff] swaps the first [len] bytes of the two
    buffers, or leaves both alone, according to the mask. *)
Lemma cond_swap_buff_spec c a b len :
  bytes_ok a -> bytes_ok b -> zlen a = len -> zlen b = len ->
  constant_time_cond_swap_buff (mask_of 8 c) a b len = if c then (b, a) else (a, b).
Proof.
  intros Ha Hb La Lb. unfold constant_time_cond_swap_buff.
  set (body := fun (i : Z) (ab : list Z * list Z) => _).
  pose (P := fun (i : Z) (ab : list Z * list Z) =>
    ab = if c then (take (Z.to_nat i) b ++ drop (Z.to_nat i) a,
                    take (Z.to_nat i) a ++ drop (Z.to_nat i) b) else (a, b)).
  assert (P (0 + Z.of_nat (Z.to_nat len)) (for_each (Z.to_nat len) 0 body (a, b))) as HP.
  { apply for_each_inv; unfold P; [by destruct c|].
    intros j [x y] Hj Hxy. unfold body.
    destruct c; simplify_eq; unfold byte_at; rewrite ?overwrite_lookup by (unfold zlen in *; lia).
    - fold (byte_at a j) (byte_at b j).
      rewrite cond_swap_byte_spec by (by apply byte_at_ok).
      replace (Z.to_nat (j + 1)) with (S (Z.to_nat j)) by lia.
      rewrite !overwrite_step; [done|..];
        first [apply byte_at_lookup; lia | unfold zlen in *; lia].
    - fold (byte_at a j) (byte_at b j).
      rewrite cond_swap_byte_spec by (by apply byte_at_ok).
      rewrite !list_insert_id; [done|..]; apply byte_at_lookup; lia. }
  unfold P in HP. replace (Z.to_nat (0 + Z.of_nat (Z.to_nat len))) with (Z.to_nat len) in HP by lia.
  rewrite HP. destruct c; [|done]. unfold zlen in *.
  by rewrite !take_ge, !drop_ge, !app_nil_r by lia.
Qed.

Lemma lookup_row_miss row out :
  bytes_ok row -> length row = length out -> lookup_row (mask_of 8 false) row out = out.
Proof.
  unfold lookup_row. revert out.
  induction row as [|t row IH]; intros [|o out] Hr Hl; simplify_eq/=; [done|].
  apply Forall_cons in Hr as [Ht Hr]. unfold is_byte in Ht.
  by rewrite (constant_time_select_8_spec false), Z.lor_0_r, IH by (done || lia).
Qed.

Lemma lookup_row_hit row :
  bytes_ok row -> lookup_row (mask_of 8 true) row (zeros (zlen row)) = row.
Proof.
  unfold lookup_row, zeros, zlen. rewrite Nat2Z.id.
  induction 1 as [|t row Ht Hr IH]; [done|]. unfold is_byte in Ht. cbn [length replicate zip_with].
  by rewrite (constant_time_select_8_spec true), IH by lia.
Qed.

(** [constant_time_lookup] returns row [idx] of the table, or zeros when
    [idx] is not the number of a row. *)
Lemma lookup_spec table rowsize numrows idx :
  bytes_ok table -> 0 <= rowsize -> 0 <= numrows < 18446744073709551616 ->
  zlen table = numrows * rowsize -> 0 <= idx < 18446744073709551616 ->
  constant_time_lookup table rowsize numrows idx =
    if idx <? numrows then slice table (idx * rowsize) rowsize else zeros rowsize.
Proof.
  intros Ht Hr Hn Hl Hi. unfold constant_time_lookup.
  set (body := fun (i : Z) (s : list Z * Z) => _).
  pose (row i := slice table (i * rowsize) rowsize).
  assert (forall i, 0 <= i < numrows -> bytes_ok (row i) /\ zlen (row i) = rowsize) as Hrow.
  { intros i Hir. split; [by apply Forall_take, Forall_drop|]. apply slice_length; nia. }
  pose (P := fun (i : Z) (s : list Z * Z) =>
    s = (if idx <? i then row idx else zeros rowsize, u64 (idx - i))).
  pose proof (for_each_inv P (Z.to_nat numrows) 0 body (zeros rowsize, idx)) as HP.
  rewrite Z2Nat.id, Z.add_0_l in HP by lia.
  rewrite HP; [done| |].
  - unfold P. rewrite Z.sub_0_r, u64_small by lia. destruct (Z.ltb_spec idx 0); [lia|done].
  - intros j s Hj Hs. unfold P in Hs. subst s. destruct (Hrow j Hj) as [Hb Hz].
    unfold P, body. fold (row j). rewrite constant_time_is_zero_s_spec, u8_mask by apply u64_range.
    f_equal; [|cint]. destruct (Z.eqb_spec (u64 (idx - j)) 0) as [E|E].
    + assert (j = idx) as -> by cint.
      destruct (Z.ltb_spec idx idx), (Z.ltb_spec idx (idx + 1)); try lia.
      rewrite <- Hz at 1. by apply lookup_row_hit.
    + assert (j <> idx) as Hne by cint.
      destruct (Z.ltb_spec idx j), (Z.ltb_spec idx (j + 1)); try lia;
        apply lookup_row_miss; try done; unfold zlen, zeros in *.
      * destruct (Hrow idx) as [_ Hz']; [lia|]. unfold zlen in Hz'. lia.
      * rewrite length_replicate. lia.
Qed.

(** ** Properties *)

(** C26: the branch-free masks are the comparisons they are named after.  For all
    operands of the type's width, at 32 and at 64 bits, the less-than, at-least,
    zero and equality functions return all ones when the comparison holds and zero
    when it does not, and selection with such a mask picks the first or the second
    value. *)
Theorem constant_time_masks_correct (w a b : Z) (c : bool) :
  w = 32 \/ w = 64 -> 0 <= a < 2 ^ w -> 0 <= b < 2 ^ w ->
  let lt := if w =? 32 then constant_time_lt else constant_time_lt_64 in
  let ge := if w =? 32 then constant_time_ge else constant_time_ge_s in
  let isz := if w =? 32 then constant_time_is_zero_32 else constant_time_is_zero_64 in
  let eq := if w =? 32 then constant_time_eq else constant_time_eq_s in
  let sel := if w =? 32 then constant_time_select_32 else constant_time_select_64 in
  lt a b = mask_of w (a <? b) /\ ge a b = mask_of w (b <=? a) /\ isz a = mask_of w (a =? 0) /\
  eq a b = mask_of w (a =? b) /\ sel (mask_of w c) a b = if c then a else b.
Proof.
  intros [-> | ->] Ha Hb; cbn [Z.eqb Pos.eqb];
    (split_and!; [by apply ct_lt_mask|by apply ct_ge_mask|by apply ct_is_zero_mask|by apply ct_eq_mask
      |by apply ct_select_mask]).
Qed.

Lemma constant_time_masks_correct_witness :
  constant_time_lt 3 4294967295 = 4294967295 /\ constant_time_ge 3 4294967295 = 0 /\
  constant_time_is_zero_32 3 = 0 /\ constant_time_eq 3 4294967295 = 0 /\
  constant_time_select_32 4294967295 3 4294967295 = 3.
Proof. apply (constant_time_masks_correct 32 3 4294967295 true); [by left|lia|lia]. Defined.

(** The branch-free buffer operations.  [constant_time_cond_swap_buff] swaps
    two buffers or leaves both alone according to its mask, and
    [constant_time_lookup] returns the row of the table with the given number, or
    zeros when there is no such row. *)
Lemma constant_time_buffers_correct c a b len table rowsize numrows idx :
  bytes_ok a -> bytes_ok b -> zlen a = len -> zlen b = len ->
  bytes_ok table -> 0 <= rowsize -> 0 <= numrows < 18446744073709551616 ->
  zlen table = numrows * rowsize -> 0 <= idx < 18446744073709551616 ->
  constant_time_cond_swap_buff (mask_of 8 c) a b len = (if c then (b, a) else (a, b)) /\
  constant_time_lookup table rowsize numrows idx =
    (if idx <? numrows then slice table (idx * rowsize) rowsize else zeros rowsize).
Proof. intros. split; [by apply cond_swap_buff_spec|by apply lookup_spec]. Qed.
