(* ===== verification/ByteOrder.v ===== *)
(** * Byte-order conversion

    Model of the portable bodies of [include/openssl/byteorder.h].  A store
    writes at an offset of a buffer, a load reads at one; the pointer the C
    functions return (their argument advanced by the width) is recomputed by
    the callers.  The byte lists are related to the values they denote by
    [le_val] and [be_val], and every store/load pair is shown to round-trip. *)
From S2P Require Import Prelude.

Definition u16_le (val : Z) : list Z := [Z.land val 255; Z.land (Z.shiftr val 8) 255].
Definition u32_le (val : Z) : list Z :=
  [Z.land val 255; Z.land (Z.shiftr val 8) 255; Z.land (Z.shiftr val 16) 255;
   Z.land (Z.shiftr val 24) 255].
Definition u64_le (val : Z) : list Z :=
  [Z.land val 255; Z.land (Z.shiftr val 8) 255; Z.land (Z.shiftr val 16) 255;
   Z.land (Z.shiftr val 24) 255; Z.land (Z.shiftr val 32) 255; Z.land (Z.shiftr val 40) 255;
   Z.land (Z.shiftr val 48) 255; Z.land (Z.shiftr val 56) 255].
Definition u16_be (val : Z) : list Z := [Z.land (Z.shiftr val 8) 255; Z.land val 255].
Definition u32_be (val : Z) : list Z :=
  [Z.land (Z.shiftr val 24) 255; Z.land (Z.shiftr val 16) 255; Z.land (Z.shiftr val 8) 255;
   Z.land val 255].
Definition u64_be (val : Z) : list Z :=
  [Z.land (Z.shiftr val 56) 255; Z.land (Z.shiftr val 48) 255; Z.land (Z.shiftr val 40) 255;
   Z.land (Z.shiftr val 32) 255; Z.land (Z.shiftr val 24) 255; Z.land (Z.shiftr val 16) 255;
   Z.land (Z.shiftr val 8) 255; Z.land val 255].

Definition OPENSSL_store_u16_le (out : list Z) (off val : Z) : list Z := splice out off (u16_le val).
Definition OPENSSL_store_u16_be (out : list Z) (off val : Z) : list Z := splice out off (u16_be val).
Definition OPENSSL_store_u32_le (out : list Z) (off val : Z) : list Z := splice out off (u32_le val).
Definition OPENSSL_store_u32_be (out : list Z) (off val : Z) : list Z := splice out off (u32_be val).
Definition OPENSSL_store_u64_le (out : list Z) (off val : Z) : list Z := splice out off (u64_le val).
Definition OPENSSL_store_u64_be (out : list Z) (off val : Z) : list Z := splice out off (u64_be val).

(** [b0 | b1 << 8 | ...], the bytes given least significant first. *)
Definition or2 (b0 b1 : Z) : Z := Z.lor b0 (Z.shiftl b1 8).
Definition or4 (b0 b1 b2 b3 : Z) : Z :=
  Z.lor (Z.lor (Z.lor b0 (Z.shiftl b1 8)) (Z.shiftl b2 16)) (Z.shiftl b3 24).
Definition or8 (b0 b1 b2 b3 b4 b5 b6 b7 : Z) : Z :=
  Z.lor (Z.lor (Z.lor (Z.lor (or4 b0 b1 b2 b3) (Z.shiftl b4 32)) (Z.shiftl b5 40))
    (Z.shiftl b6 48)) (Z.shiftl b7 56).

Definition OPENSSL_load_u16_le (b : list Z) (o : Z) : Z := or2 (byte_at b o) (byte_at b (o + 1)).
Definition OPENSSL_load_u16_be (b : list Z) (o : Z) : Z := or2 (byte_at b (o + 1)) (byte_at b o).
Definition OPENSSL_load_u32_le (b : list Z) (o : Z) : Z :=
  or4 (byte_at b o) (byte_at b (o + 1)) (byte_at b (o + 2)) (byte_at b (o + 3)).
Definition OPENSSL_load_u32_be (b : list Z) (o : Z) : Z :=
  or4 (byte_at b (o + 3)) (byte_at b (o + 2)) (byte_at b (o + 1)) (byte_at b o).
Definition OPENSSL_load_u64_le (b : list Z) (o : Z) : Z :=
  or8 (byte_at b o) (byte_at b (o + 1)) (byte_at b (o + 2)) (byte_at b (o + 3))
      (byte_at b (o + 4)) (byte_at b (o + 5)) (byte_at b (o + 6)) (byte_at b (o + 7)).
Definition OPENSSL_load_u64_be (b : list Z) (o : Z) : Z :=
  or8 (byte_at b (o + 7)) (byte_at b (o + 6)) (byte_at b (o + 5)) (byte_at b (o + 4))
      (byte_at b (o + 3)) (byte_at b (o + 2)) (byte_at b (o + 1)) (byte_at b o).

(** ** Values of byte strings *)

Fixpoint le_val (b : list Z) : Z :=
  match b with [] => 0 | x :: b' => x + 256 * le_val b' end.
Definition be_val (b : list Z) : Z := le_val (reverse b).
Fixpoint le_bytes (n : nat) (v : Z) : list Z :=
  match n with O => [] | S n' => v mod 256 :: le_bytes n' (v / 256) end.
Definition be_bytes (n : nat) (v : Z) : list Z := reverse (le_bytes n v).

Lemma le_bytes_length n v : length (le_bytes n v) = n.
Proof. revert v; induction n; simpl; auto. Qed.
Lemma le_bytes_ok n v : bytes_ok (le_bytes n v).
Proof.
  revert v; induction n; intros v; simpl; constructor; [|apply IHn].
  unfold is_byte. apply Z.mod_pos_bound; lia.
Qed.
Lemma be_bytes_length n v : length (be_bytes n v) = n.
Proof. unfold be_bytes. by rewrite length_reverse, le_bytes_length. Qed.
Lemma be_bytes_ok n v : bytes_ok (be_bytes n v).
Proof. apply Forall_reverse, le_bytes_ok. Qed.

Lemma le_val_bytes n v : le_val (le_bytes n v) = v mod 256 ^ Z.of_nat n.
Proof.
  revert v; induction n as [|n IH]; intros v; cbn [le_bytes le_val].
  - by rewrite Z.mod_1_r.
  - rewrite IH, Nat2Z.inj_succ, Z.pow_succ_r by lia.
    rewrite Z.rem_mul_r by (try apply Z.pow_nonzero; lia). lia.
Qed.

Lemma le_bytes_val b : bytes_ok b -> le_bytes (length b) (le_val b) = b.
Proof.
  induction 1 as [|x b Hx Hb IH]; [done|]. unfold is_byte in Hx. simpl.
  rewrite (Z.mul_comm 256), Z.mod_add, Z.div_add, Z.mod_small, Z.div_small, Z.add_0_l by lia.
  by rewrite IH.
Qed.

Lemma le_val_range b : bytes_ok b -> 0 <= le_val b < 256 ^ zlen b.
Proof.
  induction 1 as [|x b Hx Hb IH]; [by compute|]. unfold is_byte in Hx.
  rewrite zlen_cons, Z.pow_add_r by (pose proof (zlen_nonneg b); lia). simpl le_val. lia.
Qed.

Lemma be_val_bytes n v : be_val (be_bytes n v) = v mod 256 ^ Z.of_nat n.
Proof. unfold be_val, be_bytes. by rewrite reverse_involutive, le_val_bytes. Qed.
Lemma be_bytes_val b : bytes_ok b -> be_bytes (length b) (be_val b) = b.
Proof.
  intros Hb. unfold be_val, be_bytes.
  rewrite <- (length_reverse b), le_bytes_val by (by apply Forall_reverse).
  apply reverse_involutive.
Qed.

Lemma be_bytes_S n v : be_bytes (S n) v = be_bytes n (v / 256) ++ [v mod 256].
Proof. unfold be_bytes. cbn [le_bytes]. by rewrite reverse_cons. Qed.

Lemma zlen_be_bytes n v : zlen (be_bytes n v) = Z.of_nat n.
Proof. unfold zlen. by rewrite be_bytes_length. Qed.

Lemma be_bytes_add n m v : be_bytes (n + m) v = be_bytes n (v / 256 ^ Z.of_nat m) ++ be_bytes m v.
Proof.
  revert v. induction m as [|m IH]; intros v.
  - rewrite Nat.add_0_r, Z.div_1_r. by rewrite app_nil_r.
  - rewrite Nat.add_succ_r, !be_bytes_S, IH, app_assoc. do 3 f_equal.
    rewrite Nat2Z.inj_succ, Z.pow_succ_r, Z.div_div by (try apply Z.pow_pos_nonneg; lia). done.
Qed.
Lemma be_bytes_0 n : be_bytes n 0 = replicate n 0.
Proof.
  induction n as [|n IH]; [done|]. rewrite be_bytes_S. change (0 / 256) with 0. rewrite IH.
  change (0 mod 256) with 0. by rewrite <- replicate_cons_app.
Qed.

(** ** The C functions denote these values *)

Lemma land_255 x : Z.land x 255 = x mod 256.
Proof. change 255 with (Z.ones 8). by rewrite Z.land_ones. Qed.

Lemma byte_shiftr_mod v k : 0 <= k -> Z.land (Z.shiftr v k) 255 = v / 2 ^ k mod 256.
Proof. intros. by rewrite land_255, Z.shiftr_div_pow2. Qed.

Ltac le_step := rewrite ?byte_shiftr_mod, ?land_255 by lia; cbn [le_bytes];
  rewrite ?Z.div_div by lia; reflexivity.

Lemma u16_le_eq v : u16_le v = le_bytes 2 v.
Proof. unfold u16_le. le_step. Qed.
Lemma u32_le_eq v : u32_le v = le_bytes 4 v.
Proof. unfold u32_le. le_step. Qed.
Lemma u64_le_eq v : u64_le v = le_bytes 8 v.
Proof. unfold u64_le. le_step. Qed.
Lemma u16_be_eq v : u16_be v = be_bytes 2 v.
Proof. unfold be_bytes. by rewrite <- u16_le_eq. Qed.
Lemma u32_be_eq v : u32_be v = be_bytes 4 v.
Proof. unfold be_bytes. by rewrite <- u32_le_eq. Qed.
Lemma u64_be_eq v : u64_be v = be_bytes 8 v.
Proof. unfold be_bytes. by rewrite <- u64_le_eq. Qed.

Lemma or2_val b0 b1 : is_byte b0 -> is_byte b1 -> or2 b0 b1 = le_val [b0; b1].
Proof. unfold is_byte, or2; intros. rewrite lor_shiftl_add by lia. simpl. lia. Qed.
Lemma or4_val b0 b1 b2 b3 :
  is_byte b0 -> is_byte b1 -> is_byte b2 -> is_byte b3 -> or4 b0 b1 b2 b3 = le_val [b0; b1; b2; b3].
Proof.
  unfold is_byte, or4; intros.
  rewrite (lor_shiftl_add b0), (lor_shiftl_add _ b2), (lor_shiftl_add _ b3) by lia. simpl. lia.
Qed.
Lemma or8_val b0 b1 b2 b3 b4 b5 b6 b7 :
  bytes_ok [b0; b1; b2; b3; b4; b5; b6; b7] ->
  or8 b0 b1 b2 b3 b4 b5 b6 b7 = le_val [b0; b1; b2; b3; b4; b5; b6; b7].
Proof.
  unfold bytes_ok. rewrite !Forall_cons. unfold or8. intros.
  rewrite or4_val by tauto. unfold is_byte in *. cbn [le_val].
  rewrite (lor_shiftl_add _ b4), (lor_shiftl_add _ b5), (lor_shiftl_add _ b6),
    (lor_shiftl_add _ b7) by lia. lia.
Qed.

(** The slice of [n] bytes at [o], byte by byte. *)
Lemma slice_cons b o n :
  0 <= o -> 0 < n -> o + n <= zlen b -> slice b o n = byte_at b o :: slice b (o + 1) (n - 1).
Proof.
  unfold zlen. intros Ho Hn Hl. unfold slice. erewrite drop_S by (apply byte_at_lookup; unfold zlen; lia).
  replace (Z.to_nat n) with (S (Z.to_nat (n - 1))) by lia. cbn [take]. do 2 f_equal.
  f_equal. lia.
Qed.
Lemma slice_nil {A} (b : list A) o : slice b o 0 = [].
Proof. done. Qed.


Lemma load_u16_le_val b o :
  bytes_ok b -> 0 <= o -> o + 2 <= zlen b -> OPENSSL_load_u16_le b o = le_val (slice b o 2).
Proof.
  intros Hb Ho Hl. unfold OPENSSL_load_u16_le.
  rewrite or2_val by (by apply byte_at_ok).
  rewrite !slice_cons by lia. rewrite <- ?Z.add_assoc. done.
Qed.
Lemma load_u32_le_val b o :
  bytes_ok b -> 0 <= o -> o + 4 <= zlen b -> OPENSSL_load_u32_le b o = le_val (slice b o 4).
Proof.
  intros Hb Ho Hl. unfold OPENSSL_load_u32_le.
  rewrite or4_val by (by apply byte_at_ok).
  rewrite !slice_cons by lia. rewrite <- ?Z.add_assoc. done.
Qed.
Lemma load_u64_le_val b o :
  bytes_ok b -> 0 <= o -> o + 8 <= zlen b -> OPENSSL_load_u64_le b o = le_val (slice b o 8).
Proof.
  intros Hb Ho Hl. unfold OPENSSL_load_u64_le.
  rewrite or8_val by (repeat constructor; by apply byte_at_ok).
  rewrite !slice_cons by lia. rewrite <- ?Z.add_assoc. done.
Qed.
Lemma load_u16_be_val b o :
  bytes_ok b -> 0 <= o -> o + 2 <= zlen b -> OPENSSL_load_u16_be b o = be_val (slice b o 2).
Proof.
  intros Hb Ho Hl. unfold OPENSSL_load_u16_be.
  rewrite or2_val by (by apply byte_at_ok).
  rewrite !slice_cons by lia. rewrite <- ?Z.add_assoc. done.
Qed.
Lemma load_u32_be_val b o :
  bytes_ok b -> 0 <= o -> o + 4 <= zlen b -> OPENSSL_load_u32_be b o = be_val (slice b o 4).
Proof.
  intros Hb Ho Hl. unfold OPENSSL_load_u32_be.
  rewrite or4_val by (by apply byte_at_ok).
  rewrite !slice_cons by lia. rewrite <- ?Z.add_assoc. done.
Qed.
Lemma load_u64_be_val b o :
  bytes_ok b -> 0 <= o -> o + 8 <= zlen b -> OPENSSL_load_u64_be b o = be_val (slice b o 8).
Proof.
  intros Hb Ho Hl. unfold OPENSSL_load_u64_be.
  rewrite or8_val by (repeat constructor; by apply byte_at_ok).
  rewrite !slice_cons by lia. rewrite <- ?Z.add_assoc. done.
Qed.

(** Byte strings stay byte strings. *)
Lemma splice_ok b o d : bytes_ok b -> bytes_ok d -> bytes_ok (splice b o d).
Proof.
  intros. unfold splice, bytes_ok. rewrite !Forall_app. eauto using Forall_take, Forall_drop.
Qed.
Lemma slice_ok b o n : bytes_ok b -> bytes_ok (slice b o n).
Proof. intros. by apply Forall_take, Forall_drop. Qed.
Lemma zeros_ok n : bytes_ok (zeros n).
Proof. apply Forall_replicate. unfold is_byte; lia. Qed.
#[export] Hint Resolve splice_ok slice_ok zeros_ok le_bytes_ok be_bytes_ok : cint.

(** Each store followed by the matching load returns the stored value. *)
Lemma load_after_store (ld : list Z -> Z -> Z) (val : list Z -> Z) d b o :
  (forall b' o', bytes_ok b' -> 0 <= o' -> o' + zlen d <= zlen b' ->
     ld b' o' = val (slice b' o' (zlen d))) ->
  bytes_ok b -> bytes_ok d -> 0 <= o -> o + zlen d <= zlen b -> ld (splice b o d) o = val d.
Proof.
  intros Hld Hb Hd Ho Hl. rewrite Hld.
  - by rewrite slice_splice_same.
  - by apply splice_ok.
  - done.
  - by rewrite splice_zlen.
Qed.

Lemma u16_store_load b o v :
  bytes_ok b -> 0 <= o -> o + 2 <= zlen b -> 0 <= v < 65536 ->
  OPENSSL_load_u16_le (OPENSSL_store_u16_le b o v) o = v /\
  OPENSSL_load_u16_be (OPENSSL_store_u16_be b o v) o = v.
Proof.
  intros. unfold OPENSSL_store_u16_le, OPENSSL_store_u16_be. rewrite u16_le_eq, u16_be_eq. split.
  - rewrite (load_after_store _ le_val), le_val_bytes by eauto using load_u16_le_val, le_bytes_ok.
    apply Z.mod_small; lia.
  - rewrite (load_after_store _ be_val), be_val_bytes by eauto using load_u16_be_val, be_bytes_ok.
    apply Z.mod_small; lia.
Qed.

Lemma u32_store_load b o v :
  bytes_ok b -> 0 <= o -> o + 4 <= zlen b -> 0 <= v < 4294967296 ->
  OPENSSL_load_u32_le (OPENSSL_store_u32_le b o v) o = v /\
  OPENSSL_load_u32_be (OPENSSL_store_u32_be b o v) o = v.
Proof.
  intros. unfold OPENSSL_store_u32_le, OPENSSL_store_u32_be. rewrite u32_le_eq, u32_be_eq. split.
  - rewrite (load_after_store _ le_val), le_val_bytes by eauto using load_u32_le_val, le_bytes_ok.
    apply Z.mod_small; lia.
  - rewrite (load_after_store _ be_val), be_val_bytes by eauto using load_u32_be_val, be_bytes_ok.
    apply Z.mod_small; lia.
Qed.

Lemma u64_store_load b o v :
  bytes_ok b -> 0 <= o -> o + 8 <= zlen b -> 0 <= v < 18446744073709551616 ->
  OPENSSL_load_u64_le (OPENSSL_store_u64_le b o v) o = v /\
  OPENSSL_load_u64_be (OPENSSL_store_u64_be b o v) o = v.
Proof.
  intros. unfold OPENSSL_store_u64_le, OPENSSL_store_u64_be. rewrite u64_le_eq, u64_be_eq. split.
  - rewrite (load_after_store _ le_val), le_val_bytes by eauto using load_u64_le_val, le_bytes_ok.
    apply Z.mod_small; lia.
  - rewrite (load_after_store _ be_val), be_val_bytes by eauto using load_u64_be_val, be_bytes_ok.
    apply Z.mod_small; lia.
Qed.

(** The bytes a store writes do not depend on bits above the width. *)
Lemma le_bytes_mod n v : le_bytes n (v mod 256 ^ Z.of_nat n) = le_bytes n v.
Proof. by rewrite <- le_val_bytes, <- (le_bytes_length n v) at 1; rewrite le_bytes_val by apply le_bytes_ok. Qed.
Lemma be_bytes_mod n v : be_bytes n (v mod 256 ^ Z.of_nat n) = be_bytes n v.
Proof. unfold be_bytes. by rewrite le_bytes_mod. Qed.
