(* ===== verification/Packet.v ===== *)
(** * Read-only packets

    Model of the [PACKET] half of [include/internal/packet.h]: a cursor
    ([curr], [remaining]) over a byte buffer that the packet does not own.  The
    buffer is part of the record; a pointer into it is an offset.  A reader
    returns [None] where the C function returns 0 and otherwise the value it
    stores through its out-parameter and the updated packet.

    The specification of a packet is the list of bytes still to be read
    ([pkt_view]); the theorems show that every reader is the corresponding
    operation on that list and that it fails exactly when the list is too
    short. *)
From S2P Require Import Prelude.
From S2P Require Import ByteOrder.

Record PACKET := mkPACKET { pkt_buf : list Z; pkt_curr : Z; pkt_remaining : Z }.

Definition packet_forward (pkt : PACKET) (len : Z) : PACKET :=
  mkPACKET (pkt_buf pkt) (pkt_curr pkt + len) (u64 (pkt_remaining pkt - len)).
Definition PACKET_remaining (pkt : PACKET) : Z := pkt_remaining pkt.
(** Offsets of the end and of the current position. *)
Definition PACKET_end (pkt : PACKET) : Z := pkt_curr pkt + pkt_remaining pkt.
Definition PACKET_data (pkt : PACKET) : Z := pkt_curr pkt.
(** [buf + off] is the pointer the packet is initialised with. *)
Definition PACKET_buf_init (buf : list Z) (off len : Z) : option PACKET :=
  if SIZE_MAX / 2 <? len then None else Some (mkPACKET buf off len).
Definition PACKET_null_init : PACKET := mkPACKET [] 0 0.
(** [*(pkt->curr + i)] *)
Definition pkt_byte (pkt : PACKET) (i : Z) : Z := byte_at (pkt_buf pkt) (pkt_curr pkt + i).
(** The [len] bytes at [pkt->curr]. *)
Definition pkt_bytes (pkt : PACKET) (len : Z) : list Z := slice (pkt_buf pkt) (pkt_curr pkt) len.

Definition PACKET_equal (pkt : PACKET) (ptr : list Z) (num : Z) : bool :=
  if negb (PACKET_remaining pkt =? num) then false
  else bool_decide (pkt_bytes pkt num = slice ptr 0 num).

Definition PACKET_peek_sub_packet (pkt : PACKET) (len : Z) : option PACKET :=
  if PACKET_remaining pkt <? len then None else PACKET_buf_init (pkt_buf pkt) (pkt_curr pkt) len.
Definition PACKET_get_sub_packet (pkt : PACKET) (len : Z) : option (PACKET * PACKET) :=
  subpkt ← PACKET_peek_sub_packet pkt len; Some (subpkt, packet_forward pkt len).

Definition PACKET_peek_net_2 (pkt : PACKET) : option Z :=
  if PACKET_remaining pkt <? 2 then None
  else Some (Z.lor (Z.shiftl (pkt_byte pkt 0) 8) (pkt_byte pkt 1)).
Definition PACKET_get_net_2 (pkt : PACKET) : option (Z * PACKET) :=
  data ← PACKET_peek_net_2 pkt; Some (data, packet_forward pkt 2).
Definition PACKET_get_net_2_len (pkt : PACKET) : option (Z * PACKET) :=
  '(i, pkt') ← PACKET_get_net_2 pkt; Some (u64 i, pkt').

Definition PACKET_peek_net_3 (pkt : PACKET) : option Z :=
  if PACKET_remaining pkt <? 3 then None
  else Some (Z.lor (Z.lor (Z.shiftl (pkt_byte pkt 0) 16) (Z.shiftl (pkt_byte pkt 1) 8))
                   (pkt_byte pkt 2)).
Definition PACKET_get_net_3 (pkt : PACKET) : option (Z * PACKET) :=
  data ← PACKET_peek_net_3 pkt; Some (data, packet_forward pkt 3).
Definition PACKET_get_net_3_len (pkt : PACKET) : option (Z * PACKET) :=
  '(i, pkt') ← PACKET_get_net_3 pkt; Some (u64 i, pkt').

Definition PACKET_peek_net_4 (pkt : PACKET) : option Z :=
  if PACKET_remaining pkt <? 4 then None
  else Some (Z.lor (Z.lor (Z.lor (Z.shiftl (pkt_byte pkt 0) 24) (Z.shiftl (pkt_byte pkt 1) 16))
                     (Z.shiftl (pkt_byte pkt 2) 8)) (pkt_byte pkt 3)).
Definition PACKET_peek_net_8 (pkt : PACKET) : option Z :=
  if PACKET_remaining pkt <? 8 then None
  else Some
    (Z.lor (Z.lor (Z.lor (Z.lor (Z.lor (Z.lor (Z.lor
       (Z.shiftl (pkt_byte pkt 0) 56) (Z.shiftl (pkt_byte pkt 1) 48))
       (Z.shiftl (pkt_byte pkt 2) 40)) (Z.shiftl (pkt_byte pkt 3) 32))
       (Z.shiftl (pkt_byte pkt 4) 24)) (Z.shiftl (pkt_byte pkt 5) 16))
       (Z.shiftl (pkt_byte pkt 6) 8)) (pkt_byte pkt 7)).
Definition PACKET_get_net_4 (pkt : PACKET) : option (Z * PACKET) :=
  data ← PACKET_peek_net_4 pkt; Some (data, packet_forward pkt 4).
Definition PACKET_get_net_4_len (pkt : PACKET) : option (Z * PACKET) :=
  '(i, pkt') ← PACKET_get_net_4 pkt; Some (u64 i, pkt').
Definition PACKET_get_net_8 (pkt : PACKET) : option (Z * PACKET) :=
  data ← PACKET_peek_net_8 pkt; Some (data, packet_forward pkt 8).

Definition PACKET_peek_1 (pkt : PACKET) : option Z :=
  if PACKET_remaining pkt =? 0 then None else Some (pkt_byte pkt 0).
Definition PACKET_get_1 (pkt : PACKET) : option (Z * PACKET) :=
  data ← PACKET_peek_1 pkt; Some (data, packet_forward pkt 1).
Definition PACKET_get_1_len (pkt : PACKET) : option (Z * PACKET) :=
  '(i, pkt') ← PACKET_get_1 pkt; Some (u64 i, pkt').

Definition PACKET_peek_4 (pkt : PACKET) : option Z :=
  if PACKET_remaining pkt <? 4 then None
  else Some (Z.lor (Z.lor (Z.lor (pkt_byte pkt 0) (Z.shiftl (pkt_byte pkt 1) 8))
                     (Z.shiftl (pkt_byte pkt 2) 16)) (Z.shiftl (pkt_byte pkt 3) 24)).
Definition PACKET_get_4 (pkt : PACKET) : option (Z * PACKET) :=
  data ← PACKET_peek_4 pkt; Some (data, packet_forward pkt 4).

(** The pointer stored in [*data] is represented by the bytes it points to:
    the buffer is read-only for as long as the packet is used. *)
Definition PACKET_peek_bytes (pkt : PACKET) (len : Z) : option (list Z) :=
  if PACKET_remaining pkt <? len then None else Some (pkt_bytes pkt len).
Definition PACKET_get_bytes (pkt : PACKET) (len : Z) : option (list Z * PACKET) :=
  data ← PACKET_peek_bytes pkt len; Some (data, packet_forward pkt len).
Definition PACKET_peek_copy_bytes (pkt : PACKET) (len : Z) : option (list Z) :=
  if PACKET_remaining pkt <? len then None else Some (pkt_bytes pkt len).
Definition PACKET_copy_bytes (pkt : PACKET) (len : Z) : option (list Z * PACKET) :=
  data ← PACKET_peek_copy_bytes pkt len; Some (data, packet_forward pkt len).
(** On failure only [*len = 0] is stored, so [None] carries no data. *)
Definition PACKET_copy_all (pkt : PACKET) (dest_len : Z) : option (list Z * Z) :=
  if dest_len <? PACKET_remaining pkt then None
  else Some (pkt_bytes pkt (pkt_remaining pkt), pkt_remaining pkt).
Definition INT_MAX : Z := 2147483647.
(** [malloc] says whether a request of a given size succeeds; the packet's pointer is not
    NULL. *)
Definition CRYPTO_memdup (malloc : Z -> bool) (data : list Z) (siz : Z) : option (list Z) :=
  if INT_MAX <=? siz then None else if malloc siz then Some (slice data 0 siz) else None.
(** The result, [*data] and [*len]. *)
Definition PACKET_memdup (malloc : Z -> bool) (pkt : PACKET) : bool * option (list Z) * Z :=
  let length := PACKET_remaining pkt in
  if length =? 0 then (true, None, 0)
  else match CRYPTO_memdup malloc (pkt_bytes pkt length) length with
  | None => (false, None, 0)
  | Some data => (true, Some data, length)
  end.
(** [for (p = str; maxlen-- != 0 && *p != CH_ZERO; ++p)] *)
Fixpoint OPENSSL_strnlen (str : list Z) (maxlen : nat) : Z :=
  match maxlen with
  | O => 0
  | S maxlen => if byte_at str 0 =? 0 then 0 else 1 + OPENSSL_strnlen (tail str) maxlen
  end.
Definition CRYPTO_strndup (malloc : Z -> bool) (str : list Z) (s : Z) : option (list Z) :=
  let maxlen := OPENSSL_strnlen str (Z.to_nat s) in
  if malloc (maxlen + 1) then Some (slice str 0 maxlen ++ [0]) else None.
Definition PACKET_strndup (malloc : Z -> bool) (pkt : PACKET) : option (list Z) :=
  CRYPTO_strndup malloc (drop (Z.to_nat (pkt_curr pkt)) (pkt_buf pkt)) (PACKET_remaining pkt).
Definition PACKET_contains_zero_byte (pkt : PACKET) : bool :=
  bool_decide (0 ∈ pkt_bytes pkt (pkt_remaining pkt)).
Definition PACKET_forward (pkt : PACKET) (len : Z) : option PACKET :=
  if PACKET_remaining pkt <? len then None else Some (packet_forward pkt len).

(** The length-prefixed readers work on a copy [tmp] of the packet and store it
    back only on success; the result is (the new [*pkt], [*subpkt]).  The
    sub-packet starts at the position the length was read up to. *)
Definition sub_at (tmp : PACKET) (length : Z) : PACKET :=
  mkPACKET (pkt_buf tmp) (pkt_curr tmp) length.
Definition PACKET_get_length_prefixed_1 (pkt : PACKET) : option (PACKET * PACKET) :=
  '(length, tmp) ← PACKET_get_1 pkt;
  '(_, tmp') ← PACKET_get_bytes tmp length;
  Some (tmp', sub_at tmp length).
Definition PACKET_as_length_prefixed_1 (pkt : PACKET) : option (PACKET * PACKET) :=
  '(length, tmp) ← PACKET_get_1 pkt;
  '(_, tmp') ← PACKET_get_bytes tmp length;
  if negb (PACKET_remaining tmp' =? 0) then None else Some (tmp', sub_at tmp length).
Definition PACKET_get_length_prefixed_2 (pkt : PACKET) : option (PACKET * PACKET) :=
  '(length, tmp) ← PACKET_get_net_2 pkt;
  '(_, tmp') ← PACKET_get_bytes tmp length;
  Some (tmp', sub_at tmp length).
Definition PACKET_as_length_prefixed_2 (pkt : PACKET) : option (PACKET * PACKET) :=
  '(length, tmp) ← PACKET_get_net_2 pkt;
  '(_, tmp') ← PACKET_get_bytes tmp length;
  if negb (PACKET_remaining tmp' =? 0) then None else Some (tmp', sub_at tmp length).
Definition PACKET_get_length_prefixed_3 (pkt : PACKET) : option (PACKET * PACKET) :=
  '(length, tmp) ← PACKET_get_net_3 pkt;
  '(_, tmp') ← PACKET_get_bytes tmp length;
  Some (tmp', sub_at tmp length).

(** ** The specification: the list of bytes to be read *)

Definition pkt_rep (pkt : PACKET) (l : list Z) : Prop :=
  0 <= pkt_curr pkt /\ pkt_curr pkt + zlen l <= zlen (pkt_buf pkt) /\
  pkt_remaining pkt = zlen l /\ zlen l <= SIZE_MAX / 2 /\ pkt_bytes pkt (zlen l) = l.

(** Reading [n] bytes off the front of a list. *)
Definition split_front (n : Z) (l : list Z) : option (list Z * list Z) :=
  if zlen l <? n then None else Some (take (Z.to_nat n) l, drop (Z.to_nat n) l).

(** A reader implements a parser of lists: same result, and the packet that is
    left represents the rest of the list. *)
Definition reads {A} (rd : PACKET -> option (A * PACKET)) (spec : list Z -> option (A * list Z)) : Prop :=
  forall pkt l, pkt_rep pkt l ->
    match spec l with
    | None => rd pkt = None
    | Some (v, rest) => exists pkt', rd pkt = Some (v, pkt') /\ pkt_rep pkt' rest
    end.

Lemma slice_take {A} (b : list A) o n m :
  0 <= n <= m -> take (Z.to_nat n) (slice b o m) = slice b o n.
Proof. intros. unfold slice. rewrite take_take. f_equal; lia. Qed.

Lemma slice_drop {A} (b : list A) o n m :
  0 <= o -> 0 <= n <= m -> drop (Z.to_nat n) (slice b o m) = slice b (o + n) (m - n).
Proof.
  intros. unfold slice. rewrite skipn_firstn_comm, drop_drop. f_equal; [lia|]. f_equal; lia.
Qed.

Lemma pkt_buf_init_rep buf off len l :
  0 <= off -> off + len <= zlen buf -> 0 <= len <= SIZE_MAX / 2 -> l = slice buf off len ->
  exists pkt, PACKET_buf_init buf off len = Some pkt /\ pkt_rep pkt l.
Proof.
  intros Ho Hb Hl ->. unfold PACKET_buf_init. destruct (Z.ltb_spec (SIZE_MAX / 2) len); [lia|].
  eexists; split; [done|]. unfold pkt_rep, pkt_bytes; simpl. by rewrite slice_length by lia.
Qed.

Section Rep.
Context (pkt : PACKET) (l : list Z) (Hrep : pkt_rep pkt l).

Lemma pkt_rep_remaining : PACKET_remaining pkt = zlen l.
Proof. apply Hrep. Qed.

Lemma pkt_rep_bytes n : 0 <= n <= zlen l -> pkt_bytes pkt n = take (Z.to_nat n) l.
Proof.
  intros Hn. destruct Hrep as (_ & _ & _ & _ & <-). unfold pkt_bytes in *.
  by rewrite slice_take.
Qed.

Lemma pkt_rep_byte i : 0 <= i < zlen l -> pkt_byte pkt i = byte_at l i.
Proof.
  intros Hi. destruct Hrep as (Hc & Hb & _ & _ & <-). unfold pkt_byte, byte_at, pkt_bytes, slice.
  rewrite lookup_take_lt, lookup_drop by (unfold zlen in *; lia). do 2 f_equal. lia.
Qed.

Lemma pkt_rep_forward n : 0 <= n <= zlen l -> pkt_rep (packet_forward pkt n) (drop (Z.to_nat n) l).
Proof.
  intros Hn. destruct Hrep as (Hc & Hb & Hr & Hm & Hl).
  assert (zlen (drop (Z.to_nat n) l) = zlen l - n) as Hd
    by (unfold zlen in *; rewrite length_drop; lia).
  unfold pkt_rep, pkt_bytes, packet_forward; simpl. rewrite Hd. split_and!; try lia.
  - rewrite Hr. apply u64_small. unfold SIZE_MAX in *. dlia.
  - rewrite <- Hl at 2. unfold pkt_bytes. by rewrite slice_drop.
Qed.
End Rep.

Lemma PACKET_get_bytes_reads n : 0 <= n -> reads (fun p => PACKET_get_bytes p n) (split_front n).
Proof.
  intros Hn pkt l Hrep. unfold split_front, PACKET_get_bytes, PACKET_peek_bytes.
  rewrite (pkt_rep_remaining _ _ Hrep). destruct (Z.ltb_spec (zlen l) n); [done|].
  rewrite (pkt_rep_bytes _ _ Hrep) by lia. eexists; split; [done|]. by apply pkt_rep_forward.
Qed.

(** [PACKET_get_bytes] on a packet whose contents start with the wanted bytes. *)
Lemma PACKET_get_bytes_app pkt d rest n :
  pkt_rep pkt (d ++ rest) -> zlen d = n ->
  exists pkt', PACKET_get_bytes pkt n = Some (d, pkt') /\ pkt_rep pkt' rest.
Proof.
  intros Hrep Hd. pose proof (zlen_nonneg rest). pose proof (zlen_nonneg d).
  pose proof (PACKET_get_bytes_reads n ltac:(lia) pkt _ Hrep) as H1. unfold split_front in H1.
  rewrite zlen_app in H1. destruct (Z.ltb_spec (zlen d + zlen rest) n); [lia|].
  subst n. by rewrite zlen_to_nat, take_app_length, drop_app_length in H1.
Qed.

Lemma PACKET_get_bytes_short pkt l n :
  pkt_rep pkt l -> zlen l < n -> PACKET_get_bytes pkt n = None.
Proof.
  intros Hrep Hn. unfold PACKET_get_bytes, PACKET_peek_bytes. rewrite (pkt_rep_remaining _ _ Hrep).
  destruct (Z.ltb_spec (zlen l) n); [done|lia].
Qed.

(** ** Integers in network order *)

Definition split_be (n : Z) (l : list Z) : option (Z * list Z) :=
  if zlen l <? n then None else Some (be_val (take (Z.to_nat n) l), drop (Z.to_nat n) l).

(** A reader of [n]-byte integers that implements [split_be] on byte lists. *)
Definition reads_be (n : Z) (rd : PACKET -> option (Z * PACKET)) : Prop :=
  forall pkt l, bytes_ok l -> pkt_rep pkt l ->
    match split_be n l with
    | None => rd pkt = None
    | Some (v, rest) => exists pkt', rd pkt = Some (v, pkt') /\ pkt_rep pkt' rest
    end.

Lemma net_reads_be n (peek : PACKET -> option Z) :
  0 < n ->
  (forall pkt l, bytes_ok l -> pkt_rep pkt l -> n <= zlen l ->
     peek pkt = Some (be_val (take (Z.to_nat n) l))) ->
  (forall pkt l, pkt_rep pkt l -> zlen l < n -> peek pkt = None) ->
  reads_be n (fun pkt => data ← peek pkt; Some (data, packet_forward pkt n)).
Proof.
  intros Hn Hok Hshort pkt l Hb Hrep. unfold split_be. destruct (Z.ltb_spec (zlen l) n).
  - by rewrite (Hshort pkt l).
  - rewrite (Hok pkt l) by done. simpl. eexists; split; [done|].
    apply pkt_rep_forward; [done|lia].
Qed.

(** Accumulating bytes most significant first: [acc] is already in place. *)
Lemma lor_acc acc b k n :
  n = k + 8 -> 0 <= k -> is_byte b ->
  Z.lor (Z.shiftl acc n) (Z.shiftl b k) = Z.shiftl (acc * 256 + b) k.
Proof.
  intros -> Hk Hb. unfold is_byte in Hb. rewrite (Z.add_comm k), <- Z.shiftl_shiftl, <- Z.shiftl_lor by lia.
  f_equal. rewrite Z.lor_comm, lor_shiftl_add by lia. lia.
Qed.
Lemma lor_last acc b : is_byte b -> Z.lor (Z.shiftl acc 8) b = acc * 256 + b.
Proof.
  intros Hb. pose proof (lor_acc acc b 0 8 eq_refl ltac:(lia) Hb) as E. by rewrite !Z.shiftl_0_r in E.
Qed.

Ltac be_fold :=
  repeat match goal with |- context [Z.lor (Z.shiftl ?a ?n) (Z.shiftl ?b ?k)] =>
    rewrite (lor_acc a b k n) by (done || lia) end;
  rewrite lor_last by done.
Ltac be_norm := be_fold; unfold be_val; rewrite firstn_O; simpl; lia.

(** A list cannot be that short. *)
Ltac too_short := exfalso; unfold zlen in *; simpl in *; lia.

Lemma PACKET_get_1_reads : reads_be 1 PACKET_get_1.
Proof.
  apply net_reads_be; [lia|..]; unfold PACKET_peek_1; intros pkt l;
    [intros Hb Hrep Hl|intros Hrep Hl]; rewrite (pkt_rep_remaining _ _ Hrep).
  - destruct l as [|b0 l]; [too_short|]. rewrite (pkt_rep_byte _ _ Hrep) by lia.
    destruct (Z.eqb_spec (zlen (b0 :: l)) 0); [lia|]. f_equal.
    unfold be_val, byte_at. simpl. lia.
  - pose proof (zlen_nonneg l). destruct (Z.eqb_spec (zlen l) 0); [done|lia].
Qed.

(** Reduce a network-order reader to the value of its bytes. *)
Ltac net_read :=
  apply net_reads_be; [lia|..]; intros pkt l;
    [intros Hb Hrep Hl|intros Hrep Hl];
    match goal with H : pkt_rep ?pkt ?l |- _ =>
      rewrite (pkt_rep_remaining pkt l H); 
      match goal with |- context [zlen l <? ?n] => destruct (Z.ltb_spec (zlen l) n) end;
      [first [done|lia]|first [lia|rewrite !(pkt_rep_byte pkt l H) by lia; f_equal]]
    end.

Lemma PACKET_get_net_2_reads : reads_be 2 PACKET_get_net_2.
Proof.
  unfold PACKET_get_net_2, PACKET_peek_net_2. net_read.
  destruct l as [|b0 [|b1 l]]; try too_short.
  unfold bytes_ok in Hb. rewrite !Forall_cons in Hb. destruct_and! Hb. unfold byte_at; simpl.
  be_norm.
Qed.
Lemma PACKET_get_net_3_reads : reads_be 3 PACKET_get_net_3.
Proof.
  unfold PACKET_get_net_3, PACKET_peek_net_3. net_read.
  destruct l as [|b0 [|b1 [|b2 l]]]; try too_short.
  unfold bytes_ok in Hb. rewrite !Forall_cons in Hb. destruct_and! Hb. unfold byte_at; simpl.
  be_norm.
Qed.
Lemma PACKET_get_net_4_reads : reads_be 4 PACKET_get_net_4.
Proof.
  unfold PACKET_get_net_4, PACKET_peek_net_4. net_read.
  destruct l as [|b0 [|b1 [|b2 [|b3 l]]]]; try too_short.
  unfold bytes_ok in Hb. rewrite !Forall_cons in Hb. destruct_and! Hb. unfold byte_at; simpl.
  be_norm.
Qed.
Lemma PACKET_get_net_8_reads : reads_be 8 PACKET_get_net_8.
Proof.
  unfold PACKET_get_net_8, PACKET_peek_net_8. net_read.
  destruct l as [|b0 [|b1 [|b2 [|b3 [|b4 [|b5 [|b6 [|b7 l]]]]]]]]; try too_short.
  unfold bytes_ok in Hb. rewrite !Forall_cons in Hb. destruct_and! Hb. unfold byte_at; simpl.
  be_norm.
Qed.

(** ** Length-prefixed vectors *)

(** The specification: a [k]-byte big-endian length, that many bytes, a rest. *)
Definition split_prefixed (k : Z) (l : list Z) : option (list Z * list Z) :=
  '(n, r) ← split_be k l; split_front n r.

Definition get_prefixed (get : PACKET -> option (Z * PACKET)) (pkt : PACKET) : option (PACKET * PACKET) :=
  '(length, tmp) ← get pkt;
  '(_, tmp') ← PACKET_get_bytes tmp length;
  Some (tmp', sub_at tmp length).

Lemma be_val_range b : bytes_ok b -> 0 <= be_val b < 256 ^ zlen b.
Proof.
  intros Hb. unfold be_val. replace (zlen b) with (zlen (reverse b)).
  - apply le_val_range. by apply Forall_reverse.
  - unfold zlen. by rewrite length_reverse.
Qed.

Lemma split_be_ok k l n r :
  0 <= k -> bytes_ok l -> split_be k l = Some (n, r) -> 0 <= n /\ bytes_ok r /\ zlen r <= zlen l.
Proof.
  intros Hk Hb. unfold split_be. destruct (Z.ltb_spec (zlen l) k); [done|]. intros [= <- <-].
  split_and!.
  - apply be_val_range. by apply Forall_take.
  - by apply Forall_drop.
  - unfold zlen. rewrite length_drop. lia.
Qed.

Lemma get_prefixed_reads k get pkt l :
  0 <= k -> reads_be k get -> bytes_ok l -> pkt_rep pkt l ->
  match split_prefixed k l with
  | None => get_prefixed get pkt = None
  | Some (d, rest) =>
      exists pkt' sub, get_prefixed get pkt = Some (pkt', sub) /\ pkt_rep pkt' rest /\ pkt_rep sub d
  end.
Proof.
  intros Hk Hget Hb Hrep. unfold split_prefixed, get_prefixed. specialize (Hget pkt l Hb Hrep).
  destruct (split_be k l) as [[n r]|] eqn:E; simpl; [|by rewrite Hget].
  destruct Hget as (tmp & -> & Htmp). simpl.
  destruct (split_be_ok k l n r Hk Hb E) as (Hn & Hr & _).
  pose proof (PACKET_get_bytes_reads n Hn tmp r Htmp) as Hgb.
  destruct (split_front n r) as [[d rest]|] eqn:Es; [|by rewrite Hgb].
  destruct Hgb as (tmp' & -> & Htmp'). simpl. do 2 eexists. split; [done|]. split; [done|].
  unfold split_front in Es. destruct (Z.ltb_spec (zlen r) n); [done|]. injection Es as <- <-.
  assert (zlen (take (Z.to_nat n) r) = n) as Hz by (unfold zlen in *; rewrite length_take; lia).
  destruct Htmp as (Hc & Hbuf & Hrem & Hmax & Hbytes).
  unfold pkt_rep, sub_at, pkt_bytes; simpl. rewrite Hz. split_and!; try lia.
  rewrite <- Hbytes. unfold pkt_bytes. by rewrite slice_take by lia.
Qed.

(** The [_as_] variants also require that nothing is left. *)
Definition as_prefixed (get : PACKET -> option (Z * PACKET)) (pkt : PACKET) : option (PACKET * PACKET) :=
  '(length, tmp) ← get pkt;
  '(_, tmp') ← PACKET_get_bytes tmp length;
  if negb (PACKET_remaining tmp' =? 0) then None else Some (tmp', sub_at tmp length).

Lemma as_prefixed_get get pkt :
  as_prefixed get pkt =
    '(pkt', sub) ← get_prefixed get pkt;
    if negb (PACKET_remaining pkt' =? 0) then None else Some (pkt', sub).
Proof.
  unfold as_prefixed, get_prefixed. destruct (get pkt) as [[n tmp]|]; simpl; [|done].
  by destruct (PACKET_get_bytes tmp n) as [[d tmp']|].
Qed.

Lemma zlen_zero_nil {A} (l : list A) : zlen l = 0 -> l = [].
Proof. destruct l; unfold zlen; simpl; [done|lia]. Qed.

Lemma as_prefixed_reads k get pkt l :
  0 <= k -> reads_be k get -> bytes_ok l -> pkt_rep pkt l ->
  match split_prefixed k l with
  | Some (d, []) =>
      exists pkt' sub, as_prefixed get pkt = Some (pkt', sub) /\ pkt_rep pkt' [] /\ pkt_rep sub d
  | _ => as_prefixed get pkt = None
  end.
Proof.
  intros Hk Hget Hb Hrep. rewrite as_prefixed_get.
  pose proof (get_prefixed_reads k get pkt l Hk Hget Hb Hrep) as Hp.
  destruct (split_prefixed k l) as [[d rest]|]; [|by rewrite Hp].
  destruct Hp as (pkt' & sub & -> & Hp' & Hs). simpl. rewrite (pkt_rep_remaining _ _ Hp').
  destruct (Z.eqb_spec (zlen rest) 0) as [->%zlen_zero_nil|Hne]; simpl; [by eauto|].
  by destruct rest.
Qed.

(** What the length-prefixed readers promise: the prefixed bytes become a
    sub-packet, and nothing is returned when the vector is incomplete. *)
Definition reads_prefixed (k : Z) (rd : PACKET -> option (PACKET * PACKET)) : Prop :=
  forall pkt l, bytes_ok l -> pkt_rep pkt l ->
    match split_prefixed k l with
    | None => rd pkt = None
    | Some (d, rest) => exists pkt' sub, rd pkt = Some (pkt', sub) /\ pkt_rep pkt' rest /\ pkt_rep sub d
    end.
(** The [as] variants also refuse bytes after the vector. *)
Definition reads_as_prefixed (k : Z) (rd : PACKET -> option (PACKET * PACKET)) : Prop :=
  forall pkt l, bytes_ok l -> pkt_rep pkt l ->
    match split_prefixed k l with
    | Some (d, []) => exists pkt' sub, rd pkt = Some (pkt', sub) /\ pkt_rep pkt' [] /\ pkt_rep sub d
    | _ => rd pkt = None
    end.

(** ** The other readers *)

(** A peek is the reader that leaves the packet alone. *)
Definition peeks_be (n : Z) (peek : PACKET -> option Z) : Prop :=
  forall pkt l, bytes_ok l -> pkt_rep pkt l -> peek pkt = fst <$> split_be n l.
Lemma get_peeks n peek : reads_be n (fun pkt => data ← peek pkt; Some (data, packet_forward pkt n)) -> peeks_be n peek.
Proof.
  intros Hr pkt l Hb Hrep. specialize (Hr pkt l Hb Hrep). destruct (split_be n l) as [[v rest]|]; cbn [fmap option_fmap option_map fst].
  - destruct Hr as (pkt' & E & _). destruct (peek pkt); [|done]. cbn in E. by injection E as ->.
  - by destruct (peek pkt).
Qed.
Lemma split_be_range k l n r : 0 <= k -> bytes_ok l -> split_be k l = Some (n, r) -> 0 <= n < 256 ^ k.
Proof.
  intros Hk Hb. unfold split_be. destruct (Z.ltb_spec (zlen l) k); [done|]. intros [= <- _].
  pose proof (be_val_range (take (Z.to_nat k) l) (Forall_take _ _ _ Hb)) as Hv.
  replace (zlen (take (Z.to_nat k) l)) with k in Hv by (unfold zlen in *; rewrite length_take; lia). exact Hv.
Qed.
(** The [_len] variants convert to [size_t], which holds the value. *)
Lemma len_reads k get : 0 <= k <= 8 -> reads_be k get -> reads_be k (fun pkt => '(i, pkt') ← get pkt; Some (u64 i, pkt')).
Proof.
  intros Hk Hr pkt l Hb Hrep. specialize (Hr pkt l Hb Hrep). destruct (split_be k l) as [[v rest]|] eqn:E; [|by rewrite Hr].
  destruct Hr as (pkt' & -> & Hr'). cbn [mbind option_bind]. exists pkt'. split; [|done]. do 2 f_equal. apply u64_small.
  pose proof (split_be_range k l v rest ltac:(lia) Hb E). assert (256 ^ k <= 256 ^ 8) by (apply Z.pow_le_mono_r; lia). change (256 ^ 8) with 18446744073709551616 in *. lia.
Qed.

Definition split_le (n : Z) (l : list Z) : option (Z * list Z) :=
  if zlen l <? n then None else Some (le_val (take (Z.to_nat n) l), drop (Z.to_nat n) l).
Lemma lor_next acc b k : 0 <= acc < 2 ^ k -> 0 <= k -> Z.lor acc (Z.shiftl b k) = acc + b * 2 ^ k.
Proof. intros Ha Hk. apply lor_shiftl_add; lia. Qed.
Lemma peek_4_le pkt l : bytes_ok l -> pkt_rep pkt l -> PACKET_peek_4 pkt = fst <$> split_le 4 l.
Proof.
  intros Hb Hrep. unfold PACKET_peek_4, split_le. rewrite (pkt_rep_remaining _ _ Hrep). destruct (Z.ltb_spec (zlen l) 4); [done|].
  rewrite !(pkt_rep_byte _ _ Hrep) by lia. destruct l as [|b0 [|b1 [|b2 [|b3 l]]]]; try too_short.
  unfold bytes_ok in Hb. rewrite !Forall_cons in Hb. destruct_and! Hb. unfold byte_at, is_byte in *. simpl default. cbn [fmap option_fmap option_map fst]. f_equal.
  change (Z.lor (Z.lor (Z.lor b0 (Z.shiftl b1 8)) (Z.shiftl b2 16)) (Z.shiftl b3 24) = le_val [b0; b1; b2; b3]).
  rewrite (lor_next b0 b1 8), (lor_next _ b2 16), (lor_next _ b3 24) by lia. cbn [le_val]. lia.
Qed.

(** The readers that return a packet over the bytes read. *)
Definition reads_packet (rd : PACKET -> option (PACKET * PACKET)) (spec : list Z -> option (list Z * list Z)) : Prop :=
  forall pkt l, pkt_rep pkt l ->
    match spec l with
    | None => rd pkt = None
    | Some (d, rest) => exists sub pkt', rd pkt = Some (sub, pkt') /\ pkt_rep sub d /\ pkt_rep pkt' rest
    end.
Lemma sub_packet_reads n : 0 <= n -> reads_packet (fun p => PACKET_get_sub_packet p n) (split_front n).
Proof.
  intros Hn pkt l Hrep. unfold PACKET_get_sub_packet, PACKET_peek_sub_packet, split_front. rewrite (pkt_rep_remaining _ _ Hrep).
  destruct (Z.ltb_spec (zlen l) n); [done|]. pose proof Hrep as (Hc & Hb & Hr & Hm & Hl).
  destruct (pkt_buf_init_rep (pkt_buf pkt) (pkt_curr pkt) n (take (Z.to_nat n) l)) as (sub & -> & Hsub); [lia|lia|lia| |].
  { rewrite <- (pkt_rep_bytes pkt l Hrep n) by lia. done. }
  exists sub, (packet_forward pkt n). split; [done|]. split; [done|]. apply pkt_rep_forward; [done|lia].
Qed.

(** Up to the first zero byte. *)
Lemma strnlen_spec l more : let n := OPENSSL_strnlen (l ++ more) (length l) in
  0 <= n <= zlen l /\ (0 ∉ take (Z.to_nat n) l) /\ (n < zlen l -> byte_at l n = 0).
Proof.
  induction l as [|b l IH]; cbn [length OPENSSL_strnlen app tail].
  - change (zlen []) with 0. split; [lia|]. split; [apply not_elem_of_nil|lia].
  - change (byte_at (b :: l ++ more) 0) with b. rewrite zlen_cons. pose proof (zlen_nonneg l). destruct (Z.eqb_spec b 0) as [-> |Hb].
    + split; [lia|]. split; [apply not_elem_of_nil|done].
    + cbv zeta in IH. set (n := OPENSSL_strnlen (l ++ more) (length l)) in *. destruct IH as (IH1 & IH2 & IH3). split; [lia|].
      replace (Z.to_nat (1 + n)) with (S (Z.to_nat n)) by lia. cbn [take]. split; [rewrite not_elem_of_cons; by split; [congruence|]|].
      intros Hlt. rewrite <- (IH3 ltac:(lia)). unfold byte_at. by replace (Z.to_nat (1 + n)) with (S (Z.to_nat n)) by lia.
Qed.
Lemma pkt_rep_drop pkt l : pkt_rep pkt l -> exists more, drop (Z.to_nat (pkt_curr pkt)) (pkt_buf pkt) = l ++ more.
Proof.
  intros (Hc & Hb & _ & _ & Hl). exists (drop (Z.to_nat (zlen l)) (drop (Z.to_nat (pkt_curr pkt)) (pkt_buf pkt))).
  rewrite <- Hl at 1. unfold pkt_bytes, slice. by rewrite take_drop.
Qed.
Lemma strndup_rep malloc pkt l : pkt_rep pkt l ->
  exists d rest, l = d ++ rest /\ (0 ∉ d) /\ (rest = [] \/ exists r, rest = 0 :: r) /\
    PACKET_strndup malloc pkt = if malloc (zlen d + 1) then Some (d ++ [0]) else None.
Proof.
  intros Hrep. destruct (pkt_rep_drop pkt l Hrep) as [more Hd]. pose proof (strnlen_spec l more) as Hn. cbv zeta in Hn.
  unfold PACKET_strndup, CRYPTO_strndup. rewrite Hd, (pkt_rep_remaining _ _ Hrep), zlen_to_nat. set (n := OPENSSL_strnlen (l ++ more) (length l)) in *.
  destruct Hn as (Hn & Hz & Hb). exists (take (Z.to_nat n) l), (drop (Z.to_nat n) l). rewrite take_drop. split; [done|]. split; [done|]. split.
  - destruct (Z.eq_dec n (zlen l)) as [E|E]; [left; apply drop_ge; unfold zlen in *; lia|right]. specialize (Hb ltac:(lia)).
    destruct (l !! Z.to_nat n) as [x|] eqn:Ex; [|apply lookup_ge_None_1 in Ex; unfold zlen in *; lia]. unfold byte_at in Hb. rewrite Ex in Hb. cbn in Hb. subst x.
    exists (drop (S (Z.to_nat n)) l). by apply drop_S.
  - assert (zlen (take (Z.to_nat n) l) = n) as -> by (unfold zlen in *; rewrite length_take; lia).
    unfold slice. cbn [Z.to_nat]. rewrite drop_0, take_app_le by (unfold zlen in *; lia). done.
Qed.
Lemma all_bytes pkt l : pkt_rep pkt l -> pkt_bytes pkt (pkt_remaining pkt) = l.
Proof. intros (_ & _ & -> & _ & H). exact H. Qed.

