(* ===== verification/QuicVlint.v ===== *)
(** * QUIC variable-length integers

    Model of [crypto/quic_vlint.c] and [include/internal/quic_vlint.h], and of
    the packet readers of [include/internal/packet_quic.h].  An encoder that
    stores [n] bytes through a pointer returns those bytes; a decoder reads
    from a byte list. *)
From S2P Require Import Prelude.
From S2P Require Import ByteOrder.
From S2P Require Import Packet.

Definition OSSL_QUIC_VLINT_2B_MIN : Z := 64.
Definition OSSL_QUIC_VLINT_4B_MIN : Z := 16384.
Definition OSSL_QUIC_VLINT_8B_MIN : Z := 1073741824.
Definition OSSL_QUIC_VLINT_MAX : Z := 4611686018427387903.

Definition ossl_quic_vlint_encode_len (v : Z) : Z :=
  if v <? OSSL_QUIC_VLINT_2B_MIN then 1
  else if v <? OSSL_QUIC_VLINT_4B_MIN then 2
  else if v <? OSSL_QUIC_VLINT_8B_MIN then 4
  else if v <=? OSSL_QUIC_VLINT_MAX then 8
  else 0.

Definition ossl_quic_vlint_encode_n (v n : Z) : list Z :=
  if n =? 1 then [u8 v]
  else if n =? 2 then
    [u8 (Z.lor 0x40 (Z.land (Z.shiftr v 8) 0x3F)); u8 v]
  else if n =? 4 then
    [u8 (Z.lor 0x80 (Z.land (Z.shiftr v 24) 0x3F)); u8 (Z.shiftr v 16); u8 (Z.shiftr v 8); u8 v]
  else
    [u8 (Z.lor 0xC0 (Z.land (Z.shiftr v 56) 0x3F)); u8 (Z.shiftr v 48); u8 (Z.shiftr v 40);
     u8 (Z.shiftr v 32); u8 (Z.shiftr v 24); u8 (Z.shiftr v 16); u8 (Z.shiftr v 8); u8 v].

Definition ossl_quic_vlint_encode (v : Z) : list Z :=
  ossl_quic_vlint_encode_n v (ossl_quic_vlint_encode_len v).

Definition ossl_quic_vlint_decode_len (first_byte : Z) : Z :=
  Z.shiftl 1 (Z.shiftr (Z.land first_byte 0xC0) 6).

Definition ossl_quic_vlint_decode_unchecked (buf : list Z) : Z :=
  let first_byte := byte_at buf 0 in
  let sz := ossl_quic_vlint_decode_len first_byte in
  let hi := Z.land first_byte 0x3F in
  if sz =? 1 then hi
  else if sz =? 2 then Z.lor (Z.shiftl hi 8) (byte_at buf 1)
  else if sz =? 4 then
    Z.lor (Z.lor (Z.lor (Z.shiftl hi 24) (Z.shiftl (byte_at buf 1) 16))
             (Z.shiftl (byte_at buf 2) 8)) (byte_at buf 3)
  else
    Z.lor (Z.lor (Z.lor (Z.lor (Z.lor (Z.lor (Z.lor
       (Z.shiftl hi 56) (Z.shiftl (byte_at buf 1) 48))
       (Z.shiftl (byte_at buf 2) 40)) (Z.shiftl (byte_at buf 3) 32))
       (Z.shiftl (byte_at buf 4) 24)) (Z.shiftl (byte_at buf 5) 16))
       (Z.shiftl (byte_at buf 6) 8)) (byte_at buf 7).

(** Returns the decoded value and the number of bytes consumed; [None] is the
    return value 0. *)
Definition ossl_quic_vlint_decode (buf : list Z) : option (Z * Z) :=
  if zlen buf <? 1 then None
  else
    let dec_len := ossl_quic_vlint_decode_len (byte_at buf 0) in
    if zlen buf <? dec_len then None
    else Some (ossl_quic_vlint_decode_unchecked buf, dec_len).

(** The bytes from [pkt->curr] on. *)
Definition pkt_rest (pkt : PACKET) : list Z := drop (Z.to_nat (pkt_curr pkt)) (pkt_buf pkt).

Definition PACKET_get_quic_vlint (pkt : PACKET) : option (Z * PACKET) :=
  if PACKET_remaining pkt <? 1 then None
  else
    let enclen := ossl_quic_vlint_decode_len (pkt_byte pkt 0) in
    if PACKET_remaining pkt <? enclen then None
    else Some (ossl_quic_vlint_decode_unchecked (pkt_rest pkt), packet_forward pkt enclen).

(** [*data] and [*was_minimal]. *)
Definition PACKET_peek_quic_vlint_ex (pkt : PACKET) : option (Z * bool) :=
  if PACKET_remaining pkt <? 1 then None
  else
    let enclen := ossl_quic_vlint_decode_len (pkt_byte pkt 0) in
    if PACKET_remaining pkt <? enclen then None
    else
      let data := ossl_quic_vlint_decode_unchecked (pkt_rest pkt) in
      Some (data, enclen =? ossl_quic_vlint_encode_len data).
Definition PACKET_peek_quic_vlint (pkt : PACKET) : option Z :=
  '(data, _) ← PACKET_peek_quic_vlint_ex pkt; Some data.
Definition PACKET_skip_quic_vlint (pkt : PACKET) : option PACKET :=
  if PACKET_remaining pkt <? 1 then None
  else
    let enclen := ossl_quic_vlint_decode_len (pkt_byte pkt 0) in
    if PACKET_remaining pkt <? enclen then None else Some (packet_forward pkt enclen).
Definition PACKET_get_quic_length_prefixed (pkt : PACKET) : option (PACKET * PACKET) :=
  '(length, tmp) ← PACKET_get_quic_vlint pkt;
  if SIZE_MAX <? length then None
  else '(_, tmp') ← PACKET_get_bytes tmp length; Some (tmp', sub_at tmp length).

(** ** Round trip

    The [n]-byte form of a value: two tag bits on top of [8n - 2] value bits. *)

Definition vlint_form (n tag : Z) : Prop :=
  (n = 1 /\ tag = 0) \/ (n = 2 /\ tag = 1) \/ (n = 4 /\ tag = 2) \/ (n = 8 /\ tag = 3).

Ltac vlint_cases H := destruct H as [[-> ->]|[[-> ->]|[[-> ->]|[-> ->]]]].

Lemma land_63 x : Z.land x 63 = x mod 64.
Proof. change 63 with (Z.ones 6). by rewrite Z.land_ones. Qed.

Lemma tag_byte m t x :
  m = 64 * t -> 0 <= t < 4 -> u8 (Z.lor m (Z.land x 0x3F)) = m + x mod 64.
Proof.
  intros -> Ht. rewrite land_63, Z.lor_comm.
  replace (64 * t) with (Z.shiftl t 6) at 1 by (rewrite Z.shiftl_mul_pow2; lia).
  rewrite lor_shiftl_add by dlia. unfold u8. dlia.
Qed.

Ltac form_bytes n p :=
  change (Z.to_nat _) with n; change (2 ^ (8 * _ - 2)) with p in *;
  cbn [le_bytes rev_append]; rewrite ?(tag_byte 64 1), ?(tag_byte 128 2), ?(tag_byte 192 3) by lia;
  rewrite ?Z.div_div, ?Z.shiftr_div_pow2 by lia; simpl Z.mul; simpl Z.pow;
  unfold u8; repeat (f_equal; [dlia|..]); done.

Lemma encode_n_eq v n tag :
  vlint_form n tag -> 0 <= v < 2 ^ (8 * n - 2) ->
  ossl_quic_vlint_encode_n v n = be_bytes (Z.to_nat n) (tag * 2 ^ (8 * n - 2) + v).
Proof.
  intros Hn Hv. unfold ossl_quic_vlint_encode_n, be_bytes, reverse. vlint_cases Hn.
  - form_bytes 1%nat 64.
  - form_bytes 2%nat 16384.
  - form_bytes 4%nat 1073741824.
  - form_bytes 8%nat 4611686018427387904.
Qed.

(** The first byte determines the form. *)
Lemma decode_len_form b n tag :
  vlint_form n tag -> is_byte b -> b / 64 = tag -> ossl_quic_vlint_decode_len b = n.
Proof.
  intros Hn Hb Hd. unfold ossl_quic_vlint_decode_len.
  assert (Z.shiftr (Z.land b 0xC0) 6 = tag) as ->.
  { rewrite Z.shiftr_land. change (Z.shiftr 192 6) with (Z.ones 2).
    rewrite Z.land_ones, Z.shiftr_div_pow2 by lia. unfold is_byte in Hb.
    change (2 ^ 6) with 64. change (2 ^ 2) with 4. dlia. }
  by vlint_cases Hn.
Qed.

Lemma byte_form b : is_byte b -> exists n, vlint_form n (b / 64).
Proof.
  unfold is_byte, vlint_form. intros Hb.
  assert (b / 64 = 0 \/ b / 64 = 1 \/ b / 64 = 2 \/ b / 64 = 3) as H by dlia.
  destruct H as [H|[H|[H|H]]]; rewrite H; [exists 1|exists 2|exists 4|exists 8]; tauto.
Qed.

(** The decoder reads the value bits of the form. *)
Lemma decode_unchecked_eq l n tag :
  vlint_form n tag -> bytes_ok l -> n <= zlen l -> byte_at l 0 / 64 = tag ->
  ossl_quic_vlint_decode_unchecked l = be_val (take (Z.to_nat n) l) mod 2 ^ (8 * n - 2).
Proof.
  intros Hn Hb Hl Ht. unfold ossl_quic_vlint_decode_unchecked.
  rewrite (decode_len_form _ n tag Hn (byte_at_ok l 0 Hb) Ht).
  rewrite land_63. vlint_cases Hn; cbn -[Z.lor Z.shiftl Z.modulo take byte_at].
  - destruct l as [|b0 l]; [too_short|]. unfold byte_at, be_val; simpl. dlia.
  - destruct l as [|b0 [|b1 l]]; try too_short. unfold bytes_ok in Hb. rewrite !Forall_cons in Hb.
    destruct_and! Hb. unfold byte_at, is_byte in *; simpl default in *.
    rewrite lor_last by done. unfold be_val; simpl. dlia.
  - destruct l as [|b0 [|b1 [|b2 [|b3 l]]]]; try too_short. unfold bytes_ok in Hb.
    rewrite !Forall_cons in Hb. destruct_and! Hb. unfold byte_at, is_byte in *; simpl default in *.
    be_fold. unfold be_val; simpl. dlia.
  - destruct l as [|b0 [|b1 [|b2 [|b3 [|b4 [|b5 [|b6 [|b7 l]]]]]]]]; try too_short.
    unfold bytes_ok in Hb. rewrite !Forall_cons in Hb. destruct_and! Hb.
    unfold byte_at, is_byte in *; simpl default in *.
    be_fold. unfold be_val; simpl. dlia.
Qed.

Lemma encode_len_form v :
  0 <= v <= OSSL_QUIC_VLINT_MAX ->
  exists tag, vlint_form (ossl_quic_vlint_encode_len v) tag /\
    0 <= v < 2 ^ (8 * ossl_quic_vlint_encode_len v - 2).
Proof.
  unfold OSSL_QUIC_VLINT_MAX, ossl_quic_vlint_encode_len, vlint_form. intros Hv.
  unfold OSSL_QUIC_VLINT_2B_MIN, OSSL_QUIC_VLINT_4B_MIN, OSSL_QUIC_VLINT_8B_MIN, OSSL_QUIC_VLINT_MAX.
  destruct (Z.ltb_spec v 64); [exists 0; split; [tauto|simpl; lia]|].
  destruct (Z.ltb_spec v 16384); [exists 1; split; [tauto|simpl; lia]|].
  destruct (Z.ltb_spec v 1073741824); [exists 2; split; [tauto|simpl; lia]|].
  destruct (Z.leb_spec v 4611686018427387903); [exists 3; split; [tauto|simpl; lia]|lia].
Qed.

Lemma be_bytes_head n v rest :
  0 <= v < 256 ^ Z.of_nat (S n) ->
  byte_at (be_bytes (S n) v ++ rest) 0 = v / 256 ^ Z.of_nat n.
Proof.
  intros Hv. unfold be_bytes.
  assert (le_bytes (S n) v = le_bytes n v ++ [v / 256 ^ Z.of_nat n mod 256]) as ->.
  { clear Hv. revert v. induction n as [|n IH]; intros v.
    - cbn. by rewrite Z.div_1_r.
    - cbn [le_bytes] in *. rewrite IH. cbn. do 3 f_equal.
      rewrite Z.div_div by (try apply Z.pow_nonzero; lia).
      rewrite <- Z.pow_succ_r by lia. do 3 f_equal. lia. }
  rewrite reverse_app. cbn. rewrite Z.mod_small; [done|].
  rewrite Nat2Z.inj_succ, Z.pow_succ_r in Hv by lia.
  assert (0 < 256 ^ Z.of_nat n) by (apply Z.pow_pos_nonneg; lia).
  split; [apply Z.div_pos; lia|]. apply Z.div_lt_upper_bound; lia.
Qed.

(** A form of [v], whether or not it is the shortest, decodes to [v]. *)
Lemma decode_encode_n v n tag rest :
  vlint_form n tag -> 0 <= v < 2 ^ (8 * n - 2) -> bytes_ok rest ->
  ossl_quic_vlint_decode (ossl_quic_vlint_encode_n v n ++ rest) = Some (v, n).
Proof.
  intros Hn Hv Hr. rewrite (encode_n_eq v n tag) by done.
  set (x := tag * 2 ^ (8 * n - 2) + v). set (l := be_bytes (Z.to_nat n) x ++ rest).
  assert (bytes_ok l) as Hl by (apply Forall_app; split; [apply be_bytes_ok|done]).
  assert (n <= zlen l) as Hz.
  { unfold l. rewrite zlen_app. unfold zlen at 1. rewrite be_bytes_length.
    pose proof (zlen_nonneg rest). lia. }
  assert (byte_at l 0 / 64 = tag /\ x mod 256 ^ n mod 2 ^ (8 * n - 2) = v) as [Ht Hx].
  { unfold l, x. vlint_cases Hn;
      [change (Z.to_nat 1) with 1%nat|change (Z.to_nat 2) with 2%nat
      |change (Z.to_nat 4) with 4%nat|change (Z.to_nat 8) with 8%nat];
      (rewrite be_bytes_head by (simpl in *; lia)); simpl in Hv |- *; split; dlia. }
  unfold ossl_quic_vlint_decode.
  destruct (Z.ltb_spec (zlen l) 1); [vlint_cases Hn; lia|].
  rewrite (decode_len_form _ n tag Hn (byte_at_ok l 0 Hl) Ht).
  destruct (Z.ltb_spec (zlen l) n); [lia|].
  rewrite (decode_unchecked_eq l n tag Hn Hl Hz Ht). do 2 f_equal.
  unfold l. rewrite take_app_length' by (symmetry; apply be_bytes_length).
  rewrite be_val_bytes, Z2Nat.id by (vlint_cases Hn; lia). done.
Qed.

Lemma encode_n_len v n tag :
  vlint_form n tag -> zlen (ossl_quic_vlint_encode_n v n) = n.
Proof. intros Hn. by vlint_cases Hn. Qed.

(** The packet reader consumes one form off the front of the bytes to be read. *)
Definition split_vlint (l : list Z) : option (Z * list Z) :=
  '(v, n) ← ossl_quic_vlint_decode l; Some (v, drop (Z.to_nat n) l).

Lemma decode_unchecked_prefix l more :
  bytes_ok l -> bytes_ok more -> 1 <= zlen l ->
  ossl_quic_vlint_decode_len (byte_at l 0) <= zlen l ->
  ossl_quic_vlint_decode_unchecked (l ++ more) = ossl_quic_vlint_decode_unchecked l.
Proof.
  intros Hl Hm H1 Hd. destruct (byte_form (byte_at l 0) (byte_at_ok l 0 Hl)) as [n Hn].
  assert (byte_at (l ++ more) 0 = byte_at l 0) as Hb.
  { unfold byte_at. rewrite lookup_app_l; [done|]. unfold zlen in *. lia. }
  rewrite (decode_len_form _ n _ Hn (byte_at_ok l 0 Hl) eq_refl) in Hd.
  rewrite (decode_unchecked_eq l n _ Hn Hl Hd eq_refl).
  rewrite (decode_unchecked_eq (l ++ more) n (byte_at l 0 / 64)); [|done|..|by rewrite Hb].
  - rewrite take_app_le; [done|]. unfold zlen in *. lia.
  - by apply Forall_app.
  - rewrite zlen_app. pose proof (zlen_nonneg more). lia.
Qed.

Lemma PACKET_get_quic_vlint_reads pkt l :
  pkt_rep pkt l -> bytes_ok (pkt_buf pkt) ->
  match split_vlint l with
  | None => PACKET_get_quic_vlint pkt = None
  | Some (v, rest) => exists pkt', PACKET_get_quic_vlint pkt = Some (v, pkt') /\ pkt_rep pkt' rest
  end.
Proof.
  intros Hrep Hbuf. unfold split_vlint, PACKET_get_quic_vlint, ossl_quic_vlint_decode.
  rewrite (pkt_rep_remaining _ _ Hrep). destruct (Z.ltb_spec (zlen l) 1); [done|].
  rewrite (pkt_rep_byte _ _ Hrep) by lia.
  set (n := ossl_quic_vlint_decode_len (byte_at l 0)).
  destruct (Z.ltb_spec (zlen l) n); [done|]. simpl.
  assert (bytes_ok l) as Hl.
  { destruct Hrep as (_ & _ & _ & _ & <-). by apply slice_ok. }
  assert (pkt_rest pkt = l ++ drop (length l) (pkt_rest pkt)) as Hr.
  { destruct Hrep as (_ & _ & _ & _ & Hb). rewrite <- (take_drop (length l) (pkt_rest pkt)) at 1.
    f_equal. rewrite <- Hb at 2. unfold pkt_bytes, slice, pkt_rest. by rewrite zlen_to_nat. }
  rewrite Hr, decode_unchecked_prefix by (done || (by repeat apply Forall_drop)).
  eexists; split; [done|]. apply pkt_rep_forward; [done|]. split; [|done].
  unfold n, ossl_quic_vlint_decode_len. apply Z.shiftl_nonneg. lia.
Qed.

(** ** Properties *)

(** C20: QUIC variable-length integers round-trip.  For every value up to
    2^62-1, encoding and then decoding (with any bytes after it) returns the
    value and the number of bytes written, which is the length
    [ossl_quic_vlint_encode_len] announces; and the same holds of the
    longer, non-minimal forms [ossl_quic_vlint_encode_n] can write. *)
Theorem vlint_roundtrip v rest :
  0 <= v <= OSSL_QUIC_VLINT_MAX -> bytes_ok rest ->
  ossl_quic_vlint_decode (ossl_quic_vlint_encode v ++ rest) = Some (v, ossl_quic_vlint_encode_len v) /\
  zlen (ossl_quic_vlint_encode v) = ossl_quic_vlint_encode_len v /\
  (forall n tag, vlint_form n tag -> v < 2 ^ (8 * n - 2) ->
     ossl_quic_vlint_encode_len v <= n /\
     ossl_quic_vlint_decode (ossl_quic_vlint_encode_n v n ++ rest) = Some (v, n)).
Proof.
  intros Hv Hr. destruct (encode_len_form v Hv) as (tag & Hf & Hb). split_and!.
  - by apply (decode_encode_n v _ tag).
  - by apply (encode_n_len v _ tag).
  - intros n t Hn Hlt. split; [|apply (decode_encode_n v n t); [done|lia|done]].
    unfold ossl_quic_vlint_encode_len, OSSL_QUIC_VLINT_2B_MIN, OSSL_QUIC_VLINT_4B_MIN,
      OSSL_QUIC_VLINT_8B_MIN. unfold OSSL_QUIC_VLINT_MAX in *.
    destruct (Z.ltb_spec v 64), (Z.ltb_spec v 16384), (Z.ltb_spec v 1073741824),
      (Z.leb_spec v 4611686018427387903); vlint_cases Hn; simpl in Hlt; lia.
Qed.

Lemma vlint_roundtrip_witness :
  ossl_quic_vlint_decode (ossl_quic_vlint_encode 15293 ++ [7]) = Some (15293, 2).
Proof.
  apply (vlint_roundtrip 15293 [7]); [unfold OSSL_QUIC_VLINT_MAX; lia|].
  repeat constructor; unfold is_byte; lia.
Defined.

(** The packet reader [PACKET_get_quic_vlint] decodes exactly the bytes
    that remain in the packet: it fails when the packet is empty or shorter
    than the form its first byte announces, and otherwise returns the value and
    leaves the bytes after the form; it never reads past the packet's end,
    whatever follows in the buffer. *)
Lemma get_quic_vlint_exact pkt l :
  pkt_rep pkt l -> bytes_ok (pkt_buf pkt) ->
  match split_vlint l with
  | None => PACKET_get_quic_vlint pkt = None
  | Some (v, rest) => exists pkt', PACKET_get_quic_vlint pkt = Some (v, pkt') /\ pkt_rep pkt' rest
  end.
Proof. apply PACKET_get_quic_vlint_reads. Qed.

Lemma get_quic_vlint_exact_witness :
  exists pkt', PACKET_get_quic_vlint (mkPACKET [9; 64; 200; 5; 1] 1 3) = Some (200, pkt') /\
    pkt_rep pkt' [5].
Proof.
  apply (get_quic_vlint_exact (mkPACKET [9; 64; 200; 5; 1] 1 3) [64; 200; 5]).
  - unfold pkt_rep. split_and!; by vm_compute.
  - repeat constructor; unfold is_byte; lia.
Defined.
