(* ===== verification/WPacket.v ===== *)
(** * Writable packets

    Model of [crypto/packet.c], of the [WPACKET] half of
    [include/internal/packet.h], and of [BUF_MEM_grow] of
    [crypto/buffer/buffer.c].

    A packet writes into a caller's fixed buffer ([staticbuf]), into a growable
    [BUF_MEM], or nowhere (both NULL); pointers into the buffer are offsets.
    The operations run in the monad [W]: [Done] is the C return value 1, [Fail]
    is 0 with the packet as the code leaves it, and [Crash] is what C leaves
    undefined, a store outside the buffer or through a NULL pointer.  The
    first group of theorems shows that [Crash] is never reached from a
    well-formed packet and that well-formedness is preserved; the second that
    the operations implement an abstract stack of open sub-packets. *)
From S2P Require Import Prelude.
From S2P Require Import ByteOrder.
From S2P Require Import Packet.
From S2P Require Import QuicVlint.

(** ** Data *)

(** [bm_data] holds the [length] bytes in use; the capacity is [bm_max], and
    [data] is NULL as long as it is 0. *)
Record BUF_MEM := mkBUF_MEM { bm_data : list Z; bm_max : Z }.
Definition bm_length (b : BUF_MEM) : Z := zlen (bm_data b).
Definition BUF_MEM_new : BUF_MEM := mkBUF_MEM [] 0.

Record WPACKET_SUB := mkWPACKET_SUB {
  sub_packet_len : Z; sub_lenbytes : Z; sub_pwritten : Z; sub_flags : Z }.

(** [wp_subs] is the chain of [parent] pointers from [subs] on.  [wp_clock]
    counts the allocation requests made so far (see [Allocator]). *)
Record WPACKET := mkWPACKET {
  wp_buf : option BUF_MEM; wp_staticbuf : option (list Z);
  wp_curr : Z; wp_written : Z; wp_maxsize : Z;
  wp_subs : list WPACKET_SUB; wp_endfirst : bool; wp_clock : nat }.

Definition DEFAULT_BUF_SIZE : Z := 256.
Definition LIMIT_BEFORE_EXPANSION : Z := 0x5ffffffc.
Definition WPACKET_FLAGS_NONE : Z := 0.
Definition WPACKET_FLAGS_NON_ZERO_LENGTH : Z := 1.
Definition WPACKET_FLAGS_ABANDON_ON_ZERO_LENGTH : Z := 2.
Definition WPACKET_FLAGS_QUIC_VLINT : Z := 4.
Definition sizeof_WPACKET_SUB : Z := 40.

(** The C allocator: whether the [n]-th request, of a given size, succeeds. *)
Class Allocator := { malloc_ok : nat -> Z -> bool }.

(** ** Effects *)

Inductive outcome (A : Type) : Type :=
  | Done (a : A) (w : WPACKET)
  | Fail (w : WPACKET)
  | Crash.
Arguments Done {A} _ _.
Arguments Fail {A} _.
Arguments Crash {A}.

Definition W (A : Type) : Type := WPACKET -> outcome A.
Definition wret {A} (a : A) : W A := fun w => Done a w.
Definition wfail {A} : W A := fun w => Fail w.
Definition wbind {A B} (m : W A) (k : A -> W B) : W B := fun w =>
  match m w with Done a w' => k a w' | Fail w' => Fail w' | Crash => Crash end.
Definition wget : W WPACKET := fun w => Done w w.
Definition wupd (f : WPACKET -> WPACKET) : W unit := fun w => Done tt (f w).
(** [if (!c) return 0;] *)
Definition wguard (c : bool) : W unit := if c then wret tt else wfail.

Declare Scope wpacket_scope.
Delimit Scope wpacket_scope with W.
Notation "'let!' x ':=' m 'in' k" := (wbind m (fun x => k))
  (at level 10, x pattern, m at level 100, k at level 200) : wpacket_scope.
Notation "m ;; k" := (wbind m (fun _ => k)) (at level 100, k at level 200) : wpacket_scope.
Open Scope wpacket_scope.

(** Field updates. *)
Definition set_pos (curr written : Z) (w : WPACKET) : WPACKET :=
  mkWPACKET (wp_buf w) (wp_staticbuf w) curr written (wp_maxsize w) (wp_subs w) (wp_endfirst w)
    (wp_clock w).
Definition set_subs (subs : list WPACKET_SUB) (w : WPACKET) : WPACKET :=
  mkWPACKET (wp_buf w) (wp_staticbuf w) (wp_curr w) (wp_written w) (wp_maxsize w) subs
    (wp_endfirst w) (wp_clock w).
Definition set_buf (b : option BUF_MEM) (w : WPACKET) : WPACKET :=
  mkWPACKET b (wp_staticbuf w) (wp_curr w) (wp_written w) (wp_maxsize w) (wp_subs w)
    (wp_endfirst w) (wp_clock w).
Definition set_staticbuf (b : option (list Z)) (w : WPACKET) : WPACKET :=
  mkWPACKET (wp_buf w) b (wp_curr w) (wp_written w) (wp_maxsize w) (wp_subs w)
    (wp_endfirst w) (wp_clock w).
Definition set_maxsize (m : Z) (w : WPACKET) : WPACKET :=
  mkWPACKET (wp_buf w) (wp_staticbuf w) (wp_curr w) (wp_written w) m (wp_subs w)
    (wp_endfirst w) (wp_clock w).
Definition tick (w : WPACKET) : WPACKET :=
  mkWPACKET (wp_buf w) (wp_staticbuf w) (wp_curr w) (wp_written w) (wp_maxsize w) (wp_subs w)
    (wp_endfirst w) (S (wp_clock w)).

(** The bytes behind [GETBUF(pkt)], [None] when it is NULL. *)
Definition GETBUF (w : WPACKET) : option (list Z) :=
  match wp_staticbuf w with
  | Some b => Some b
  | None =>
      match wp_buf w with
      | Some b => if bm_max b =? 0 then None else Some (bm_data b)
      | None => None
      end
  end.

(** The buffer with its contents replaced. *)
Definition setbuf (d : list Z) (w : WPACKET) : WPACKET :=
  match wp_staticbuf w with
  | Some _ => set_staticbuf (Some d) w
  | None =>
      match wp_buf w with
      | Some b => set_buf (Some (mkBUF_MEM d (bm_max b))) w
      | None => w
      end
  end.

(** [memcpy(buf + off, d, n)] with the bounds C relies on. *)
Definition wp_store (off : Z) (d : list Z) : W unit := fun w =>
  match GETBUF w with
  | None => Crash
  | Some b =>
      if (0 <=? off) && (off + zlen d <=? zlen b) then Done tt (setbuf (splice b off d) w) else Crash
  end.

Section Ops.
Context `{Allocator}.

(** [OPENSSL_zalloc] and [OPENSSL_realloc]: whether the request succeeds. *)
Definition walloc (size : Z) : W bool := fun w => Done (malloc_ok (wp_clock w) size) (tick w).

(** [None] is the return value 0. *)
Definition BUF_MEM_grow (len : Z) (str : BUF_MEM) : W BUF_MEM :=
  if len <=? bm_length str then wret (mkBUF_MEM (take (Z.to_nat len) (bm_data str)) (bm_max str))
  else if len <=? bm_max str then
    wret (mkBUF_MEM (bm_data str ++ zeros (len - bm_length str)) (bm_max str))
  else if LIMIT_BEFORE_EXPANSION <? len then wfail
  else
    let n := (len + 3) / 3 * 4 in
    let! ok := walloc n in
    if negb ok then wfail
    else wret (mkBUF_MEM (bm_data str ++ zeros (len - bm_length str)) n).

(** The offset [WPACKET_get_curr] points at, [None] when it is NULL. *)
Definition WPACKET_get_curr (w : WPACKET) : option Z :=
  match GETBUF w with
  | None => None
  | Some _ => Some (if wp_endfirst w then wp_maxsize w - wp_curr w else wp_curr w)
  end.

Definition WPACKET_reserve_bytes (len : Z) : W (option Z) :=
  let! pkt := wget in
  wguard (negb (bool_decide (wp_subs pkt = [])) && negb (len =? 0));;
  wguard (negb (u64 (wp_maxsize pkt - wp_written pkt) <? len));;
  match wp_buf pkt with
  | Some buf =>
      if u64 (bm_length buf - wp_written pkt) <? len then
        let reflen := if bm_length buf <? len then len else bm_length buf in
        let newlen :=
          if SIZE_MAX / 2 <? reflen then SIZE_MAX
          else if reflen * 2 <? DEFAULT_BUF_SIZE then DEFAULT_BUF_SIZE else reflen * 2 in
        let! buf' := BUF_MEM_grow newlen buf in
        wupd (set_buf (Some buf'))
      else wret tt
  | None => wret tt
  end;;
  let! pkt' := wget in
  wret (off ← WPACKET_get_curr pkt'; Some (if wp_endfirst pkt' then off - len else off)).

Definition WPACKET_allocate_bytes (len : Z) : W (option Z) :=
  let! allocbytes := WPACKET_reserve_bytes len in
  wupd (fun pkt => set_pos (u64 (wp_curr pkt + len)) (u64 (wp_written pkt + len)) pkt);;
  wret allocbytes.

Definition WPACKET_sub_reserve_bytes__ (len lenbytes : Z) : W (option Z) :=
  let! pkt := wget in
  wguard (negb (wp_endfirst pkt && (0 <? lenbytes)));;
  let! allocbytes := WPACKET_reserve_bytes (u64 (lenbytes + len)) in
  wret (off ← allocbytes; Some (off + lenbytes)).

Definition maxmaxsize (lenbytes : Z) : Z :=
  if (8 <=? lenbytes) || (lenbytes =? 0) then SIZE_MAX
  else u64 (Z.shiftl 1 (lenbytes * 8)) - 1 + lenbytes.

(** The loop of [put_value]: [data] moves down from the last byte; what is
    left of the value is returned. *)
Fixpoint put_value_loop (n : nat) (data value : Z) : W Z :=
  match n with
  | O => wret value
  | S n' =>
      wp_store data [u8 (Z.land value 0xff)];;
      put_value_loop n' (data - 1) (Z.shiftr value 8)
  end.
Definition put_value (data : option Z) (value len : Z) : W unit :=
  match data with
  | None => wret tt
  | Some off =>
      let! value' := put_value_loop (Z.to_nat len) (off + len - 1) value in
      wguard (negb (0 <? value'))
  end.
Definition put_quic_value (data : option Z) (value len : Z) : W unit :=
  match data with
  | None => wret tt
  | Some off =>
      wguard (negb (len <? ossl_quic_vlint_encode_len value));;
      wp_store off (ossl_quic_vlint_encode_n value len)
  end.

Definition WPACKET_put_bytes__ (val size : Z) : W unit :=
  wguard (size <=? 8);;
  let! data := WPACKET_allocate_bytes size in
  put_value data val size.
Definition WPACKET_put_bytes_u8 (val : Z) : W unit := WPACKET_put_bytes__ val 1.
Definition WPACKET_put_bytes_u16 (val : Z) : W unit := WPACKET_put_bytes__ val 2.
Definition WPACKET_put_bytes_u24 (val : Z) : W unit := WPACKET_put_bytes__ val 3.
Definition WPACKET_put_bytes_u32 (val : Z) : W unit := WPACKET_put_bytes__ val 4.
Definition WPACKET_put_bytes_u64 (val : Z) : W unit := WPACKET_put_bytes__ val 8.

(** [pkt->subs] always points at the chain's head here, so the record of the
    head is updated in place. *)
Definition set_head_sub (f : WPACKET_SUB -> WPACKET_SUB) (w : WPACKET) : WPACKET :=
  match wp_subs w with [] => w | s :: ps => set_subs (f s :: ps) w end.

Definition wpacket_intern_init_len (lenbytes : Z) : W unit :=
  wupd (set_pos 0 0);;
  let! ok := walloc sizeof_WPACKET_SUB in
  if negb ok then wupd (set_subs []);; wfail
  else
    wupd (set_subs [mkWPACKET_SUB 0 0 0 0]);;
    if lenbytes =? 0 then wret tt
    else
      wupd (set_subs [mkWPACKET_SUB 0 lenbytes lenbytes 0]);;
      fun w =>
        match WPACKET_allocate_bytes lenbytes w with
        | Done _ w' => Done tt w'
        | Fail w' => Fail (set_subs [] w')
        | Crash => Crash
        end.

(** [buf] and its length; the packet's previous contents are not read. *)
Definition WPACKET_init_static_len (buf : list Z) (lenbytes : Z) : W unit :=
  let max := maxmaxsize lenbytes in
  let len := zlen buf in
  wguard (0 <? len);;
  wupd (fun w => mkWPACKET None (Some buf) (wp_curr w) (wp_written w)
    (if max <? len then max else len) (wp_subs w) false (wp_clock w));;
  wpacket_intern_init_len lenbytes.
Definition WPACKET_init_der (buf : list Z) : W unit :=
  let len := zlen buf in
  wguard (0 <? len);;
  wupd (fun w => mkWPACKET None (Some buf) (wp_curr w) (wp_written w) len (wp_subs w) true
    (wp_clock w));;
  wpacket_intern_init_len 0.
Definition WPACKET_init_len (buf : BUF_MEM) (lenbytes : Z) : W unit :=
  wupd (fun w => mkWPACKET (Some buf) None (wp_curr w) (wp_written w) (maxmaxsize lenbytes)
    (wp_subs w) false (wp_clock w));;
  wpacket_intern_init_len lenbytes.
Definition WPACKET_init (buf : BUF_MEM) : W unit := WPACKET_init_len buf 0.
Definition WPACKET_init_null (lenbytes : Z) : W unit :=
  wupd (fun w => mkWPACKET None None (wp_curr w) (wp_written w) (maxmaxsize lenbytes)
    (wp_subs w) false (wp_clock w));;
  wpacket_intern_init_len 0.
Definition WPACKET_init_null_der : W unit :=
  wupd (fun w => mkWPACKET None None (wp_curr w) (wp_written w) SIZE_MAX (wp_subs w) true
    (wp_clock w));;
  wpacket_intern_init_len 0.

Definition WPACKET_set_flags (flags : Z) : W unit :=
  let! pkt := wget in
  wguard (negb (bool_decide (wp_subs pkt = [])));;
  wupd (set_head_sub (fun s =>
    mkWPACKET_SUB (sub_packet_len s) (sub_lenbytes s) (sub_pwritten s) flags)).

(** [while ((tmplen = tmplen >> 8) > 0) numlenbytes++;]: eight rounds empty a
    64-bit value. *)
Fixpoint num_len_bytes (fuel : nat) (tmplen numlenbytes : Z) : Z :=
  match fuel with
  | O => numlenbytes
  | S f =>
      let tmplen := Z.shiftr tmplen 8 in
      if 0 <? tmplen then num_len_bytes f tmplen (numlenbytes + 1) else numlenbytes
  end.

Definition has_flag (sub : WPACKET_SUB) (flag : Z) : bool := negb (Z.land (sub_flags sub) flag =? 0).

(** [sub] and the chain of its parents. *)
Definition wpacket_intern_close (sub : WPACKET_SUB) (parents : list WPACKET_SUB) (doclose : bool) :
    W unit :=
  let! pkt := wget in
  let packlen := u64 (wp_written pkt - sub_pwritten sub) in
  wguard (negb ((packlen =? 0) && has_flag sub WPACKET_FLAGS_NON_ZERO_LENGTH));;
  let! lenbytes :=
    (if (packlen =? 0) && has_flag sub WPACKET_FLAGS_ABANDON_ON_ZERO_LENGTH then
       wguard doclose;;
       (if u64 (wp_curr pkt - sub_lenbytes sub) =? sub_packet_len sub then
          wupd (set_pos (u64 (wp_curr pkt - sub_lenbytes sub))
                        (u64 (wp_written pkt - sub_lenbytes sub)))
        else wret tt);;
       wret 0
     else wret (sub_lenbytes sub)) in
  (if 0 <? lenbytes then
     match GETBUF pkt with
     | None => wret tt
     | Some _ =>
         if negb (has_flag sub WPACKET_FLAGS_QUIC_VLINT)
         then put_value (Some (sub_packet_len sub)) packlen lenbytes
         else put_quic_value (Some (sub_packet_len sub)) packlen lenbytes
     end
   else if wp_endfirst pkt && negb (bool_decide (parents = []))
        && (negb (packlen =? 0) || negb (has_flag sub WPACKET_FLAGS_ABANDON_ON_ZERO_LENGTH)) then
     let numlenbytes := num_len_bytes 8 packlen 1 in
     WPACKET_put_bytes__ packlen numlenbytes;;
     if 0x7f <? packlen then WPACKET_put_bytes_u8 (Z.lor numlenbytes 0x80) else wret tt
   else wret tt);;
  if doclose then wupd (set_subs parents) else wret tt.

(** The loop over the chain; [wpacket_intern_close] with [doclose] 0 leaves
    the chain alone. *)
Fixpoint fill_lengths_loop (subs : list WPACKET_SUB) : W unit :=
  match subs with
  | [] => wret tt
  | sub :: parents => wpacket_intern_close sub parents false;; fill_lengths_loop parents
  end.
Definition WPACKET_fill_lengths : W unit :=
  let! pkt := wget in
  wguard (negb (bool_decide (wp_subs pkt = [])));;
  fill_lengths_loop (wp_subs pkt).

Definition WPACKET_close : W unit :=
  let! pkt := wget in
  match wp_subs pkt with
  | sub :: (_ :: _) as parents => wpacket_intern_close sub parents true
  | _ => wfail
  end.
(** [wpacket_intern_close] has already set [subs] to the parent, NULL. *)
Definition WPACKET_finish : W unit :=
  let! pkt := wget in
  match wp_subs pkt with
  | [sub] => wpacket_intern_close sub [] true;; wupd (set_subs [])
  | _ => wfail
  end.

Definition WPACKET_start_sub_packet_len__ (lenbytes : Z) : W unit :=
  let! pkt := wget in
  wguard (negb (bool_decide (wp_subs pkt = [])));;
  wguard (negb ((0 <? lenbytes) && wp_endfirst pkt));;
  let! ok := walloc sizeof_WPACKET_SUB in
  wguard ok;;
  let pwritten := u64 (wp_written pkt + lenbytes) in
  if lenbytes =? 0 then wupd (set_subs (mkWPACKET_SUB 0 lenbytes pwritten 0 :: wp_subs pkt))
  else
    wupd (set_subs (mkWPACKET_SUB (wp_written pkt) lenbytes pwritten 0 :: wp_subs pkt));;
    WPACKET_allocate_bytes lenbytes;; wret tt.
Definition WPACKET_start_sub_packet : W unit := WPACKET_start_sub_packet_len__ 0.
Definition WPACKET_start_sub_packet_u8 : W unit := WPACKET_start_sub_packet_len__ 1.
Definition WPACKET_start_sub_packet_u16 : W unit := WPACKET_start_sub_packet_len__ 2.
Definition WPACKET_start_sub_packet_u24 : W unit := WPACKET_start_sub_packet_len__ 3.
Definition WPACKET_start_sub_packet_u32 : W unit := WPACKET_start_sub_packet_len__ 4.

Definition WPACKET_sub_allocate_bytes__ (len lenbytes : Z) : W (option Z) :=
  WPACKET_start_sub_packet_len__ lenbytes;;
  let! allocbytes := WPACKET_allocate_bytes len in
  WPACKET_close;;
  wret allocbytes.

Definition WPACKET_set_max_size (maxsize : Z) : W unit :=
  let! pkt := wget in
  match last (wp_subs pkt) with
  | None => wfail
  | Some sub =>
      let lenbytes := if sub_lenbytes sub =? 0 then 8 else sub_lenbytes sub in
      wguard (negb ((maxmaxsize lenbytes <? maxsize) || (maxsize <? wp_written pkt)));;
      wupd (set_maxsize maxsize)
  end.

Definition WPACKET_memset (ch len : Z) : W unit :=
  if len =? 0 then wret tt
  else
    let! dest := WPACKET_allocate_bytes len in
    match dest with
    | None => wret tt
    | Some off => wp_store off (replicate (Z.to_nat len) (u8 ch))
    end.

(** [src] is the list of the [len] bytes copied. *)
Definition WPACKET_memcpy (src : list Z) : W unit :=
  if zlen src =? 0 then wret tt
  else
    let! dest := WPACKET_allocate_bytes (zlen src) in
    match dest with
    | None => wret tt
    | Some off => wp_store off src
    end.

Definition WPACKET_sub_memcpy__ (src : list Z) (lenbytes : Z) : W unit :=
  WPACKET_start_sub_packet_len__ lenbytes;;
  WPACKET_memcpy src;;
  WPACKET_close.

Definition WPACKET_get_total_written : W Z := let! pkt := wget in wret (wp_written pkt).
Definition WPACKET_get_length : W Z :=
  let! pkt := wget in
  match wp_subs pkt with
  | [] => wfail
  | sub :: _ => wret (u64 (wp_written pkt - sub_pwritten sub))
  end.
Definition WPACKET_is_null_buf (pkt : WPACKET) : bool :=
  match wp_buf pkt, wp_staticbuf pkt with None, None => true | _, _ => false end.
Definition WPACKET_cleanup : W unit := wupd (set_subs []).

Definition WPACKET_start_quic_sub_packet_bound (max_len : Z) : W unit :=
  let enclen := ossl_quic_vlint_encode_len max_len in
  wguard (negb (enclen =? 0));;
  WPACKET_start_sub_packet_len__ enclen;;
  wupd (set_head_sub (fun s => mkWPACKET_SUB (sub_packet_len s) (sub_lenbytes s) (sub_pwritten s)
    (Z.lor (sub_flags s) WPACKET_FLAGS_QUIC_VLINT))).
Definition WPACKET_start_quic_sub_packet : W unit :=
  WPACKET_start_quic_sub_packet_bound OSSL_QUIC_VLINT_4B_MIN.
Definition WPACKET_quic_sub_allocate_bytes (len : Z) : W (option Z) :=
  WPACKET_start_quic_sub_packet_bound len;;
  let! allocbytes := WPACKET_allocate_bytes len in
  WPACKET_close;;
  wret allocbytes.
(** The encoder stores through [b] without a NULL test. *)
Definition WPACKET_quic_write_vlint (v : Z) : W unit :=
  let enclen := ossl_quic_vlint_encode_len v in
  wguard (negb (enclen =? 0));;
  let! b := WPACKET_allocate_bytes enclen in
  match b with
  | None => fun _ => Crash
  | Some off => wp_store off (ossl_quic_vlint_encode v)
  end.
End Ops.

(** ** Well-formed packets *)

(** The offset at which a sub-packet's length bytes start. *)
Definition sub_start (s : WPACKET_SUB) : Z := sub_pwritten s - sub_lenbytes s.

(** The chain below [top] bytes: sub-packets are nested, their length bytes lie
    where the code recorded them, QUIC lengths have a QUIC size. *)
Fixpoint subs_ok (endfirst : bool) (top : Z) (subs : list WPACKET_SUB) : Prop :=
  match subs with
  | [] => True
  | s :: ps =>
      0 <= sub_lenbytes s /\ 0 <= sub_start s /\ sub_pwritten s <= top /\
      sub_packet_len s = (if sub_lenbytes s =? 0 then 0 else sub_start s) /\
      (0 < sub_lenbytes s -> endfirst = false) /\
      (has_flag s WPACKET_FLAGS_QUIC_VLINT = true -> exists tag, vlint_form (sub_lenbytes s) tag) /\
      subs_ok endfirst (sub_start s) ps
  end.

Definition buffer_ok (w : WPACKET) : Prop :=
  match wp_staticbuf w, wp_buf w with
  | Some b, None => wp_maxsize w <= zlen b
  | None, Some bm =>
      wp_endfirst w = false /\ wp_written w <= bm_length bm <= bm_max bm /\ bm_max bm <= SIZE_MAX
  | None, None => True
  | Some _, Some _ => False
  end.

Definition wp_wf (w : WPACKET) : Prop :=
  0 <= wp_written w <= wp_maxsize w /\ wp_maxsize w <= SIZE_MAX /\ wp_curr w = wp_written w /\
  buffer_ok w /\ subs_ok (wp_endfirst w) (wp_written w) (wp_subs w).

(** No undefined behaviour, and a successful return satisfies [Q]. *)
Definition safe {A} (o : outcome A) (Q : A -> WPACKET -> Prop) : Prop :=
  match o with Done a w => Q a w | Fail _ => True | Crash => False end.

Lemma safe_bind {A B} (m : W A) (k : A -> W B) w Q :
  safe (m w) (fun a w' => safe (k a w') Q) -> safe (wbind m k w) Q.
Proof. unfold wbind. by destruct (m w). Qed.
Lemma safe_mono {A} (o : outcome A) (P Q : A -> WPACKET -> Prop) :
  safe o P -> (forall a w, P a w -> Q a w) -> safe o Q.
Proof. destruct o; simpl; auto. Qed.
Lemma safe_guard c w (Q : unit -> WPACKET -> Prop) : (c = true -> Q tt w) -> safe (wguard c w) Q.
Proof. unfold wguard. destruct c; simpl; auto. Qed.

Create HintDb wp.
#[export] Hint Resolve safe_guard : wp.

(** Run the straight-line part of an operation. *)
Ltac wrun := cbn [wbind wret wget wupd wfail].
Tactic Notation "wstep" := apply safe_bind; cbn [wget wret wupd safe].
Tactic Notation "wguard" "as" simple_intropattern(p) :=
  apply safe_bind; apply safe_guard; intros p; cbn beta.

Lemma subs_ok_mono e t t' subs : t <= t' -> subs_ok e t subs -> subs_ok e t' subs.
Proof. destruct subs as [|s ps]; simpl; [done|]. intros ? (? & ? & ? & ?). split; [done|split; [done|split; [lia|done]]]. Qed.

Lemma wf_set_subs w subs :
  wp_wf w -> subs_ok (wp_endfirst w) (wp_written w) subs -> wp_wf (set_subs subs w).
Proof. intros (? & ? & ? & ? & ?) ?. do 4 (split; [done|]). done. Qed.
Lemma wf_tick w : wp_wf w -> wp_wf (tick w).
Proof. done. Qed.

(** ** Stores

    [setbuf] changes the contents of the buffer and nothing else. *)

Lemma setbuf_fields d w :
  wp_curr (setbuf d w) = wp_curr w /\ wp_written (setbuf d w) = wp_written w /\
  wp_maxsize (setbuf d w) = wp_maxsize w /\ wp_subs (setbuf d w) = wp_subs w /\
  wp_endfirst (setbuf d w) = wp_endfirst w /\ wp_clock (setbuf d w) = wp_clock w /\
  WPACKET_is_null_buf (setbuf d w) = WPACKET_is_null_buf w.
Proof.
  unfold setbuf, WPACKET_is_null_buf. destruct w as [[bm|] [sb|]]; simpl; split_and!; done.
Qed.
Lemma setbuf_setbuf d d' w : setbuf d (setbuf d' w) = setbuf d w.
Proof. destruct w as [[bm|] [sb|]]; done. Qed.
Lemma GETBUF_setbuf w b d : GETBUF w = Some b -> GETBUF (setbuf d w) = Some d.
Proof.
  unfold GETBUF, setbuf. destruct w as [[bm|] [sb|]]; simpl; try done.
  by destruct (bm_max bm =? 0).
Qed.
Lemma setbuf_same w b : GETBUF w = Some b -> setbuf b w = w.
Proof.
  unfold GETBUF, setbuf. destruct w as [[[bd bx]|] [sb|]]; simpl; intros E; simplify_eq; try done.
  destruct (bx =? 0); by simplify_eq.
Qed.
Lemma splice_slice {A} (b : list A) o len :
  0 <= o -> 0 <= len -> o + len <= zlen b -> splice b o (slice b o len) = b.
Proof.
  unfold zlen. intros Ho Hl Hb. unfold splice.
  assert (length (slice b o len) = Z.to_nat len) as Hz by (unfold slice; rewrite length_take, length_drop; lia).
  rewrite Hz, <- drop_drop. unfold slice. by rewrite take_drop, take_drop.
Qed.
Lemma setbuf_wf w b d : wp_wf w -> GETBUF w = Some b -> zlen d = zlen b -> wp_wf (setbuf d w).
Proof.
  intros (? & ? & ? & Hb & ?) Hg Hd. pose proof (setbuf_fields d w) as (Ec & Ew & Em & Es & Ee & _).
  unfold wp_wf. rewrite Ec, Ew, Em, Es, Ee. split_and!; try lia; try done.
  unfold buffer_ok, GETBUF, setbuf, bm_length in *.
  destruct w as [[bm|] [sb|]]; simpl in *; simplify_eq; try done.
  - destruct (bm_max bm =? 0); simplify_eq. by rewrite Hd.
  - by rewrite Hd.
Qed.
Lemma wp_store_eq off d w b :
  GETBUF w = Some b -> 0 <= off -> off + zlen d <= zlen b ->
  wp_store off d w = Done tt (setbuf (splice b off d) w).
Proof.
  intros Hg Ho Hl. unfold wp_store. rewrite Hg.
  by destruct (Z.leb_spec 0 off), (Z.leb_spec (off + zlen d) (zlen b)); try lia.
Qed.

Lemma splice_adjacent {A} (b l r : list A) off :
  0 <= off -> off + zlen l + zlen r <= zlen b ->
  splice (splice b (off + zlen l) r) off l = splice b off (l ++ r).
Proof.
  unfold zlen. intros Ho Hl. unfold splice. rewrite <- app_assoc. f_equal.
  - rewrite take_app_le by (rewrite length_take; lia). rewrite take_take. f_equal; lia.
  - f_equal. rewrite drop_app_length' by (rewrite length_take; lia). f_equal. f_equal.
    rewrite length_app. lia.
Qed.

Lemma put_value_loop_eq n data value w b :
  0 <= value -> GETBUF w = Some b -> 0 <= data - Z.of_nat n + 1 -> data < zlen b ->
  put_value_loop n data value w =
    Done (value / 256 ^ Z.of_nat n)
      (if decide (n = O) then w else setbuf (splice b (data - Z.of_nat n + 1) (be_bytes n value)) w).
Proof.
  revert data value w b. induction n as [|n IH]; intros data value w b Hv Hg Hd Hl; cbn [put_value_loop].
  - unfold wret. by rewrite Z.pow_0_r, Z.div_1_r.
  - unfold wbind. rewrite (wp_store_eq data [_] w b) by (done || (unfold zlen in *; simpl in *; lia)).
    rewrite (IH _ _ _ (splice b data [value mod 256])).
    + f_equal.
      * rewrite Z.shiftr_div_pow2 by lia. change (2 ^ 8) with 256.
        rewrite Nat2Z.inj_succ, Z.pow_succ_r, Z.div_div by (try apply Z.pow_pos_nonneg; lia). done.
      * destruct (decide (S n = O)); [done|]. rewrite Z.shiftr_div_pow2 by lia. change (2 ^ 8) with 256.
        assert (u8 (Z.land value 0xff) = value mod 256) as Eu.
        { rewrite land_255. unfold u8. dlia. }
        rewrite Eu. case_decide; subst.
        -- cbn [be_bytes]. rewrite be_bytes_S. do 3 f_equal. lia.
        -- rewrite setbuf_setbuf, be_bytes_S. f_equal.
           replace data with (data - Z.of_nat n + zlen (be_bytes n (value / 256))) at 1
             by (rewrite zlen_be_bytes; lia).
           replace (data - 1 - Z.of_nat n + 1) with (data - Z.of_nat n) by lia.
           replace (data - Z.of_nat (S n) + 1) with (data - Z.of_nat n) by lia.
           apply splice_adjacent; [lia|]. rewrite zlen_be_bytes. unfold zlen in *; simpl; lia.
    + apply Z.shiftr_nonneg. lia.
    + erewrite GETBUF_setbuf by done. rewrite land_255. do 4 f_equal. unfold u8. dlia.
    + lia.
    + rewrite splice_zlen; unfold zlen in *; simpl; lia.
Qed.

(** [put_value] stores the low [len] bytes, big endian, and reports whether the
    value fits. *)
Lemma put_value_eq off value len w b :
  0 <= value -> GETBUF w = Some b -> 0 <= off -> 0 < len -> off + len <= zlen b ->
  put_value (Some off) value len w =
    let w' := setbuf (splice b off (be_bytes (Z.to_nat len) value)) w in
    if value <? 256 ^ len then Done tt w' else Fail w'.
Proof.
  intros Hv Hg Ho Hl Hb. unfold put_value, wbind.
  rewrite (put_value_loop_eq _ _ _ _ b) by (done || lia).
  rewrite decide_False by lia. rewrite Z2Nat.id by lia.
  replace (off + len - 1 - len + 1) with off by lia.
  assert (0 < 256 ^ len) by (apply Z.pow_pos_nonneg; lia).
  unfold wguard. destruct (Z.ltb_spec value (256 ^ len)).
  - by rewrite Z.div_small by lia.
  - destruct (Z.ltb_spec 0 (value / 256 ^ len)) as [|Hd]; [done|].
    assert (1 <= value / 256 ^ len) by (apply Z.div_le_lower_bound; lia). lia.
Qed.

Section Safety.
Context `{Allocator}.

Lemma BUF_MEM_grow_safe len bm w :
  bm_length bm <= bm_max bm <= SIZE_MAX -> 0 <= len ->
  safe (BUF_MEM_grow len bm w) (fun bm' w' =>
    bm_length bm' = len /\ len <= bm_max bm' <= SIZE_MAX /\ (w' = w \/ w' = tick w) /\
    (bm_length bm <= len -> exists t, bm_data bm' = bm_data bm ++ t)).
Proof.
  intros Hb Hl. unfold BUF_MEM_grow. unfold bm_length in *.
  destruct (Z.leb_spec len (zlen (bm_data bm))) as [Hle|Hlt].
  - simpl. assert (zlen (take (Z.to_nat len) (bm_data bm)) = len) as Ez
      by (unfold zlen in *; rewrite length_take; lia).
    split_and!; [done|lia|lia|by left|]. intros. exists []. rewrite app_nil_r.
    apply take_ge. unfold zlen in *; lia.
  - assert (zlen (bm_data bm ++ zeros (len - zlen (bm_data bm))) = len) as Ez
      by (rewrite zlen_app, zlen_zeros; lia).
    destruct (Z.leb_spec len (bm_max bm)); [simpl; split_and!; eauto; lia|].
    unfold LIMIT_BEFORE_EXPANSION.
    destruct (Z.ltb_spec 0x5ffffffc len); [done|]. unfold wbind, walloc.
    destruct (malloc_ok _ _); simpl; [|done].
    split_and!; eauto; unfold SIZE_MAX; dlia.
Qed.

(** What a successful reservation of [len] bytes gives. *)
Definition reserved (w : WPACKET) (len : Z) (p : option Z) (w' : WPACKET) : Prop :=
  0 < len /\ wp_wf w' /\ wp_written w + len <= wp_maxsize w /\
  wp_subs w <> [] /\
  wp_written w' = wp_written w /\ wp_subs w' = wp_subs w /\ wp_endfirst w' = wp_endfirst w /\
  wp_maxsize w' = wp_maxsize w /\ wp_staticbuf w' = wp_staticbuf w /\
  (wp_buf w' = None <-> wp_buf w = None) /\
  (forall bm, wp_buf w' = Some bm -> wp_written w + len <= bm_length bm) /\
  match p with
  | None => WPACKET_is_null_buf w' = true
  | Some o =>
      exists b, GETBUF w' = Some b /\ 0 <= o /\ o + len <= zlen b /\
        o = (if wp_endfirst w then wp_maxsize w - wp_written w - len else wp_written w) /\
        exists t, b = default [] (GETBUF w) ++ t
  end.

Lemma grown_GETBUF w bm bm' :
  wp_buf w = Some bm -> wp_staticbuf w = None -> 0 < bm_max bm' ->
  GETBUF (set_buf (Some bm') w) = Some (bm_data bm').
Proof.
  intros Eb Es Hm. unfold GETBUF; simpl. rewrite Es. destruct (Z.eqb_spec (bm_max bm') 0); [lia|done].
Qed.

Lemma newlen_enough len bl written :
  0 < len -> 0 <= written <= bl -> bl <= SIZE_MAX -> len <= SIZE_MAX ->
  let reflen := if bl <? len then len else bl in
  let newlen := if SIZE_MAX / 2 <? reflen then SIZE_MAX
                else if reflen * 2 <? DEFAULT_BUF_SIZE then DEFAULT_BUF_SIZE else reflen * 2 in
  written + len <= SIZE_MAX -> written + len <= newlen /\ bl <= newlen.
Proof.
  intros. unfold reflen, newlen, DEFAULT_BUF_SIZE in *.
  destruct (Z.ltb_spec bl len);
    destruct (Z.ltb_spec (SIZE_MAX / 2) (if bl <? len then len else bl)) as [E|E];
    revert E; destruct (Z.ltb_spec bl len); try lia; intros E;
    repeat case_match; lia.
Qed.

Lemma u64_sub_small a b : 0 <= b <= a -> a <= SIZE_MAX -> u64 (a - b) = a - b.
Proof. unfold SIZE_MAX. intros. apply u64_small. lia. Qed.

Lemma reserve_ptr w len :
  wp_wf w -> 0 < len -> wp_written w + len <= wp_maxsize w ->
  (forall bm, wp_buf w = Some bm -> wp_written w + len <= bm_length bm) ->
  match (off ← WPACKET_get_curr w; Some (if wp_endfirst w then off - len else off)) with
  | None => WPACKET_is_null_buf w = true
  | Some o =>
      exists b, GETBUF w = Some b /\ 0 <= o /\ o + len <= zlen b /\
        o = (if wp_endfirst w then wp_maxsize w - wp_written w - len else wp_written w)
  end.
Proof.
  intros (Hw & Hm & Hc & Hb & Hs) Hl Hr Hbm.
  unfold WPACKET_get_curr, WPACKET_is_null_buf, GETBUF, buffer_ok in *.
  destruct (wp_staticbuf w) as [sb|], (wp_buf w) as [bm|]; try done.
  - simpl. exists sb. split; [done|]. rewrite Hc. destruct (wp_endfirst w); split_and!; lia.
  - destruct Hb as (-> & Hb & Hmx). specialize (Hbm bm eq_refl).
    destruct (Z.eqb_spec (bm_max bm) 0); [lia|]. simpl. exists (bm_data bm). rewrite Hc.
    unfold bm_length in *. split_and!; try done; lia.
Qed.

Lemma reserved_intro w w' len :
  wp_wf w' -> 0 < len -> wp_subs w <> [] -> wp_written w + len <= wp_maxsize w ->
  wp_written w' = wp_written w -> wp_subs w' = wp_subs w -> wp_endfirst w' = wp_endfirst w ->
  wp_maxsize w' = wp_maxsize w -> wp_staticbuf w' = wp_staticbuf w ->
  (wp_buf w' = None <-> wp_buf w = None) ->
  (forall bm, wp_buf w' = Some bm -> wp_written w + len <= bm_length bm) ->
  (exists t, default [] (GETBUF w') = default [] (GETBUF w) ++ t) ->
  reserved w len (off ← WPACKET_get_curr w'; Some (if wp_endfirst w' then off - len else off)) w'.
Proof.
  intros Hwf Hl Hne Hr Hw Hs He Hm Hsb Hb Hbm [t Ht]. unfold reserved.
  split_and!; try done.
  pose proof (reserve_ptr w' len Hwf Hl ltac:(lia)
    ltac:(intros bm E; specialize (Hbm bm E); lia)) as Hp.
  destruct (off ← WPACKET_get_curr w'; _); [|done]. destruct Hp as (b & Eg & ? & ? & Ho).
  exists b. rewrite Eg in Ht. rewrite He, Hm, Hw in Ho. split_and!; try done. by exists t.
Qed.

Lemma reserve_safe w len :
  wp_wf w -> 0 <= len <= SIZE_MAX -> safe (WPACKET_reserve_bytes len w) (reserved w len).
Proof.
  intros Hwf Hl. pose proof Hwf as (Hw & Hm & Hc & Hb & Hs). unfold WPACKET_reserve_bytes.
  wstep. wguard as [Hne%negb_true_iff Hlen%negb_true_iff]%andb_true_iff.
  wguard as Hroom%negb_true_iff. rewrite u64_sub_small in Hroom by lia.
  apply bool_decide_eq_false in Hne. apply Z.eqb_neq in Hlen. apply Z.ltb_ge in Hroom.
  assert (exists t, default [] (GETBUF w) = default [] (GETBUF w) ++ t) as Hsame
    by (exists []; by rewrite app_nil_r).
  apply safe_bind. destruct (wp_buf w) as [bm|] eqn:Eb.
  2: { cbn [wret safe]. wstep. apply reserved_intro; try done; try lia. by rewrite Eb. }
  unfold buffer_ok in Hb. rewrite Eb in Hb. destruct (wp_staticbuf w) eqn:Es; [done|].
  destruct Hb as (He & Hb & Hmx). rewrite u64_sub_small by lia.
  destruct (Z.ltb_spec (bm_length bm - wp_written w) len).
  2: { cbn [wret safe]. wstep. apply reserved_intro; try done; try lia.
       rewrite Eb. intros ? [= ->]. lia. }
  apply safe_bind. match goal with |- context [BUF_MEM_grow ?n _] => set (newlen := n) end.
  pose proof (newlen_enough len (bm_length bm) (wp_written w)
    ltac:(lia) ltac:(lia) ltac:(lia) ltac:(lia) ltac:(lia)) as [Hn1 Hn2].
  fold newlen in Hn1, Hn2.
  eapply safe_mono; [apply (BUF_MEM_grow_safe newlen bm w); lia|].
  intros bm' w' (Hbl & Hbm & Hw' & Hpre). destruct (Hpre Hn2) as [t Ht].
  cbn [wupd safe]. wstep. apply reserved_intro; try lia; try done;
    destruct Hw' as [-> | ->]; simpl; try done; try (by rewrite Eb).
  all: try (intros ? [= ->]; lia).
  all: try (unfold wp_wf, buffer_ok; simpl; rewrite Es; split_and!; lia || done).
  all: exists (if bm_max bm =? 0 then bm_data bm' else t); unfold GETBUF; simpl; rewrite Es, Eb;
    destruct (Z.eqb_spec (bm_max bm') 0); [lia|]; by destruct (bm_max bm =? 0).
Qed.

(** *** Appending bytes *)

(** The bytes written so far, in the order in which they lie in the buffer. *)
Definition written_bytes (w : WPACKET) : list Z :=
  let b := default [] (GETBUF w) in
  if wp_endfirst w then slice b (wp_maxsize w - wp_written w) (wp_written w)
  else take (Z.to_nat (wp_written w)) b.

(** [w'] is [w] with [d] written: after the other bytes, or before them when
    the packet is written from the end of its buffer. *)
Definition appended (w : WPACKET) (d : list Z) (w' : WPACKET) : Prop :=
  wp_wf w' /\ wp_written w' = wp_written w + zlen d /\ wp_subs w' = wp_subs w /\
  wp_endfirst w' = wp_endfirst w /\ wp_maxsize w' = wp_maxsize w /\
  WPACKET_is_null_buf w' = WPACKET_is_null_buf w /\
  (WPACKET_is_null_buf w = false ->
   written_bytes w' =
     if wp_endfirst w then d ++ written_bytes w else written_bytes w ++ d).

Lemma appended_nil w : wp_wf w -> appended w [] w.
Proof.
  intros. unfold appended. rewrite zlen_nil, Z.add_0_r. split_and!; try done.
  intros. destruct (wp_endfirst w); [done|]. by rewrite app_nil_r.
Qed.
Lemma appended_trans w d w1 d' w2 :
  appended w d w1 -> appended w1 d' w2 ->
  appended w (if wp_endfirst w then d' ++ d else d ++ d') w2.
Proof.
  intros (_ & E1 & E2 & E3 & E4 & E5 & E6) (? & F1 & F2 & F3 & F4 & F5 & F6). unfold appended.
  split_and!; try congruence.
  - rewrite F1, E1. destruct (wp_endfirst w); rewrite zlen_app; lia.
  - intros Hn. rewrite F6, E6, E3 by congruence. destruct (wp_endfirst w); by rewrite app_assoc.
Qed.

Definition allocated (w : WPACKET) (len : Z) (p : option Z) (w' : WPACKET) : Prop :=
  exists w1, reserved w len p w1 /\ w' = set_pos (wp_written w + len) (wp_written w + len) w1.

Lemma allocate_safe w len :
  wp_wf w -> 0 <= len <= SIZE_MAX -> safe (WPACKET_allocate_bytes len w) (allocated w len).
Proof.
  intros Hwf Hl. unfold WPACKET_allocate_bytes. apply safe_bind.
  eapply safe_mono; [by apply reserve_safe|]. intros p w1 Hr. wstep. exists w1. split; [done|].
  destruct Hr as (? & Hwf1 & ? & ? & Hw & _). destruct Hwf1 as (? & ? & Hc & _).
  destruct Hwf as (? & ? & _). unfold SIZE_MAX in *.
  f_equal; rewrite ?Hc, Hw; apply u64_small; lia.
Qed.

Lemma allocated_wf w len p w' :
  wp_wf w -> allocated w len p w' ->
  wp_wf w' /\ wp_written w' = wp_written w + len /\ wp_subs w' = wp_subs w /\
  wp_endfirst w' = wp_endfirst w /\ wp_maxsize w' = wp_maxsize w /\
  WPACKET_is_null_buf w' = WPACKET_is_null_buf w /\ 0 < len /\
  wp_written w + len <= wp_maxsize w.
Proof.
  intros Hwf (w1 & (? & Hwf1 & ? & ? & E1 & E2 & E3 & E4 & E5 & E6 & E7 & _) & ->).
  split_and!; try done.
  - destruct Hwf1 as (? & ? & ? & Hb & Hs). unfold wp_wf, buffer_ok in *; simpl in *.
    split_and!; try lia.
    + destruct (wp_staticbuf w1), (wp_buf w1) as [bm|]; try done.
      specialize (E7 bm eq_refl). destruct_and! Hb. split_and!; try done; lia.
    + eapply subs_ok_mono; [|done]. lia.
  - unfold WPACKET_is_null_buf. simpl. rewrite E5.
    destruct (wp_buf w1), (wp_buf w); try done; [by destruct E6 as [_ E6]; specialize (E6 eq_refl)|].
    by destruct E6 as [E6 _]; specialize (E6 eq_refl).
Qed.

Lemma GETBUF_set_pos c n w : GETBUF (set_pos c n w) = GETBUF w.
Proof. done. Qed.

(** Filling the bytes just allocated. *)
Lemma allocated_store w len o d w' :
  wp_wf w -> zlen d = len -> allocated w len (Some o) w' ->
  exists b, GETBUF w' = Some b /\ 0 <= o /\ o + len <= zlen b /\
    wp_store o d w' = Done tt (setbuf (splice b o d) w') /\
    appended w d (setbuf (splice b o d) w').
Proof.
  intros Hwf Hd Ha. pose proof (allocated_wf _ _ _ _ Hwf Ha) as (Hwf' & F1 & F2 & F3 & F4 & F5 & F6 & F7).
  destruct Ha as (w1 & (? & Hwf1 & ? & ? & E1 & E2 & E3 & E4 & E5 & E6 & E7 & Hp) & ->).
  destruct Hp as (b & Eg & Ho & Hb & Heq & t & Ht). exists b.
  rewrite GETBUF_set_pos. split_and!; try done; [by apply wp_store_eq; subst|].
  set (w' := set_pos _ _ w1) in *.
  assert (GETBUF w' = Some b) as Eg' by done.
  pose proof (setbuf_fields (splice b o d) w') as (_ & G1 & G2 & G3 & G4 & _ & G5).
  unfold appended. rewrite G1, G2, G3, G4, G5. subst len. split_and!; try congruence.
  { eapply setbuf_wf; [done|done|]. by apply splice_zlen. }
  intros Hn. unfold written_bytes. rewrite G1, G2, G4, F1, F3, F4.
  rewrite (GETBUF_setbuf w' b _ Eg'). cbn [from_option id].
  destruct Hwf as (Hw & _ & _ & Hbo & _). destruct (wp_endfirst w) eqn:Ee; subst o.
  - (* written from the end: the buffer is a fixed one *)
    unfold buffer_ok in Hbo. rewrite Ee in Hbo. unfold WPACKET_is_null_buf in Hn.
    assert (b = default [] (GETBUF w)) as Eb.
    { unfold GETBUF in *. rewrite E5 in Eg. destruct (wp_staticbuf w); [by simplify_eq|].
      destruct (wp_buf w); [by destruct Hbo|done]. }
    rewrite <- Eb. unfold splice, slice.
    replace (wp_maxsize w - (wp_written w + zlen d)) with (wp_maxsize w - wp_written w - zlen d) by lia.
    rewrite drop_app_length' by (rewrite length_take; unfold zlen in *; lia).
    rewrite take_app_ge by (unfold zlen; lia). do 2 f_equal; unfold zlen in *; [lia|].
    f_equal. lia.
  - rewrite take_splice_end by lia. f_equal. rewrite Ht.
    destruct (GETBUF w) as [bw|] eqn:Eg0; cbn [from_option id].
    + rewrite take_app_le; [done|].
      unfold buffer_ok, GETBUF in *. destruct (wp_staticbuf w), (wp_buf w) as [bm|]; try done; simplify_eq.
      * unfold zlen in *; lia.
      * destruct (bm_max bm =? 0); simplify_eq. unfold bm_length, zlen in *. lia.
    + assert (wp_written w = 0) as ->; [|done].
      unfold buffer_ok, GETBUF, WPACKET_is_null_buf in *.
      destruct (wp_staticbuf w), (wp_buf w) as [bm|]; try done.
      destruct (Z.eqb_spec (bm_max bm) 0); [|done]. lia.
Qed.

Lemma allocated_null w len d w' :
  wp_wf w -> zlen d = len -> allocated w len None w' -> appended w d w'.
Proof.
  intros Hwf Hd Ha. pose proof (allocated_wf _ _ _ _ Hwf Ha) as (? & ? & ? & ? & ? & Hn & ? & ?).
  unfold appended. split_and!; try congruence. intros Hnn.
  destruct Ha as (w1 & (_ & _ & _ & _ & _ & _ & _ & _ & _ & _ & _ & Hnull) & ->).
  unfold WPACKET_is_null_buf in *. simpl in *. congruence.
Qed.

(** Allocated bytes that are not filled yet hold what the buffer held. *)
Lemma allocated_hole w len p w' :
  wp_wf w -> allocated w len p w' -> exists hole, zlen hole = len /\ appended w hole w'.
Proof.
  intros Hwf Ha. pose proof (allocated_wf _ _ _ _ Hwf Ha) as (_ & _ & _ & _ & _ & _ & Hpos & _).
  destruct p as [o|].
  - assert (exists b, GETBUF w' = Some b /\ 0 <= o /\ o + len <= zlen b) as (b & Eg & Ho & Hb).
    { destruct Ha as (w1 & (_ & _ & _ & _ & _ & _ & _ & _ & _ & _ & _ & b & Hb) & ->).
      exists b. destruct_and! Hb. done. }
    assert (zlen (slice b o len) = len) as Hz by (apply slice_length; lia).
    exists (slice b o len). split; [done|].
    destruct (allocated_store w len o _ w' Hwf Hz Ha) as (b' & Eg' & _ & _ & _ & Happ).
    rewrite Eg in Eg'. injection Eg' as <-.
    rewrite splice_slice, (setbuf_same _ _ Eg) in Happ by lia. done.
  - exists (zeros len). rewrite zlen_zeros by lia. split; [done|].
    eapply allocated_null; [done| |done]. by rewrite zlen_zeros by lia.
Qed.

Lemma memcpy_safe w src :
  wp_wf w -> zlen src <= SIZE_MAX -> safe (WPACKET_memcpy src w) (fun _ w' => appended w src w').
Proof.
  intros Hwf Hs. unfold WPACKET_memcpy. pose proof (zlen_nonneg src).
  destruct (Z.eqb_spec (zlen src) 0) as [->%zlen_zero_nil|]; [by apply appended_nil|].
  apply safe_bind. eapply safe_mono; [by apply allocate_safe|]. intros [o|] w1 Ha; simpl.
  - destruct (allocated_store w _ o src w1 Hwf eq_refl Ha) as (b & _ & _ & _ & -> & Happ). done.
  - by eapply allocated_null.
Qed.

Lemma memset_safe w ch len :
  wp_wf w -> 0 <= len <= SIZE_MAX ->
  safe (WPACKET_memset ch len w) (fun _ w' => appended w (replicate (Z.to_nat len) (u8 ch)) w').
Proof.
  intros Hwf Hs. unfold WPACKET_memset.
  destruct (Z.eqb_spec len 0) as [->|]; [by apply appended_nil|].
  assert (zlen (replicate (Z.to_nat len) (u8 ch)) = len) as Hz
    by (unfold zlen; rewrite length_replicate; lia).
  apply safe_bind. eapply safe_mono; [by apply allocate_safe|]. intros [o|] w1 Ha; simpl.
  - destruct (allocated_store w _ o _ w1 Hwf Hz Ha) as (b & _ & _ & _ & -> & Happ). done.
  - by eapply allocated_null.
Qed.

Lemma put_bytes_safe w val size :
  wp_wf w -> 0 <= val -> 0 <= size ->
  safe (WPACKET_put_bytes__ val size w) (fun _ w' =>
    appended w (be_bytes (Z.to_nat size) val) w' /\
    (WPACKET_is_null_buf w = false -> val < 256 ^ size)).
Proof.
  intros Hwf Hv Hs. unfold WPACKET_put_bytes__. wguard as Hsz%Z.leb_le.
  assert (zlen (be_bytes (Z.to_nat size) val) = size) as Hz by (rewrite zlen_be_bytes; lia).
  apply safe_bind. eapply safe_mono; [apply allocate_safe; [done|unfold SIZE_MAX; lia]|].
  intros [o|] w1 Ha; simpl.
  - pose proof (allocated_wf _ _ _ _ Hwf Ha) as (_ & _ & _ & _ & _ & _ & Hpos & _).
    destruct (allocated_store w _ o _ w1 Hwf Hz Ha) as (b & Eg & Ho & Hb & _ & Happ).
    change (safe (put_value (Some o) val size w1) (fun _ w' =>
      appended w (be_bytes (Z.to_nat size) val) w' /\
      (WPACKET_is_null_buf w = false -> val < 256 ^ size))).
    rewrite (put_value_eq o val size w1 b) by done. cbv zeta.
    destruct (Z.ltb_spec val (256 ^ size)); simpl; auto.
  - split; [by eapply allocated_null|]. intros Hn.
    pose proof (allocated_wf _ _ _ _ Hwf Ha) as (_ & _ & _ & _ & _ & Hnb & _).
    destruct Ha as (w2 & (_ & _ & _ & _ & _ & _ & _ & _ & _ & _ & _ & Hnull) & ->).
    unfold WPACKET_is_null_buf in *. simpl in *. congruence.
Qed.

(** *** Closing a sub-packet *)

(** The bytes that announce a content of [n] bytes in [lenbytes] bytes;
    [None] when they are too few. *)
Definition len_prefix (quic : bool) (lenbytes n : Z) : option (list Z) :=
  if quic then
    if ossl_quic_vlint_encode_len n <=? lenbytes then Some (ossl_quic_vlint_encode_n n lenbytes)
    else None
  else if n <? 256 ^ lenbytes then Some (be_bytes (Z.to_nat lenbytes) n) else None.

(** What the chain says of one of its members. *)
Definition sub_ok (w : WPACKET) (s : WPACKET_SUB) : Prop :=
  0 <= sub_lenbytes s /\ 0 <= sub_start s /\ sub_pwritten s <= wp_written w /\
  sub_packet_len s = (if sub_lenbytes s =? 0 then 0 else sub_start s) /\
  (0 < sub_lenbytes s -> wp_endfirst w = false) /\
  (has_flag s WPACKET_FLAGS_QUIC_VLINT = true -> exists tag, vlint_form (sub_lenbytes s) tag).

Lemma packlen_eq w s :
  wp_wf w -> sub_ok w s ->
  u64 (wp_written w - sub_pwritten s) = wp_written w - sub_pwritten s.
Proof.
  intros (? & ? & _) (? & ? & ? & _). unfold sub_start in *. apply u64_sub_small; lia.
Qed.

Definition abandons (w : WPACKET) (s : WPACKET_SUB) : bool :=
  (wp_written w - sub_pwritten s =? 0) && has_flag s WPACKET_FLAGS_ABANDON_ON_ZERO_LENGTH.
Definition refuses (w : WPACKET) (s : WPACKET_SUB) : bool :=
  (wp_written w - sub_pwritten s =? 0) && has_flag s WPACKET_FLAGS_NON_ZERO_LENGTH.
Definition closing (doclose : bool) (parents : list WPACKET_SUB) (w : WPACKET) : WPACKET :=
  if doclose then set_subs parents w else w.

(** Giving up an empty sub-packet takes its length bytes back. *)
Lemma abandon_pos w s :
  wp_wf w -> sub_ok w s -> wp_written w - sub_pwritten s = 0 ->
  (if u64 (wp_curr w - sub_lenbytes s) =? sub_packet_len s
   then set_pos (u64 (wp_curr w - sub_lenbytes s)) (u64 (wp_written w - sub_lenbytes s)) w else w) =
  set_pos (sub_start s) (sub_start s) w.
Proof.
  intros (Hw & Hm & Hc & _) (Hl & Hs & Hp & Hpl & _) Hz. unfold sub_start in *.
  rewrite Hc, u64_sub_small, Hpl by lia. destruct (Z.eqb_spec (sub_lenbytes s) 0) as [E|E].
  - rewrite E. destruct (Z.eqb_spec (wp_written w - 0) 0).
    + f_equal; lia.
    + replace (sub_pwritten s - 0) with (wp_written w) by lia.
      rewrite <- Hc at 1. by destruct w.
  - destruct (Z.eqb_spec (wp_written w - sub_lenbytes s) (sub_pwritten s - sub_lenbytes s)); [|lia].
    f_equal; lia.
Qed.

Definition close_forward (s : WPACKET_SUB) (parents : list WPACKET_SUB) (doclose : bool)
    (w : WPACKET) : outcome unit :=
  let n := wp_written w - sub_pwritten s in
  if refuses w s then Fail w
  else if abandons w s then
    if doclose then Done tt (set_subs parents (set_pos (sub_start s) (sub_start s) w)) else Fail w
  else if sub_lenbytes s =? 0 then Done tt (closing doclose parents w)
  else
    match GETBUF w with
    | None => Done tt (closing doclose parents w)
    | Some b =>
        match len_prefix (has_flag s WPACKET_FLAGS_QUIC_VLINT) (sub_lenbytes s) n with
        | Some d => Done tt (closing doclose parents (setbuf (splice b (sub_start s) d) w))
        | None =>
            Fail (if has_flag s WPACKET_FLAGS_QUIC_VLINT then w
                  else setbuf (splice b (sub_start s) (be_bytes (Z.to_nat (sub_lenbytes s)) n)) w)
        end
    end.

Lemma written_in_buffer w b :
  wp_wf w -> wp_endfirst w = false -> GETBUF w = Some b -> wp_written w <= zlen b.
Proof.
  intros (Hw & _ & _ & Hb & _) He Hg. unfold buffer_ok, GETBUF in *.
  destruct (wp_staticbuf w), (wp_buf w) as [bm|]; try done; simplify_eq; [lia|].
  destruct (bm_max bm =? 0); simplify_eq. unfold bm_length in Hb. lia.
Qed.

Lemma intern_close_forward w s parents doclose :
  wp_wf w -> wp_endfirst w = false -> sub_ok w s ->
  wpacket_intern_close s parents doclose w = close_forward s parents doclose w.
Proof.
  intros Hwf He Hs. unfold wpacket_intern_close, close_forward, closing.
  pose proof (packlen_eq w s Hwf Hs) as Hpk. pose proof (abandon_pos w s Hwf Hs) as Hab.
  destruct Hs as (Hl & Hst & Hp & Hpl & _ & Hq).
  unfold wbind at 1; cbn [wget]. rewrite Hpk. fold (refuses w s) (abandons w s).
  unfold wbind at 1, wguard at 1. destruct (refuses w s); cbn [negb wret wfail]; [done|].
  unfold abandons. set (n := wp_written w - sub_pwritten s) in *.
  destruct (Z.eqb_spec n 0) as [En|En]; destruct (has_flag s WPACKET_FLAGS_ABANDON_ON_ZERO_LENGTH);
    cbn [andb]; unfold wbind, wguard, wret, wfail, wupd.
  1: { destruct doclose; [|done]. rewrite He. cbn. rewrite <- Hab by done.
       by destruct (_ =? sub_packet_len s). }
  all: destruct (Z.eqb_spec (sub_lenbytes s) 0) as [E0|E0];
    [destruct (Z.ltb_spec 0 (sub_lenbytes s)); [lia|]; rewrite He; cbn; by destruct doclose|].
  all: destruct (Z.ltb_spec 0 (sub_lenbytes s)); [|lia].
  all: destruct (GETBUF w) as [b|] eqn:Eg; [|by destruct doclose].
  all: pose proof (written_in_buffer w b Hwf He Eg); unfold sub_start in *; rewrite Hpl; unfold len_prefix.
  all: destruct (has_flag s WPACKET_FLAGS_QUIC_VLINT); cbn [negb];
    [destruct (Hq eq_refl) as [tag Hf]; unfold put_quic_value, wbind, wguard, wret, wfail;
     destruct (Z.ltb_spec (sub_lenbytes s) (ossl_quic_vlint_encode_len n)),
       (Z.leb_spec (ossl_quic_vlint_encode_len n) (sub_lenbytes s)); try lia; cbn [negb]; [done|];
     rewrite (wp_store_eq _ _ w b) by (done || (erewrite ?encode_n_len by done; lia));
     by destruct doclose
    |rewrite (put_value_eq _ n _ w b) by (done || lia); cbv zeta;
     destruct (n <? 256 ^ sub_lenbytes s); by destruct doclose].
Qed.

(** *** DER lengths *)

(** The DER length octets of a content of [n] bytes. *)
Definition der_num (n : Z) : Z := num_len_bytes 8 n 1.
Definition der_length (n : Z) : list Z :=
  if n <=? 0x7f then [n] else Z.lor (der_num n) 0x80 :: be_bytes (Z.to_nat (der_num n)) n.

Lemma num_len_bytes_spec fuel n k :
  0 <= n < 256 ^ (Z.of_nat fuel + 1) -> 0 <= k ->
  k <= num_len_bytes fuel n k <= k + Z.of_nat fuel /\
  n < 256 ^ (num_len_bytes fuel n k - k + 1) /\
  (k < num_len_bytes fuel n k -> 256 ^ (num_len_bytes fuel n k - k) <= n).
Proof.
  revert n k. induction fuel as [|f IH]; intros n k Hn Hk; cbn [num_len_bytes].
  - rewrite Z.sub_diag. simpl in *. lia.
  - rewrite Z.shiftr_div_pow2 by lia. change (2 ^ 8) with 256.
    destruct (Z.ltb_spec 0 (n / 256)) as [Hp|Hp].
    + destruct (IH (n / 256) (k + 1)) as (H1 & H2 & H3).
      * split; [apply Z.div_pos; lia|]. apply Z.div_lt_upper_bound; [lia|].
        rewrite <- Z.pow_succ_r by lia. replace (Z.succ (Z.of_nat f + 1)) with (Z.of_nat (S f) + 1) by lia. lia.
      * lia.
      * set (r := num_len_bytes f (n / 256) (k + 1)) in *.
        replace (r - k + 1) with (Z.succ (r - (k + 1) + 1)) by lia.
        replace (r - k) with (Z.succ (r - (k + 1))) by lia.
        rewrite !Z.pow_succ_r by lia. split_and!; try lia.
        -- assert (n / 256 + 1 <= 256 ^ (r - (k + 1) + 1)) by lia. dlia.
        -- intros _. destruct (Z.eq_dec r (k + 1)) as [->|Hne].
           ++ rewrite Z.sub_diag. dlia.
           ++ specialize (H3 ltac:(lia)). dlia.
    + rewrite Z.sub_diag. simpl. split_and!; try lia. dlia.
Qed.

Lemma der_num_spec n :
  0 <= n <= SIZE_MAX ->
  1 <= der_num n <= 8 /\ n < 256 ^ der_num n /\ (1 < der_num n -> 256 ^ (der_num n - 1) <= n).
Proof.
  intros Hn. unfold SIZE_MAX in Hn. unfold der_num.
  destruct (num_len_bytes_spec 8 n 1) as (H1 & H2 & H3); [simpl; lia|lia|].
  set (r := num_len_bytes 8 n 1) in *.
  assert (r <> 9). { intros E. rewrite E in H3. specialize (H3 ltac:(lia)). simpl in H3. lia. }
  replace (r - 1 + 1) with r in H2 by lia. split_and!; try done; lia.
Qed.

(** In a packet written from the end, closing a sub-packet puts its DER length
    in front of it. *)
Definition der_header (w : WPACKET) (s : WPACKET_SUB) (parents : list WPACKET_SUB) : list Z :=
  if bool_decide (parents = []) || abandons w s then [] else der_length (wp_written w - sub_pwritten s).

Lemma endfirst_lenbytes w s : sub_ok w s -> wp_endfirst w = true -> sub_lenbytes s = 0.
Proof.
  intros (Hl & _ & _ & _ & He & _) Hef. destruct (Z.eq_dec (sub_lenbytes s) 0); [done|].
  by specialize (He ltac:(lia)); rewrite He in Hef.
Qed.

Lemma der_put w n :
  wp_wf w -> wp_endfirst w = true -> 0 <= n <= SIZE_MAX ->
  safe ((WPACKET_put_bytes__ n (der_num n);;
         if 0x7f <? n then WPACKET_put_bytes_u8 (Z.lor (der_num n) 0x80) else wret tt) w)
    (fun _ w' => appended w (der_length n) w').
Proof.
  intros Hwf He Hn. destruct (der_num_spec n Hn) as (Hd & Hlt & Hge).
  apply safe_bind. eapply safe_mono; [apply put_bytes_safe; [done|lia|lia]|].
  intros _ w1 [Happ _]. unfold der_length.
  destruct (Z.ltb_spec 0x7f n), (Z.leb_spec n 0x7f); try lia.
  - eapply safe_mono; [apply put_bytes_safe; [by apply Happ| |lia]|].
    + apply Z.lor_nonneg; lia.
    + intros _ w2 [Happ2 _]. pose proof (appended_trans _ _ _ _ _ Happ Happ2) as Ht.
      rewrite He in Ht. replace (_ :: be_bytes _ _) with
        (be_bytes (Z.to_nat 1) (Z.lor (der_num n) 0x80) ++ be_bytes (Z.to_nat (der_num n)) n); [done|].
      change (Z.to_nat 1) with 1%nat. unfold be_bytes at 1. cbn [le_bytes]. simpl. f_equal.
      apply Z.mod_small. change 0x80 with (Z.shiftl 1 7). rewrite lor_shiftl_add by lia. lia.
  - cbn [wret safe]. replace (der_num n) with 1 in Happ; [|].
    + change (be_bytes (Z.to_nat 1) n) with [n mod 256] in Happ. by rewrite Z.mod_small in Happ by lia.
    + destruct (Z.eq_dec (der_num n) 1) as [|Hne]; [done|]. specialize (Hge ltac:(lia)).
      assert (256 ^ 1 <= 256 ^ (der_num n - 1)) by (apply Z.pow_le_mono_r; lia). lia.
Qed.

Lemma intern_close_endfirst w s parents doclose :
  wp_wf w -> wp_endfirst w = true -> sub_ok w s ->
  safe (wpacket_intern_close s parents doclose w) (fun _ w' =>
    exists w1, appended w (der_header w s parents) w1 /\ w' = closing doclose parents w1 /\
      refuses w s = false).
Proof.
  intros Hwf He Hs. pose proof (endfirst_lenbytes w s Hs He) as Hl0.
  pose proof (packlen_eq w s Hwf Hs) as Hpk. pose proof (abandon_pos w s Hwf Hs) as Hab.
  assert (0 <= wp_written w - sub_pwritten s <= SIZE_MAX) as Hn.
  { destruct Hs as (? & ? & ? & _). destruct Hwf as (? & ? & _). unfold sub_start in *. lia. }
  unfold wpacket_intern_close, der_header. wstep. rewrite Hpk. fold (refuses w s) (abandons w s).
  wguard as Hr%negb_true_iff. destruct (abandons w s) eqn:Ea.
  - rewrite orb_true_r. do 2 apply safe_bind. apply safe_guard. intros ->.
    unfold abandons in Ea. apply andb_true_iff in Ea as [Ez Ef]. apply Z.eqb_eq in Ez.
    specialize (Hab Ez). assert (set_pos (sub_start s) (sub_start s) w = w) as Hid.
    { unfold sub_start. rewrite Hl0. destruct Hwf as (_ & _ & Hc & _).
      replace (sub_pwritten s - 0) with (wp_written w) by lia. rewrite <- Hc at 1. by destruct w. }
    rewrite Hid in Hab. rewrite Hl0 in *.
    apply safe_bind.
    assert (forall c : bool, exists w', (if c then wupd (set_pos (u64 (wp_curr w - 0)) (u64 (wp_written w - 0)))
       else wret tt) w = Done tt w' /\ w' = (if c then set_pos (u64 (wp_curr w - 0)) (u64 (wp_written w - 0)) w else w))
      as Hstep by (intros []; eexists; split; done).
    destruct (Hstep (u64 (wp_curr w - 0) =? sub_packet_len s)) as (w' & -> & ->). rewrite Hab.
    cbn [safe wret]. rewrite Ez, Ef, He. cbn. rewrite andb_false_r. apply safe_bind. cbn [wret safe wupd].
    exists w. split_and!; auto using appended_nil.
  - rewrite orb_false_r. apply safe_bind. cbn [wret safe]. rewrite Hl0, He. cbn [Z.ltb Z.compare andb].
    apply safe_bind. destruct (bool_decide (parents = [])); cbn [negb andb].
    + cbn [wret safe]. destruct doclose; exists w; split_and!; auto using appended_nil.
    + assert (negb (wp_written w - sub_pwritten s =? 0)
        || negb (has_flag s WPACKET_FLAGS_ABANDON_ON_ZERO_LENGTH) = true) as ->.
      { unfold abandons in Ea. by rewrite <- negb_andb, Ea. }
      eapply safe_mono; [by apply (der_put w _ Hwf He Hn)|]. intros [] w1 Happ.
      destruct doclose; exists w1; split_and!; done.
Qed.

(** *** The remaining operations *)

(** Every operation: no undefined behaviour, and the packet it returns is
    well formed with the sub-packets [subs]. *)
Definition keeps (subs : list WPACKET_SUB) (w w' : WPACKET) : Prop :=
  wp_wf w' /\ wp_subs w' = subs /\ wp_endfirst w' = wp_endfirst w /\
  WPACKET_is_null_buf w' = WPACKET_is_null_buf w.

Lemma subs_ok_sub w s ps :
  subs_ok (wp_endfirst w) (wp_written w) (s :: ps) ->
  sub_ok w s /\ subs_ok (wp_endfirst w) (sub_start s) ps.
Proof. intros (? & ? & ? & ? & ? & ? & ?). split; [|done]. by split_and!. Qed.

Lemma len_prefix_zlen quic lenbytes n d tag :
  0 <= lenbytes -> (quic = true -> vlint_form lenbytes tag) ->
  len_prefix quic lenbytes n = Some d -> zlen d = lenbytes.
Proof.
  intros Hl Hq. unfold len_prefix. destruct quic.
  - destruct (_ <=? lenbytes); [|done]. intros [= <-]. eapply encode_n_len. by apply Hq.
  - destruct (n <? 256 ^ lenbytes); [|done]. intros [= <-]. rewrite zlen_be_bytes. lia.
Qed.

Lemma intern_close_safe w s ps doclose :
  wp_wf w -> subs_ok (wp_endfirst w) (wp_written w) (s :: ps) ->
  safe (wpacket_intern_close s ps doclose w) (fun _ w' =>
    keeps (if doclose then ps else wp_subs w) w w' /\ (doclose = false -> wp_written w <= wp_written w')).
Proof.
  intros Hwf Hsub. destruct (subs_ok_sub _ _ _ Hsub) as [Hs Hps].
  destruct (wp_endfirst w) eqn:He.
  - eapply safe_mono; [by apply intern_close_endfirst|].
    intros [] w' (w1 & (Hwf1 & Hw1 & Hs1 & He1 & _ & Hn1 & _) & -> & _).
    unfold keeps, closing. pose proof (zlen_nonneg (der_header w s ps)).
    destruct doclose; simpl; split_and!; try done; try congruence; try lia.
    apply wf_set_subs; [done|]. rewrite He1, He. eapply subs_ok_mono; [|done].
    destruct Hs as (? & ? & ? & _). unfold sub_start in *. lia.
  - rewrite intern_close_forward by done. pose proof Hs as (Hl & Hst & Hp & Hpl & _ & Hq).
    unfold close_forward, closing, sub_start in *.
    assert (subs_ok false (wp_written w) ps) as Hps' by (eapply subs_ok_mono; [|done]; lia).
    assert (keeps (if doclose then ps else wp_subs w) w (if doclose then set_subs ps w else w)) as Hkeep.
    { unfold keeps. destruct doclose; split_and!; try done. apply wf_set_subs; [done|]. by rewrite He. }
    destruct (refuses w s); [done|]. destruct (abandons w s) eqn:Ea.
    { destruct doclose; [|done]. cbn [safe]. split; [|done]. unfold keeps. split_and!; try done.
      destruct Hwf as (? & ? & ? & Hb & _). unfold wp_wf, buffer_ok in *; simpl.
      rewrite He in *. split_and!; try lia; try done.
      destruct (wp_staticbuf w), (wp_buf w); try done. destruct_and! Hb; split_and!; try done; lia. }
    destruct (Z.eqb_spec (sub_lenbytes s) 0) as [E0|E0].
    { cbn [safe]. split; [done|]. intros ->. lia. }
    destruct (GETBUF w) as [b|] eqn:Eg; [|cbn [safe]; split; [done|]; intros ->; lia].
    destruct (len_prefix _ _ _) as [d|] eqn:Ed; [|done]. cbn [safe].
    assert (zlen d = sub_lenbytes s) as Hd.
    { destruct (has_flag s WPACKET_FLAGS_QUIC_VLINT) eqn:Ef.
      - destruct (Hq eq_refl) as [tag Ht]. by eapply (len_prefix_zlen true _ _ _ tag).
      - by eapply (len_prefix_zlen false _ _ _ 0). }
    pose proof (written_in_buffer w b Hwf He Eg). pose proof (zlen_nonneg d).
    set (w1 := setbuf _ w).
    assert (wp_wf w1) as Hwf1 by (eapply setbuf_wf; [done|done|]; apply splice_zlen; lia).
    pose proof (setbuf_fields (splice b (sub_pwritten s - sub_lenbytes s) d) w)
      as (_ & F1 & F2 & F3 & F4 & _ & F5). fold w1 in F1, F2, F3, F4, F5.
    unfold keeps. destruct doclose; simpl; split_and!; try done; try congruence; try lia.
    apply wf_set_subs; [done|]. by rewrite F4, F1, He.
Qed.

Lemma fill_lengths_safe subs w :
  wp_wf w -> subs_ok (wp_endfirst w) (wp_written w) subs ->
  safe (fill_lengths_loop subs w) (fun _ w' => keeps (wp_subs w) w w').
Proof.
  revert w. induction subs as [|s ps IH]; intros w Hwf Hsub; cbn [fill_lengths_loop].
  - done.
  - apply safe_bind. eapply safe_mono; [by apply intern_close_safe|].
    intros [] w1 [(Hwf1 & Hs1 & He1 & Hn1) Hle]. specialize (Hle eq_refl).
    destruct (subs_ok_sub _ _ _ Hsub) as [(_ & ? & ? & _) Hps]. unfold sub_start in *.
    eapply safe_mono; [apply IH; [done|]|].
    + rewrite He1. eapply subs_ok_mono; [|done]. destruct Hsub as (? & _). lia.
    + intros [] w2 (? & ? & ? & ?). unfold keeps. split_and!; congruence.
Qed.

(** Reserving space only asks whether there is a sub-packet at all. *)
Lemma allocate_frame len subs w :
  subs <> [] -> wp_subs w <> [] ->
  WPACKET_allocate_bytes len (set_subs subs w) =
    match WPACKET_allocate_bytes len w with
    | Done p w' => Done p (set_subs subs w')
    | Fail w' => Fail (set_subs subs w')
    | Crash => Crash
    end.
Proof.
  intros Hs Hw. unfold WPACKET_allocate_bytes, WPACKET_reserve_bytes, wbind, wget, wguard, wupd, wret, wfail.
  cbn [wp_subs set_subs]. rewrite !bool_decide_eq_false_2 by done. cbn.
  destruct (len =? 0); [done|]. destruct (_ <? len); [done|]. cbn.
  destruct (wp_buf w) as [bm|] eqn:Eb; [|done]. destruct (_ <? len); [|done].
  match goal with |- context [BUF_MEM_grow ?n bm] => set (newlen := n) end.
  unfold BUF_MEM_grow, wbind, walloc, wret, wfail. cbn.
  destruct (newlen <=? _); [done|]. destruct (newlen <=? _); [done|].
  destruct (_ <? newlen); [done|]. by destruct (malloc_ok _ _).
Qed.

Lemma start_sub_safe w lenbytes :
  wp_wf w -> 0 <= lenbytes <= SIZE_MAX ->
  safe (WPACKET_start_sub_packet_len__ lenbytes w) (fun _ w' => exists w1,
    w' = set_subs (mkWPACKET_SUB (if lenbytes =? 0 then 0 else wp_written w) lenbytes
                     (wp_written w + lenbytes) 0 :: wp_subs w) w1 /\
    wp_wf w' /\ wp_endfirst w' = wp_endfirst w /\ wp_subs w <> [] /\
    (if lenbytes =? 0 then w1 = tick w else exists p, allocated (tick w) lenbytes p w1)).
Proof.
  intros Hwf Hl. pose proof Hwf as (Hw & Hm & Hc & Hb & Hs).
  unfold WPACKET_start_sub_packet_len__. wstep.
  wguard as Hne%negb_true_iff%bool_decide_eq_false. wguard as Hef%negb_true_iff.
  apply safe_bind. unfold walloc. cbn [safe]. wguard as _.
  destruct (Z.eqb_spec lenbytes 0) as [->|Hl0].
  - cbn [wupd safe]. exists (tick w). rewrite Z.add_0_r, u64_small by (unfold SIZE_MAX in *; lia).
    split_and!; try done.
    apply (wf_set_subs (tick w)); [done|]. cbn. unfold sub_start; simpl. rewrite Z.sub_0_r.
    split_and!; try lia; try done.
  - wstep. apply safe_bind. rewrite allocate_frame by done.
    pose proof (allocate_safe (tick w) lenbytes Hwf Hl) as Ha.
    destruct (WPACKET_allocate_bytes lenbytes (tick w)) as [p w1|w1|] eqn:Ea; [|done|done].
    cbn [safe] in *. exists w1.
    destruct (allocated_wf _ _ _ _ Hwf Ha) as (Hwf1 & F1 & F2 & F3 & F4 & F5 & F6 & F7). simpl in F1, F3, F7.
    rewrite u64_small by (unfold SIZE_MAX in *; lia).
    assert (wp_endfirst w = false) as He by (destruct (Z.ltb_spec 0 lenbytes); [done|lia]).
    split_and!; try done; [|by exists p].
    apply wf_set_subs; [done|]. rewrite F3, F1. cbn. unfold sub_start; simpl.
    replace (wp_written w + lenbytes - lenbytes) with (wp_written w) by lia.
    destruct (Z.eqb_spec lenbytes 0); [lia|]. rewrite He in *. split_and!; try lia; try done.
Qed.

Lemma close_safe w :
  wp_wf w -> safe (WPACKET_close w) (fun _ w' => keeps (tail (wp_subs w)) w w').
Proof.
  intros Hwf. unfold WPACKET_close. wstep. destruct (wp_subs w) as [|s [|s' ps]] eqn:Es; [done|done|].
  eapply safe_mono; [apply intern_close_safe; [done|]|by intros [] w' [? _]].
  rewrite <- Es. apply Hwf.
Qed.
Lemma finish_safe w :
  wp_wf w -> safe (WPACKET_finish w) (fun _ w' => keeps [] w w').
Proof.
  intros Hwf. unfold WPACKET_finish. wstep. destruct (wp_subs w) as [|s [|s' ps]] eqn:Es; [done| |done].
  apply safe_bind. eapply safe_mono; [apply intern_close_safe; [done|rewrite <- Es; apply Hwf]|].
  intros [] w' [(? & ? & ? & ?) _]. cbn [wupd safe]. unfold keeps. split_and!; try done.
  by apply wf_set_subs.
Qed.
End Safety.
