(* ===== verification/WPacketSpec.v ===== *)
(** * What a writable packet means

    The abstract specification of [WPACKET]: a stack of open sub-packets, each
    with the bytes written into it.  Opening pushes a frame, writing extends the
    top frame, closing puts the length prefix in front of the frame's bytes and
    moves them into the parent.  The theorems show that the operations of
    [crypto/packet.c] implement this stack without undefined behaviour, and
    that what they write is read back by the packet readers. *)
From S2P Require Import Prelude.
From S2P Require Import ByteOrder.
From S2P Require Import Packet.
From S2P Require Import QuicVlint.
From S2P Require Import WPacket.

Record frame := mkframe { fr_lenbytes : Z; fr_flags : Z; fr_data : list Z }.

Definition fr_flag (f : frame) (flag : Z) : bool := negb (Z.land (fr_flags f) flag =? 0).

(** Writing into the innermost frame. *)
Definition fr_write (d : list Z) (fs : list frame) : list frame :=
  match fs with
  | [] => []
  | f :: ps => mkframe (fr_lenbytes f) (fr_flags f) (fr_data f ++ d) :: ps
  end.

(** What a closed frame contributes to its parent: [None] when it may not be
    closed. *)
Definition fr_seal (f : frame) : option (list Z) :=
  if (zlen (fr_data f) =? 0) && fr_flag f WPACKET_FLAGS_NON_ZERO_LENGTH then None
  else if (zlen (fr_data f) =? 0) && fr_flag f WPACKET_FLAGS_ABANDON_ON_ZERO_LENGTH then Some []
  else if fr_lenbytes f =? 0 then Some (fr_data f)
  else
    d ← len_prefix (fr_flag f WPACKET_FLAGS_QUIC_VLINT) (fr_lenbytes f) (zlen (fr_data f));
    Some (d ++ fr_data f).

(** [bytes] is the contents of the frames, with the length bytes of the open
    ones still undetermined. *)
Fixpoint frames_rep (bytes : list Z) (subs : list WPACKET_SUB) (fs : list frame) : Prop :=
  match subs, fs with
  | [], [] => bytes = []
  | s :: ss, f :: ps =>
      exists pre hole,
        bytes = pre ++ hole ++ fr_data f /\ zlen hole = fr_lenbytes f /\
        sub_lenbytes s = fr_lenbytes f /\ sub_flags s = fr_flags f /\
        sub_pwritten s = zlen pre + zlen hole /\ frames_rep pre ss ps
  | _, _ => False
  end.

(** A packet that is written front to back into a buffer. *)
Definition wp_rep (w : WPACKET) (fs : list frame) : Prop :=
  wp_wf w /\ wp_endfirst w = false /\ WPACKET_is_null_buf w = false /\
  frames_rep (written_bytes w) (wp_subs w) fs.

Lemma frames_rep_write d bytes subs fs :
  fs <> [] -> frames_rep bytes subs fs -> frames_rep (bytes ++ d) subs (fr_write d fs).
Proof.
  destruct subs as [|s ss], fs as [|f ps]; try done. intros _ (pre & hole & -> & ? & ? & ? & ? & ?).
  exists pre, hole. simpl. rewrite <- !app_assoc. done.
Qed.

Lemma frames_rep_nonempty bytes subs fs : frames_rep bytes subs fs -> subs <> [] -> fs <> [].
Proof. by destruct subs, fs. Qed.

Lemma zlen_written_bytes w :
  wp_wf w -> wp_endfirst w = false -> WPACKET_is_null_buf w = false ->
  zlen (written_bytes w) = wp_written w.
Proof.
  intros Hwf He Hn. unfold written_bytes. rewrite He.
  destruct (GETBUF w) as [b|] eqn:Eg; simpl.
  - pose proof (written_in_buffer w b Hwf He Eg). destruct Hwf as (? & _).
    unfold zlen in *. rewrite length_take. lia.
  - destruct Hwf as (Hw & _ & _ & Hb & _). unfold buffer_ok, GETBUF, WPACKET_is_null_buf in *.
    destruct (wp_staticbuf w), (wp_buf w) as [bm|]; try done.
    destruct (Z.eqb_spec (bm_max bm) 0); [|done]. rewrite take_nil. unfold zlen; simpl. lia.
Qed.

(** Writing [d] through any operation that appends. *)
Lemma appended_rep w d w' fs :
  wp_rep w fs -> fs <> [] -> appended w d w' -> wp_rep w' (fr_write d fs).
Proof.
  intros (Hwf & He & Hn & Hr) Hne (Hwf' & _ & Es & Ee & _ & En & Ew).
  unfold wp_rep. rewrite Ee, En, Es, Ew, He by done. split_and!; try done. by apply frames_rep_write.
Qed.

Section Refine.
Context `{Allocator}.

Lemma memcpy_rep w fs src :
  wp_rep w fs -> fs <> [] -> zlen src <= SIZE_MAX ->
  safe (WPACKET_memcpy src w) (fun _ w' => wp_rep w' (fr_write src fs)).
Proof.
  intros Hr Hne Hs. eapply safe_mono; [apply memcpy_safe; [apply Hr|done]|].
  intros [] w' Ha. by eapply appended_rep.
Qed.

Lemma put_bytes_rep w fs val size :
  wp_rep w fs -> fs <> [] -> 0 <= val -> 0 <= size ->
  safe (WPACKET_put_bytes__ val size w) (fun _ w' =>
    wp_rep w' (fr_write (be_bytes (Z.to_nat size) val) fs) /\ val < 256 ^ size).
Proof.
  intros Hr Hne Hv Hs. eapply safe_mono; [apply put_bytes_safe; [apply Hr|done|done]|].
  intros [] w' [Ha Hlt]. split; [by eapply appended_rep|]. apply Hlt. apply Hr.
Qed.

Lemma start_sub_rep w fs lenbytes :
  wp_rep w fs -> 0 <= lenbytes <= SIZE_MAX ->
  safe (WPACKET_start_sub_packet_len__ lenbytes w) (fun _ w' =>
    wp_rep w' (mkframe lenbytes 0 [] :: fs)).
Proof.
  intros (Hwf & He & Hn & Hr) Hl. eapply safe_mono; [by apply start_sub_safe|].
  intros [] w' (w1 & -> & Hwf' & He' & Hne & Hw1). unfold wp_rep.
  pose proof (zlen_written_bytes w Hwf He Hn) as Hz. simpl in He'.
  destruct (Z.eqb_spec lenbytes 0) as [->|Hl0].
  - subst w1. split_and!; try done. exists (written_bytes w), []. simpl.
    change (written_bytes (set_subs _ (tick w))) with (written_bytes w).
    rewrite app_nil_r, zlen_nil. split_and!; try done. lia.
  - destruct Hw1 as [p Ha].
    destruct (allocated_hole (tick w) lenbytes p w1 Hwf Ha) as (hole & Hh & Happ).
    destruct Happ as (_ & _ & _ & _ & _ & En & Ew). simpl in En. specialize (Ew Hn). simpl in Ew.
    rewrite He in Ew. 
    split; [done|]. split; [simpl; congruence|].
    split; [change (WPACKET_is_null_buf w1 = false); by rewrite En|].
    change (written_bytes (set_subs _ w1)) with (written_bytes w1). rewrite Ew.
    exists (written_bytes w), hole. simpl. rewrite app_nil_r. split_and!; try done.
    change (written_bytes (tick w)) with (written_bytes w). lia.
Qed.

(** Closing seals the innermost frame: its bytes, with their length in front, are what
    follows the bytes [pre] of the other frames. *)
Lemma intern_close_rep w s ss f fs :
  wp_rep w (f :: fs) -> wp_subs w = s :: ss ->
  exists pre, frames_rep pre ss fs /\
  match fr_seal f with
  | Some d => exists w', wpacket_intern_close s ss true w = Done tt w' /\ wp_wf w' /\ wp_endfirst w' = false /\
      WPACKET_is_null_buf w' = false /\ wp_subs w' = ss /\ written_bytes w' = pre ++ d
  | None => exists w', wpacket_intern_close s ss true w = Fail w'
  end.
Proof.
  intros (Hwf & He & Hn & Hr) Es. pose proof (zlen_written_bytes w Hwf He Hn) as Hz. rewrite Es in Hr.
  assert (subs_ok (wp_endfirst w) (wp_written w) (s :: ss)) as Hsub by (rewrite <- Es; apply Hwf).
  pose proof (intern_close_safe w s ss true Hwf Hsub) as Hsafe.
  destruct (subs_ok_sub _ _ _ Hsub) as [Hso _].
  rewrite intern_close_forward in * by done.
  cbn [frames_rep] in Hr. destruct Hr as (pre & hole & Hb & Hh & Hl & Hf & Hp & Hr'). exists pre. split; [done|].
  assert (wp_written w - sub_pwritten s = zlen (fr_data f)) as Hlen.
  { rewrite <- Hz, Hb, Hp. autorewrite with zlen. lia. }
  assert (sub_start s = zlen pre) as Hst by (unfold sub_start; lia).
  assert (forall fl, has_flag s fl = fr_flag f fl) as Hfl by (intros; unfold has_flag, fr_flag; by rewrite Hf).
  unfold close_forward, closing, refuses, abandons, fr_seal in *.
  rewrite Hlen, !Hfl, Hst, Hl in *.
  destruct (_ && fr_flag f WPACKET_FLAGS_NON_ZERO_LENGTH); [by eexists|].
  destruct (_ && fr_flag f WPACKET_FLAGS_ABANDON_ON_ZERO_LENGTH) eqn:Ea.
  - (* the length bytes are given back *)
    cbn [safe] in Hsafe. destruct Hsafe as [(Hwf' & _) _]. eexists; split; [done|]. split_and!; try done.
    rewrite app_nil_r. unfold written_bytes in *. simpl. rewrite He in *. change (GETBUF (set_subs _ _)) with (GETBUF w).
    rewrite zlen_to_nat. transitivity (take (length pre) (take (Z.to_nat (wp_written w)) (default [] (GETBUF w)))).
    + rewrite take_take. f_equal. rewrite <- Hz, Hb. autorewrite with zlen. unfold zlen. lia.
    + by rewrite Hb, take_app_length.
  - destruct (Z.eqb_spec (fr_lenbytes f) 0) as [E0|E0].
    + cbn [safe] in Hsafe. destruct Hsafe as [(Hwf' & _) _]. eexists; split; [done|]. split_and!; try done.
      change (written_bytes (set_subs _ w)) with (written_bytes w). rewrite Hb. by rewrite (zlen_zero_nil hole) by lia.
    + destruct (GETBUF w) as [b|] eqn:Eg.
      2: { exfalso. unfold written_bytes in Hb. rewrite Eg, He in Hb. simpl in Hb. rewrite take_nil in Hb.
           apply (f_equal zlen) in Hb. autorewrite with zlen in Hb.
           pose proof (zlen_nonneg pre). pose proof (zlen_nonneg (fr_data f)). pose proof (zlen_nonneg hole). lia. }
      destruct (len_prefix _ _ _) as [d|] eqn:Ed; [|simpl; by eexists]. simpl.
      cbn [safe] in Hsafe. destruct Hsafe as [(Hwf' & _ & He' & Hn') _]. eexists; split; [done|].
      split; [done|]. split; [by rewrite He'|]. split; [by rewrite Hn'|]. split; [done|].
      assert (zlen d = zlen hole) as Hd.
      { rewrite Hh. destruct (fr_flag f WPACKET_FLAGS_QUIC_VLINT) eqn:Eq.
        - destruct Hso as (? & _ & _ & _ & _ & Hq). rewrite Hfl in Hq. destruct (Hq Eq) as [tag Ht].
          rewrite Hl in Ht. eapply (len_prefix_zlen true _ _ _ tag); [lia|done|done].
        - destruct Hso as (? & _). eapply (len_prefix_zlen false _ _ _ 0); [lia|done|done]. }
      pose proof (setbuf_fields (splice b (zlen pre) d) w) as (_ & F1 & _ & _ & F4 & _).
      set (w1 := setbuf (splice b (zlen pre) d) w) in *.
      change (written_bytes (set_subs ss w1)) with (written_bytes w1).
      unfold written_bytes in *. rewrite F1, F4, He in *. unfold w1. rewrite (GETBUF_setbuf w b _ Eg).
      rewrite Eg in Hb. cbn [from_option id] in *. by apply (take_splice_mid b pre hole).
Qed.
(** The sealed frame becomes part of its parent. *)
Lemma close_rep w f g fs :
  wp_rep w (f :: g :: fs) ->
  match fr_seal f with
  | Some d => exists w', WPACKET_close w = Done tt w' /\ wp_rep w' (fr_write d (g :: fs))
  | None => exists w', WPACKET_close w = Fail w'
  end.
Proof.
  intros Hrep. pose proof Hrep as (_ & _ & _ & Hr). unfold WPACKET_close, wbind, wget.
  destruct (wp_subs w) as [|s [|s' ss]] eqn:Es; [done|by destruct Hr as (? & ? & _ & _ & _ & _ & _ & [])|].
  destruct (intern_close_rep w s (s' :: ss) f (g :: fs) Hrep Es) as (pre & Hpre & Hc). destruct (fr_seal f) as [d|]; [|done].
  destruct Hc as (w' & Ew & Hwf & He & Hn & Es' & Hb). exists w'. split; [done|]. split_and!; [done..|].
  rewrite Hb, Es'. by apply frames_rep_write.
Qed.
(** The outermost frame is what the finished packet holds. *)
Lemma finish_rep w f :
  wp_rep w [f] ->
  match fr_seal f with
  | Some d => exists w', WPACKET_finish w = Done tt w' /\ wp_wf w' /\ wp_subs w' = [] /\ written_bytes w' = d
  | None => exists w', WPACKET_finish w = Fail w'
  end.
Proof.
  intros Hrep. pose proof Hrep as (_ & _ & _ & Hr). unfold WPACKET_finish, wbind, wget.
  destruct (wp_subs w) as [|s [|s' ss]] eqn:Es; [done| |by destruct Hr as (? & ? & _ & _ & _ & _ & _ & [])].
  destruct (intern_close_rep w s [] f [] Hrep Es) as (pre & Hpre & Hc). destruct (fr_seal f) as [d|].
  - destruct Hc as (w' & -> & Hwf & He & Hn & Es' & Hb). cbn in Hpre. subst pre. exists (set_subs [] w'). split; [done|].
    split; [by apply wf_set_subs|]. by split.
  - destruct Hc as (w' & ->). by exists w'.
Qed.
End Refine.

(** ** Sequences of operations *)

(** The calls a user of the interface makes, with their arguments. *)
Inductive wp_op :=
  | OpAllocate (len : Z)
  | OpReserve (len : Z)
  | OpSubReserve (len lenbytes : Z)
  | OpMemcpy (src : list Z)
  | OpMemset (ch len : Z)
  | OpPutBytes (val size : Z)
  | OpStartSub (lenbytes : Z)
  | OpSetFlags (flags : Z)
  | OpStartQuic (max_len : Z)
  | OpFillLengths
  | OpClose
  | OpSubMemcpy (src : list Z) (lenbytes : Z)
  | OpSubAllocate (len lenbytes : Z)
  | OpQuicSubAllocate (len : Z)
  | OpQuicWriteVlint (v : Z)
  | OpSetMaxSize (maxsize : Z)
  | OpGetTotalWritten
  | OpGetLength
  | OpFinish
  | OpCleanup.

Definition size_ok (n : Z) : Prop := 0 <= n <= SIZE_MAX.

(** The ranges of the C types; the QUIC flag is set by the QUIC calls only. *)
Definition op_ok (o : wp_op) : Prop :=
  match o with
  | OpAllocate len | OpReserve len | OpMemset _ len | OpStartQuic len | OpQuicSubAllocate len | OpSetMaxSize len => size_ok len
  | OpMemcpy src => zlen src <= SIZE_MAX
  | OpPutBytes val size => 0 <= val /\ size_ok size
  | OpStartSub lenbytes => size_ok lenbytes
  | OpSubMemcpy src lenbytes => zlen src <= SIZE_MAX /\ size_ok lenbytes
  | OpSubAllocate len lenbytes | OpSubReserve len lenbytes => size_ok len /\ size_ok lenbytes
  | OpSetFlags flags => Z.land flags WPACKET_FLAGS_QUIC_VLINT = 0
  | OpQuicWriteVlint v => 0 <= v
  | OpFillLengths | OpClose | OpGetTotalWritten | OpGetLength | OpFinish | OpCleanup => True
  end.

(** What two calls ask of the packet they are made on: a maximum size within the fixed
    buffer, of [cap] bytes, and a buffer to store a QUIC integer in. *)
Definition op_fits (cap : option Z) (null : bool) (o : wp_op) : Prop :=
  match o with
  | OpSetMaxSize m => match cap with Some c => m <= c | None => True end
  | OpQuicWriteVlint _ => null = false
  | _ => True
  end.
Definition capacity (w : WPACKET) : option Z := zlen <$> wp_staticbuf w.

Section Sequences.
Context `{Allocator}.

Definition run_op (o : wp_op) : W unit :=
  match o with
  | OpAllocate len => WPACKET_allocate_bytes len;; wret tt
  | OpReserve len => WPACKET_reserve_bytes len;; wret tt
  | OpSubReserve len lenbytes => WPACKET_sub_reserve_bytes__ len lenbytes;; wret tt
  | OpMemcpy src => WPACKET_memcpy src
  | OpMemset ch len => WPACKET_memset ch len
  | OpPutBytes val size => WPACKET_put_bytes__ val size
  | OpStartSub lenbytes => WPACKET_start_sub_packet_len__ lenbytes
  | OpSetFlags flags => WPACKET_set_flags flags
  | OpStartQuic max_len => WPACKET_start_quic_sub_packet_bound max_len
  | OpFillLengths => WPACKET_fill_lengths
  | OpClose => WPACKET_close
  | OpSubMemcpy src lenbytes => WPACKET_sub_memcpy__ src lenbytes
  | OpSubAllocate len lenbytes => WPACKET_sub_allocate_bytes__ len lenbytes;; wret tt
  | OpQuicSubAllocate len => WPACKET_quic_sub_allocate_bytes len;; wret tt
  | OpQuicWriteVlint v => WPACKET_quic_write_vlint v
  | OpSetMaxSize maxsize => WPACKET_set_max_size maxsize
  | OpGetTotalWritten => WPACKET_get_total_written;; wret tt
  | OpGetLength => WPACKET_get_length;; wret tt
  | OpFinish => WPACKET_finish
  | OpCleanup => WPACKET_cleanup
  end.

(** A caller stops at the first failure. *)
Fixpoint run_ops (os : list wp_op) : W unit :=
  match os with [] => wret tt | o :: os' => run_op o;; run_ops os' end.

Lemma start_quic_safe w max_len :
  wp_wf w -> size_ok max_len ->
  safe (WPACKET_start_quic_sub_packet_bound max_len w) (fun _ w' => wp_wf w').
Proof.
  intros Hwf Hm. unfold WPACKET_start_quic_sub_packet_bound.
  set (n := ossl_quic_vlint_encode_len max_len). wguard as Hn%negb_true_iff%Z.eqb_neq.
  assert (exists tag, vlint_form n tag) as [tag Hf].
  { unfold n, ossl_quic_vlint_encode_len, vlint_form in *.
    destruct (_ <? _); [exists 0; tauto|]. destruct (_ <? _); [exists 1; tauto|].
    destruct (_ <? _); [exists 2; tauto|]. destruct (_ <=? _); [exists 3; tauto|done]. }
  apply safe_bind. eapply safe_mono; [apply start_sub_safe; [done|]|].
  { unfold SIZE_MAX. vlint_cases Hf; lia. }
  intros [] w' (w1 & -> & Hwf' & He' & _ & _). cbn [wupd safe]. unfold set_head_sub. simpl.
  destruct Hwf' as (? & ? & ? & ? & Hs). unfold wp_wf. simpl in *.
  do 4 (split; [done|]). destruct Hs as (? & ? & ? & ? & ? & ? & ?).
  do 5 (split; [done|]). split; [|done]. intros _. simpl. by exists tag.
Qed.

Lemma quic_write_vlint_safe w v :
  wp_wf w -> 0 <= v -> WPACKET_is_null_buf w = false ->
  safe (WPACKET_quic_write_vlint v w) (fun _ w' => appended w (ossl_quic_vlint_encode v) w').
Proof.
  intros Hwf Hv Hn. unfold WPACKET_quic_write_vlint. wguard as He%negb_true_iff%Z.eqb_neq.
  assert (v <= OSSL_QUIC_VLINT_MAX) as Hmax by (unfold ossl_quic_vlint_encode_len in He; repeat case_match; unfold OSSL_QUIC_VLINT_2B_MIN, OSSL_QUIC_VLINT_4B_MIN, OSSL_QUIC_VLINT_8B_MIN, OSSL_QUIC_VLINT_MAX in *; lia).
  destruct (encode_len_form v ltac:(lia)) as (tag & Hf & _).
  assert (zlen (ossl_quic_vlint_encode v) = ossl_quic_vlint_encode_len v) as Hz by (eapply encode_n_len; exact Hf).
  apply safe_bind. eapply safe_mono; [apply allocate_safe; [done|unfold SIZE_MAX; vlint_cases Hf; lia]|].
  intros [o|] w1 Ha.
  - destruct (allocated_store w _ o _ w1 Hwf Hz Ha) as (b & _ & _ & _ & -> & Happ). done.
  - pose proof (allocated_wf _ _ _ _ Hwf Ha) as (_ & _ & _ & _ & _ & Hnb & _).
    destruct Ha as (w2 & (_ & _ & _ & _ & _ & _ & _ & _ & _ & _ & _ & Hnull) & ->).
    unfold WPACKET_is_null_buf in *. simpl in *. congruence.
Qed.

Lemma set_max_size_safe w m :
  wp_wf w -> size_ok m -> match capacity w with Some c => m <= c | None => True end ->
  safe (WPACKET_set_max_size m w) (fun _ w' => wp_wf w').
Proof.
  intros (Hw & Hm & Hc & Hb & Hs) Hok Hcap. unfold WPACKET_set_max_size. wstep. destruct (last (wp_subs w)) as [s|]; [|done].
  wguard as [_ Hge%Z.ltb_ge]%negb_true_iff%orb_false_iff. cbn [wupd safe]. unfold wp_wf, buffer_ok, capacity in *. simpl.
  destruct Hok. split_and!; try lia; try done. destruct (wp_staticbuf w), (wp_buf w); done.
Qed.

Lemma run_op_safe o w :
  op_ok o -> op_fits (capacity w) (WPACKET_is_null_buf w) o -> wp_wf w -> safe (run_op o w) (fun _ w' => wp_wf w').
Proof.
  intros Hok Hfits Hwf.
  assert (forall w1, wp_wf w1 -> safe (WPACKET_close w1) (fun _ w' => wp_wf w')) as Hclose.
  { intros w1 Hwf1. eapply safe_mono; [by apply close_safe|]. by intros [] ? (? & _). }
  assert (forall w1 src, wp_wf w1 -> zlen src <= SIZE_MAX -> safe (WPACKET_memcpy src w1) (fun _ w' => wp_wf w')) as Hcpy.
  { intros w1 src Hwf1 Hs. eapply safe_mono; [by apply memcpy_safe|]. by intros [] ? (? & _). }
  assert (forall w1 len, wp_wf w1 -> size_ok len -> safe (WPACKET_allocate_bytes len w1) (fun _ w' => wp_wf w')) as Hall.
  { intros w1 len Hwf1 Hs. eapply safe_mono; [by apply allocate_safe|].
    intros p w2 Ha. by apply (allocated_wf _ _ _ _ Hwf1) in Ha as (? & _). }
  assert (forall w1 n, wp_wf w1 -> size_ok n -> safe (WPACKET_start_sub_packet_len__ n w1) (fun _ w' => wp_wf w')) as Hst.
  { intros w1 n Hwf1 Hs. eapply safe_mono; [by apply start_sub_safe|]. by intros [] ? (? & ? & ? & _). }
  destruct o; simpl in Hok |- *; eauto.
  - apply safe_bind. eapply safe_mono; [by apply Hall|done].
  - apply safe_bind. eapply safe_mono; [by apply reserve_safe|]. by intros p ? (_ & ? & _).
  - apply safe_bind. unfold WPACKET_sub_reserve_bytes__. wstep. wguard as _. apply safe_bind.
    eapply safe_mono; [apply reserve_safe; [done|]|by intros p ? (_ & ? & _)]. unfold SIZE_MAX, u64. dlia.
  - eapply safe_mono; [by apply memset_safe|]. by intros [] ? (? & _).
  - destruct Hok as [? [? ?]]. eapply safe_mono; [by apply put_bytes_safe|]. by intros [] ? [(? & _) _].
  - unfold WPACKET_set_flags. wstep. wguard as _. unfold set_head_sub, wupd. cbn [safe].
    destruct (wp_subs w) as [|s ps] eqn:Es; [done|]. apply wf_set_subs; [done|].
    destruct Hwf as (_ & _ & _ & _ & Hs). rewrite Es in Hs. destruct Hs as (? & ? & ? & ? & ? & ? & ?).
    do 5 (split; [done|]). split; [|done]. unfold has_flag. simpl. rewrite Hok. done.
  - by apply start_quic_safe.
  - unfold WPACKET_fill_lengths. wstep. wguard as _.
    eapply safe_mono; [apply fill_lengths_safe; [done|apply Hwf]|]. by intros [] ? (? & _).
  - destruct Hok. unfold WPACKET_sub_memcpy__. apply safe_bind. eapply safe_mono; [by apply Hst|].
    intros [] w1 Hwf1. apply safe_bind. eapply safe_mono; [by apply Hcpy|]. intros [] w2 Hwf2. by apply Hclose.
  - destruct Hok. unfold WPACKET_sub_allocate_bytes__. do 2 apply safe_bind.
    eapply safe_mono; [by apply Hst|]. intros [] w1 Hwf1. apply safe_bind.
    eapply safe_mono; [by apply Hall|]. intros p w2 Hwf2. apply safe_bind.
    eapply safe_mono; [by apply Hclose|done].
  - unfold WPACKET_quic_sub_allocate_bytes. do 2 apply safe_bind.
    eapply safe_mono; [by apply start_quic_safe|]. intros [] w1 Hwf1. apply safe_bind.
    eapply safe_mono; [by apply Hall|]. intros p w2 Hwf2. apply safe_bind.
    eapply safe_mono; [by apply Hclose|done].
  - eapply safe_mono; [by apply quic_write_vlint_safe|]. by intros [] ? (? & _).
  - by apply set_max_size_safe.
  - apply safe_bind. unfold WPACKET_get_length. wstep. by destruct (wp_subs w).
  - eapply safe_mono; [by apply finish_safe|]. by intros [] ? (? & _).
  - by apply wf_set_subs.
Qed.

(** *** What no operation changes

    The size of a fixed buffer, whether there is a buffer, the direction of writing, and,
    but for [WPACKET_set_max_size], the maximum size. *)

Definition shape (w : WPACKET) : option Z * bool * bool := (capacity w, bool_decide (wp_buf w = None), wp_endfirst w).
Definition kept {X A} (f : WPACKET -> X) (m : W A) : Prop := forall w a w', m w = Done a w' -> f w' = f w.

Lemma kept_bind {X A B} (f : WPACKET -> X) (m : W A) (k : A -> W B) : kept f m -> (forall a, kept f (k a)) -> kept f (wbind m k).
Proof. intros Hm Hk w b w'. unfold wbind. destruct (m w) as [a w1| |] eqn:E; try done. intros E'. rewrite (Hk a w1 b w' E'). exact (Hm w a w1 E). Qed.
Lemma kept_get {X A} (f : WPACKET -> X) (k : WPACKET -> W A) : (forall a, kept f (k a)) -> kept f (wbind wget k).
Proof. intros Hk. apply kept_bind; [by intros w a w' [= <- <-]|done]. Qed.
Lemma kept_ret {X A} (f : WPACKET -> X) (a : A) : kept f (wret a).
Proof. by intros w x w' [= <- <-]. Qed.
Lemma kept_fail {X A} (f : WPACKET -> X) : kept f (@wfail A).
Proof. done. Qed.
Lemma kept_guard {X} (f : WPACKET -> X) c : kept f (wguard c).
Proof. destruct c; [apply kept_ret|apply kept_fail]. Qed.
Lemma kept_upd {X} (f : WPACKET -> X) g : (forall w, f (g w) = f w) -> kept f (wupd g).
Proof. by intros Hg w a w' [= <- <-]. Qed.
Lemma kept_store {X} (f : WPACKET -> X) off d :
  (forall w b b', GETBUF w = Some b -> zlen b' = zlen b -> f (setbuf b' w) = f w) -> kept f (wp_store off d).
Proof.
  intros Hf w a w'. unfold wp_store. destruct (GETBUF w) as [b|] eqn:E; [|done].
  destruct (Z.leb_spec 0 off); [|done]. destruct (Z.leb_spec (off + zlen d) (zlen b)); [|done]. intros [= <- <-].
  apply (Hf w b); [done|]. apply splice_zlen; lia.
Qed.

Section Kept.
Context {X : Type} (f : WPACKET -> X).
Context (Hset : forall w b b', GETBUF w = Some b -> zlen b' = zlen b -> f (setbuf b' w) = f w).
Context (Hbuf : forall w bm bm', wp_buf w = Some bm -> f (set_buf (Some bm') w) = f w).
Context (Hpos : forall w c n, f (set_pos c n w) = f w) (Hsubs : forall w subs, f (set_subs subs w) = f w) (Htick : forall w, f (tick w) = f w).

Lemma kept_reserve len : kept f (WPACKET_reserve_bytes len).
Proof.
  intros w p w'. unfold WPACKET_reserve_bytes, BUF_MEM_grow, walloc, wbind, wget, wguard, wupd, wret, wfail.
  destruct (wp_buf w) as [bm|] eqn:Eb; intros E; repeat case_match; simplify_eq; try done; rewrite ?(Hbuf _ bm), ?Htick; done.
Qed.
Lemma kept_alloc_bytes len : kept f (WPACKET_allocate_bytes len).
Proof. apply kept_bind; [apply kept_reserve|]. intros p. apply kept_bind; [apply kept_upd; intros; apply Hpos|]. intros []. apply kept_ret. Qed.
Lemma kept_put_value data value len : kept f (put_value data value len).
Proof.
  destruct data as [off|]; [|apply kept_ret]. apply kept_bind; [|intros; apply kept_guard].
  generalize (Z.to_nat len), (off + len - 1) as data. intros n. revert value. induction n as [|n IH]; intros value data; cbn [put_value_loop]; [apply kept_ret|].
  apply kept_bind; [by apply kept_store|]. intros _. apply IH.
Qed.
Lemma kept_put_bytes val size : kept f (WPACKET_put_bytes__ val size).
Proof. apply kept_bind; [apply kept_guard|]. intros _. apply kept_bind; [apply kept_alloc_bytes|]. intros p. apply kept_put_value. Qed.
Lemma kept_close sub parents doclose : kept f (wpacket_intern_close sub parents doclose).
Proof.
  apply kept_get. intros pkt. apply kept_bind; [apply kept_guard|]. intros _. apply kept_bind.
  { destruct (_ && _); [|apply kept_ret]. apply kept_bind; [apply kept_guard|]. intros _. apply kept_bind; [|intros; apply kept_ret].
    destruct (_ =? _); [by apply kept_upd|apply kept_ret]. }
  intros lenbytes. apply kept_bind.
  - destruct (0 <? lenbytes).
    + destruct (GETBUF pkt); [|apply kept_ret]. destruct (negb _); [apply kept_put_value|]. apply kept_bind; [apply kept_guard|]. intros _. by apply kept_store.
    + destruct (_ && _); [|apply kept_ret]. apply kept_bind; [apply kept_put_bytes|]. intros _. destruct (_ <? _); [apply kept_put_bytes|apply kept_ret].
  - intros _. destruct doclose; [by apply kept_upd|apply kept_ret].
Qed.
Lemma kept_WPACKET_close : kept f WPACKET_close.
Proof. apply kept_get. intros pkt. destruct (wp_subs pkt) as [|? [|? ?]]; try apply kept_fail. apply kept_close. Qed.
Lemma kept_start lenbytes : kept f (WPACKET_start_sub_packet_len__ lenbytes).
Proof.
  apply kept_get. intros pkt. do 2 (apply kept_bind; [apply kept_guard|]; intros _). apply kept_bind; [intros w a w' [= <- <-]; apply Htick|]. intros ok.
  apply kept_bind; [apply kept_guard|]. intros _. cbv zeta. destruct (lenbytes =? 0); [by apply kept_upd|].
  apply kept_bind; [by apply kept_upd|]. intros _. apply kept_bind; [apply kept_alloc_bytes|]. intros _. apply kept_ret.
Qed.
Lemma kept_memcpy src : kept f (WPACKET_memcpy src).
Proof. unfold WPACKET_memcpy. destruct (_ =? 0); [apply kept_ret|]. apply kept_bind; [apply kept_alloc_bytes|]. intros [off|]; [by apply kept_store|apply kept_ret]. Qed.
Lemma kept_set_head g : kept f (wupd (set_head_sub g)).
Proof. apply kept_upd. intros w. unfold set_head_sub. destruct (wp_subs w); [done|apply Hsubs]. Qed.
Lemma kept_start_quic max_len : kept f (WPACKET_start_quic_sub_packet_bound max_len).
Proof. apply kept_bind; [apply kept_guard|]. intros _. apply kept_bind; [apply kept_start|]. intros _. apply kept_set_head. Qed.

Lemma kept_run_op o : (forall m w, o = OpSetMaxSize m -> f (set_maxsize m w) = f w) -> kept f (run_op o).
Proof.
  intros Hmax. destruct o; cbn [run_op].
  - apply kept_bind; [apply kept_alloc_bytes|intros; apply kept_ret].
  - apply kept_bind; [apply kept_reserve|intros; apply kept_ret].
  - apply kept_bind; [|intros; apply kept_ret]. apply kept_get. intros pkt. apply kept_bind; [apply kept_guard|]. intros _. apply kept_bind; [apply kept_reserve|intros; apply kept_ret].
  - apply kept_memcpy.
  - unfold WPACKET_memset. destruct (_ =? 0); [apply kept_ret|]. apply kept_bind; [apply kept_alloc_bytes|]. intros [off|]; [by apply kept_store|apply kept_ret].
  - apply kept_put_bytes.
  - apply kept_start.
  - apply kept_get. intros pkt. apply kept_bind; [apply kept_guard|]. intros _. apply kept_set_head.
  - apply kept_start_quic.
  - apply kept_get. intros pkt. apply kept_bind; [apply kept_guard|]. intros _. generalize (wp_subs pkt) as subs. intros subs.
    induction subs as [|s ps IH]; cbn [fill_lengths_loop]; [apply kept_ret|]. apply kept_bind; [apply kept_close|done].
  - apply kept_WPACKET_close.
  - apply kept_bind; [apply kept_start|]. intros _. apply kept_bind; [apply kept_memcpy|]. intros _. apply kept_WPACKET_close.
  - apply kept_bind; [|intros; apply kept_ret]. apply kept_bind; [apply kept_start|]. intros _. apply kept_bind; [apply kept_alloc_bytes|]. intros p. apply kept_bind; [apply kept_WPACKET_close|intros; apply kept_ret].
  - apply kept_bind; [|intros; apply kept_ret]. apply kept_bind; [apply kept_start_quic|]. intros _. apply kept_bind; [apply kept_alloc_bytes|]. intros p. apply kept_bind; [apply kept_WPACKET_close|intros; apply kept_ret].
  - apply kept_bind; [apply kept_guard|]. intros _. apply kept_bind; [apply kept_alloc_bytes|]. intros [off|]; [by apply kept_store|done].
  - apply kept_get. intros pkt. destruct (last _) as [sub|]; [|apply kept_fail]. apply kept_bind; [apply kept_guard|]. intros _. apply kept_upd. intros w. by apply Hmax.
  - apply kept_bind; [|intros; apply kept_ret]. apply kept_get. intros pkt. apply kept_ret.
  - apply kept_bind; [|intros; apply kept_ret]. apply kept_get. intros pkt. destruct (wp_subs pkt); [apply kept_fail|apply kept_ret].
  - apply kept_get. intros pkt. destruct (wp_subs pkt) as [|? [|? ?]]; try apply kept_fail. apply kept_bind; [apply kept_close|]. intros _. by apply kept_upd.
  - by apply kept_upd.
Qed.
End Kept.

Lemma shape_setbuf w b b' : GETBUF w = Some b -> zlen b' = zlen b -> shape (setbuf b' w) = shape w.
Proof.
  unfold shape, capacity, GETBUF, setbuf. destruct w as [[bm|] [sb|]]; simpl; intros E Hz; simplify_eq; try done; by rewrite Hz.
Qed.
Lemma run_op_shape o w w' : run_op o w = Done tt w' -> shape w' = shape w.
Proof.
  apply (kept_run_op shape); try done; [apply shape_setbuf|]. intros v bm bm' E. unfold shape. by rewrite E.
Qed.
Lemma maxsize_setbuf w b : wp_maxsize (setbuf b w) = wp_maxsize w.
Proof. apply setbuf_fields. Qed.
Lemma run_op_maxsize o w w' : (forall m, o <> OpSetMaxSize m) -> run_op o w = Done tt w' -> wp_maxsize w' = wp_maxsize w.
Proof. intros Ho. apply (kept_run_op wp_maxsize); try done; [intros; apply maxsize_setbuf|]. intros m v E. by destruct (Ho m). Qed.
Lemma null_shape w w' : shape w' = shape w -> WPACKET_is_null_buf w' = WPACKET_is_null_buf w /\ capacity w' = capacity w.
Proof.
  unfold shape, capacity, WPACKET_is_null_buf. intros [= E1 E2 _]. split; [|done].
  destruct (wp_buf w'), (wp_buf w), (wp_staticbuf w'), (wp_staticbuf w); simplify_eq/=; done.
Qed.

Lemma run_ops_safe os w :
  Forall op_ok os -> Forall (op_fits (capacity w) (WPACKET_is_null_buf w)) os -> wp_wf w -> safe (run_ops os w) (fun _ w' => wp_wf w').
Proof.
  intros Hos. revert w. induction Hos as [|o os Ho Hos IH]; intros w Hf Hwf; cbn [run_ops]; [done|].
  apply Forall_cons in Hf as [Hf1 Hf]. apply safe_bind. pose proof (run_op_safe o w Ho Hf1 Hwf) as Hsafe.
  destruct (run_op o w) as [[] w'| |] eqn:E; [|done|done]. cbn [safe] in *.
  destruct (null_shape w w' (run_op_shape o w w' E)) as [En Ec]. apply IH; [by rewrite En, Ec|done].
Qed.

(** *** Initialisation *)

Lemma maxmaxsize_range n : 0 <= n -> n <= maxmaxsize n <= SIZE_MAX \/ (8 < n /\ maxmaxsize n = SIZE_MAX).
Proof.
  intros Hn. unfold maxmaxsize. destruct (Z.leb_spec 8 n); cbn [orb].
  - destruct (Z.eq_dec n 8) as [->|]; [left; by vm_compute|right; split; [lia|done]].
  - destruct (Z.eqb_spec n 0) as [->|]; cbn [orb]; [left; by vm_compute|]. left.
    assert (n = 1 \/ n = 2 \/ n = 3 \/ n = 4 \/ n = 5 \/ n = 6 \/ n = 7) as Hc by lia.
    destruct Hc as [E|[E|[E|[E|[E|[E|E]]]]]]; rewrite E; by vm_compute.
Qed.

(** The state every initialiser prepares before its common tail. *)
Definition fresh (w : WPACKET) : Prop :=
  0 <= wp_maxsize w <= SIZE_MAX /\ buffer_ok (set_pos 0 0 w).

Lemma intern_init_safe w lenbytes :
  fresh w -> 0 <= lenbytes <= SIZE_MAX -> (wp_endfirst w = true -> lenbytes = 0) ->
  safe (wpacket_intern_init_len lenbytes w) (fun _ w' =>
    wp_wf w' /\ wp_endfirst w' = wp_endfirst w /\ wp_written w' = lenbytes /\
    (WPACKET_is_null_buf w = false -> wp_endfirst w = false ->
     wp_rep w' [mkframe lenbytes 0 []])).
Proof.
  intros [Hm Hb] Hl He. unfold wpacket_intern_init_len. wstep. apply safe_bind. unfold walloc.
  cbn [safe]. destruct (malloc_ok _ _); cbn [negb]; [|by wstep]. wstep.
  set (w0 := set_subs [mkWPACKET_SUB 0 0 0 0] (tick (set_pos 0 0 w))).
  assert (wp_wf w0) as Hwf0.
  { unfold wp_wf, w0; simpl. split_and!; try lia; try done. }
  destruct (Z.eqb_spec lenbytes 0) as [->|Hl0].
  - cbn [wret safe]. split_and!; try done. intros Hn Hef. unfold wp_rep. split_and!; try done.
    unfold written_bytes. change (wp_endfirst w0) with (wp_endfirst w). rewrite Hef. simpl.
    by exists [], [].
  - assert (wp_endfirst w = false) as Hef by (destruct (wp_endfirst w); [by specialize (He eq_refl)|done]).
    wstep. pose proof (allocate_frame lenbytes [mkWPACKET_SUB 0 lenbytes lenbytes 0] w0) as Hfr.
    change (set_subs _ w0) with
      (set_subs [mkWPACKET_SUB 0 lenbytes lenbytes 0] (set_subs [mkWPACKET_SUB 0 0 0 0] (tick (set_pos 0 0 w)))) in Hfr.
    fold w0 in Hfr. change (set_subs _ w0) with (set_subs [mkWPACKET_SUB 0 lenbytes lenbytes 0] w0).
    rewrite Hfr by done. pose proof (allocate_safe w0 lenbytes Hwf0 ltac:(lia)) as Ha.
    destruct (WPACKET_allocate_bytes lenbytes w0) as [p w1|w1|]; [|done|done]. cbn [safe] in *.
    destruct (allocated_wf _ _ _ _ Hwf0 Ha) as (Hwf1 & F1 & F2 & F3 & F4 & F5 & F6 & F7).
    change (wp_written w0) with 0 in F1. change (wp_endfirst w0) with (wp_endfirst w) in F3.
    assert (wp_wf (set_subs [mkWPACKET_SUB 0 lenbytes lenbytes 0] w1)) as Hwf2.
    { apply wf_set_subs; [done|]. rewrite F1, F3, Hef. cbn. unfold sub_start; simpl.
      rewrite Z.sub_diag. destruct (Z.eqb_spec lenbytes 0); [lia|]. split_and!; try lia; done. }
    split; [done|]. split; [done|]. split; [done|]. intros Hn _.
    split; [done|]. split; [simpl; congruence|].
    split; [by change (WPACKET_is_null_buf w1 = false); rewrite F5|].
    destruct (allocated_hole w0 lenbytes p w1 Hwf0 Ha) as (hole & Hh & (_ & _ & _ & _ & _ & _ & Ew)).
    change (written_bytes (set_subs _ w1)) with (written_bytes w1).
    rewrite Ew by done. change (wp_endfirst w0) with (wp_endfirst w). rewrite Hef.
    assert (written_bytes w0 = []) as ->.
    { unfold written_bytes. change (wp_endfirst w0) with (wp_endfirst w). by rewrite Hef. }
    exists [], hole. simpl. rewrite app_nil_r. split_and!; try done.
Qed.
End Sequences.

(** *** Every way to set a packet up *)

Inductive wp_init :=
  | InitStatic (buf : list Z) (lenbytes : Z)
  | InitDer (buf : list Z)
  | InitLen (buf : BUF_MEM) (lenbytes : Z)
  | InitNull (lenbytes : Z)
  | InitNullDer.

(** Buffers are objects of the address space, [BUF_MEM]s as their own functions
    leave them. *)
Definition init_ok (i : wp_init) : Prop :=
  match i with
  | InitStatic buf lenbytes => zlen buf <= SIZE_MAX /\ size_ok lenbytes
  | InitDer buf => zlen buf <= SIZE_MAX
  | InitLen buf lenbytes => bm_length buf <= bm_max buf <= SIZE_MAX /\ size_ok lenbytes
  | InitNull lenbytes => size_ok lenbytes
  | InitNullDer => True
  end.

Section Init.
Context `{Allocator}.

Definition run_init (i : wp_init) : W unit :=
  match i with
  | InitStatic buf lenbytes => WPACKET_init_static_len buf lenbytes
  | InitDer buf => WPACKET_init_der buf
  | InitLen buf lenbytes => WPACKET_init_len buf lenbytes
  | InitNull lenbytes => WPACKET_init_null lenbytes
  | InitNullDer => WPACKET_init_null_der
  end.

Lemma maxmaxsize_pos n : 0 <= n -> 0 <= maxmaxsize n <= SIZE_MAX.
Proof. intros Hn. destruct (maxmaxsize_range n Hn) as [?|[? ->]]; [lia|unfold SIZE_MAX; lia]. Qed.

Lemma run_init_safe i w : init_ok i -> safe (run_init i w) (fun _ w' => wp_wf w').
Proof.
  intros Hok. destruct i as [buf n|buf|buf n|n|]; simpl in Hok |- *.
  - destruct Hok as [? ?]. unfold WPACKET_init_static_len. wguard as Hpos%Z.ltb_lt. wstep.
    pose proof (maxmaxsize_pos n ltac:(unfold size_ok in *; lia)).
    eapply safe_mono; [apply intern_init_safe; [|done|done]|by intros [] ? (? & _)].
    unfold fresh, buffer_ok. simpl. destruct (Z.ltb_spec (maxmaxsize n) (zlen buf)); unfold SIZE_MAX in *; lia.
  - unfold WPACKET_init_der. wguard as Hpos%Z.ltb_lt. wstep.
    eapply safe_mono; [apply intern_init_safe; [|unfold SIZE_MAX; lia|done]|by intros [] ? (? & _)].
    unfold fresh, buffer_ok. simpl. lia.
  - destruct Hok as [? ?]. unfold WPACKET_init_len. wstep.
    pose proof (maxmaxsize_pos n ltac:(unfold size_ok in *; lia)). pose proof (zlen_nonneg (bm_data buf)).
    eapply safe_mono; [apply intern_init_safe; [|done|done]|by intros [] ? (? & _)].
    unfold fresh, buffer_ok, bm_length in *. simpl. split_and!; try done; lia.
  - unfold WPACKET_init_null. wstep. pose proof (maxmaxsize_pos n ltac:(unfold size_ok in *; lia)).
    eapply safe_mono; [apply intern_init_safe; [done|unfold SIZE_MAX; lia|done]|by intros [] ? (? & _)].
  - unfold WPACKET_init_null_der. wstep.
    eapply safe_mono; [apply intern_init_safe; [|unfold SIZE_MAX; lia|done]|by intros [] ? (? & _)].
    unfold fresh, SIZE_MAX; simpl. split; [lia|done].
Qed.

(** The fixed buffer a packet is set up with, and whether it has any. *)
Definition init_capacity (i : wp_init) : option Z :=
  match i with InitStatic buf _ | InitDer buf => Some (zlen buf) | InitLen _ _ | InitNull _ | InitNullDer => None end.
Definition init_null (i : wp_init) : bool := match i with InitNull _ | InitNullDer => true | _ => false end.

Lemma kept_intern_init lenbytes : kept shape (wpacket_intern_init_len lenbytes).
Proof.
  apply kept_bind; [by apply kept_upd|]. intros _. apply kept_bind; [by intros w a w' [= <- <-]|]. intros ok. destruct ok; cbn [negb].
  2: { apply kept_bind; [by apply kept_upd|]. intros _. apply kept_fail. }
  apply kept_bind; [by apply kept_upd|]. intros _. destruct (lenbytes =? 0); [apply kept_ret|]. apply kept_bind; [by apply kept_upd|]. intros _ w a w'.
  destruct (WPACKET_allocate_bytes lenbytes w) as [p w1| |] eqn:E; try done. intros [= <- <-].
  refine (kept_alloc_bytes shape _ _ _ lenbytes w p w1 E); try done. intros v bm bm' Ev. unfold shape. by rewrite Ev.
Qed.
Lemma run_init_shape i w w' : run_init i w = Done tt w' -> capacity w' = init_capacity i /\ WPACKET_is_null_buf w' = init_null i.
Proof.
  assert (forall n v, wpacket_intern_init_len n v = Done tt w' -> WPACKET_is_null_buf w' = WPACKET_is_null_buf v /\ capacity w' = capacity v) as Hk.
  { intros n v E. apply null_shape. exact (kept_intern_init n v tt w' E). }
  destruct i; cbn [run_init]; unfold WPACKET_init_static_len, WPACKET_init_der, WPACKET_init_len, WPACKET_init_null, WPACKET_init_null_der, wbind, wguard, wupd;
    try (destruct (0 <? zlen buf); [|done]); cbn [wret]; intros E; destruct (Hk _ _ E) as [-> ->]; done.
Qed.

(** *** Packets with a fixed buffer have no other reason to fail *)

Lemma allocate_static w b len :
  wp_wf w -> wp_endfirst w = false -> wp_staticbuf w = Some b -> wp_subs w <> [] ->
  0 < len -> wp_written w + len <= wp_maxsize w ->
  WPACKET_allocate_bytes len w =
    Done (Some (wp_written w)) (set_pos (wp_written w + len) (wp_written w + len) w).
Proof.
  intros (Hw & Hm & Hc & Hb & _) He Es Hs Hl Hr. unfold buffer_ok in Hb. rewrite Es in Hb.
  destruct (wp_buf w) eqn:Eb; [done|].
  unfold WPACKET_allocate_bytes, WPACKET_reserve_bytes, wbind, wget, wguard, wupd, wret, wfail.
  rewrite bool_decide_eq_false_2 by done. destruct (Z.eqb_spec len 0); [lia|]. cbn.
  rewrite u64_sub_small by lia. destruct (Z.ltb_spec (wp_maxsize w - wp_written w) len); [lia|]. cbn.
  rewrite Eb. unfold WPACKET_get_curr, GETBUF. rewrite Es, He. cbn. rewrite Hc.
  unfold SIZE_MAX in *. by rewrite !u64_small by lia.
Qed.

Lemma memcpy_static w b src :
  wp_wf w -> wp_endfirst w = false -> wp_staticbuf w = Some b -> wp_subs w <> [] ->
  wp_written w + zlen src <= wp_maxsize w ->
  exists w', WPACKET_memcpy src w = Done tt w' /\ appended w src w' /\
    wp_staticbuf w' = Some (if zlen src =? 0 then b else splice b (wp_written w) src).
Proof.
  intros Hwf He Es Hs Hr. pose proof Hwf as (_ & Hm & _). pose proof (zlen_nonneg src) as Hz.
  pose proof Hwf as (Hw & _).
  pose proof (memcpy_safe w src Hwf ltac:(lia)) as Hsafe. revert Hsafe.
  unfold WPACKET_memcpy. destruct (Z.eqb_spec (zlen src) 0) as [E|E].
  - cbn [wret safe]. intros Ha. by exists w.
  - unfold wbind. rewrite (allocate_static w b) by (done || lia). cbv beta iota.
    assert (GETBUF (set_pos (wp_written w + zlen src) (wp_written w + zlen src) w) = Some b) as Eg
      by (unfold GETBUF; simpl; by rewrite Es).
    pose proof Hwf as (_ & _ & _ & Hb & _). unfold buffer_ok in Hb. rewrite Es in Hb.
    destruct (wp_buf w) eqn:Eb; [done|].
    rewrite (wp_store_eq _ _ _ b) by (done || lia). cbn [safe].
    intros Ha. eexists; split; [done|]. split; [done|]. unfold setbuf. simpl. by rewrite Es.
Qed.
End Init.

Section Simulation.
Context `{Allocator}.

Lemma init_static_rep buf lenbytes w :
  zlen buf <= SIZE_MAX -> 0 <= lenbytes <= SIZE_MAX ->
  safe (WPACKET_init_static_len buf lenbytes w) (fun _ w' => wp_rep w' [mkframe lenbytes 0 []]).
Proof.
  intros ? ?. unfold WPACKET_init_static_len. wguard as Hpos%Z.ltb_lt. wstep.
  pose proof (maxmaxsize_pos lenbytes ltac:(lia)).
  eapply safe_mono; [apply intern_init_safe; [|done|done]|].
  - unfold fresh, buffer_ok. simpl. destruct (Z.ltb_spec (maxmaxsize lenbytes) (zlen buf)); lia.
  - intros [] w' (? & ? & ? & Hrep). by apply Hrep.
Qed.
(** A packet with a single frame and no length bytes holds that frame's data. *)
Lemma wp_rep_single w d : wp_rep w [mkframe 0 0 d] -> written_bytes w = d.
Proof.
  intros (_ & _ & _ & Hr). destruct (wp_subs w) as [|s [|s' ss]]; try done.
  - destruct Hr as (pre & hole & -> & Hh & _ & _ & _ & Hp). simpl in Hh, Hp. subst pre.
    by rewrite (zlen_zero_nil hole).
  - by destruct Hr as (? & ? & _ & _ & _ & _ & _ & []).
Qed.
End Simulation.

(** *** Reading back what was written *)

Lemma split_prefixed_app k d rest :
  0 <= k -> zlen d < 256 ^ k ->
  split_prefixed k (be_bytes (Z.to_nat k) (zlen d) ++ d ++ rest) = Some (d, rest).
Proof.
  intros Hk Hd. pose proof (zlen_nonneg d). pose proof (zlen_nonneg rest).
  assert (zlen (be_bytes (Z.to_nat k) (zlen d)) = k) as Hz by (rewrite zlen_be_bytes; lia).
  unfold split_prefixed, split_be. autorewrite with zlen. rewrite Hz.
  destruct (Z.ltb_spec (k + (zlen d + zlen rest)) k); [lia|].
  rewrite take_app_length', drop_app_length' by (by rewrite be_bytes_length). cbn [mbind option_bind].
  rewrite be_val_bytes, Z2Nat.id, Z.mod_small by lia. unfold split_front. autorewrite with zlen.
  destruct (Z.ltb_spec (zlen d + zlen rest) (zlen d)); [lia|].
  by rewrite zlen_to_nat, take_app_length, drop_app_length.
Qed.

Lemma not_flag_0 f : (fr_flags f = 0) -> forall fl, fr_flag f fl = false.
Proof. intros E fl. unfold fr_flag. by rewrite E. Qed.

Lemma seal_plain k d :
  0 < k -> fr_seal (mkframe k 0 d) =
    if zlen d <? 256 ^ k then Some (be_bytes (Z.to_nat k) (zlen d) ++ d) else None.
Proof.
  intros Hk. unfold fr_seal. rewrite !not_flag_0 by done. rewrite !andb_false_r. simpl.
  destruct (Z.eqb_spec k 0); [lia|]. unfold len_prefix. by destruct (_ <? _).
Qed.

(** ** Properties *)


(** An allocator that always succeeds, and a packet that was never set up. *)
Definition always_alloc : Allocator := {| malloc_ok := fun _ _ => true |}.
Definition blank : WPACKET := mkWPACKET None None 0 0 0 [] false 0.


(** Writing a vector with a [k]-byte length to a fixed buffer, and reading it. *)
Definition write_vector {A : Allocator} (buf src : list Z) (k : Z) : W unit :=
  WPACKET_init_static_len buf 0;; run_op (OpSubMemcpy src k).
Definition read_vector (k : Z) (pkt : PACKET) : option (PACKET * PACKET) :=
  get_prefixed (if k =? 1 then PACKET_get_1 else if k =? 2 then PACKET_get_net_2 else PACKET_get_net_3) pkt.

Section Vectors.
Context {A : Allocator} (Hal : forall n s, malloc_ok n s = true) (buf : list Z).

Definition opened (w : WPACKET) : WPACKET :=
  mkWPACKET None (Some buf) 0 0 (zlen buf) [mkWPACKET_SUB 0 0 0 0] false (S (wp_clock w)).
Definition in_vector (k : Z) (w : WPACKET) : WPACKET :=
  mkWPACKET None (Some buf) k k (zlen buf) [mkWPACKET_SUB 0 k k 0; mkWPACKET_SUB 0 0 0 0] false
    (S (wp_clock w)).

Lemma init_static_done w :
  0 < zlen buf <= SIZE_MAX ->
  WPACKET_init_static_len buf 0 w = Done tt (opened w) /\ wp_rep (opened w) [mkframe 0 0 []].
Proof.
  intros Hb. assert (WPACKET_init_static_len buf 0 w = Done tt (opened w)) as Hinit.
  { unfold WPACKET_init_static_len, wpacket_intern_init_len, wbind, wguard, wupd, walloc, wret.
    destruct (Z.ltb_spec 0 (zlen buf)); [|lia]. cbn. rewrite Hal. cbn. unfold opened. f_equal.
    change (maxmaxsize 0) with SIZE_MAX. destruct (Z.ltb_spec SIZE_MAX (zlen buf)); [lia|done]. }
  split; [done|]. pose proof (init_static_rep buf 0 w ltac:(lia) ltac:(unfold size_ok, SIZE_MAX; lia)) as Hs.
  by rewrite Hinit in Hs.
Qed.

Lemma start_vector_done w k :
  0 < k <= 3 -> k <= zlen buf <= SIZE_MAX -> wp_rep (opened w) [mkframe 0 0 []] ->
  WPACKET_start_sub_packet_len__ k (opened w) = Done tt (in_vector k (tick w)) /\
  wp_rep (in_vector k (tick w)) [mkframe k 0 []; mkframe 0 0 []].
Proof.
  intros Hk Hb Hr0.
  assert (WPACKET_start_sub_packet_len__ k (opened w) = Done tt (in_vector k (tick w))) as Hstart.
  { unfold WPACKET_start_sub_packet_len__, wbind at 1, wget, wguard, walloc, wret.
    cbn -[WPACKET_allocate_bytes]. destruct (Z.ltb_spec 0 k); [|lia]. unfold wbind at 1.
    cbn -[WPACKET_allocate_bytes]. rewrite Hal. unfold wbind at 1. cbn -[WPACKET_allocate_bytes].
    destruct (Z.eqb_spec k 0); [lia|]. unfold wbind, wupd. rewrite allocate_frame by done.
    assert (wp_wf (tick (opened w))) as Hwft by apply Hr0.
    change (mkWPACKET None _ _ _ _ _ _ _) with (tick (opened w)).
    rewrite (allocate_static (tick (opened w)) buf) by (done || (cbn; lia)).
    rewrite u64_small by lia. done. }
  split; [done|].
  pose proof (start_sub_rep (opened w) _ k Hr0 ltac:(unfold SIZE_MAX; lia)) as Hr1.
  by rewrite Hstart in Hr1.
Qed.

(** The bytes a closed vector leaves in the buffer. *)
Lemma write_vector_bytes src k w :
  bytes_ok src -> 1 <= k <= 3 -> 0 < zlen src -> k + zlen src <= zlen buf <= SIZE_MAX / 2 ->
  if zlen src <? 256 ^ k then
    exists w', write_vector buf src k w = Done tt w' /\
      written_bytes w' = be_bytes (Z.to_nat k) (zlen src) ++ src /\ wp_written w' = k + zlen src
  else exists w', write_vector buf src k w = Fail w'.
Proof.
  intros Hsrc Hk Hpos Hbuf. assert (zlen buf <= SIZE_MAX) as Hb64 by (unfold SIZE_MAX in *; dlia).
  destruct (init_static_done w) as [Hinit Hr0]; [lia|].
  destruct (start_vector_done w k) as [Hstart Hr1]; [lia|lia|done|].
  set (w1 := in_vector k (tick w)) in *.
  destruct (memcpy_static w1 buf src) as (w2 & Hcpy & Happ & _);
    [apply Hr1|done|done|done|unfold w1; simpl; lia|].
  assert (wp_rep w2 [mkframe k 0 src; mkframe 0 0 []]) as Hr2 by (by apply (appended_rep w1 src w2 _ Hr1)).
  pose proof (close_rep w2 _ _ _ Hr2) as Hclose. rewrite seal_plain in Hclose by lia.
  assert (write_vector buf src k w = WPACKET_close w2) as ->.
  { unfold write_vector, run_op, WPACKET_sub_memcpy__, wbind. by rewrite Hinit, Hstart, Hcpy. }
  destruct (Z.ltb_spec (zlen src) (256 ^ k)) as [Hlt|]; [|done].
  destruct Hclose as (w3 & -> & Hr3). cbn [fr_write] in Hr3. exists w3.
  pose proof (wp_rep_single w3 _ Hr3) as Hwb. simpl in Hwb. split_and!; [done|done|].
  rewrite <- (zlen_written_bytes w3), Hwb by apply Hr3. autorewrite with zlen. rewrite zlen_be_bytes. lia.
Qed.
End Vectors.

Lemma read_vector_reads k pkt src :
  1 <= k <= 3 -> zlen src < 256 ^ k -> bytes_ok src -> pkt_rep pkt (be_bytes (Z.to_nat k) (zlen src) ++ src) ->
  exists rest sub, read_vector k pkt = Some (rest, sub) /\ pkt_rep rest [] /\ pkt_rep sub src.
Proof.
  intros Hk Hlt Hsrc Hpkt. unfold read_vector. set (get := if k =? 1 then _ else _).
  assert (reads_be k get) as Hget.
  { unfold get. assert (k = 1 \/ k = 2 \/ k = 3) as Hc by lia. destruct Hc as [E|[E|E]]; rewrite E; cbn;
      auto using PACKET_get_1_reads, PACKET_get_net_2_reads, PACKET_get_net_3_reads. }
  assert (bytes_ok (be_bytes (Z.to_nat k) (zlen src) ++ src)) as Hok
    by (apply Forall_app; split; [apply be_bytes_ok|done]).
  pose proof (get_prefixed_reads k get pkt _ ltac:(lia) Hget Hok Hpkt) as Hread.
  pose proof (split_prefixed_app k src [] ltac:(lia) Hlt) as Es. rewrite app_nil_r in Es. rewrite Es in Hread.
  destruct Hread as (rest & sub & Eg & Hrest & Hsub). by exists rest, sub.
Qed.

(** C19: a length-prefixed vector written with [WPACKET_sub_memcpy__] is read
    back by the packet readers.  Into a fixed buffer with enough room the write
    succeeds whenever the length fits the prefix, and the 1-, 2- and 3-byte
    length-prefixed readers return exactly the bytes written, leaving nothing;
    when the length does not fit the prefix the write fails. *)
Theorem sub_memcpy_read_back {A : Allocator} buf src k w :
  (forall n s, malloc_ok n s = true) -> bytes_ok src ->
  1 <= k <= 3 -> 0 < zlen src -> k + zlen src <= zlen buf <= SIZE_MAX / 2 ->
  if zlen src <? 256 ^ k then
    exists w' pkt rest sub,
      write_vector buf src k w = Done tt w' /\
      PACKET_buf_init (written_bytes w') 0 (wp_written w') = Some pkt /\
      read_vector k pkt = Some (rest, sub) /\
      pkt_rep rest [] /\ pkt_rep sub src
  else exists w', write_vector buf src k w = Fail w'.
Proof.
  intros Hal Hsrc Hk Hpos Hbuf. pose proof (write_vector_bytes Hal buf src k w Hsrc Hk Hpos Hbuf) as Hw.
  destruct (Z.ltb_spec (zlen src) (256 ^ k)) as [Hlt|]; [|done]. destruct Hw as (w' & Ew & Hwb & Hlen).
  assert (zlen (written_bytes w') = k + zlen src) as Hz
    by (rewrite Hwb; autorewrite with zlen; rewrite zlen_be_bytes; lia).
  destruct (pkt_buf_init_rep (written_bytes w') 0 (wp_written w') (written_bytes w'))
    as (pkt & Epkt & Hpkt); [lia|lia|unfold SIZE_MAX in *; dlia| |].
  { unfold slice. rewrite Hlen. symmetry. apply take_ge. unfold zlen in *. simpl. lia. }
  rewrite Hwb in Hpkt. destruct (read_vector_reads k pkt src) as (rest & sub & ?); [done..|].
  by exists w', pkt, rest, sub.
Qed.

Lemma sub_memcpy_read_back_witness :
  exists w' pkt rest sub,
    @write_vector always_alloc (zeros 10) [7; 8; 9] 2 blank = Done tt w' /\
    PACKET_buf_init (written_bytes w') 0 (wp_written w') = Some pkt /\
    read_vector 2 pkt = Some (rest, sub) /\ pkt_rep rest [] /\ pkt_rep sub [7; 8; 9].
Proof.
  apply (@sub_memcpy_read_back always_alloc (zeros 10) [7; 8; 9] 2 blank); try done.
  - repeat constructor; unfold is_byte; lia.
Defined.

(** The definite lengths of DER: one byte below 128, else the number of length
    bytes with the high bit set, then the length with no leading zero byte. *)
Definition is_der_length (n : Z) (l : list Z) : Prop :=
  (n < 128 -> l = [n]) /\
  (128 <= n -> exists k, l = Z.lor 0x80 k :: be_bytes (Z.to_nat k) n /\
     1 <= k <= 8 /\ 256 ^ (k - 1) <= n < 256 ^ k).

Lemma der_length_ok n : 0 <= n <= SIZE_MAX -> is_der_length n (der_length n).
Proof.
  intros Hnr. split; intros; unfold der_length; destruct (Z.leb_spec n 0x7f); try lia; [done|].
  destruct (der_num_spec n Hnr) as (H1 & H2 & H3). exists (der_num n). rewrite Z.lor_comm.
  split_and!; try done; try lia. destruct (Z.eq_dec (der_num n) 1) as [E|]; [rewrite E; simpl; lia|].
  apply H3. lia.
Qed.

(** Packets written from the end carry DER lengths.  Closing a sub-packet of
    such a packet puts in front of its [n] content bytes the definite DER length
    of [n]: the single byte [n] below 128, else the number of length bytes with
    the high bit set followed by the length in big-endian form with no leading
    zero byte. *)
Lemma der_close_prefix {A : Allocator} w s s' ss :
  wp_wf w -> wp_endfirst w = true -> WPACKET_is_null_buf w = false -> wp_subs w = s :: s' :: ss ->
  abandons w s = false ->
  let n := wp_written w - sub_pwritten s in
  safe (WPACKET_close w) (fun _ w' =>
    wp_wf w' /\ wp_subs w' = s' :: ss /\
    exists len, is_der_length n len /\ written_bytes w' = len ++ written_bytes w).
Proof.
  intros Hwf He Hn Es Ha. cbv zeta. set (n := wp_written w - sub_pwritten s).
  assert (subs_ok (wp_endfirst w) (wp_written w) (s :: s' :: ss)) as Hsub by (rewrite <- Es; apply Hwf).
  destruct (subs_ok_sub _ _ _ Hsub) as [Hso _].
  assert (0 <= n <= SIZE_MAX) as Hnr.
  { destruct Hso as (? & ? & ? & _). destruct Hwf as (? & ? & _). unfold n, sub_start in *. lia. }
  pose proof (close_safe w Hwf) as Hk. revert Hk. unfold WPACKET_close, wbind, wget. rewrite Es. intros Hk.
  pose proof (intern_close_endfirst w s (s' :: ss) true Hwf He Hso) as Hc.
  destruct (wpacket_intern_close _ _ _ w) as [[] w'|w'|]; [|done|done]. cbn [safe] in *.
  destruct Hc as (w1 & Happ & -> & _). destruct Hk as (? & ? & _). split_and!; try done.
  exists (der_length n). split; [by apply der_length_ok|].
  change (written_bytes (closing true (s' :: ss) w1)) with (written_bytes w1).
  destruct Happ as (_ & _ & _ & _ & _ & _ & ->); [|done]. rewrite He.
  unfold der_header. by rewrite Ha, bool_decide_eq_false_2 by done.
Qed.

Lemma der_close_prefix_witness :
  let w := mkWPACKET None (Some [0; 0; 0; 0; 5; 6]) 2 2 6
             [mkWPACKET_SUB 0 0 0 0; mkWPACKET_SUB 0 0 0 0] true 0 in
  safe (@WPACKET_close always_alloc w) (fun _ w' => written_bytes w' = [2; 5; 6]).
Proof.
  intros w.
  eapply safe_mono;
    [apply (@der_close_prefix always_alloc w (mkWPACKET_SUB 0 0 0 0) (mkWPACKET_SUB 0 0 0 0) []); done|].
  intros [] w' (_ & _ & len & [H _] & ->). rewrite (H eq_refl). reflexivity.
Defined.

(** A packet set up to count bytes without storing them. *)
Definition counting (w : WPACKET) : Prop :=
  wp_wf w /\ WPACKET_is_null_buf w = true /\ wp_subs w <> [].

(** [WPACKET_quic_write_vlint] is not usable on a packet without a buffer:
    on any well-formed NULL packet with room for the value it stores through a
    NULL pointer, where the other writers only count the bytes. *)
Lemma quic_write_vlint_null_crash {A : Allocator} w v :
  counting w -> 0 <= v <= OSSL_QUIC_VLINT_MAX -> wp_written w + 8 <= wp_maxsize w ->
  WPACKET_quic_write_vlint v w = Crash.
Proof.
  intros ((Hw & Hm & Hc & _) & Hn & Hs) Hv Hr.
  destruct (encode_len_form v Hv) as (tag & Hf & _).
  unfold WPACKET_quic_write_vlint. set (len := ossl_quic_vlint_encode_len v) in *.
  assert (0 < len <= 8) as Hlen by (vlint_cases Hf; lia).
  unfold WPACKET_is_null_buf in Hn. destruct (wp_buf w) eqn:Eb, (wp_staticbuf w) eqn:Es; try done.
  unfold wbind, wguard. destruct (Z.eqb_spec len 0); [lia|]. cbn [negb wret].
  unfold WPACKET_allocate_bytes, WPACKET_reserve_bytes, wbind, wget, wguard, wupd, wret, wfail.
  rewrite bool_decide_eq_false_2 by done. destruct (Z.eqb_spec len 0); [lia|]. cbn.
  rewrite u64_sub_small by lia. destruct (Z.ltb_spec (wp_maxsize w - wp_written w) len); [lia|]. cbn.
  rewrite Eb. unfold WPACKET_get_curr, GETBUF. by rewrite Es, Eb.
Qed.

(** [WPACKET_set_max_size] trusts its caller.  A fixed-buffer packet accepts a
    maximum larger than its buffer, and a write that the new maximum admits then
    runs past the end of the buffer; with a maximum of at most the buffer's
    length the packet stays well formed. *)
Lemma set_max_size_static {A : Allocator} w b m :
  wp_wf w -> wp_staticbuf w = Some b -> wp_endfirst w = false -> wp_subs w <> [] ->
  wp_written w <= m <= SIZE_MAX -> Forall (fun s => sub_lenbytes s = 0) (wp_subs w) ->
  WPACKET_set_max_size m w = Done tt (set_maxsize m w) /\
  (m <= zlen b -> wp_wf (set_maxsize m w)) /\
  (forall src, zlen b < wp_written w + zlen src <= m ->
     run_op (OpMemcpy src) (set_maxsize m w) = Crash).
Proof.
  intros Hwf Es He Hs Hm Hl. pose proof Hwf as (Hw & Hmx & Hc & Hb & Hsub).
  unfold buffer_ok in Hb. rewrite Es in Hb. destruct (wp_buf w) eqn:Eb; [done|]. split_and!.
  - unfold WPACKET_set_max_size, wbind, wget, wguard. destruct (last (wp_subs w)) as [s|] eqn:El.
    + apply last_Some_elem_of in El. rewrite Forall_forall in Hl. rewrite (Hl s El). cbn.
      change (maxmaxsize 8) with SIZE_MAX.
      destruct (Z.ltb_spec SIZE_MAX m), (Z.ltb_spec m (wp_written w)); try lia. done.
    + by apply last_None in El.
  - intros. unfold wp_wf, buffer_ok. simpl. rewrite Es, Eb. split_and!; try lia; done.
  - intros src Hsrc. unfold run_op, WPACKET_memcpy.
    destruct (Z.eqb_spec (zlen src) 0) as [E|E]; [lia|].
    unfold wbind, WPACKET_allocate_bytes, WPACKET_reserve_bytes, wbind, wget, wguard, wupd, wret, wfail.
    cbn [wp_subs set_maxsize]. rewrite bool_decide_eq_false_2 by done.
    destruct (Z.eqb_spec (zlen src) 0); [lia|]. cbn. rewrite u64_sub_small by lia.
    destruct (Z.ltb_spec (m - wp_written w) (zlen src)); [lia|]. cbn. rewrite Eb.
    unfold WPACKET_get_curr, GETBUF. cbn. rewrite Es, He. cbn. unfold wp_store, GETBUF. cbn. rewrite Es.
    rewrite Hc. destruct (Z.leb_spec (wp_written w + zlen src) (zlen b)); [lia|]. by rewrite andb_false_r.
Qed.
