(* ===== verification/WPacketRefine.v ===== *)
(** * Writable packets implement a stack of frames

    The abstract machine of [WPacketSpec]'s frames with the maximum size of the packet, and
    the proof that over a fixed buffer written front to back every sequence of calls does
    what the machine does: it succeeds exactly when the machine does, and then the buffer
    holds the machine's bytes. *)
From S2P Require Import Prelude.
From S2P Require Import ByteOrder.
From S2P Require Import Packet.
From S2P Require Import QuicVlint.
From S2P Require Import WPacket.
From S2P Require Import WPacketSpec.

(** ** The machine *)

(** Open frames, innermost first, in a packet of at most [cap] bytes; or the bytes of a
    packet that was finished. *)
Inductive stack := Open (cap : Z) (fs : list frame) | Finished (d : list Z).

Definition total (fs : list frame) : Z := foldr (fun f n => fr_lenbytes f + zlen (fr_data f) + n) 0 fs.
(** The longest packet whose length fits [lenbytes] bytes, these included. *)
Definition max_size (lenbytes : Z) : Z := if (lenbytes =? 0) || (8 <=? lenbytes) then SIZE_MAX else 256 ^ lenbytes - 1 + lenbytes.

Definition st_append (d : list Z) (st : stack) : option stack :=
  match st with
  | Open cap fs => if (0 <? zlen d) && (total fs + zlen d <=? cap) then Some (Open cap (fr_write d fs)) else None
  | Finished _ => None
  end.
Definition st_copy (d : list Z) (st : stack) : option stack := if zlen d =? 0 then Some st else st_append d st.
Definition st_open (lenbytes flags : Z) (st : stack) : option stack :=
  match st with
  | Open cap fs => if total fs + lenbytes <=? cap then Some (Open cap (mkframe lenbytes flags [] :: fs)) else None
  | Finished _ => None
  end.
Definition st_close (st : stack) : option stack :=
  match st with Open cap (f :: (_ :: _) as ps) => d ← fr_seal f; Some (Open cap (fr_write d ps)) | _ => None end.

Definition st_op (o : wp_op) (st : stack) : option stack :=
  match o with
  | OpReserve len => match st with Open cap fs => if (0 <? len) && (total fs + len <=? cap) then Some st else None | _ => None end
  | OpMemcpy src => st_copy src st
  | OpMemset ch len => st_copy (replicate (Z.to_nat len) (u8 ch)) st
  | OpPutBytes val size => if (size <=? 8) && (val <? 256 ^ size) then st_append (be_bytes (Z.to_nat size) val) st else None
  | OpQuicWriteVlint v => if v <=? OSSL_QUIC_VLINT_MAX then st_append (ossl_quic_vlint_encode v) st else None
  | OpStartSub lenbytes => st_open lenbytes 0 st
  | OpStartQuic m => if m <=? OSSL_QUIC_VLINT_MAX then st_open (ossl_quic_vlint_encode_len m) WPACKET_FLAGS_QUIC_VLINT st else None
  | OpSetFlags flags => match st with Open cap (f :: ps) => Some (Open cap (mkframe (fr_lenbytes f) flags (fr_data f) :: ps)) | _ => None end
  | OpSubMemcpy src lenbytes => st ← st_open lenbytes 0 st; st ← st_copy src st; st_close st
  | OpClose => st_close st
  | OpSetMaxSize m =>
    match st with
    | Open cap fs => f ← last fs; if (total fs <=? m) && (m <=? max_size (fr_lenbytes f)) then Some (Open m fs) else None
    | Finished _ => None
    end
  | OpGetLength => match st with Open _ _ => Some st | Finished _ => None end
  | OpGetTotalWritten => Some st
  | OpFinish => match st with Open _ [f] => d ← fr_seal f; Some (Finished d) | _ => None end
  | _ => None
  end.
(** The calls the machine describes: not those that hand out bytes for the caller to fill,
    nor [WPACKET_fill_lengths] and [WPACKET_cleanup]. *)
Definition abstract_op (o : wp_op) : Prop :=
  match o with
  | OpAllocate _ | OpSubReserve _ _ | OpFillLengths | OpSubAllocate _ _ | OpQuicSubAllocate _ | OpCleanup => False
  | _ => True
  end.
Fixpoint st_ops (os : list wp_op) (st : stack) : option stack :=
  match os with [] => Some st | o :: os' => st' ← st_op o st; st_ops os' st' end.
Definition st_init (size lenbytes : Z) : option stack :=
  let cap := Z.min (max_size lenbytes) size in
  if (0 <? size) && (lenbytes <=? cap) then Some (Open cap [mkframe lenbytes 0 []]) else None.

(** ** The relation *)

Definition st_rep (size : Z) (w : WPACKET) (st : stack) : Prop :=
  match st with
  | Open cap fs => wp_rep w fs /\ fs <> [] /\ wp_maxsize w = cap /\ capacity w = Some size
  | Finished d => wp_wf w /\ wp_subs w = [] /\ written_bytes w = d
  end.
Definition agrees (size : Z) (o : outcome unit) (r : option stack) : Prop :=
  match r with Some st => exists w', o = Done tt w' /\ st_rep size w' st | None => exists w', o = Fail w' end.

Section Refines.
Context `{Allocator} (Hal : forall n s, malloc_ok n s = true) (size : Z).

Lemma agrees_bind (m k : W unit) w r g :
  agrees size (m w) r -> (forall w' st, st_rep size w' st -> agrees size (k w') (g st)) -> agrees size ((m;; k) w) (r ≫= g).
Proof.
  unfold agrees at 1, wbind. intros Hm Hk. destruct r as [st|]; cbn [mbind option_bind].
  - destruct Hm as (w' & -> & Hr). by apply Hk.
  - destruct Hm as (w' & ->). by exists w'.
Qed.

Lemma frames_total bytes subs fs : frames_rep bytes subs fs -> total fs = zlen bytes.
Proof.
  revert bytes fs. induction subs as [|s ss IH]; intros bytes [|f ps]; cbn [frames_rep total foldr]; try done; [by intros ->|].
  intros (pre & hole & -> & Hh & _ & _ & _ & Hr). fold (total ps). rewrite (IH pre ps Hr). autorewrite with zlen. lia.
Qed.
Lemma rep_total w fs : wp_rep w fs -> total fs = wp_written w.
Proof. intros (Hwf & He & Hn & Hr). rewrite (frames_total _ _ _ Hr). by apply zlen_written_bytes. Qed.
Lemma rep_subs w fs : wp_rep w fs -> fs <> [] -> wp_subs w <> [].
Proof. intros (_ & _ & _ & Hr) Hne E. rewrite E in Hr. by destruct fs. Qed.
Lemma frames_last bytes subs fs : frames_rep bytes subs fs -> (fr_lenbytes <$> last fs) = (sub_lenbytes <$> last subs).
Proof.
  revert bytes fs. induction subs as [|s ss IH]; intros bytes [|f ps]; cbn [frames_rep]; try done.
  intros (pre & hole & _ & _ & Hl & _ & _ & Hr). rewrite !last_cons. specialize (IH pre ps Hr).
  destruct (last ps), (last ss); try done. cbn. by rewrite Hl.
Qed.
Lemma max_size_eq n : 0 <= n -> maxmaxsize n = max_size n.
Proof.
  intros Hn. unfold maxmaxsize, max_size. rewrite (orb_comm (n =? 0)). destruct (Z.leb_spec 8 n); cbn [orb]; [done|]. destruct (Z.eqb_spec n 0); [done|].
  assert (n = 1 \/ n = 2 \/ n = 3 \/ n = 4 \/ n = 5 \/ n = 6 \/ n = 7) as Hc by lia. destruct Hc as [-> |[-> |[-> |[-> |[-> |[-> | ->]]]]]]; done.
Qed.

(** Space in a packet over a fixed buffer. *)
Lemma reserve_exact w b len :
  wp_wf w -> wp_endfirst w = false -> wp_staticbuf w = Some b -> size_ok len ->
  WPACKET_reserve_bytes len w =
    if negb (bool_decide (wp_subs w = [])) && (0 <? len) && (wp_written w + len <=? wp_maxsize w) then Done (Some (wp_written w)) w else Fail w.
Proof.
  intros (Hw & Hm & Hc & Hb & _) He Es Hl. unfold buffer_ok in Hb. rewrite Es in Hb. destruct (wp_buf w) eqn:Eb; [done|].
  unfold WPACKET_reserve_bytes, wbind, wget, wguard, wret, wfail. destruct (bool_decide (wp_subs w = [])); cbn [negb andb]; [done|].
  destruct (Z.eqb_spec len 0), (Z.ltb_spec 0 len); unfold size_ok in *; try lia; cbn [negb andb]; [done|].
  rewrite u64_sub_small by lia. destruct (Z.ltb_spec (wp_maxsize w - wp_written w) len), (Z.leb_spec (wp_written w + len) (wp_maxsize w)); try lia; cbn [negb]; [done|].
  rewrite Eb. unfold WPACKET_get_curr, GETBUF. rewrite Es, He, Hc. done.
Qed.
Lemma allocate_exact w b len :
  wp_wf w -> wp_endfirst w = false -> wp_staticbuf w = Some b -> size_ok len ->
  WPACKET_allocate_bytes len w =
    if negb (bool_decide (wp_subs w = [])) && (0 <? len) && (wp_written w + len <=? wp_maxsize w)
    then Done (Some (wp_written w)) (set_pos (wp_written w + len) (wp_written w + len) w) else Fail w.
Proof.
  intros Hwf He Es Hl. unfold WPACKET_allocate_bytes, wbind. rewrite (reserve_exact w b) by done. destruct (_ && _) eqn:E; [|done].
  rewrite !andb_true_iff, Z.ltb_lt, Z.leb_le in E. destruct E as [[_ ?] ?]. destruct Hwf as (? & ? & Hc & _). unfold wupd, wret, SIZE_MAX in *. rewrite Hc. by rewrite !u64_small by lia.
Qed.
Lemma open_static w cap fs : st_rep size w (Open cap fs) ->
  exists b, wp_staticbuf w = Some b /\ wp_wf w /\ wp_endfirst w = false /\ WPACKET_is_null_buf w = false /\ wp_subs w <> [] /\ total fs = wp_written w /\ wp_maxsize w = cap.
Proof.
  intros (Hr & Hne & Hm & Hc). pose proof (rep_subs w fs Hr Hne). pose proof (rep_total w fs Hr). destruct Hr as (Hwf & He & Hn & _). unfold capacity in Hc.
  destruct (wp_staticbuf w) as [b|]; [|done]. by exists b.
Qed.
(** No call changes the buffer's size or, in general, the maximum. *)
Lemma st_rep_intro o w w' cap fs fs' :
  st_rep size w (Open cap fs) -> (forall m, o <> OpSetMaxSize m) -> run_op o w = Done tt w' -> wp_rep w' fs' -> fs' <> [] -> st_rep size w' (Open cap fs').
Proof.
  intros (_ & _ & Hm & Hc) Ho E Hr Hne. split_and!; [done|done|by rewrite (run_op_maxsize o w w' Ho E)|].
  by rewrite (proj2 (null_shape _ _ (run_op_shape o w w' E))).
Qed.
Lemma fr_write_nonempty d fs : fs <> [] -> fr_write d fs <> [].
Proof. by destruct fs. Qed.

(** *** Appending *)

Lemma append_agrees o w cap fs d :
  st_rep size w (Open cap fs) -> (forall m, o <> OpSetMaxSize m) ->
  (0 < zlen d -> total fs + zlen d <= cap -> exists w', run_op o w = Done tt w' /\ appended w d w') ->
  (~ (0 < zlen d /\ total fs + zlen d <= cap) -> exists w', run_op o w = Fail w') ->
  agrees size (run_op o w) (st_append d (Open cap fs)).
Proof.
  intros Hr Ho Hd Hf. cbn [st_append]. destruct (Z.ltb_spec 0 (zlen d)); cbn [andb]; [|apply Hf; lia].
  destruct (Z.leb_spec (total fs + zlen d) cap); [|apply Hf; lia]. destruct Hd as (w' & E & Ha); [done..|].
  exists w'. split; [done|]. eapply st_rep_intro; [exact Hr|done|exact E| |apply fr_write_nonempty; apply Hr]. by apply (appended_rep w d); [apply Hr..|].
Qed.
(** [allocate] followed by a store of as many bytes *)
Lemma store_exact w b d :
  wp_wf w -> wp_endfirst w = false -> wp_staticbuf w = Some b -> wp_subs w <> [] -> 0 < zlen d -> wp_written w + zlen d <= wp_maxsize w ->
  exists w1 w', WPACKET_allocate_bytes (zlen d) w = Done (Some (wp_written w)) w1 /\ GETBUF w1 = Some b /\
    wp_store (wp_written w) d w1 = Done tt w' /\ w' = setbuf (splice b (wp_written w) d) w1 /\ appended w d w'.
Proof.
  intros Hwf He Es Hs Hpos Hfit. pose proof Hwf as (Hw & Hm & Hc & Hb & _). pose proof (allocate_safe w (zlen d) Hwf ltac:(lia)) as Hsafe.
  rewrite (allocate_exact w b) in * by (done || (unfold size_ok; lia)). rewrite bool_decide_eq_false_2 in * by done.
  destruct (Z.ltb_spec 0 (zlen d)); [|lia]. destruct (Z.leb_spec (wp_written w + zlen d) (wp_maxsize w)); [|lia]. cbn [negb andb] in *. cbn [safe] in Hsafe.
  destruct (allocated_store w _ _ d _ Hwf eq_refl Hsafe) as (b' & Eg & _ & _ & Est & Happ). eexists _, _. split; [done|].
  assert (GETBUF (set_pos (wp_written w + zlen d) (wp_written w + zlen d) w) = Some b) as Eb by (unfold GETBUF; simpl; by rewrite Es).
  assert (b' = b) as -> by congruence. done.
Qed.
Lemma nofit_exact w b len :
  wp_wf w -> wp_endfirst w = false -> wp_staticbuf w = Some b -> size_ok len -> ~ (0 < len /\ wp_written w + len <= wp_maxsize w) ->
  WPACKET_allocate_bytes len w = Fail w.
Proof.
  intros Hwf He Es Hl Hn. rewrite (allocate_exact w b) by done.
  destruct (Z.ltb_spec 0 len), (Z.leb_spec (wp_written w + len) (wp_maxsize w)); rewrite ?andb_false_r; try done. exfalso. by apply Hn.
Qed.

Lemma memcpy_agrees w st src : st_rep size w st -> zlen src <= SIZE_MAX -> agrees size (run_op (OpMemcpy src) w) (st_copy src st).
Proof.
  intros Hr Hl. unfold st_copy. cbn [run_op]. destruct (Z.eqb_spec (zlen src) 0) as [E|E]; [exists w; unfold WPACKET_memcpy; by rewrite E|].
  pose proof (zlen_nonneg src). assert (size_ok (zlen src)) as Hok by (unfold size_ok; lia). destruct st as [cap fs|d].
  - destruct (open_static w cap fs Hr) as (b & Es & Hwf & He & _ & Hs & Ht & Hm). apply (append_agrees (OpMemcpy src)); [done|done| |]; rewrite Ht, <- Hm; cbn [run_op]; unfold WPACKET_memcpy, wbind;
      rewrite (proj2 (Z.eqb_neq _ _) E).
    + intros H1 H2. destruct (store_exact w b src Hwf He Es Hs H1 H2) as (w1 & w' & -> & _ & E2 & _ & Happ). by exists w'.
    + intros Hn. rewrite (nofit_exact w b) by done. by exists w.
  - destruct Hr as (_ & Hs & _). cbn [st_append agrees]. unfold WPACKET_memcpy, WPACKET_allocate_bytes, WPACKET_reserve_bytes, wbind, wget, wguard.
    rewrite (proj2 (Z.eqb_neq _ _) E), Hs. by eexists.
Qed.
Lemma memset_agrees w st ch len : st_rep size w st -> size_ok len -> agrees size (run_op (OpMemset ch len) w) (st_copy (replicate (Z.to_nat len) (u8 ch)) st).
Proof.
  intros Hr Hok. assert (run_op (OpMemset ch len) w = run_op (OpMemcpy (replicate (Z.to_nat len) (u8 ch))) w) as ->.
  2: { apply memcpy_agrees; [done|]. unfold size_ok, zlen in *. rewrite length_replicate. lia. }
  cbn [run_op]. unfold WPACKET_memset, WPACKET_memcpy. unfold size_ok in Hok.
  assert (zlen (replicate (Z.to_nat len) (u8 ch)) = len) as -> by (unfold zlen; rewrite length_replicate; lia). done.
Qed.
Lemma put_bytes_agrees w st val n : st_rep size w st -> 0 <= val -> size_ok n ->
  agrees size (run_op (OpPutBytes val n) w) (if (n <=? 8) && (val <? 256 ^ n) then st_append (be_bytes (Z.to_nat n) val) st else None).
Proof.
  intros Hr Hv Hok. cbn [run_op]. unfold size_ok in Hok. assert (zlen (be_bytes (Z.to_nat n) val) = n) as Hz by (rewrite zlen_be_bytes; lia).
  assert (WPACKET_put_bytes__ val n w = if n <=? 8 then (let! data := WPACKET_allocate_bytes n in put_value data val n) w else Fail w) as Ep.
  { unfold WPACKET_put_bytes__, wbind at 1, wguard. by destruct (n <=? 8). }
  destruct (Z.leb_spec n 8) as [Hn|Hn]; cbn [andb]; [|rewrite Ep; by exists w]. unfold wbind in Ep.
  destruct st as [cap fs|d].
  2: { destruct Hr as (_ & Hs & _). assert (exists w', WPACKET_put_bytes__ val n w = Fail w') as Hf.
       { rewrite Ep. unfold WPACKET_allocate_bytes, WPACKET_reserve_bytes, wbind, wget, wguard. rewrite Hs. by eexists. }
       by destruct (val <? 256 ^ n). }
  destruct (open_static w cap fs Hr) as (b & Es & Hwf & He & _ & Hs & Ht & Hm).
  assert (0 < n -> wp_written w + n <= wp_maxsize w -> exists w', appended w (be_bytes (Z.to_nat n) val) w' /\
    WPACKET_put_bytes__ val n w = if val <? 256 ^ n then Done tt w' else Fail w') as Hfit.
  { intros H1 H2. destruct (store_exact w b (be_bytes (Z.to_nat n) val) Hwf He Es Hs ltac:(lia) ltac:(lia)) as (w1 & w' & Ea & Eg & E2 & -> & Happ).
    rewrite Hz in Ea. rewrite Ea in Ep. pose proof Hwf as (Hw & _ & _ & Hb & _). unfold buffer_ok in Hb. rewrite Es in Hb. destruct (wp_buf w); [done|].
    rewrite (put_value_eq _ _ _ w1 b) in Ep by (done || lia). by eexists. }
  destruct (Z.ltb_spec val (256 ^ n)).
  - apply (append_agrees (OpPutBytes val n)); [done|done| |]; rewrite Hz, Ht, <- Hm.
    + intros H1 H2. destruct (Hfit H1 H2) as (w' & Happ & E). by exists w'.
    + intros Hno. cbn [run_op]. rewrite Ep, (nofit_exact w b) by done. by exists w.
  - cbn [agrees]. destruct (decide (0 < n /\ wp_written w + n <= wp_maxsize w)) as [[H1 H2]|Hno].
    + destruct (Hfit H1 H2) as (w' & _ & ->). by exists w'.
    + rewrite Ep, (nofit_exact w b) by done. by exists w.
Qed.
Lemma vlint_len v : 0 <= v -> ossl_quic_vlint_encode_len v = 0 <-> OSSL_QUIC_VLINT_MAX < v.
Proof.
  intros Hv. unfold ossl_quic_vlint_encode_len, OSSL_QUIC_VLINT_2B_MIN, OSSL_QUIC_VLINT_4B_MIN, OSSL_QUIC_VLINT_8B_MIN, OSSL_QUIC_VLINT_MAX.
  destruct (Z.ltb_spec v 64); [lia|]. destruct (Z.ltb_spec v 16384); [lia|]. destruct (Z.ltb_spec v 1073741824); [lia|]. destruct (Z.leb_spec v 4611686018427387903); lia.
Qed.
Lemma vlint_agrees w st v : st_rep size w st -> 0 <= v ->
  agrees size (run_op (OpQuicWriteVlint v) w) (if v <=? OSSL_QUIC_VLINT_MAX then st_append (ossl_quic_vlint_encode v) st else None).
Proof.
  intros Hr Hv. cbn [run_op]. pose proof (vlint_len v Hv) as Hl. destruct (Z.leb_spec v OSSL_QUIC_VLINT_MAX) as [Hle|Hgt].
  2: { unfold WPACKET_quic_write_vlint, wbind, wguard. rewrite (proj2 Hl Hgt). by exists w. }
  destruct (encode_len_form v ltac:(lia)) as (tag & Hf & _). assert (zlen (ossl_quic_vlint_encode v) = ossl_quic_vlint_encode_len v) as Hz by (eapply encode_n_len; exact Hf).
  assert (0 < ossl_quic_vlint_encode_len v <= 8) as Hlen by (vlint_cases Hf; lia).
  assert (WPACKET_quic_write_vlint v w = (let! b := WPACKET_allocate_bytes (ossl_quic_vlint_encode_len v) in
    match b with None => fun _ => Crash | Some off => wp_store off (ossl_quic_vlint_encode v) end) w) as Ep.
  { unfold WPACKET_quic_write_vlint, wbind at 1, wguard. by rewrite (proj2 (Z.eqb_neq _ 0)) by lia. }
  unfold wbind in Ep. destruct st as [cap fs|d].
  - destruct (open_static w cap fs Hr) as (b & Es & Hwf & He & _ & Hs & Ht & Hm). apply (append_agrees (OpQuicWriteVlint v)); [done|done| |]; rewrite Ht, <- Hm; cbn [run_op]; rewrite Ep, <- ?Hz.
    + intros H1 H2. destruct (store_exact w b _ Hwf He Es Hs H1 H2) as (w1 & w' & -> & _ & E2 & _ & Happ). by exists w'.
    + intros Hno. rewrite (nofit_exact w b) by (done || (unfold size_ok, SIZE_MAX; lia)). by exists w.
  - destruct Hr as (_ & Hs & _). cbn [st_append agrees]. rewrite Ep. unfold WPACKET_allocate_bytes, WPACKET_reserve_bytes, wbind, wget, wguard. rewrite Hs. by eexists.
Qed.

(** *** Sub-packets *)

Lemma start_exact w b lenbytes :
  wp_wf w -> wp_endfirst w = false -> wp_staticbuf w = Some b -> size_ok lenbytes ->
  if negb (bool_decide (wp_subs w = [])) && (wp_written w + lenbytes <=? wp_maxsize w)
  then exists w', WPACKET_start_sub_packet_len__ lenbytes w = Done tt w' else exists w', WPACKET_start_sub_packet_len__ lenbytes w = Fail w'.
Proof.
  intros Hwf He Es Hl. pose proof Hwf as (Hw & _). unfold WPACKET_start_sub_packet_len__, walloc, wupd, wbind, wget, wguard. rewrite He. unfold size_ok in *.
  destruct (wp_subs w) as [|s ss] eqn:Esub; [by exists w|]. rewrite bool_decide_eq_false_2 by done. rewrite andb_false_r. cbn [negb andb wret]. rewrite Hal. cbn [wret].
  destruct (Z.eqb_spec lenbytes 0) as [->|Hn0].
  - rewrite Z.add_0_r. destruct (Z.leb_spec (wp_written w) (wp_maxsize w)); [by eexists|lia].
  - rewrite allocate_frame by (cbn; congruence). rewrite (allocate_exact (tick w) b) by (done || (unfold size_ok; lia)). cbn [tick wp_subs wp_written wp_maxsize].
    rewrite Esub, bool_decide_eq_false_2 by done. destruct (Z.ltb_spec 0 lenbytes); [|lia]. cbn [negb andb]. destruct (_ <=? _); by eexists.
Qed.
Lemma start_agrees w st lenbytes : st_rep size w st -> size_ok lenbytes -> agrees size (run_op (OpStartSub lenbytes) w) (st_open lenbytes 0 st).
Proof.
  intros Hr Hok. destruct st as [cap fs|d].
  - destruct (open_static w cap fs Hr) as (b & Es & Hwf & He & _ & Hs & Ht & Hm). pose proof (start_exact w b lenbytes Hwf He Es Hok) as Hex.
    rewrite bool_decide_eq_false_2 in Hex by done. cbn [st_open]. rewrite Ht, <- Hm. cbn [negb andb] in Hex. destruct (_ <=? _); [|done]. destruct Hex as (w' & E).
    exists w'. split; [done|]. rewrite Hm. apply (st_rep_intro (OpStartSub lenbytes) w w' cap fs); [done|done|done| |done].
    pose proof (start_sub_rep w fs lenbytes (proj1 Hr) Hok) as Hsafe. cbn [run_op] in E. by rewrite E in Hsafe.
  - destruct Hr as (_ & Hs & _). cbn [st_open agrees run_op]. unfold WPACKET_start_sub_packet_len__, wbind, wget, wguard. rewrite Hs. by eexists.
Qed.
Lemma set_head_rep w f ps g flags :
  wp_rep w (f :: ps) -> wp_wf (set_head_sub g w) ->
  (forall s, sub_lenbytes (g s) = sub_lenbytes s /\ sub_pwritten (g s) = sub_pwritten s) -> (forall s, sub_flags s = fr_flags f -> sub_flags (g s) = flags) ->
  wp_rep (set_head_sub g w) (mkframe (fr_lenbytes f) flags (fr_data f) :: ps).
Proof.
  intros (Hwf & He & Hn & Hr) Hwf' Hg Hfl. unfold set_head_sub in *. destruct (wp_subs w) as [|s ss] eqn:Es; [done|].
  split_and!; [done..|]. change (written_bytes (set_subs _ w)) with (written_bytes w). cbn [wp_subs set_subs].
  destruct Hr as (pre & hole & ? & ? & ? & ? & ? & ?). destruct (Hg s) as [E1 E2]. exists pre, hole. rewrite E1, E2, (Hfl s) by done. by split_and!.
Qed.
Lemma set_flags_agrees w st flags : st_rep size w st -> Z.land flags WPACKET_FLAGS_QUIC_VLINT = 0 -> agrees size (run_op (OpSetFlags flags) w) (st_op (OpSetFlags flags) st).
Proof.
  intros Hr Hok. cbn [run_op st_op]. destruct st as [cap fs|d].
  - destruct (open_static w cap fs Hr) as (b & Es & Hwf & He & Hn & Hs & Ht & Hm). destruct fs as [|f ps]; [by destruct Hr as (_ & [] & _)|].
    pose proof (run_op_safe (OpSetFlags flags) w Hok I Hwf) as Hsafe. cbn [run_op] in Hsafe.
    assert (WPACKET_set_flags flags w = Done tt (set_head_sub (fun s => mkWPACKET_SUB (sub_packet_len s) (sub_lenbytes s) (sub_pwritten s) flags) w)) as E.
    { unfold WPACKET_set_flags, wbind, wget, wguard, wupd. by rewrite bool_decide_eq_false_2. }
    eexists. split; [exact E|]. apply (st_rep_intro (OpSetFlags flags) w _ cap (f :: ps)); [done|done|done| |done].
    rewrite E in Hsafe. cbn [safe] in Hsafe. apply set_head_rep; [apply Hr|done|done|done].
  - destruct Hr as (_ & Hs & _). cbn [agrees]. unfold WPACKET_set_flags, wbind, wget, wguard. rewrite Hs. by eexists.
Qed.
Lemma start_quic_agrees w st m : st_rep size w st -> size_ok m -> agrees size (run_op (OpStartQuic m) w) (st_op (OpStartQuic m) st).
Proof.
  intros Hr Hok. cbn [run_op st_op]. pose proof (vlint_len m ltac:(unfold size_ok in Hok; lia)) as Hl.
  destruct (Z.leb_spec m OSSL_QUIC_VLINT_MAX) as [Hle|Hgt].
  2: { unfold WPACKET_start_quic_sub_packet_bound, wbind, wguard. rewrite (proj2 Hl Hgt). by exists w. }
  destruct (encode_len_form m) as (tag & Hf & _); [unfold size_ok in Hok; lia|]. set (n := ossl_quic_vlint_encode_len m) in *.
  assert (size_ok n /\ n <> 0) as [Hn Hn0] by (unfold size_ok, SIZE_MAX; vlint_cases Hf; lia).
  pose proof (start_agrees w st n Hr Hn) as Ha. cbn [run_op] in Ha. pose proof (start_quic_safe w m) as Hsafe.
  assert (WPACKET_start_quic_sub_packet_bound m w = match WPACKET_start_sub_packet_len__ n w with
    | Done _ w1 => Done tt (set_head_sub (fun s => mkWPACKET_SUB (sub_packet_len s) (sub_lenbytes s) (sub_pwritten s) (Z.lor (sub_flags s) WPACKET_FLAGS_QUIC_VLINT)) w1)
    | Fail w1 => Fail w1 | Crash => Crash end) as E.
  { unfold WPACKET_start_quic_sub_packet_bound, wbind, wguard, wupd. fold n. by rewrite (proj2 (Z.eqb_neq n 0) Hn0). }
  destruct st as [cap fs|d].
  - cbn [st_open] in *. destruct (_ <=? cap).
    + destruct Ha as (w1 & Ew & Hr1). rewrite Ew in E. eexists. split; [exact E|]. rewrite E in Hsafe.
      apply (st_rep_intro (OpStartQuic m) w _ cap fs); [done|done|done| |done].
      apply (set_head_rep w1 (mkframe n 0 []) fs _ WPACKET_FLAGS_QUIC_VLINT); [apply Hr1|apply Hsafe; [apply Hr|done]|done|]. by intros s ->.
    + destruct Ha as (w1 & Ew). rewrite Ew in E. by exists w1.
  - destruct Ha as (w1 & Ew). rewrite Ew in E. by exists w1.
Qed.
Lemma close_agrees w st : st_rep size w st -> agrees size (run_op OpClose w) (st_close st).
Proof.
  intros Hr. cbn [run_op]. destruct st as [cap [|f [|g ps]]|d].
  - by destruct Hr as (_ & [] & _).
  - destruct Hr as ((_ & _ & _ & Hr) & _). unfold st_close, agrees, WPACKET_close, wbind, wget.
    destruct (wp_subs w) as [|s [|s' ss]]; [by eexists|by eexists|]. cbn in Hr. by destruct Hr as (? & ? & _ & _ & _ & _ & _ & []).
  - cbn [st_close]. pose proof (close_rep w f g ps (proj1 Hr)) as Hc. destruct (fr_seal f) as [d|]; cbn [mbind option_bind]; [|exact Hc].
    destruct Hc as (w' & E & Hr'). exists w'. split; [done|]. by apply (st_rep_intro OpClose w w' cap (f :: g :: ps)).
  - destruct Hr as (_ & Hs & _). unfold st_close, agrees, WPACKET_close, wbind, wget. rewrite Hs. by eexists.
Qed.
Lemma finish_agrees w st : st_rep size w st -> agrees size (run_op OpFinish w) (st_op OpFinish st).
Proof.
  intros Hr. cbn [run_op st_op]. destruct st as [cap [|f [|g ps]]|d].
  - by destruct Hr as (_ & [] & _).
  - pose proof (finish_rep w f (proj1 Hr)) as Hc. destruct (fr_seal f) as [d|]; cbn [mbind option_bind]; [|exact Hc]. exact Hc.
  - destruct Hr as ((_ & _ & _ & Hr) & _). unfold agrees, WPACKET_finish, wbind, wget. destruct (wp_subs w) as [|s [|s' ss]]; [by eexists| |by eexists].
    cbn in Hr. by destruct Hr as (? & ? & _ & _ & _ & _ & _ & []).
  - destruct Hr as (_ & Hs & _). unfold agrees, WPACKET_finish, wbind, wget. rewrite Hs. by eexists.
Qed.
Lemma set_max_size_agrees w st m : st_rep size w st -> size_ok m -> m <= size -> agrees size (run_op (OpSetMaxSize m) w) (st_op (OpSetMaxSize m) st).
Proof.
  intros Hr Hok Hcap. cbn [run_op st_op]. destruct st as [cap fs|d].
  2: { destruct Hr as (_ & Hs & _). unfold agrees, WPACKET_set_max_size, wbind, wget. rewrite Hs. by eexists. }
  destruct (open_static w cap fs Hr) as (b & Es & Hwf & He & Hn & Hs & Ht & Hm). pose proof (frames_last _ _ _ (proj2 (proj2 (proj2 (proj1 Hr))))) as Hlast.
  unfold WPACKET_set_max_size, wbind, wget, wguard, wupd. destruct (last (wp_subs w)) as [s|] eqn:El; [|by apply last_None in El].
  destruct (last fs) as [f|]; [|done]. cbn in Hlast. injection Hlast as Hlast. cbn [mbind option_bind].
  assert (0 <= sub_lenbytes s) as Hs0.
  { clear -Hwf El. destruct Hwf as (_ & _ & _ & _ & Hsub). revert Hsub El. generalize (wp_written w) as top, (wp_subs w) as subs. intros top subs. revert top.
    induction subs as [|s' ss IH]; intros top Hsub El; [done|]. rewrite last_cons in El. destruct Hsub as (? & _ & _ & _ & _ & _ & Hsub).
    destruct (last ss); [by apply (IH _ Hsub)|]. by injection El as <-. }
  assert (maxmaxsize (if sub_lenbytes s =? 0 then 8 else sub_lenbytes s) = max_size (fr_lenbytes f)) as ->.
  { rewrite Hlast, <- max_size_eq by lia. destruct (Z.eqb_spec (sub_lenbytes s) 0) as [-> |]; done. }
  rewrite Ht. destruct (Z.ltb_spec (max_size (fr_lenbytes f)) m), (Z.leb_spec m (max_size (fr_lenbytes f))); try lia; rewrite ?andb_false_r; [by exists w|].
  destruct (Z.ltb_spec m (wp_written w)), (Z.leb_spec (wp_written w) m); try lia; cbn [andb orb negb]; [by exists w|].
  exists (set_maxsize m w). split; [done|]. destruct Hr as ((_ & _ & _ & Hr) & Hne & _ & Hc).
  assert (wp_wf (set_maxsize m w)) as Hwf'.
  { destruct Hwf as (? & ? & Hcu & Hb & Hsub). unfold wp_wf, buffer_ok, capacity, size_ok in *. simpl. rewrite Es in *. injection Hc as Hc. destruct (wp_buf w); [done|]. split_and!; try done; lia. }
  refine (conj (conj Hwf' (conj He (conj Hn _))) (conj Hne (conj eq_refl Hc))).
  assert (written_bytes (set_maxsize m w) = written_bytes w) as -> by (unfold written_bytes; cbn [wp_endfirst set_maxsize]; by rewrite He). exact Hr.
Qed.

(** *** Sequences *)

Lemma run_op_agrees o w st : st_rep size w st -> op_ok o -> op_fits (Some size) false o -> abstract_op o -> agrees size (run_op o w) (st_op o st).
Proof.
  intros Hr Hok Hf Hab. destruct o; try done; cbn [st_op op_ok op_fits] in *.
  - destruct st as [cap fs|d].
    + destruct (open_static w cap fs Hr) as (b & Es & Hwf & He & _ & Hs & Ht & Hm). cbn [run_op]. unfold wbind. rewrite (reserve_exact w b) by done.
      rewrite bool_decide_eq_false_2, Ht, Hm by done. cbn [negb andb]. destruct (_ && _); [by exists w|by exists w].
    + destruct Hr as (_ & Hs & _). cbn [agrees run_op]. unfold WPACKET_reserve_bytes, wbind, wget, wguard. rewrite Hs. by eexists.
  - by apply memcpy_agrees.
  - by apply memset_agrees.
  - destruct Hok. by apply put_bytes_agrees.
  - by apply start_agrees.
  - by apply set_flags_agrees.
  - by apply (start_quic_agrees w st max_len).
  - by apply close_agrees.
  - destruct Hok as [H1 H2]. apply (agrees_bind (run_op (OpStartSub lenbytes)) (run_op (OpMemcpy src);; run_op OpClose)); [by apply start_agrees|].
    intros w1 st1 Hr1. apply (agrees_bind (run_op (OpMemcpy src)) (run_op OpClose)); [by apply memcpy_agrees|]. intros w2 st2. apply close_agrees.
  - by apply vlint_agrees.
  - by apply (set_max_size_agrees w st maxsize).
  - by exists w.
  - destruct st as [cap fs|d].
    + destruct (open_static w cap fs Hr) as (b & _ & _ & _ & _ & Hs & _). exists w. split; [|done]. cbn [run_op]. unfold WPACKET_get_length, wbind, wget. by destruct (wp_subs w).
    + destruct Hr as (_ & Hs & _). cbn [agrees run_op]. unfold WPACKET_get_length, wbind, wget. rewrite Hs. by eexists.
  - by apply (finish_agrees w st).
Qed.
Lemma run_ops_agrees os : Forall op_ok os -> Forall (op_fits (Some size) false) os -> Forall abstract_op os ->
  forall w st, st_rep size w st -> agrees size (run_ops os w) (st_ops os st).
Proof.
  induction os as [|o os IH]; intros Hok Hf Hab w st Hr; cbn [run_ops st_ops]; [by exists w|]. apply Forall_cons in Hok as [? ?], Hf as [? ?], Hab as [? ?].
  apply agrees_bind; [by apply run_op_agrees|]. intros w' st' Hr'. by apply IH.
Qed.
Lemma init_static_agrees buf lenbytes w : zlen buf = size -> size <= SIZE_MAX -> size_ok lenbytes -> agrees size (WPACKET_init_static_len buf lenbytes w) (st_init size lenbytes).
Proof.
  intros Hz Hsz Hl. pose proof (init_static_rep buf lenbytes w ltac:(lia) Hl) as Hsafe. unfold st_init. unfold size_ok in Hl.
  assert (WPACKET_init_static_len buf lenbytes w = if (0 <? size) && (lenbytes <=? Z.min (max_size lenbytes) size)
    then Done tt (mkWPACKET None (Some buf) lenbytes lenbytes (Z.min (max_size lenbytes) size) [mkWPACKET_SUB 0 lenbytes lenbytes 0] false (S (wp_clock w)))
    else if 0 <? size then Fail (mkWPACKET None (Some buf) 0 0 (Z.min (max_size lenbytes) size) [] false (S (wp_clock w))) else Fail w) as E.
  { unfold WPACKET_init_static_len, wpacket_intern_init_len, walloc, wupd, wbind, wguard. rewrite Hz. destruct (0 <? size) eqn:Epos; [|done]. apply Z.ltb_lt in Epos. cbn [wret andb]. rewrite Hal. cbn [negb].
    rewrite max_size_eq by lia. assert (0 <= max_size lenbytes <= SIZE_MAX) as Hmx by (rewrite <- max_size_eq by lia; apply maxmaxsize_pos; lia).
    assert ((if max_size lenbytes <? size then max_size lenbytes else size) = Z.min (max_size lenbytes) size) as -> by (destruct (Z.ltb_spec (max_size lenbytes) size); lia).
    set (cap := Z.min (max_size lenbytes) size). destruct (Z.eqb_spec lenbytes 0) as [-> |Hl0].
    - destruct (Z.leb_spec 0 cap); [done|unfold cap in *; lia].
    - match goal with |- context [WPACKET_allocate_bytes lenbytes ?v] => set (w1 := v) end.
      assert (w1 = set_subs [mkWPACKET_SUB 0 lenbytes lenbytes 0] (set_subs [mkWPACKET_SUB 0 0 0 0] w1)) as -> by done. rewrite allocate_frame by done.
      rewrite (allocate_exact _ buf); [|..|done|done].
      2: { unfold wp_wf, buffer_ok, w1; simpl. fold cap. split_and!; try done; unfold cap; lia. } 2: done.
      cbn [wp_subs set_subs wp_written wp_maxsize w1 set_pos tick]. rewrite bool_decide_eq_false_2 by done. destruct (Z.ltb_spec 0 lenbytes); [|lia]. cbn [negb andb].
      rewrite Z.add_0_l. by destruct (lenbytes <=? cap). }
  destruct (0 <? size); cbn [andb] in *; [|by exists w]. destruct (lenbytes <=? _).
  - eexists. split; [exact E|]. rewrite E in Hsafe. cbn [safe] in Hsafe. split_and!; [done|done|done|]. unfold capacity. cbn. by rewrite Hz.
  - by eexists.
Qed.
End Refines.

