(* ===== verification/WPacketOut.v ===== *)
(** * Packets used as output streams

    The way SLH-DSA and ML-DSA use a writable packet: a fixed buffer, no
    sub-packets, bytes appended until the packet is finished, and space that is
    first allocated and then filled through a pointer.  [wp_out w data cap] is
    such a packet with [data] written and room for [cap] bytes in all. *)
From S2P Require Import Prelude.
From S2P Require Import ByteOrder.
From S2P Require Import Packet.
From S2P Require Import WPacket.
From S2P Require Import WPacketSpec.

(** A packet variable before it is initialised. *)
Definition uninit_wpacket : WPACKET := mkWPACKET None None 0 0 0 [] false 0.

Definition top_sub : WPACKET_SUB := mkWPACKET_SUB 0 0 0 0.

Definition wp_out (w : WPACKET) (data : list Z) (cap : Z) : Prop :=
  wp_wf w /\ wp_endfirst w = false /\ (exists b, wp_staticbuf w = Some b) /\
  wp_subs w = [top_sub] /\ wp_maxsize w = cap /\ written_bytes w = data.

(** [*p] for the [len] bytes at offset [off] of the packet's buffer. *)
Definition wp_read (w : WPACKET) (off len : Z) : list Z := slice (default [] (GETBUF w)) off len.

(** A C function that calls a packet operation and returns 0 when it does. *)
Definition w_run {A} (m : W A) (w : WPACKET) : option (A * WPACKET) :=
  match m w with Done a w' => Some (a, w') | _ => None end.

Lemma w_run_done {A} (m : W A) w a w' : m w = Done a w' -> w_run m w = Some (a, w').
Proof. unfold w_run. by intros ->. Qed.

Section Out.
Context `{AL : Allocator}.

Lemma out_written w data cap : wp_out w data cap -> wp_written w = zlen data.
Proof.
  intros (Hwf & He & [b Hb] & _ & _ & <-). symmetry. apply zlen_written_bytes; [done|done|].
  unfold WPACKET_is_null_buf. rewrite Hb. by destruct (wp_buf w).
Qed.
Lemma out_cap w data cap : wp_out w data cap -> 0 <= zlen data <= cap /\ cap <= SIZE_MAX.
Proof.
  intros Ho. pose proof (out_written _ _ _ Ho) as Hw. destruct Ho as (Hwf & _ & _ & _ & <- & _).
  destruct Hwf as (? & ? & _). lia.
Qed.
Lemma out_buf w data cap :
  wp_out w data cap -> exists b, wp_staticbuf w = Some b /\ GETBUF w = Some b /\
    take (length data) b = data /\ cap <= zlen b.
Proof.
  intros Ho. pose proof (out_written _ _ _ Ho) as Hw.
  destruct Ho as (Hwf & He & [b Hb] & _ & Hm & Hd). exists b.
  unfold GETBUF, written_bytes, GETBUF in *. rewrite Hb in *. rewrite He, Hw, zlen_to_nat in Hd. simpl in Hd.
  split_and!; try done. destruct Hwf as (_ & _ & _ & Hbo & _). unfold buffer_ok in Hbo. rewrite Hb in Hbo.
  destruct (wp_buf w); [done|]. lia.
Qed.

Lemma out_read w data cap pre x post :
  wp_out w data cap -> data = pre ++ x ++ post -> wp_read w (zlen pre) (zlen x) = x.
Proof.
  intros Ho ->. destruct (out_buf _ _ _ Ho) as (b & _ & Hg & Ht & _). unfold wp_read. rewrite Hg. simpl.
  rewrite <- (take_drop (length (pre ++ x ++ post)) b), Ht.
  rewrite slice_app_l by (autorewrite with zlen; pose proof (zlen_nonneg pre);
    pose proof (zlen_nonneg x); pose proof (zlen_nonneg post); lia).
  unfold slice. rewrite !zlen_to_nat, drop_app_length. by rewrite take_app_length.
Qed.

Lemma out_alloc w data cap len :
  wp_out w data cap -> 0 < len -> zlen data + len <= cap ->
  exists w' x, WPACKET_allocate_bytes len w = Done (Some (zlen data)) w' /\ zlen x = len /\
    wp_out w' (data ++ x) cap.
Proof.
  intros Ho Hl Hc. pose proof (out_written _ _ _ Ho) as Hw. pose proof (out_buf _ _ _ Ho) as (b & Hb & _).
  destruct Ho as (Hwf & He & _ & Hs & Hm & Hd).
  pose proof (allocate_safe w len Hwf) as Hsafe.
  rewrite (allocate_static w b) in Hsafe |- * by (done || (rewrite Hs; done) || lia).
  specialize (Hsafe ltac:(destruct Hwf as (? & ? & _); lia)). cbn [safe] in Hsafe.
  destruct (allocated_hole _ _ _ _ Hwf Hsafe) as (x & Hx & (Hwf' & _ & _ & _ & _ & _ & Hbytes)).
  rewrite Hw in *. eexists _, x. split; [done|]. split; [done|].
  split; [done|]. split; [done|]. split; [by exists b|]. split; [done|]. split; [done|].
  rewrite Hbytes, He, Hd; [done|]. unfold WPACKET_is_null_buf. rewrite Hb. by destruct (wp_buf w).
Qed.

(** Filling space that was allocated. *)
Lemma out_store w data x post cap d :
  wp_out w (data ++ x ++ post) cap -> zlen d = zlen x ->
  exists w', wp_store (zlen data) d w = Done tt w' /\ wp_out w' (data ++ d ++ post) cap.
Proof.
  intros Ho Hd. pose proof (out_written _ _ _ Ho) as Hw. pose proof (out_buf _ _ _ Ho) as (b & Hb & Hg & Ht & Hc).
  destruct Ho as (Hwf & He & _ & Hs & Hm & Hdata).
  pose proof (zlen_nonneg data). pose proof (zlen_nonneg x). pose proof (zlen_nonneg post).
  assert (zlen (data ++ x ++ post) <= zlen b) as Hlen by (destruct Hwf as (? & _); lia).
  autorewrite with zlen in Hlen. rewrite (wp_store_eq _ _ w b) by (done || lia).
  eexists; split; [done|].
  pose proof (setbuf_fields (splice b (zlen data) d) w) as (F0 & F1 & F2 & F3 & F4 & _ & _).
  split; [eapply setbuf_wf; [done|done|]; apply splice_zlen; lia|].
  split; [by rewrite F4|]. split; [unfold setbuf; rewrite Hb; by eexists|].
  split; [by rewrite F3|]. split; [by rewrite F2|].
  unfold written_bytes. rewrite F4, F1, He, Hw, (GETBUF_setbuf w b _ Hg), zlen_to_nat. simpl.
  by apply (take_splice_mid b data x post d).
Qed.
Lemma out_store_end w data x cap d :
  wp_out w (data ++ x) cap -> zlen d = zlen x ->
  exists w', wp_store (zlen data) d w = Done tt w' /\ wp_out w' (data ++ d) cap.
Proof.
  intros Ho Hd. rewrite <- (app_nil_r x) in Ho.
  destruct (out_store w data x [] cap d Ho Hd) as (w' & E & Ho'). exists w'. split; [done|].
  by rewrite app_nil_r in Ho'.
Qed.

Lemma out_memcpy w data cap src :
  wp_out w data cap -> zlen data + zlen src <= cap ->
  exists w', WPACKET_memcpy src w = Done tt w' /\ wp_out w' (data ++ src) cap.
Proof.
  intros Ho Hc. pose proof (out_written _ _ _ Ho) as Hw. pose proof (out_buf _ _ _ Ho) as (b & Hb & _).
  destruct Ho as (Hwf & He & _ & Hs & Hm & Hd).
  destruct (memcpy_static w b src) as (w' & E & (Hwf' & _ & F3 & F4 & F5 & _ & F7) & Hb');
    [done|done|done|by rewrite Hs|lia|].
  exists w'. split; [done|]. split; [done|]. split; [congruence|]. split; [by eexists|].
  split; [congruence|]. split; [congruence|]. rewrite F7, He, Hd; [done|].
  unfold WPACKET_is_null_buf. rewrite Hb. by destruct (wp_buf w).
Qed.

Lemma out_put_bytes w data cap val size :
  wp_out w data cap -> 0 <= val < 256 ^ size -> 1 <= size <= 8 -> zlen data + size <= cap ->
  exists w', WPACKET_put_bytes__ val size w = Done tt w' /\
    wp_out w' (data ++ be_bytes (Z.to_nat size) val) cap.
Proof.
  intros Ho Hv Hs Hc. unfold WPACKET_put_bytes__, wbind, wguard.
  destruct (Z.leb_spec size 8); [|lia]. cbn [wret].
  destruct (out_alloc w data cap size Ho ltac:(lia) Hc) as (w1 & x & -> & Hx & Ho1).
  destruct (out_store_end w1 data x cap (be_bytes (Z.to_nat size) val) Ho1) as (w2 & E & Ho2);
    [rewrite zlen_be_bytes; lia|].
  pose proof (out_buf _ _ _ Ho1) as (b & _ & Hg & _ & Hcb). pose proof (zlen_nonneg data).
  rewrite (put_value_eq _ _ _ _ b) by (done || lia). cbv zeta.
  destruct (Z.ltb_spec val (256 ^ size)); [|lia].
  rewrite (wp_store_eq _ _ w1 b) in E by (done || (rewrite ?zlen_be_bytes; lia)).
  injection E as <-. eexists; split; [done|done].
Qed.

Lemma out_init buf w :
  (forall n s, malloc_ok n s = true) -> 0 < zlen buf <= SIZE_MAX ->
  exists w', WPACKET_init_static_len buf 0 w = Done tt w' /\ wp_out w' [] (zlen buf).
Proof.
  intros Hal Hb. unfold WPACKET_init_static_len, wpacket_intern_init_len, wbind, wguard, wupd, walloc, wret.
  destruct (Z.ltb_spec 0 (zlen buf)); [|lia]. cbn. rewrite Hal. cbn. eexists; split; [done|].
  change (maxmaxsize 0) with SIZE_MAX.
  assert ((if SIZE_MAX <? zlen buf then SIZE_MAX else zlen buf) = zlen buf) as E
    by (destruct (Z.ltb_spec SIZE_MAX (zlen buf)); lia).
  unfold wp_out, wp_wf, buffer_ok, top_sub, written_bytes. simpl. unfold tick, set_pos, set_subs. simpl.
  unfold sub_start. simpl. rewrite E. split_and!; try done; try lia. by eexists.
Qed.

(** Finishing succeeds and leaves the buffer with what was written. *)
Lemma out_finish_buf w data cap :
  wp_out w data cap -> exists w' b, WPACKET_finish w = Done tt w' /\ GETBUF w' = Some b /\
    slice b 0 (zlen data) = data.
Proof.
  intros Ho. destruct (out_buf _ _ _ Ho) as (b & _ & Hg & Ht & _). revert Ho.
  intros (Hwf & He & _ & Hs & _ & _). unfold WPACKET_finish, wbind, wget. rewrite Hs.
  assert (sub_ok w top_sub) as Hso.
  { destruct Hwf as (? & _ & _ & _ & Hsub). rewrite Hs in Hsub. by apply subs_ok_sub in Hsub as [? _]. }
  rewrite intern_close_forward by done. unfold close_forward, refuses, abandons, has_flag, top_sub. simpl.
  rewrite !andb_false_r. eexists _, b. split; [done|]. split; [exact Hg|].
  unfold slice. by rewrite zlen_to_nat.
Qed.
Lemma out_finish w data cap : wp_out w data cap -> exists w', WPACKET_finish w = Done tt w'.
Proof. intros Ho. destruct (out_finish_buf _ _ _ Ho) as (w' & b & E & _). by exists w'. Qed.
End Out.
