(* ===== verification/KeyMgmt.v ===== *)
(** * Key components

    The selection bits of [include/openssl/core_dispatch.h] that the key
    operations of the signature schemes take. *)
From S2P Require Import Prelude.

Definition OSSL_KEYMGMT_SELECT_PRIVATE_KEY : Z := 1.
Definition OSSL_KEYMGMT_SELECT_PUBLIC_KEY : Z := 2.
Definition OSSL_KEYMGMT_SELECT_KEYPAIR : Z := 3.
(** [(selection & mask) != 0] *)
Definition selected (selection mask : Z) : bool := negb (Z.land selection mask =? 0).
