(* ===== verification/ZSum.v ===== *)
(** * Finite sums of integers

    Sums indexed by an initial segment of the integers, as the polynomial
    evaluations and convolutions of the lattice schemes need them, and the array
    accesses of a coefficient list as a function of its index. *)
From S2P Require Import Prelude.

(** [zsum f n] is [f 0 + ... + f (n - 1)]. *)
Fixpoint zsum (f : Z -> Z) (n : nat) : Z :=
  match n with O => 0 | S n' => zsum f n' + f (Z.of_nat n') end.

Lemma zsum_ext f g n : (forall i, 0 <= i < Z.of_nat n -> f i = g i) -> zsum f n = zsum g n.
Proof.
  intros H. induction n as [|n IH]; [done|]. cbn [zsum]. rewrite IH, H; [done|lia|]. intros. apply H. lia.
Qed.
Lemma zsum_add f g n : zsum (fun i => f i + g i) n = zsum f n + zsum g n.
Proof. induction n as [|n IH]; cbn [zsum]; lia. Qed.
Lemma zsum_scale c f n : zsum (fun i => c * f i) n = c * zsum f n.
Proof. induction n as [|n IH]; cbn [zsum]; lia. Qed.
Lemma zsum_0 n : zsum (fun _ => 0) n = 0.
Proof. induction n as [|n IH]; cbn [zsum]; lia. Qed.
Lemma zsum_split f n m : zsum f (n + m) = zsum f n + zsum (fun i => f (Z.of_nat n + i)) m.
Proof.
  induction m as [|m IH]; [rewrite Nat.add_0_r; simpl; lia|]. rewrite Nat.add_succ_r. cbn [zsum]. rewrite IH.
  replace (Z.of_nat (n + m)) with (Z.of_nat n + Z.of_nat m) by lia. lia.
Qed.
Lemma zsum_swap (f : Z -> Z -> Z) n m :
  zsum (fun i => zsum (f i) m) n = zsum (fun j => zsum (fun i => f i j) n) m.
Proof.
  induction n as [|n IH]; cbn [zsum]; [by rewrite zsum_0|]. by rewrite IH, zsum_add.
Qed.
Lemma zsum_abs f g n :
  (forall i, 0 <= i < Z.of_nat n -> Z.abs (f i) <= g i) -> Z.abs (zsum f n) <= zsum g n.
Proof.
  induction n as [|n IH]; cbn [zsum]; [simpl; lia|]. intros H.
  pose proof (H (Z.of_nat n) ltac:(lia)). pose proof (IH ltac:(intros; apply H; lia)). lia.
Qed.
Lemma zsum_nonneg f n : (forall i, 0 <= i < Z.of_nat n -> 0 <= f i) -> 0 <= zsum f n.
Proof.
  induction n as [|n IH]; cbn [zsum]; [lia|]. intros H. pose proof (H (Z.of_nat n) ltac:(lia)).
  pose proof (IH ltac:(intros; apply H; lia)). lia.
Qed.
(** A sum with one term changed. *)
Lemma zsum_update f g n k :
  0 <= k < Z.of_nat n -> (forall i, 0 <= i < Z.of_nat n -> i <> k -> g i = f i) ->
  zsum g n = zsum f n + (g k - f k).
Proof.
  induction n as [|n IH]; intros Hk Hg; [lia|]. cbn [zsum]. destruct (Z.eq_dec k (Z.of_nat n)) as [->|].
  - rewrite (zsum_ext g f) by (intros; apply Hg; lia). lia.
  - rewrite IH, (Hg (Z.of_nat n)) by (lia || intros; apply Hg; lia). lia.
Qed.

(** ** Arrays *)

Definition coeff (p : list Z) (i : Z) : Z := default 0 (p !! Z.to_nat i).
Definition set_coeff (p : list Z) (i v : Z) : list Z := <[Z.to_nat i := v]> p.

Lemma coeff_set p i v j :
  0 <= i < zlen p -> 0 <= j -> coeff (set_coeff p i v) j = if j =? i then v else coeff p j.
Proof.
  unfold coeff, set_coeff, zlen. intros Hi Hj. destruct (Z.eqb_spec j i) as [->|].
  - by rewrite list_lookup_insert_eq by lia.
  - by rewrite list_lookup_insert_ne by lia.
Qed.
Lemma zlen_set_coeff p i v : zlen (set_coeff p i v) = zlen p.
Proof. unfold zlen, set_coeff. by rewrite length_insert. Qed.
#[export] Hint Rewrite zlen_set_coeff : zlen.

Lemma coeff_ext p p' :
  zlen p = zlen p' -> (forall i, 0 <= i < zlen p -> coeff p i = coeff p' i) -> p = p'.
Proof.
  unfold zlen, coeff. intros Hl H. apply list_eq_same_length with (length p'); [done|lia|].
  intros i x y Hi Hx Hy. specialize (H (Z.of_nat i) ltac:(lia)). rewrite Nat2Z.id, Hx, Hy in H. done.
Qed.
Lemma coeff_lookup p i : 0 <= i < zlen p -> p !! Z.to_nat i = Some (coeff p i).
Proof.
  unfold zlen, coeff. intros. destruct (lookup_lt_is_Some_2 p (Z.to_nat i)) as [x ->]; [lia|done].
Qed.
Lemma coeff_zip_with (f : Z -> Z -> Z) p q i :
  0 <= i < zlen p -> zlen p = zlen q -> coeff (zip_with f p q) i = f (coeff p i) (coeff q i).
Proof.
  intros Hi Hl. unfold coeff at 1. rewrite lookup_zip_with, !coeff_lookup by lia. done.
Qed.
Lemma coeff_map (f : Z -> Z) p i : 0 <= i < zlen p -> coeff (f <$> p) i = f (coeff p i).
Proof. intros Hi. unfold coeff at 1. rewrite list_lookup_fmap, coeff_lookup by lia. done. Qed.
Lemma coeff_Forall (P : Z -> Prop) p :
  Forall P p <-> forall i, 0 <= i < zlen p -> P (coeff p i).
Proof.
  rewrite Forall_lookup. split.
  - intros H i Hi. apply (H (Z.to_nat i)). by apply coeff_lookup.
  - intros H i x Hx. pose proof (lookup_lt_Some _ _ _ Hx). specialize (H (Z.of_nat i)).
    unfold coeff, zlen in H. rewrite Nat2Z.id, Hx in H. apply H. lia.
Qed.
Lemma zlen_zip_with (f : Z -> Z -> Z) p q : zlen p = zlen q -> zlen (zip_with f p q) = zlen p.
Proof. unfold zlen. rewrite length_zip_with. lia. Qed.
Lemma zlen_fmap {A B} (f : A -> B) p : zlen (f <$> p) = zlen p.
Proof. unfold zlen. by rewrite length_fmap. Qed.

(** The terms of even and of odd index. *)
Lemma zsum_even_odd f n : zsum f (2 * n) = zsum (fun i => f (2 * i)) n + zsum (fun i => f (2 * i + 1)) n.
Proof.
  induction n as [|n IH]; [done|]. replace (2 * S n)%nat with (S (S (2 * n))) by lia. cbn [zsum]. rewrite IH.
  replace (Z.of_nat (S (2 * n))) with (2 * Z.of_nat n + 1) by lia. replace (Z.of_nat (2 * n)) with (2 * Z.of_nat n) by lia. ring.
Qed.
Lemma coeff_cons x l i : coeff (x :: l) (i + 1) = if 0 <=? i then coeff l i else x.
Proof.
  unfold coeff. destruct (Z.leb_spec 0 i).
  - by replace (Z.to_nat (i + 1)) with (S (Z.to_nat i)) by lia.
  - by replace (Z.to_nat (i + 1)) with 0%nat by lia.
Qed.
Lemma zsum_opp f n : zsum (fun i => - f i) n = - zsum f n.
Proof. induction n as [|n IH]; cbn [zsum]; lia. Qed.
Lemma zsum_first f n : zsum f (S n) = f 0 + zsum (fun i => f (1 + i)) n.
Proof. change (S n) with (1 + n)%nat. rewrite zsum_split. cbn [zsum]. change (Z.of_nat 1) with 1. change (Z.of_nat 0) with 0. lia. Qed.
Lemma zsum_last f n : zsum f (S n) = zsum f n + f (Z.of_nat n).
Proof. done. Qed.
