(* ===== verification/SlhAdrs.v ===== *)
(** * SLH-DSA addresses

    Model of [crypto/slh_dsa/slh_adrs.c] and [slh_adrs.h]: the ADRS buffers of
    FIPS 205 and the two method tables that operate on them, the 32-byte format
    of the SHAKE parameter sets and the compressed 22-byte format of the SHA2
    ones.  Every ADRS variable is a buffer of [SLH_ADRS_SIZE_MAX] bytes.

    The specification of an address is the record [ADRS] of FIPS 205; the class
    [AdrsLaws] says what the rest of SLH-DSA relies on, namely that each method
    is an update of that record, and both tables are instances of it. *)
From S2P Require Import Prelude.
From S2P Require Import ByteOrder.

Definition SLH_ADRS_SIZE : Z := 32.
Definition SLH_ADRSC_SIZE : Z := 22.
Definition SLH_ADRS_SIZE_MAX : Z := SLH_ADRS_SIZE.

Definition SLH_ADRS_TYPE_WOTS_HASH : Z := 0.
Definition SLH_ADRS_TYPE_WOTS_PK : Z := 1.
Definition SLH_ADRS_TYPE_TREE : Z := 2.
Definition SLH_ADRS_TYPE_FORS_TREE : Z := 3.
Definition SLH_ADRS_TYPE_FORS_ROOTS : Z := 4.
Definition SLH_ADRS_TYPE_WOTS_PRF : Z := 5.
Definition SLH_ADRS_TYPE_FORS_PRF : Z := 6.

Record SLH_ADRS_FUNC := mkSLH_ADRS_FUNC {
  set_layer_address : list Z -> Z -> list Z;
  set_tree_address : list Z -> Z -> list Z;
  set_type_and_clear : list Z -> Z -> list Z;
  set_keypair_address : list Z -> Z -> list Z;
  copy_keypair_address : list Z -> list Z -> list Z;
  set_chain_address : list Z -> Z -> list Z;
  set_tree_height : list Z -> Z -> list Z;
  set_hash_address : list Z -> Z -> list Z;
  set_tree_index : list Z -> Z -> list Z;
  adrs_zero : list Z -> list Z;
  adrs_copy : list Z -> list Z -> list Z }.

(** ** Uncompressed addresses *)

Definition SLH_ADRS_OFF_LAYER_ADR : Z := 0.
Definition SLH_ADRS_OFF_TREE_ADR : Z := 4.
Definition SLH_ADRS_OFF_TYPE : Z := 16.
Definition SLH_ADRS_OFF_KEYPAIR_ADDR : Z := 20.
Definition SLH_ADRS_OFF_CHAIN_ADDR : Z := 24.
Definition SLH_ADRS_OFF_HASH_ADDR : Z := 28.
Definition SLH_ADRS_SIZE_TYPE : Z := 4.
Definition SLH_ADRS_SIZE_TYPECLEAR : Z := SLH_ADRS_SIZE - (SLH_ADRS_OFF_TYPE + SLH_ADRS_SIZE_TYPE).
Definition SLH_ADRS_SIZE_KEYPAIR_ADDR : Z := 4.

Definition slh_adrs_set_layer_address (adrs : list Z) (layer : Z) : list Z :=
  OPENSSL_store_u32_be adrs SLH_ADRS_OFF_LAYER_ADR layer.
Definition slh_adrs_set_tree_address (adrs : list Z) (address : Z) : list Z :=
  OPENSSL_store_u64_be adrs (SLH_ADRS_OFF_TREE_ADR + 4) address.
Definition slh_adrs_set_type_and_clear (adrs : list Z) (type : Z) : list Z :=
  splice (OPENSSL_store_u32_be adrs SLH_ADRS_OFF_TYPE type)
    (SLH_ADRS_OFF_TYPE + SLH_ADRS_SIZE_TYPE) (zeros SLH_ADRS_SIZE_TYPECLEAR).
Definition slh_adrs_set_keypair_address (adrs : list Z) (i : Z) : list Z :=
  OPENSSL_store_u32_be adrs SLH_ADRS_OFF_KEYPAIR_ADDR i.
Definition slh_adrs_copy_keypair_address (dst src : list Z) : list Z :=
  splice dst SLH_ADRS_OFF_KEYPAIR_ADDR
    (slice src SLH_ADRS_OFF_KEYPAIR_ADDR SLH_ADRS_SIZE_KEYPAIR_ADDR).
Definition slh_adrs_set_chain_address (adrs : list Z) (i : Z) : list Z :=
  OPENSSL_store_u32_be adrs SLH_ADRS_OFF_CHAIN_ADDR i.
Definition slh_adrs_set_hash_address (adrs : list Z) (i : Z) : list Z :=
  OPENSSL_store_u32_be adrs SLH_ADRS_OFF_HASH_ADDR i.
Definition slh_adrs_zero (adrs : list Z) : list Z := splice adrs 0 (zeros SLH_ADRS_SIZE).
Definition slh_adrs_copy (dst src : list Z) : list Z := splice dst 0 (slice src 0 SLH_ADRS_SIZE).
Definition slh_adrs_set_tree_height := slh_adrs_set_chain_address.
Definition slh_adrs_set_tree_index := slh_adrs_set_hash_address.

(** ** Compressed addresses *)

Definition SLH_ADRSC_OFF_LAYER_ADR : Z := 0.
Definition SLH_ADRSC_OFF_TREE_ADR : Z := 1.
Definition SLH_ADRSC_OFF_TYPE : Z := 9.
Definition SLH_ADRSC_OFF_KEYPAIR_ADDR : Z := 10.
Definition SLH_ADRSC_OFF_CHAIN_ADDR : Z := 14.
Definition SLH_ADRSC_OFF_HASH_ADDR : Z := 18.
Definition SLH_ADRSC_SIZE_TYPE : Z := 1.
Definition SLH_ADRSC_SIZE_TYPECLEAR : Z := SLH_ADRS_SIZE_TYPECLEAR.
Definition SLH_ADRSC_SIZE_KEYPAIR_ADDR : Z := SLH_ADRS_SIZE_KEYPAIR_ADDR.

Definition slh_adrsc_set_layer_address (adrsc : list Z) (layer : Z) : list Z :=
  splice adrsc SLH_ADRSC_OFF_LAYER_ADR [u8 layer].
Definition slh_adrsc_set_tree_address (adrsc : list Z) (i : Z) : list Z :=
  OPENSSL_store_u64_be adrsc SLH_ADRSC_OFF_TREE_ADR i.
Definition slh_adrsc_set_type_and_clear (adrsc : list Z) (type : Z) : list Z :=
  splice (splice adrsc SLH_ADRSC_OFF_TYPE [u8 type])
    (SLH_ADRSC_OFF_TYPE + SLH_ADRSC_SIZE_TYPE) (zeros SLH_ADRSC_SIZE_TYPECLEAR).
Definition slh_adrsc_set_keypair_address (adrsc : list Z) (i : Z) : list Z :=
  OPENSSL_store_u32_be adrsc SLH_ADRSC_OFF_KEYPAIR_ADDR i.
Definition slh_adrsc_copy_keypair_address (dst src : list Z) : list Z :=
  splice dst SLH_ADRSC_OFF_KEYPAIR_ADDR
    (slice src SLH_ADRSC_OFF_KEYPAIR_ADDR SLH_ADRSC_SIZE_KEYPAIR_ADDR).
Definition slh_adrsc_set_chain_address (adrsc : list Z) (i : Z) : list Z :=
  OPENSSL_store_u32_be adrsc SLH_ADRSC_OFF_CHAIN_ADDR i.
Definition slh_adrsc_set_hash_address (adrsc : list Z) (i : Z) : list Z :=
  OPENSSL_store_u32_be adrsc SLH_ADRSC_OFF_HASH_ADDR i.
Definition slh_adrsc_zero (adrsc : list Z) : list Z := splice adrsc 0 (zeros SLH_ADRSC_SIZE).
Definition slh_adrsc_copy (dst src : list Z) : list Z := splice dst 0 (slice src 0 SLH_ADRSC_SIZE).
Definition slh_adrsc_set_tree_height := slh_adrsc_set_chain_address.
Definition slh_adrsc_set_tree_index := slh_adrsc_set_hash_address.

Definition slh_adrs_methods : SLH_ADRS_FUNC :=
  mkSLH_ADRS_FUNC slh_adrs_set_layer_address slh_adrs_set_tree_address slh_adrs_set_type_and_clear
    slh_adrs_set_keypair_address slh_adrs_copy_keypair_address slh_adrs_set_chain_address
    slh_adrs_set_tree_height slh_adrs_set_hash_address slh_adrs_set_tree_index slh_adrs_zero
    slh_adrs_copy.
Definition slh_adrsc_methods : SLH_ADRS_FUNC :=
  mkSLH_ADRS_FUNC slh_adrsc_set_layer_address slh_adrsc_set_tree_address slh_adrsc_set_type_and_clear
    slh_adrsc_set_keypair_address slh_adrsc_copy_keypair_address slh_adrsc_set_chain_address
    slh_adrsc_set_tree_height slh_adrsc_set_hash_address slh_adrsc_set_tree_index slh_adrsc_zero
    slh_adrsc_copy.

Definition ossl_slh_get_adrs_fn (is_compressed : Z) : SLH_ADRS_FUNC :=
  if is_compressed =? 0 then slh_adrs_methods else slh_adrsc_methods.

(** ** The FIPS 205 view *)

(** [a_w1]: key pair address; [a_w2]: chain address or tree height; [a_w3]: hash
    address or tree index. *)
Record ADRS := mkADRS { a_layer : Z; a_tree : Z; a_type : Z; a_w1 : Z; a_w2 : Z; a_w3 : Z }.

Definition adrs0 : ADRS := mkADRS 0 0 0 0 0 0.
Definition with_layer (x : Z) (v : ADRS) := mkADRS x (a_tree v) (a_type v) (a_w1 v) (a_w2 v) (a_w3 v).
Definition with_tree (x : Z) (v : ADRS) := mkADRS (a_layer v) x (a_type v) (a_w1 v) (a_w2 v) (a_w3 v).
(** Changing the type clears the last three words. *)
Definition with_type (x : Z) (v : ADRS) := mkADRS (a_layer v) (a_tree v) x 0 0 0.
Definition with_w1 (x : Z) (v : ADRS) := mkADRS (a_layer v) (a_tree v) (a_type v) x (a_w2 v) (a_w3 v).
Definition with_w2 (x : Z) (v : ADRS) := mkADRS (a_layer v) (a_tree v) (a_type v) (a_w1 v) x (a_w3 v).
Definition with_w3 (x : Z) (v : ADRS) := mkADRS (a_layer v) (a_tree v) (a_type v) (a_w1 v) (a_w2 v) x.

Definition enc_adrs (v : ADRS) : list Z :=
  be_bytes 4 (a_layer v) ++ be_bytes 12 (a_tree v) ++ be_bytes 4 (a_type v) ++
  be_bytes 4 (a_w1 v) ++ be_bytes 4 (a_w2 v) ++ be_bytes 4 (a_w3 v).
Definition enc_adrsc (v : ADRS) : list Z :=
  be_bytes 1 (a_layer v) ++ be_bytes 8 (a_tree v) ++ be_bytes 1 (a_type v) ++
  be_bytes 4 (a_w1 v) ++ be_bytes 4 (a_w2 v) ++ be_bytes 4 (a_w3 v).

(** What the other components rely on: [enc] are the bytes the hash functions
    see, and every method is an update of the record. *)
Class AdrsLaws (f : SLH_ADRS_FUNC) (enc : ADRS -> list Z) (rep : list Z -> ADRS -> Prop) : Prop := {
  rep_bytes a v : rep a v -> slice a 0 (zlen (enc v)) = enc v;
  rep_zero a : length a = 32%nat -> rep (adrs_zero f a) adrs0;
  rep_copy dst src v : length dst = 32%nat -> rep src v -> rep (adrs_copy f dst src) v;
  rep_layer a v x : rep a v -> 0 <= x < 256 -> rep (set_layer_address f a x) (with_layer x v);
  rep_tree a v x :
    rep a v -> 0 <= x < 18446744073709551616 -> rep (set_tree_address f a x) (with_tree x v);
  rep_type a v x : rep a v -> 0 <= x < 256 -> rep (set_type_and_clear f a x) (with_type x v);
  rep_keypair a v x : rep a v -> 0 <= x < 4294967296 -> rep (set_keypair_address f a x) (with_w1 x v);
  rep_copy_keypair dst u src v :
    rep dst u -> rep src v -> rep (copy_keypair_address f dst src) (with_w1 (a_w1 v) u);
  rep_chain a v x : rep a v -> 0 <= x < 4294967296 -> rep (set_chain_address f a x) (with_w2 x v);
  rep_height a v x : rep a v -> 0 <= x < 4294967296 -> rep (set_tree_height f a x) (with_w2 x v);
  rep_hash a v x : rep a v -> 0 <= x < 4294967296 -> rep (set_hash_address f a x) (with_w3 x v);
  rep_index a v x : rep a v -> 0 <= x < 4294967296 -> rep (set_tree_index f a x) (with_w3 x v);
  rep_length a v : rep a v -> length a = 32%nat }.

Definition adrs_range (v : ADRS) : Prop :=
  0 <= a_tree v < 18446744073709551616.

(** ** Both tables satisfy the laws

    The two formats differ in the widths of the layer and type fields and in
    the padding in front of the tree address; the section proves the laws for a
    format with the given widths. *)

Section Layout.
Context (L P T : nat) (HLPT : (L + P + 8 + T + 12 <= 32)%nat).

Definition lay_size : nat := (L + P + 8 + T + 12)%nat.
Definition lay_enc (v : ADRS) : list Z :=
  be_bytes L (a_layer v) ++ replicate P 0 ++ be_bytes 8 (a_tree v) ++ be_bytes T (a_type v) ++
  be_bytes 4 (a_w1 v) ++ be_bytes 4 (a_w2 v) ++ be_bytes 4 (a_w3 v).
Definition lay_rep (a : list Z) (v : ADRS) : Prop :=
  length a = 32%nat /\ take lay_size a = lay_enc v.

(** Close the goals about lengths of concatenated fields. *)
Ltac enc_len :=
  unfold zlen; rewrite ?length_app, ?length_replicate, ?be_bytes_length; lia.

Lemma lay_enc_length v : length (lay_enc v) = lay_size.
Proof. unfold lay_enc, lay_size. rewrite !length_app, !length_replicate, !be_bytes_length. lia. Qed.

(** Overwriting one field of an encoding. *)
Lemma lay_field a v v' off d pre old post :
  lay_rep a v -> lay_enc v = pre ++ old ++ post -> lay_enc v' = pre ++ d ++ post ->
  off = zlen pre -> length d = length old -> lay_rep (splice a off d) v'.
Proof.
  intros [Hl Ht] Hv Hv' -> Hd. pose proof (lay_enc_length v) as Hlen. unfold lay_size in *.
  rewrite Hv, !length_app in Hlen. split.
  - rewrite <- Hl. apply splice_length; unfold zlen; lia.
  - rewrite Hv'. apply (take_splice_mid a pre old post d); [by unfold lay_size; rewrite Ht|]. unfold zlen; lia.
Qed.

Lemma lay_whole a d v :
  length a = 32%nat -> d = lay_enc v -> lay_rep (splice a 0 d) v.
Proof.
  intros Ha ->. pose proof (lay_enc_length v) as Hlen. split.
  - rewrite <- Ha. apply splice_length; [lia|]. unfold zlen. rewrite Hlen. unfold lay_size. lia.
  - unfold splice. simpl. rewrite <- Hlen. apply take_app_length.
Qed.

Lemma lay_layer a v x : lay_rep a v -> lay_rep (splice a 0 (be_bytes L x)) (with_layer x v).
Proof. intros Hr. eapply (lay_field _ _ _ _ _ [] _ _ Hr); [done|done|done|enc_len]. Qed.
Lemma lay_tree a v x :
  lay_rep a v -> lay_rep (splice a (Z.of_nat (L + P)) (be_bytes 8 x)) (with_tree x v).
Proof.
  intros Hr. unfold lay_enc.
  eapply (lay_field _ _ _ _ _ (be_bytes L (a_layer v) ++ replicate P 0) (be_bytes 8 (a_tree v)) _ Hr);
    unfold lay_enc; [by rewrite <- !app_assoc|by rewrite <- !app_assoc|enc_len|enc_len].
Qed.
Lemma lay_type a v x :
  lay_rep a v ->
  lay_rep (splice (splice a (Z.of_nat (L + P + 8)) (be_bytes T x)) (Z.of_nat (L + P + 8 + T)) (zeros 12))
    (with_type x v).
Proof.
  intros Hr. set (pre := be_bytes L (a_layer v) ++ replicate P 0 ++ be_bytes 8 (a_tree v)).
  set (v1 := mkADRS (a_layer v) (a_tree v) x (a_w1 v) (a_w2 v) (a_w3 v)).
  assert (lay_rep (splice a (Z.of_nat (L + P + 8)) (be_bytes T x)) v1) as Hr1.
  { eapply (lay_field _ _ _ _ _ pre (be_bytes T (a_type v)) _ Hr); unfold lay_enc, pre;
      [by rewrite <- !app_assoc|by rewrite <- !app_assoc|enc_len|enc_len]. }
  eapply (lay_field _ v1 _ _ _ (pre ++ be_bytes T x)
    (be_bytes 4 (a_w1 v) ++ be_bytes 4 (a_w2 v) ++ be_bytes 4 (a_w3 v)) [] Hr1); unfold lay_enc, pre.
  - by rewrite <- !app_assoc, app_nil_r.
  - simpl. rewrite !be_bytes_0. by rewrite <- !app_assoc.
  - enc_len.
  - rewrite !length_app, !be_bytes_length. done.
Qed.
Definition lay_head (v : ADRS) : list Z :=
  be_bytes L (a_layer v) ++ replicate P 0 ++ be_bytes 8 (a_tree v) ++ be_bytes T (a_type v).
Lemma lay_w1 a v x :
  lay_rep a v -> lay_rep (splice a (Z.of_nat (L + P + 8 + T)) (be_bytes 4 x)) (with_w1 x v).
Proof.
  intros Hr. eapply (lay_field _ _ _ _ _ (lay_head v) (be_bytes 4 (a_w1 v)) _ Hr); unfold lay_enc, lay_head;
    [by rewrite <- !app_assoc|by rewrite <- !app_assoc|enc_len|enc_len].
Qed.
Lemma lay_w2 a v x :
  lay_rep a v -> lay_rep (splice a (Z.of_nat (L + P + 8 + T + 4)) (be_bytes 4 x)) (with_w2 x v).
Proof.
  intros Hr. eapply (lay_field _ _ _ _ _ (lay_head v ++ be_bytes 4 (a_w1 v)) (be_bytes 4 (a_w2 v)) _ Hr);
    unfold lay_enc, lay_head; [by rewrite <- !app_assoc|by rewrite <- !app_assoc|enc_len|enc_len].
Qed.
Lemma lay_w3 a v x :
  lay_rep a v -> lay_rep (splice a (Z.of_nat (L + P + 8 + T + 8)) (be_bytes 4 x)) (with_w3 x v).
Proof.
  intros Hr. eapply (lay_field _ _ _ _ _ (lay_head v ++ be_bytes 4 (a_w1 v) ++ be_bytes 4 (a_w2 v))
    (be_bytes 4 (a_w3 v)) [] Hr);
    unfold lay_enc, lay_head;
    [by rewrite <- !app_assoc, app_nil_r|by rewrite <- !app_assoc, app_nil_r|enc_len|enc_len].
Qed.
Lemma lay_keypair_bytes a v :
  lay_rep a v -> slice a (Z.of_nat (L + P + 8 + T)) 4 = be_bytes 4 (a_w1 v).
Proof.
  intros [Hl Ht]. pose proof (lay_enc_length v) as Hlen.
  assert (slice a (Z.of_nat (L + P + 8 + T)) 4 = slice (lay_enc v) (Z.of_nat (L + P + 8 + T)) 4) as ->.
  { rewrite <- (take_drop lay_size a) at 1. rewrite Ht, slice_app_l; [done|lia|lia|].
    unfold zlen. rewrite Hlen. unfold lay_size. lia. }
  assert (lay_enc v = lay_head v ++ be_bytes 4 (a_w1 v) ++ be_bytes 4 (a_w2 v) ++ be_bytes 4 (a_w3 v)) as ->
    by (unfold lay_enc, lay_head; by rewrite <- !app_assoc).
  assert (length (lay_head v) = L + P + 8 + T)%nat as Hh by (unfold lay_head; enc_len).
  unfold slice. rewrite Nat2Z.id, <- Hh, drop_app_length. apply take_app_length'. by rewrite be_bytes_length.
Qed.
Lemma lay_bytes a v : lay_rep a v -> slice a 0 (Z.of_nat lay_size) = lay_enc v.
Proof. intros [_ Ht]. unfold slice. rewrite Nat2Z.id. exact Ht. Qed.
End Layout.

Lemma enc_adrs_layout v : adrs_range v -> enc_adrs v = lay_enc 4 4 4 v.
Proof.
  intros Hr. unfold enc_adrs, lay_enc. rewrite (be_bytes_add 4 8).
  rewrite Z.div_small by (unfold adrs_range in Hr; simpl; lia). rewrite be_bytes_0. by rewrite <- !app_assoc.
Qed.
Lemma enc_adrsc_layout v : enc_adrsc v = lay_enc 1 0 1 v.
Proof. done. Qed.

Lemma u8_byte x : [u8 x] = be_bytes 1 x.
Proof. done. Qed.

Definition rep_adrs (a : list Z) (v : ADRS) : Prop := lay_rep 4 4 4 a v /\ adrs_range v.
Definition rep_adrsc (a : list Z) (v : ADRS) : Prop := lay_rep 1 0 1 a v /\ adrs_range v.

Ltac adrs_unfold :=
  cbn [set_layer_address set_tree_address set_type_and_clear
    set_keypair_address copy_keypair_address set_chain_address set_tree_height set_hash_address
    set_tree_index adrs_zero adrs_copy slh_adrs_methods slh_adrsc_methods];
  unfold slh_adrs_set_tree_height, slh_adrs_set_tree_index, slh_adrsc_set_tree_height,
    slh_adrsc_set_tree_index,
    slh_adrs_set_layer_address, slh_adrs_set_tree_address, slh_adrs_set_type_and_clear,
    slh_adrs_set_keypair_address, slh_adrs_copy_keypair_address, slh_adrs_set_chain_address,
    slh_adrs_set_hash_address, slh_adrsc_set_layer_address, slh_adrsc_set_tree_address,
    slh_adrsc_set_type_and_clear, slh_adrsc_set_keypair_address, slh_adrsc_copy_keypair_address,
    slh_adrsc_set_chain_address, slh_adrsc_set_hash_address,
    OPENSSL_store_u32_be, OPENSSL_store_u64_be;
  rewrite ?u32_be_eq, ?u64_be_eq, ?u8_byte.

#[export] Instance slh_adrs_laws : AdrsLaws slh_adrs_methods enc_adrs rep_adrs.
Proof.
  split; unfold rep_adrs.
  - intros a v [Hl Hr]. rewrite enc_adrs_layout by done. unfold zlen. rewrite lay_enc_length by lia.
    by apply lay_bytes.
  - intros a Ha. adrs_unfold. split; [|unfold adrs_range; simpl; lia]. apply lay_whole; [lia|done|done].
  - intros dst src v Hd [Hl Hr]. adrs_unfold. split; [|done].
    apply lay_whole; [lia|done|]. apply (lay_bytes 4 4 4); first [done|lia].
  - intros a v x [Hl Hr] _. adrs_unfold. split; [|done]. apply (lay_layer 4 4 4); first [done|lia].
  - intros a v x [Hl Hr] Hx. adrs_unfold. split; [|done]. apply (lay_tree 4 4 4); first [done|lia].
  - intros a v x [Hl Hr] _. adrs_unfold. split; [|done]. apply (lay_type 4 4 4); first [done|lia].
  - intros a v x [Hl Hr] _. adrs_unfold. split; [|done]. apply (lay_w1 4 4 4); first [done|lia].
  - intros dst u src v [Hl Hr] [Hl' _]. adrs_unfold. split; [|done].
    pose proof (lay_keypair_bytes 4 4 4 ltac:(lia) src v Hl') as Hk.
    change (slice src SLH_ADRS_OFF_KEYPAIR_ADDR SLH_ADRS_SIZE_KEYPAIR_ADDR = be_bytes 4 (a_w1 v)) in Hk.
    rewrite Hk. apply (lay_w1 4 4 4); first [done|lia].
  - intros a v x [Hl Hr] _. adrs_unfold. split; [|done]. apply (lay_w2 4 4 4); first [done|lia].
  - intros a v x [Hl Hr] _. adrs_unfold. split; [|done]. apply (lay_w2 4 4 4); first [done|lia].
  - intros a v x [Hl Hr] _. adrs_unfold. split; [|done]. apply (lay_w3 4 4 4); first [done|lia].
  - intros a v x [Hl Hr] _. adrs_unfold. split; [|done]. apply (lay_w3 4 4 4); first [done|lia].
  - by intros a v [[Hl _] _].
Qed.

#[export] Instance slh_adrsc_laws : AdrsLaws slh_adrsc_methods enc_adrsc rep_adrsc.
Proof.
  split; unfold rep_adrsc.
  - intros a v [Hl Hr]. rewrite enc_adrsc_layout by done. unfold zlen. rewrite lay_enc_length by lia.
    by apply lay_bytes.
  - intros a Ha. adrs_unfold. split; [|unfold adrs_range; simpl; lia]. apply lay_whole; [lia|done|done].
  - intros dst src v Hd [Hl Hr]. adrs_unfold. split; [|done].
    apply lay_whole; [lia|done|]. apply (lay_bytes 1 0 1); first [done|lia].
  - intros a v x [Hl Hr] _. adrs_unfold. split; [|done]. apply (lay_layer 1 0 1); first [done|lia].
  - intros a v x [Hl Hr] Hx. adrs_unfold. split; [|done]. apply (lay_tree 1 0 1); first [done|lia].
  - intros a v x [Hl Hr] _. adrs_unfold. split; [|done]. apply (lay_type 1 0 1); first [done|lia].
  - intros a v x [Hl Hr] _. adrs_unfold. split; [|done]. apply (lay_w1 1 0 1); first [done|lia].
  - intros dst u src v [Hl Hr] [Hl' _]. adrs_unfold. split; [|done].
    pose proof (lay_keypair_bytes 1 0 1 ltac:(lia) src v Hl') as Hk.
    change (slice src SLH_ADRSC_OFF_KEYPAIR_ADDR SLH_ADRSC_SIZE_KEYPAIR_ADDR = be_bytes 4 (a_w1 v)) in Hk.
    rewrite Hk. apply (lay_w1 1 0 1); first [done|lia].
  - intros a v x [Hl Hr] _. adrs_unfold. split; [|done]. apply (lay_w2 1 0 1); first [done|lia].
  - intros a v x [Hl Hr] _. adrs_unfold. split; [|done]. apply (lay_w2 1 0 1); first [done|lia].
  - intros a v x [Hl Hr] _. adrs_unfold. split; [|done]. apply (lay_w3 1 0 1); first [done|lia].
  - intros a v x [Hl Hr] _. adrs_unfold. split; [|done]. apply (lay_w3 1 0 1); first [done|lia].
  - by intros a v [[Hl _] _].
Qed.

(** ** Properties *)

Lemma be_bytes_inj n x y :
  0 <= x < 256 ^ Z.of_nat n -> 0 <= y < 256 ^ Z.of_nat n -> be_bytes n x = be_bytes n y -> x = y.
Proof.
  intros Hx Hy E. apply (f_equal be_val) in E. by rewrite !be_val_bytes, !Z.mod_small in E.
Qed.

(** The ranges in which both formats keep every field. *)
Definition adrs_fits (v : ADRS) : Prop :=
  0 <= a_layer v < 256 /\ 0 <= a_tree v < 18446744073709551616 /\ 0 <= a_type v < 256 /\
  0 <= a_w1 v < 4294967296 /\ 0 <= a_w2 v < 4294967296 /\ 0 <= a_w3 v < 4294967296.

Lemma lay_enc_inj L P T v v' :
  (1 <= L)%nat -> (1 <= T)%nat -> adrs_fits v -> adrs_fits v' -> lay_enc L P T v = lay_enc L P T v' -> v = v'.
Proof.
  intros HL HT (Hl & Ht & Hty & H1 & H2 & H3) (Hl' & Ht' & Hty' & H1' & H2' & H3') E.
  assert (forall n, (1 <= n)%nat -> 256 <= 256 ^ Z.of_nat n) as Hp.
  { intros n Hn. change 256 with (256 ^ 1) at 1. apply Z.pow_le_mono_r; lia. }
  pose proof (Hp L HL). pose proof (Hp T HT). unfold lay_enc in E.
  apply app_inj_1 in E as [E1 E]; [|by rewrite !be_bytes_length].
  apply app_inj_1 in E as [_ E]; [|done].
  apply app_inj_1 in E as [E2 E]; [|by rewrite !be_bytes_length].
  apply app_inj_1 in E as [E3 E]; [|by rewrite !be_bytes_length].
  apply app_inj_1 in E as [E4 E]; [|by rewrite !be_bytes_length].
  apply app_inj_1 in E as [E5 E6]; [|by rewrite !be_bytes_length].
  apply be_bytes_inj in E1, E2, E3, E4, E5, E6; try lia; try (simpl; lia).
  destruct v, v'; simpl in *. by subst.
Qed.

(** C24: both ADRS method tables of [ossl_slh_get_adrs_fn] implement the FIPS 205
    address record.  The bytes the hash functions see are the record's encoding
    (32 bytes, or 22 for the compressed table); zeroing, copying and every setter
    act on the buffer as the record update they are named after, [set_type_and_clear]
    clearing the last three words and [copy_keypair_address] copying only the key
    pair word. *)
Theorem adrs_tables_correct :
  AdrsLaws (ossl_slh_get_adrs_fn 0) enc_adrs rep_adrs /\
  AdrsLaws (ossl_slh_get_adrs_fn 1) enc_adrsc rep_adrsc.
Proof. split; [exact slh_adrs_laws|exact slh_adrsc_laws]. Qed.

(** Addresses separate domains.  Two addresses that differ in any field have
    different encodings in either format, so no two hash calls of a key share an
    ADRS input by accident of the encoding. *)
Lemma adrs_encoding_injective v v' :
  adrs_fits v -> adrs_fits v' ->
  (enc_adrs v = enc_adrs v' -> v = v') /\ (enc_adrsc v = enc_adrsc v' -> v = v').
Proof.
  intros Hv Hv'. split.
  - rewrite !enc_adrs_layout by (unfold adrs_range; first [apply Hv|apply Hv']).
    apply lay_enc_inj; auto; lia.
  - rewrite !enc_adrsc_layout. apply lay_enc_inj; auto; lia.
Qed.

Lemma adrs_encoding_injective_witness :
  enc_adrsc (mkADRS 1 2 3 4 5 6) <> enc_adrsc (mkADRS 1 2 3 4 6 5).
Proof.
  intros E. pose proof (proj2 (adrs_encoding_injective (mkADRS 1 2 3 4 5 6) (mkADRS 1 2 3 4 6 5)
    ltac:(unfold adrs_fits; simpl; lia) ltac:(unfold adrs_fits; simpl; lia)) E) as H. discriminate H.
Defined.
