(* ===== verification/SlhParams.v ===== *)
(** * SLH-DSA parameter sets

    The table of [crypto/slh_dsa/slh_params.c] and its lookup by name. *)
From S2P Require Import Prelude.

Record SLH_DSA_PARAMS := mkSLH_DSA_PARAMS {
  p_alg : string; p_type : Z; p_is_shake : bool;
  p_n : Z; p_h : Z; p_d : Z; p_hm : Z; p_a : Z; p_k : Z; p_m : Z;
  p_security_category : Z; p_pk_len : Z; p_sig_len : Z; p_sha2_h_and_t_bound : Z }.

Definition OSSL_SLH_DSA_SHA2_NUM_ZEROS_H_AND_T_BOUND1 : Z := 64.
Definition OSSL_SLH_DSA_SHA2_NUM_ZEROS_H_AND_T_BOUND2 : Z := 128.

(** The columns n, h, d, h', a, k, m, category, public key and signature bytes. *)
Definition OSSL_SLH_PARAMS_128S (alg : string) (type : Z) (is_shake : bool) (bound : Z) : SLH_DSA_PARAMS :=
  mkSLH_DSA_PARAMS alg type is_shake 16 (7 * 9) 7 9 12 14 30 1 32 7856 bound.
Definition OSSL_SLH_PARAMS_128F (alg : string) (type : Z) (is_shake : bool) (bound : Z) : SLH_DSA_PARAMS :=
  mkSLH_DSA_PARAMS alg type is_shake 16 (22 * 3) 22 3 6 33 34 1 32 17088 bound.
Definition OSSL_SLH_PARAMS_192S (alg : string) (type : Z) (is_shake : bool) (bound : Z) : SLH_DSA_PARAMS :=
  mkSLH_DSA_PARAMS alg type is_shake 24 (7 * 9) 7 9 14 17 39 3 48 16224 bound.
Definition OSSL_SLH_PARAMS_192F (alg : string) (type : Z) (is_shake : bool) (bound : Z) : SLH_DSA_PARAMS :=
  mkSLH_DSA_PARAMS alg type is_shake 24 (22 * 3) 22 3 8 33 42 3 48 35664 bound.
Definition OSSL_SLH_PARAMS_256S (alg : string) (type : Z) (is_shake : bool) (bound : Z) : SLH_DSA_PARAMS :=
  mkSLH_DSA_PARAMS alg type is_shake 32 (8 * 8) 8 8 14 22 47 5 64 29792 bound.
Definition OSSL_SLH_PARAMS_256F (alg : string) (type : Z) (is_shake : bool) (bound : Z) : SLH_DSA_PARAMS :=
  mkSLH_DSA_PARAMS alg type is_shake 32 (17 * 4) 17 4 9 35 49 5 64 49856 bound.

(** The rows up to the terminator; the SHAKE rows leave the last member 0. *)
Definition slh_dsa_params : list SLH_DSA_PARAMS :=
  [OSSL_SLH_PARAMS_128S "SLH-DSA-SHA2-128s" 1460 false OSSL_SLH_DSA_SHA2_NUM_ZEROS_H_AND_T_BOUND1;
   OSSL_SLH_PARAMS_128S "SLH-DSA-SHAKE-128s" 1466 true 0;
   OSSL_SLH_PARAMS_128F "SLH-DSA-SHA2-128f" 1461 false OSSL_SLH_DSA_SHA2_NUM_ZEROS_H_AND_T_BOUND1;
   OSSL_SLH_PARAMS_128F "SLH-DSA-SHAKE-128f" 1467 true 0;
   OSSL_SLH_PARAMS_192S "SLH-DSA-SHA2-192s" 1462 false OSSL_SLH_DSA_SHA2_NUM_ZEROS_H_AND_T_BOUND2;
   OSSL_SLH_PARAMS_192S "SLH-DSA-SHAKE-192s" 1468 true 0;
   OSSL_SLH_PARAMS_192F "SLH-DSA-SHA2-192f" 1463 false OSSL_SLH_DSA_SHA2_NUM_ZEROS_H_AND_T_BOUND2;
   OSSL_SLH_PARAMS_192F "SLH-DSA-SHAKE-192f" 1469 true 0;
   OSSL_SLH_PARAMS_256S "SLH-DSA-SHA2-256s" 1464 false OSSL_SLH_DSA_SHA2_NUM_ZEROS_H_AND_T_BOUND2;
   OSSL_SLH_PARAMS_256S "SLH-DSA-SHAKE-256s" 1470 true 0;
   OSSL_SLH_PARAMS_256F "SLH-DSA-SHA2-256f" 1465 false OSSL_SLH_DSA_SHA2_NUM_ZEROS_H_AND_T_BOUND2;
   OSSL_SLH_PARAMS_256F "SLH-DSA-SHAKE-256f" 1471 true 0].

Definition ossl_slh_dsa_params_get (alg : string) : option SLH_DSA_PARAMS :=
  List.find (fun p => String.eqb (p_alg p) alg) slh_dsa_params.

(** ** Consistency of the table *)

(** The relations between the columns that FIPS 205 section 11 gives and the
    code relies on; [wots_len] is [SLH_WOTS_LEN(n)]. *)
Definition wots_len (n : Z) : Z := 2 * n + 3.
Definition md_len (p : SLH_DSA_PARAMS) : Z := Z.shiftr (p_k p * p_a p + 7) 3.
Definition params_ok (p : SLH_DSA_PARAMS) : Prop :=
  (p_n p = 16 \/ p_n p = 24 \/ p_n p = 32) /\
  1 <= p_d p <= 22 /\ 3 <= p_hm p <= 9 /\ p_h p = p_d p * p_hm p /\
  6 <= p_a p <= 14 /\ 14 <= p_k p <= 35 /\ p_k p * 2 ^ p_a p < 2 ^ 32 /\
  54 <= p_h p - p_hm p <= 64 /\
  p_m p = md_len p + (p_h p - p_hm p + 7) / 8 + (p_hm p + 7) / 8 /\ p_m p <= 49 /\
  p_pk_len p = 2 * p_n p /\
  p_sig_len p = p_n p + p_k p * (p_a p + 1) * p_n p + (p_h p + p_d p * wots_len (p_n p)) * p_n p /\
  (p_is_shake p = false ->
     p_n p <= p_sha2_h_and_t_bound p <= 128 /\
     p_n p <= (if p_security_category p =? 1 then 32 else 64)).
Lemma params_m p : params_ok p -> 0 <= p_m p <= 64.
Proof.
  intros (_ & ? & ? & ? & ? & ? & _ & ? & E & ? & _). split; [|lia]. rewrite E. unfold md_len.
  assert (0 <= Z.shiftr (p_k p * p_a p + 7) 3) by (apply Z.shiftr_nonneg; nia). dlia.
Qed.

Definition params_okb (p : SLH_DSA_PARAMS) : bool :=
  ((p_n p =? 16) || (p_n p =? 24) || (p_n p =? 32)) &&
  (1 <=? p_d p) && (p_d p <=? 22) && (3 <=? p_hm p) && (p_hm p <=? 9) &&
  (p_h p =? p_d p * p_hm p) && (6 <=? p_a p) && (p_a p <=? 14) && (14 <=? p_k p) && (p_k p <=? 35) &&
  (p_k p * 2 ^ p_a p <? 2 ^ 32) && (54 <=? p_h p - p_hm p) && (p_h p - p_hm p <=? 64) &&
  (p_m p =? md_len p + (p_h p - p_hm p + 7) / 8 + (p_hm p + 7) / 8) && (p_m p <=? 49) &&
  (p_pk_len p =? 2 * p_n p) &&
  (p_sig_len p =? p_n p + p_k p * (p_a p + 1) * p_n p + (p_h p + p_d p * wots_len (p_n p)) * p_n p) &&
  (p_is_shake p ||
   ((p_n p <=? p_sha2_h_and_t_bound p) && (p_sha2_h_and_t_bound p <=? 128) &&
    (p_n p <=? (if p_security_category p =? 1 then 32 else 64)))).

Lemma params_okb_ok p : params_okb p = true -> params_ok p.
Proof.
  unfold params_okb, params_ok. rewrite !andb_true_iff, !orb_true_iff, !andb_true_iff.
  rewrite !Z.eqb_eq, !Z.leb_le, !Z.ltb_lt. intros H. destruct_and! H. split_and!; try tauto.
  intros Hs. destruct H1 as [H1|H1]; [congruence|]. lia.
Qed.

Lemma slh_dsa_params_ok : Forall params_ok slh_dsa_params.
Proof.
  apply Forall_forall. intros p Hp. apply params_okb_ok.
  assert (forallb params_okb slh_dsa_params = true) as H by (by vm_compute).
  rewrite forallb_forall in H. apply H. by apply list_elem_of_In.
Qed.

Lemma params_get_ok alg p : ossl_slh_dsa_params_get alg = Some p -> params_ok p /\ p_alg p = alg.
Proof.
  intros H. unfold ossl_slh_dsa_params_get in H. apply List.find_some in H as [Hin Heq].
  split; [|by apply String.eqb_eq]. pose proof slh_dsa_params_ok as Hall. rewrite Forall_forall in Hall.
  apply Hall. by apply list_elem_of_In.
Qed.
