(* ===== verification/SlhHash.v ===== *)
(** * SLH-DSA keys, hash contexts and hash functions

    Model of [crypto/slh_dsa/slh_hash.c], [slh_dsa_hash_ctx.c], the structures
    of [slh_dsa_key.h] and [slh_dsa_local.h], and of [PKCS1_MGF1] of
    [crypto/rsa/rsa_oaep.c].

    The message digests and HMAC behind the EVP interface are a parameter, the
    class [EVP]; [EVPLaws] is the documented behaviour the code relies on (the
    calls succeed and return byte strings of the advertised lengths).  A digest
    operation of the code is always a complete run
    [EVP_DigestInit_ex2]; [EVP_DigestUpdate]...; [EVP_DigestFinal*], so the class
    has one operation per such run, applied to the list of the updates. *)
From S2P Require Import Prelude.
From S2P Require Import ByteOrder.
From S2P Require Import Packet.
From S2P Require Import WPacket.
From S2P Require Import SlhAdrs.
From S2P Require Import SlhParams.

Inductive EVP_MD := SHAKE_256 | SHA2_256 | SHA2_512.
#[export] Instance EVP_MD_eq_dec : EqDecision EVP_MD.
Proof. solve_decision. Defined.

Class EVP := {
  (** [Init; Update...; EVP_DigestFinal_ex], [None] on failure *)
  evp_digest : EVP_MD -> list (list Z) -> option (list Z);
  (** [Init; Update...; EVP_DigestFinalXOF(out, len)] *)
  evp_xof : EVP_MD -> list (list Z) -> Z -> option (list Z);
  (** [EVP_MAC_init(key); EVP_MAC_update...; EVP_MAC_final]; the digest is the
      one set in the MAC context, if any *)
  evp_hmac : option EVP_MD -> list Z -> list (list Z) -> option (list Z);
  EVP_MD_get_size : EVP_MD -> Z }.

Definition is_sha2 (md : EVP_MD) : Prop := md = SHA2_256 \/ md = SHA2_512.

Class EVPLaws `{EVP} : Prop := {
  size_sha2_256 : EVP_MD_get_size SHA2_256 = 32;
  size_sha2_512 : EVP_MD_get_size SHA2_512 = 64;
  digest_ok md ins : is_sha2 md ->
    exists d, evp_digest md ins = Some d /\ zlen d = EVP_MD_get_size md /\ bytes_ok d;
  (** for the lengths that are asked *)
  xof_ok ins n : 0 <= n <= 64 ->
    exists d, evp_xof SHAKE_256 ins n = Some d /\ zlen d = n /\ bytes_ok d;
  hmac_ok md key ins : is_sha2 md ->
    exists d, evp_hmac (Some md) key ins = Some d /\ zlen d = EVP_MD_get_size md /\ bytes_ok d }.

Definition SLH_MAX_N : Z := 32.
Definition MAX_DIGEST_SIZE : Z := 64.

(** ** Keys and contexts *)

(** [k_pub] says whether [pub] points to [SLH_DSA_PUB(key)] or is NULL; the
    method table [hash_func] is identified by the argument of
    [ossl_slh_get_hash_fn] it was obtained with. *)
Record SLH_DSA_KEY := mkSLH_DSA_KEY {
  k_priv : list Z; k_pub : bool; k_propq : option string; k_has_priv : bool;
  k_params : SLH_DSA_PARAMS; k_adrs_func : SLH_ADRS_FUNC; k_hash_func : bool;
  k_md : option EVP_MD; k_md_big : option EVP_MD; k_hmac : bool }.

(** [p + off], as the bytes from there on. *)
Definition from (p : list Z) (off : Z) : list Z := drop (Z.to_nat off) p.
Definition SLH_DSA_SK_SEED (key : SLH_DSA_KEY) : list Z := k_priv key.
Definition SLH_DSA_SK_PRF (key : SLH_DSA_KEY) : list Z := from (k_priv key) (p_n (k_params key)).
Definition SLH_DSA_PK_SEED (key : SLH_DSA_KEY) : list Z := from (k_priv key) (p_n (k_params key) * 2).
Definition SLH_DSA_PK_ROOT (key : SLH_DSA_KEY) : list Z := from (k_priv key) (p_n (k_params key) * 3).

(** A digest context holds its digest; [h_md_big_ctx] may be the same context as
    [h_md_ctx]; a MAC context holds the digest it was told to use, if any. *)
Record SLH_DSA_HASH_CTX := mkSLH_DSA_HASH_CTX {
  h_key : SLH_DSA_KEY; h_md_ctx : EVP_MD; h_md_big_ctx : option EVP_MD;
  h_hmac_ctx : option (option EVP_MD); h_hmac_digest_used : bool }.

Definition ctx_params (ctx : SLH_DSA_HASH_CTX) : SLH_DSA_PARAMS := k_params (h_key ctx).
Definition ctx_n (ctx : SLH_DSA_HASH_CTX) : Z := p_n (ctx_params ctx).

(** [alloc] says whether all the EVP and heap allocations of the constructor succeed and
    the digests can be initialised: whichever of them fails, what was built is freed and
    NULL returned. *)
Definition ossl_slh_dsa_hash_ctx_new (alloc : bool) (key : SLH_DSA_KEY) : option SLH_DSA_HASH_CTX :=
  if negb alloc then None
  else
    md ← k_md key;
    match k_md_big key with
    | None => Some (mkSLH_DSA_HASH_CTX key md None None false)
    | Some big => Some (mkSLH_DSA_HASH_CTX key md (Some big) (if k_hmac key then Some None else None) false)
    end.
Definition ossl_slh_dsa_hash_ctx_dup (alloc : bool) (src : SLH_DSA_HASH_CTX) : option SLH_DSA_HASH_CTX :=
  if negb alloc then None
  else Some (mkSLH_DSA_HASH_CTX (h_key src) (h_md_ctx src) (h_md_big_ctx src) (h_hmac_ctx src)
               (h_hmac_digest_used src)).

Section Hash.
Context `{EV : EVP} `{AL : Allocator}.

(** ** SHAKE: FIPS 205 section 11.1 *)

Definition xof_digest_3 (ctx : EVP_MD) (in1 in2 in3 : list Z) (out_len : Z) : option (list Z) :=
  evp_xof ctx [in1; in2; in3] out_len.
Definition xof_digest_4 (ctx : EVP_MD) (in1 in2 in3 in4 : list Z) (out_len : Z) : option (list Z) :=
  evp_xof ctx [in1; in2; in3; in4] out_len.

Definition slh_hmsg_shake (ctx : SLH_DSA_HASH_CTX) (r pk_seed pk_root msg : list Z) : option (list Z) :=
  let m := p_m (ctx_params ctx) in
  let n := ctx_n ctx in
  xof_digest_4 (h_md_ctx ctx) (slice r 0 n) (slice pk_seed 0 n) (slice pk_root 0 n) msg m.
Definition slh_prf_shake (ctx : SLH_DSA_HASH_CTX) (pk_seed sk_seed adrs : list Z) : option (list Z) :=
  let n := ctx_n ctx in
  xof_digest_3 (h_md_ctx ctx) (slice pk_seed 0 n) (slice adrs 0 SLH_ADRS_SIZE) (slice sk_seed 0 n) n.
(** The context as the call leaves it and the packet on success. *)
Definition write_n (out : list Z) (n : Z) (pkt : WPACKET) : option WPACKET :=
  match WPACKET_memcpy (slice out 0 n) pkt with Done _ pkt' => Some pkt' | _ => None end.
Definition slh_prf_msg_shake (ctx : SLH_DSA_HASH_CTX) (sk_prf opt_rand msg : list Z) (pkt : WPACKET) :
    SLH_DSA_HASH_CTX * option WPACKET :=
  let n := ctx_n ctx in
  (ctx,
   out ← xof_digest_3 (h_md_ctx ctx) (slice sk_prf 0 n) (slice opt_rand 0 n) msg n;
   write_n out n pkt).
Definition slh_f_shake (ctx : SLH_DSA_HASH_CTX) (pk_seed adrs m1 : list Z) : option (list Z) :=
  let n := ctx_n ctx in
  xof_digest_3 (h_md_ctx ctx) (slice pk_seed 0 n) (slice adrs 0 SLH_ADRS_SIZE) m1 n.
Definition slh_h_shake (ctx : SLH_DSA_HASH_CTX) (pk_seed adrs m1 m2 : list Z) : option (list Z) :=
  let n := ctx_n ctx in
  xof_digest_4 (h_md_ctx ctx) (slice pk_seed 0 n) (slice adrs 0 SLH_ADRS_SIZE) (slice m1 0 n) (slice m2 0 n) n.
Definition slh_t_shake (ctx : SLH_DSA_HASH_CTX) (pk_seed adrs ml : list Z) : option (list Z) :=
  let n := ctx_n ctx in
  xof_digest_3 (h_md_ctx ctx) (slice pk_seed 0 n) (slice adrs 0 SLH_ADRS_SIZE) ml n.

(** ** SHA2: FIPS 205 section 11.2 *)

(** [None] for the context stands for a NULL context. *)
Definition digest_4 (ctx : option EVP_MD) (in1 in2 in3 in4 : list Z) : option (list Z) :=
  md ← ctx; evp_digest md [in1; in2; in3; in4].

(** The loop of [PKCS1_MGF1]; [mask] is what has been stored so far, its length
    is [outlen].  Every round stores at least a byte, so [len] rounds suffice.  The
    context is made once, before the loop; where that fails the call returns -1 as it does
    when the first digest fails, so the failure is one of [evp_digest]. *)
Fixpoint mgf1_loop (fuel : nat) (dgst : EVP_MD) (seed : list Z) (len i : Z) (mask : list Z) :
    option (list Z) :=
  match fuel with
  | O => Some mask
  | S f =>
      if zlen mask <? len then
        let cnt := [u8 (Z.land (Z.shiftr i 24) 255); u8 (Z.land (Z.shiftr i 16) 255);
                    Z.land (u8 (Z.shiftr i 8)) 255; u8 (Z.land i 255)] in
        md ← evp_digest dgst [seed; cnt];
        if zlen mask + EVP_MD_get_size dgst <=? len
        then mgf1_loop f dgst seed len (i + 1) (mask ++ md)
        else mgf1_loop f dgst seed len (i + 1) (mask ++ slice md 0 (len - zlen mask))
      else Some mask
  end.
Definition PKCS1_MGF1 (len : Z) (seed : list Z) (dgst : EVP_MD) : option (list Z) :=
  if EVP_MD_get_size dgst <=? 0 then None else mgf1_loop (Z.to_nat len) dgst seed len 0 [].

Definition slh_hmsg_sha2 (hctx : SLH_DSA_HASH_CTX) (r pk_seed pk_root msg : list Z) : option (list Z) :=
  let m := p_m (ctx_params hctx) in
  let n := ctx_n hctx in
  md_big ← k_md_big (h_key hctx);
  if EVP_MD_get_size md_big <=? 0 then None
  else
    d ← digest_4 (h_md_big_ctx hctx) (slice r 0 n) (slice pk_seed 0 n) (slice pk_root 0 n) msg;
    let seed := slice r 0 n ++ slice pk_seed 0 n ++ d in
    PKCS1_MGF1 m seed md_big.

Definition slh_prf_msg_sha2 (hctx : SLH_DSA_HASH_CTX) (sk_prf opt_rand msg : list Z) (pkt : WPACKET) :
    SLH_DSA_HASH_CTX * option WPACKET :=
  let n := ctx_n hctx in
  let hctx' :=
    if h_hmac_digest_used hctx then hctx
    else mkSLH_DSA_HASH_CTX (h_key hctx) (h_md_ctx hctx) (h_md_big_ctx hctx)
           (match h_hmac_ctx hctx with Some _ => Some (k_md_big (h_key hctx)) | None => None end) true in
  (hctx',
   mctx ← h_hmac_ctx hctx';
   mac ← evp_hmac mctx (slice sk_prf 0 n) [slice opt_rand 0 n; msg];
   write_n mac n pkt).

Definition do_hash (ctx : option EVP_MD) (n : Z) (pk_seed adrs m : list Z) (b : Z) : option (list Z) :=
  digest ← digest_4 ctx (slice pk_seed 0 n) (zeros (b - n)) (slice adrs 0 SLH_ADRSC_SIZE) m;
  Some (slice digest 0 n).

Definition slh_prf_sha2 (hctx : SLH_DSA_HASH_CTX) (pk_seed sk_seed adrs : list Z) : option (list Z) :=
  let n := ctx_n hctx in
  do_hash (Some (h_md_ctx hctx)) n pk_seed adrs (slice sk_seed 0 n)
    OSSL_SLH_DSA_SHA2_NUM_ZEROS_H_AND_T_BOUND1.
Definition slh_f_sha2 (hctx : SLH_DSA_HASH_CTX) (pk_seed adrs m1 : list Z) : option (list Z) :=
  do_hash (Some (h_md_ctx hctx)) (ctx_n hctx) pk_seed adrs m1 OSSL_SLH_DSA_SHA2_NUM_ZEROS_H_AND_T_BOUND1.
Definition slh_h_sha2 (hctx : SLH_DSA_HASH_CTX) (pk_seed adrs m1 m2 : list Z) : option (list Z) :=
  let n := ctx_n hctx in
  do_hash (h_md_big_ctx hctx) n pk_seed adrs (slice m1 0 n ++ slice m2 0 n)
    (p_sha2_h_and_t_bound (ctx_params hctx)).
Definition slh_t_sha2 (hctx : SLH_DSA_HASH_CTX) (pk_seed adrs ml : list Z) : option (list Z) :=
  do_hash (h_md_big_ctx hctx) (ctx_n hctx) pk_seed adrs ml (p_sha2_h_and_t_bound (ctx_params hctx)).

(** The bytes [m1] of [F] and [ml] of [T] are given with their length; the
    members of the method table are prefixed with [hf_]. *)
Record SLH_HASH_FUNC := mkSLH_HASH_FUNC {
  hf_H_MSG : SLH_DSA_HASH_CTX -> list Z -> list Z -> list Z -> list Z -> option (list Z);
  hf_PRF : SLH_DSA_HASH_CTX -> list Z -> list Z -> list Z -> option (list Z);
  hf_PRF_MSG : SLH_DSA_HASH_CTX -> list Z -> list Z -> list Z -> WPACKET -> SLH_DSA_HASH_CTX * option WPACKET;
  hf_F : SLH_DSA_HASH_CTX -> list Z -> list Z -> list Z -> option (list Z);
  hf_H : SLH_DSA_HASH_CTX -> list Z -> list Z -> list Z -> list Z -> option (list Z);
  hf_T : SLH_DSA_HASH_CTX -> list Z -> list Z -> list Z -> option (list Z) }.

Definition ossl_slh_get_hash_fn (is_shake : bool) : SLH_HASH_FUNC :=
  if is_shake
  then mkSLH_HASH_FUNC slh_hmsg_shake slh_prf_shake slh_prf_msg_shake slh_f_shake slh_h_shake slh_t_shake
  else mkSLH_HASH_FUNC slh_hmsg_sha2 slh_prf_sha2 slh_prf_msg_sha2 slh_f_sha2 slh_h_sha2 slh_t_sha2.

Definition hash_func (key : SLH_DSA_KEY) : SLH_HASH_FUNC := ossl_slh_get_hash_fn (k_hash_func key).
Definition hashf (ctx : SLH_DSA_HASH_CTX) : SLH_HASH_FUNC := hash_func (h_key ctx).
Definition adrsf (ctx : SLH_DSA_HASH_CTX) : SLH_ADRS_FUNC := k_adrs_func (h_key ctx).
End Hash.

(** ** What the tree algorithms rely on

    [hash_sem] are the tweakable hash functions of FIPS 205 section 4.1 for one
    key, as functions of the address record. *)

Record hash_sem := mkhash_sem {
  sF : ADRS -> list Z -> list Z;
  sH : ADRS -> list Z -> list Z -> list Z;
  sT : ADRS -> list Z -> list Z;
  sPRF : ADRS -> list Z }.

(** A byte string of length [n]. *)
Definition nbytes (n : Z) (x : list Z) : Prop := zlen x = n /\ bytes_ok x.

Class SemLaws (n : Z) (S : hash_sem) : Prop := {
  sF_n v m : nbytes n (sF S v m);
  sH_n v l r : nbytes n (sH S v l r);
  sT_n v m : nbytes n (sT S v m);
  sPRF_n v : nbytes n (sPRF S v) }.

(** The hash functions of the context compute [S] on every address buffer that
    represents a record.  Signing also needs the pseudo-random function. *)
Class HashLaws `{EVP} `{Allocator} (ctx : SLH_DSA_HASH_CTX) (rep : list Z -> ADRS -> Prop)
    (pk_seed : list Z) (S : hash_sem) : Prop := {
  law_F a v m : rep a v -> hf_F (hashf ctx) ctx pk_seed a m = Some (sF S v m);
  law_H a v l r : rep a v -> hf_H (hashf ctx) ctx pk_seed a l r = Some (sH S v l r);
  law_T a v m : rep a v -> hf_T (hashf ctx) ctx pk_seed a m = Some (sT S v m) }.
Class PrfLaws `{EVP} `{Allocator} (ctx : SLH_DSA_HASH_CTX) (rep : list Z -> ADRS -> Prop)
    (pk_seed sk_seed : list Z) (S : hash_sem) : Prop := {
  law_PRF a v : rep a v -> hf_PRF (hashf ctx) ctx pk_seed sk_seed a = Some (sPRF S v) }.

(** ** Contexts made for a parameter set satisfy the laws *)

Definition md_big_of (p : SLH_DSA_PARAMS) : EVP_MD :=
  if p_security_category p =? 1 then SHA2_256 else SHA2_512.

(** The contents [slh_dsa_key_hash_init] and [ossl_slh_dsa_hash_ctx_new] give a
    context. *)
Definition ctx_wf (ctx : SLH_DSA_HASH_CTX) : Prop :=
  params_ok (ctx_params ctx) /\
  if p_is_shake (ctx_params ctx) then
    k_hash_func (h_key ctx) = true /\ h_md_ctx ctx = SHAKE_256 /\ h_md_big_ctx ctx = None /\
    adrsf ctx = slh_adrs_methods
  else
    k_hash_func (h_key ctx) = false /\ h_md_ctx ctx = SHA2_256 /\ adrsf ctx = slh_adrsc_methods /\
    h_md_big_ctx ctx = Some (md_big_of (ctx_params ctx)) /\
    k_md_big (h_key ctx) = Some (md_big_of (ctx_params ctx)) /\
    exists mac, h_hmac_ctx ctx = Some mac /\
      (h_hmac_digest_used ctx = true -> mac = Some (md_big_of (ctx_params ctx))).

Definition ctx_rep (ctx : SLH_DSA_HASH_CTX) : list Z -> ADRS -> Prop :=
  if k_hash_func (h_key ctx) then rep_adrs else rep_adrsc.
Definition ctx_enc (ctx : SLH_DSA_HASH_CTX) : ADRS -> list Z :=
  if k_hash_func (h_key ctx) then enc_adrs else enc_adrsc.

Lemma ctx_adrs_laws ctx : ctx_wf ctx -> AdrsLaws (adrsf ctx) (ctx_enc ctx) (ctx_rep ctx).
Proof.
  intros [_ Hw]. unfold ctx_enc, ctx_rep. destruct (p_is_shake (ctx_params ctx)).
  - destruct Hw as (-> & _ & _ & ->). apply slh_adrs_laws.
  - destruct Hw as (-> & _ & -> & _). apply slh_adrsc_laws.
Qed.

Section Laws.
Context `{EV : EVP} `{AL : Allocator} `{EL : !EVPLaws}.

(** The functions the context computes, on the encodings of the records. *)
Definition ctx_sem (ctx : SLH_DSA_HASH_CTX) (pk_seed sk_seed : list Z) : hash_sem :=
  mkhash_sem
    (fun v m => default [] (hf_F (hashf ctx) ctx pk_seed (ctx_enc ctx v) m))
    (fun v l r => default [] (hf_H (hashf ctx) ctx pk_seed (ctx_enc ctx v) l r))
    (fun v m => default [] (hf_T (hashf ctx) ctx pk_seed (ctx_enc ctx v) m))
    (fun v => default [] (hf_PRF (hashf ctx) ctx pk_seed sk_seed (ctx_enc ctx v))).

Lemma md_big_sha2 p : is_sha2 (md_big_of p).
Proof. unfold is_sha2, md_big_of. destruct (_ =? 1); auto. Qed.
Lemma md_big_size p :
  EVP_MD_get_size (md_big_of p) = if p_security_category p =? 1 then 32 else 64.
Proof. unfold md_big_of. destruct (_ =? 1); [apply size_sha2_256|apply size_sha2_512]. Qed.

Lemma slice_nbytes d n : 0 <= n <= zlen d -> bytes_ok d -> nbytes n (slice d 0 n).
Proof. intros Hn Hd. split; [apply slice_length; lia|by apply slice_ok]. Qed.

Lemma do_hash_ok md n pk adrs m b :
  is_sha2 md -> 0 <= n <= EVP_MD_get_size md ->
  exists d, do_hash (Some md) n pk adrs m b = Some d /\ nbytes n d.
Proof.
  intros Hmd Hn. unfold do_hash, digest_4. cbn [mbind option_bind].
  destruct (digest_ok md [slice pk 0 n; zeros (b - n); slice adrs 0 SLH_ADRSC_SIZE; m] Hmd)
    as (d & -> & Hz & Hb). eexists; split; [done|]. apply slice_nbytes; [lia|done].
Qed.

(** The hash functions look at the encoded part of an address only. *)
Lemma slice_rep_u a v : rep_adrs a v -> slice a 0 SLH_ADRS_SIZE = slice (enc_adrs v) 0 SLH_ADRS_SIZE.
Proof.
  intros Hr. pose proof (rep_bytes (f := slh_adrs_methods) a v Hr) as Hb.
  assert (zlen (enc_adrs v) = 32) as Hz.
  { unfold zlen, enc_adrs. by rewrite !length_app, !be_bytes_length. }
  rewrite Hz in Hb. unfold SLH_ADRS_SIZE. rewrite Hb. unfold slice. symmetry. apply take_ge.
  unfold zlen in Hz. simpl. lia.
Qed.
Lemma slice_rep_c a v : rep_adrsc a v -> slice a 0 SLH_ADRSC_SIZE = slice (enc_adrsc v) 0 SLH_ADRSC_SIZE.
Proof.
  intros Hr. pose proof (rep_bytes (f := slh_adrsc_methods) a v Hr) as Hb.
  assert (zlen (enc_adrsc v) = 22) as Hz.
  { unfold zlen, enc_adrsc. by rewrite !length_app, !be_bytes_length. }
  rewrite Hz in Hb. unfold SLH_ADRSC_SIZE. rewrite Hb. unfold slice. symmetry. apply take_ge.
  unfold zlen in Hz. simpl. lia.
Qed.

Context (ctx : SLH_DSA_HASH_CTX) (Hwf : ctx_wf ctx) (pk_seed sk_seed : list Z).

Lemma ctx_n_cases : ctx_n ctx = 16 \/ ctx_n ctx = 24 \/ ctx_n ctx = 32.
Proof. apply Hwf. Qed.

(** Each function of the context returns [n] bytes, whatever its inputs. *)
Lemma ctx_total a m l r :
  (exists d, hf_F (hashf ctx) ctx pk_seed a m = Some d /\ nbytes (ctx_n ctx) d) /\
  (exists d, hf_H (hashf ctx) ctx pk_seed a l r = Some d /\ nbytes (ctx_n ctx) d) /\
  (exists d, hf_T (hashf ctx) ctx pk_seed a m = Some d /\ nbytes (ctx_n ctx) d) /\
  (exists d, hf_PRF (hashf ctx) ctx pk_seed sk_seed a = Some d /\ nbytes (ctx_n ctx) d).
Proof.
  pose proof ctx_n_cases as Hn. destruct Hwf as [Hp Hw]. unfold hashf, hash_func.
  destruct (p_is_shake (ctx_params ctx)) eqn:Es.
  - destruct Hw as (-> & Hmd & _). unfold ossl_slh_get_hash_fn; cbn [hf_F hf_H hf_T hf_PRF].
    unfold slh_f_shake, slh_h_shake, slh_t_shake, slh_prf_shake, xof_digest_3, xof_digest_4. rewrite Hmd.
    split_and!; apply xof_ok; lia.
  - destruct Hw as (-> & Hmd & _ & Hbig & _). unfold ossl_slh_get_hash_fn; cbn [hf_F hf_H hf_T hf_PRF].
    destruct Hp as (_ & _ & _ & _ & _ & _ & _ & _ & _ & _ & _ & _ & Hsz). specialize (Hsz Es).
    unfold slh_f_sha2, slh_h_sha2, slh_t_sha2, slh_prf_sha2. rewrite Hmd, Hbig.
    split_and!; apply do_hash_ok; rewrite ?size_sha2_256, ?md_big_size; unfold ctx_n in *;
      first [apply md_big_sha2 | by left | lia].
Qed.

(** The functions agree on a buffer and on the encoding it represents. *)
Lemma ctx_rep_enc a v m l r :
  ctx_rep ctx a v ->
  hf_F (hashf ctx) ctx pk_seed a m = hf_F (hashf ctx) ctx pk_seed (ctx_enc ctx v) m /\
  hf_H (hashf ctx) ctx pk_seed a l r = hf_H (hashf ctx) ctx pk_seed (ctx_enc ctx v) l r /\
  hf_T (hashf ctx) ctx pk_seed a m = hf_T (hashf ctx) ctx pk_seed (ctx_enc ctx v) m /\
  hf_PRF (hashf ctx) ctx pk_seed sk_seed a = hf_PRF (hashf ctx) ctx pk_seed sk_seed (ctx_enc ctx v).
Proof.
  unfold ctx_rep, ctx_enc, hashf, hash_func. intros Hr.
  destruct (k_hash_func (h_key ctx)); unfold ossl_slh_get_hash_fn; cbn [hf_F hf_H hf_T hf_PRF].
  - unfold slh_f_shake, slh_h_shake, slh_t_shake, slh_prf_shake. by rewrite (slice_rep_u a v Hr).
  - unfold slh_f_sha2, slh_h_sha2, slh_t_sha2, slh_prf_sha2, do_hash. by rewrite (slice_rep_c a v Hr).
Qed.

#[export] Instance ctx_sem_laws : SemLaws (ctx_n ctx) (ctx_sem ctx pk_seed sk_seed).
Proof.
  split.
  - intros v m. destruct (ctx_total (ctx_enc ctx v) m [] []) as ((d & E & Hd) & _). simpl. by rewrite E.
  - intros v l r. destruct (ctx_total (ctx_enc ctx v) [] l r) as (_ & (d & E & Hd) & _). simpl. by rewrite E.
  - intros v m. destruct (ctx_total (ctx_enc ctx v) m [] []) as (_ & _ & (d & E & Hd) & _). simpl. by rewrite E.
  - intros v. destruct (ctx_total (ctx_enc ctx v) [] [] []) as (_ & _ & _ & (d & E & Hd)). simpl. by rewrite E.
Qed.

#[export] Instance ctx_hash_laws : HashLaws ctx (ctx_rep ctx) pk_seed (ctx_sem ctx pk_seed sk_seed).
Proof.
  split.
  - intros a v m Hr. destruct (ctx_rep_enc a v m [] [] Hr) as (-> & _).
    destruct (ctx_total (ctx_enc ctx v) m [] []) as ((d & E & _) & _). simpl. by rewrite E.
  - intros a v l r Hr. destruct (ctx_rep_enc a v [] l r Hr) as (_ & -> & _).
    destruct (ctx_total (ctx_enc ctx v) [] l r) as (_ & (d & E & _) & _). simpl. by rewrite E.
  - intros a v m Hr. destruct (ctx_rep_enc a v m [] [] Hr) as (_ & _ & -> & _).
    destruct (ctx_total (ctx_enc ctx v) m [] []) as (_ & _ & (d & E & _) & _). simpl. by rewrite E.
Qed.

#[export] Instance ctx_prf_laws : PrfLaws ctx (ctx_rep ctx) pk_seed sk_seed (ctx_sem ctx pk_seed sk_seed).
Proof.
  split. intros a v Hr. destruct (ctx_rep_enc a v [] [] [] Hr) as (_ & _ & _ & ->).
  destruct (ctx_total (ctx_enc ctx v) [] [] []) as (_ & _ & _ & (d & E & _)). simpl. by rewrite E.
Qed.

(** *** Message digests *)

Lemma mgf1_loop_ok fuel dgst seed len i mask :
  is_sha2 dgst -> bytes_ok mask -> zlen mask <= len -> len - zlen mask <= Z.of_nat fuel ->
  exists d, mgf1_loop fuel dgst seed len i mask = Some d /\ nbytes len d.
Proof.
  intros Hmd. assert (0 < EVP_MD_get_size dgst) as Hsz.
  { destruct Hmd as [-> | ->]; rewrite ?size_sha2_256, ?size_sha2_512; lia. }
  revert i mask. induction fuel as [|f IH]; intros i mask Hb Hl Hf; cbn [mgf1_loop].
  - exists mask. split; [done|]. split; [lia|done].
  - destruct (Z.ltb_spec (zlen mask) len); [|exists mask; split; [done|split; [lia|done]]].
    set (cnt := [_; _; _; _]). destruct (digest_ok dgst [seed; cnt] Hmd) as (d & -> & Hz & Hd). simpl.
    destruct (Z.leb_spec (zlen mask + EVP_MD_get_size dgst) len).
    + apply IH; [by apply Forall_app|rewrite zlen_app; lia|rewrite zlen_app; lia].
    + assert (zlen (slice d 0 (len - zlen mask)) = len - zlen mask) as Hs by (apply slice_length; lia).
      apply IH; [apply Forall_app; split; [done|by apply slice_ok]|rewrite zlen_app; lia|rewrite zlen_app; lia].
Qed.

Lemma H_MSG_ok r pk root msg :
  exists d, hf_H_MSG (hashf ctx) ctx r pk root msg = Some d /\ nbytes (p_m (ctx_params ctx)) d.
Proof.
  destruct Hwf as [Hp Hw]. unfold hashf, hash_func.
  destruct (params_m (ctx_params ctx) Hp) as [Hm Hm64].
  destruct (p_is_shake (ctx_params ctx)) eqn:Es.
  - destruct Hw as (-> & Hmd & _). unfold ossl_slh_get_hash_fn; cbn [hf_H_MSG].
    unfold slh_hmsg_shake, xof_digest_4. rewrite Hmd. by apply xof_ok.
  - destruct Hw as (-> & Hmd & _ & Hbig & Hkbig & _). unfold ossl_slh_get_hash_fn; cbn [hf_H_MSG].
    unfold slh_hmsg_sha2. rewrite Hkbig, Hbig. unfold digest_4. cbn [mbind option_bind].
    pose proof (md_big_size (ctx_params ctx)) as Hs.
    assert (0 < EVP_MD_get_size (md_big_of (ctx_params ctx))) as Hpos by (rewrite Hs; destruct (_ =? 1); lia).
    destruct (Z.leb_spec (EVP_MD_get_size (md_big_of (ctx_params ctx))) 0); [lia|].
    destruct (digest_ok (md_big_of (ctx_params ctx)) [slice r 0 (ctx_n ctx); slice pk 0 (ctx_n ctx);
      slice root 0 (ctx_n ctx); msg] (md_big_sha2 _)) as (d & -> & _ & _). cbn [mbind option_bind].
    unfold PKCS1_MGF1. destruct (Z.leb_spec (EVP_MD_get_size (md_big_of (ctx_params ctx))) 0); [lia|].
    apply mgf1_loop_ok; [apply md_big_sha2|constructor|by rewrite zlen_nil|rewrite zlen_nil; lia].
Qed.
End Laws.

(** Two contexts for the same parameter set and public seed compute the same
    functions; the seeds may lie in different key objects. *)
Definition ctx_agree (ctx ctx' : SLH_DSA_HASH_CTX) (pk_seed pk_seed' : list Z) : Prop :=
  ctx_params ctx = ctx_params ctx' /\ k_hash_func (h_key ctx) = k_hash_func (h_key ctx') /\
  h_md_ctx ctx = h_md_ctx ctx' /\ h_md_big_ctx ctx = h_md_big_ctx ctx' /\
  slice pk_seed 0 (ctx_n ctx) = slice pk_seed' 0 (ctx_n ctx).

Lemma agree_hash_laws `{EVP, Allocator} ctx ctx' pk_seed pk_seed' S :
  ctx_agree ctx ctx' pk_seed pk_seed' -> HashLaws ctx (ctx_rep ctx) pk_seed S ->
  HashLaws ctx' (ctx_rep ctx') pk_seed' S.
Proof.
  intros (Hp & Hf & Hmd & Hbig & Hpk) [LF LH LT].
  assert (ctx_n ctx = ctx_n ctx') as Hn by (unfold ctx_n; by rewrite Hp).
  rewrite Hn in Hpk.
  assert (ctx_rep ctx = ctx_rep ctx') as Hrep by (unfold ctx_rep; by rewrite Hf).
  rewrite <- Hrep. clear Hrep. revert LF LH LT. unfold hashf, hash_func. rewrite Hf. intros LF LH LT.
  constructor; unfold hashf, hash_func; [intros a v m Hr; rewrite <- (LF a v m Hr)
    |intros a v l r Hr; rewrite <- (LH a v l r Hr)|intros a v m Hr; rewrite <- (LT a v m Hr)];
    destruct (k_hash_func (h_key ctx')); unfold ossl_slh_get_hash_fn; cbn [hf_F hf_H hf_T];
    unfold slh_f_shake, slh_h_shake, slh_t_shake, slh_f_sha2, slh_h_sha2, slh_t_sha2, do_hash, digest_4,
      xof_digest_3, xof_digest_4; by rewrite ?Hmd, ?Hbig, ?Hn, ?Hp, ?Hpk.
Qed.

(** ** A concrete instance

    Digests that pad or truncate their input: the laws can hold. *)

Definition pad_to (n : Z) (l : list Z) : list Z := take (Z.to_nat n) (map u8 l ++ zeros n).
Lemma pad_to_ok n l : 0 <= n -> nbytes n (pad_to n l).
Proof.
  intros Hn. split.
  - unfold pad_to, zlen. rewrite length_take, length_app. unfold zeros. rewrite length_replicate. lia.
  - unfold pad_to. apply Forall_take, Forall_app. split.
    + apply Forall_forall. intros x Hx. apply list_elem_of_In, in_map_iff in Hx as (y & <- & _). apply u8_range.
    + apply Forall_replicate. unfold is_byte. lia.
Qed.
Definition pad_evp : EVP :=
  let size md := match md with SHA2_256 => 32 | _ => 64 end in
  {| evp_digest md ins := Some (pad_to (size md) (concat ins));
     evp_xof _ ins n := Some (pad_to n (concat ins));
     evp_hmac md key ins := match md with Some md => Some (pad_to (size md) (key ++ concat ins)) | None => None end;
     EVP_MD_get_size := size |}.
Lemma pad_evp_laws : @EVPLaws pad_evp.
Proof.
  split.
  - done.
  - done.
  - intros md ins _. eexists; split; [done|]. apply pad_to_ok. simpl. destruct md; lia.
  - intros ins n Hn. eexists; split; [done|]. apply pad_to_ok. lia.
  - intros md key ins _. eexists; split; [done|]. apply pad_to_ok. simpl. destruct md; lia.
Qed.
