(* ===== verification/SlhHashSpec.v ===== *)
(** * The parameter sets and hash functions of SLH-DSA against FIPS 205

    Table 2 and sections 11.1 and 11.2 of FIPS 205, written from the standard over the
    functions SHAKE-256, SHA-256, SHA-512 and HMAC, and the proof that the row the code
    finds for a name and the six functions it computes for a context of that row are
    those of the standard. *)
From S2P Require Import Prelude.
From S2P Require Import ByteOrder.
From S2P Require Import ZSum.
From S2P Require Import Packet.
From S2P Require Import WPacket.
From S2P Require Import WPacketSpec.
From S2P Require Import SlhAdrs.
From S2P Require Import SlhParams.
From S2P Require Import SlhHash.

(** ** Table 2 *)

(** The free columns n, h, d, a, k; the others follow from them. *)
Record fips_row := mkrow { t_name : string; t_n : Z; t_h : Z; t_d : Z; t_a : Z; t_k : Z }.
Definition table_2 : list fips_row :=
  [mkrow "128s" 16 63 7 12 14; mkrow "128f" 16 66 22 6 33; mkrow "192s" 24 63 7 14 17;
   mkrow "192f" 24 66 22 8 33; mkrow "256s" 32 64 8 14 22; mkrow "256f" 32 68 17 9 35].
Definition cdiv (a b : Z) : Z := (a + b - 1) / b.
Definition t_m (t : fips_row) : Z := cdiv (t_k t * t_a t) 8 + cdiv (t_h t - t_h t / t_d t) 8 + cdiv (t_h t) (8 * t_d t).
(** WOTS+ with lg_w = 4: 2n digits and three of checksum *)
Definition t_sig (t : fips_row) : Z := (1 + t_k t * (1 + t_a t) + t_h t + t_d t * (2 * t_n t + 3)) * t_n t.
Definition t_category (t : fips_row) : Z := if t_n t =? 16 then 1 else if t_n t =? 24 then 3 else 5.
(** The padding of PK.seed for H and T: to a block of the digest of the category. *)
Definition sha_block (n : Z) : Z := if n =? 16 then 64 else 128.
Definition sha_x (n : Z) : EVP_MD := if n =? 16 then SHA2_256 else SHA2_512.
Definition set_name (shake : bool) (t : fips_row) : string := ("SLH-DSA-" +:+ (if shake then "SHAKE-" else "SHA2-") +:+ t_name t)%string.

Definition row_of (shake : bool) (t : fips_row) (p : SLH_DSA_PARAMS) : Prop :=
  p_alg p = set_name shake t /\ p_is_shake p = shake /\ p_n p = t_n t /\ p_h p = t_h t /\ p_d p = t_d t /\ p_hm p = t_h t / t_d t /\
  p_a p = t_a t /\ p_k p = t_k t /\ p_m p = t_m t /\ p_security_category p = t_category t /\ p_pk_len p = 2 * t_n t /\ p_sig_len p = t_sig t /\
  p_sha2_h_and_t_bound p = if shake then 0 else sha_block (t_n t).

Lemma lookup_row shake t : t ∈ table_2 -> exists p, ossl_slh_dsa_params_get (set_name shake t) = Some p /\ row_of shake t p.
Proof.
  unfold table_2. rewrite !elem_of_cons, elem_of_nil. intros Ht.
  repeat destruct Ht as [-> | Ht]; try done; destruct shake; (eexists; split; [reflexivity|]; unfold row_of; split_and!; reflexivity).
Qed.
(** The table holds no other set. *)
Lemma lookup_only alg p : ossl_slh_dsa_params_get alg = Some p -> exists shake t, t ∈ table_2 /\ alg = set_name shake t.
Proof.
  intros H. apply List.find_some in H as [Hin Ha%String.eqb_eq]. subst alg.
  assert (Forall (fun p => exists shake t, t ∈ table_2 /\ p_alg p = set_name shake t) slh_dsa_params) as Hall.
  { unfold slh_dsa_params.
    assert (forall i t, table_2 !! i = Some t -> t ∈ table_2) as Hi by (intros i t E; by apply list_elem_of_lookup_2 in E).
    repeat apply Forall_cons_2; [..|apply Forall_nil_2];
      first [exists false; eexists; split; [apply (Hi 0%nat); reflexivity|reflexivity] | exists true; eexists; split; [apply (Hi 0%nat); reflexivity|reflexivity]
            |exists false; eexists; split; [apply (Hi 1%nat); reflexivity|reflexivity] | exists true; eexists; split; [apply (Hi 1%nat); reflexivity|reflexivity]
            |exists false; eexists; split; [apply (Hi 2%nat); reflexivity|reflexivity] | exists true; eexists; split; [apply (Hi 2%nat); reflexivity|reflexivity]
            |exists false; eexists; split; [apply (Hi 3%nat); reflexivity|reflexivity] | exists true; eexists; split; [apply (Hi 3%nat); reflexivity|reflexivity]
            |exists false; eexists; split; [apply (Hi 4%nat); reflexivity|reflexivity] | exists true; eexists; split; [apply (Hi 4%nat); reflexivity|reflexivity]
            |exists false; eexists; split; [apply (Hi 5%nat); reflexivity|reflexivity] | exists true; eexists; split; [apply (Hi 5%nat); reflexivity|reflexivity]]. }
  rewrite Forall_forall in Hall. apply Hall. by apply list_elem_of_In.
Qed.

(** ** Sections 11.1 and 11.2 *)

(** The functions of FIPS 202, FIPS 180-4 and FIPS 198-1 behind the EVP calls. *)
Record fips_hashes := mkhashes { SHAKE256_of : list Z -> Z -> list Z; SHA_of : EVP_MD -> list Z -> list Z; HMAC_of : EVP_MD -> list Z -> list Z -> list Z }.
(** The EVP calls compute them, of the concatenation of their inputs. *)
Class EVPFips `{EVP} (P : fips_hashes) : Prop := {
  fips_xof ins n : 0 <= n <= 64 -> evp_xof SHAKE_256 ins n = Some (SHAKE256_of P (concat ins) n);
  fips_digest md ins : is_sha2 md -> evp_digest md ins = Some (SHA_of P md (concat ins));
  fips_hmac md key ins : is_sha2 md -> evp_hmac (Some md) key ins = Some (HMAC_of P md key (concat ins)) }.

Module Fips205.
Section Standard.
Context (P : fips_hashes) (shake : bool) (n m : Z).

Definition Trunc (x : list Z) : list Z := slice x 0 n.
(** RFC 8017, B.2.1 *)
Definition MGF1 (H : list Z -> list Z) (hlen : Z) (seed : list Z) (len : Z) : list Z :=
  slice (concat ((fun i => H (seed ++ be_bytes 4 i)) <$> seqZ 0 (cdiv len hlen))) 0 len.
Definition H_msg (R seed root M : list Z) : list Z :=
  if shake then SHAKE256_of P (R ++ seed ++ root ++ M) m
  else MGF1 (SHA_of P (sha_x n)) (if n =? 16 then 32 else 64) (R ++ seed ++ SHA_of P (sha_x n) (R ++ seed ++ root ++ M)) m.
Definition PRF_msg (prf opt_rand M : list Z) : list Z :=
  if shake then SHAKE256_of P (prf ++ opt_rand ++ M) n else Trunc (HMAC_of P (sha_x n) prf (opt_rand ++ M)).
(** PRF and F always use SHA-256; H and T the digest of the category. *)
Definition tweaked (md : EVP_MD) (block : Z) (seed : list Z) (v : ADRS) (M : list Z) : list Z :=
  if shake then SHAKE256_of P (seed ++ enc_adrs v ++ M) n
  else Trunc (SHA_of P md (seed ++ zeros (block - n) ++ enc_adrsc v ++ M)).
Definition PRF (seed sk : list Z) (v : ADRS) : list Z := tweaked SHA2_256 64 seed v sk.
Definition F (seed : list Z) (v : ADRS) (M : list Z) : list Z := tweaked SHA2_256 64 seed v M.
Definition T (seed : list Z) (v : ADRS) (M : list Z) : list Z := tweaked (sha_x n) (sha_block n) seed v M.
(** H of two strings of [n] bytes *)
Definition H (seed : list Z) (v : ADRS) (l r : list Z) : list Z := tweaked (sha_x n) (sha_block n) seed v (Trunc l ++ Trunc r).
Definition fips_sem (seed sk : list Z) : hash_sem := mkhash_sem (F seed) (H seed) (T seed) (PRF seed sk).
End Standard.
End Fips205.

(** ** The code *)

Section Exact.
Context `{EV : EVP} `{AL : Allocator} `{EL : !EVPLaws} (P : fips_hashes) `{FP : !EVPFips P}.
Context (ctx : SLH_DSA_HASH_CTX) (Hwf : ctx_wf ctx) (shake : bool) (t : fips_row) (Hrow : row_of shake t (ctx_params ctx)) (Ht : t ∈ table_2).
#[local] Abbreviation n := (t_n t).

Lemma row_n : ctx_n ctx = n /\ (n = 16 \/ n = 24 \/ n = 32).
Proof.
  destruct Hrow as (_ & _ & Hn & _). split; [exact Hn|]. unfold table_2 in Ht. rewrite !elem_of_cons, elem_of_nil in Ht.
  destruct Ht as [-> |[-> |[-> |[-> |[-> |[-> |[]]]]]]]; cbn; tauto.
Qed.
Lemma row_md : md_big_of (ctx_params ctx) = sha_x n.
Proof.
  destruct Hrow as (_ & _ & _ & _ & _ & _ & _ & _ & _ & Hc & _). unfold md_big_of, sha_x. rewrite Hc. unfold t_category.
  destruct row_n as [_ [-> |[-> | ->]]]; done.
Qed.
Lemma sha_x_sha2 k : is_sha2 (sha_x k).
Proof. unfold is_sha2, sha_x. destruct (k =? 16); auto. Qed.

(** The counter of MGF1 is the big-endian index. *)
Lemma mgf1_counter i : 0 <= i < 2 ^ 32 ->
  [u8 (Z.land (Z.shiftr i 24) 255); u8 (Z.land (Z.shiftr i 16) 255); Z.land (u8 (Z.shiftr i 8)) 255; u8 (Z.land i 255)] = be_bytes 4 i.
Proof.
  intros Hi. rewrite !land_255, !Z.shiftr_div_pow2 by lia. unfold be_bytes. cbn [le_bytes]. unfold reverse. cbn [rev_append]. unfold u8.
  change (2 ^ 24) with 16777216. change (2 ^ 16) with 65536. change (2 ^ 8) with 256. apply (f_equal2 cons); [dlia|]. apply (f_equal2 cons); [dlia|]. apply (f_equal2 cons); [dlia|]. apply (f_equal2 cons); [dlia|done].
Qed.
Lemma mgf1_loop_eq fuel md seed len i mask : is_sha2 md -> 0 <= i -> len < 2 ^ 32 -> zlen mask <= len -> len - zlen mask <= Z.of_nat fuel -> i <= zlen mask ->
  mgf1_loop fuel md seed len i mask =
    Some (mask ++ slice (concat ((fun i => SHA_of P md (seed ++ be_bytes 4 i)) <$> seqZ i (cdiv (len - zlen mask) (EVP_MD_get_size md)))) 0 (len - zlen mask)).
Proof.
  intros Hmd. assert (0 < EVP_MD_get_size md) as Hsz by (destruct Hmd as [-> | ->]; rewrite ?size_sha2_256, ?size_sha2_512; lia).
  set (h := EVP_MD_get_size md) in *. revert i mask. induction fuel as [|fuel IH]; intros i mask Hi Hl Hm Hf Him; cbn [mgf1_loop].
  - replace (len - zlen mask) with 0 by lia. unfold slice. cbn [Z.to_nat take]. by rewrite app_nil_r.
  - destruct (Z.ltb_spec (zlen mask) len).
    2: { replace (len - zlen mask) with 0 by lia. unfold slice. cbn [Z.to_nat take]. by rewrite app_nil_r. }
    rewrite mgf1_counter by lia. rewrite fips_digest by done. cbn [mbind option_bind concat]. rewrite app_nil_r.
    destruct (digest_ok md [seed; be_bytes 4 i] Hmd) as (d & Ed & Hz & _). rewrite fips_digest in Ed by done. apply (inj Some) in Ed. cbn [concat] in Ed. rewrite app_nil_r in Ed.
    rewrite Ed in *. fold h in Hz. set (r := len - zlen mask) in *.
    assert (0 < cdiv r h) as Hc by (unfold cdiv, r; apply Z.div_str_pos; lia).
    rewrite (seqZ_cons i (cdiv r h)) by lia. cbn [fmap list_fmap concat]. rewrite Ed. fold h.
    destruct (Z.leb_spec (zlen mask + h) len).
    + rewrite IH; [|lia|lia|rewrite zlen_app; lia|rewrite zlen_app; lia|rewrite zlen_app; lia]. f_equal. rewrite <- app_assoc. f_equal. rewrite zlen_app, Hz.
      replace (len - (zlen mask + h)) with (r - h) by (unfold r; lia). replace (cdiv (r - h) h) with (Z.pred (cdiv r h)) by (unfold cdiv; replace (r - h + h - 1) with (r + h - 1 + (-1) * h) by lia; rewrite Z.div_add by lia; lia).
      replace (Z.succ i) with (i + 1) by lia. unfold slice. cbn [Z.to_nat]. rewrite !drop_0. rewrite take_app. f_equal; [symmetry; apply take_ge; unfold zlen in *; lia|].
      f_equal. unfold zlen in *. lia.
    + assert (mgf1_loop fuel md seed len (i + 1) (mask ++ slice d 0 r) = Some (mask ++ slice d 0 r)) as ->.
      { assert (zlen (mask ++ slice d 0 r) = len) as E by (assert (0 <= r <= zlen d) by (subst r; lia); rewrite zlen_app; rewrite (slice_length d 0 r) by lia; subst r; lia).
        destruct fuel as [|fuel']; cbn [mgf1_loop]; [done|]. rewrite E. by rewrite Z.ltb_irrefl. }
      f_equal. f_equal. unfold slice. cbn [Z.to_nat]. rewrite !drop_0. rewrite take_app_le; [done|]. subst r. unfold zlen in *. lia.
Qed.

Lemma slice_enc_u v : slice (enc_adrs v) 0 SLH_ADRS_SIZE = enc_adrs v.
Proof. unfold slice, SLH_ADRS_SIZE. cbn [Z.to_nat]. rewrite drop_0. apply take_ge. unfold enc_adrs. rewrite !length_app, !be_bytes_length. cbn. lia. Qed.
Lemma slice_enc_c v : slice (enc_adrsc v) 0 SLH_ADRSC_SIZE = enc_adrsc v.
Proof. unfold slice, SLH_ADRSC_SIZE. cbn [Z.to_nat]. rewrite drop_0. apply take_ge. unfold enc_adrsc. rewrite !length_app, !be_bytes_length. cbn. lia. Qed.

Lemma digest_4_eq md a b c d : is_sha2 md -> digest_4 (Some md) a b c d = Some (SHA_of P md (a ++ b ++ c ++ d)).
Proof. intros Hmd. unfold digest_4. cbn [mbind option_bind]. rewrite fips_digest by done. cbn [concat]. by rewrite app_nil_r. Qed.

(** H_msg and PRF_msg *)
Lemma H_msg_eq r seed root msg :
  hf_H_MSG (hashf ctx) ctx r seed root msg = Some (Fips205.H_msg P shake n (t_m t) (slice r 0 n) (slice seed 0 n) (slice root 0 n) msg).
Proof.
  destruct row_n as [Hn Hc]. pose proof row_md as Hmd. pose proof Hrow as (_ & Hs & _ & _ & _ & _ & _ & _ & Hm & _). destruct Hwf as [Hp Hw]. pose proof (params_m _ Hp) as Hm64. rewrite Hs in Hw.
  unfold hashf, hash_func, Fips205.H_msg. destruct shake.
  - destruct Hw as (-> & Hd & _). unfold ossl_slh_get_hash_fn. cbn [hf_H_MSG]. unfold slh_hmsg_shake, xof_digest_4. rewrite Hd, Hn, <- Hm. rewrite fips_xof by lia. cbn [concat]. by rewrite app_nil_r.
  - destruct Hw as (-> & _ & _ & Hbig & Hkbig & _). unfold ossl_slh_get_hash_fn. cbn [hf_H_MSG]. unfold slh_hmsg_sha2. rewrite Hkbig, Hbig, Hmd, Hn. cbn [mbind option_bind].
    assert (EVP_MD_get_size (sha_x n) = if n =? 16 then 32 else 64) as Hsz by (unfold sha_x; destruct (n =? 16); [apply size_sha2_256|apply size_sha2_512]).
    assert ((EVP_MD_get_size (sha_x n) <=? 0) = false) as Hpos by (rewrite Hsz; by destruct (n =? 16)). rewrite Hpos.
    rewrite digest_4_eq by apply sha_x_sha2. cbn [mbind option_bind]. unfold PKCS1_MGF1. rewrite Hpos.
    rewrite mgf1_loop_eq; [|apply sha_x_sha2|lia|lia|change (zlen (@nil Z)) with 0; lia|change (zlen (@nil Z)) with 0; lia|change (zlen (@nil Z)) with 0; lia]. cbn [app].
    change (zlen (@nil Z)) with 0. rewrite Z.sub_0_r, Hsz, Hm. done.
Qed.
Lemma PRF_msg_eq prf opt msg pkt :
  snd (hf_PRF_MSG (hashf ctx) ctx prf opt msg pkt) =
    match WPACKET_memcpy (Fips205.PRF_msg P shake n (slice prf 0 n) (slice opt 0 n) msg) pkt with Done _ pkt' => Some pkt' | _ => None end.
Proof.
  destruct row_n as [Hn Hc]. pose proof row_md as Hmd. pose proof Hrow as (_ & Hs & _). destruct Hwf as [Hp Hw]. rewrite Hs in Hw.
  unfold hashf, hash_func, Fips205.PRF_msg. destruct shake.
  - destruct Hw as (-> & Hd & _). unfold ossl_slh_get_hash_fn. cbn [hf_PRF_MSG]. unfold slh_prf_msg_shake, xof_digest_3. rewrite Hd, Hn. cbn [snd].
    destruct (xof_ok [slice prf 0 n; slice opt 0 n; msg] n ltac:(lia)) as (d & Ed & Hz & _). rewrite fips_xof in * by lia. apply (inj Some) in Ed. cbn [mbind option_bind]. unfold write_n.
    cbn [concat] in *. rewrite app_nil_r in *. rewrite Ed in *. unfold slice at 1. cbn [Z.to_nat]. by rewrite drop_0, take_ge by (unfold zlen in *; lia).
  - destruct Hw as (-> & _ & _ & _ & Hkbig & mac & Hmac & Hused). unfold ossl_slh_get_hash_fn. cbn [hf_PRF_MSG]. unfold slh_prf_msg_sha2. cbv zeta. cbn [snd]. rewrite Hn.
    match goal with |- context [h_hmac_ctx (if ?b then ?x else ?y)] => assert (h_hmac_ctx (if b then x else y) = Some (Some (sha_x n))) as -> end.
    { destruct (h_hmac_digest_used ctx); [rewrite Hmac, Hused by done; by rewrite Hmd|]. cbn [h_hmac_ctx]. rewrite Hmac, Hkbig. by rewrite Hmd. }
    cbn [mbind option_bind]. rewrite fips_hmac by apply sha_x_sha2. cbn [mbind option_bind concat]. by rewrite app_nil_r.
Qed.

(** The functions of the trees *)
Lemma tweaked_enc seed sk v m l r : let a := ctx_enc ctx v in
  hf_F (hashf ctx) ctx seed a m = Some (Fips205.F P shake n (slice seed 0 n) v m) /\
  hf_H (hashf ctx) ctx seed a l r = Some (Fips205.H P shake n (slice seed 0 n) v l r) /\
  hf_T (hashf ctx) ctx seed a m = Some (Fips205.T P shake n (slice seed 0 n) v m) /\
  hf_PRF (hashf ctx) ctx seed sk a = Some (Fips205.PRF P shake n (slice seed 0 n) (slice sk 0 n) v).
Proof.
  cbv zeta.
  destruct row_n as [Hn Hc]. pose proof row_md as Hmd. pose proof Hrow as (_ & Hs & _ & _ & _ & _ & _ & _ & _ & _ & _ & _ & Hb). destruct Hwf as [Hp Hw]. rewrite Hs in Hw.
  unfold hashf, hash_func, ctx_enc, Fips205.F, Fips205.H, Fips205.T, Fips205.PRF, Fips205.tweaked. destruct shake.
  - destruct Hw as (-> & Hd & _). unfold ossl_slh_get_hash_fn. cbn [hf_F hf_H hf_T hf_PRF].
    unfold slh_f_shake, slh_h_shake, slh_t_shake, slh_prf_shake, xof_digest_3, xof_digest_4. rewrite Hd, Hn, !fips_xof by lia. cbn [concat]. rewrite !app_nil_r, !slice_enc_u. done.
  - destruct Hw as (-> & Hd & _ & Hbig & _). unfold ossl_slh_get_hash_fn. cbn [hf_F hf_H hf_T hf_PRF].
    unfold slh_f_sha2, slh_h_sha2, slh_t_sha2, slh_prf_sha2, do_hash. rewrite Hd, Hbig, Hmd, Hn, Hb.
    rewrite !digest_4_eq by (apply sha_x_sha2 || by left). cbn [mbind option_bind]. rewrite !slice_enc_c. done.
Qed.

(** The laws the tree algorithms ask for hold of the functions of the standard. *)
Section Laws.
Context (seed sk : list Z).
#[local] Abbreviation S := (Fips205.fips_sem P shake n (slice seed 0 n) (slice sk 0 n)).

Lemma fips_sem_laws : SemLaws (ctx_n ctx) S.
Proof.
  split.
  - intros v m. destruct (ctx_total ctx Hwf seed sk (ctx_enc ctx v) m [] []) as ((d & E & Hd) & _). destruct (tweaked_enc seed sk v m [] []) as (E' & _). rewrite E in E'. injection E' as ->. exact Hd.
  - intros v l r. destruct (ctx_total ctx Hwf seed sk (ctx_enc ctx v) [] l r) as (_ & (d & E & Hd) & _). destruct (tweaked_enc seed sk v [] l r) as (_ & E' & _). rewrite E in E'. injection E' as ->. exact Hd.
  - intros v m. destruct (ctx_total ctx Hwf seed sk (ctx_enc ctx v) m [] []) as (_ & _ & (d & E & Hd) & _). destruct (tweaked_enc seed sk v m [] []) as (_ & _ & E' & _). rewrite E in E'. injection E' as ->. exact Hd.
  - intros v. destruct (ctx_total ctx Hwf seed sk (ctx_enc ctx v) [] [] []) as (_ & _ & _ & (d & E & Hd)). destruct (tweaked_enc seed sk v [] [] []) as (_ & _ & _ & E'). rewrite E in E'. injection E' as ->. exact Hd.
Qed.
Lemma tweaked_eq a v m l r : ctx_rep ctx a v ->
  hf_F (hashf ctx) ctx seed a m = Some (sF S v m) /\ hf_H (hashf ctx) ctx seed a l r = Some (sH S v l r) /\
  hf_T (hashf ctx) ctx seed a m = Some (sT S v m) /\ hf_PRF (hashf ctx) ctx seed sk a = Some (sPRF S v).
Proof. intros Hr. destruct (ctx_rep_enc ctx seed sk a v m l r Hr) as (-> & -> & -> & ->). apply tweaked_enc. Qed.
Lemma fips_hash_laws : HashLaws ctx (ctx_rep ctx) seed S.
Proof.
  split; [intros a v m Hr; apply (tweaked_eq a v m [] [] Hr)|intros a v l r Hr; apply (tweaked_eq a v [] l r Hr)|intros a v m Hr; apply (tweaked_eq a v m [] [] Hr)].
Qed.
Lemma fips_prf_laws : PrfLaws ctx (ctx_rep ctx) seed sk S.
Proof. split. intros a v Hr. apply (tweaked_eq a v [] [] [] Hr). Qed.
End Laws.
End Exact.

(** C25: the parameter sets and hash functions are those of FIPS 205.  The names of the
    twelve sets, and no others, are found; the row found for a name has the columns of
    Table 2 for it.  For every context of such a row, over EVP calls that compute
    SHAKE-256, SHA-256, SHA-512 and HMAC, the six functions that the method table gives
    are those of sections 11.1 (for a SHAKE name) and 11.2 (for a SHA2 name: SHA-256 in
    category 1, SHA-512 for H_msg, PRF_msg, H and T in the others): H_msg, PRF_msg, which
    is written to the packet, and F, H, T and PRF on every address buffer. *)
Theorem slh_functions_exact `{EV : EVP} `{AL : Allocator} `{EL : !EVPLaws} P `{FP : !EVPFips P} alg ctx r seed root msg prf opt pkt sk a v x y :
  ossl_slh_dsa_params_get alg = Some (ctx_params ctx) -> ctx_wf ctx -> ctx_rep ctx a v ->
  (forall shake t, t ∈ table_2 -> exists p, ossl_slh_dsa_params_get (set_name shake t) = Some p /\ row_of shake t p) /\
  exists shake t, t ∈ table_2 /\ alg = set_name shake t /\ row_of shake t (ctx_params ctx) /\
    let n := t_n t in let Hf := hashf ctx in
    hf_H_MSG Hf ctx r seed root msg = Some (Fips205.H_msg P shake n (t_m t) (slice r 0 n) (slice seed 0 n) (slice root 0 n) msg) /\
    snd (hf_PRF_MSG Hf ctx prf opt msg pkt) =
      match WPACKET_memcpy (Fips205.PRF_msg P shake n (slice prf 0 n) (slice opt 0 n) msg) pkt with Done _ pkt' => Some pkt' | _ => None end /\
    hf_F Hf ctx seed a x = Some (Fips205.F P shake n (slice seed 0 n) v x) /\
    hf_H Hf ctx seed a x y = Some (Fips205.H P shake n (slice seed 0 n) v x y) /\
    hf_T Hf ctx seed a x = Some (Fips205.T P shake n (slice seed 0 n) v x) /\
    hf_PRF Hf ctx seed sk a = Some (Fips205.PRF P shake n (slice seed 0 n) (slice sk 0 n) v).
Proof.
  intros Hp Hwf Hr. split; [apply lookup_row|]. destruct (lookup_only alg _ Hp) as (shake & t & Ht & ->). exists shake, t. destruct (lookup_row shake t Ht) as (p & Ep & Hrow). rewrite Hp in Ep. injection Ep as <-.
  split; [done|]. split; [done|]. split; [done|]. cbv zeta. split; [by apply H_msg_eq|]. split; [by apply PRF_msg_eq|].
  destruct (tweaked_eq P ctx Hwf shake t Hrow Ht seed sk a v x x y Hr) as (E1 & E2 & E3 & E4). by split_and!.
Qed.

(** The functions that [pad_evp] computes, and a context of the set SLH-DSA-SHA2-192s. *)
Definition pad_hashes : fips_hashes :=
  mkhashes (fun M n => pad_to n M) (fun md M => pad_to (@EVP_MD_get_size pad_evp md) M) (fun md key M => pad_to (@EVP_MD_get_size pad_evp md) (key ++ M)).
Lemma pad_evp_fips : @EVPFips pad_evp pad_hashes.
Proof. by split. Qed.
Definition zero_ctx_sha2 : SLH_DSA_HASH_CTX :=
  mkSLH_DSA_HASH_CTX
    (mkSLH_DSA_KEY (zeros 128) true None true (OSSL_SLH_PARAMS_192S "SLH-DSA-SHA2-192s" 1462 false OSSL_SLH_DSA_SHA2_NUM_ZEROS_H_AND_T_BOUND2)
       slh_adrsc_methods false (Some SHA2_256) (Some SHA2_512) true)
    SHA2_256 (Some SHA2_512) (Some None) false.
Lemma zero_ctx_sha2_wf : ctx_wf zero_ctx_sha2.
Proof. split; [apply params_okb_ok; by vm_compute|]. cbn. split_and!; try done. by exists None. Qed.

Lemma slh_functions_exact_witness :
  exists shake t, set_name shake t = "SLH-DSA-SHA2-192s" /\
    hf_F (@hashf pad_evp always_alloc zero_ctx_sha2) zero_ctx_sha2 [1] (zeros 32) [2] = Some (Fips205.F pad_hashes shake (t_n t) [1] adrs0 [2]).
Proof.
  destruct (@slh_functions_exact pad_evp always_alloc pad_evp_laws pad_hashes pad_evp_fips "SLH-DSA-SHA2-192s" zero_ctx_sha2 [] [1] [] [] [] [] blank [] (zeros 32) adrs0 [2] [])
    as (_ & shake & t & _ & E & Hrow & H).
  - reflexivity.
  - apply zero_ctx_sha2_wf.
  - apply (rep_zero (f := slh_adrsc_methods) (zeros 32)). reflexivity.
  - exists shake, t. split; [done|]. destruct H as (_ & _ & -> & _). do 2 f_equal. destruct Hrow as (_ & _ & <- & _). reflexivity.
Defined.
