(* ===== verification/SlhSpec.v ===== *)
(** * The tree algorithms of SLH-DSA as pure functions

    The FIPS 205 algorithms over the abstract tweakable hash functions of
    [hash_sem]: WOTS+ chains, Merkle trees with their authentication paths
    (shared by XMSS and FORS), the hypertree and FORS.  The lemmas are the
    cryptographic correctness argument: a public key recomputed from a signature
    is the public key the signer would compute.  The C functions of the
    following files are shown to compute these functions. *)
From S2P Require Import Prelude.
From S2P Require Import ByteOrder.
From S2P Require Import SlhAdrs.
From S2P Require Import SlhParams.
From S2P Require Import SlhHash.

Section Spec.
Context (n : Z) (S : hash_sem) `{SL : !SemLaws n S}.

(** ** WOTS+ chains *)

(** [s] applications of [F] starting at index [i]. *)
Fixpoint chain (v : ADRS) (x : list Z) (i : Z) (s : nat) : list Z :=
  match s with
  | O => x
  | Datatypes.S s' => chain v (sF S (with_w3 i v) x) (i + 1) s'
  end.

Lemma chain_add v x i a b : chain v (chain v x i a) (i + Z.of_nat a) b = chain v x i (a + b).
Proof.
  revert x i. induction a as [|a IH]; intros x i; cbn [chain Nat.add].
  - by rewrite Z.add_0_r.
  - rewrite <- IH. f_equal. lia.
Qed.
Lemma chain_nbytes v x i s : nbytes n x -> nbytes n (chain v x i s).
Proof. revert x i. induction s as [|s IH]; intros x i Hx; [done|]. apply IH, sF_n. Qed.
(** The hash address in [v] does not matter, the chain sets it. *)
Lemma chain_w3 v x i s j : chain (with_w3 j v) x i s = chain v x i s.
Proof. revert x i. induction s as [|s IH]; intros x i; [done|]. apply IH. Qed.

(** ** WOTS+

    [v] carries the layer and tree addresses, [kp] is the key pair. *)

Definition wots_adrs (v : ADRS) (kp i : Z) : ADRS :=
  with_w2 i (with_w1 kp (with_type SLH_ADRS_TYPE_WOTS_HASH v)).
Definition wots_sk (v : ADRS) (kp i : Z) : list Z :=
  sPRF S (with_w2 i (with_w1 kp (with_type SLH_ADRS_TYPE_WOTS_PRF v))).
(** The elements for the chains [i], [i+1], ... given the digits of the message. *)
Fixpoint wots_sig (v : ADRS) (kp i : Z) (digits : list Z) : list (list Z) :=
  match digits with
  | [] => []
  | d :: ds => chain (wots_adrs v kp i) (wots_sk v kp i) 0 (Z.to_nat d) :: wots_sig v kp (i + 1) ds
  end.
Fixpoint wots_ends (v : ADRS) (kp i : Z) (len : nat) : list (list Z) :=
  match len with
  | O => []
  | Datatypes.S l => chain (wots_adrs v kp i) (wots_sk v kp i) 0 15 :: wots_ends v kp (i + 1) l
  end.
Fixpoint wots_complete (v : ADRS) (kp i : Z) (digits : list Z) (sig : list (list Z)) : list (list Z) :=
  match digits, sig with
  | d :: ds, x :: xs =>
      chain (wots_adrs v kp i) x d (Z.to_nat (15 - d)) :: wots_complete v kp (i + 1) ds xs
  | _, _ => []
  end.
Definition wots_compress (v : ADRS) (kp : Z) (ends : list (list Z)) : list Z :=
  sT S (with_w1 kp (with_type SLH_ADRS_TYPE_WOTS_PK v)) (concat ends).
Definition wots_pk (v : ADRS) (kp : Z) (len : nat) : list Z := wots_compress v kp (wots_ends v kp 0 len).

Lemma wots_complete_sig v kp i digits :
  Forall (fun d => 0 <= d <= 15) digits ->
  wots_complete v kp i digits (wots_sig v kp i digits) = wots_ends v kp i (length digits).
Proof.
  intros Hd. revert i. induction Hd as [|d ds Hd Hds IH]; intros i; [done|]. cbn. f_equal; [|apply IH].
  pose proof (chain_add (wots_adrs v kp i) (wots_sk v kp i) 0 (Z.to_nat d) (Z.to_nat (15 - d))) as E.
  replace (0 + Z.of_nat (Z.to_nat d)) with d in E by lia. rewrite E.
  by replace (Z.to_nat d + Z.to_nat (15 - d))%nat with 15%nat by lia.
Qed.
Lemma wots_sig_nbytes v kp i digits : Forall (nbytes n) (wots_sig v kp i digits).
Proof.
  revert i. induction digits as [|d ds IH]; intros i; constructor; [|apply IH]. apply chain_nbytes, sPRF_n.
Qed.
Lemma wots_sig_length v kp i digits : length (wots_sig v kp i digits) = length digits.
Proof. revert i. induction digits as [|d ds IH]; intros i; cbn; auto. Qed.
Lemma wots_ends_nbytes v kp i len : Forall (nbytes n) (wots_ends v kp i len).
Proof.
  revert i. induction len as [|l IH]; intros i; constructor; [|apply IH]. apply chain_nbytes, sPRF_n.
Qed.
Lemma wots_ends_length v kp i len : length (wots_ends v kp i len) = len.
Proof. revert i. induction len as [|l IH]; intros i; cbn; auto. Qed.

(** ** Merkle trees

    [leaf i] is the [i]-th leaf; the node of height [h] and index [i] is hashed
    under the address [tw h i]. *)

Section Merkle.
Context (tw : Z -> Z -> ADRS) (leaf : Z -> list Z).

Fixpoint node (h : nat) (i : Z) : list Z :=
  match h with
  | O => leaf i
  | Datatypes.S h' => sH S (tw (Z.of_nat h) i) (node h' (2 * i)) (node h' (2 * i + 1))
  end.

(** The siblings on the way up from the node of height [h] and index [i]. *)
Fixpoint auth (h : nat) (i : Z) (len : nat) : list (list Z) :=
  match len with
  | O => []
  | Datatypes.S l => node h (Z.lxor i 1) :: auth (Datatypes.S h) (i / 2) l
  end.

(** Recomputing a root from a node and a path. *)
Fixpoint climb (h i : Z) (x : list Z) (path : list (list Z)) : list Z :=
  match path with
  | [] => x
  | a :: p =>
      let i' := i / 2 in
      climb (h + 1) i' (if i mod 2 =? 0 then sH S (tw (h + 1) i') x a else sH S (tw (h + 1) i') a x) p
  end.

Lemma climb_auth h i len :
  0 <= i -> climb (Z.of_nat h) i (node h i) (auth h i len) = node (h + len) (i / 2 ^ Z.of_nat len).
Proof.
  revert h i. induction len as [|l IH]; intros h i Hi.
  - cbn. by rewrite Z.div_1_r, Nat.add_0_r.
  - cbn [auth climb]. rewrite Nat2Z.inj_succ, Z.pow_succ_r, <- Z.div_div by lia.
    rewrite Nat.add_succ_r, <- Nat.add_succ_l, <- IH by dlia.
    replace (Z.of_nat (Datatypes.S h)) with (Z.of_nat h + 1) by lia. f_equal.
    cbn [node]. rewrite sibling by done. replace (Z.of_nat (Datatypes.S h)) with (Z.of_nat h + 1) by lia.
    destruct (Z.eqb_spec (i mod 2) 0) as [E|E].
    + by replace (2 * (i / 2)) with i by dlia.
    + replace (2 * (i / 2)) with (i - 1) by dlia. by replace (i - 1 + 1) with i by lia.
Qed.

Lemma climb_snoc h i x p a :
  climb h i x (p ++ [a]) =
    let i' := i / 2 ^ zlen p / 2 in
    let y := climb h i x p in
    if (i / 2 ^ zlen p) mod 2 =? 0 then sH S (tw (h + zlen p + 1) i') y a
    else sH S (tw (h + zlen p + 1) i') a y.
Proof.
  revert h i x. induction p as [|b p IH]; intros h i x.
  - cbn. by rewrite Z.div_1_r, Z.add_0_r.
  - cbn [app climb]. rewrite IH. cbv zeta. rewrite zlen_cons.
    rewrite (Z.add_comm 1), Z.pow_add_r by (pose proof (zlen_nonneg p); lia).
    rewrite Z.pow_1_r, (Z.mul_comm _ 2), <- (Z.div_div i 2) by
      (try apply Z.pow_pos_nonneg; pose proof (zlen_nonneg p); lia).
    by replace (h + 1 + zlen p + 1) with (h + (zlen p + 1) + 1) by lia.
Qed.

Lemma auth_lookup m h i k :
  (k < m)%nat -> auth h i m !! k = Some (node (h + k) (Z.lxor (i / 2 ^ Z.of_nat k) 1)).
Proof.
  revert h i k. induction m as [|m IH]; intros h i k Hk; [lia|]. destruct k as [|k]; cbn [auth].
  - cbn. by rewrite Z.div_1_r, Nat.add_0_r.
  - etransitivity; [apply (IH (Datatypes.S h) (i / 2) k); lia|].
    rewrite Nat2Z.inj_succ, Z.pow_succ_r, <- Z.div_div by lia.
    by replace (Datatypes.S h + k)%nat with (h + Datatypes.S k)%nat by lia.
Qed.

Lemma node_nbytes h i : (forall j, nbytes n (leaf j)) -> nbytes n (node h i).
Proof. intros Hl. destruct h; [apply Hl|apply sH_n]. Qed.
Lemma auth_nbytes h i len : (forall j, nbytes n (leaf j)) -> Forall (nbytes n) (auth h i len).
Proof.
  intros Hl. revert h i. induction len as [|l IH]; intros h i; constructor; [by apply node_nbytes|apply IH].
Qed.
Lemma auth_length h i len : length (auth h i len) = len.
Proof. revert h i. induction len as [|l IH]; intros h i; cbn; auto. Qed.
End Merkle.

(** ** XMSS *)

Definition xmss_tw (v : ADRS) (h i : Z) : ADRS := with_w3 i (with_w2 h (with_type SLH_ADRS_TYPE_TREE v)).
Definition xmss_node (v : ADRS) (len h : nat) (i : Z) : list Z :=
  node (xmss_tw v) (fun j => wots_pk v j len) h i.
Definition xmss_auth (v : ADRS) (len hm : nat) (idx : Z) : list (list Z) :=
  auth (xmss_tw v) (fun j => wots_pk v j len) 0 idx hm.
(** Root from a WOTS+ signature and a path. *)
Definition xmss_root (v : ADRS) (idx : Z) (digits : list Z) (sig path : list (list Z)) : list Z :=
  climb (xmss_tw v) 0 idx (wots_compress v idx (wots_complete v idx 0 digits sig)) path.

Lemma xmss_correct v hm idx digits :
  0 <= idx < 2 ^ Z.of_nat hm -> Forall (fun d => 0 <= d <= 15) digits ->
  xmss_root v idx digits (wots_sig v idx 0 digits) (xmss_auth v (length digits) hm idx) =
  xmss_node v (length digits) hm 0.
Proof.
  intros Hi Hd. unfold xmss_root. rewrite wots_complete_sig by done.
  change (wots_compress v idx _) with (node (xmss_tw v) (fun j => wots_pk v j (length digits)) 0 idx).
  unfold xmss_auth. rewrite (climb_auth _ _ 0) by lia. rewrite Z.div_small by lia. done.
Qed.

(** ** The hypertree

    [digits_of] turns the [n]-byte message of a layer into its WOTS+ digits. *)

Context (digits_of : list Z -> list Z) (len : nat) (hm : nat).

Definition ht_adrs (layer tree : Z) : ADRS := with_tree tree (with_layer layer adrs0).
(** The elements of the XMSS signature of one layer. *)
Definition xmss_sig (layer tree leaf : Z) (msg : list Z) : list (list Z) :=
  wots_sig (ht_adrs layer tree) leaf 0 (digits_of msg) ++ xmss_auth (ht_adrs layer tree) len hm leaf.
Definition layer_root (layer tree : Z) : list Z := xmss_node (ht_adrs layer tree) len hm 0.
(** [k] layers from [layer] on. *)
Fixpoint ht_sig (k : nat) (layer tree leaf : Z) (msg : list Z) : list (list Z) :=
  match k with
  | O => []
  | Datatypes.S k' =>
      xmss_sig layer tree leaf msg ++
      ht_sig k' (layer + 1) (tree / 2 ^ Z.of_nat hm) (tree mod 2 ^ Z.of_nat hm) (layer_root layer tree)
  end.
(** The root a verifier recomputes from the elements of [k] layers. *)
Fixpoint ht_root (k : nat) (layer tree leaf : Z) (msg : list Z) (sig : list (list Z)) : list Z :=
  match k with
  | O => msg
  | Datatypes.S k' =>
      let root := xmss_root (ht_adrs layer tree) leaf (digits_of msg) (take len sig)
                    (take hm (drop len sig)) in
      ht_root k' (layer + 1) (tree / 2 ^ Z.of_nat hm) (tree mod 2 ^ Z.of_nat hm) root (drop (len + hm) sig)
  end.

Lemma xmss_sig_length layer tree leaf msg :
  length (digits_of msg) = len -> length (xmss_sig layer tree leaf msg) = (len + hm)%nat.
Proof. intros Hd. unfold xmss_sig, xmss_auth. by rewrite length_app, wots_sig_length, auth_length, Hd. Qed.

Context (Hdig : forall m, nbytes n m -> length (digits_of m) = len /\ Forall (fun d => 0 <= d <= 15) (digits_of m)).

Lemma layer_root_nbytes layer tree : nbytes n (layer_root layer tree).
Proof. apply node_nbytes. intros j. apply sT_n. Qed.

(** A verifier that reads a signature written by [ht_sig] arrives at the root
    of the last layer's tree. *)
Lemma ht_correct k layer tree leaf msg rest :
  0 <= tree -> 0 <= leaf < 2 ^ Z.of_nat hm -> nbytes n msg -> (0 < k)%nat ->
  ht_root k layer tree leaf msg (ht_sig k layer tree leaf msg ++ rest) =
  layer_root (layer + Z.of_nat k - 1) (tree / 2 ^ (Z.of_nat hm * (Z.of_nat k - 1))).
Proof.
  revert layer tree leaf msg. induction k as [|k IH]; [lia|]. intros layer tree leaf msg Ht Hl Hm _.
  cbn [ht_root ht_sig]. destruct (Hdig msg Hm) as [Hlen Hrange].
  rewrite <- app_assoc. set (more := ht_sig k _ _ _ _ ++ rest).
  assert (length (wots_sig (ht_adrs layer tree) leaf 0 (digits_of msg)) = len) as H1
    by (by rewrite wots_sig_length).
  assert (length (xmss_auth (ht_adrs layer tree) len hm leaf) = hm) as H2 by apply auth_length.
  unfold xmss_sig. rewrite <- app_assoc, take_app_length', drop_app_length' by done.
  rewrite take_app_length' by done.
  pose proof (xmss_correct (ht_adrs layer tree) hm leaf (digits_of msg) Hl Hrange) as E.
  rewrite Hlen in E. rewrite E. fold (layer_root layer tree).
  rewrite app_assoc, drop_app_length' by (rewrite length_app; lia). unfold more.
  assert (0 < 2 ^ Z.of_nat hm) as Hpow by (apply Z.pow_pos_nonneg; lia).
  destruct k as [|k].
  - cbn [ht_root]. change (Z.of_nat 1) with 1. replace (layer + 1 - 1) with layer by lia.
    by rewrite Z.sub_diag, Z.mul_0_r, Z.pow_0_r, Z.div_1_r.
  - rewrite IH; [|apply Z.div_pos; lia|apply Z.mod_pos_bound; lia|apply layer_root_nbytes|lia].
    f_equal; [lia|]. rewrite Z.div_div, <- Z.pow_add_r by (try apply Z.pow_pos_nonneg; nia).
    f_equal. f_equal. nia.
Qed.

Lemma ht_sig_nbytes k layer tree leaf msg : Forall (nbytes n) (ht_sig k layer tree leaf msg).
Proof.
  revert layer tree leaf msg. induction k as [|k IH]; intros; cbn; [constructor|].
  apply Forall_app; split; [|apply IH]. apply Forall_app; split; [apply wots_sig_nbytes|].
  apply auth_nbytes. intros j. apply sT_n.
Qed.
Lemma ht_sig_length k layer tree leaf msg :
  nbytes n msg -> length (ht_sig k layer tree leaf msg) = (k * (len + hm))%nat.
Proof.
  revert layer tree leaf msg. induction k as [|k IH]; intros layer tree leaf msg Hm; [done|]. cbn [ht_sig].
  rewrite length_app, IH by apply layer_root_nbytes.
  rewrite xmss_sig_length by (by apply Hdig). lia.
Qed.

(** ** FORS

    [v] carries the tree address, type [FORS_TREE] and the key pair. *)

Definition fors_tw (v : ADRS) (h i : Z) : ADRS := with_w3 i (with_w2 h v).
Definition fors_sk (v : ADRS) (i : Z) : list Z :=
  sPRF S (with_w3 i (with_w1 (a_w1 v) (with_type SLH_ADRS_TYPE_FORS_PRF v))).
Definition fors_leaf (v : ADRS) (i : Z) : list Z := sF S (fors_tw v 0 i) (fors_sk v i).
Definition fors_node (v : ADRS) (h : nat) (i : Z) : list Z := node (fors_tw v) (fors_leaf v) h i.
(** The elements for the trees [t], [t+1], ... with leaf indices [ids]. *)
Fixpoint fors_sig (v : ADRS) (a : nat) (t : Z) (ids : list Z) : list (list Z) :=
  match ids with
  | [] => []
  | id :: ids' =>
      let i := t * 2 ^ Z.of_nat a + id in
      (fors_sk v i :: auth (fors_tw v) (fors_leaf v) 0 i a) ++ fors_sig v a (t + 1) ids'
  end.
Fixpoint fors_roots (v : ADRS) (a : nat) (t : Z) (ids : list Z) (sig : list (list Z)) : list (list Z) :=
  match ids, sig with
  | id :: ids', sk :: sig' =>
      let i := t * 2 ^ Z.of_nat a + id in
      climb (fors_tw v) 0 i (sF S (fors_tw v 0 i) sk) (take a sig') ::
      fors_roots v a (t + 1) ids' (drop a sig')
  | _, _ => []
  end.
Definition fors_compress (v : ADRS) (roots : list (list Z)) : list Z :=
  sT S (with_w1 (a_w1 v) (with_type SLH_ADRS_TYPE_FORS_ROOTS v)) (concat roots).
Fixpoint fors_tops (v : ADRS) (a : nat) (t : Z) (k : nat) : list (list Z) :=
  match k with O => [] | Datatypes.S k' => fors_node v a t :: fors_tops v a (t + 1) k' end.

Lemma fors_correct v a t ids rest :
  0 <= t -> Forall (fun id => 0 <= id < 2 ^ Z.of_nat a) ids ->
  fors_roots v a t ids (fors_sig v a t ids ++ rest) = fors_tops v a t (length ids).
Proof.
  intros Ht Hids. revert t Ht. induction Hids as [|id ids Hid Hids IH]; intros t Ht; [done|].
  cbn [fors_sig fors_roots fors_tops length]. cbn [app].
  set (i := t * 2 ^ Z.of_nat a + id). rewrite <- app_assoc.
  assert (length (auth (fors_tw v) (fors_leaf v) 0 i a) = a) as Hl by apply auth_length.
  rewrite take_app_length', drop_app_length' by done. rewrite IH by lia. f_equal.
  change (sF S (fors_tw v 0 i) (fors_sk v i)) with (node (fors_tw v) (fors_leaf v) 0 i).
  assert (0 < 2 ^ Z.of_nat a) by (apply Z.pow_pos_nonneg; lia).
  rewrite (climb_auth _ _ 0) by nia. unfold fors_node. f_equal. unfold i.
  rewrite Z.div_add_l by lia. rewrite Z.div_small; lia.
Qed.
Lemma fors_sig_snoc v a t ids id :
  fors_sig v a t (ids ++ [id]) = fors_sig v a t ids ++
    let i := (t + zlen ids) * 2 ^ Z.of_nat a + id in
    fors_sk v i :: auth (fors_tw v) (fors_leaf v) 0 i a.
Proof.
  revert t. induction ids as [|x ids IH]; intros t; cbn [app fors_sig].
  - rewrite zlen_nil, Z.add_0_r, app_nil_r. done.
  - rewrite IH, zlen_cons. cbv zeta. rewrite <- app_assoc.
    by replace (t + (1 + zlen ids)) with (t + 1 + zlen ids) by lia.
Qed.
Lemma fors_sig_nbytes v a t ids : Forall (nbytes n) (fors_sig v a t ids).
Proof.
  revert t. induction ids as [|id ids IH]; intros t; cbn [fors_sig]; [constructor|].
  apply Forall_app; split; [|apply IH]. constructor; [apply sPRF_n|]. apply auth_nbytes. intros j. apply sF_n.
Qed.
Lemma fors_sig_length v a t ids : length (fors_sig v a t ids) = (length ids * (a + 1))%nat.
Proof.
  revert t. induction ids as [|id ids IH]; intros t; cbn [fors_sig]; [done|].
  rewrite length_app, IH. cbn [length]. rewrite auth_length. lia.
Qed.
Lemma fors_tops_nbytes v a t k : Forall (nbytes n) (fors_tops v a t k).
Proof.
  revert t. induction k as [|k IH]; intros t; constructor; [|apply IH]. apply node_nbytes.
  intros j. apply sF_n.
Qed.
End Spec.
