(* ===== verification/SlhWots.v ===== *)
(** * WOTS+ one-time signatures

    Model of [crypto/slh_dsa/slh_wots.c].  A function returns [None] where the C
    function returns 0, otherwise its output and the ADRS buffer and packets it
    changed.  Local buffers start as zeros; the C code never reads them before
    writing.  The lemmas show that the functions compute the WOTS+ algorithms of
    [SlhSpec], and the properties at the end that the digit encoding with its
    checksum is what makes a one-time signature safe to verify. *)
From S2P Require Import Prelude.
From S2P Require Import ByteOrder.
From S2P Require Import Packet.
From S2P Require Import WPacket.
From S2P Require Import WPacketSpec.
From S2P Require Import WPacketOut.
From S2P Require Import SlhAdrs.
From S2P Require Import SlhParams.
From S2P Require Import SlhHash.
From S2P Require Import SlhSpec.

Definition SLH_WOTS_LOGW : Z := 4.
Definition SLH_WOTS_W : Z := 16.
Definition SLH_WOTS_LEN1 (n : Z) : Z := 2 * n.
Definition SLH_WOTS_LEN2 : Z := 3.
Definition SLH_WOTS_LEN (n : Z) : Z := 2 * n + 3.
Definition SLH_WOTS_LEN_MAX : Z := SLH_WOTS_LEN SLH_MAX_N.
Definition NIBBLE_MASK : Z := 15.
Definition NIBBLE_SHIFT : Z := 4.

(** Local variables before their first use. *)
Definition uninit_adrs : list Z := zeros SLH_ADRS_SIZE_MAX.

Definition slh_bytes_to_nibbles (inp : list Z) (in_len : Z) : list Z :=
  flat_map (fun x => [Z.shiftr x NIBBLE_SHIFT; Z.land x NIBBLE_MASK]) (slice inp 0 in_len).

Definition compute_checksum_nibbles (inp : list Z) (in_len : Z) : list Z :=
  let csum := foldl (fun csum x => u16 (csum + x)) 0 (slice inp 0 in_len) in
  let csum := u16 (u16 (NIBBLE_MASK * in_len) - csum) in
  [Z.land (Z.shiftr csum (2 * NIBBLE_SHIFT)) NIBBLE_MASK;
   Z.land (Z.shiftr csum NIBBLE_SHIFT) NIBBLE_MASK;
   Z.land csum NIBBLE_MASK].

(** [msg_and_csum_nibbles] of signing and verification. *)
Definition msg_and_csum_nibbles (msg : list Z) (n : Z) : list Z :=
  let nib := slh_bytes_to_nibbles msg n in
  nib ++ compute_checksum_nibbles nib (SLH_WOTS_LEN1 n).

Section Wots.
Context `{EV : EVP} `{AL : Allocator}.

Definition slh_wots_chain (ctx : SLH_DSA_HASH_CTX) (inp : list Z) (start_index steps : Z)
    (pk_seed adrs : list Z) (wpkt : WPACKET) : option (list Z * WPACKET) :=
  let n := ctx_n ctx in
  if steps =? 0 then
    '(_, wpkt) ← w_run (WPACKET_memcpy (slice inp 0 n)) wpkt; Some (adrs, wpkt)
  else
    '(tmp, wpkt) ← w_run (WPACKET_allocate_bytes n) wpkt;
    tmp ← tmp;
    let adrs := set_hash_address (adrsf ctx) adrs start_index in
    d ← hf_F (hashf ctx) ctx pk_seed adrs (slice inp 0 n);
    '(_, wpkt) ← w_run (wp_store tmp d) wpkt;
    let end_index := start_index + steps in
    for_loop (Z.to_nat (end_index - (start_index + 1))) (start_index + 1) (fun j '(adrs, wpkt) =>
      let adrs := set_hash_address (adrsf ctx) adrs j in
      d ← hf_F (hashf ctx) ctx pk_seed adrs (wp_read wpkt tmp n);
      '(_, wpkt) ← w_run (wp_store tmp d) wpkt;
      Some (adrs, wpkt)) (adrs, wpkt).

(** The address [copy; set_type_and_clear; copy_keypair_address] produces. *)
Definition derive_adrs (ctx : SLH_DSA_HASH_CTX) (adrs : list Z) (type : Z) : list Z :=
  copy_keypair_address (adrsf ctx)
    (set_type_and_clear (adrsf ctx) (adrs_copy (adrsf ctx) uninit_adrs adrs) type) adrs.

(** The final [WPACKET_finish] only releases the packet and its result is not
    used. *)
Definition ossl_slh_wots_pk_gen (ctx : SLH_DSA_HASH_CTX) (sk_seed pk_seed adrs : list Z) :
    option (list Z * list Z) :=
  let n := ctx_n ctx in
  let len := SLH_WOTS_LEN n in
  let tmp := zeros (SLH_WOTS_LEN_MAX * SLH_MAX_N) in
  '(_, tmp_wpkt) ← w_run (WPACKET_init_static_len tmp 0) uninit_wpacket;
  let sk_adrs := derive_adrs ctx adrs SLH_ADRS_TYPE_WOTS_PRF in
  '(sk_adrs, adrs, tmp_wpkt) ← for_loop (Z.to_nat len) 0 (fun i '(sk_adrs, adrs, tmp_wpkt) =>
    let sk_adrs := set_chain_address (adrsf ctx) sk_adrs i in
    sk ← hf_PRF (hashf ctx) ctx pk_seed sk_seed sk_adrs;
    let adrs := set_chain_address (adrsf ctx) adrs i in
    '(adrs, tmp_wpkt) ← slh_wots_chain ctx sk 0 NIBBLE_MASK pk_seed adrs tmp_wpkt;
    Some (sk_adrs, adrs, tmp_wpkt)) (sk_adrs, adrs, tmp_wpkt);
  '(tmp_len, tmp_wpkt) ← w_run WPACKET_get_total_written tmp_wpkt;
  let wots_pk_adrs := derive_adrs ctx adrs SLH_ADRS_TYPE_WOTS_PK in
  pk_out ← hf_T (hashf ctx) ctx pk_seed wots_pk_adrs (wp_read tmp_wpkt 0 tmp_len);
  Some (pk_out, adrs).

Definition ossl_slh_wots_sign (ctx : SLH_DSA_HASH_CTX) (msg sk_seed pk_seed adrs : list Z)
    (sig_wpkt : WPACKET) : option (list Z * WPACKET) :=
  let n := ctx_n ctx in
  let len1 := SLH_WOTS_LEN1 n in
  let len := len1 + SLH_WOTS_LEN2 in
  let nibbles := msg_and_csum_nibbles msg n in
  let sk_adrs := derive_adrs ctx adrs SLH_ADRS_TYPE_WOTS_PRF in
  '(sk_adrs, adrs, sig_wpkt) ← for_loop (Z.to_nat len) 0 (fun i '(sk_adrs, adrs, sig_wpkt) =>
    let sk_adrs := set_chain_address (adrsf ctx) sk_adrs i in
    sk ← hf_PRF (hashf ctx) ctx pk_seed sk_seed sk_adrs;
    let adrs := set_chain_address (adrsf ctx) adrs i in
    '(adrs, sig_wpkt) ← slh_wots_chain ctx sk 0 (byte_at nibbles i) pk_seed adrs sig_wpkt;
    Some (sk_adrs, adrs, sig_wpkt)) (sk_adrs, adrs, sig_wpkt);
  Some (adrs, sig_wpkt).

Definition ossl_slh_wots_pk_from_sig (ctx : SLH_DSA_HASH_CTX) (sig_rpkt : PACKET)
    (msg pk_seed adrs : list Z) : option (list Z * list Z * PACKET) :=
  let n := ctx_n ctx in
  let len1 := SLH_WOTS_LEN1 n in
  let len := len1 + SLH_WOTS_LEN2 in
  let tmp := zeros (SLH_WOTS_LEN_MAX * SLH_MAX_N) in
  '(_, tmp_pkt) ← w_run (WPACKET_init_static_len tmp 0) uninit_wpacket;
  let nibbles := msg_and_csum_nibbles msg n in
  '(adrs, tmp_pkt, sig_rpkt) ← for_loop (Z.to_nat len) 0 (fun i '(adrs, tmp_pkt, sig_rpkt) =>
    let adrs := set_chain_address (adrsf ctx) adrs i in
    '(sig_i, sig_rpkt) ← PACKET_get_bytes sig_rpkt n;
    '(adrs, tmp_pkt) ← slh_wots_chain ctx sig_i (byte_at nibbles i) (NIBBLE_MASK - byte_at nibbles i)
                         pk_seed adrs tmp_pkt;
    Some (adrs, tmp_pkt, sig_rpkt)) (adrs, tmp_pkt, sig_rpkt);
  let wots_pk_adrs := derive_adrs ctx adrs SLH_ADRS_TYPE_WOTS_PK in
  '(tmp_len, tmp_pkt) ← w_run WPACKET_get_total_written tmp_pkt;
  pk_out ← hf_T (hashf ctx) ctx pk_seed wots_pk_adrs (wp_read tmp_pkt 0 tmp_len);
  '(_, _) ← w_run WPACKET_finish tmp_pkt;
  Some (pk_out, adrs, sig_rpkt).
End Wots.

(** ** Digits *)

Lemma nibbles_length msg n : 0 <= n <= zlen msg -> zlen (slh_bytes_to_nibbles msg n) = 2 * n.
Proof.
  intros Hn. unfold slh_bytes_to_nibbles. pose proof (slice_length msg 0 n ltac:(lia) ltac:(lia) ltac:(lia)) as Hs.
  revert Hs. generalize (slice msg 0 n). clear Hn. intros l <-. induction l as [|x l IH]; [done|].
  cbn [flat_map app]. rewrite !zlen_cons. lia.
Qed.

Lemma nibble_split x : is_byte x -> x = 16 * Z.shiftr x 4 + Z.land x 15 /\
  0 <= Z.shiftr x 4 <= 15 /\ 0 <= Z.land x 15 <= 15.
Proof.
  unfold is_byte. intros Hx. change 15 with (Z.ones 4). rewrite Z.land_ones, Z.shiftr_div_pow2 by lia.
  change (2 ^ 4) with 16. change (Z.ones 4) with 15. dlia.
Qed.

Definition is_digit (d : Z) : Prop := 0 <= d <= 15.

Lemma nibbles_digits msg n : bytes_ok msg -> Forall is_digit (slh_bytes_to_nibbles msg n).
Proof.
  intros Hm. unfold slh_bytes_to_nibbles. assert (bytes_ok (slice msg 0 n)) as Hs by (by apply slice_ok).
  induction Hs as [|x l Hx Hl IH]; [constructor|]. cbn [flat_map app].
  pose proof (nibble_split x Hx) as (_ & ? & ?). constructor; [done|constructor; [done|exact IH]].
Qed.

Definition sum_list (l : list Z) : Z := foldr Z.add 0 l.

Lemma sum_digits_range l : Forall is_digit l -> 0 <= sum_list l <= 15 * zlen l.
Proof.
  induction 1 as [|d l Hd Hl IH]; [by compute|]. rewrite zlen_cons. unfold is_digit in Hd. cbn. fold (sum_list l). lia.
Qed.

Lemma foldl_u16_sum l acc :
  Forall is_digit l -> 0 <= acc -> acc + 15 * zlen l < 65536 ->
  foldl (fun csum x => u16 (csum + x)) acc l = acc + sum_list l.
Proof.
  intros Hl. revert acc. induction Hl as [|d l Hd Hl IH]; intros acc Ha Hb; [cbn; lia|].
  rewrite zlen_cons in Hb. unfold is_digit in Hd. cbn [foldl]. pose proof (zlen_nonneg l).
  rewrite u16_small by lia. rewrite IH by lia. cbn. fold (sum_list l). lia.
Qed.

(** The checksum of [2n] digits, without its 16-bit arithmetic. *)
Definition csum_of (l : list Z) : Z := 15 * zlen l - sum_list l.

Lemma checksum_eq l :
  Forall is_digit l -> zlen l <= 64 ->
  compute_checksum_nibbles l (zlen l) =
    [csum_of l / 256; csum_of l / 16 mod 16; csum_of l mod 16] /\ 0 <= csum_of l < 4096.
Proof.
  intros Hl Hz. pose proof (zlen_nonneg l). pose proof (sum_digits_range l Hl) as Hs.
  unfold compute_checksum_nibbles, NIBBLE_MASK, NIBBLE_SHIFT.
  assert (slice l 0 (zlen l) = l) as -> by (unfold slice; rewrite zlen_to_nat; by apply take_ge).
  rewrite foldl_u16_sum by (done || lia). rewrite Z.add_0_l. unfold csum_of.
  rewrite (u16_small (15 * zlen l)) by lia. rewrite u16_small by lia.
  set (c := 15 * zlen l - sum_list l). assert (0 <= c < 4096) as Hc by lia. split; [|done].
  change 15 with (Z.ones 4). rewrite !Z.land_ones, !Z.shiftr_div_pow2 by lia.
  change (2 ^ (2 * 4)) with 256. change (2 ^ 4) with 16. f_equal. rewrite Z.mod_small; [done|dlia].
Qed.

Lemma digits_ok msg n :
  bytes_ok msg -> 0 <= n <= 32 -> n <= zlen msg ->
  zlen (msg_and_csum_nibbles msg n) = SLH_WOTS_LEN n /\ Forall is_digit (msg_and_csum_nibbles msg n).
Proof.
  intros Hm Hn Hl. pose proof (nibbles_length msg n ltac:(lia)) as Hz.
  pose proof (nibbles_digits msg n Hm) as Hd. unfold msg_and_csum_nibbles, SLH_WOTS_LEN1.
  rewrite <- Hz. destruct (checksum_eq _ Hd ltac:(lia)) as [-> Hc].
  split; [rewrite zlen_app, Hz; unfold SLH_WOTS_LEN, zlen; simpl; lia|].
  apply Forall_app; split; [done|]. unfold is_digit. repeat apply Forall_cons_2; [dlia|dlia|dlia|constructor].
Qed.

(** Only the first [n] bytes of the message matter. *)
Lemma digits_slice msg n : 0 <= n -> msg_and_csum_nibbles (slice msg 0 n) n = msg_and_csum_nibbles msg n.
Proof.
  intros Hn. unfold msg_and_csum_nibbles, slh_bytes_to_nibbles.
  by rewrite (slice_slice msg n).
Qed.

(** ** The functions compute the specification *)

Lemma with_w3_id v : with_w3 (a_w3 v) v = v.
Proof. by destruct v. Qed.
Lemma concat_snoc {A} (l : list (list A)) x : concat (l ++ [x]) = concat l ++ x.
Proof. by rewrite concat_app, concat_cons, concat_nil, app_nil_r. Qed.
Lemma zlen_concat n (l : list (list Z)) : Forall (nbytes n) l -> zlen (concat l) = n * zlen l.
Proof.
  induction 1 as [|x l [Hx _] Hl IH]; [by rewrite Z.mul_0_r|].
  rewrite concat_cons, zlen_app, zlen_cons. lia.
Qed.
Section Refine.
Context `{EV : EVP} `{AL : Allocator}.
Context (Halloc : forall n s, malloc_ok n s = true).
Context (ctx : SLH_DSA_HASH_CTX) (Hn : 16 <= ctx_n ctx <= 32).
Context (enc : ADRS -> list Z) (rep : list Z -> ADRS -> Prop) (S : hash_sem).
Context `{RL : !AdrsLaws (adrsf ctx) enc rep} `{SL : !SemLaws (ctx_n ctx) S}.
Context (pk_seed : list Z) `{HL : !HashLaws ctx rep pk_seed S}.
Abbreviation n := (ctx_n ctx).
Abbreviation len := (Z.to_nat (SLH_WOTS_LEN n)).

Lemma wots_chain_refines inp start steps v a w data cap :
  rep a v -> nbytes n (slice inp 0 n) -> 0 <= start -> 0 <= steps -> start + steps <= 15 ->
  wp_out w data cap -> zlen data + n <= cap ->
  exists a' w' j, slh_wots_chain ctx inp start steps pk_seed a w = Some (a', w') /\
    rep a' (with_w3 j v) /\ wp_out w' (data ++ chain S v (slice inp 0 n) start (Z.to_nat steps)) cap.
Proof.
  intros Ha Hx Hst Hsp Hle Ho Hc. unfold slh_wots_chain. set (x := slice inp 0 n) in *.
  destruct (Z.eqb_spec steps 0) as [->|Hs0].
  - destruct (out_memcpy w data cap x Ho) as (w' & E & Ho'); [destruct Hx; lia|].
    rewrite (w_run_done _ _ _ _ E). cbn. exists a, w', (a_w3 v). rewrite with_w3_id. done.
  - destruct (out_alloc w data cap n Ho) as (w1 & hole & E1 & Hh & Ho1); [lia|lia|].
    rewrite (w_run_done _ _ _ _ E1). cbn [mbind option_bind].
    assert (rep (set_hash_address (adrsf ctx) a start) (with_w3 start v)) as Ha1 by (apply rep_hash; [done|lia]).
    rewrite (law_F _ _ _ Ha1). cbn [mbind option_bind].
    pose proof (sF_n (with_w3 start v) x) as [Hlen1 _].
    destruct (out_store_end w1 data hole cap (sF S (with_w3 start v) x) Ho1) as (w2 & E2 & Ho2); [lia|].
    rewrite (w_run_done _ _ _ _ E2). cbn [mbind option_bind].
    replace (start + steps - (start + 1)) with (steps - 1) by lia.
    match goal with |- context [for_loop ?m ?i ?b ?s] => pose proof (for_loop_total
      (fun j '(a, w) => (exists k, rep a (with_w3 k v)) /\
         wp_out w (data ++ chain S v x start (Z.to_nat (j - start))) cap) m i b s) as Hloop end.
    destruct Hloop as ([a' w'] & -> & (k & Hk) & Ho').
    + split; [by exists start|]. replace (start + 1 - start) with 1 by lia. exact Ho2.
    + intros j [a2 w3] Hj [[k Hk] Ho3]. cbv zeta.
      assert (rep (set_hash_address (adrsf ctx) a2 j) (with_w3 j v)) as Ha2
        by (apply (rep_hash _ (with_w3 k v)); [done|lia]).
      set (y := chain S v x start (Z.to_nat (j - start))) in *.
      assert (nbytes n y) as [Hy _] by (by apply chain_nbytes).
      assert (wp_read w3 (zlen data) n = y) as ->.
      { rewrite <- Hy. apply (out_read _ _ _ data y [] Ho3). by rewrite app_nil_r. }
      rewrite (law_F _ _ _ Ha2). cbn [mbind option_bind].
      pose proof (sF_n (with_w3 j v) y) as [Hlen2 _].
      destruct (out_store_end w3 data y cap (sF S (with_w3 j v) y) Ho3) as (w4 & E4 & Ho4); [lia|].
      rewrite (w_run_done _ _ _ _ E4). cbn [mbind option_bind]. eexists; split; [done|]. split; [by exists j|].
      replace (Z.to_nat (j + 1 - start)) with (Z.to_nat (j - start) + 1)%nat by lia.
      rewrite <- chain_add. replace (start + Z.of_nat (Z.to_nat (j - start))) with j by lia. exact Ho4.
    + exists a', w', k. split; [done|]. split; [done|].
      replace (start + 1 + Z.of_nat (Z.to_nat (steps - 1)) - start) with steps in Ho' by lia. exact Ho'.
Qed.

Lemma uninit_adrs_length : length uninit_adrs = 32%nat.
Proof. done. Qed.

Lemma derive_adrs_rep a v type :
  rep a v -> 0 <= type < 256 -> rep (derive_adrs ctx a type) (with_w1 (a_w1 v) (with_type type v)).
Proof.
  intros Ha Ht. unfold derive_adrs. apply rep_copy_keypair; [|done]. apply rep_type; [|done].
  by apply rep_copy.
Qed.

(** The address left behind by a run over the chains: only the chain and hash
    words have changed. *)
Definition chains_adrs (v v' : ADRS) : Prop := exists i j, v' = with_w3 j (with_w2 i v).

Lemma chains_adrs_refl v : chains_adrs v v.
Proof. exists (a_w2 v), (a_w3 v). by destruct v. Qed.

Lemma chain_any v v' i x st s :
  chains_adrs v v' -> chain S (with_w2 i v') x st s = chain S (with_w2 i v) x st s.
Proof.
  intros (k & j & ->).
  change (with_w2 i (with_w3 j (with_w2 k v))) with (with_w3 j (with_w2 i v)). apply chain_w3.
Qed.

Lemma take_S_snoc {A} (l : list A) i x :
  l !! i = Some x -> take (Datatypes.S i) l = take i l ++ [x].
Proof. apply take_S_r. Qed.

(** Both signing and key generation run the chains of the secret values up to
    the digits [ds]; the hash function is keyed by [sk_seed]. *)
Context (sk_seed : list Z) `{PL : !PrfLaws ctx rep pk_seed sk_seed S}.

Lemma wots_sig_lookup v kp i0 ds i d :
  ds !! i = Some d ->
  wots_sig S v kp i0 ds !! i =
    Some (chain S (wots_adrs v kp (i0 + Z.of_nat i)) (wots_sk S v kp (i0 + Z.of_nat i)) 0 (Z.to_nat d)).
Proof.
  revert i0 i. induction ds as [|e ds IH]; intros i0 i Hd; [done|]. destruct i as [|i]; cbn in *.
  - simplify_eq. by rewrite Z.add_0_r.
  - etransitivity; [exact (IH (i0 + 1) i Hd)|].
    by replace (i0 + 1 + Z.of_nat i) with (i0 + Z.of_nat (Datatypes.S i)) by lia.
Qed.

Lemma wots_ends_sig v kp i l : wots_ends S v kp i l = wots_sig S v kp i (replicate l 15).
Proof. revert i. induction l as [|l IH]; intros i; [done|]. cbn. by rewrite IH. Qed.

Lemma wots_loop_refines ds v kp a w data cap :
  rep a (with_w1 kp (with_type SLH_ADRS_TYPE_WOTS_HASH v)) -> Forall is_digit ds -> zlen ds < 4294967296 ->
  wp_out w data cap -> zlen data + n * zlen ds <= cap ->
  exists sa' a' w' u, for_loop (length ds) 0 (fun i '(sk_adrs, adrs, sig_wpkt) =>
    let sk_adrs := set_chain_address (adrsf ctx) sk_adrs i in
    sk ← hf_PRF (hashf ctx) ctx pk_seed sk_seed sk_adrs;
    let adrs := set_chain_address (adrsf ctx) adrs i in
    '(adrs, sig_wpkt) ← slh_wots_chain ctx sk 0 (byte_at ds i) pk_seed adrs sig_wpkt;
    Some (sk_adrs, adrs, sig_wpkt)) (derive_adrs ctx a SLH_ADRS_TYPE_WOTS_PRF, a, w) = Some (sa', a', w') /\
    rep a' u /\ chains_adrs (with_w1 kp (with_type SLH_ADRS_TYPE_WOTS_HASH v)) u /\
    wp_out w' (data ++ concat (wots_sig S v kp 0 ds)) cap.
Proof.
  intros Ha Hds Hlen Ho Hc. set (v0 := with_w1 kp (with_type SLH_ADRS_TYPE_WOTS_HASH v)) in *.
  set (sv := with_w1 kp (with_type SLH_ADRS_TYPE_WOTS_PRF v)).
  assert (rep (derive_adrs ctx a SLH_ADRS_TYPE_WOTS_PRF) sv) as Hsa
    by (apply (derive_adrs_rep a v0); [done|unfold SLH_ADRS_TYPE_WOTS_PRF; lia]).
  set (body := fun (i : Z) (s : list Z * list Z * WPACKET) => _).
  destruct (for_loop_total (fun j '(sa, a, w) =>
    (exists k, rep sa (with_w2 k sv)) /\ (exists u, rep a u /\ chains_adrs v0 u) /\
    wp_out w (data ++ concat (take (Z.to_nat j) (wots_sig S v kp 0 ds))) cap) (length ds) 0 body
    (derive_adrs ctx a SLH_ADRS_TYPE_WOTS_PRF, a, w)) as ([[sa' a'] w'] & -> & _ & (u & Hu & Hch) & Ho').
  - split_and!.
    + exists (a_w2 sv). by replace (with_w2 (a_w2 sv) sv) with sv by (by destruct sv).
    + exists v0. split; [done|apply chains_adrs_refl].
    + cbn. by rewrite app_nil_r.
  - intros j [[sa a1] w1] Hj ((k & Hk) & (u & Hu & Hch) & Ho1). unfold body. cbv zeta.
    assert (rep (set_chain_address (adrsf ctx) sa j) (with_w2 j sv)) as Hsa1
      by (apply (rep_chain _ (with_w2 k sv)); [done|unfold zlen in Hlen; lia]).
    rewrite (law_PRF _ _ Hsa1). cbn [mbind option_bind].
    assert (rep (set_chain_address (adrsf ctx) a1 j) (with_w2 j u)) as Ha1
      by (apply rep_chain; [done|unfold zlen in Hlen; lia]).
    destruct (lookup_lt_is_Some_2 ds (Z.to_nat j)) as [d Hd]; [lia|].
    assert (byte_at ds j = d) as -> by (unfold byte_at; by rewrite Hd).
    assert (is_digit d) as Hdr by (by eapply Forall_lookup_1 in Hds). unfold is_digit in Hdr.
    pose proof (sPRF_n (with_w2 j sv)) as Hsk. pose proof Hsk as [Hskl _].
    assert (slice (sPRF S (with_w2 j sv)) 0 n = sPRF S (with_w2 j sv)) as Hsl by (by apply slice_whole).
    destruct (wots_chain_refines (sPRF S (with_w2 j sv)) 0 d (with_w2 j u) _ w1
      (data ++ concat (take (Z.to_nat j) (wots_sig S v kp 0 ds))) cap Ha1)
      as (a2 & w2 & i3 & -> & Ha2 & Ho2); [by rewrite Hsl|lia|lia|lia|exact Ho1| |].
    { rewrite zlen_app. rewrite (zlen_concat n) by (apply Forall_take; by apply wots_sig_nbytes).
      unfold zlen at 2. rewrite length_take, wots_sig_length. unfold zlen in Hc |- *. nia. }
    cbn [mbind option_bind]. eexists; split; [done|]. split_and!.
    + by exists j.
    + exists (with_w3 i3 (with_w2 j u)). split; [done|]. destruct Hch as (p & q & ->). by exists j, i3.
    + replace (Z.to_nat (j + 1)) with (Datatypes.S (Z.to_nat j)) by lia.
      erewrite take_S_snoc by (by apply wots_sig_lookup).
      rewrite concat_snoc, app_assoc, Hsl, (chain_any v0 u) in * by done.
      replace (0 + Z.of_nat (Z.to_nat j)) with j by lia. exact Ho2.
  - exists sa', a', w', u. split; [done|]. split; [done|]. split; [done|].
    rewrite take_ge in Ho'; [done|]. rewrite wots_sig_length. lia.
Qed.

Lemma wots_sign_refines msg v kp a w data cap :
  rep a (with_w1 kp (with_type SLH_ADRS_TYPE_WOTS_HASH v)) -> bytes_ok msg -> n <= zlen msg ->
  wp_out w data cap -> zlen data + n * SLH_WOTS_LEN n <= cap ->
  exists a' w' u, ossl_slh_wots_sign ctx msg sk_seed pk_seed a w = Some (a', w') /\
    rep a' u /\ chains_adrs (with_w1 kp (with_type SLH_ADRS_TYPE_WOTS_HASH v)) u /\
    wp_out w' (data ++ concat (wots_sig S v kp 0 (msg_and_csum_nibbles msg n))) cap.
Proof.
  intros Ha Hm Hl Ho Hc. destruct (digits_ok msg n Hm ltac:(lia) Hl) as [Hz Hd].
  destruct (wots_loop_refines (msg_and_csum_nibbles msg n) v kp a w data cap Ha Hd)
    as (sa' & a' & w' & u & E & Hu & Hch & Ho'); [rewrite Hz; unfold SLH_WOTS_LEN; lia|done|by rewrite Hz|].
  exists a', w', u. split; [|done]. unfold ossl_slh_wots_sign. cbv zeta.
  replace (Z.to_nat (SLH_WOTS_LEN1 n + SLH_WOTS_LEN2)) with (length (msg_and_csum_nibbles msg n))
    by (unfold zlen, SLH_WOTS_LEN, SLH_WOTS_LEN1, SLH_WOTS_LEN2 in *; lia).
  cbv zeta in E. by rewrite E.
Qed.

(** The local buffer holds all the chain ends. *)
Lemma tmp_room : n * SLH_WOTS_LEN n <= zlen (zeros (SLH_WOTS_LEN_MAX * SLH_MAX_N)) <= SIZE_MAX.
Proof.
  change (zlen (zeros (SLH_WOTS_LEN_MAX * SLH_MAX_N))) with 2144. unfold SLH_WOTS_LEN, SIZE_MAX. nia.
Qed.

Lemma total_written_eq w data cap :
  wp_out w data cap -> w_run WPACKET_get_total_written w = Some (zlen data, w).
Proof.
  intros Ho. unfold w_run, WPACKET_get_total_written, wbind, wget, wret. by rewrite (out_written _ _ _ Ho).
Qed.
Lemma out_read_all w data cap : wp_out w data cap -> wp_read w 0 (zlen data) = data.
Proof. intros Ho. apply (out_read w data cap [] data [] Ho). by rewrite app_nil_r. Qed.

Lemma derive_chains v0 u type :
  chains_adrs v0 u -> with_w1 (a_w1 u) (with_type type u) = with_w1 (a_w1 v0) (with_type type v0).
Proof. by intros (i & j & ->). Qed.

Lemma wots_pk_gen_refines v kp a :
  rep a (with_w1 kp (with_type SLH_ADRS_TYPE_WOTS_HASH v)) ->
  exists a' u, ossl_slh_wots_pk_gen ctx sk_seed pk_seed a = Some (wots_pk S v kp len, a') /\
    rep a' u /\ chains_adrs (with_w1 kp (with_type SLH_ADRS_TYPE_WOTS_HASH v)) u.
Proof.
  intros Ha. set (v0 := with_w1 kp (with_type SLH_ADRS_TYPE_WOTS_HASH v)) in *.
  unfold ossl_slh_wots_pk_gen. cbv zeta. pose proof tmp_room as Hroom.
  assert (0 < n * SLH_WOTS_LEN n) by (unfold SLH_WOTS_LEN; nia).
  destruct (out_init (zeros (SLH_WOTS_LEN_MAX * SLH_MAX_N)) uninit_wpacket Halloc) as (w0 & E0 & Ho0); [lia|].
  rewrite (w_run_done _ _ _ _ E0). cbn [mbind option_bind].
  set (ds := replicate len 15).
  assert (Forall is_digit ds) as Hds by (apply Forall_replicate; unfold is_digit; lia).
  assert (length ds = len) as Hdl by apply length_replicate.
  assert (zlen ds = SLH_WOTS_LEN n) as Hdz by (unfold zlen; rewrite Hdl; unfold SLH_WOTS_LEN; lia).
  destruct (wots_loop_refines ds v kp a w0 [] (zlen (zeros (SLH_WOTS_LEN_MAX * SLH_MAX_N))) Ha Hds) as (sa' & a' & w' & u & E & Hu & Hch & Ho');
    [rewrite Hdz; unfold SLH_WOTS_LEN; lia|exact Ho0|rewrite Hdz, zlen_nil; lia|].
  match goal with |- context [for_loop ?m ?i ?b ?s] => assert (for_loop m i b s = Some (sa', a', w')) as -> end.
  { rewrite <- E, <- Hdl. apply for_loop_ext. intros j [[x y] z] Hj. cbv zeta.
    assert (byte_at ds j = NIBBLE_MASK) as ->; [|done]. unfold byte_at, ds.
    rewrite lookup_replicate_2; [done|]. rewrite Hdl in Hj. lia. }
  cbn [mbind option_bind app] in *. rewrite (total_written_eq _ _ _ Ho'). cbn [mbind option_bind].
  assert (rep (derive_adrs ctx a' SLH_ADRS_TYPE_WOTS_PK) (with_w1 kp (with_type SLH_ADRS_TYPE_WOTS_PK v))) as Hpk.
  { pose proof (derive_adrs_rep a' u SLH_ADRS_TYPE_WOTS_PK Hu ltac:(unfold SLH_ADRS_TYPE_WOTS_PK; lia)) as Hr.
    by rewrite (derive_chains v0 u) in Hr. }
  rewrite (law_T _ _ _ Hpk), (out_read_all _ _ _ Ho'). cbn [mbind option_bind].
  exists a', u. split; [|done]. unfold wots_pk, wots_compress. by rewrite wots_ends_sig.
Qed.

(** Verification reads one element of the signature per chain.  [xs] are the
    elements, [rest] what follows them in the packet. *)
Lemma wots_complete_take v kp i0 ds xs i d x :
  ds !! i = Some d -> xs !! i = Some x ->
  take (Datatypes.S i) (wots_complete S v kp i0 ds xs) =
  take i (wots_complete S v kp i0 ds xs) ++
    [chain S (wots_adrs v kp (i0 + Z.of_nat i)) x d (Z.to_nat (15 - d))].
Proof.
  intros Hd Hx. apply take_S_r. revert i0 i xs Hd Hx.
  induction ds as [|e ds IH]; intros i0 i xs Hd Hx; [done|]. destruct xs as [|y xs]; [done|].
  destruct i as [|i]; cbn in *.
  - simplify_eq. by rewrite Z.add_0_r.
  - etransitivity; [exact (IH (i0 + 1) i xs Hd Hx)|].
    by replace (i0 + 1 + Z.of_nat i) with (i0 + Z.of_nat (Datatypes.S i)) by lia.
Qed.
Lemma wots_complete_nbytes v kp i ds xs :
  Forall (nbytes n) xs -> Forall (nbytes n) (wots_complete S v kp i ds xs).
Proof.
  intros Hxs. revert i ds. induction Hxs as [|x xs Hx Hxs IH]; intros i [|d ds]; cbn; try constructor.
  - by apply chain_nbytes.
  - apply IH.
Qed.
Lemma wots_complete_length v kp i ds xs :
  length xs = length ds -> length (wots_complete S v kp i ds xs) = length ds.
Proof. revert i xs. induction ds as [|d ds IH]; intros i [|x xs] E; simplify_eq/=; auto. Qed.

Lemma wots_pk_from_sig_refines msg v kp a rpkt xs rest :
  rep a (with_w1 kp (with_type SLH_ADRS_TYPE_WOTS_HASH v)) -> bytes_ok msg -> n <= zlen msg ->
  Forall (nbytes n) xs -> length xs = len -> pkt_rep rpkt (concat xs ++ rest) ->
  exists a' u rpkt', ossl_slh_wots_pk_from_sig ctx rpkt msg pk_seed a =
      Some (wots_compress S v kp (wots_complete S v kp 0 (msg_and_csum_nibbles msg n) xs), a', rpkt') /\
    rep a' u /\ chains_adrs (with_w1 kp (with_type SLH_ADRS_TYPE_WOTS_HASH v)) u /\ pkt_rep rpkt' rest.
Proof.
  intros Ha Hm Hl Hxs Hxl Hp. set (v0 := with_w1 kp (with_type SLH_ADRS_TYPE_WOTS_HASH v)) in *.
  destruct (digits_ok msg n Hm ltac:(lia) Hl) as [Hz Hd]. set (ds := msg_and_csum_nibbles msg n) in *.
  assert (length ds = len) as Hdl by (unfold zlen in Hz; lia).
  unfold ossl_slh_wots_pk_from_sig. cbv zeta. pose proof tmp_room as Hroom.
  assert (0 < n * SLH_WOTS_LEN n) by (unfold SLH_WOTS_LEN; nia).
  destruct (out_init (zeros (SLH_WOTS_LEN_MAX * SLH_MAX_N)) uninit_wpacket Halloc) as (w0 & E0 & Ho0); [lia|].
  rewrite (w_run_done _ _ _ _ E0). cbn [mbind option_bind]. fold ds.
  set (cap := zlen (zeros (SLH_WOTS_LEN_MAX * SLH_MAX_N))) in *.
  set (done_ := wots_complete S v kp 0 ds xs).
  assert (length done_ = len) as Hdone by (unfold done_; rewrite wots_complete_length; lia).
  replace (Z.to_nat (SLH_WOTS_LEN1 n + SLH_WOTS_LEN2)) with len
    by (unfold SLH_WOTS_LEN, SLH_WOTS_LEN1, SLH_WOTS_LEN2 in *; lia).
  match goal with |- context [for_loop ?m ?i ?b ?s] => pose proof (for_loop_total
    (fun j '(a, w, r) => (exists u, rep a u /\ chains_adrs v0 u) /\
       wp_out w (concat (take (Z.to_nat j) done_)) cap /\
       pkt_rep r (concat (drop (Z.to_nat j) xs) ++ rest)) m i b s) as Hloop end.
  destruct Hloop as ([[a' w'] rpkt'] & -> & (u & Hu & Hch) & Ho' & Hp').
  - split_and!; [exists v0; split; [done|apply chains_adrs_refl]|exact Ho0|exact Hp].
  - intros j [[a1 w1] r1] Hj ((u & Hu & Hch) & Ho1 & Hp1). cbv beta iota.
    destruct (lookup_lt_is_Some_2 ds (Z.to_nat j)) as [d Hdj]; [lia|].
    destruct (lookup_lt_is_Some_2 xs (Z.to_nat j)) as [x Hxj]; [lia|].
    assert (byte_at ds j = d) as -> by (unfold byte_at; by rewrite Hdj).
    assert (is_digit d) as Hdr by (by eapply Forall_lookup_1 in Hd). unfold is_digit in Hdr.
    assert (nbytes n x) as Hx by (by eapply Forall_lookup_1 in Hxs). pose proof Hx as [Hxn _].
    rewrite (drop_S xs x) in Hp1 by done. rewrite concat_cons, <- app_assoc in Hp1.
    destruct (PACKET_get_bytes_app r1 x _ n Hp1 Hxn) as (r2 & -> & Hp2). cbn [mbind option_bind].
    assert (rep (set_chain_address (adrsf ctx) a1 j) (with_w2 j u)) as Ha1
      by (apply rep_chain; [done|unfold SLH_WOTS_LEN in *; lia]).
    assert (slice x 0 n = x) as Hsl by (by apply slice_whole).
    destruct (wots_chain_refines x d (15 - d) (with_w2 j u) _ w1 (concat (take (Z.to_nat j) done_)) cap Ha1)
      as (a2 & w2 & i3 & E & Ha2 & Ho2); [by rewrite Hsl|lia|lia|lia|exact Ho1| |].
    { rewrite (zlen_concat n) by (apply Forall_take; by apply wots_complete_nbytes).
      unfold zlen at 1. rewrite length_take, Hdone. unfold cap, SLH_WOTS_LEN in *. nia. }
    change (NIBBLE_MASK - d) with (15 - d). rewrite E. cbn [mbind option_bind].
    eexists; split; [done|]. split_and!.
    + exists (with_w3 i3 (with_w2 j u)). split; [done|]. destruct Hch as (p & q & ->). by exists j, i3.
    + replace (Z.to_nat (j + 1)) with (Datatypes.S (Z.to_nat j)) by lia. unfold done_.
      rewrite (wots_complete_take v kp 0 ds xs _ d x) by done.
      rewrite concat_snoc. rewrite Hsl, (chain_any v0 u) in Ho2 by done.
      replace (0 + Z.of_nat (Z.to_nat j)) with j by lia. exact Ho2.
    + by replace (Z.to_nat (j + 1)) with (Datatypes.S (Z.to_nat j)) by lia.
  - cbn [mbind option_bind].
    replace (0 + Z.of_nat len) with (Z.of_nat len) in * by lia. rewrite Nat2Z.id in *.
    rewrite take_ge in Ho' by lia. rewrite drop_ge in Hp' by lia.
    rewrite (total_written_eq _ _ _ Ho'). cbn [mbind option_bind].
    assert (rep (derive_adrs ctx a' SLH_ADRS_TYPE_WOTS_PK) (with_w1 kp (with_type SLH_ADRS_TYPE_WOTS_PK v))) as Hpk.
    { pose proof (derive_adrs_rep a' u SLH_ADRS_TYPE_WOTS_PK Hu ltac:(unfold SLH_ADRS_TYPE_WOTS_PK; lia)) as Hr.
      by rewrite (derive_chains v0 u) in Hr. }
    rewrite (law_T _ _ _ Hpk), (out_read_all _ _ _ Ho'). cbn [mbind option_bind].
    destruct (out_finish _ _ _ Ho') as (w'' & Ef). rewrite (w_run_done _ _ _ _ Ef). cbn [mbind option_bind].
    exists a', u, rpkt'. done.
Qed.
End Refine.

(** ** Properties *)

Lemma sum_le_eq l l' : Forall2 Z.le l l' -> sum_list l <= sum_list l' /\ (sum_list l' <= sum_list l -> l = l').
Proof.
  induction 1 as [|x y l l' Hxy Hl [IH1 IH2]]; [done|]. cbn. fold (sum_list l) (sum_list l').
  split; [lia|]. intros. f_equal; [lia|apply IH2; lia].
Qed.

Lemma nibbles_inj msg msg' :
  bytes_ok msg -> bytes_ok msg' -> length msg = length msg' ->
  flat_map (fun x => [Z.shiftr x NIBBLE_SHIFT; Z.land x NIBBLE_MASK]) msg =
  flat_map (fun x => [Z.shiftr x NIBBLE_SHIFT; Z.land x NIBBLE_MASK]) msg' -> msg = msg'.
Proof.
  intros Hm. revert msg'. induction Hm as [|x l Hx Hl IH]; intros [|y l'] Hm' E E'; [done|done|done|]. injection E as E. cbn [flat_map app] in E'.
  apply Forall_cons in Hm' as [Hy Hl']. injection E' as E1 E2 E3.
  pose proof (nibble_split x Hx) as [-> _]. pose proof (nibble_split y Hy) as [-> _].
  unfold NIBBLE_SHIFT, NIBBLE_MASK in *. rewrite E1, E2. f_equal. by apply IH.
Qed.

(** C22: the WOTS+ checksum does its job.  The digits of an [n]-byte message are
    [2n] base-16 digits followed by the three base-16 digits of
    15*2n - (sum of the digits), with no overflow in the 16-bit accumulator; and
    if the digits of one message are all at most those of another, the two
    messages are equal, so a signature for one message can never be completed to
    a signature of a different one by walking the chains forward. *)
Theorem wots_checksum_prevents_forging msg msg' n :
  bytes_ok msg -> bytes_ok msg' -> 0 <= n <= 32 -> zlen msg = n -> zlen msg' = n ->
  (let nib := slh_bytes_to_nibbles msg n in
   msg_and_csum_nibbles msg n =
     nib ++ [(30 * n - sum_list nib) / 256; (30 * n - sum_list nib) / 16 mod 16; (30 * n - sum_list nib) mod 16] /\
   0 <= 30 * n - sum_list nib < 4096) /\
  (Forall2 Z.le (msg_and_csum_nibbles msg n) (msg_and_csum_nibbles msg' n) -> msg = msg').
Proof.
  intros Hm Hm' Hn Hl Hl'.
  assert (forall m, bytes_ok m -> zlen m = n ->
    msg_and_csum_nibbles m n = slh_bytes_to_nibbles m n ++
      [(30 * n - sum_list (slh_bytes_to_nibbles m n)) / 256;
       (30 * n - sum_list (slh_bytes_to_nibbles m n)) / 16 mod 16;
       (30 * n - sum_list (slh_bytes_to_nibbles m n)) mod 16] /\
    0 <= 30 * n - sum_list (slh_bytes_to_nibbles m n) < 4096) as Heq.
  { intros m Hb Hz. pose proof (nibbles_length m n ltac:(lia)) as Hlen.
    pose proof (nibbles_digits m n Hb) as Hdg. unfold msg_and_csum_nibbles, SLH_WOTS_LEN1. rewrite <- Hlen.
    destruct (checksum_eq _ Hdg ltac:(lia)) as [-> Hc]. unfold csum_of in *. rewrite Hlen in *.
    by replace (30 * n) with (15 * (2 * n)) by lia. }
  split; [by apply Heq|]. destruct (Heq msg Hm Hl) as [-> Hc]. destruct (Heq msg' Hm' Hl') as [-> Hc'].
  set (nib := slh_bytes_to_nibbles msg n) in *. set (nib' := slh_bytes_to_nibbles msg' n) in *.
  assert (length nib = length nib') as Hnl.
  { pose proof (nibbles_length msg n ltac:(lia)). pose proof (nibbles_length msg' n ltac:(lia)).
    unfold nib, nib', zlen in *. lia. }
  intros HF. apply Forall2_app_inv in HF as [HF Hcs]; [|done].
  rewrite !Forall2_cons in Hcs. destruct Hcs as (H1 & H2 & H3 & _).
  destruct (sum_le_eq nib nib' HF) as [Hle Heqs].
  assert (sum_list nib' <= sum_list nib) as Hge by dlia. specialize (Heqs Hge).
  unfold nib, nib', slh_bytes_to_nibbles in Heqs. rewrite !slice_whole in Heqs by lia.
  apply nibbles_inj; [done|done|unfold zlen in *; lia|done].
Qed.

Lemma wots_checksum_prevents_forging_witness :
  msg_and_csum_nibbles [255; 1] 2 = [15; 15; 0; 1] ++ [0; 1; 13] /\
  (Forall2 Z.le (msg_and_csum_nibbles [255; 1] 2) (msg_and_csum_nibbles [255; 2] 2) -> [255; 1] = [255; 2]).
Proof.
  destruct (wots_checksum_prevents_forging [255; 1] [255; 2] 2) as [[H1 _] H2];
    [repeat constructor; unfold is_byte; lia|repeat constructor; unfold is_byte; lia|lia|done|done|].
  split; [exact H1|exact H2].
Defined.
