(* ===== verification/SlhXmss.v ===== *)
(** * XMSS trees

    Model of [crypto/slh_dsa/slh_xmss.c] and the proof that it computes the
    Merkle tree algorithms of [SlhSpec]. *)
From S2P Require Import Prelude.
From S2P Require Import ByteOrder.
From S2P Require Import Packet.
From S2P Require Import WPacket.
From S2P Require Import WPacketSpec.
From S2P Require Import WPacketOut.
From S2P Require Import SlhAdrs.
From S2P Require Import SlhParams.
From S2P Require Import SlhHash.
From S2P Require Import SlhSpec.
From S2P Require Import SlhWots.

Section Xmss.
Context `{EV : EVP} `{AL : Allocator}.

(** The recursion is on the height [h], a [uint32_t]; node indices are
    [uint32_t] too.  Returns the node and the ADRS buffer. *)
Fixpoint ossl_slh_xmss_node (ctx : SLH_DSA_HASH_CTX) (sk_seed : list Z) (node_id : Z) (h : nat)
    (pk_seed adrs : list Z) : option (list Z * list Z) :=
  match h with
  | O =>
      let adrs := set_type_and_clear (adrsf ctx) adrs SLH_ADRS_TYPE_WOTS_HASH in
      let adrs := set_keypair_address (adrsf ctx) adrs node_id in
      ossl_slh_wots_pk_gen ctx sk_seed pk_seed adrs
  | S h' =>
      '(l_node, adrs) ← ossl_slh_xmss_node ctx sk_seed (u32 (2 * node_id)) h' pk_seed adrs;
      '(r_node, adrs) ← ossl_slh_xmss_node ctx sk_seed (u32 (2 * node_id + 1)) h' pk_seed adrs;
      let adrs := set_type_and_clear (adrsf ctx) adrs SLH_ADRS_TYPE_TREE in
      let adrs := set_tree_height (adrsf ctx) adrs (Z.of_nat h) in
      let adrs := set_tree_index (adrsf ctx) adrs node_id in
      pk_out ← hf_H (hashf ctx) ctx pk_seed adrs l_node r_node;
      Some (pk_out, adrs)
  end.

Definition ossl_slh_xmss_sign (ctx : SLH_DSA_HASH_CTX) (msg sk_seed : list Z) (node_id : Z)
    (pk_seed adrs : list Z) (sig_wpkt : WPACKET) : option (list Z * WPACKET) :=
  let n := ctx_n ctx in
  let hm := p_hm (ctx_params ctx) in
  let tmp_adrs := adrs_copy (adrsf ctx) uninit_adrs adrs in
  let adrs := set_type_and_clear (adrsf ctx) adrs SLH_ADRS_TYPE_WOTS_HASH in
  let adrs := set_keypair_address (adrsf ctx) adrs node_id in
  '(adrs, sig_wpkt) ← ossl_slh_wots_sign ctx msg sk_seed pk_seed adrs sig_wpkt;
  let adrs := adrs_copy (adrsf ctx) adrs tmp_adrs in
  '(id, adrs, sig_wpkt) ← for_loop (Z.to_nat hm) 0 (fun h '(id, adrs, sig_wpkt) =>
    '(auth_path, sig_wpkt) ← w_run (WPACKET_allocate_bytes n) sig_wpkt;
    auth_path ← auth_path;
    '(node, adrs) ← ossl_slh_xmss_node ctx sk_seed (Z.lxor id 1) (Z.to_nat h) pk_seed adrs;
    '(_, sig_wpkt) ← w_run (wp_store auth_path node) sig_wpkt;
    Some (Z.shiftr id 1, adrs, sig_wpkt)) (node_id, adrs, sig_wpkt);
  Some (adrs, sig_wpkt).

Definition ossl_slh_xmss_pk_from_sig (ctx : SLH_DSA_HASH_CTX) (node_id : Z) (sig_rpkt : PACKET)
    (msg pk_seed adrs : list Z) : option (list Z * list Z * PACKET) :=
  let n := ctx_n ctx in
  let hm := p_hm (ctx_params ctx) in
  let adrs := set_type_and_clear (adrsf ctx) adrs SLH_ADRS_TYPE_WOTS_HASH in
  let adrs := set_keypair_address (adrsf ctx) adrs node_id in
  '(node, adrs, sig_rpkt) ← ossl_slh_wots_pk_from_sig ctx sig_rpkt msg pk_seed adrs;
  let adrs := set_type_and_clear (adrsf ctx) adrs SLH_ADRS_TYPE_TREE in
  '(node, node_id, adrs, sig_rpkt) ←
    for_loop (Z.to_nat hm) 0 (fun k '(node, node_id, adrs, sig_rpkt) =>
      '(auth_path, sig_rpkt) ← PACKET_get_bytes sig_rpkt n;
      let adrs := set_tree_height (adrsf ctx) adrs (k + 1) in
      if Z.land node_id 1 =? 0 then
        let node_id := Z.shiftr node_id 1 in
        let adrs := set_tree_index (adrsf ctx) adrs node_id in
        node ← hf_H (hashf ctx) ctx pk_seed adrs node auth_path;
        Some (node, node_id, adrs, sig_rpkt)
      else
        let node_id := Z.shiftr (u32 (node_id - 1)) 1 in
        let adrs := set_tree_index (adrsf ctx) adrs node_id in
        node ← hf_H (hashf ctx) ctx pk_seed adrs auth_path node;
        Some (node, node_id, adrs, sig_rpkt)) (node, node_id, adrs, sig_rpkt);
  Some (node, adrs, sig_rpkt).
End Xmss.

(** ** The functions compute the specification *)

Section Refine.
Context `{EV : EVP} `{AL : Allocator}.
Context (Halloc : forall n s, malloc_ok n s = true).
Context (ctx : SLH_DSA_HASH_CTX) (Hn : 16 <= ctx_n ctx <= 32) (Hhm : 0 <= p_hm (ctx_params ctx) <= 9).
Context (enc : ADRS -> list Z) (rep : list Z -> ADRS -> Prop) (S : hash_sem).
Context `{RL : !AdrsLaws (adrsf ctx) enc rep} `{SL : !SemLaws (ctx_n ctx) S}.
Context (pk_seed : list Z) `{HL : !HashLaws ctx rep pk_seed S}.
Abbreviation n := (ctx_n ctx).
Abbreviation len := (Z.to_nat (SLH_WOTS_LEN n)).
Abbreviation hm := (Z.to_nat (p_hm (ctx_params ctx))).

(** The layer and tree of an address: what a tree computation preserves. *)
Definition same_tree (v u : ADRS) : Prop := a_layer u = a_layer v /\ a_tree u = a_tree v.

Lemma same_tree_type v u t : same_tree v u -> with_type t u = with_type t v.
Proof. intros [E1 E2]. unfold with_type. by rewrite E1, E2. Qed.
Lemma same_tree_refl v : same_tree v v.
Proof. done. Qed.
Lemma same_tree_chains v u kp t : chains_adrs (with_w1 kp (with_type t v)) u -> same_tree v u.
Proof. by intros (i & j & ->). Qed.

Section Prf.
Context (sk_seed : list Z) `{PL : !PrfLaws ctx rep pk_seed sk_seed S}.

Lemma xmss_node_refines h i v u a :
  rep a u -> same_tree v u -> 0 <= i -> (i + 1) * 2 ^ Z.of_nat h <= 4294967296 -> (h <= 32)%nat ->
  exists a' u', ossl_slh_xmss_node ctx sk_seed i h pk_seed a = Some (xmss_node S v len h i, a') /\
    rep a' u' /\ same_tree v u'.
Proof.
  revert i u a. induction h as [|h IH]; intros i u a Ha Hv Hi Hr Hh; cbn [ossl_slh_xmss_node].
  - assert (rep (set_keypair_address (adrsf ctx) (set_type_and_clear (adrsf ctx) a SLH_ADRS_TYPE_WOTS_HASH) i)
      (with_w1 i (with_type SLH_ADRS_TYPE_WOTS_HASH v))) as Hrep.
    { rewrite <- (same_tree_type v u) by done. apply rep_keypair; [|simpl in Hr; lia].
      apply rep_type; [done|unfold SLH_ADRS_TYPE_WOTS_HASH; lia]. }
    destruct (wots_pk_gen_refines Halloc ctx Hn enc rep S pk_seed sk_seed v i _ Hrep) as (a' & u' & -> & Hu & Hch).
    exists a', u'. split; [done|]. split; [done|]. by eapply same_tree_chains.
  - rewrite Nat2Z.inj_succ, Z.pow_succ_r in Hr by lia.
    assert (1 <= 2 ^ Z.of_nat h) by (pose proof (Z.pow_pos_nonneg 2 (Z.of_nat h)); lia).
    rewrite !u32_small by nia.
    destruct (IH (2 * i) u a Ha Hv) as (a1 & u1 & -> & Hu1 & Hv1); [lia|nia|lia|]. cbn [mbind option_bind].
    destruct (IH (2 * i + 1) u1 a1 Hu1 Hv1) as (a2 & u2 & -> & Hu2 & Hv2); [lia|nia|lia|]. cbn [mbind option_bind].
    match goal with |- context [hf_H _ _ _ ?b _ _] => assert (rep b (xmss_tw v (Z.of_nat (Datatypes.S h)) i)) as Hrep end.
    { unfold xmss_tw. rewrite <- (same_tree_type v u2) by done. apply rep_index; [|nia].
      apply rep_height; [|lia]. apply rep_type; [done|unfold SLH_ADRS_TYPE_TREE; lia]. }
    rewrite (law_H _ _ _ _ Hrep). cbn [mbind option_bind].
    eexists _, _. split; [done|]. split; [exact Hrep|done].
Qed.

Lemma xmss_auth_lookup v idx j :
  (j < hm)%nat -> xmss_auth S v len hm idx !! j = Some (xmss_node S v len j (Z.lxor (idx / 2 ^ Z.of_nat j) 1)).
Proof.
  unfold xmss_auth. intros Hj. by rewrite auth_lookup.
Qed.

Lemma xmss_sign_refines msg idx v u a w data cap :
  rep a u -> same_tree v u -> bytes_ok msg -> n <= zlen msg -> 0 <= idx < 2 ^ p_hm (ctx_params ctx) ->
  wp_out w data cap -> zlen data + n * (SLH_WOTS_LEN n + p_hm (ctx_params ctx)) <= cap ->
  exists a' w' u', ossl_slh_xmss_sign ctx msg sk_seed idx pk_seed a w = Some (a', w') /\
    rep a' u' /\ same_tree v u' /\
    wp_out w' (data ++ concat (wots_sig S v idx 0 (msg_and_csum_nibbles msg n) ++ xmss_auth S v len hm idx)) cap.
Proof.
  intros Ha Hv Hm Hl Hi Ho Hc. unfold ossl_slh_xmss_sign. cbv zeta.
  assert (2 ^ p_hm (ctx_params ctx) <= 512) as Hpow.
  { change 512 with (2 ^ 9). apply Z.pow_le_mono_r; lia. }
  assert (rep (set_keypair_address (adrsf ctx) (set_type_and_clear (adrsf ctx) a SLH_ADRS_TYPE_WOTS_HASH) idx)
    (with_w1 idx (with_type SLH_ADRS_TYPE_WOTS_HASH v))) as Hrep.
  { rewrite <- (same_tree_type v u) by done. apply rep_keypair; [|lia].
    apply rep_type; [done|unfold SLH_ADRS_TYPE_WOTS_HASH; lia]. }
  destruct (wots_sign_refines ctx Hn enc rep S pk_seed sk_seed msg v idx _ w data cap Hrep Hm Hl Ho)
    as (a1 & w1 & u1 & -> & Hu1 & Hch1 & Ho1); [nia|]. cbn [mbind option_bind].
  set (sig := wots_sig S v idx 0 (msg_and_csum_nibbles msg n)) in *.
  destruct (digits_ok msg n Hm ltac:(lia) Hl) as [Hdz _].
  assert (Forall (nbytes n) sig) as Hsigb by (by apply wots_sig_nbytes).
  assert (zlen (concat sig) = n * SLH_WOTS_LEN n) as Hsigl.
  { rewrite (zlen_concat n) by done. unfold sig, zlen in *. by rewrite wots_sig_length, Hdz. }
  set (path := xmss_auth S v len hm idx).
  assert (length path = hm) as Hpl by apply auth_length.
  assert (Forall (nbytes n) path) as Hpb by (apply auth_nbytes; [done|intros j; by apply sT_n]).
  assert (rep (adrs_copy (adrsf ctx) a1 (adrs_copy (adrsf ctx) uninit_adrs a)) u) as Hrep1.
  { apply rep_copy; [by eapply rep_length|]. by apply rep_copy. }
  match goal with |- context [for_loop ?m ?i ?b ?s] => pose proof (for_loop_total
    (fun j '(id, a, w) => id = idx / 2 ^ j /\ (exists u, rep a u /\ same_tree v u) /\
       wp_out w (data ++ concat (sig ++ take (Z.to_nat j) path)) cap) m i b s) as Hloop end.
  destruct Hloop as ([[id' a'] w'] & -> & _ & (u' & Hu' & Hv') & Ho').
  - split_and!; [by rewrite Z.div_1_r|by exists u|]. cbn [take]. by rewrite app_nil_r.
  - intros j [[id a2] w2] Hj (-> & (u2 & Hu2 & Hv2) & Ho2). cbv beta iota.
    assert (zlen (concat (sig ++ take (Z.to_nat j) path)) = n * (SLH_WOTS_LEN n + j)) as Hlen.
    { rewrite concat_app, zlen_app, Hsigl, (zlen_concat n) by (by apply Forall_take).
      unfold zlen. rewrite length_take, Hpl. nia. }
    destruct (out_alloc w2 _ cap n Ho2) as (w3 & hole & Ea & Hh & Ho3); [lia|rewrite zlen_app, Hlen; nia|].
    rewrite (w_run_done _ _ _ _ Ea). cbn [mbind option_bind].
    assert (0 <= idx / 2 ^ j /\ Z.lxor (idx / 2 ^ j) 1 + 1 <= 2 ^ (p_hm (ctx_params ctx) - j) /\
      0 <= Z.lxor (idx / 2 ^ j) 1) as (Hi0 & Hi1 & Hi2).
    { assert (0 < 2 ^ j) by (apply Z.pow_pos_nonneg; lia).
      assert (2 ^ p_hm (ctx_params ctx) = 2 ^ j * (2 * 2 ^ (p_hm (ctx_params ctx) - j - 1))) as Hsplit.
      { rewrite <- Z.pow_succ_r, <- Z.pow_add_r by lia. f_equal. lia. }
      assert (2 ^ (p_hm (ctx_params ctx) - j) = 2 * 2 ^ (p_hm (ctx_params ctx) - j - 1)) as ->
        by (rewrite <- Z.pow_succ_r by lia; f_equal; lia).
      assert (0 <= idx / 2 ^ j < 2 * 2 ^ (p_hm (ctx_params ctx) - j - 1)) as Hd.
      { split; [apply Z.div_pos; lia|]. apply Z.div_lt_upper_bound; lia. }
      revert Hd. generalize (idx / 2 ^ j) (2 ^ (p_hm (ctx_params ctx) - j - 1)). intros q r Hd.
      rewrite sibling by lia. split; [lia|]. destruct (Z.eqb_spec (q mod 2) 0); dlia. }
    destruct (xmss_node_refines (Z.to_nat j) (Z.lxor (idx / 2 ^ j) 1) v u2 a2 Hu2 Hv2)
      as (a3 & u3 & -> & Hu3 & Hv3); [lia| |lia|].
    { rewrite Z2Nat.id by lia.
      assert (2 ^ p_hm (ctx_params ctx) = 2 ^ (p_hm (ctx_params ctx) - j) * 2 ^ j) as Hsplit
        by (rewrite <- Z.pow_add_r by lia; f_equal; lia).
      assert (0 < 2 ^ j) by (apply Z.pow_pos_nonneg; lia). nia. }
    cbn [mbind option_bind].
    assert (nbytes n (xmss_node S v len (Z.to_nat j) (Z.lxor (idx / 2 ^ j) 1))) as [Hnl _]
      by (apply node_nbytes; [done|intros k; by apply sT_n]).
    destruct (out_store_end w3 _ hole cap _ Ho3 (eq_trans Hnl (eq_sym Hh))) as (w4 & Es & Ho4).
    rewrite (w_run_done _ _ _ _ Es). cbn [mbind option_bind]. eexists; split; [done|]. split_and!.
    + rewrite Z.shiftr_div_pow2, Z.div_div, <- Z.pow_add_r by (try apply Z.pow_pos_nonneg; lia). done.
    + by exists u3.
    + replace (Z.to_nat (j + 1)) with (Datatypes.S (Z.to_nat j)) by lia.
      erewrite take_S_r by (apply xmss_auth_lookup; lia).
      rewrite app_assoc, concat_snoc, app_assoc, Z2Nat.id by lia. exact Ho4.
  - cbn [mbind option_bind]. exists a', w', u'. split; [done|]. split; [done|]. split; [done|].
    rewrite take_ge in Ho'; [done|]. lia.
Qed.
End Prf.

Lemma land_1 x : Z.land x 1 = x mod 2.
Proof. change 1 with (Z.ones 1). by rewrite Z.land_ones. Qed.

(** Walking up one level, as both XMSS and FORS verification do it. *)
Lemma parent_index i :
  0 <= i < 4294967296 -> Z.shiftr i 1 = i / 2 /\ (i mod 2 <> 0 -> Z.shiftr (u32 (i - 1)) 1 = i / 2).
Proof.
  intros Hi. split; [by rewrite Z.shiftr_div_pow2|]. intros Ho.
  rewrite u32_small by dlia. rewrite Z.shiftr_div_pow2 by lia. change (2 ^ 1) with 2. dlia.
Qed.

Lemma climb_nbytes tw h i x p : nbytes n x -> nbytes n (climb S tw h i x p).
Proof.
  revert h i x. induction p as [|b p IH]; intros h i x Hx; [done|]. cbn [climb]. apply IH.
  destruct (_ =? 0); by apply sH_n.
Qed.

Lemma xmss_pk_from_sig_refines msg idx v u a rpkt xs path rest :
  rep a u -> same_tree v u -> bytes_ok msg -> n <= zlen msg -> 0 <= idx < 4294967296 ->
  Forall (nbytes n) xs -> length xs = len -> Forall (nbytes n) path -> length path = hm ->
  pkt_rep rpkt (concat (xs ++ path) ++ rest) ->
  exists a' u' rpkt', ossl_slh_xmss_pk_from_sig ctx idx rpkt msg pk_seed a =
      Some (xmss_root S v idx (msg_and_csum_nibbles msg n) xs path, a', rpkt') /\
    rep a' u' /\ same_tree v u' /\ pkt_rep rpkt' rest.
Proof.
  intros Ha Hv Hm Hl Hi Hxs Hxl Hps Hpl Hp. unfold ossl_slh_xmss_pk_from_sig. cbv zeta.
  assert (rep (set_keypair_address (adrsf ctx) (set_type_and_clear (adrsf ctx) a SLH_ADRS_TYPE_WOTS_HASH) idx)
    (with_w1 idx (with_type SLH_ADRS_TYPE_WOTS_HASH v))) as Hrep.
  { rewrite <- (same_tree_type v u) by done. apply rep_keypair; [|lia].
    apply rep_type; [done|unfold SLH_ADRS_TYPE_WOTS_HASH; lia]. }
  rewrite concat_app, <- app_assoc in Hp.
  destruct (wots_pk_from_sig_refines Halloc ctx Hn enc rep S pk_seed msg v idx _ rpkt xs _ Hrep Hm Hl Hxs Hxl Hp)
    as (a1 & u1 & r1 & -> & Hu1 & Hch1 & Hp1). cbn [mbind option_bind].
  set (leaf := wots_compress S v idx (wots_complete S v idx 0 (msg_and_csum_nibbles msg n) xs)).
  assert (rep (set_type_and_clear (adrsf ctx) a1 SLH_ADRS_TYPE_TREE) (with_type SLH_ADRS_TYPE_TREE v)) as Hrep1.
  { rewrite <- (same_tree_type v u1) by (by eapply same_tree_chains).
    apply rep_type; [done|unfold SLH_ADRS_TYPE_TREE; lia]. }
  match goal with |- context [for_loop ?m ?lo ?b ?s] => pose proof (for_loop_total
    (fun k '(node, id, a, r) => node = climb S (xmss_tw v) 0 idx leaf (take (Z.to_nat k) path) /\
       id = idx / 2 ^ k /\
       (exists i j, rep a (with_w3 j (with_w2 i (with_type SLH_ADRS_TYPE_TREE v)))) /\
       pkt_rep r (concat (drop (Z.to_nat k) path) ++ rest)) m lo b s) as Hloop end.
  destruct Hloop as ([[[node' id'] a'] r'] & -> & -> & _ & (i & j & Hu') & Hp').
  - split_and!; [done|by rewrite Z.div_1_r|by exists 0, 0|done].
  - intros k [[[x id] a2] r2] Hk (-> & -> & (i & j & Hu2) & Hp2). cbv beta iota.
    destruct (lookup_lt_is_Some_2 path (Z.to_nat k)) as [y Hy]; [lia|].
    assert (nbytes n y) as [Hyn _] by (by eapply Forall_lookup_1 in Hps).
    rewrite (drop_S path y) in Hp2 by done. rewrite concat_cons, <- app_assoc in Hp2.
    destruct (PACKET_get_bytes_app r2 y _ n Hp2 Hyn) as (r3 & -> & Hp3). cbn [mbind option_bind].
    assert (0 <= idx / 2 ^ k < 4294967296) as Hidk.
    { assert (0 < 2 ^ k) by (apply Z.pow_pos_nonneg; lia). split; [apply Z.div_pos; lia|].
      apply Z.div_lt_upper_bound; nia. }
    destruct (parent_index (idx / 2 ^ k) Hidk) as [Hsh Hsh']. rewrite land_1.
    assert (zlen (take (Z.to_nat k) path) = k) as Hzk by (unfold zlen; rewrite length_take; lia).
    assert (forall a3, rep a3 (with_w3 j (with_w2 i (with_type SLH_ADRS_TYPE_TREE v))) ->
      rep (set_tree_index (adrsf ctx) (set_tree_height (adrsf ctx) a3 (k + 1)) (idx / 2 ^ k / 2))
        (xmss_tw v (k + 1) (idx / 2 ^ k / 2))) as Hset.
    { intros a3 Ha3. apply (rep_index _ (with_w3 j (with_w2 (k + 1) (with_type SLH_ADRS_TYPE_TREE v)))); [|dlia].
      apply (rep_height _ (with_w3 j (with_w2 i (with_type SLH_ADRS_TYPE_TREE v)))); [done|lia]. }
    specialize (Hset _ Hu2).
    assert (take (Z.to_nat (k + 1)) path = take (Z.to_nat k) path ++ [y]) as Htk.
    { replace (Z.to_nat (k + 1)) with (Datatypes.S (Z.to_nat k)) by lia. by apply take_S_r. }
    assert (idx / 2 ^ (k + 1) = idx / 2 ^ k / 2) as Hdiv.
    { rewrite Z.pow_add_r, Z.pow_1_r, Z.div_div by (try apply Z.pow_pos_nonneg; lia). done. }
    destruct (Z.eqb_spec ((idx / 2 ^ k) mod 2) 0) as [Ev|Od].
    + rewrite Hsh, (law_H _ _ _ _ Hset). cbn [mbind option_bind]. eexists; split; [done|]. split_and!.
      * rewrite Htk, climb_snoc, Hzk. cbv zeta. rewrite Ev. done.
      * done.
      * by exists (k + 1), (idx / 2 ^ k / 2).
      * by replace (Z.to_nat (k + 1)) with (Datatypes.S (Z.to_nat k)) by lia.
    + rewrite Hsh' by done. rewrite (law_H _ _ _ _ Hset). cbn [mbind option_bind]. eexists; split; [done|]. split_and!.
      * rewrite Htk, climb_snoc, Hzk. cbv zeta. by destruct (Z.eqb_spec ((idx / 2 ^ k) mod 2) 0).
      * done.
      * by exists (k + 1), (idx / 2 ^ k / 2).
      * by replace (Z.to_nat (k + 1)) with (Datatypes.S (Z.to_nat k)) by lia.
  - cbn [mbind option_bind]. replace (Z.to_nat (0 + Z.of_nat hm)) with hm in * by lia.
    rewrite take_ge by lia. rewrite drop_ge in Hp' by lia.
    eexists a', _, r'. split; [done|]. split; [exact Hu'|]. done.
Qed.
End Refine.
