(* ===== verification/SlhHypertree.v ===== *)
(** * The hypertree

    Model of [crypto/slh_dsa/slh_hypertree.c] and the proof that signing writes
    the signature of [SlhSpec.ht_sig] and that verification accepts exactly when
    the root recomputed from the signature is the public root. *)
From S2P Require Import Prelude.
From S2P Require Import ByteOrder.
From S2P Require Import Packet.
From S2P Require Import WPacket.
From S2P Require Import WPacketSpec.
From S2P Require Import WPacketOut.
From S2P Require Import SlhAdrs.
From S2P Require Import SlhParams.
From S2P Require Import SlhHash.
From S2P Require Import SlhSpec.
From S2P Require Import SlhWots.
From S2P Require Import SlhXmss.

Section Hypertree.
Context `{EV : EVP} `{AL : Allocator}.

(** [PACKET_buf_init(rpkt, psig, WPACKET_get_curr(wpkt) - psig)]: a reader over
    what was written since [psig]. *)
Definition packet_since (wpkt : WPACKET) (psig : option Z) : option PACKET :=
  psig ← psig; curr ← WPACKET_get_curr wpkt; buf ← GETBUF wpkt;
  PACKET_buf_init buf psig (curr - psig).

Definition ossl_slh_ht_sign (ctx : SLH_DSA_HASH_CTX) (msg sk_seed pk_seed : list Z)
    (tree_id leaf_id : Z) (sig_wpkt : WPACKET) : option WPACKET :=
  let n := ctx_n ctx in
  let d := p_d (ctx_params ctx) in
  let hm := p_hm (ctx_params ctx) in
  let mask := u32 (Z.shiftl 1 hm - 1) in
  let adrs := adrs_zero (adrsf ctx) uninit_adrs in
  let root := slice msg 0 n in
  '(adrs, root, tree_id, leaf_id, sig_wpkt) ←
    for_loop (Z.to_nat d) 0 (fun layer '(adrs, root, tree_id, leaf_id, sig_wpkt) =>
      let adrs := set_layer_address (adrsf ctx) adrs layer in
      let adrs := set_tree_address (adrsf ctx) adrs tree_id in
      let psig := WPACKET_get_curr sig_wpkt in
      '(adrs, sig_wpkt) ← ossl_slh_xmss_sign ctx root sk_seed leaf_id pk_seed adrs sig_wpkt;
      if layer <? d - 1 then
        xmss_sig_rpkt ← packet_since sig_wpkt psig;
        '(root, adrs, _) ← ossl_slh_xmss_pk_from_sig ctx leaf_id xmss_sig_rpkt root pk_seed adrs;
        Some (adrs, root, Z.shiftr tree_id hm, u32 (Z.land tree_id mask), sig_wpkt)
      else Some (adrs, root, tree_id, leaf_id, sig_wpkt)) (adrs, root, tree_id, leaf_id, sig_wpkt);
  Some sig_wpkt.

(** [Some] of the packet that is left is the return value 1. *)
Definition ossl_slh_ht_verify (ctx : SLH_DSA_HASH_CTX) (msg : list Z) (sig_pkt : PACKET)
    (pk_seed : list Z) (tree_id leaf_id : Z) (pk_root : list Z) : option PACKET :=
  let n := ctx_n ctx in
  let d := p_d (ctx_params ctx) in
  let tree_height := p_hm (ctx_params ctx) in
  let mask := u32 (Z.shiftl 1 tree_height - 1) in
  let adrs := adrs_zero (adrsf ctx) uninit_adrs in
  let node := slice msg 0 n in
  '(adrs, node, tree_id, leaf_id, sig_pkt) ←
    for_loop (Z.to_nat d) 0 (fun layer '(adrs, node, tree_id, leaf_id, sig_pkt) =>
      let adrs := set_layer_address (adrsf ctx) adrs layer in
      let adrs := set_tree_address (adrsf ctx) adrs tree_id in
      '(node, adrs, sig_pkt) ← ossl_slh_xmss_pk_from_sig ctx leaf_id sig_pkt node pk_seed adrs;
      Some (adrs, node, Z.shiftr tree_id tree_height, u32 (Z.land tree_id mask), sig_pkt))
      (adrs, node, tree_id, leaf_id, sig_pkt);
  if bool_decide (slice node 0 n = slice pk_root 0 n) then Some sig_pkt else None.
End Hypertree.

Section Refine.
Context `{EV : EVP} `{AL : Allocator}.
Context (Halloc : forall n s, malloc_ok n s = true).
Context (ctx : SLH_DSA_HASH_CTX) (Hp : params_ok (ctx_params ctx)).
Context (enc : ADRS -> list Z) (rep : list Z -> ADRS -> Prop) (S : hash_sem).
Context `{RL : !AdrsLaws (adrsf ctx) enc rep} `{SL : !SemLaws (ctx_n ctx) S}.
Context (pk_seed : list Z) `{HL : !HashLaws ctx rep pk_seed S}.
Abbreviation n := (ctx_n ctx).
Abbreviation len := (Z.to_nat (SLH_WOTS_LEN n)).
Abbreviation hm := (Z.to_nat (p_hm (ctx_params ctx))).
Abbreviation d := (Z.to_nat (p_d (ctx_params ctx))).
Definition digits_of (m : list Z) : list Z := msg_and_csum_nibbles m n.

Lemma n_range : 16 <= n <= 32.
Proof. destruct Hp as (H & _). unfold ctx_n. lia. Qed.
Lemma hm_range : 0 <= p_hm (ctx_params ctx) <= 9.
Proof. destruct Hp as (_ & _ & H & _). lia. Qed.
Lemma d_range : 1 <= p_d (ctx_params ctx) <= 22.
Proof. destruct Hp as (_ & H & _). lia. Qed.

Lemma digits_of_ok m :
  nbytes n m -> length (digits_of m) = len /\ Forall (fun x => 0 <= x <= 15) (digits_of m).
Proof.
  intros [Hz Hb]. pose proof n_range. destruct (digits_ok m n Hb ltac:(lia) ltac:(lia)) as [Hl Hd].
  split; [|exact Hd]. unfold digits_of, zlen in *. lia.
Qed.

(** The masks of the two loops. *)
Lemma ht_step_ids tree :
  0 <= tree < 18446744073709551616 ->
  Z.shiftr tree (p_hm (ctx_params ctx)) = tree / 2 ^ Z.of_nat hm /\
  u32 (Z.land tree (u32 (Z.shiftl 1 (p_hm (ctx_params ctx)) - 1))) = tree mod 2 ^ Z.of_nat hm /\
  0 <= tree / 2 ^ Z.of_nat hm < 18446744073709551616 /\ 0 <= tree mod 2 ^ Z.of_nat hm < 2 ^ p_hm (ctx_params ctx).
Proof.
  intros Ht. pose proof hm_range. rewrite Z2Nat.id by lia.
  assert (0 < 2 ^ p_hm (ctx_params ctx) <= 512) as Hpow.
  { split; [apply Z.pow_pos_nonneg; lia|]. change 512 with (2 ^ 9). apply Z.pow_le_mono_r; lia. }
  rewrite Z.shiftl_1_l, (u32_small (_ - 1)) by lia. rewrite Z.sub_1_r, <- Z.ones_equiv, Z.land_ones by lia.
  pose proof (Z.mod_pos_bound tree (2 ^ p_hm (ctx_params ctx)) ltac:(lia)).
  rewrite Z.shiftr_div_pow2 by lia. split_and!; try done; try lia.
  - apply u32_small. lia.
  - apply Z.div_pos; lia.
  - apply Z.div_lt_upper_bound; nia.
Qed.

Lemma layer_adrs_rep a u layer tree :
  rep a u -> 0 <= layer < 256 -> 0 <= tree < 18446744073709551616 ->
  exists u', rep (set_tree_address (adrsf ctx) (set_layer_address (adrsf ctx) a layer) tree) u' /\
    same_tree (ht_adrs layer tree) u'.
Proof.
  intros Ha Hl Ht. exists (with_tree tree (with_layer layer u)). split; [|done].
  apply rep_tree; [|done]. by apply rep_layer.
Qed.

(** Splitting the elements of one layer off a signature. *)
Lemma layer_split (sig : list (list Z)) k :
  length sig = (Datatypes.S k * (len + hm))%nat -> Forall (nbytes n) sig ->
  sig = take len sig ++ take hm (drop len sig) ++ drop (len + hm) sig /\
  length (take len sig) = len /\ length (take hm (drop len sig)) = hm /\
  length (drop (len + hm) sig) = (k * (len + hm))%nat /\
  Forall (nbytes n) (take len sig) /\ Forall (nbytes n) (take hm (drop len sig)) /\
  Forall (nbytes n) (drop (len + hm) sig).
Proof.
  intros Hl Hf. split.
  - rewrite <- (take_drop len sig) at 1. f_equal. rewrite <- (take_drop hm (drop len sig)) at 1.
    by rewrite drop_drop.
  - rewrite !length_take, !length_drop. split_and!; try lia; auto using Forall_take, Forall_drop.
Qed.

Lemma ht_verify_refines msg rpkt tree leaf root sig rest :
  nbytes n (slice msg 0 n) -> 0 <= tree < 18446744073709551616 -> 0 <= leaf < 2 ^ p_hm (ctx_params ctx) ->
  Forall (nbytes n) sig -> length sig = (d * (len + hm))%nat -> pkt_rep rpkt (concat sig ++ rest) ->
  exists rpkt', pkt_rep rpkt' rest /\
    ossl_slh_ht_verify ctx msg rpkt pk_seed tree leaf root =
      if bool_decide (ht_root S digits_of len hm d 0 tree leaf (slice msg 0 n) sig = slice root 0 n)
      then Some rpkt' else None.
Proof.
  intros Hm Ht Hlf Hsig Hsl Hr. pose proof n_range. pose proof hm_range. pose proof d_range.
  assert (2 ^ p_hm (ctx_params ctx) <= 512) as Hpow.
  { change 512 with (2 ^ 9). apply Z.pow_le_mono_r; lia. }
  unfold ossl_slh_ht_verify. cbv zeta.
  match goal with |- context [for_loop ?m ?lo ?b ?s] => pose proof (for_loop_total
    (fun j '(a, node, tr, lf, r) => exists more, (exists u, rep a u) /\ nbytes n node /\
       0 <= tr < 18446744073709551616 /\ 0 <= lf < 2 ^ p_hm (ctx_params ctx) /\
       Forall (nbytes n) more /\ length more = ((d - Z.to_nat j) * (len + hm))%nat /\
       pkt_rep r (concat more ++ rest) /\
       ht_root S digits_of len hm d 0 tree leaf (slice msg 0 n) sig =
         ht_root S digits_of len hm (d - Z.to_nat j) j tr lf node more) m lo b s) as Hloop end.
  destruct Hloop as ([[[[a' node'] tr'] lf'] r'] & -> & more & _ & Hnode & _ & _ & _ & Hml & Hp' & Heq).
  - exists sig. rewrite Nat.sub_0_r. split_and!; try done; try lia.
    exists adrs0. by apply rep_zero.
  - intros j [[[[a1 node] tr] lf] r1] Hj (more & (u & Hu) & Hnode & Htr & Hlf1 & Hmf & Hml & Hp1 & Heq).
    cbv beta iota.
    destruct (layer_adrs_rep a1 u j tr Hu ltac:(lia) Htr) as (u1 & Hu1 & Hst).
    assert (d - Z.to_nat j = Datatypes.S (d - Z.to_nat (j + 1)))%nat as Hdj by lia. rewrite Hdj in Hml, Heq.
    destruct (layer_split more _ Hml Hmf) as (Hsp & L1 & L2 & L3 & F1 & F2 & F3).
    assert (concat more ++ rest = concat (take len more ++ take hm (drop len more)) ++
      concat (drop (len + hm) more) ++ rest) as Hcat
      by (rewrite Hsp at 1; by rewrite !concat_app, <- !app_assoc).
    rewrite Hcat in Hp1.
    destruct (xmss_pk_from_sig_refines Halloc ctx ltac:(lia) ltac:(lia) enc rep S pk_seed node lf
      (ht_adrs j tr) u1 _ r1 (take len more) (take hm (drop len more)) (concat (drop (len + hm) more) ++ rest) Hu1 Hst)
      as (a2 & u2 & r2 & -> & Hu2 & Hst2 & Hp2); try done.
    { apply Hnode. } { destruct Hnode; lia. } { lia. }
    cbn [mbind option_bind]. eexists; split; [done|]. exists (drop (len + hm) more).
    destruct (ht_step_ids tr Htr) as (E1 & E2 & R1 & R2). rewrite E1, E2. split_and!; try done; try lia.
    + by exists u2.
    + by apply climb_nbytes, sT_n.
  - cbn [mbind option_bind]. replace (0 + Z.of_nat d) with (Z.of_nat d) in * by lia.
    rewrite Nat2Z.id, Nat.sub_diag in *. destruct more as [|x more]; [|done].
    exists r'. split; [done|]. rewrite (slice_whole node') by apply Hnode. by rewrite Heq.
Qed.

Section Prf.
Context (sk_seed : list Z) `{PL : !PrfLaws ctx rep pk_seed sk_seed S}.

Lemma out_get_curr w data cap : wp_out w data cap -> WPACKET_get_curr w = Some (zlen data).
Proof.
  intros Ho. pose proof (out_written _ _ _ Ho) as Hw. destruct (out_buf _ _ _ Ho) as (b & _ & Hg & _).
  destruct Ho as (Hwf & He & _). unfold WPACKET_get_curr. rewrite Hg, He. f_equal.
  destruct Hwf as (_ & _ & -> & _). done.
Qed.

Lemma packet_since_ok w data x cap :
  wp_out w (data ++ x) cap -> zlen x <= SIZE_MAX / 2 ->
  exists r, packet_since w (Some (zlen data)) = Some r /\ pkt_rep r x.
Proof.
  intros Ho Hx. unfold packet_since. cbn [mbind option_bind]. rewrite (out_get_curr _ _ _ Ho).
  destruct (out_buf _ _ _ Ho) as (b & _ & Hg & Htk & Hc). rewrite Hg. cbn [mbind option_bind].
  destruct (out_cap _ _ _ Ho) as [Hlen _]. rewrite zlen_app in *.
  pose proof (zlen_nonneg data). pose proof (zlen_nonneg x).
  replace (zlen data + zlen x - zlen data) with (zlen x) by lia.
  apply pkt_buf_init_rep; [lia|lia|lia|].
  pose proof (out_read w (data ++ x) cap data x [] Ho) as Hrd. rewrite app_nil_r in Hrd.
  specialize (Hrd eq_refl). unfold wp_read in Hrd. by rewrite Hg in Hrd.
Qed.

Lemma ht_sign_refines msg tree leaf w data cap :
  nbytes n (slice msg 0 n) -> 0 <= tree < 18446744073709551616 -> 0 <= leaf < 2 ^ p_hm (ctx_params ctx) ->
  wp_out w data cap ->
  zlen data + n * (p_d (ctx_params ctx) * (SLH_WOTS_LEN n + p_hm (ctx_params ctx))) <= cap ->
  exists w', ossl_slh_ht_sign ctx msg sk_seed pk_seed tree leaf w = Some w' /\
    wp_out w' (data ++ concat (ht_sig S digits_of len hm d 0 tree leaf (slice msg 0 n))) cap.
Proof.
  intros Hm Ht Hlf Ho Hc. pose proof n_range. pose proof hm_range. pose proof d_range.
  assert (2 ^ p_hm (ctx_params ctx) <= 512) as Hpow.
  { change 512 with (2 ^ 9). apply Z.pow_le_mono_r; lia. }
  unfold ossl_slh_ht_sign. cbv zeta.
  set (full := ht_sig S digits_of len hm d 0 tree leaf (slice msg 0 n)).
  match goal with |- context [for_loop ?m ?lo ?b ?s] => pose proof (for_loop_total
    (fun j '(a, root, tr, lf, w) => exists pre, (exists u, rep a u) /\ nbytes n root /\
       0 <= tr < 18446744073709551616 /\ 0 <= lf < 2 ^ p_hm (ctx_params ctx) /\
       Forall (nbytes n) pre /\ zlen pre = j * (SLH_WOTS_LEN n + p_hm (ctx_params ctx)) /\
       wp_out w (data ++ concat pre) cap /\
       full = pre ++ ht_sig S digits_of len hm (d - Z.to_nat j) j tr lf root) m lo b s) as Hloop end.
  destruct Hloop as ([[[[a' root'] tr'] lf'] w'] & -> & pre & _ & _ & _ & _ & _ & _ & Ho' & Heq).
  - exists []. rewrite app_nil_r, Nat.sub_0_r. split_and!; try done; try lia.
    exists adrs0. by apply rep_zero.
  - intros j [[[[a1 root] tr] lf] w1] Hj (pre & (u & Hu) & Hroot & Htr & Hlf1 & Hpf & Hpl & Ho1 & Heq).
    cbv beta iota.
    destruct (layer_adrs_rep a1 u j tr Hu ltac:(lia) Htr) as (u1 & Hu1 & Hst).
    assert (d - Z.to_nat j = Datatypes.S (d - Z.to_nat (j + 1)))%nat as Hdj by lia. rewrite Hdj in Heq.
    rewrite (out_get_curr _ _ _ Ho1).
    assert (zlen (concat pre) = n * (j * (SLH_WOTS_LEN n + p_hm (ctx_params ctx)))) as Hcl
      by (rewrite (zlen_concat n) by done; by rewrite Hpl).
    assert (0 <= SLH_WOTS_LEN n) by (unfold SLH_WOTS_LEN; lia).
    destruct (xmss_sign_refines Halloc ctx ltac:(lia) ltac:(lia) enc rep S pk_seed sk_seed root lf
      (ht_adrs j tr) u1 _ w1 (data ++ concat pre) cap Hu1 Hst)
      as (a2 & w2 & u2 & -> & Hu2 & Hst2 & Ho2); [apply Hroot|destruct Hroot; lia|done|done| |].
    { rewrite zlen_app, Hcl. nia. }
    cbn [mbind option_bind].
    destruct (digits_of_ok root Hroot) as [Hdl Hdr].
    set (xs := wots_sig S (ht_adrs j tr) lf 0 (msg_and_csum_nibbles root n)) in *.
    set (path := xmss_auth S (ht_adrs j tr) len hm lf) in *.
    assert (Forall (nbytes n) xs) as Hxs by (by apply wots_sig_nbytes).
    assert (length xs = len) as Hxl by (unfold xs; rewrite wots_sig_length; exact Hdl).
    assert (Forall (nbytes n) path) as Hps by (apply auth_nbytes; [done|intros k; by apply sT_n]).
    assert (length path = hm) as Hplen by apply auth_length.
    assert (xmss_sig S digits_of len hm j tr lf root = xs ++ path) as Hxp by done.
    assert (zlen (concat (xs ++ path)) = n * (SLH_WOTS_LEN n + p_hm (ctx_params ctx))) as Hxz.
    { rewrite (zlen_concat n) by (by apply Forall_app). unfold zlen. rewrite length_app, Hxl, Hplen. lia. }
    assert (zlen (pre ++ xs ++ path) = (j + 1) * (SLH_WOTS_LEN n + p_hm (ctx_params ctx))) as Hpl'.
    { rewrite zlen_app, Hpl. unfold zlen. rewrite length_app, Hxl, Hplen. lia. }
    assert (Forall (nbytes n) (pre ++ xs ++ path)) as Hpf' by (by repeat (apply Forall_app; split)).
    assert (data ++ concat (pre ++ xs ++ path) = (data ++ concat pre) ++ concat (xs ++ path)) as Hcat
      by (rewrite concat_app; by rewrite app_assoc).
    cbn [ht_sig] in Heq. rewrite Hxp, app_assoc in Heq.
    destruct (Z.ltb_spec j (p_d (ctx_params ctx) - 1)).
    + destruct (packet_since_ok w2 (data ++ concat pre) (concat (xs ++ path)) cap Ho2) as (r & -> & Hr).
      { rewrite Hxz. change (SIZE_MAX / 2) with 9223372036854775807. unfold SLH_WOTS_LEN in *. nia. }
      cbn [mbind option_bind]. rewrite <- (app_nil_r (concat (xs ++ path))) in Hr.
      destruct (xmss_pk_from_sig_refines Halloc ctx ltac:(lia) ltac:(lia) enc rep S pk_seed root lf
        (ht_adrs j tr) u2 a2 r xs path [] Hu2 Hst2) as (a3 & u3 & r3 & -> & Hu3 & Hst3 & _);
        [apply Hroot|destruct Hroot; lia|lia|done|done|done|done|done|].
      cbn [mbind option_bind].
      assert (xmss_root S (ht_adrs j tr) lf (msg_and_csum_nibbles root n) xs path = layer_root S len hm j tr) as ->.
      { pose proof (xmss_correct S (ht_adrs j tr) hm lf (digits_of root)) as Hxc.
        rewrite Hdl in Hxc. apply Hxc; [rewrite Z2Nat.id by lia; lia|done]. }
      destruct (ht_step_ids tr Htr) as (E1 & E2 & R1 & R2). rewrite E1, E2.
      eexists; split; [done|]. exists (pre ++ xs ++ path). split_and!; try done; try lia.
      * by exists u3.
      * by apply layer_root_nbytes.
      * by rewrite Hcat.
    + eexists; split; [done|]. exists (pre ++ xs ++ path). split_and!; try done; try lia.
      * by exists u2.
      * by rewrite Hcat.
      * replace (d - Z.to_nat (j + 1))%nat with 0%nat in * by lia. exact Heq.
  - cbn [mbind option_bind]. exists w'. split; [done|].
    replace (Z.to_nat (0 + Z.of_nat d)) with d in Heq by lia. rewrite Nat.sub_diag in Heq.
    cbn [ht_sig] in Heq. rewrite app_nil_r in Heq. by rewrite Heq.
Qed.
End Prf.
End Refine.
