(* ===== verification/SlhFors.v ===== *)
(** * FORS few-time signatures

    Model of [crypto/slh_dsa/slh_fors.c] and the proof that it computes the FORS
    algorithms of [SlhSpec] on the [a]-bit digits of the message digest. *)
From S2P Require Import Prelude.
From S2P Require Import ByteOrder.
From S2P Require Import Packet.
From S2P Require Import WPacket.
From S2P Require Import WPacketSpec.
From S2P Require Import WPacketOut.
From S2P Require Import SlhAdrs.
From S2P Require Import SlhParams.
From S2P Require Import SlhHash.
From S2P Require Import SlhSpec.
From S2P Require Import SlhWots.
From S2P Require Import SlhXmss.

Definition SLH_MAX_K : Z := 35.
Definition SLH_MAX_A : Z := 9.
Definition SLH_MAX_K_TIMES_A : Z := SLH_MAX_A * SLH_MAX_K.
Definition SLH_MAX_ROOTS : Z := SLH_MAX_K_TIMES_A * SLH_MAX_N.

(** ** [slh_base_2b] *)

(** The inner loop: [while (bits < b)].  Every round adds 8 to [bits], so [b]
    rounds suffice; [pos] is the position of the pointer [in]. *)
Fixpoint base_2b_refill (fuel : nat) (inp : list Z) (b pos bits total : Z) : Z * Z * Z :=
  match fuel with
  | O => (pos, bits, total)
  | S f =>
      if bits <? b
      then base_2b_refill f inp b (pos + 1) (u32 (bits + 8)) (u32 (u32 (Z.shiftl total 8) + byte_at inp pos))
      else (pos, bits, total)
  end.

(** The outer loop; returns the array [out]. *)
Fixpoint base_2b_loop (out_len : nat) (inp : list Z) (b mask pos bits total : Z) : list Z :=
  match out_len with
  | O => []
  | S k =>
      let '(pos, bits, total) := base_2b_refill (Z.to_nat b) inp b pos bits total in
      let bits := u32 (bits - b) in
      Z.land (Z.shiftr total bits) mask :: base_2b_loop k inp b mask pos bits total
  end.
Definition slh_base_2b (inp : list Z) (b out_len : Z) : list Z :=
  base_2b_loop (Z.to_nat out_len) inp b (u32 (Z.shiftl 1 b - 1)) 0 0 0.

(** The value of the first [pos] bytes. *)
Definition be_prefix (inp : list Z) (pos : Z) : Z := be_val (take (Z.to_nat pos) inp).

Lemma be_val_snoc l x : be_val (l ++ [x]) = be_val l * 256 + x.
Proof. unfold be_val. rewrite reverse_app. cbn. lia. Qed.
Lemma be_prefix_S inp pos :
  0 <= pos < zlen inp -> be_prefix inp (pos + 1) = be_prefix inp pos * 256 + byte_at inp pos.
Proof.
  intros Hp. unfold be_prefix. replace (Z.to_nat (pos + 1)) with (S (Z.to_nat pos)) by lia.
  erewrite take_S_r by (by apply byte_at_lookup). apply be_val_snoc.
Qed.
Lemma be_val_nonneg l : bytes_ok l -> 0 <= be_val l.
Proof. intros Hl. unfold be_val. apply le_val_range. by apply Forall_reverse. Qed.
Lemma be_val_app l k : be_val (l ++ k) = be_val l * 256 ^ zlen k + be_val k.
Proof.
  revert l. induction k as [|x k IH]; intros l.
  - rewrite app_nil_r, zlen_nil. change (be_val []) with 0. lia.
  - replace (l ++ x :: k) with ((l ++ [x]) ++ k) by (by rewrite <- app_assoc).
    replace (x :: k) with ([] ++ [x] ++ k) by done. rewrite IH, be_val_snoc.
    replace ([] ++ [x] ++ k) with (([] ++ [x]) ++ k) by done. rewrite IH, be_val_snoc.
    change (be_val []) with 0. rewrite zlen_app. change (zlen ([] ++ [x])) with 1.
    rewrite Z.pow_add_r by (pose proof (zlen_nonneg k); lia). lia.
Qed.
Lemma be_val_lt l : bytes_ok l -> 0 <= be_val l < 256 ^ zlen l.
Proof.
  intros Hl. unfold be_val. pose proof (le_val_range (reverse l) (proj2 (Forall_reverse _ l) Hl)) as H.
  unfold zlen in *. by rewrite length_reverse in H.
Qed.

(** A prefix is the whole number shifted right. *)
Lemma be_prefix_div inp pos :
  bytes_ok inp -> 0 <= pos <= zlen inp -> be_prefix inp pos = be_val inp / 2 ^ (8 * (zlen inp - pos)).
Proof.
  intros Hb Hp. unfold be_prefix. rewrite <- (take_drop (Z.to_nat pos) inp) at 2. rewrite be_val_app.
  assert (zlen (drop (Z.to_nat pos) inp) = zlen inp - pos) as Hz by (unfold zlen in *; rewrite length_drop; lia).
  pose proof (be_val_lt (drop (Z.to_nat pos) inp) (Forall_drop _ _ _ Hb)) as Hr. rewrite Hz in *.
  change 256 with (2 ^ 8) in *. rewrite <- Z.pow_mul_r in * by lia.
  rewrite Z.div_add_l by (apply Z.pow_nonzero; lia). rewrite (Z.div_small (be_val (drop _ _))) by lia. lia.
Qed.

Section Base2b.
Context (inp : list Z) (Hin : bytes_ok inp) (b : Z) (Hb : 1 <= b <= 16).

Lemma refill_ok fuel pos bits total :
  0 <= bits < b + 8 -> b <= bits + 8 * Z.of_nat fuel -> 0 <= pos -> total = u32 (be_prefix inp pos) ->
  8 * pos + (b - bits) <= 8 * zlen inp ->
  exists pos' bits', base_2b_refill fuel inp b pos bits total = (pos', bits', u32 (be_prefix inp pos')) /\
    b <= bits' < b + 8 /\ bits' - bits = 8 * (pos' - pos) /\ pos <= pos'.
Proof.
  revert pos bits total. induction fuel as [|f IH]; intros pos bits total Hbits Hf Hp -> Hl; cbn [base_2b_refill].
  - exists pos, bits. split; [done|]. lia.
  - destruct (Z.ltb_spec bits b) as [Hlt|Hge]; [|exists pos, bits; split; [done|lia]].
    rewrite u32_small by lia.
    assert (u32 (u32 (Z.shiftl (u32 (be_prefix inp pos)) 8) + byte_at inp pos) =
      u32 (be_prefix inp (pos + 1))) as ->.
    { rewrite be_prefix_S by lia. rewrite Z.shiftl_mul_pow2 by lia. change (2 ^ 8) with 256. unfold u32.
      rewrite Zplus_mod_idemp_l. rewrite <- (Zplus_mod_idemp_l (_ * 256)), Zmult_mod_idemp_l, Zplus_mod_idemp_l. done. }
    destruct (IH (pos + 1) (bits + 8) _ ltac:(lia) ltac:(lia) ltac:(lia) eq_refl ltac:(lia))
      as (pos' & bits' & -> & H1 & H2 & H3).
    exists pos', bits'. split; [done|]. lia.
Qed.

(** The digit at bit offset [o] from the front. *)
Definition digit_at (o : Z) : Z := be_val inp / 2 ^ (8 * zlen inp - o - b) mod 2 ^ b.

Lemma base_2b_digit pos bits :
  0 <= bits < 8 -> 0 <= pos <= zlen inp -> b + bits <= 8 * pos ->
  Z.land (Z.shiftr (u32 (be_prefix inp pos)) bits) (u32 (Z.shiftl 1 b - 1)) = digit_at (8 * pos - bits - b).
Proof.
  intros Hbits Hp Hle. assert (2 <= 2 ^ b <= 65536) as Hpow.
  { split; [change 2 with (2 ^ 1) at 1|change 65536 with (2 ^ 16)]; apply Z.pow_le_mono_r; lia. }
  rewrite Z.shiftl_1_l, (u32_small (_ - 1)), Z.sub_1_r, <- Z.ones_equiv, Z.land_ones, Z.shiftr_div_pow2 by lia.
  unfold digit_at. rewrite be_prefix_div by done.
  replace (8 * zlen inp - (8 * pos - bits - b) - b) with (8 * (zlen inp - pos) + bits) by lia.
  rewrite Z.pow_add_r, <- Z.div_div by (try apply Z.pow_pos_nonneg; lia || apply Z.pow_nonzero; lia).
  generalize (be_val inp / 2 ^ (8 * (zlen inp - pos))). intros x.
  unfold u32. change 4294967296 with (2 ^ 32). apply Z.bits_inj'. intros i Hi.
  destruct (Z.lt_ge_cases i b).
  - rewrite !Z.mod_pow2_bits_low, !Z.div_pow2_bits, Z.mod_pow2_bits_low by lia. done.
  - by rewrite !Z.mod_pow2_bits_high by lia.
Qed.

Lemma base_2b_loop_ok k pos bits :
  0 <= bits < 8 -> 0 <= pos -> 8 * pos - bits + b * Z.of_nat k <= 8 * zlen inp -> bits <= 8 * pos ->
  base_2b_loop k inp b (u32 (Z.shiftl 1 b - 1)) pos bits (u32 (be_prefix inp pos)) =
  map (fun j => digit_at (8 * pos - bits + b * Z.of_nat j)) (seq 0 k).
Proof.
  revert pos bits. induction k as [|k IH]; intros pos bits Hbits Hp Hl Hbp; cbn [base_2b_loop]; [done|].
  rewrite Nat2Z.inj_succ, Z.mul_succ_r in Hl. assert (0 <= b * Z.of_nat k) by nia.
  destruct (refill_ok (Z.to_nat b) pos bits _ ltac:(lia) ltac:(lia) Hp eq_refl ltac:(lia))
    as (pos' & bits' & -> & H1 & H2 & H3).
  cbn [seq map]. rewrite (u32_small (bits' - b)) by lia. f_equal.
  - rewrite base_2b_digit by lia. f_equal. lia.
  - rewrite IH by lia. rewrite <- seq_shift, map_map. apply map_ext. intros j. f_equal. lia.
Qed.

Lemma base_2b_eq k :
  0 <= k -> b * k <= 8 * zlen inp ->
  slh_base_2b inp b k = map (fun j => digit_at (b * Z.of_nat j)) (seq 0 (Z.to_nat k)).
Proof.
  intros Hk Hl. unfold slh_base_2b. change 0 with (u32 (be_prefix inp 0)) at 3.
  by rewrite base_2b_loop_ok by lia.
Qed.

Lemma base_2b_range k x :
  0 <= k -> b * k <= 8 * zlen inp -> x ∈ slh_base_2b inp b k -> 0 <= x < 2 ^ b.
Proof.
  intros Hk Hl Hx. rewrite base_2b_eq in Hx by done. apply list_elem_of_In, in_map_iff in Hx as (j & <- & _).
  unfold digit_at. apply Z.mod_pos_bound. apply Z.pow_pos_nonneg; lia.
Qed.
Lemma base_2b_length k : 0 <= k -> b * k <= 8 * zlen inp -> length (slh_base_2b inp b k) = Z.to_nat k.
Proof. intros Hk Hl. rewrite base_2b_eq by done. by rewrite length_map, length_seq. Qed.
End Base2b.

(** ** The FORS functions *)

Section Fors.
Context `{EV : EVP} `{AL : Allocator}.

Definition slh_fors_sk_gen (ctx : SLH_DSA_HASH_CTX) (sk_seed pk_seed adrs : list Z) (id : Z) :
    option (list Z) :=
  let sk_adrs := derive_adrs ctx adrs SLH_ADRS_TYPE_FORS_PRF in
  let sk_adrs := set_tree_index (adrsf ctx) sk_adrs id in
  hf_PRF (hashf ctx) ctx pk_seed sk_seed sk_adrs.

(** The node and the ADRS buffer. *)
Fixpoint slh_fors_node (ctx : SLH_DSA_HASH_CTX) (sk_seed pk_seed adrs : list Z) (node_id : Z)
    (height : nat) : option (list Z * list Z) :=
  match height with
  | O =>
      sk ← slh_fors_sk_gen ctx sk_seed pk_seed adrs node_id;
      let adrs := set_tree_height (adrsf ctx) adrs 0 in
      let adrs := set_tree_index (adrsf ctx) adrs node_id in
      node ← hf_F (hashf ctx) ctx pk_seed adrs (slice sk 0 (ctx_n ctx));
      Some (node, adrs)
  | S h =>
      '(l_node, adrs) ← slh_fors_node ctx sk_seed pk_seed adrs (u32 (2 * node_id)) h;
      '(r_node, adrs) ← slh_fors_node ctx sk_seed pk_seed adrs (u32 (2 * node_id + 1)) h;
      let adrs := set_tree_height (adrsf ctx) adrs (Z.of_nat height) in
      let adrs := set_tree_index (adrsf ctx) adrs node_id in
      node ← hf_H (hashf ctx) ctx pk_seed adrs l_node r_node;
      Some (node, adrs)
  end.

(** The inner loop of signing: the authentication path of one tree. *)
Definition fors_sign_path (ctx : SLH_DSA_HASH_CTX) (sk_seed pk_seed : list Z)
    (node_id tree_offset : Z) (adrs : list Z) (sig_wpkt : WPACKET) : option (list Z * WPACKET) :=
  '(node_id, tree_offset, adrs, sig_wpkt) ←
    for_loop (Z.to_nat (p_a (ctx_params ctx))) 0 (fun layer '(node_id, tree_offset, adrs, sig_wpkt) =>
      let s := Z.lxor node_id 1 in
      '(out, adrs) ← slh_fors_node ctx sk_seed pk_seed adrs (u32 (s + tree_offset)) (Z.to_nat layer);
      let node_id := Z.shiftr node_id 1 in
      let tree_offset := Z.shiftr tree_offset 1 in
      '(_, sig_wpkt) ← w_run (WPACKET_memcpy (slice out 0 (ctx_n ctx))) sig_wpkt;
      Some (node_id, tree_offset, adrs, sig_wpkt)) (node_id, tree_offset, adrs, sig_wpkt);
  Some (adrs, sig_wpkt).

Definition ossl_slh_fors_sign (ctx : SLH_DSA_HASH_CTX) (md sk_seed pk_seed adrs : list Z)
    (sig_wpkt : WPACKET) : option (list Z * WPACKET) :=
  let n := ctx_n ctx in
  let k := p_k (ctx_params ctx) in
  let a := p_a (ctx_params ctx) in
  let two_power_a := u32 (Z.shiftl 1 a) in
  let ids := slh_base_2b md a k in
  '(_, adrs, sig_wpkt) ←
    for_loop (Z.to_nat k) 0 (fun tree_id '(tree_id_times_two_power_a, adrs, sig_wpkt) =>
      let node_id := byte_at ids tree_id in
      let tree_offset := tree_id_times_two_power_a in
      out ← slh_fors_sk_gen ctx sk_seed pk_seed adrs (u32 (node_id + tree_id_times_two_power_a));
      '(_, sig_wpkt) ← w_run (WPACKET_memcpy (slice out 0 n)) sig_wpkt;
      '(adrs, sig_wpkt) ← fors_sign_path ctx sk_seed pk_seed node_id tree_offset adrs sig_wpkt;
      Some (u32 (tree_id_times_two_power_a + two_power_a), adrs, sig_wpkt)) (0, adrs, sig_wpkt);
  Some (adrs, sig_wpkt).

(** The inner loop of verification: from a leaf to the root of its tree.  The
    node is kept in the buffer of [wroot_pkt], at [node0]. *)
Definition fors_climb (ctx : SLH_DSA_HASH_CTX) (pk_seed : list Z) (node0 id node_id : Z)
    (adrs : list Z) (wroot_pkt : WPACKET) (fors_sig_rpkt : PACKET) :
    option (list Z * WPACKET * PACKET) :=
  let n := ctx_n ctx in
  '(_, _, adrs, wroot_pkt, fors_sig_rpkt) ←
    for_loop (Z.to_nat (p_a (ctx_params ctx))) 0 (fun j '(id, node_id, adrs, wroot_pkt, fors_sig_rpkt) =>
      '(authj, fors_sig_rpkt) ← PACKET_get_bytes fors_sig_rpkt n;
      let adrs := set_tree_height (adrsf ctx) adrs (j + 1) in
      '(node1, node_id, adrs) ←
        (if Z.land id 1 =? 0 then
           let node_id := Z.shiftr node_id 1 in
           let adrs := set_tree_index (adrsf ctx) adrs node_id in
           node1 ← hf_H (hashf ctx) ctx pk_seed adrs (wp_read wroot_pkt node0 n) authj;
           Some (node1, node_id, adrs)
         else
           let node_id := Z.shiftr (u32 (node_id - 1)) 1 in
           let adrs := set_tree_index (adrsf ctx) adrs node_id in
           node1 ← hf_H (hashf ctx) ctx pk_seed adrs authj (wp_read wroot_pkt node0 n);
           Some (node1, node_id, adrs));
      '(_, wroot_pkt) ← w_run (wp_store node0 node1) wroot_pkt;
      Some (Z.shiftr id 1, node_id, adrs, wroot_pkt, fors_sig_rpkt))
      (id, node_id, adrs, wroot_pkt, fors_sig_rpkt);
  Some (adrs, wroot_pkt, fors_sig_rpkt).

Definition ossl_slh_fors_pk_from_sig (ctx : SLH_DSA_HASH_CTX) (fors_sig_rpkt : PACKET)
    (md pk_seed adrs : list Z) : option (list Z * list Z * PACKET) :=
  let n := ctx_n ctx in
  let k := p_k (ctx_params ctx) in
  let a := p_a (ctx_params ctx) in
  let two_power_a := u32 (Z.shiftl 1 a) in
  '(_, wroot_pkt) ← w_run (WPACKET_init_static_len (zeros SLH_MAX_ROOTS) 0) uninit_wpacket;
  let ids := slh_base_2b md a k in
  '(_, adrs, wroot_pkt, fors_sig_rpkt) ←
    for_loop (Z.to_nat k) 0 (fun i '(aoff, adrs, wroot_pkt, fors_sig_rpkt) =>
      let id := byte_at ids i in
      let node_id := u32 (id + aoff) in
      let adrs := set_tree_height (adrsf ctx) adrs 0 in
      let adrs := set_tree_index (adrsf ctx) adrs node_id in
      '(sk, fors_sig_rpkt) ← PACKET_get_bytes fors_sig_rpkt n;
      '(node0, wroot_pkt) ← w_run (WPACKET_allocate_bytes n) wroot_pkt;
      node0 ← node0;
      leaf ← hf_F (hashf ctx) ctx pk_seed adrs sk;
      '(_, wroot_pkt) ← w_run (wp_store node0 leaf) wroot_pkt;
      '(adrs, wroot_pkt, fors_sig_rpkt) ←
        fors_climb ctx pk_seed node0 id node_id adrs wroot_pkt fors_sig_rpkt;
      Some (u32 (aoff + two_power_a), adrs, wroot_pkt, fors_sig_rpkt))
      (0, adrs, wroot_pkt, fors_sig_rpkt);
  '(roots_len, wroot_pkt) ← w_run WPACKET_get_total_written wroot_pkt;
  let pk_adrs := derive_adrs ctx adrs SLH_ADRS_TYPE_FORS_ROOTS in
  pk_out ← hf_T (hashf ctx) ctx pk_seed pk_adrs (wp_read wroot_pkt 0 roots_len);
  '(_, _) ← w_run WPACKET_finish wroot_pkt;
  Some (pk_out, adrs, fors_sig_rpkt).
End Fors.

(** ** Refinement *)

(** Node indices: tree [t] of height [a] owns the indices [t*2^(a-j) ...] of
    level [j], so the sibling inside the tree is the sibling of the whole. *)
Lemma fors_index t id a j :
  0 <= t -> 0 <= id < 2 ^ a -> 0 <= j < a ->
  let i := (t * 2 ^ a + id) / 2 ^ j in
  i = t * 2 ^ (a - j) + id / 2 ^ j /\ i mod 2 = (id / 2 ^ j) mod 2 /\
  Z.lxor (id / 2 ^ j) 1 + t * 2 ^ (a - j) = Z.lxor i 1 /\
  0 <= Z.lxor i 1 /\ (Z.lxor i 1 + 1) * 2 ^ j <= (t + 1) * 2 ^ a /\ 0 <= i /\ (i + 1) * 2 ^ j <= (t + 1) * 2 ^ a.
Proof.
  intros Ht Hid Hj. cbv zeta. set (P := 2 ^ (a - j - 1)). set (Q := 2 ^ j).
  assert (0 < P) by (apply Z.pow_pos_nonneg; lia). assert (0 < Q) by (apply Z.pow_pos_nonneg; lia).
  assert (2 ^ (a - j) = 2 * P) as E1 by (unfold P; rewrite <- Z.pow_succ_r by lia; f_equal; lia).
  assert (2 ^ a = 2 * P * Q) as E2 by (rewrite <- E1; unfold Q; rewrite <- Z.pow_add_r by lia; f_equal; lia).
  rewrite E1, E2 in *. clearbody P Q.
  assert ((t * (2 * P * Q) + id) / Q = t * (2 * P) + id / Q) as ->.
  { replace (t * (2 * P * Q)) with ((t * (2 * P)) * Q) by lia. by rewrite Z.div_add_l by lia. }
  assert (0 <= id / Q < 2 * P) as Hq.
  { split; [apply Z.div_pos; lia|]. apply Z.div_lt_upper_bound; lia. }
  revert Hq. generalize (id / Q). intros q Hq.
  assert ((t * (2 * P) + q) mod 2 = q mod 2) as Hpar.
  { replace (t * (2 * P) + q) with (q + t * P * 2) by lia. by rewrite Z.mod_add by lia. }
  rewrite !sibling by nia. rewrite Hpar.
  assert (q mod 2 = 0 -> q + 1 < 2 * P) as Hev by (intros; dlia).
  assert (q mod 2 <> 0 -> 1 <= q) as Hod by (intros; dlia).
  destruct (Z.eqb_spec (q mod 2) 0) as [E|E]; [specialize (Hev E)|specialize (Hod E)]; split_and!; try done; nia.
Qed.

Section Refine.
Context `{EV : EVP} `{AL : Allocator}.
Context (Halloc : forall n s, malloc_ok n s = true).
Context (ctx : SLH_DSA_HASH_CTX) (Hp : params_ok (ctx_params ctx)).
Context (enc : ADRS -> list Z) (rep : list Z -> ADRS -> Prop) (S : hash_sem).
Context `{RL : !AdrsLaws (adrsf ctx) enc rep} `{SL : !SemLaws (ctx_n ctx) S}.
Context (pk_seed : list Z) `{HL : !HashLaws ctx rep pk_seed S}.
Abbreviation n := (ctx_n ctx).
Abbreviation a := (p_a (ctx_params ctx)).
Abbreviation k := (p_k (ctx_params ctx)).

Lemma fors_n_range : 16 <= n <= 32.
Proof. destruct Hp as (H & _). unfold ctx_n. lia. Qed.
Lemma fors_range : 6 <= a <= 14 /\ 14 <= k <= 35 /\ k * 2 ^ a < 4294967296 /\ 0 < 2 ^ a /\ u32 (Z.shiftl 1 a) = 2 ^ a.
Proof.
  destruct Hp as (_ & _ & _ & _ & Ha & Hk & Hka & _). assert (0 < 2 ^ a) by (apply Z.pow_pos_nonneg; lia).
  change (2 ^ 32) with 4294967296 in Hka. split_and!; try lia. rewrite Z.shiftl_1_l. apply u32_small. nia.
Qed.

Lemma tree_adrs_rep ad u v h i :
  rep ad u -> chains_adrs v u -> 0 <= h < 4294967296 -> 0 <= i < 4294967296 ->
  rep (set_tree_index (adrsf ctx) (set_tree_height (adrsf ctx) ad h) i) (fors_tw v h i).
Proof.
  intros Hr (x & y & ->) Hh Hi. apply (rep_index _ (with_w3 y (with_w2 h v))); [|done].
  by apply (rep_height _ (with_w3 y (with_w2 x v))).
Qed.
Lemma fors_tw_chains v h i : chains_adrs v (fors_tw v h i).
Proof. by exists h, i. Qed.

Section Prf.
Context (sk_seed : list Z) `{PL : !PrfLaws ctx rep pk_seed sk_seed S}.

Lemma fors_sk_refines ad u v i :
  rep ad u -> chains_adrs v u -> 0 <= i < 4294967296 ->
  slh_fors_sk_gen ctx sk_seed pk_seed ad i = Some (fors_sk S v i).
Proof.
  intros Hr Hch Hi. unfold slh_fors_sk_gen. cbv zeta. apply law_PRF. apply rep_index; [|done].
  rewrite <- (derive_chains v u) by done. by apply derive_adrs_rep with (enc := enc).
Qed.

Lemma fors_node_refines h i v u ad :
  rep ad u -> chains_adrs v u -> 0 <= i -> (i + 1) * 2 ^ Z.of_nat h <= 4294967296 -> (h <= 32)%nat ->
  exists ad' u', slh_fors_node ctx sk_seed pk_seed ad i h = Some (fors_node S v h i, ad') /\
    rep ad' u' /\ chains_adrs v u'.
Proof.
  revert i u ad. induction h as [|h IH]; intros i u ad Hr Hch Hi Hb Hh; cbn [slh_fors_node].
  - change (2 ^ Z.of_nat 0) with 1 in Hb. rewrite (fors_sk_refines ad u v) by (done || lia).
    cbn [mbind option_bind]. pose proof (tree_adrs_rep ad u v 0 i Hr Hch ltac:(lia) ltac:(lia)) as Hr1.
    rewrite (law_F _ _ _ Hr1). cbn [mbind option_bind].
    rewrite slice_whole by apply sPRF_n. eexists _, _. split; [done|]. split; [exact Hr1|apply fors_tw_chains].
  - rewrite Nat2Z.inj_succ, Z.pow_succ_r in Hb by lia.
    assert (1 <= 2 ^ Z.of_nat h) by (pose proof (Z.pow_pos_nonneg 2 (Z.of_nat h)); lia).
    rewrite !u32_small by nia.
    destruct (IH (2 * i) u ad Hr Hch) as (a1 & u1 & -> & Hu1 & Hv1); [lia|nia|lia|]. cbn [mbind option_bind].
    destruct (IH (2 * i + 1) u1 a1 Hu1 Hv1) as (a2 & u2 & -> & Hu2 & Hv2); [lia|nia|lia|]. cbn [mbind option_bind].
    pose proof (tree_adrs_rep a2 u2 v (Z.of_nat (Datatypes.S h)) i Hu2 Hv2 ltac:(lia) ltac:(nia)) as Hr1.
    rewrite (law_H _ _ _ _ Hr1). cbn [mbind option_bind].
    eexists _, _. split; [done|]. split; [exact Hr1|apply fors_tw_chains].
Qed.

Lemma fors_sign_path_refines v u ad t id w data cap :
  rep ad u -> chains_adrs v u -> 0 <= t < k -> 0 <= id < 2 ^ a ->
  wp_out w data cap -> zlen data + n * a <= cap ->
  exists ad' w' u', fors_sign_path ctx sk_seed pk_seed id (t * 2 ^ a) ad w = Some (ad', w') /\
    rep ad' u' /\ chains_adrs v u' /\
    wp_out w' (data ++ concat (auth S (fors_tw v) (fors_leaf S v) 0 (t * 2 ^ a + id) (Z.to_nat a))) cap.
Proof.
  intros Hr Hch Ht Hid Ho Hc. pose proof fors_range as (Ha & Hk & Hka & Hpos & _). pose proof fors_n_range.
  unfold fors_sign_path. set (path := auth S (fors_tw v) (fors_leaf S v) 0 (t * 2 ^ a + id) (Z.to_nat a)).
  assert (length path = Z.to_nat a) as Hpl by apply auth_length.
  assert (Forall (nbytes n) path) as Hpb by (apply auth_nbytes; [done|intros j; by apply sF_n]).
  match goal with |- context [for_loop ?m ?lo ?b ?s] => pose proof (for_loop_total
    (fun j '(q, o, ad, w) => q = id / 2 ^ j /\ o = t * 2 ^ (a - j) /\ (exists u, rep ad u /\ chains_adrs v u) /\
       wp_out w (data ++ concat (take (Z.to_nat j) path)) cap) m lo b s) as Hloop end.
  destruct Hloop as ([[[q o] ad'] w'] & -> & _ & _ & (u' & Hu' & Hv') & Ho').
  - split_and!; [by rewrite Z.div_1_r|by rewrite Z.sub_0_r|by exists u|]. by rewrite app_nil_r.
  - intros j [[[q o] ad1] w1] Hj (-> & -> & (u1 & Hu1 & Hv1) & Ho1). cbv beta iota zeta.
    pose proof (fors_index t id a j ltac:(lia) Hid ltac:(lia)) as (Hi & _ & Hsib & Hs0 & Hsb & _).
    assert (0 < 2 ^ j) by (apply Z.pow_pos_nonneg; lia).
    rewrite Hsib, u32_small by nia.
    destruct (fors_node_refines (Z.to_nat j) (Z.lxor ((t * 2 ^ a + id) / 2 ^ j) 1) v u1 ad1 Hu1 Hv1)
      as (ad2 & u2 & -> & Hu2 & Hv2); [done|rewrite Z2Nat.id by lia; nia|lia|]. cbn [mbind option_bind].
    set (nd := fors_node S v (Z.to_nat j) (Z.lxor ((t * 2 ^ a + id) / 2 ^ j) 1)).
    assert (nbytes n nd) as [Hnl _] by (apply node_nbytes; [done|intros l; by apply sF_n]).
    rewrite slice_whole by done.
    destruct (out_memcpy w1 _ cap nd Ho1) as (w2 & E2 & Ho2).
    { rewrite zlen_app, (zlen_concat n) by (by apply Forall_take). unfold zlen at 2. rewrite length_take, Hpl. nia. }
    rewrite (w_run_done _ _ _ _ E2). cbn [mbind option_bind]. eexists; split; [done|]. split_and!.
    + rewrite Z.shiftr_div_pow2, Z.div_div, <- Z.pow_add_r by lia. done.
    + rewrite Z.shiftr_div_pow2 by lia. replace (a - j) with (1 + (a - (j + 1))) by lia.
      rewrite Z.pow_add_r, Z.mul_assoc, (Z.mul_comm t), <- Z.mul_assoc by lia.
      rewrite Z.pow_1_r, Z.mul_comm, Z.div_mul; lia.
    + by exists u2.
    + replace (Z.to_nat (j + 1)) with (Datatypes.S (Z.to_nat j)) by lia.
      erewrite take_S_r by (apply auth_lookup; lia).
      rewrite concat_snoc, app_assoc, Z2Nat.id by lia. exact Ho2.
  - cbn [mbind option_bind]. exists ad', w', u'. split_and!; try done. rewrite take_ge in Ho' by lia. done.
Qed.

Lemma fors_sign_refines md v u ad w data cap :
  bytes_ok md -> a * k <= 8 * zlen md -> rep ad u -> chains_adrs v u -> wp_out w data cap ->
  zlen data + n * (k * (a + 1)) <= cap ->
  exists ad' w' u', ossl_slh_fors_sign ctx md sk_seed pk_seed ad w = Some (ad', w') /\
    rep ad' u' /\ chains_adrs v u' /\
    wp_out w' (data ++ concat (fors_sig S v (Z.to_nat a) 0 (slh_base_2b md a k))) cap.
Proof.
  intros Hmd Hmdl Hr Hch Ho Hc. pose proof fors_range as (Ha & Hk & Hka & Hpos & Htp). pose proof fors_n_range.
  unfold ossl_slh_fors_sign. cbv zeta. rewrite Htp. set (ids := slh_base_2b md a k).
  assert (length ids = Z.to_nat k) as Hidl by (apply base_2b_length; (done || lia)).
  match goal with |- context [for_loop ?m ?lo ?b ?s] => pose proof (for_loop_total
    (fun j '(o, ad, w) => o = j * 2 ^ a /\ (exists u, rep ad u /\ chains_adrs v u) /\
       wp_out w (data ++ concat (fors_sig S v (Z.to_nat a) 0 (take (Z.to_nat j) ids))) cap) m lo b s) as Hloop end.
  destruct Hloop as ([[o ad'] w'] & -> & _ & (u' & Hu' & Hv') & Ho').
  - split_and!; [done|by exists u|]. by rewrite app_nil_r.
  - intros j [[o ad1] w1] Hj (-> & (u1 & Hu1 & Hv1) & Ho1). cbv beta iota zeta.
    assert (ids !! Z.to_nat j = Some (byte_at ids j)) as Hlk by (apply byte_at_lookup; unfold zlen; lia).
    set (id := byte_at ids j) in *.
    assert (0 <= id < 2 ^ a) as Hid.
    { eapply (base_2b_range md Hmd a ltac:(lia) k); [lia|lia|]. by eapply list_elem_of_lookup_2. }
    rewrite (u32_small (id + _)) by nia. rewrite (Z.add_comm id).
    rewrite (fors_sk_refines ad1 u1 v) by (done || nia). cbn [mbind option_bind].
    rewrite slice_whole by apply sPRF_n.
    assert (zlen (take (Z.to_nat j) ids) = j) as Htl by (unfold zlen; rewrite length_take; lia).
    assert (zlen (concat (fors_sig S v (Z.to_nat a) 0 (take (Z.to_nat j) ids))) = n * (j * (a + 1))) as Hcl.
    { rewrite (zlen_concat n) by (by apply fors_sig_nbytes). unfold zlen.
      rewrite fors_sig_length, length_take. nia. }
    destruct (sPRF_n (n := n) (S := S) (with_w3 (j * 2 ^ a + id) (with_w1 (a_w1 v) (with_type SLH_ADRS_TYPE_FORS_PRF v)))) as [Hskl _].
    destruct (out_memcpy w1 _ cap (fors_sk S v (j * 2 ^ a + id)) Ho1) as (w2 & E2 & Ho2).
    { rewrite zlen_app, Hcl. unfold fors_sk. rewrite Hskl. nia. }
    rewrite (w_run_done _ _ _ _ E2). cbn [mbind option_bind].
    destruct (fors_sign_path_refines v u1 ad1 j id w2 _ cap Hu1 Hv1 ltac:(lia) Hid Ho2) as (ad2 & w3 & u2 & -> & Hu2 & Hv2 & Ho3).
    { rewrite !zlen_app, Hcl. unfold fors_sk. rewrite Hskl. nia. }
    cbn [mbind option_bind]. eexists; split; [done|]. split_and!.
    + rewrite u32_small by nia. lia.
    + by exists u2.
    + replace (Z.to_nat (j + 1)) with (Datatypes.S (Z.to_nat j)) by lia.
      rewrite (take_S_r _ _ _ Hlk), fors_sig_snoc, Htl, Z.add_0_l, Z2Nat.id by lia. cbv zeta.
      rewrite concat_app, concat_cons, !app_assoc. exact Ho3.
  - cbn [mbind option_bind]. exists ad', w', u'. split_and!; try done. rewrite take_ge in Ho' by lia. done.
Qed.
End Prf.

Lemma fors_climb_refines v u ad t id w data x cap rpkt path rest :
  rep ad u -> chains_adrs v u -> 0 <= t < k -> 0 <= id < 2 ^ a ->
  nbytes n x -> wp_out w (data ++ x) cap ->
  Forall (nbytes n) path -> length path = Z.to_nat a -> pkt_rep rpkt (concat path ++ rest) ->
  exists ad' w' u' rpkt', fors_climb ctx pk_seed (zlen data) id (t * 2 ^ a + id) ad w rpkt = Some (ad', w', rpkt') /\
    rep ad' u' /\ chains_adrs v u' /\
    wp_out w' (data ++ climb S (fors_tw v) 0 (t * 2 ^ a + id) x path) cap /\ pkt_rep rpkt' rest.
Proof.
  intros Hr Hch Ht Hid Hx Ho Hpb Hpl Hpk. pose proof fors_range as (Ha & Hk & Hka & Hpos & _).
  unfold fors_climb. cbv zeta. set (i := t * 2 ^ a + id).
  match goal with |- context [for_loop ?m ?lo ?b ?s] => pose proof (for_loop_total
    (fun j '(q, nd, ad, w, r) => q = id / 2 ^ j /\ nd = i / 2 ^ j /\ (exists u, rep ad u /\ chains_adrs v u) /\
       wp_out w (data ++ climb S (fors_tw v) 0 i x (take (Z.to_nat j) path)) cap /\
       pkt_rep r (concat (drop (Z.to_nat j) path) ++ rest)) m lo b s) as Hloop end.
  destruct Hloop as ([[[[q nd] ad'] w'] r'] & -> & _ & _ & (u' & Hu' & Hv') & Ho' & Hpk').
  - split_and!; [by rewrite Z.div_1_r|by rewrite Z.div_1_r|by exists u|done|done].
  - intros j [[[[q nd] ad1] w1] r1] Hj (-> & -> & (u1 & Hu1 & Hv1) & Ho1 & Hp1). cbv beta iota.
    destruct (lookup_lt_is_Some_2 path (Z.to_nat j)) as [y Hy]; [lia|].
    assert (nbytes n y) as [Hyn _] by (by eapply Forall_lookup_1 in Hpb).
    rewrite (drop_S path y) in Hp1 by done. rewrite concat_cons, <- app_assoc in Hp1.
    destruct (PACKET_get_bytes_app r1 y _ n Hp1 Hyn) as (r2 & -> & Hp2). cbn [mbind option_bind].
    pose proof (fors_index t id a j ltac:(lia) Hid ltac:(lia)) as (_ & Hpar & _ & _ & _ & Hi0 & Hib). fold i in Hpar, Hi0, Hib.
    assert (0 < 2 ^ j) by (apply Z.pow_pos_nonneg; lia).
    assert (0 <= i / 2 ^ j < 4294967296) as Hir by nia.
    destruct (parent_index (i / 2 ^ j) Hir) as [Hsh Hsh']. rewrite land_1, <- Hpar.
    set (z := climb S (fors_tw v) 0 i x (take (Z.to_nat j) path)) in *.
    assert (nbytes n z) as [Hzl _] by (by apply climb_nbytes).
    assert (wp_read w1 (zlen data) n = z) as ->.
    { rewrite <- Hzl. apply (out_read _ _ _ data z [] Ho1). by rewrite app_nil_r. }
    pose proof (tree_adrs_rep ad1 u1 v (j + 1) (i / 2 ^ j / 2) Hu1 Hv1 ltac:(lia) ltac:(dlia)) as Hset.
    assert (take (Z.to_nat (j + 1)) path = take (Z.to_nat j) path ++ [y]) as Htk.
    { replace (Z.to_nat (j + 1)) with (Datatypes.S (Z.to_nat j)) by lia. by apply take_S_r. }
    assert (zlen (take (Z.to_nat j) path) = j) as Hzj by (unfold zlen; rewrite length_take; lia).
    assert (forall q, q / 2 ^ (j + 1) = q / 2 ^ j / 2) as Hdiv.
    { intros q. rewrite Z.pow_add_r, Z.pow_1_r, Z.div_div by lia. done. }
    pose proof (climb_snoc S (fors_tw v) 0 i x (take (Z.to_nat j) path) y) as Hcs. rewrite Hzj in Hcs. cbv zeta in Hcs.
    fold z in Hcs. rewrite Z.add_0_l, <- Htk in Hcs.
    assert (nbytes n (climb S (fors_tw v) 0 i x (take (Z.to_nat (j + 1)) path))) as [Hzl' _] by (by apply climb_nbytes).
    destruct (out_store_end w1 data z cap (climb S (fors_tw v) 0 i x (take (Z.to_nat (j + 1)) path)) Ho1)
      as (w2 & E2 & Ho2); [lia|].
    assert (exists node_id, (if (i / 2 ^ j) mod 2 =? 0 then Z.shiftr (i / 2 ^ j) 1
      else Z.shiftr (u32 (i / 2 ^ j - 1)) 1) = node_id /\ node_id = i / 2 ^ j / 2) as (nid & Hn1 & Hn2).
    { eexists. split; [done|]. destruct (Z.eqb_spec ((i / 2 ^ j) mod 2) 0); [done|by apply Hsh']. }
    destruct ((i / 2 ^ j) mod 2 =? 0); rewrite Hn1, Hn2, (law_H _ _ _ _ Hset); cbn [mbind option_bind];
      rewrite <- Hcs, (w_run_done _ _ _ _ E2); cbn [mbind option_bind]; (eexists; split; [done|]); split_and!;
      try done; try (by eexists; split; [exact Hset|apply fors_tw_chains]);
      try (by rewrite Z.shiftr_div_pow2, Hdiv by lia);
      by replace (Z.to_nat (j + 1)) with (Datatypes.S (Z.to_nat j)) by lia.
  - cbn [mbind option_bind]. replace (Z.to_nat (0 + Z.of_nat (Z.to_nat a))) with (Z.to_nat a) in * by lia.
    rewrite take_ge in Ho' by lia. rewrite drop_ge in Hpk' by lia. by exists ad', w', u', r'.
Qed.

(** The elements of one tree at the front of a signature. *)
Lemma tree_split (sig : list (list Z)) m :
  length sig = (Datatypes.S m * (Z.to_nat a + 1))%nat -> Forall (nbytes n) sig ->
  exists sk path more, sig = sk :: path ++ more /\ nbytes n sk /\ Forall (nbytes n) path /\
    length path = Z.to_nat a /\ Forall (nbytes n) more /\ length more = (m * (Z.to_nat a + 1))%nat.
Proof.
  intros Hl Hf. destruct sig as [|sk sig]; [simpl in Hl; lia|]. apply Forall_cons in Hf as [Hsk Hf].
  exists sk, (take (Z.to_nat a) sig), (drop (Z.to_nat a) sig). rewrite take_drop, length_take, length_drop.
  cbn in Hl. split_and!; auto using Forall_take, Forall_drop; lia.
Qed.

Lemma fors_pk_from_sig_refines md v u ad rpkt sig rest :
  bytes_ok md -> a * k <= 8 * zlen md -> rep ad u -> chains_adrs v u ->
  Forall (nbytes n) sig -> length sig = (Z.to_nat k * (Z.to_nat a + 1))%nat -> pkt_rep rpkt (concat sig ++ rest) ->
  exists ad' u' rpkt', ossl_slh_fors_pk_from_sig ctx rpkt md pk_seed ad =
      Some (fors_compress S v (fors_roots S v (Z.to_nat a) 0 (slh_base_2b md a k) sig), ad', rpkt') /\
    rep ad' u' /\ chains_adrs v u' /\ pkt_rep rpkt' rest.
Proof.
  intros Hmd Hmdl Hr Hch Hsb Hsl Hpk. pose proof fors_range as (Ha & Hk & Hka & Hpos & Htp). pose proof fors_n_range.
  unfold ossl_slh_fors_pk_from_sig. cbv zeta. rewrite Htp. set (ids := slh_base_2b md a k).
  assert (zlen (zeros SLH_MAX_ROOTS) = 10080) as Hcap by (by apply zlen_zeros).
  destruct (out_init (zeros SLH_MAX_ROOTS) uninit_wpacket Halloc) as (w0 & E0 & Ho0);
    [rewrite Hcap; unfold SIZE_MAX; lia|].
  rewrite (w_run_done _ _ _ _ E0), Hcap in *. cbn [mbind option_bind].
  assert (length ids = Z.to_nat k) as Hidl by (apply base_2b_length; (done || lia)).
  match goal with |- context [for_loop ?m ?lo ?b ?s] => pose proof (for_loop_total
    (fun j '(o, ad, w, r) => exists roots more, o = j * 2 ^ a /\ (exists u, rep ad u /\ chains_adrs v u) /\
       Forall (nbytes n) roots /\ zlen roots = j /\ wp_out w (concat roots) 10080 /\
       Forall (nbytes n) more /\ length more = ((Z.to_nat k - Z.to_nat j) * (Z.to_nat a + 1))%nat /\
       pkt_rep r (concat more ++ rest) /\
       fors_roots S v (Z.to_nat a) 0 ids sig =
         roots ++ fors_roots S v (Z.to_nat a) j (drop (Z.to_nat j) ids) more) m lo b s) as Hloop end.
  destruct Hloop as ([[[o ad'] w'] r'] & -> & roots & more & _ & (u' & Hu' & Hv') & Hrb & Hrl & Ho' & _ & Hml & Hpk' & Heq).
  - exists [], sig. rewrite Nat.sub_0_r. split_and!; try done. by exists u.
  - intros j [[[o ad1] w1] r1] Hj (roots & more & -> & (u1 & Hu1 & Hv1) & Hrb & Hrl & Ho1 & Hmb & Hml & Hp1 & Heq).
    cbv beta iota.
    assert (ids !! Z.to_nat j = Some (byte_at ids j)) as Hlk by (apply byte_at_lookup; unfold zlen; lia).
    set (id := byte_at ids j) in *.
    assert (0 <= id < 2 ^ a) as Hid.
    { eapply (base_2b_range md Hmd a ltac:(lia) k); [lia|lia|]. by eapply list_elem_of_lookup_2. }
    rewrite (u32_small (id + _)), (Z.add_comm id) by nia. set (i := j * 2 ^ a + id).
    replace (Z.to_nat k - Z.to_nat j)%nat with (Datatypes.S (Z.to_nat k - Z.to_nat (j + 1))) in Hml by lia.
    destruct (tree_split more _ Hml Hmb) as (sk & path & more' & -> & Hsk & Hpb & Hpl & Hmb' & Hml').
    rewrite concat_cons, concat_app, <- !app_assoc in Hp1. destruct Hsk as [Hskl _].
    destruct (PACKET_get_bytes_app r1 sk _ n Hp1 Hskl) as (r2 & -> & Hp2). cbn [mbind option_bind].
    assert (zlen (concat roots) = n * j) as Hcl by (by rewrite (zlen_concat n), Hrl).
    destruct (out_alloc w1 _ 10080 n Ho1) as (w2 & hole & Ea & Hh & Ho2); [lia|rewrite Hcl; nia|].
    rewrite (w_run_done _ _ _ _ Ea). cbn [mbind option_bind].
    pose proof (tree_adrs_rep ad1 u1 v 0 i Hu1 Hv1 ltac:(lia) ltac:(unfold i; nia)) as Hr1.
    rewrite (law_F _ _ _ Hr1). cbn [mbind option_bind].
    assert (nbytes n (sF S (fors_tw v 0 i) sk)) as Hfb by apply sF_n. pose proof Hfb as [Hfl _].
    destruct (out_store_end w2 _ hole 10080 _ Ho2 (eq_trans Hfl (eq_sym Hh))) as (w3 & Es & Ho3).
    rewrite (w_run_done _ _ _ _ Es). cbn [mbind option_bind].
    destruct (fors_climb_refines v _ _ j id w3 (concat roots) (sF S (fors_tw v 0 i) sk) 10080 r2 path
      (concat more' ++ rest) Hr1 (fors_tw_chains v 0 i)) as (ad2 & w4 & u2 & r3 & Ecl & Hu2 & Hv2 & Ho4 & Hp3);
      [lia|done|done|done|done|done|done|].
    fold i in Ecl, Ho4. rewrite Ecl. cbn [mbind option_bind]. eexists; split; [done|].
    exists (roots ++ [climb S (fors_tw v) 0 i (sF S (fors_tw v 0 i) sk) path]), more'. split_and!; try done.
    + rewrite u32_small by nia. lia.
    + by exists u2.
    + apply Forall_app; split; [done|]. constructor; [by apply climb_nbytes|constructor].
    + rewrite zlen_app, Hrl. done.
    + by rewrite concat_snoc.
    + rewrite Heq, (drop_S ids _ _ Hlk). cbn [fors_roots]. rewrite Z2Nat.id by lia. fold i.
      rewrite take_app_length', drop_app_length' by done. rewrite <- app_assoc. cbn [app].
      by replace (Z.to_nat (j + 1)) with (Datatypes.S (Z.to_nat j)) by lia.
  - cbn [mbind option_bind]. replace (Z.to_nat (0 + Z.of_nat (Z.to_nat k))) with (Z.to_nat k) in * by lia.
    rewrite Nat.sub_diag in Hml. destruct more; [|done].
    rewrite drop_ge in Heq by lia. cbn [fors_roots] in Heq. rewrite app_nil_r in Heq.
    rewrite (total_written_eq _ _ _ Ho'). cbn [mbind option_bind].
    assert (rep (derive_adrs ctx ad' SLH_ADRS_TYPE_FORS_ROOTS)
      (with_w1 (a_w1 v) (with_type SLH_ADRS_TYPE_FORS_ROOTS v))) as Hrr.
    { rewrite <- (derive_chains v u') by done. by apply derive_adrs_rep with (enc := enc). }
    rewrite (law_T _ _ _ Hrr), (out_read_all _ _ _ Ho'). cbn [mbind option_bind].
    destruct (out_finish _ _ _ Ho') as (w'' & Ef). rewrite (w_run_done _ _ _ _ Ef). cbn [mbind option_bind].
    exists ad', u', r'. by rewrite Heq.
Qed.
End Refine.

(** ** Properties *)

(** [slh_base_2b] splits the digest into base [2^b] digits.  For every width
    up to 16 bits and every input with enough bits, the [j]-th output is the [j]-th
    group of [b] bits of the input read as one big-endian number: the 32-bit
    accumulator never loses a bit that is still needed and the inner loop reads
    just as many bytes as the digits take. *)
Lemma fors_base_2b_digits inp b out_len :
  bytes_ok inp -> 1 <= b <= 16 -> 0 <= out_len -> b * out_len <= 8 * zlen inp ->
  slh_base_2b inp b out_len =
    map (fun j => be_val inp / 2 ^ (8 * zlen inp - b * Z.of_nat j - b) mod 2 ^ b) (seq 0 (Z.to_nat out_len)).
Proof. intros Hi Hb Ho Hl. exact (base_2b_eq inp Hi b Hb out_len Ho Hl). Qed.

Lemma fors_base_2b_digits_witness : slh_base_2b [18; 52; 86] 12 2 = [291; 1110].
Proof.
  rewrite fors_base_2b_digits; [reflexivity|repeat constructor; unfold is_byte; lia|lia|lia|].
  unfold zlen. simpl. lia.
Defined.
