(* ===== verification/SlhDsa.v ===== *)
(** * SLH-DSA signing and verification

    Model of [crypto/slh_dsa/slh_dsa.c].  A signing function returns the hash
    context, which it updates, and [Some] of the signature length and of the
    buffer [sig] (or [None] for a NULL [sig]) when the C function returns 1.  When
    it returns 0 the contents of [sig] are not part of the result.  The theorems
    show that signing computes the signature of FIPS 205 Algorithm 19, that
    verification accepts exactly the signatures Algorithm 20 accepts, and what is
    refused. *)
From S2P Require Import Prelude.
From S2P Require Import ByteOrder.
From S2P Require Import Packet.
From S2P Require Import WPacket.
From S2P Require Import WPacketSpec.
From S2P Require Import WPacketOut.
From S2P Require Import SlhAdrs.
From S2P Require Import SlhParams.
From S2P Require Import SlhHash.
From S2P Require Import SlhHashSpec.
From S2P Require Import SlhSpec.
From S2P Require Import SlhWots.
From S2P Require Import SlhXmss.
From S2P Require Import SlhHypertree.
From S2P Require Import SlhFors.

Definition SLH_MAX_M : Z := 49.
Definition MD_LEN (params : SLH_DSA_PARAMS) : Z := Z.shiftr (p_k params * p_a params + 7) 3.
Definition SLH_DSA_MAX_CONTEXT_STRING_LEN : Z := 255.

Definition bytes_to_u64_be (inp : list Z) (in_len : Z) : Z :=
  for_each (Z.to_nat in_len) 0 (fun i total => u64 (u64 (Z.shiftl total 8) + byte_at inp i)) 0.

(** The tree index, the leaf index and the packet. *)
Definition get_tree_ids (rpkt : PACKET) (params : SLH_DSA_PARAMS) : option (Z * Z * PACKET) :=
  let tree_id_len := Z.shiftr (u32 (p_h params - p_hm params + 7)) 3 in
  let leaf_id_len := Z.shiftr (u32 (p_hm params + 7)) 3 in
  '(tree_id_bytes, rpkt) ← PACKET_get_bytes rpkt tree_id_len;
  '(leaf_id_bytes, rpkt) ← PACKET_get_bytes rpkt leaf_id_len;
  let tree_id_mask := Z.shiftr 18446744073709551615 (64 - (p_h params - p_hm params)) in
  let leaf_id_mask := u64 (Z.shiftl 1 (p_hm params) - 1) in
  let tree_id := Z.land (bytes_to_u64_be tree_id_bytes tree_id_len) tree_id_mask in
  let leaf_id := u32 (Z.land (bytes_to_u64_be leaf_id_bytes leaf_id_len) leaf_id_mask) in
  Some (tree_id, leaf_id, rpkt).

Section SlhDsa.
Context `{EV : EVP} `{AL : Allocator}.

(** The address [zero; set_tree_address; set_type_and_clear; set_keypair_address]. *)
Definition fors_adrs (hctx : SLH_DSA_HASH_CTX) (tree_id leaf_id : Z) : list Z :=
  let adrs := adrs_zero (adrsf hctx) uninit_adrs in
  let adrs := set_tree_address (adrsf hctx) adrs tree_id in
  let adrs := set_type_and_clear (adrsf hctx) adrs SLH_ADRS_TYPE_FORS_TREE in
  set_keypair_address (adrsf hctx) adrs leaf_id.

(** From the digest on: [m_digest] is in place and [rpkt] reads it. *)
Definition slh_sign_digest (hctx : SLH_DSA_HASH_CTX) (rpkt : PACKET) (wpkt : WPACKET) : option WPACKET :=
  let priv := h_key hctx in
  let pk_seed := SLH_DSA_PK_SEED priv in
  let sk_seed := SLH_DSA_SK_SEED priv in
  '(md, rpkt) ← PACKET_get_bytes rpkt (MD_LEN (k_params priv));
  '(tree_id, leaf_id, rpkt) ← get_tree_ids rpkt (k_params priv);
  let adrs := fors_adrs hctx tree_id leaf_id in
  let sig_fors := WPACKET_get_curr wpkt in
  '(adrs, wpkt) ← ossl_slh_fors_sign hctx md sk_seed pk_seed adrs wpkt;
  rpkt ← packet_since wpkt sig_fors;
  '(pk_fors, adrs, rpkt) ← ossl_slh_fors_pk_from_sig hctx rpkt md pk_seed adrs;
  ossl_slh_ht_sign hctx pk_fors sk_seed pk_seed tree_id leaf_id wpkt.

(** [rpkt] is initialised over [m_digest] before the digest is written there. *)
Definition slh_sign_internal (hctx : SLH_DSA_HASH_CTX) (msg : list Z) (sig : option (list Z))
    (sig_size : Z) (opt_rand : option (list Z)) : SLH_DSA_HASH_CTX * option (Z * option (list Z)) :=
  let priv := h_key hctx in
  let params := k_params priv in
  let sig_len_expected := p_sig_len params in
  let m_digest := zeros SLH_MAX_M in
  match sig with
  | None => (hctx, Some (sig_len_expected, None))
  | Some sig =>
      if sig_size <? sig_len_expected then (hctx, None)
      else if negb (k_has_priv priv) then (hctx, None)
      else
        match w_run (WPACKET_init_static_len (slice sig 0 sig_len_expected) 0) uninit_wpacket,
              PACKET_buf_init m_digest 0 (p_m params) with
        | Some (_, wpkt), Some rpkt =>
            let opt_rand := default (SLH_DSA_PK_SEED priv) opt_rand in
            let r := WPACKET_get_curr wpkt in
            let '(hctx, wpkt) := hf_PRF_MSG (hashf hctx) hctx (SLH_DSA_SK_PRF priv) opt_rand msg wpkt in
            (hctx,
             wpkt ← wpkt; r ← r;
             d ← hf_H_MSG (hashf hctx) hctx (wp_read wpkt r (p_n params)) (SLH_DSA_PK_SEED priv)
                   (SLH_DSA_PK_ROOT priv) msg;
             let rpkt := mkPACKET (splice m_digest 0 d) (pkt_curr rpkt) (pkt_remaining rpkt) in
             wpkt ← slh_sign_digest hctx rpkt wpkt;
             '(_, wpkt) ← w_run WPACKET_finish wpkt;
             buf ← GETBUF wpkt;
             Some (sig_len_expected, Some (splice sig 0 (slice buf 0 sig_len_expected))))
        | _, _ => (hctx, None)
        end
  end.

Definition slh_verify_internal (hctx : SLH_DSA_HASH_CTX) (msg sig : list Z) (sig_len : Z) : bool :=
  let pub := h_key hctx in
  let params := k_params pub in
  let n := p_n params in
  if negb (k_pub pub) then false
  else if negb (sig_len =? p_sig_len params) then false
  else
    match
      sig_rpkt ← PACKET_buf_init sig 0 sig_len;
      '(r, sig_rpkt) ← PACKET_get_bytes sig_rpkt n;
      let pk_seed := SLH_DSA_PK_SEED pub in
      let pk_root := SLH_DSA_PK_ROOT pub in
      d ← hf_H_MSG (hashf hctx) hctx r pk_seed pk_root msg;
      let m_digest := splice (zeros SLH_MAX_M) 0 d in
      m_digest_rpkt ← PACKET_buf_init m_digest 0 SLH_MAX_M;
      '(md, m_digest_rpkt) ← PACKET_get_bytes m_digest_rpkt (MD_LEN params);
      '(tree_id, leaf_id, m_digest_rpkt) ← get_tree_ids m_digest_rpkt params;
      let adrs := fors_adrs hctx tree_id leaf_id in
      '(pk_fors, adrs, sig_rpkt) ← ossl_slh_fors_pk_from_sig hctx sig_rpkt md pk_seed adrs;
      ossl_slh_ht_verify hctx pk_fors sig_rpkt pk_seed tree_id leaf_id pk_root
    with
    | Some sig_rpkt => PACKET_remaining sig_rpkt =? 0
    | None => false
    end.

(** The [*out_len] bytes at the returned pointer; [tmp] is the caller's buffer. *)
Definition msg_encode (msg ctx : list Z) (encode : bool) (tmp : list Z) : option (list Z) :=
  let msg_len := zlen msg in
  let ctx_len := zlen ctx in
  if negb encode then Some msg
  else if SLH_DSA_MAX_CONTEXT_STRING_LEN <? ctx_len then None
  else
    let encoded_len := u64 (1 + 1 + ctx_len + msg_len) in
    if encoded_len <? msg_len then None
    else
      encoded ← (if encoded_len <=? zlen tmp then Some (slice tmp 0 encoded_len)
                 else if malloc_ok 0 encoded_len then Some (zeros encoded_len) else None);
      '(_, pkt) ← w_run (WPACKET_init_static_len encoded 0) uninit_wpacket;
      '(_, pkt) ← w_run (WPACKET_put_bytes_u8 0) pkt;
      '(_, pkt) ← w_run (WPACKET_put_bytes_u8 (u8 ctx_len)) pkt;
      '(_, pkt) ← w_run (WPACKET_memcpy ctx) pkt;
      '(_, pkt) ← w_run (WPACKET_memcpy msg) pkt;
      '(_, pkt) ← w_run WPACKET_finish pkt;
      buf ← GETBUF pkt;
      Some (slice buf 0 encoded_len).

(** A NULL [sig] asks for the length only: the message is not encoded. *)
Definition ossl_slh_dsa_sign (slh_ctx : SLH_DSA_HASH_CTX) (msg ctx : list Z) (add_rand : option (list Z))
    (encode : bool) (sig : option (list Z)) (sigsize : Z) :
    SLH_DSA_HASH_CTX * option (Z * option (list Z)) :=
  match sig with
  | None => slh_sign_internal slh_ctx [] None sigsize add_rand
  | Some sig =>
      match msg_encode msg ctx encode (zeros 1024) with
      | None => (slh_ctx, None)
      | Some m => slh_sign_internal slh_ctx m (Some sig) sigsize add_rand
      end
  end.

Definition ossl_slh_dsa_verify (slh_ctx : SLH_DSA_HASH_CTX) (msg ctx : list Z) (encode : bool)
    (sig : list Z) (sig_len : Z) : bool :=
  match msg_encode msg ctx encode (zeros 1024) with
  | None => false
  | Some m => slh_verify_internal slh_ctx m sig sig_len
  end.
End SlhDsa.

(** ** Digest parsing *)

Lemma bytes_to_u64_be_eq inp len :
  bytes_ok inp -> 0 <= len <= 8 -> len <= zlen inp -> bytes_to_u64_be inp len = be_prefix inp len.
Proof.
  intros Hb Hl Hz. unfold bytes_to_u64_be.
  replace len with (0 + Z.of_nat (Z.to_nat len)) at 2 by lia.
  apply (for_each_inv (fun i t => t = be_prefix inp i)); [done|]. intros j t Hj ->.
  rewrite be_prefix_S by lia. rewrite Z.shiftl_mul_pow2 by lia. change (2 ^ 8) with 256.
  pose proof (be_val_lt (take (Z.to_nat j) inp) (Forall_take _ _ _ Hb)) as Hr. fold (be_prefix inp j) in Hr.
  assert (zlen (take (Z.to_nat j) inp) = j) as Hj' by (unfold zlen in *; rewrite length_take; lia).
  rewrite Hj' in Hr. assert (256 ^ j <= 256 ^ 7) by (apply Z.pow_le_mono_r; lia).
  change (256 ^ 7) with 72057594037927936 in *.
  pose proof (byte_at_ok inp j Hb) as Hx. unfold is_byte in Hx.
  rewrite (u64_small (_ * 256)) by lia. rewrite u64_small by lia. lia.
Qed.

Definition tree_id_len (p : SLH_DSA_PARAMS) : Z := (p_h p - p_hm p + 7) / 8.
Definition leaf_id_len (p : SLH_DSA_PARAMS) : Z := (p_hm p + 7) / 8.
Definition tree_idx (p : SLH_DSA_PARAMS) (d : list Z) : Z :=
  be_val (slice d (md_len p) (tree_id_len p)) mod 2 ^ (p_h p - p_hm p).
Definition leaf_idx (p : SLH_DSA_PARAMS) (d : list Z) : Z :=
  be_val (slice d (md_len p + tree_id_len p) (leaf_id_len p)) mod 2 ^ p_hm p.

Lemma be_prefix_whole l n : zlen l = n -> be_prefix l n = be_val l.
Proof. intros <-. unfold be_prefix. rewrite zlen_to_nat. by rewrite take_ge. Qed.

Lemma get_tree_ids_ok p r tb lb rest :
  params_ok p -> bytes_ok tb -> bytes_ok lb -> zlen tb = tree_id_len p -> zlen lb = leaf_id_len p ->
  pkt_rep r (tb ++ lb ++ rest) ->
  exists r', get_tree_ids r p =
    Some (be_val tb mod 2 ^ (p_h p - p_hm p), be_val lb mod 2 ^ p_hm p, r') /\ pkt_rep r' rest.
Proof.
  intros Hp Htb Hlb Htl Hll Hr. destruct Hp as (_ & Hd & Hhm & Hh & _ & _ & _ & Hx & _).
  assert (0 <= p_h p < 4294967289 /\ 0 <= p_hm p < 4294967289) as [Hr1 Hr2] by nia.
  unfold tree_id_len, leaf_id_len in *. unfold get_tree_ids. cbv zeta.
  rewrite !u32_small, !Z.shiftr_div_pow2 by lia. change (2 ^ 3) with 8.
  destruct (PACKET_get_bytes_app r tb _ _ Hr Htl) as (r1 & -> & Hr1'). cbn [mbind option_bind].
  destruct (PACKET_get_bytes_app r1 lb _ _ Hr1' Hll) as (r2 & -> & Hr2'). cbn [mbind option_bind].
  exists r2. split; [|done].
  rewrite !bytes_to_u64_be_eq, !be_prefix_whole by (done || dlia).
  assert (18446744073709551615 / 2 ^ (64 - (p_h p - p_hm p)) = Z.ones (p_h p - p_hm p)) as ->.
  { change 18446744073709551615 with (Z.ones 64). rewrite Z.ones_div_pow2 by lia. f_equal. lia. }
  assert (2 ^ p_hm p <= 512) as Hpow by (change 512 with (2 ^ 9); apply Z.pow_le_mono_r; lia).
  assert (0 < 2 ^ p_hm p) by (apply Z.pow_pos_nonneg; lia).
  rewrite Z.shiftl_1_l, u64_small, Z.sub_1_r, <- Z.ones_equiv, !Z.land_ones by lia.
  rewrite u32_small; [done|]. pose proof (Z.mod_pos_bound (be_val lb) (2 ^ p_hm p) ltac:(lia)). lia.
Qed.

(** ** FIPS 205 Algorithms 19 and 20 *)

Section Scheme.
Context (S : hash_sem) (p : SLH_DSA_PARAMS).
Abbreviation a := (Z.to_nat (p_a p)).
Abbreviation len := (Z.to_nat (SLH_WOTS_LEN (p_n p))).
Abbreviation hm := (Z.to_nat (p_hm p)).
Abbreviation d := (Z.to_nat (p_d p)).
Definition wots_digits (m : list Z) : list Z := msg_and_csum_nibbles m (p_n p).
Definition fors_v (tree leaf : Z) : ADRS := with_w1 leaf (with_type SLH_ADRS_TYPE_FORS_TREE (with_tree tree adrs0)).
Definition fors_ids (m : list Z) : list Z := slh_base_2b (slice m 0 (md_len p)) (p_a p) (p_k p).
Definition fors_elems : nat := Z.to_nat (p_k p) * (a + 1).
Definition ht_elems : nat := d * (len + hm).

(** The FORS and hypertree elements of the signature of a message with digest [m]. *)
Definition slh_elems (m : list Z) : list (list Z) :=
  let tree := tree_idx p m in
  let leaf := leaf_idx p m in
  let v := fors_v tree leaf in
  fors_sig S v a 0 (fors_ids m) ++
  ht_sig S wots_digits len hm d 0 tree leaf (fors_compress S v (fors_tops S v a 0 (Z.to_nat (p_k p)))).

(** The root a verifier recomputes. *)
Definition slh_root (m : list Z) (elems : list (list Z)) : list Z :=
  let tree := tree_idx p m in
  let leaf := leaf_idx p m in
  let v := fors_v tree leaf in
  ht_root S wots_digits len hm d 0 tree leaf
    (fors_compress S v (fors_roots S v a 0 (fors_ids m) (take fors_elems elems))) (drop fors_elems elems).

(** The root of the whole hypertree, the public root. *)
Definition slh_pk_root : list Z := layer_root S len hm (p_d p - 1) 0.

Context (Hp : params_ok p) `{SL : !SemLaws (p_n p) S}.

Lemma md_len_range : 0 <= md_len p <= 62 /\ p_a p * p_k p <= 8 * md_len p.
Proof.
  destruct Hp as (_ & _ & _ & _ & Ha & Hk & _). unfold md_len. rewrite Z.shiftr_div_pow2 by lia.
  change (2 ^ 3) with 8. assert (84 <= p_k p * p_a p <= 490) by nia. dlia.
Qed.
Lemma digest_parts : p_m p = md_len p + tree_id_len p + leaf_id_len p /\ 0 < tree_id_len p /\ 0 < leaf_id_len p /\ p_m p <= 49.
Proof.
  destruct Hp as (_ & Hd & Hhm & _ & _ & _ & _ & Hx & Hm & Hm' & _). unfold tree_id_len, leaf_id_len. dlia.
Qed.
Lemma idx_range m :
  0 <= tree_idx p m < 2 ^ (p_h p - p_hm p) /\ 0 <= tree_idx p m < 18446744073709551616 /\
  0 <= leaf_idx p m < 2 ^ p_hm p /\ 2 ^ p_hm p <= 512.
Proof.
  destruct Hp as (_ & Hd & Hhm & _ & _ & _ & _ & Hx & _).
  assert (0 < 2 ^ (p_h p - p_hm p)) by (apply Z.pow_pos_nonneg; lia).
  assert (0 < 2 ^ p_hm p) by (apply Z.pow_pos_nonneg; lia).
  assert (2 ^ (p_h p - p_hm p) <= 2 ^ 64) by (apply Z.pow_le_mono_r; lia). change (2 ^ 64) with 18446744073709551616 in *.
  pose proof (Z.mod_pos_bound (be_val (slice m (md_len p) (tree_id_len p))) (2 ^ (p_h p - p_hm p)) ltac:(lia)).
  pose proof (Z.mod_pos_bound (be_val (slice m (md_len p + tree_id_len p) (leaf_id_len p))) (2 ^ p_hm p) ltac:(lia)).
  unfold tree_idx, leaf_idx. split_and!; try lia. change 512 with (2 ^ 9). apply Z.pow_le_mono_r; lia.
Qed.

Lemma digits_len x :
  nbytes (p_n p) x -> length (wots_digits x) = len /\ Forall (fun y => 0 <= y <= 15) (wots_digits x).
Proof.
  intros [Hz Hb]. destruct Hp as (Hn & _). destruct (digits_ok x (p_n p) Hb ltac:(lia) ltac:(lia)) as [Hl Hd].
  split; [|exact Hd]. unfold wots_digits, zlen in *. lia.
Qed.

Context (m : list Z) (Hm : nbytes (p_m p) m).

Lemma md_bits : bytes_ok (slice m 0 (md_len p)) /\ p_a p * p_k p <= 8 * zlen (slice m 0 (md_len p)).
Proof.
  pose proof md_len_range. pose proof digest_parts. destruct Hm as [Hz Hb]. split; [by apply slice_ok|].
  rewrite slice_length by lia. lia.
Qed.
Lemma fors_ids_ok : length (fors_ids m) = Z.to_nat (p_k p) /\ Forall (fun id => 0 <= id < 2 ^ Z.of_nat a) (fors_ids m).
Proof.
  destruct md_bits as [Hb Hl]. destruct Hp as (_ & _ & _ & _ & Ha & Hk & _). unfold fors_ids. split.
  - apply base_2b_length; (done || lia).
  - apply Forall_forall. intros x Hx. rewrite Z2Nat.id by lia.
    apply (base_2b_range (slice m 0 (md_len p)) Hb (p_a p) ltac:(lia) (p_k p)); [lia|lia|done].
Qed.

Lemma slh_elems_nbytes : Forall (nbytes (p_n p)) (slh_elems m).
Proof. apply Forall_app; split; [by apply fors_sig_nbytes|by apply ht_sig_nbytes]. Qed.
Lemma slh_elems_length : length (slh_elems m) = (fors_elems + ht_elems)%nat.
Proof.
  destruct fors_ids_ok as [Hl _]. unfold slh_elems, fors_elems, ht_elems. cbv zeta. rewrite length_app, fors_sig_length.
  rewrite (ht_sig_length (p_n p)); [lia|done|apply digits_len|by apply sT_n].
Qed.

(** What the signer writes makes the verifier arrive at the public root. *)
Lemma slh_scheme_correct : slh_root m (slh_elems m) = slh_pk_root.
Proof.
  destruct fors_ids_ok as [Hl Hr]. pose proof (idx_range m) as (Ht & _ & Hlf & _).
  destruct Hp as (_ & Hd & Hhm & Hh & _).
  unfold slh_root, slh_elems. cbv zeta. set (v := fors_v (tree_idx p m) (leaf_idx p m)).
  assert (length (fors_sig S v a 0 (fors_ids m)) = fors_elems) as Hfl
    by (unfold fors_elems; rewrite fors_sig_length; lia).
  rewrite take_app_length', drop_app_length' by done.
  rewrite <- (app_nil_r (fors_sig S v a 0 (fors_ids m))), fors_correct by (done || lia). rewrite Hl.
  rewrite <- (app_nil_r (ht_sig _ _ _ _ _ _ _ _ _)).
  rewrite (ht_correct (p_n p)); [|done|apply digits_len|lia|rewrite Z2Nat.id by lia; lia|apply sT_n|lia].
  unfold slh_pk_root. rewrite !Z2Nat.id by lia. f_equal. apply Z.div_small.
  replace (p_hm p * (p_d p - 1)) with (p_h p - p_hm p) by nia. lia.
Qed.
End Scheme.

(** ** The functions compute the scheme *)

Lemma digest_reader p r m rest :
  params_ok p -> nbytes (p_m p) m -> pkt_rep r (m ++ rest) ->
  exists r1 r2, PACKET_get_bytes r (MD_LEN p) = Some (slice m 0 (md_len p), r1) /\
    get_tree_ids r1 p = Some (tree_idx p m, leaf_idx p m, r2).
Proof.
  intros Hp [Hz Hb] Hr. pose proof (md_len_range p Hp) as [H1 _]. pose proof (digest_parts p Hp) as (H2 & H3 & H4 & _).
  set (md := slice m 0 (md_len p)). set (tb := slice m (md_len p) (tree_id_len p)).
  set (lb := slice m (md_len p + tree_id_len p) (leaf_id_len p)).
  assert (m = md ++ tb ++ lb) as Hm.
  { unfold md, tb, lb, slice. rewrite !Z2Nat.inj_add by lia.
    rewrite <- (take_drop (Z.to_nat (md_len p)) m) at 1. f_equal.
    rewrite <- (take_drop (Z.to_nat (tree_id_len p)) (drop _ m)) at 1. rewrite drop_drop. f_equal.
    symmetry. apply take_ge. rewrite length_drop. unfold zlen in Hz. lia. }
  assert (zlen md = MD_LEN p) as Hmd by (change (MD_LEN p) with (md_len p); apply slice_length; lia).
  rewrite Hm, <- !app_assoc in Hr. destruct (PACKET_get_bytes_app r md _ _ Hr Hmd) as (r1 & E1 & Hr1).
  destruct (get_tree_ids_ok p r1 tb lb rest Hp) as (r2 & E2 & _);
    [by apply slice_ok|by apply slice_ok|apply slice_length; lia|apply slice_length; lia|done|].
  exists r1, r2. split; [exact E1|exact E2].
Qed.

Section Refine.
Context `{EV : EVP} `{AL : Allocator}.
Context (Halloc : forall n s, malloc_ok n s = true).
Context (ctx : SLH_DSA_HASH_CTX) (Hp : params_ok (ctx_params ctx)).
Context (enc : ADRS -> list Z) (rep : list Z -> ADRS -> Prop) (S : hash_sem).
Context `{RL : !AdrsLaws (adrsf ctx) enc rep} `{SL : !SemLaws (ctx_n ctx) S}.
Abbreviation p := (ctx_params ctx).
Abbreviation n := (ctx_n ctx).
Abbreviation pk_seed := (SLH_DSA_PK_SEED (h_key ctx)).
Abbreviation sk_seed := (SLH_DSA_SK_SEED (h_key ctx)).
Context `{HL : !HashLaws ctx rep pk_seed S}.

Lemma fors_adrs_rep tree leaf :
  0 <= tree < 18446744073709551616 -> 0 <= leaf < 4294967296 -> rep (fors_adrs ctx tree leaf) (fors_v tree leaf).
Proof.
  intros Ht Hl. unfold fors_adrs. apply rep_keypair; [|done].
  apply rep_type; [|unfold SLH_ADRS_TYPE_FORS_TREE; lia]. apply rep_tree; [|done]. by apply rep_zero.
Qed.

Lemma sign_digest_refines m rest rpkt w data cap :
  PrfLaws ctx rep pk_seed sk_seed S -> nbytes (p_m p) m -> pkt_rep rpkt (m ++ rest) -> wp_out w data cap ->
  zlen data + n * Z.of_nat (fors_elems p + ht_elems p) <= cap ->
  exists w', slh_sign_digest ctx rpkt w = Some w' /\ wp_out w' (data ++ concat (slh_elems S p m)) cap.
Proof.
  intros PL Hm Hr Ho Hc. destruct (digest_reader p rpkt m rest Hp Hm Hr) as (r1 & r2 & E1 & E2).
  unfold slh_sign_digest. cbv zeta. fold p. rewrite E1. cbn [mbind option_bind]. rewrite E2. cbn [mbind option_bind].
  destruct (idx_range p Hp m) as (_ & Ht & Hlf & Hpow). set (tree := tree_idx p m) in *. set (leaf := leaf_idx p m) in *.
  destruct (md_bits p Hp m Hm) as [Hmb Hml]. destruct (fors_ids_ok p Hp m Hm) as [Hil Hir].
  pose proof (fors_adrs_rep tree leaf Ht ltac:(lia)) as Hrep. set (v := fors_v tree leaf) in *.
  pose proof (proj1 Hp) as Hn. fold n in Hn.
  assert (n * (p_k p * (p_a p + 1)) = n * Z.of_nat (fors_elems p)) as Hfe.
  { unfold fors_elems. destruct Hp as (_ & _ & _ & _ & ? & ? & _). nia. }
  assert (n * (p_d p * (SLH_WOTS_LEN n + p_hm p)) = n * Z.of_nat (ht_elems p)) as Hhe.
  { unfold ht_elems. destruct Hp as (_ & ? & ? & _). unfold SLH_WOTS_LEN. fold n. nia. }
  rewrite (out_get_curr _ _ _ Ho).
  destruct (fors_sign_refines ctx Hp enc rep S pk_seed sk_seed (slice m 0 (md_len p)) v v _ w data cap
    Hmb Hml Hrep (chains_adrs_refl v) Ho) as (ad1 & w1 & u1 & -> & Hu1 & Hv1 & Ho1); [nia|].
  cbn [mbind option_bind]. fold (fors_ids p m) in Ho1. set (fs := fors_sig S v (Z.to_nat (p_a p)) 0 (fors_ids p m)) in *.
  assert (Forall (nbytes n) fs) as Hfb by (by apply fors_sig_nbytes).
  assert (length fs = fors_elems p) as Hfl by (unfold fs; rewrite fors_sig_length; unfold fors_elems; lia).
  assert (zlen (concat fs) = n * Z.of_nat (fors_elems p)) as Hfz by (rewrite (zlen_concat n) by done; unfold zlen; by rewrite Hfl).
  destruct (packet_since_ok w1 data (concat fs) cap Ho1) as (r3 & -> & Hr3).
  { rewrite Hfz, <- Hfe. change (SIZE_MAX / 2) with 9223372036854775807. destruct Hp as (_ & _ & _ & _ & ? & ? & _).
    assert (p_k p * (p_a p + 1) <= 525) by nia. nia. }
  cbn [mbind option_bind]. rewrite <- (app_nil_r (concat fs)) in Hr3.
  destruct (fors_pk_from_sig_refines Halloc ctx Hp enc rep S pk_seed (slice m 0 (md_len p)) v u1 ad1 r3 fs []
    Hmb Hml Hu1 Hv1 Hfb Hfl Hr3) as (ad2 & u2 & r4 & -> & _ & _ & _).
  cbn [mbind option_bind]. fold (fors_ids p m).
  assert (fors_roots S v (Z.to_nat (p_a p)) 0 (fors_ids p m) fs = fors_tops S v (Z.to_nat (p_a p)) 0 (Z.to_nat (p_k p))) as ->.
  { rewrite <- Hil, <- (app_nil_r fs). by apply fors_correct. }
  set (pkf := fors_compress S v _). assert (nbytes n pkf) as Hpb by apply sT_n.
  assert (slice pkf 0 n = pkf) as Hsl by (by apply slice_whole, Hpb).
  destruct (ht_sign_refines Halloc ctx Hp enc rep S pk_seed sk_seed pkf tree leaf w1 (data ++ concat fs) cap) as (w2 & -> & Ho2);
    [by rewrite Hsl|done|done|exact Ho1|rewrite zlen_app, Hfz; unfold SLH_WOTS_LEN in *; nia|].
  exists w2. split; [done|]. rewrite Hsl in Ho2. unfold slh_elems. cbv zeta. rewrite concat_app, app_assoc. exact Ho2.
Qed.

Lemma verify_refines msg r elems root m :
  k_pub (h_key ctx) = true -> nbytes n r -> Forall (nbytes n) elems ->
  length elems = (fors_elems p + ht_elems p)%nat -> root = slice (SLH_DSA_PK_ROOT (h_key ctx)) 0 n ->
  hf_H_MSG (hashf ctx) ctx r pk_seed (SLH_DSA_PK_ROOT (h_key ctx)) msg = Some m -> nbytes (p_m p) m ->
  slh_verify_internal ctx msg (r ++ concat elems) (p_sig_len p) = bool_decide (slh_root S p m elems = root).
Proof.
  intros Hpub Hr Heb Hel -> Hm Hmb. pose proof (proj1 Hp) as Hn. fold n in Hn.
  assert (zlen (r ++ concat elems) = p_sig_len p) as Hz.
  { rewrite zlen_app, (zlen_concat n) by done. unfold zlen at 2. rewrite Hel. destruct Hr as [-> _].
    unfold fors_elems, ht_elems, SLH_WOTS_LEN. fold n. destruct Hp as (_ & ? & ? & Hh & ? & ? & _ & _ & _ & _ & _ & -> & _).
    rewrite Hh. unfold wots_len. fold n. nia. }
  assert (p_sig_len p <= SIZE_MAX / 2) as Hsz.
  { change (SIZE_MAX / 2) with 9223372036854775807. destruct Hp as (_ & ? & ? & -> & ? & ? & _ & _ & _ & _ & _ & -> & _).
    fold n. unfold wots_len. fold n. nia. }
  unfold slh_verify_internal. cbv zeta. fold p n. rewrite Hpub. cbn [negb].
  rewrite Z.eqb_refl. cbn [negb].
  destruct (pkt_buf_init_rep (r ++ concat elems) 0 (p_sig_len p) (r ++ concat elems)) as (r0 & -> & Hr0);
    [lia|lia|rewrite <- Hz in Hsz |- *; pose proof (zlen_nonneg (r ++ concat elems)); lia|by rewrite slice_whole|].
  cbn [mbind option_bind].
  destruct (PACKET_get_bytes_app r0 r _ n Hr0 (proj1 Hr)) as (r1 & -> & Hr1). cbn [mbind option_bind].
  rewrite Hm. cbn [mbind option_bind].
  pose proof (digest_parts p Hp) as (_ & _ & _ & Hm49). pose proof Hmb as [Hmz _]. pose proof (zlen_nonneg m) as Hm0.
  set (rest := drop (length m) (zeros SLH_MAX_M)).
  assert (splice (zeros SLH_MAX_M) 0 m = m ++ rest) as Hspl by done.
  assert (zlen (m ++ rest) = SLH_MAX_M) as Hdz.
  { rewrite <- Hspl, splice_zlen; [by apply zlen_zeros|lia|]. rewrite zlen_zeros; unfold SLH_MAX_M; lia. }
  rewrite Hspl. destruct (pkt_buf_init_rep (m ++ rest) 0 SLH_MAX_M (m ++ rest)) as (r2 & -> & Hr2);
    [lia|lia|by compute|by rewrite slice_whole|].
  cbn [mbind option_bind]. destruct (digest_reader p r2 m rest Hp Hmb Hr2) as (r3 & r4 & E1 & E2).
  rewrite E1. cbn [mbind option_bind]. rewrite E2. cbn [mbind option_bind].
  destruct (idx_range p Hp m) as (_ & Ht & Hlf & Hpow). set (tree := tree_idx p m) in *. set (leaf := leaf_idx p m) in *.
  destruct (md_bits p Hp m Hmb) as [Hdb Hdl].
  pose proof (fors_adrs_rep tree leaf Ht ltac:(lia)) as Hrep. set (v := fors_v tree leaf) in *.
  set (fs := take (fors_elems p) elems). set (hs := drop (fors_elems p) elems).
  assert (concat elems = concat fs ++ concat hs) as Hcat by (rewrite <- concat_app; unfold fs, hs; by rewrite take_drop).
  rewrite Hcat in Hr1.
  destruct (fors_pk_from_sig_refines Halloc ctx Hp enc rep S pk_seed (slice m 0 (md_len p)) v v _ r1 fs (concat hs)
    Hdb Hdl Hrep (chains_adrs_refl v)) as (ad2 & u2 & r5 & -> & _ & _ & Hr5);
    [by apply Forall_take|unfold fs; rewrite length_take; unfold fors_elems in *; lia|done|].
  cbn [mbind option_bind]. fold (fors_ids p m). set (pkf := fors_compress S v _).
  assert (nbytes n pkf) as Hpb by apply sT_n.
  assert (slice pkf 0 n = pkf) as Hsl by (by apply slice_whole, Hpb).
  rewrite <- (app_nil_r (concat hs)) in Hr5.
  destruct (ht_verify_refines Halloc ctx Hp enc rep S pk_seed pkf r5 tree leaf (SLH_DSA_PK_ROOT (h_key ctx)) hs [])
    as (r6 & Hr6 & ->);
    [by rewrite Hsl|done|done|by apply Forall_drop|unfold hs; rewrite length_drop; unfold ht_elems in *; fold n in Hel; lia|done|].
  rewrite Hsl. unfold slh_root. cbv zeta. fold tree leaf v fs hs pkf.
  change (ht_root S (wots_digits p)) with (ht_root S (digits_of ctx)). fold n.
  case_bool_decide; [|done]. rewrite (pkt_rep_remaining _ _ Hr6). done.
Qed.
End Refine.

(** ** Contexts *)

Section Contexts.
Context `{EV : EVP} `{AL : Allocator} `{EL : !EVPLaws}.
Context (Halloc : forall n s, malloc_ok n s = true).

(** The hash functions of a context for the seeds of its key. *)
Definition ctx_S (ctx : SLH_DSA_HASH_CTX) : hash_sem :=
  ctx_sem ctx (SLH_DSA_PK_SEED (h_key ctx)) (SLH_DSA_SK_SEED (h_key ctx)).

(** The state of the HMAC object is all that signing changes in a context. *)
Definition with_hmac (mac : option (option EVP_MD)) (used : bool) (ctx : SLH_DSA_HASH_CTX) : SLH_DSA_HASH_CTX :=
  mkSLH_DSA_HASH_CTX (h_key ctx) (h_md_ctx ctx) (h_md_big_ctx ctx) mac used.
Lemma ctx_S_hmac mac used ctx : ctx_S (with_hmac mac used ctx) = ctx_S ctx.
Proof.
  unfold ctx_S, ctx_sem, with_hmac, hashf, hash_func, ctx_enc. simpl.
  by destruct (k_hash_func (h_key ctx)).
Qed.
Lemma H_MSG_hmac mac used ctx r pk root msg :
  hf_H_MSG (hashf (with_hmac mac used ctx)) (with_hmac mac used ctx) r pk root msg =
  hf_H_MSG (hashf ctx) ctx r pk root msg.
Proof. unfold hashf, hash_func, with_hmac. simpl. by destruct (k_hash_func (h_key ctx)). Qed.

(** [R] of Algorithm 19 and the digest of a message. *)
Definition msg_rand (ctx : SLH_DSA_HASH_CTX) (opt_rand : option (list Z)) (msg : list Z) : list Z :=
  let n := ctx_n ctx in
  let sk_prf := slice (SLH_DSA_SK_PRF (h_key ctx)) 0 n in
  let opt := slice (default (SLH_DSA_PK_SEED (h_key ctx)) opt_rand) 0 n in
  if p_is_shake (ctx_params ctx) then default [] (evp_xof SHAKE_256 [sk_prf; opt; msg] n)
  else slice (default [] (evp_hmac (Some (md_big_of (ctx_params ctx))) sk_prf [opt; msg])) 0 n.
Definition msg_digest (ctx : SLH_DSA_HASH_CTX) (r msg : list Z) : list Z :=
  default [] (hf_H_MSG (hashf ctx) ctx r (SLH_DSA_PK_SEED (h_key ctx)) (SLH_DSA_PK_ROOT (h_key ctx)) msg).

Lemma msg_digest_ok ctx r msg :
  ctx_wf ctx -> hf_H_MSG (hashf ctx) ctx r (SLH_DSA_PK_SEED (h_key ctx)) (SLH_DSA_PK_ROOT (h_key ctx)) msg =
    Some (msg_digest ctx r msg) /\ nbytes (p_m (ctx_params ctx)) (msg_digest ctx r msg).
Proof.
  intros Hwf. unfold msg_digest.
  destruct (H_MSG_ok ctx Hwf r (SLH_DSA_PK_SEED (h_key ctx)) (SLH_DSA_PK_ROOT (h_key ctx)) msg) as (d & -> & Hd). done.
Qed.

Lemma msg_rand_ok ctx opt msg : ctx_wf ctx -> nbytes (ctx_n ctx) (msg_rand ctx opt msg).
Proof.
  intros [Hp Hw]. unfold msg_rand. cbv zeta. pose proof (proj1 Hp) as Hn. fold (ctx_n ctx) in Hn.
  destruct (p_is_shake (ctx_params ctx)) eqn:Es.
  - edestruct (xof_ok) as (d & -> & Hd); [|exact Hd]. lia.
  - edestruct (hmac_ok (md_big_of (ctx_params ctx))) as (d & -> & Hz & Hb); [apply md_big_sha2|].
    cbn [from_option id]. apply slice_nbytes; [|done]. rewrite Hz, md_big_size.
    destruct Hp as (_ & _ & _ & _ & _ & _ & _ & _ & _ & _ & _ & _ & Hsz). specialize (Hsz Es). unfold ctx_n in *. lia.
Qed.

(** Both are the functions of the standard. *)
Lemma msg_digest_fips P `{FP : !EVPFips P} ctx shake t : ctx_wf ctx -> row_of shake t (ctx_params ctx) -> t ∈ table_2 ->
  forall r msg, zlen r = t_n t -> msg_digest ctx r msg = Fips205.H_msg P shake (t_n t) (t_m t) r
    (slice (SLH_DSA_PK_SEED (h_key ctx)) 0 (t_n t)) (slice (SLH_DSA_PK_ROOT (h_key ctx)) 0 (t_n t)) msg.
Proof. intros Hwf Hrow Ht r msg Hr. unfold msg_digest. rewrite (H_msg_eq P ctx Hwf shake t Hrow Ht). cbn [from_option id]. by rewrite (slice_whole r) by done. Qed.
Lemma msg_rand_fips P `{FP : !EVPFips P} ctx shake t : ctx_wf ctx -> row_of shake t (ctx_params ctx) -> t ∈ table_2 ->
  forall opt msg, msg_rand ctx opt msg = Fips205.PRF_msg P shake (t_n t) (slice (SLH_DSA_SK_PRF (h_key ctx)) 0 (t_n t))
    match opt with Some x => slice x 0 (t_n t) | None => slice (SLH_DSA_PK_SEED (h_key ctx)) 0 (t_n t) end msg.
Proof.
  intros Hwf Hrow Ht opt msg. destruct (row_n ctx shake t Hrow Ht) as [Hn Hc]. pose proof (row_md ctx shake t Hrow Ht) as Hmd. pose proof Hrow as (_ & Hs & _).
  unfold msg_rand, Fips205.PRF_msg. cbv zeta. rewrite Hs, Hn, Hmd.
  assert (slice (default (SLH_DSA_PK_SEED (h_key ctx)) opt) 0 (t_n t) = match opt with Some x => slice x 0 (t_n t) | None => slice (SLH_DSA_PK_SEED (h_key ctx)) 0 (t_n t) end) as -> by (by destruct opt).
  destruct shake.
  - rewrite (fips_xof (P := P)) by lia. cbn [concat from_option id]. by rewrite app_nil_r.
  - rewrite (fips_hmac (P := P)) by apply sha_x_sha2. cbn [concat from_option id]. by rewrite app_nil_r.
Qed.

Lemma PRF_MSG_ok ctx opt msg w data cap :
  ctx_wf ctx -> wp_out w data cap -> zlen data + ctx_n ctx <= cap ->
  exists mac used w', hf_PRF_MSG (hashf ctx) ctx (SLH_DSA_SK_PRF (h_key ctx))
      (default (SLH_DSA_PK_SEED (h_key ctx)) opt) msg w = (with_hmac mac used ctx, Some w') /\
    ctx_wf (with_hmac mac used ctx) /\ wp_out w' (data ++ msg_rand ctx opt msg) cap.
Proof.
  intros Hwf Ho Hc. destruct (msg_rand_ok ctx opt msg Hwf) as [Hrz _].
  destruct (out_memcpy w data cap (msg_rand ctx opt msg) Ho) as (w' & E & Ho'); [lia|]. revert Hrz E Ho'.
  pose proof (proj1 (proj1 Hwf)) as Hn. fold (ctx_n ctx) in Hn. pose proof Hwf as [Hp Hw].
  unfold msg_rand, hashf, hash_func. cbv zeta. destruct (p_is_shake (ctx_params ctx)) eqn:Es; intros Hrz E Ho'.
  - destruct Hw as (Hf & Hmd & Hadr). rewrite Hf. unfold ossl_slh_get_hash_fn; cbn [hf_PRF_MSG].
    exists (h_hmac_ctx ctx), (h_hmac_digest_used ctx), w'. unfold slh_prf_msg_shake, write_n, xof_digest_3. rewrite Hmd.
    edestruct xof_ok as (d & Ed & Hd); [|rewrite Ed in *]; [lia|]. cbn [mbind option_bind from_option id] in *.
    rewrite slice_whole by apply Hd. rewrite E.
    assert (with_hmac (h_hmac_ctx ctx) (h_hmac_digest_used ctx) ctx = ctx) as -> by (by destruct ctx). done.
  - destruct Hw as (Hf & Hmd & Hadr & Hbig & Hkbig & mac & Hmac & Hused). rewrite Hf.
    unfold ossl_slh_get_hash_fn; cbn [hf_PRF_MSG]. exists (Some (Some (md_big_of (ctx_params ctx)))), true, w'.
    unfold slh_prf_msg_sha2. cbv zeta.
    assert ((if h_hmac_digest_used ctx then ctx else
      mkSLH_DSA_HASH_CTX (h_key ctx) (h_md_ctx ctx) (h_md_big_ctx ctx)
        match h_hmac_ctx ctx with Some _ => Some (k_md_big (h_key ctx)) | None => None end true) =
      with_hmac (Some (Some (md_big_of (ctx_params ctx)))) true ctx) as ->.
    { unfold with_hmac. destruct ctx as [key md big hm used]; simpl in *. destruct used.
      - rewrite Hmac, Hused by done. done.
      - rewrite Hmac, Hkbig. done. }
    cbn [with_hmac h_hmac_ctx mbind option_bind].
    edestruct (hmac_ok (md_big_of (ctx_params ctx))) as (d & Ed & Hd); [apply md_big_sha2|rewrite Ed in *].
    cbn [mbind option_bind from_option id] in *. unfold write_n. rewrite E. split; [done|]. split; [|done].
    split; [done|]. unfold ctx_params in *. cbn [with_hmac h_key h_md_ctx h_md_big_ctx h_hmac_ctx h_hmac_digest_used].
    rewrite Es. split_and!; try done. by eexists.
Qed.

Lemma sig_len_eq ctx :
  params_ok (ctx_params ctx) -> p_sig_len (ctx_params ctx) =
    ctx_n ctx + ctx_n ctx * Z.of_nat (fors_elems (ctx_params ctx) + ht_elems (ctx_params ctx)).
Proof.
  intros (Hn & ? & ? & Hh & ? & ? & _ & _ & _ & _ & _ & -> & _).
  unfold fors_elems, ht_elems, SLH_WOTS_LEN, wots_len. rewrite Hh. fold (ctx_n ctx) in *. nia.
Qed.

(** Signing computes Algorithm 19 over any functions [S] that the context computes. *)
Lemma sign_internal_sem S ctx msg sig sig_size opt :
  SemLaws (ctx_n ctx) S ->
  (forall mac used, ctx_wf (with_hmac mac used ctx) ->
     HashLaws (with_hmac mac used ctx) (ctx_rep (with_hmac mac used ctx)) (SLH_DSA_PK_SEED (h_key ctx)) S /\
     PrfLaws (with_hmac mac used ctx) (ctx_rep (with_hmac mac used ctx)) (SLH_DSA_PK_SEED (h_key ctx)) (SLH_DSA_SK_SEED (h_key ctx)) S) ->
  ctx_wf ctx -> k_has_priv (h_key ctx) = true -> p_sig_len (ctx_params ctx) <= sig_size <= zlen sig ->
  exists mac used, ctx_wf (with_hmac mac used ctx) /\
    let r := msg_rand ctx opt msg in
    slh_sign_internal ctx msg (Some sig) sig_size opt =
      (with_hmac mac used ctx, Some (p_sig_len (ctx_params ctx),
         Some (splice sig 0 (r ++ concat (slh_elems S (ctx_params ctx) (msg_digest ctx r msg)))))).
Proof.
  intros HS Hlaws Hwf Hpriv Hsz. pose proof (proj1 Hwf) as Hp. pose proof (sig_len_eq ctx Hp) as Hlen.
  pose proof (proj1 Hp) as Hn. fold (ctx_n ctx) in Hn.
  set (p := ctx_params ctx) in *. set (n := ctx_n ctx) in *.
  assert (zlen (slice sig 0 (p_sig_len p)) = p_sig_len p) as Hsl by (apply slice_length; nia).
  assert (p_sig_len p <= SIZE_MAX) as Hmax.
  { destruct Hp as (_ & ? & ? & Hh & ? & ? & _ & _ & _ & _ & _ & -> & _). rewrite Hh. fold (ctx_n ctx). fold n.
    unfold wots_len, SIZE_MAX. fold n. change (p_n p) with n. nia. }
  destruct (out_init (slice sig 0 (p_sig_len p)) uninit_wpacket Halloc) as (w0 & E0 & Ho0); [nia|]. rewrite Hsl in Ho0.
  destruct (PRF_MSG_ok ctx opt msg w0 [] (p_sig_len p) Hwf Ho0) as (mac & used & w1 & E1 & Hwf' & Ho1);
    [rewrite zlen_nil; fold n; nia|]. cbn [app] in Ho1.
  exists mac, used. split; [done|]. cbv zeta. unfold slh_sign_internal. cbv zeta.
  change (k_params (h_key ctx)) with p. rewrite Hpriv.
  destruct (Z.ltb_spec sig_size (p_sig_len p)); [lia|]. cbn [negb].
  rewrite (w_run_done _ _ _ _ E0). pose proof (digest_parts p Hp) as (_ & _ & _ & Hm49).
  unfold PACKET_buf_init. destruct (Z.ltb_spec (SIZE_MAX / 2) (p_m p)) as [Hbad|_];
    [change (SIZE_MAX / 2) with 9223372036854775807 in Hbad; lia|].
  rewrite E1, (out_get_curr _ _ _ Ho0). cbn [mbind option_bind]. f_equal. change (zlen []) with 0.
  destruct (msg_rand_ok ctx opt msg Hwf) as [Hrz _]. set (r := msg_rand ctx opt msg) in *. fold n in Hrz.
  assert (wp_read w1 0 (p_n p) = r) as ->.
  { change (p_n p) with n. rewrite <- Hrz. apply (out_read _ _ _ [] r [] Ho1). by rewrite app_nil_r. }
  rewrite H_MSG_hmac. destruct (msg_digest_ok ctx r msg Hwf) as [-> Hmb]. cbn [mbind option_bind pkt_curr pkt_remaining].
  set (m := msg_digest ctx r msg) in *. fold p in Hmb. pose proof Hmb as [Hmz _].
  pose proof (zlen_nonneg m).
  assert (zlen (splice (zeros SLH_MAX_M) 0 m) = SLH_MAX_M) as Hdz.
  { rewrite splice_zlen; [by apply zlen_zeros|lia|]. rewrite zlen_zeros; unfold SLH_MAX_M; lia. }
  assert (pkt_rep (mkPACKET (splice (zeros SLH_MAX_M) 0 m) 0 (p_m p)) (m ++ [])) as Hrep.
  { rewrite app_nil_r. unfold pkt_rep, pkt_bytes. cbn [pkt_curr pkt_buf pkt_remaining]. rewrite Hdz, Hmz.
    change (SIZE_MAX / 2) with 9223372036854775807. unfold SLH_MAX_M in *. split_and!; try lia.
    rewrite <- Hmz. apply slice_splice_same; [lia|]. rewrite zlen_zeros; lia. }
  assert (AdrsLaws (adrsf (with_hmac mac used ctx)) (ctx_enc (with_hmac mac used ctx)) (ctx_rep (with_hmac mac used ctx)))
    as HA by (by apply ctx_adrs_laws).
  destruct (Hlaws mac used Hwf') as [HH HP].
  destruct (sign_digest_refines Halloc (with_hmac mac used ctx) Hp _ _ S m [] _ w1 r (p_sig_len p) HP Hmb Hrep Ho1) as (w2 & -> & Ho2).
  { change (ctx_n (with_hmac mac used ctx)) with n. change (ctx_params (with_hmac mac used ctx)) with p. nia. }
  cbn [mbind option_bind]. change (ctx_params (with_hmac mac used ctx)) with p in Ho2.
  destruct (out_finish_buf _ _ _ Ho2) as (w3 & b & E3 & Hb & Hsb). rewrite (w_run_done _ _ _ _ E3). cbn [mbind option_bind].
  rewrite Hb. cbn [mbind option_bind]. 
  assert (p_sig_len p = zlen (r ++ concat (slh_elems S p m))) as Hfin; [|by rewrite <- Hsb, <- Hfin at 1].
  rewrite zlen_app, Hrz, (zlen_concat n) by (by apply slh_elems_nbytes).
  unfold zlen. rewrite slh_elems_length; [lia|done..].
Qed.
Lemma sign_internal_ok ctx msg sig sig_size opt :
  ctx_wf ctx -> k_has_priv (h_key ctx) = true -> p_sig_len (ctx_params ctx) <= sig_size <= zlen sig ->
  exists mac used, ctx_wf (with_hmac mac used ctx) /\
    let r := msg_rand ctx opt msg in
    slh_sign_internal ctx msg (Some sig) sig_size opt =
      (with_hmac mac used ctx, Some (p_sig_len (ctx_params ctx),
         Some (splice sig 0 (r ++ concat (slh_elems (ctx_S ctx) (ctx_params ctx) (msg_digest ctx r msg)))))).
Proof.
  intros Hwf. apply sign_internal_sem; [by apply ctx_sem_laws| |done]. intros mac used Hwf'. rewrite <- (ctx_S_hmac mac used ctx).
  split; [exact (ctx_hash_laws (with_hmac mac used ctx) Hwf' _ _)|exact (ctx_prf_laws _ Hwf' _ _)].
Qed.

(** A verifier's context with the signer's parameter set and public key. *)
Definition pub_agree (ctx ctx' : SLH_DSA_HASH_CTX) : Prop :=
  ctx_params ctx' = ctx_params ctx /\
  slice (SLH_DSA_PK_SEED (h_key ctx')) 0 (ctx_n ctx) = slice (SLH_DSA_PK_SEED (h_key ctx)) 0 (ctx_n ctx) /\
  slice (SLH_DSA_PK_ROOT (h_key ctx')) 0 (ctx_n ctx) = slice (SLH_DSA_PK_ROOT (h_key ctx)) 0 (ctx_n ctx).

Lemma pub_agree_refl ctx : pub_agree ctx ctx.
Proof. done. Qed.

Lemma pub_agree_ctx ctx ctx' :
  ctx_wf ctx -> ctx_wf ctx' -> pub_agree ctx ctx' ->
  ctx_agree ctx ctx' (SLH_DSA_PK_SEED (h_key ctx)) (SLH_DSA_PK_SEED (h_key ctx')) /\
  (forall r msg, msg_digest ctx' r msg = msg_digest ctx r msg).
Proof.
  intros [_ Hw] [_ Hw'] (Hp & Hs & Hr). unfold ctx_agree. rewrite Hp in Hw'.
  assert (ctx_n ctx' = ctx_n ctx) as Hn by (unfold ctx_n; by rewrite Hp).
  assert (k_hash_func (h_key ctx) = k_hash_func (h_key ctx') /\ h_md_ctx ctx = h_md_ctx ctx' /\
    h_md_big_ctx ctx = h_md_big_ctx ctx' /\
    (k_hash_func (h_key ctx') = false -> k_md_big (h_key ctx) = k_md_big (h_key ctx'))) as (E1 & E2 & E3 & E4).
  { destruct (p_is_shake (ctx_params ctx)); [destruct Hw as (-> & -> & -> & _), Hw' as (-> & -> & -> & _)|
      destruct Hw as (-> & -> & _ & -> & -> & _), Hw' as (-> & -> & _ & -> & -> & _)]; by split_and!. }
  split; [split_and!; by try done|]. intros r msg. unfold msg_digest, hashf, hash_func. rewrite E1.
  destruct (k_hash_func (h_key ctx')); unfold ossl_slh_get_hash_fn; cbn [hf_H_MSG]; f_equal.
  - unfold slh_hmsg_shake. by rewrite Hn, Hp, Hs, Hr, E2.
  - unfold slh_hmsg_sha2. by rewrite Hn, Hp, Hs, Hr, E3, E4.
Qed.

(** Verification computes Algorithm 20. *)
Lemma verify_internal_ok ctx ctx' msg r elems :
  ctx_wf ctx -> ctx_wf ctx' -> pub_agree ctx ctx' -> k_pub (h_key ctx') = true ->
  nbytes (ctx_n ctx) r -> Forall (nbytes (ctx_n ctx)) elems ->
  length elems = (fors_elems (ctx_params ctx) + ht_elems (ctx_params ctx))%nat ->
  slh_verify_internal ctx' msg (r ++ concat elems) (p_sig_len (ctx_params ctx)) =
    bool_decide (slh_root (ctx_S ctx) (ctx_params ctx) (msg_digest ctx r msg) elems =
                 slice (SLH_DSA_PK_ROOT (h_key ctx)) 0 (ctx_n ctx)).
Proof.
  intros Hwf Hwf' Ha Hpub Hr Heb Hel. destruct (pub_agree_ctx ctx ctx' Hwf Hwf' Ha) as [Hag Hmd].
  destruct Ha as (Hp & Hs & Hrt). assert (ctx_n ctx' = ctx_n ctx) as Hn by (unfold ctx_n; by rewrite Hp).
  rewrite <- Hrt, <- Hmd, <- Hp, <- Hn. rewrite <- Hn in Hr, Heb. rewrite <- Hp in Hel.
  assert (AdrsLaws (adrsf ctx') (ctx_enc ctx') (ctx_rep ctx')) as HA by (by apply ctx_adrs_laws).
  assert (SemLaws (ctx_n ctx') (ctx_S ctx)) as HS by (rewrite Hn; by apply ctx_sem_laws).
  assert (HashLaws ctx' (ctx_rep ctx') (SLH_DSA_PK_SEED (h_key ctx')) (ctx_S ctx)) as HH
    by (eapply agree_hash_laws; [exact Hag|by apply ctx_hash_laws]).
  destruct (msg_digest_ok ctx' r msg Hwf') as [Em Hmb].
  apply (verify_refines Halloc ctx' (proj1 Hwf') _ _ (ctx_S ctx) msg r elems); done.
Qed.

(** Verification accepts what signing with a genuine key pair writes. *)
Lemma sign_verify_ok ctx ctx' msg opt :
  ctx_wf ctx -> ctx_wf ctx' -> pub_agree ctx ctx' -> k_pub (h_key ctx') = true ->
  slice (SLH_DSA_PK_ROOT (h_key ctx)) 0 (ctx_n ctx) = slh_pk_root (ctx_S ctx) (ctx_params ctx) ->
  let r := msg_rand ctx opt msg in
  slh_verify_internal ctx' msg
    (r ++ concat (slh_elems (ctx_S ctx) (ctx_params ctx) (msg_digest ctx r msg))) (p_sig_len (ctx_params ctx)) = true.
Proof.
  intros Hwf Hwf' Ha Hpub Hroot r. pose proof (proj1 Hwf) as Hp.
  assert (SemLaws (p_n (ctx_params ctx)) (ctx_S ctx)) as HS by (by apply ctx_sem_laws).
  destruct (msg_digest_ok ctx r msg Hwf) as [_ Hmb].
  rewrite verify_internal_ok; try done.
  - rewrite slh_scheme_correct by done. by rewrite Hroot, bool_decide_eq_true_2.
  - by apply msg_rand_ok.
  - by apply slh_elems_nbytes.
  - by apply slh_elems_length.
Qed.

(** ** Message encoding *)

Lemma msg_encode_pure msg cx tmp :
  zlen cx <= 255 -> 2 + zlen cx + zlen msg <= SIZE_MAX ->
  msg_encode msg cx true tmp = Some (0 :: zlen cx :: cx ++ msg).
Proof.
  intros Hc Hm. pose proof (zlen_nonneg cx). pose proof (zlen_nonneg msg). unfold msg_encode. cbv zeta. cbn [negb].
  destruct (Z.ltb_spec SLH_DSA_MAX_CONTEXT_STRING_LEN (zlen cx)) as [Hb|_]; [unfold SLH_DSA_MAX_CONTEXT_STRING_LEN in Hb; lia|].
  unfold SIZE_MAX in Hm. rewrite u64_small by lia. set (el := 1 + 1 + zlen cx + zlen msg).
  destruct (Z.ltb_spec el (zlen msg)); [lia|].
  assert (exists buf, (if el <=? zlen tmp then Some (slice tmp 0 el) else if malloc_ok 0 el then Some (zeros el) else None) =
    Some buf /\ zlen buf = el) as (buf & -> & Hbuf).
  { destruct (Z.leb_spec el (zlen tmp)); [eexists; split; [done|apply slice_length; lia]|].
    rewrite Halloc. eexists; split; [done|]. apply zlen_zeros. lia. }
  cbn [mbind option_bind].
  destruct (out_init buf uninit_wpacket Halloc) as (w0 & E0 & Ho0); [unfold SIZE_MAX; lia|]. rewrite Hbuf in Ho0.
  rewrite (w_run_done _ _ _ _ E0). cbn [mbind option_bind].
  destruct (out_put_bytes w0 [] el 0 1 Ho0) as (w1 & E1 & Ho1); [lia|lia|rewrite zlen_nil; lia|].
  change (WPACKET_put_bytes_u8 0) with (WPACKET_put_bytes__ 0 1).
  rewrite (w_run_done _ _ _ _ E1). cbn [mbind option_bind].
  rewrite u8_small by lia. change (WPACKET_put_bytes_u8 (zlen cx)) with (WPACKET_put_bytes__ (zlen cx) 1).
  destruct (out_put_bytes w1 _ el (zlen cx) 1 Ho1) as (w2 & E2 & Ho2); [lia|lia|autorewrite with zlen; rewrite zlen_be_bytes; lia|].
  rewrite (w_run_done _ _ _ _ E2). cbn [mbind option_bind].
  destruct (out_memcpy w2 _ el cx Ho2) as (w3 & E3 & Ho3); [autorewrite with zlen; rewrite !zlen_be_bytes; lia|].
  rewrite (w_run_done _ _ _ _ E3). cbn [mbind option_bind].
  destruct (out_memcpy w3 _ el msg Ho3) as (w4 & E4 & Ho4); [autorewrite with zlen; rewrite !zlen_be_bytes; lia|].
  rewrite (w_run_done _ _ _ _ E4). cbn [mbind option_bind].
  destruct (out_finish_buf _ _ _ Ho4) as (w5 & b & E5 & Hb & Hs). rewrite (w_run_done _ _ _ _ E5). cbn [mbind option_bind].
  rewrite Hb. cbn [mbind option_bind]. f_equal.
  change (be_bytes (Z.to_nat 1) 0) with [0] in Hs. change (be_bytes (Z.to_nat 1) (zlen cx)) with [zlen cx mod 256] in Hs.
  rewrite Z.mod_small in Hs by lia. cbn [app] in Hs. etransitivity; [|exact Hs]. f_equal. autorewrite with zlen. lia.
Qed.
End Contexts.

(** ** Properties *)

(** A byte string cut into [m] pieces of [n] bytes. *)
Fixpoint chunks (n : Z) (m : nat) (l : list Z) : list (list Z) :=
  match m with
  | O => []
  | S m' => take (Z.to_nat n) l :: chunks n m' (drop (Z.to_nat n) l)
  end.
Lemma chunks_ok n m l :
  bytes_ok l -> 0 <= n -> zlen l = n * Z.of_nat m ->
  concat (chunks n m l) = l /\ Forall (nbytes n) (chunks n m l) /\ length (chunks n m l) = m.
Proof.
  revert l. induction m as [|m IH]; intros l Hb Hn Hl; cbn [chunks].
  - rewrite Z.mul_0_r in Hl. destruct l; [done|]. unfold zlen in Hl. simpl in Hl. lia.
  - destruct (IH (drop (Z.to_nat n) l)) as (H1 & H2 & H3); [by apply Forall_drop|done| |].
    { unfold zlen in *. rewrite length_drop. lia. }
    rewrite concat_cons, H1, take_drop. split; [done|]. split; [|cbn; by rewrite H3]. constructor; [|done].
    split; [|by apply Forall_take]. unfold zlen in *. rewrite length_take. nia.
Qed.

(** C4: verification is FIPS 205 Algorithm 20.  With a public key present,
    [slh_verify_internal] accepts a byte string as a signature exactly when its
    length is the parameter set's signature length and the root recomputed from
    its FORS and hypertree parts, for the digest of its first [n] bytes, the public
    key and the message, equals the public root.  Nothing after the last element
    is ignored. *)
Theorem slh_verify_exact `{EV : EVP} `{AL : Allocator} `{EL : !EVPLaws} ctx msg sig :
  (forall n s, malloc_ok n s = true) -> ctx_wf ctx -> bytes_ok sig ->
  slh_verify_internal ctx msg sig (zlen sig) = true <->
    k_pub (h_key ctx) = true /\ zlen sig = p_sig_len (ctx_params ctx) /\
    slh_root (ctx_S ctx) (ctx_params ctx) (msg_digest ctx (slice sig 0 (ctx_n ctx)) msg)
      (chunks (ctx_n ctx) (fors_elems (ctx_params ctx) + ht_elems (ctx_params ctx)) (from sig (ctx_n ctx))) =
    slice (SLH_DSA_PK_ROOT (h_key ctx)) 0 (ctx_n ctx).
Proof.
  intros Hal Hwf Hb. pose proof (proj1 Hwf) as Hp. pose proof (proj1 Hp) as Hn. fold (ctx_n ctx) in Hn.
  destruct (k_pub (h_key ctx)) eqn:Hpub; [|unfold slh_verify_internal; rewrite Hpub; split; [done|by intros []]].
  destruct (Z.eqb_spec (zlen sig) (p_sig_len (ctx_params ctx))) as [El|Hne].
  - pose proof (sig_len_eq ctx Hp) as Hse. set (N := (fors_elems (ctx_params ctx) + ht_elems (ctx_params ctx))%nat) in *.
    destruct (chunks_ok (ctx_n ctx) N (from sig (ctx_n ctx))) as (H1 & H2 & H3); [by apply Forall_drop|lia| |].
    { unfold from, zlen in *. rewrite length_drop. nia. }
    assert (sig = slice sig 0 (ctx_n ctx) ++ concat (chunks (ctx_n ctx) N (from sig (ctx_n ctx)))) as Hcut.
    { rewrite H1. unfold slice, from. by rewrite drop_0, take_drop. }
    assert (nbytes (ctx_n ctx) (slice sig 0 (ctx_n ctx))) as Hr by (apply slice_nbytes; [nia|done]).
    pose proof (verify_internal_ok Hal ctx ctx msg _ _ Hwf Hwf (pub_agree_refl ctx) Hpub Hr H2 H3) as Hv.
    rewrite <- Hcut, <- El in Hv. rewrite Hv, bool_decide_eq_true. split; [|by intros (_ & _ & ?)]. by intros ->.
  - split; [|by intros (_ & ? & _)]. unfold slh_verify_internal. rewrite Hpub. cbv zeta.
    change (k_params (h_key ctx)) with (ctx_params ctx). by destruct (Z.eqb_spec (zlen sig) (p_sig_len (ctx_params ctx))).
Qed.

(** A public key of zeros for a parameter set, with its context. *)
Definition zero_ctx (pub : bool) : SLH_DSA_HASH_CTX :=
  mkSLH_DSA_HASH_CTX
    (mkSLH_DSA_KEY (zeros 128) pub None pub (OSSL_SLH_PARAMS_128F "SLH-DSA-SHAKE-128f" 1467 true 0)
       slh_adrs_methods true (Some SHAKE_256) None false)
    SHAKE_256 None None false.
Lemma zero_ctx_wf pub : ctx_wf (zero_ctx pub).
Proof. split; [apply params_okb_ok; by vm_compute|]. done. Qed.

Lemma slh_verify_exact_witness :
  @slh_verify_internal pad_evp always_alloc (zero_ctx true) [1; 2] [3; 4; 5] 3 <> true.
Proof.
  intros H. apply (@slh_verify_exact pad_evp always_alloc pad_evp_laws (zero_ctx true) [1; 2] [3; 4; 5]) in H.
  - destruct H as (_ & H & _). discriminate H.
  - reflexivity.
  - apply zero_ctx_wf.
  - repeat constructor; unfold is_byte; lia.
Defined.

(** C5: signing is FIPS 205 Algorithm 19.  For a context of any of the twelve parameter
    sets, over EVP calls that compute SHAKE-256, SHA-2 and HMAC, with a private key and a
    large enough buffer, [slh_sign_internal] succeeds and writes at the front of the
    buffer the randomizer R = PRF_msg(SK.prf, opt_rand, M), then the FORS elements for the
    digest H_msg(R, PK.seed, PK.root, M), then the hypertree elements, all with the
    functions of FIPS 205 section 11 for the set; [opt_rand] is PK.seed where the caller
    gives none.  The rest of the buffer keeps its contents, and of the context only the
    HMAC state changes, so that the randomizer is the same whether or not the context was
    used before. *)
Theorem slh_sign_computes `{EV : EVP} `{AL : Allocator} `{EL : !EVPLaws} P `{FP : !EVPFips P} alg ctx msg sig sig_size opt_rand :
  (forall n s, malloc_ok n s = true) -> ossl_slh_dsa_params_get alg = Some (ctx_params ctx) -> ctx_wf ctx -> k_has_priv (h_key ctx) = true ->
  p_sig_len (ctx_params ctx) <= sig_size <= zlen sig ->
  exists shake t mac used, alg = set_name shake t /\ row_of shake t (ctx_params ctx) /\ ctx_wf (with_hmac mac used ctx) /\
    let n := t_n t in
    let sk_seed := slice (SLH_DSA_SK_SEED (h_key ctx)) 0 n in
    let sk_prf := slice (SLH_DSA_SK_PRF (h_key ctx)) 0 n in
    let pk_seed := slice (SLH_DSA_PK_SEED (h_key ctx)) 0 n in
    let pk_root := slice (SLH_DSA_PK_ROOT (h_key ctx)) 0 n in
    let opt := match opt_rand with Some x => slice x 0 n | None => pk_seed end in
    let r := Fips205.PRF_msg P shake n sk_prf opt msg in
    let digest := Fips205.H_msg P shake n (t_m t) r pk_seed pk_root msg in
    slh_sign_internal ctx msg (Some sig) sig_size opt_rand =
      (with_hmac mac used ctx, Some (t_sig t,
         Some (splice sig 0 (r ++ concat (slh_elems (Fips205.fips_sem P shake n pk_seed sk_seed) (ctx_params ctx) digest))))).
Proof.
  intros Hal Halg Hwf Hpriv Hsz. destruct (lookup_only alg _ Halg) as (shake & t & Ht & ->). destruct (lookup_row shake t Ht) as (p & Ep & Hrow).
  rewrite Halg in Ep. injection Ep as <-. destruct (row_n ctx shake t Hrow Ht) as [Hn _].
  set (S := Fips205.fips_sem P shake (t_n t) (slice (SLH_DSA_PK_SEED (h_key ctx)) 0 (t_n t)) (slice (SLH_DSA_SK_SEED (h_key ctx)) 0 (t_n t))).
  destruct (sign_internal_sem Hal S ctx msg sig sig_size opt_rand) as (mac & used & Hwf' & E); [by apply (fips_sem_laws P ctx Hwf)| |done|done|done|].
  { intros mac used Hwf'. split; [by apply (fips_hash_laws P (with_hmac mac used ctx) Hwf')|by apply (fips_prf_laws P (with_hmac mac used ctx) Hwf')]. }
  exists shake, t, mac, used. split; [done|]. split; [done|]. split; [done|]. cbv zeta in *. rewrite E. clear E.
  rewrite (msg_digest_fips P ctx shake t Hwf Hrow Ht) by (rewrite <- Hn; apply (msg_rand_ok ctx opt_rand msg Hwf)). rewrite !(msg_rand_fips P ctx shake t Hwf Hrow Ht).
  destruct Hrow as (_ & _ & _ & _ & _ & _ & _ & _ & _ & _ & _ & -> & _). done.
Qed.

Lemma slh_sign_computes_witness :
  exists ctx' sig, @slh_sign_internal pad_evp always_alloc (zero_ctx true) [1; 2] (Some (zeros 20000)) 20000 None =
    (ctx', Some (17088, Some sig)).
Proof.
  destruct (@slh_sign_computes pad_evp always_alloc pad_evp_laws pad_hashes pad_evp_fips "SLH-DSA-SHAKE-128f" (zero_ctx true) [1; 2] (zeros 20000) 20000 None)
    as (shake & t & mac & used & _ & Hrow & _ & E).
  - reflexivity.
  - reflexivity.
  - apply zero_ctx_wf.
  - reflexivity.
  - rewrite zlen_zeros by lia. cbn. lia.
  - destruct Hrow as (_ & _ & _ & _ & _ & _ & _ & _ & _ & _ & _ & Hs & _). eexists _, _. rewrite E, <- Hs. reflexivity.
Defined.

(** C23: what signing and verification refuse.  Asking for the length with a NULL
    buffer returns it without a key; a short buffer, a missing private key, a
    missing public key, a signature of another length and a context string of more
    than 255 bytes are refused, whatever the allocator and the hash functions do. *)
Theorem slh_refusals `{EV : EVP} `{AL : Allocator} ctx msg cx rnd encode sig size :
  ossl_slh_dsa_sign ctx msg cx rnd encode None size = (ctx, Some (p_sig_len (ctx_params ctx), None)) /\
  (size < p_sig_len (ctx_params ctx) -> (ossl_slh_dsa_sign ctx msg cx rnd encode (Some sig) size).2 = None) /\
  (k_has_priv (h_key ctx) = false -> (ossl_slh_dsa_sign ctx msg cx rnd encode (Some sig) size).2 = None) /\
  (255 < zlen cx -> (ossl_slh_dsa_sign ctx msg cx rnd true (Some sig) size).2 = None) /\
  (255 < zlen cx -> ossl_slh_dsa_verify ctx msg cx true sig size = false) /\
  (k_pub (h_key ctx) = false -> ossl_slh_dsa_verify ctx msg cx encode sig size = false) /\
  (size <> p_sig_len (ctx_params ctx) -> ossl_slh_dsa_verify ctx msg cx encode sig size = false).
Proof.
  assert (255 < zlen cx -> msg_encode msg cx true (zeros 1024) = None) as Hlong.
  { intros H. unfold msg_encode. cbn [negb]. unfold SLH_DSA_MAX_CONTEXT_STRING_LEN.
    destruct (Z.ltb_spec 255 (zlen cx)); [done|lia]. }
  unfold ossl_slh_dsa_sign, ossl_slh_dsa_verify. split_and!.
  - done.
  - intros H. destruct (msg_encode msg cx encode (zeros 1024)); [|done]. unfold slh_sign_internal. cbv zeta.
    change (k_params (h_key ctx)) with (ctx_params ctx). destruct (Z.ltb_spec size (p_sig_len (ctx_params ctx))); [done|lia].
  - intros H. destruct (msg_encode msg cx encode (zeros 1024)); [|done]. unfold slh_sign_internal. cbv zeta.
    rewrite H. by destruct (size <? _).
  - intros H. by rewrite Hlong.
  - intros H. by rewrite Hlong.
  - intros H. destruct (msg_encode msg cx encode (zeros 1024)); [|done]. unfold slh_verify_internal. by rewrite H.
  - intros H. destruct (msg_encode msg cx encode (zeros 1024)); [|done]. unfold slh_verify_internal. cbv zeta.
    change (k_params (h_key ctx)) with (ctx_params ctx).
    destruct (Z.eqb_spec size (p_sig_len (ctx_params ctx))); [done|]. by destruct (k_pub (h_key ctx)).
Qed.

Lemma slh_refusals_witness :
  (@ossl_slh_dsa_sign pad_evp always_alloc (zero_ctx false) [1] [] None true (Some (zeros 20000)) 20000).2 = None.
Proof.
  destruct (@slh_refusals pad_evp always_alloc (zero_ctx false) [1] [] None true (zeros 20000) 20000)
    as (_ & _ & H & _). apply H. reflexivity.
Defined.

(** The pure-signature encoding is 00, the context length, the context and the
    message, for contexts of up to 255 bytes, whether it is built in the caller's
    buffer or on the heap; and it separates messages: two encodings are equal only
    if the contexts and the messages are. *)
Lemma slh_msg_encode_separates `{AL : Allocator} msg cx msg' cx' tmp tmp' :
  (forall n s, malloc_ok n s = true) -> zlen cx <= 255 -> zlen cx' <= 255 ->
  2 + zlen cx + zlen msg <= SIZE_MAX -> 2 + zlen cx' + zlen msg' <= SIZE_MAX ->
  msg_encode msg cx true tmp = Some (0 :: zlen cx :: cx ++ msg) /\
  (msg_encode msg cx true tmp = msg_encode msg' cx' true tmp' -> cx = cx' /\ msg = msg').
Proof.
  intros Hal H1 H2 H3 H4. rewrite !msg_encode_pure by done. split; [done|].
  intros [= E1 E2]. apply app_inj_1 in E2; [done|]. unfold zlen in E1. lia.
Qed.

Lemma slh_msg_encode_separates_witness :
  @msg_encode always_alloc [7; 8] [9] true [] = Some [0; 1; 9; 7; 8] /\
  (@msg_encode always_alloc [7; 8] [9] true [] = @msg_encode always_alloc [8] [9; 7] true (zeros 8) ->
   [9] = [9; 7] /\ [7; 8] = [8]).
Proof.
  apply (@slh_msg_encode_separates always_alloc [7; 8] [9] [8] [9; 7] [] (zeros 8)); try reflexivity; by compute.
Defined.

(** The tree and leaf indices are the digest's bits.  From a packet with enough
    bytes, [get_tree_ids] returns the first [(h-h'+7)/8] bytes as a big-endian number
    modulo [2^(h-h')] and the next [(h'+7)/8] bytes modulo [2^h'], also when [h-h'] is
    the whole 64-bit width, and consumes just those bytes. *)
Lemma slh_tree_ids_exact p r tb lb rest :
  params_ok p -> bytes_ok tb -> bytes_ok lb -> zlen tb = (p_h p - p_hm p + 7) / 8 -> zlen lb = (p_hm p + 7) / 8 ->
  pkt_rep r (tb ++ lb ++ rest) ->
  exists r', get_tree_ids r p = Some (be_val tb mod 2 ^ (p_h p - p_hm p), be_val lb mod 2 ^ p_hm p, r') /\
    pkt_rep r' rest.
Proof. intros Hp Htb Hlb Htl Hll Hr. exact (get_tree_ids_ok p r tb lb rest Hp Htb Hlb Htl Hll Hr). Qed.

Lemma slh_tree_ids_exact_witness :
  exists r', get_tree_ids (mkPACKET [255; 255; 255; 255; 255; 255; 255; 254; 255; 17] 0 10)
      (OSSL_SLH_PARAMS_256F "SLH-DSA-SHAKE-256f" 1471 true 0) = Some (18446744073709551614, 15, r') /\ pkt_rep r' [17].
Proof.
  destruct (slh_tree_ids_exact (OSSL_SLH_PARAMS_256F "SLH-DSA-SHAKE-256f" 1471 true 0)
    (mkPACKET [255; 255; 255; 255; 255; 255; 255; 254; 255; 17] 0 10)
    [255; 255; 255; 255; 255; 255; 255; 254] [255] [17]) as (r' & E & Hr).
  - apply params_okb_ok. reflexivity.
  - repeat constructor; unfold is_byte; lia.
  - repeat constructor; unfold is_byte; lia.
  - reflexivity.
  - reflexivity.
  - repeat split; by compute.
  - exists r'. split; [exact E|exact Hr].
Defined.
