(* ===== verification/SlhKey.v ===== *)
(** * SLH-DSA keys

    Model of [crypto/slh_dsa/slh_dsa_key.c], of [slh_dsa_gen] of
    [providers/implementations/keymgmt/slh_dsa_kmgmt.c] and of the [OSSL_PARAM]
    accessors of [crypto/params.c] the key import uses.  The theorems: a generated
    key is a genuine pair that signs and verifies, for every parameter set;
    imported and exported key bytes round trip; error paths leave no usable key
    and no secret seeds behind. *)
From stdpp Require Import relations.
From S2P Require Import Prelude.
From S2P Require Import ByteOrder.
From S2P Require Import Packet.
From S2P Require Import WPacket.
From S2P Require Import WPacketSpec.
From S2P Require Import WPacketOut.
From S2P Require Import SlhAdrs.
From S2P Require Import SlhParams.
From S2P Require Import SlhHash.
From S2P Require Import SlhSpec.
From S2P Require Import SlhWots.
From S2P Require Import SlhXmss.
From S2P Require Import SlhHypertree.
From S2P Require Import SlhFors.
From S2P Require Import SlhDsa.
From S2P Require Import KeyMgmt.

(** Algorithm fetching and the random generators. *)
Class Provider := {
  EVP_MD_fetch : EVP_MD -> option string -> bool;
  EVP_MAC_fetch : option string -> bool;
  RAND_priv_bytes_ex : Z -> option (list Z);
  RAND_bytes_ex : Z -> option (list Z) }.

Definition SLH_DSA_MAX_N : Z := 32.

#[export] Instance SLH_DSA_PARAMS_eq_dec : EqDecision SLH_DSA_PARAMS.
Proof. solve_decision. Defined.

(** Offset of [SLH_DSA_PUB(key)] and of the root in [priv]. *)
Definition pub_off (key : SLH_DSA_KEY) : Z := p_n (k_params key) * 2.
Definition root_off (key : SLH_DSA_KEY) : Z := p_n (k_params key) * 3.
Definition SLH_DSA_PUB (key : SLH_DSA_KEY) : list Z := SLH_DSA_PK_SEED key.

Definition set_keydata (priv : list Z) (pub has_priv : bool) (key : SLH_DSA_KEY) : SLH_DSA_KEY :=
  mkSLH_DSA_KEY priv pub (k_propq key) has_priv (k_params key) (k_adrs_func key) (k_hash_func key)
    (k_md key) (k_md_big key) (k_hmac key).
Definition set_hash (adrs_func : SLH_ADRS_FUNC) (hash_func : bool) (md md_big : option EVP_MD) (hmac : bool)
    (key : SLH_DSA_KEY) : SLH_DSA_KEY :=
  mkSLH_DSA_KEY (k_priv key) (k_pub key) (k_propq key) (k_has_priv key) (k_params key) adrs_func hash_func
    md md_big hmac.

Section Key.
Context `{EV : EVP} `{AL : Allocator} `{PR : Provider}.

Definition slh_dsa_key_hash_init (key : SLH_DSA_KEY) : option SLH_DSA_KEY :=
  let is_shake := p_is_shake (k_params key) in
  let security_category := p_security_category (k_params key) in
  let digest_alg := if is_shake then SHAKE_256 else SHA2_256 in
  if negb (EVP_MD_fetch digest_alg (k_propq key)) then None
  else
    let md := Some digest_alg in
    '(md_big, hmac) ←
      (if negb is_shake then
         md_big ← (if security_category =? 1 then Some md
                   else if EVP_MD_fetch SHA2_512 (k_propq key) then Some (Some SHA2_512) else None);
         if EVP_MAC_fetch (k_propq key) then Some (md_big, true) else None
       else Some (k_md_big key, k_hmac key));
    Some (set_hash (ossl_slh_get_adrs_fn (if is_shake then 0 else 1)) is_shake md md_big hmac key).

(** [zalloc_ok] and [strdup_ok]: the two allocations.  The tables of the zeroed
    object are not read before [slh_dsa_key_hash_init] sets them. *)
Definition ossl_slh_dsa_key_new (zalloc_ok strdup_ok : bool) (propq : option string) (alg : string) :
    option SLH_DSA_KEY :=
  params ← ossl_slh_dsa_params_get alg;
  if negb zalloc_ok then None
  else if (match propq with Some _ => negb strdup_ok | None => false end) then None
  else slh_dsa_key_hash_init
         (mkSLH_DSA_KEY (zeros (4 * SLH_DSA_MAX_N)) false propq false params slh_adrs_methods false None None false).

(** The key bytes when the memory is released: [sizeof(key->priv) >> 1] bytes
    have been cleansed. *)
Definition ossl_slh_dsa_key_free (key : SLH_DSA_KEY) : list Z :=
  splice (k_priv key) 0 (zeros (Z.shiftr (4 * SLH_DSA_MAX_N) 1)).

Definition ossl_slh_dsa_key_dup (zalloc_ok strdup_ok : bool) (src : SLH_DSA_KEY) (selection : Z) :
    option SLH_DSA_KEY :=
  if negb zalloc_ok then None
  else if (match k_propq src with Some _ => negb strdup_ok | None => false end) then None
  else
    let ret := set_keydata (k_priv src) false false src in
    if selected selection OSSL_KEYMGMT_SELECT_KEYPAIR then
      Some (set_keydata (k_priv src) (k_pub src)
              (if selected selection OSSL_KEYMGMT_SELECT_PRIVATE_KEY then k_has_priv src else false) ret)
    else Some ret.

(** The parameter sets are compared by address, that is by table row. *)
Definition ossl_slh_dsa_key_equal (key1 key2 : SLH_DSA_KEY) (selection : Z) : bool :=
  let pk_len := p_pk_len (k_params key1) in
  if negb (bool_decide (k_params key1 = k_params key2)) then false
  else if selected selection OSSL_KEYMGMT_SELECT_KEYPAIR then
    let check_pub := selected selection OSSL_KEYMGMT_SELECT_PUBLIC_KEY && k_pub key1 && k_pub key2 in
    if check_pub && negb (bool_decide (slice (SLH_DSA_PUB key1) 0 pk_len = slice (SLH_DSA_PUB key2) 0 pk_len))
    then false
    else if negb check_pub && selected selection OSSL_KEYMGMT_SELECT_PRIVATE_KEY then
      if k_has_priv key1 && k_has_priv key2
      then bool_decide (slice (k_priv key1) 0 pk_len = slice (k_priv key2) 0 pk_len)
      else false
    else check_pub
  else true.

Definition ossl_slh_dsa_key_has (key : SLH_DSA_KEY) (selection : Z) : bool :=
  if selected selection OSSL_KEYMGMT_SELECT_KEYPAIR then
    if negb (k_pub key) then false
    else if selected selection OSSL_KEYMGMT_SELECT_PRIVATE_KEY && negb (k_has_priv key) then false
    else true
  else false.

(** The address of the root of the top tree. *)
Definition root_adrs (ctx : SLH_DSA_HASH_CTX) : list Z :=
  set_layer_address (adrsf ctx) (adrs_zero (adrsf ctx) uninit_adrs) (p_d (ctx_params ctx) - 1).

(** [ctx->key] and [out] are the same object in every caller: [ctx] is given
    with the current contents of [out] as its key.  Returns [out]. *)
Definition slh_dsa_compute_pk_root (ctx : SLH_DSA_HASH_CTX) (validate : bool) : option SLH_DSA_KEY :=
  let key := h_key ctx in
  let n := p_n (k_params key) in
  '(dst, _) ← ossl_slh_xmss_node ctx (SLH_DSA_SK_SEED key) 0 (Z.to_nat (p_hm (k_params key)))
                (SLH_DSA_PK_SEED key) (root_adrs ctx);
  if validate then
    if bool_decide (slice dst 0 n = slice (SLH_DSA_PK_ROOT key) 0 n) then Some key else None
  else Some (set_keydata (splice (k_priv key) (root_off key) dst) (k_pub key) (k_has_priv key) key).

Definition with_key (key : SLH_DSA_KEY) (ctx : SLH_DSA_HASH_CTX) : SLH_DSA_HASH_CTX :=
  mkSLH_DSA_HASH_CTX key (h_md_ctx ctx) (h_md_big_ctx ctx) (h_hmac_ctx ctx) (h_hmac_digest_used ctx).

Definition ossl_slh_dsa_key_pairwise_check (ctx_alloc_ok : bool) (key : SLH_DSA_KEY) : bool :=
  if negb (k_pub key) || negb (k_has_priv key) then false
  else match ctx ← ossl_slh_dsa_hash_ctx_new ctx_alloc_ok key; slh_dsa_compute_pk_root ctx true with
       | Some _ => true
       | None => false
       end.

Definition ossl_slh_dsa_key_reset (key : SLH_DSA_KEY) : SLH_DSA_KEY :=
  if k_has_priv key then set_keydata (splice (k_priv key) 0 (zeros (4 * SLH_DSA_MAX_N))) false false key
  else set_keydata (k_priv key) false false key.

Definition ossl_slh_dsa_key_get_pub (key : SLH_DSA_KEY) : option (list Z) :=
  if k_pub key then Some (SLH_DSA_PUB key) else None.
Definition ossl_slh_dsa_key_get_pub_len (key : SLH_DSA_KEY) : Z := 2 * p_n (k_params key).
Definition ossl_slh_dsa_key_get_priv (key : SLH_DSA_KEY) : option (list Z) :=
  if k_has_priv key then Some (k_priv key) else None.
Definition ossl_slh_dsa_key_get_priv_len (key : SLH_DSA_KEY) : Z := 4 * p_n (k_params key).
Definition ossl_slh_dsa_key_get_n (key : SLH_DSA_KEY) : Z := p_n (k_params key).
Definition ossl_slh_dsa_key_get_sig_len (key : SLH_DSA_KEY) : Z := p_sig_len (k_params key).
Definition ossl_slh_dsa_key_get_name (key : SLH_DSA_KEY) : string := p_alg (k_params key).
Definition ossl_slh_dsa_key_get_type (key : SLH_DSA_KEY) : Z := p_type (k_params key).

(** [None] where the C function returns 0, which leaves the key unchanged. *)
Definition ossl_slh_dsa_set_priv (key : SLH_DSA_KEY) (priv : list Z) : option SLH_DSA_KEY :=
  if negb (ossl_slh_dsa_key_get_priv_len key =? zlen priv) then None
  else Some (set_keydata (splice (k_priv key) 0 priv) true true key).
Definition ossl_slh_dsa_set_pub (key : SLH_DSA_KEY) (pub : list Z) : option SLH_DSA_KEY :=
  if negb (ossl_slh_dsa_key_get_pub_len key =? zlen pub) then None
  else Some (set_keydata (splice (k_priv key) (pub_off key) pub) true false key).

(** ** Import from parameters *)

Definition OSSL_PARAM_OCTET_STRING : Z := 5.
Record OSSL_PARAM := mkOSSL_PARAM { op_key : string; op_type : Z; op_data : option (list Z) }.
Definition OSSL_PARAM_locate_const (params : list OSSL_PARAM) (key : string) : option OSSL_PARAM :=
  List.find (fun p => String.eqb key (op_key p)) params.
(** The data copied into a buffer of [max_len] bytes; its length is [*used_len]. *)
Definition OSSL_PARAM_get_octet_string (p : OSSL_PARAM) (max_len : Z) : option (list Z) :=
  if negb (op_type p =? OSSL_PARAM_OCTET_STRING) then None
  else data ← op_data p; if max_len <? zlen data then None else Some data.

(** The key as it is left and the return value. *)
Definition fromdata_pub (key : SLH_DSA_KEY) (params : list OSSL_PARAM) (key_len : Z) : SLH_DSA_KEY * bool :=
  match param_pub ← OSSL_PARAM_locate_const params "pub"; OSSL_PARAM_get_octet_string param_pub key_len with
  | Some data =>
      let key := set_keydata (splice (k_priv key) (pub_off key) data) (k_pub key) (k_has_priv key) key in
      if negb (zlen data =? key_len) then (ossl_slh_dsa_key_reset key, false)
      else (set_keydata (k_priv key) true (k_has_priv key) key, true)
  | None => (ossl_slh_dsa_key_reset key, false)
  end.
Definition ossl_slh_dsa_key_fromdata (key : SLH_DSA_KEY) (params : list OSSL_PARAM) (include_private : bool) :
    SLH_DSA_KEY * bool :=
  let priv_len := ossl_slh_dsa_key_get_priv_len key in
  let key_len := Z.shiftr priv_len 1 in
  match (if include_private then OSSL_PARAM_locate_const params "priv" else None) with
  | None => fromdata_pub key params key_len
  | Some param_priv =>
      match OSSL_PARAM_get_octet_string param_priv priv_len with
      | None => (key, false)
      | Some data =>
          let priv := splice (k_priv key) 0 data in
          if zlen data =? priv_len then (set_keydata priv true true key, true)
          else if negb (zlen data =? key_len) then
            (ossl_slh_dsa_key_reset (set_keydata priv (k_pub key) (k_has_priv key) key), false)
          else fromdata_pub (set_keydata priv (k_pub key) true key) params key_len
      end
  end.

(** ** Key generation *)

(** [out] as it is left and the return value; [ctx->key] is [out].  The label
    [err], the part after the seeds are in place, and the DRBG branch. *)
Definition generate_err (out : SLH_DSA_KEY) : SLH_DSA_KEY * bool :=
  (set_keydata (splice (k_priv out) 0 (zeros (2 * p_n (k_params out)))) false false out, false).
Definition generate_finish (ctx : SLH_DSA_HASH_CTX) (out : SLH_DSA_KEY) : SLH_DSA_KEY * bool :=
  match slh_dsa_compute_pk_root (with_key out ctx) false with
  | None => generate_err out
  | Some out => (set_keydata (k_priv out) true true out, true)
  end.
Definition set_priv_bytes (off : Z) (d : list Z) (out : SLH_DSA_KEY) : SLH_DSA_KEY :=
  set_keydata (splice (k_priv out) off d) (k_pub out) (k_has_priv out) out.
Definition generate_random (ctx : SLH_DSA_HASH_CTX) : SLH_DSA_KEY * bool :=
  let out := h_key ctx in
  let n := p_n (k_params out) in
  match RAND_priv_bytes_ex (2 * n) with
  | None => generate_err out
  | Some sk =>
      let out := set_priv_bytes 0 sk out in
      match RAND_bytes_ex n with
      | None => generate_err out
      | Some pk => generate_finish ctx (set_priv_bytes (pub_off out) pk out)
      end
  end.
Definition ossl_slh_dsa_generate_key (ctx : SLH_DSA_HASH_CTX) (entropy : option (list Z)) :
    SLH_DSA_KEY * bool :=
  let out := h_key ctx in
  let n := p_n (k_params out) in
  let secret_key_len := 2 * n in
  let pk_seed_len := n in
  let entropy_len_expected := secret_key_len + pk_seed_len in
  match entropy with
  | Some e =>
      if zlen e =? 0 then generate_random ctx
      else if negb (zlen e =? entropy_len_expected) then generate_err out
      else generate_finish ctx (set_priv_bytes 0 e out)
  | None => generate_random ctx
  end.

(** [slh_dsa_gen] of the key manager; on failure the key is freed.  [running] is
    [ossl_prov_is_running()]; the pairwise test under [FIPS_MODULE] is not compiled into
    the default provider. *)
Definition slh_dsa_gen (running alloc_ok : bool) (propq : option string) (entropy : option (list Z)) (alg : string) :
    option SLH_DSA_KEY :=
  if negb running then None else
  key ← ossl_slh_dsa_key_new alloc_ok alloc_ok propq alg;
  ctx ← ossl_slh_dsa_hash_ctx_new alloc_ok key;
  match ossl_slh_dsa_generate_key ctx entropy with
  | (key, true) => Some key
  | (_, false) => None
  end.
End Key.

(** ** The invariant of key objects *)

(** What [ossl_slh_dsa_key_new] establishes and every operation preserves. *)
Definition key_wf (key : SLH_DSA_KEY) : Prop :=
  params_ok (k_params key) /\ nbytes 128 (k_priv key) /\
  if p_is_shake (k_params key) then
    k_hash_func key = true /\ k_md key = Some SHAKE_256 /\ k_md_big key = None /\ k_adrs_func key = slh_adrs_methods
  else
    k_hash_func key = false /\ k_md key = Some SHA2_256 /\ k_md_big key = Some (md_big_of (k_params key)) /\
    k_adrs_func key = slh_adrsc_methods /\ k_hmac key = true.

Lemma splice_nbytes N b off d :
  nbytes N b -> bytes_ok d -> 0 <= off -> off + zlen d <= N -> nbytes N (splice b off d).
Proof.
  intros [Hz Hb] Hd Ho Hl. split; [rewrite splice_zlen; lia|].
  unfold splice. apply Forall_app; split; [by apply Forall_take|]. apply Forall_app; split; [done|by apply Forall_drop].
Qed.

Lemma set_keydata_wf priv pub has key : key_wf key -> nbytes 128 priv -> key_wf (set_keydata priv pub has key).
Proof. intros (Hp & _ & Hh) Hb. done. Qed.

Lemma key_wf_n key : key_wf key -> p_n (k_params key) = 16 \/ p_n (k_params key) = 24 \/ p_n (k_params key) = 32.
Proof. by intros ((Hn & _) & _). Qed.

Lemma hash_ctx_new_wf key :
  key_wf key -> exists ctx, ossl_slh_dsa_hash_ctx_new true key = Some ctx /\ h_key ctx = key /\ ctx_wf ctx.
Proof.
  intros (Hp & _ & Hh). unfold ossl_slh_dsa_hash_ctx_new, ctx_wf, ctx_params, adrsf. cbn [negb].
  destruct (p_is_shake (k_params key)) eqn:Es.
  - destruct Hh as (Hf & -> & -> & Ha). eexists; split; [done|]. split; [done|]. cbn. rewrite Es. done.
  - destruct Hh as (Hf & -> & Hb & Ha & Hm). rewrite Hb, Hm. eexists; split; [done|]. split; [done|]. cbn. rewrite Es.
    split_and!; try done. by exists None.
Qed.

Section Ops.
Context `{EV : EVP} `{AL : Allocator} `{PR : Provider}.

Lemma key_new_wf za sa propq alg key :
  ossl_slh_dsa_key_new za sa propq alg = Some key ->
  key_wf key /\ ossl_slh_dsa_params_get alg = Some (k_params key) /\ k_pub key = false /\ k_has_priv key = false.
Proof.
  unfold ossl_slh_dsa_key_new. destruct (ossl_slh_dsa_params_get alg) as [p|] eqn:Ep; cbn [mbind option_bind]; [|done].
  destruct za; [|done]. cbn [negb]. destruct (match propq with Some _ => negb sa | None => false end); [done|].
  unfold slh_dsa_key_hash_init. cbn [k_params k_propq k_md_big k_hmac].
  destruct (params_get_ok alg p Ep) as [Hp _].
  assert (nbytes 128 (zeros (4 * SLH_DSA_MAX_N))) as Hz by (split; [by apply zlen_zeros|apply zeros_ok]).
  destruct (EVP_MD_fetch _ _); [|done]. cbn [negb].
  destruct (p_is_shake p) eqn:Es; cbn [negb mbind option_bind].
  - intros [= <-]. unfold key_wf, set_hash. cbn. rewrite Es. done.
  - destruct (p_security_category p =? 1) eqn:Ec; cbn [mbind option_bind].
    + destruct (EVP_MAC_fetch propq); [|done]. intros [= <-]. unfold key_wf, set_hash, md_big_of. cbn. rewrite Es, Ec. done.
    + destruct (EVP_MD_fetch SHA2_512 propq); [|done]. cbn [mbind option_bind].
      destruct (EVP_MAC_fetch propq); [|done]. intros [= <-]. unfold key_wf, set_hash, md_big_of. cbn. rewrite Es, Ec. done.
Qed.

Lemma key_new_ok propq alg p :
  ossl_slh_dsa_params_get alg = Some p -> (forall md, EVP_MD_fetch md propq = true) -> EVP_MAC_fetch propq = true ->
  exists key, ossl_slh_dsa_key_new true true propq alg = Some key.
Proof.
  intros Hp Hmd Hmac. unfold ossl_slh_dsa_key_new, slh_dsa_key_hash_init. rewrite Hp. cbn [mbind option_bind negb].
  destruct propq as [q|]; cbn [k_propq k_params]; rewrite !Hmd, Hmac; cbn [negb];
    destruct (p_is_shake p); cbn [negb mbind option_bind]; try (by eexists);
    destruct (p_security_category p =? 1); cbn [mbind option_bind]; by eexists.
Qed.

Lemma set_priv_wf key priv key' :
  key_wf key -> bytes_ok priv -> ossl_slh_dsa_set_priv key priv = Some key' -> key_wf key'.
Proof.
  intros Hk Hb. pose proof (key_wf_n _ Hk). unfold ossl_slh_dsa_set_priv, ossl_slh_dsa_key_get_priv_len.
  destruct (Z.eqb_spec (4 * p_n (k_params key)) (zlen priv)); [|done]. intros [= <-]. apply set_keydata_wf; [done|].
  apply splice_nbytes; [apply Hk|done|lia|lia].
Qed.
Lemma set_pub_wf key pub key' :
  key_wf key -> bytes_ok pub -> ossl_slh_dsa_set_pub key pub = Some key' -> key_wf key'.
Proof.
  intros Hk Hb. pose proof (key_wf_n _ Hk). unfold ossl_slh_dsa_set_pub, ossl_slh_dsa_key_get_pub_len, pub_off.
  destruct (Z.eqb_spec (2 * p_n (k_params key)) (zlen pub)); [|done]. intros [= <-]. apply set_keydata_wf; [done|].
  apply splice_nbytes; [apply Hk|done|lia|lia].
Qed.
Lemma reset_wf key : key_wf key -> key_wf (ossl_slh_dsa_key_reset key).
Proof.
  intros Hk. unfold ossl_slh_dsa_key_reset. destruct (k_has_priv key); apply set_keydata_wf; try done; [|apply Hk].
  apply splice_nbytes; [apply Hk|apply zeros_ok|lia|]. by rewrite zlen_zeros.
Qed.
Lemma dup_wf za sa key sel key' :
  key_wf key -> ossl_slh_dsa_key_dup za sa key sel = Some key' -> key_wf key'.
Proof.
  intros Hk. unfold ossl_slh_dsa_key_dup. destruct za; [|done]. cbn [negb].
  destruct (match k_propq key with Some _ => negb sa | None => false end); [done|].
  destruct (selected sel _); intros [= <-]; repeat apply set_keydata_wf; try done; apply Hk.
Qed.

(** Parameters whose octet strings are bytes. *)
Definition params_bytes (params : list OSSL_PARAM) : Prop :=
  Forall (fun p => forall d, op_data p = Some d -> bytes_ok d) params.
Lemma get_octet_bytes params name p max d :
  params_bytes params -> OSSL_PARAM_locate_const params name = Some p ->
  OSSL_PARAM_get_octet_string p max = Some d -> bytes_ok d /\ zlen d <= max.
Proof.
  intros Hb Hl. unfold OSSL_PARAM_get_octet_string. apply List.find_some in Hl as [Hin _].
  destruct (op_type p =? _); [|done]. cbn [negb]. destruct (op_data p) as [x|] eqn:Ed; [|done]. cbn [mbind option_bind].
  destruct (Z.ltb_spec max (zlen x)); [done|]. intros [= <-]. split; [|lia].
  unfold params_bytes in Hb. rewrite Forall_forall in Hb. apply (Hb p); [by apply list_elem_of_In|done].
Qed.
Lemma fromdata_pub_wf key params klen :
  key_wf key -> params_bytes params -> klen = 2 * p_n (k_params key) -> key_wf (fromdata_pub key params klen).1.
Proof.
  intros Hk Hb ->. pose proof (key_wf_n _ Hk). unfold fromdata_pub.
  destruct (OSSL_PARAM_locate_const params "pub") as [p|] eqn:El; cbn [mbind option_bind]; [|by apply reset_wf].
  destruct (OSSL_PARAM_get_octet_string p _) as [d|] eqn:Ed; [|by apply reset_wf].
  destruct (get_octet_bytes _ _ _ _ _ Hb El Ed) as [Hd Hz].
  assert (nbytes 128 (splice (k_priv key) (pub_off key) d)) as Hs
    by (apply splice_nbytes; [apply Hk|done|unfold pub_off; lia|unfold pub_off; lia]).
  destruct (zlen d =? _); cbn [negb fst]; [|apply reset_wf]; repeat apply set_keydata_wf; done.
Qed.
Lemma fromdata_wf key params inc :
  key_wf key -> params_bytes params -> key_wf (ossl_slh_dsa_key_fromdata key params inc).1.
Proof.
  intros Hk Hb. pose proof (key_wf_n _ Hk). unfold ossl_slh_dsa_key_fromdata, ossl_slh_dsa_key_get_priv_len. cbv zeta.
  assert (Z.shiftr (4 * p_n (k_params key)) 1 = 2 * p_n (k_params key)) as ->
    by (rewrite Z.shiftr_div_pow2 by lia; change (2 ^ 1) with 2; dlia).
  destruct (if inc then OSSL_PARAM_locate_const params "priv" else None) as [p|] eqn:El; [|by apply fromdata_pub_wf].
  destruct inc; [|done]. destruct (OSSL_PARAM_get_octet_string p _) as [d|] eqn:Ed; [|done].
  destruct (get_octet_bytes _ _ _ _ _ Hb El Ed) as [Hd Hz].
  assert (nbytes 128 (splice (k_priv key) 0 d)) as Hs by (apply splice_nbytes; [apply Hk|done|lia|lia]).
  destruct (zlen d =? 4 * _); [by apply set_keydata_wf|].
  destruct (zlen d =? 2 * _); cbn [negb fst]; [apply fromdata_pub_wf|apply reset_wf]; try done; by apply set_keydata_wf.
Qed.
End Ops.

(** ** Generated keys *)

Section Generate.
Context `{EV : EVP} `{AL : Allocator} `{PR : Provider} `{EL : !EVPLaws}.
Context (Halloc : forall n s, malloc_ok n s = true).

(** The hash functions depend on the seeds only through their [n] bytes. *)
Lemma ctx_S_seeds ctx ctx' :
  ctx_params ctx = ctx_params ctx' -> k_hash_func (h_key ctx) = k_hash_func (h_key ctx') ->
  h_md_ctx ctx = h_md_ctx ctx' -> h_md_big_ctx ctx = h_md_big_ctx ctx' ->
  slice (SLH_DSA_PK_SEED (h_key ctx)) 0 (ctx_n ctx) = slice (SLH_DSA_PK_SEED (h_key ctx')) 0 (ctx_n ctx) ->
  slice (SLH_DSA_SK_SEED (h_key ctx)) 0 (ctx_n ctx) = slice (SLH_DSA_SK_SEED (h_key ctx')) 0 (ctx_n ctx) ->
  ctx_S ctx = ctx_S ctx'.
Proof.
  intros Hp Hf Hm Hb Hpk Hsk. assert (ctx_n ctx = ctx_n ctx') as Hn by (unfold ctx_n; by rewrite Hp).
  unfold ctx_S, ctx_sem, hashf, hash_func, ctx_enc. rewrite Hf.
  destruct (k_hash_func (h_key ctx')); unfold ossl_slh_get_hash_fn; cbn [hf_F hf_H hf_T hf_PRF];
    unfold slh_f_shake, slh_h_shake, slh_t_shake, slh_prf_shake, slh_f_sha2, slh_h_sha2, slh_t_sha2, slh_prf_sha2,
      do_hash, digest_4, xof_digest_3, xof_digest_4;
    by rewrite ?Hpk, ?Hsk, ?Hm, ?Hb, ?Hp, <- ?Hn, ?Hpk, ?Hsk.
Qed.

Lemma root_node_ok ctx :
  ctx_wf ctx -> exists a', ossl_slh_xmss_node ctx (SLH_DSA_SK_SEED (h_key ctx)) 0 (Z.to_nat (p_hm (ctx_params ctx)))
      (SLH_DSA_PK_SEED (h_key ctx)) (root_adrs ctx) = Some (slh_pk_root (ctx_S ctx) (ctx_params ctx), a') /\
    nbytes (ctx_n ctx) (slh_pk_root (ctx_S ctx) (ctx_params ctx)).
Proof.
  intros Hwf. pose proof (proj1 Hwf) as Hp. pose proof Hp as (Hn & Hd & Hhm & _). fold (ctx_n ctx) in Hn.
  assert (AdrsLaws (adrsf ctx) (ctx_enc ctx) (ctx_rep ctx)) as HA by (by apply ctx_adrs_laws).
  assert (SemLaws (ctx_n ctx) (ctx_S ctx)) as HS by (by apply ctx_sem_laws).
  assert (HashLaws ctx (ctx_rep ctx) (SLH_DSA_PK_SEED (h_key ctx)) (ctx_S ctx)) as HH by (by apply ctx_hash_laws).
  assert (PrfLaws ctx (ctx_rep ctx) (SLH_DSA_PK_SEED (h_key ctx)) (SLH_DSA_SK_SEED (h_key ctx)) (ctx_S ctx)) as HP
    by (by apply ctx_prf_laws).
  assert (ctx_rep ctx (root_adrs ctx) (with_layer (p_d (ctx_params ctx) - 1) adrs0)) as Hr.
  { apply rep_layer; [by apply rep_zero|lia]. }
  destruct (xmss_node_refines Halloc ctx ltac:(lia) (ctx_enc ctx) (ctx_rep ctx) (ctx_S ctx) (SLH_DSA_PK_SEED (h_key ctx))
    (SLH_DSA_SK_SEED (h_key ctx)) (Z.to_nat (p_hm (ctx_params ctx))) 0 (ht_adrs (p_d (ctx_params ctx) - 1) 0) _ _ Hr)
    as (a' & u' & E & _); [done|lia| |lia|].
  { rewrite Z2Nat.id by lia. assert (2 ^ p_hm (ctx_params ctx) <= 2 ^ 9) by (apply Z.pow_le_mono_r; lia).
    change (2 ^ 9) with 512 in *. lia. }
  exists a'. split; [exact E|]. apply node_nbytes; [exact HS|]. intros j. by apply sT_n.
Qed.

(** A key whose root is the root of the hypertree its seeds define. *)
Definition genuine (key : SLH_DSA_KEY) : Prop :=
  forall ctx, ossl_slh_dsa_hash_ctx_new true key = Some ctx ->
    slice (SLH_DSA_PK_ROOT key) 0 (p_n (k_params key)) = slh_pk_root (ctx_S ctx) (k_params key).

Lemma pairwise_check_iff key :
  key_wf key -> ossl_slh_dsa_key_pairwise_check true key = true <->
    k_pub key = true /\ k_has_priv key = true /\ genuine key.
Proof.
  intros Hk. unfold ossl_slh_dsa_key_pairwise_check. destruct (hash_ctx_new_wf key Hk) as (ctx & Ec & Ek & Hwf).
  destruct (k_pub key), (k_has_priv key); cbn [negb orb]; try (split; [done|by intros (? & ? & _)]).
  rewrite Ec. cbn [mbind option_bind]. unfold slh_dsa_compute_pk_root.
  destruct (root_node_ok ctx Hwf) as (a' & E & Hb). change (k_params (h_key ctx)) with (ctx_params ctx). rewrite E.
  cbn [mbind option_bind]. rewrite slice_whole by apply Hb. unfold genuine, ctx_params in *. rewrite Ek in *.
  case_bool_decide as Heq; split; try done.
  - intros _. split_and!; try done. intros ctx' Hc'. rewrite Ec in Hc'. by injection Hc' as <-.
  - intros (_ & _ & Hg). by specialize (Hg ctx Ec).
Qed.

(** The end of key generation: seeds are in place. *)
Lemma finish_genuine ctx :
  key_wf (h_key ctx) -> ossl_slh_dsa_hash_ctx_new true (h_key ctx) = Some ctx ->
  exists key', slh_dsa_compute_pk_root ctx false = Some key' /\
    let key'' := set_keydata (k_priv key') true true key' in
    key_wf key'' /\ genuine key'' /\ k_params key'' = ctx_params ctx /\
    slice (k_priv key'') 0 (3 * ctx_n ctx) = slice (k_priv (h_key ctx)) 0 (3 * ctx_n ctx).
Proof.
  intros Hk Ec. destruct (hash_ctx_new_wf _ Hk) as (ctx1 & Ec1 & _ & Hwf). rewrite Ec in Ec1. injection Ec1 as <-.
  pose proof (key_wf_n _ Hk) as Hn. unfold slh_dsa_compute_pk_root.
  destruct (root_node_ok ctx Hwf) as (a' & E & [Hrz Hrb]). change (k_params (h_key ctx)) with (ctx_params ctx). rewrite E.
  cbn [mbind option_bind]. eexists; split; [done|]. set (root := slh_pk_root _ _) in *.
  pose proof Hk as (_ & Hkb & _). unfold ctx_n, ctx_params, root_off in *.
  set (n := p_n (k_params (h_key ctx))) in *. destruct Hkb as [Hz Hb].
  assert (nbytes 128 (splice (k_priv (h_key ctx)) (n * 3) root)) as Hs by (apply splice_nbytes; [done|done|lia|lia]).
  cbv zeta. cbn [k_priv set_keydata]. split_and!; [by repeat apply set_keydata_wf| |done|].
  - intros ctx' Hc'. cbn [k_params set_keydata]. fold n.
    assert (slice (SLH_DSA_PK_ROOT (set_keydata (splice (k_priv (h_key ctx)) (n * 3) root) true true
      (set_keydata (splice (k_priv (h_key ctx)) (n * 3) root) (k_pub (h_key ctx)) (k_has_priv (h_key ctx)) (h_key ctx)))) 0 n = root) as ->.
    { change (slice (splice (k_priv (h_key ctx)) (n * 3) root) (n * 3) n = root). rewrite <- Hrz.
      apply slice_splice_same; [lia|]. lia. }
    unfold root, ctx_params. f_equal.
    unfold ossl_slh_dsa_hash_ctx_new in Ec, Hc'. cbn [negb k_md k_md_big k_hmac set_keydata] in Ec, Hc'.
    destruct (k_md (h_key ctx)) as [md|] eqn:Emd; [|done]. cbn [mbind option_bind] in Ec, Hc'.
    assert (h_key ctx' = set_keydata (splice (k_priv (h_key ctx)) (n * 3) root) true true
      (set_keydata (splice (k_priv (h_key ctx)) (n * 3) root) (k_pub (h_key ctx)) (k_has_priv (h_key ctx)) (h_key ctx)) /\
      h_md_ctx ctx' = h_md_ctx ctx /\ h_md_big_ctx ctx' = h_md_big_ctx ctx) as (Hk' & Hm' & Hb').
    { destruct (k_md_big (h_key ctx)); injection Ec as Ec; injection Hc' as Hc'; rewrite <- Ec, <- Hc'; done. }
    symmetry. apply ctx_S_seeds; unfold ctx_params, ctx_n, ctx_params; rewrite ?Hk'; try done.
    + change (slice (splice (k_priv (h_key ctx)) (n * 3) root) (n * 2) n = slice (k_priv (h_key ctx)) (n * 2) n).
      apply slice_splice_before; lia.
    + change (slice (splice (k_priv (h_key ctx)) (n * 3) root) 0 n = slice (k_priv (h_key ctx)) 0 n).
      apply slice_splice_before; lia.
  - apply slice_splice_before; lia.
Qed.

Lemma hash_ctx_with_key key ctx a b c :
  ossl_slh_dsa_hash_ctx_new true key = Some ctx ->
  ossl_slh_dsa_hash_ctx_new true (set_keydata a b c key) = Some (with_key (set_keydata a b c key) ctx).
Proof.
  unfold ossl_slh_dsa_hash_ctx_new. cbn [negb k_md k_md_big k_hmac set_keydata].
  destruct (k_md key); [|done]. cbn [mbind option_bind]. destruct (k_md_big key); by intros [= <-].
Qed.

(** Two ways to the same end: the caller's entropy, or the DRBG's. *)
Definition generated (ctx : SLH_DSA_HASH_CTX) (key' : SLH_DSA_KEY) (seeds : list Z) : Prop :=
  key_wf key' /\ genuine key' /\ k_pub key' = true /\ k_has_priv key' = true /\
  k_params key' = ctx_params ctx /\ slice (k_priv key') 0 (3 * ctx_n ctx) = seeds.

Lemma generate_finish_ok ctx out a b c :
  key_wf out -> ossl_slh_dsa_hash_ctx_new true (h_key ctx) = Some ctx -> out = set_keydata a b c (h_key ctx) ->
  exists key', generate_finish ctx out = (key', true) /\ generated ctx key' (slice (k_priv out) 0 (3 * ctx_n ctx)).
Proof.
  intros Hko Ec ->. unfold generate_finish.
  destruct (finish_genuine (with_key (set_keydata a b c (h_key ctx)) ctx)) as (key' & -> & Hw & Hg & Hpar & Hs);
    [done|by apply hash_ctx_with_key|]. cbv zeta in *. eexists; split; [done|]. by split_and!.
Qed.

Lemma generate_ok ctx e :
  key_wf (h_key ctx) -> ossl_slh_dsa_hash_ctx_new true (h_key ctx) = Some ctx -> nbytes (3 * ctx_n ctx) e ->
  exists key', ossl_slh_dsa_generate_key ctx (Some e) = (key', true) /\ generated ctx key' e.
Proof.
  intros Hk Ec [Hez Heb]. pose proof (key_wf_n _ Hk) as Hn. change (p_n (k_params (h_key ctx))) with (ctx_n ctx) in Hn.
  unfold ossl_slh_dsa_generate_key. cbv zeta. change (p_n (k_params (h_key ctx))) with (ctx_n ctx).
  destruct (Z.eqb_spec (zlen e) 0); [lia|]. destruct (Z.eqb_spec (zlen e) (2 * ctx_n ctx + ctx_n ctx)); [|lia]. cbn [negb].
  destruct (generate_finish_ok ctx (set_priv_bytes 0 e (h_key ctx)) (splice (k_priv (h_key ctx)) 0 e)
    (k_pub (h_key ctx)) (k_has_priv (h_key ctx))) as (key' & E & Hg); [|done|done|].
  { apply set_keydata_wf; [done|]. apply splice_nbytes; [apply Hk|done|lia|lia]. }
  exists key'. split; [done|]. cbn [set_priv_bytes k_priv set_keydata] in Hg.
  rewrite <- Hez, slice_splice_same in Hg; [|lia|destruct Hk as (_ & [Hz _] & _); lia]. done.
Qed.

Lemma generate_random_ok ctx sk pk :
  key_wf (h_key ctx) -> ossl_slh_dsa_hash_ctx_new true (h_key ctx) = Some ctx ->
  RAND_priv_bytes_ex (2 * ctx_n ctx) = Some sk -> RAND_bytes_ex (ctx_n ctx) = Some pk ->
  nbytes (2 * ctx_n ctx) sk -> nbytes (ctx_n ctx) pk ->
  exists key', ossl_slh_dsa_generate_key ctx None = (key', true) /\ generated ctx key' (sk ++ pk).
Proof.
  intros Hk Ec Es Ep [Hsz Hsb] [Hpz Hpb]. pose proof (key_wf_n _ Hk) as Hn.
  change (p_n (k_params (h_key ctx))) with (ctx_n ctx) in Hn. pose proof Hk as (_ & Hkb & _).
  unfold ossl_slh_dsa_generate_key, generate_random. cbv zeta. change (p_n (k_params (h_key ctx))) with (ctx_n ctx).
  rewrite Es, Ep. cbn [set_priv_bytes k_priv k_pub k_has_priv set_keydata].
  unfold pub_off. cbn [k_params set_keydata]. change (p_n (k_params (h_key ctx))) with (ctx_n ctx).
  assert (nbytes 128 (splice (k_priv (h_key ctx)) 0 sk)) as Hs1 by (apply splice_nbytes; [done|done|lia|lia]).
  set (priv := splice (splice (k_priv (h_key ctx)) 0 sk) (ctx_n ctx * 2) pk).
  assert (nbytes 128 priv) as Hs2 by (apply splice_nbytes; [done|done|lia|lia]).
  destruct (generate_finish_ok ctx (set_keydata priv (k_pub (h_key ctx)) (k_has_priv (h_key ctx)) (h_key ctx)) priv
    (k_pub (h_key ctx)) (k_has_priv (h_key ctx))) as (key' & E & Hg); [by apply set_keydata_wf|done|done|].
  exists key'. split; [exact E|]. cbn [k_priv set_keydata] in Hg.
  assert (slice priv 0 (3 * ctx_n ctx) = sk ++ pk) as Hsl; [|by rewrite <- Hsl].
  destruct Hkb as [Hz _]. destruct Hs1 as [Hz1 _].
  replace (3 * ctx_n ctx) with (ctx_n ctx * 2 + zlen pk) by lia. unfold slice. cbn [Z.to_nat drop]. rewrite drop_0.
  unfold priv. rewrite take_splice_end by lia. f_equal.
  replace (ctx_n ctx * 2) with (0 + zlen sk) by lia. rewrite take_splice_end by lia. done.
Qed.
End Generate.

(** The random generators return as many bytes as they are asked for. *)
Class RandLaws `{Provider} : Prop := {
  rand_priv_len n d : RAND_priv_bytes_ex n = Some d -> nbytes n d;
  rand_len n d : RAND_bytes_ex n = Some d -> nbytes n d }.

Section Failures.
Context `{EV : EVP} `{AL : Allocator} `{PR : Provider} `{RN : !RandLaws}.

(** A key object after a failed operation: nothing usable, no secret seeds. *)
Definition wiped (key : SLH_DSA_KEY) : Prop :=
  k_pub key = false /\ k_has_priv key = false /\
  slice (k_priv key) 0 (2 * p_n (k_params key)) = zeros (2 * p_n (k_params key)).

Lemma wipe_ok key n :
  n = p_n (k_params key) -> 16 <= n <= 32 -> zlen (k_priv key) = 128 ->
  wiped (set_keydata (splice (k_priv key) 0 (zeros (2 * n))) false false key).
Proof.
  intros -> Hn Hz. split_and!; try done. cbn [k_priv k_params set_keydata].
  pose proof (slice_splice_same (k_priv key) 0 (zeros (2 * p_n (k_params key)))) as Hs.
  rewrite !zlen_zeros in Hs by lia. apply Hs; lia.
Qed.

Lemma generate_err_wiped key :
  key_wf key -> wiped (generate_err key).1.
Proof.
  intros Hk. pose proof (key_wf_n _ Hk). destruct Hk as (_ & [Hz _] & _). apply wipe_ok; [done|lia|done].
Qed.
Lemma set_priv_bytes_wf off d key :
  key_wf key -> bytes_ok d -> 0 <= off -> off + zlen d <= 128 -> key_wf (set_priv_bytes off d key).
Proof. intros Hk Hd Ho Hl. apply set_keydata_wf; [done|]. apply splice_nbytes; [apply Hk|done|lia|lia]. Qed.
Lemma generate_finish_fail ctx out key' :
  key_wf out -> generate_finish ctx out = (key', false) -> wiped key'.
Proof.
  intros Hk. unfold generate_finish. destruct (slh_dsa_compute_pk_root _ false); [done|].
  intros E. pose proof (generate_err_wiped out Hk) as Hw. by rewrite E in Hw.
Qed.

Lemma generate_fail ctx e key' :
  key_wf (h_key ctx) -> (forall x, e = Some x -> bytes_ok x) ->
  ossl_slh_dsa_generate_key ctx e = (key', false) -> wiped key'.
Proof.
  intros Hk He. pose proof (key_wf_n _ Hk) as Hn. unfold ossl_slh_dsa_generate_key. cbv zeta.
  assert (forall out k', key_wf out -> generate_err out = (k', false) -> wiped k') as Herr.
  { intros out k' Ho E. pose proof (generate_err_wiped out Ho) as Hw. by rewrite E in Hw. }
  assert (generate_random ctx = (key', false) -> wiped key') as Hrand.
  { unfold generate_random. destruct (RAND_priv_bytes_ex _) as [sk|] eqn:E1; [|by apply Herr].
    apply rand_priv_len in E1 as [Hs Hsb]. cbv zeta.
    assert (key_wf (set_priv_bytes 0 sk (h_key ctx))) as Hk1 by (apply set_priv_bytes_wf; (done || lia)).
    destruct (RAND_bytes_ex _) as [pk|] eqn:E2; [|by apply Herr]. apply rand_len in E2 as [Hp Hpb].
    apply generate_finish_fail. apply set_priv_bytes_wf; [done|done|unfold pub_off; cbn; lia|unfold pub_off; cbn; lia]. }
  destruct e as [e|]; [|done]. destruct (Z.eqb_spec (zlen e) 0); [done|].
  destruct (Z.eqb_spec (zlen e) (2 * p_n (k_params (h_key ctx)) + p_n (k_params (h_key ctx)))); cbn [negb]; [|by apply Herr].
  apply generate_finish_fail. apply set_priv_bytes_wf; [done|by apply He|lia|lia].
Qed.
End Failures.

(** ** Generated keys sign and verify *)

Section SignVerify.
Context `{EV : EVP} `{AL : Allocator} `{PR : Provider} `{EL : !EVPLaws}.
Context (Halloc : forall n s, malloc_ok n s = true).

(** The two keys hold the same [2n] public bytes. *)
Definition same_pub (key vkey : SLH_DSA_KEY) : Prop :=
  k_params vkey = k_params key /\
  slice (SLH_DSA_PUB vkey) 0 (2 * p_n (k_params key)) = slice (SLH_DSA_PUB key) 0 (2 * p_n (k_params key)).

Lemma same_pub_agree key vkey ctx vctx :
  key_wf key -> h_key ctx = key -> h_key vctx = vkey -> same_pub key vkey -> pub_agree ctx vctx.
Proof.
  intros Hk <- <- [Hp Hs]. pose proof (key_wf_n _ Hk) as Hn. unfold pub_agree, ctx_params, ctx_n, ctx_params.
  set (n := p_n (k_params (h_key ctx))) in *.
  assert (forall key, p_n (k_params key) = n -> slice (SLH_DSA_PK_SEED key) 0 n = take (Z.to_nat n) (slice (SLH_DSA_PUB key) 0 (2 * n)) /\
    slice (SLH_DSA_PK_ROOT key) 0 n = drop (Z.to_nat n) (slice (SLH_DSA_PUB key) 0 (2 * n))) as Hcut.
  { intros key Ek. rewrite slice_take, slice_drop by lia. split; [done|].
    unfold SLH_DSA_PK_ROOT, SLH_DSA_PUB, SLH_DSA_PK_SEED, from, slice. rewrite Ek, !drop_drop.
    f_equal; [lia|]. f_equal. lia. }
  destruct (Hcut (h_key ctx) eq_refl) as [-> ->]. destruct (Hcut (h_key vctx)) as [-> ->]; [unfold n; by rewrite Hp|].
  by rewrite Hs.
Qed.

(** Messages that can be encoded. *)
Definition encodable (encode : bool) (msg cx : list Z) : Prop :=
  encode = true -> zlen cx <= 255 /\ 2 + zlen cx + zlen msg <= SIZE_MAX.
Lemma encodable_ok encode msg cx tmp : encodable encode msg cx -> exists m, msg_encode msg cx encode tmp = Some m.
Proof.
  intros He. destruct encode; [|by eexists]. destruct (He eq_refl). eexists. by apply msg_encode_pure.
Qed.

Lemma dsa_sign_verify key ctx msg cx add_rand encode sigbuf :
  key_wf key -> genuine key -> k_has_priv key = true -> ossl_slh_dsa_hash_ctx_new true key = Some ctx ->
  encodable encode msg cx -> p_sig_len (k_params key) <= zlen sigbuf ->
  exists ctx' sig, ossl_slh_dsa_sign ctx msg cx add_rand encode (Some sigbuf) (zlen sigbuf) =
      (ctx', Some (p_sig_len (k_params key), Some sig)) /\ zlen sig = zlen sigbuf /\ h_key ctx' = key /\ ctx_wf ctx' /\
    forall vkey vctx, key_wf vkey -> h_key vctx = vkey -> ctx_wf vctx -> same_pub key vkey -> k_pub vkey = true ->
      ossl_slh_dsa_verify vctx msg cx encode (slice sig 0 (p_sig_len (k_params key))) (p_sig_len (k_params key)) = true.
Proof.
  intros Hk Hg Hpriv Ec He Hsz. destruct (hash_ctx_new_wf _ Hk) as (ctx1 & Ec1 & Ek & Hwf). rewrite Ec in Ec1.
  injection Ec1 as <-. destruct (encodable_ok encode msg cx (zeros 1024) He) as (m & Em).
  assert (ctx_params ctx = k_params key) as Hpar by (unfold ctx_params; by rewrite Ek).
  destruct (sign_internal_ok Halloc ctx m sigbuf (zlen sigbuf) add_rand Hwf) as (mac & used & Hwf' & Es);
    [by rewrite Ek|rewrite Hpar; lia|]. cbv zeta in Es. rewrite Hpar in Es.
  set (r := msg_rand ctx add_rand m) in *. set (elems := slh_elems _ _ _) in Es.
  assert (zlen (r ++ concat elems) = p_sig_len (k_params key)) as Hz.
  { assert (SemLaws (p_n (k_params key)) (ctx_S ctx)) as HS by (rewrite <- Hpar; by apply ctx_sem_laws).
    destruct (msg_digest_ok ctx r m Hwf) as [_ Hmb]. rewrite Hpar in Hmb. pose proof (proj1 Hk) as Hp.
    rewrite zlen_app, (zlen_concat (p_n (k_params key))) by (by apply slh_elems_nbytes). unfold zlen at 2.
    unfold elems. rewrite slh_elems_length by done.
    destruct (msg_rand_ok ctx add_rand m Hwf) as [Hrz _]. fold r in Hrz. rewrite Hrz, <- Hpar, sig_len_eq by (by rewrite Hpar). done. }
  assert (ossl_slh_dsa_sign ctx msg cx add_rand encode (Some sigbuf) (zlen sigbuf) =
    slh_sign_internal ctx m (Some sigbuf) (zlen sigbuf) add_rand) as ->
    by (unfold ossl_slh_dsa_sign; by rewrite Em).
  rewrite Es. eexists _, _. split; [done|]. rewrite splice_zlen by (rewrite ?Hz; lia).
  split; [done|]. split; [exact Ek|]. split; [done|].
  intros vkey vctx Hvk Hvc Hvwf Hsp Hpub. unfold ossl_slh_dsa_verify. rewrite Em.
  rewrite <- Hz at 1. rewrite slice_splice_same by (rewrite ?Hz; lia).
  pose proof (sign_verify_ok Halloc ctx vctx m add_rand Hwf Hvwf) as Hv. cbv zeta in Hv. rewrite Hpar in Hv. apply Hv.
  - by apply (same_pub_agree key vkey).
  - by rewrite Hvc.
  - specialize (Hg ctx Ec). unfold ctx_n. by rewrite Hpar, Ek.
Qed.
End SignVerify.

(** ** Properties *)

(** A provider that has every algorithm and whose generator returns zeros. *)
Definition zero_provider : Provider :=
  {| EVP_MD_fetch _ _ := true; EVP_MAC_fetch _ := true;
     RAND_priv_bytes_ex n := if 0 <=? n then Some (zeros n) else None;
     RAND_bytes_ex n := if 0 <=? n then Some (zeros n) else None |}.

(** C1: key generation, signing and verification fit together, for every
    parameter set of the table.  With [3n] bytes of entropy, [slh_dsa_gen] produces a
    key; signing any encodable message with it succeeds, returns the
    parameter set's signature length and writes inside the caller's buffer; and the
    signature is accepted both by the signer's context and by a fresh key object
    into which only the exported public key was loaded. *)
Theorem slh_dsa_keygen_sign_verify `{EV : EVP} `{AL : Allocator} `{PR : Provider} `{EL : !EVPLaws}
    alg p propq entropy msg cx add_rand encode sigbuf :
  (forall n s, malloc_ok n s = true) -> ossl_slh_dsa_params_get alg = Some p ->
  (forall md, EVP_MD_fetch md propq = true) -> EVP_MAC_fetch propq = true ->
  nbytes (3 * p_n p) entropy -> encodable encode msg cx -> p_sig_len p <= zlen sigbuf ->
  exists key ctx ctx' sig pub vkey vkey' vctx,
    slh_dsa_gen true true propq (Some entropy) alg = Some key /\
    ossl_slh_dsa_hash_ctx_new true key = Some ctx /\
    ossl_slh_dsa_sign ctx msg cx add_rand encode (Some sigbuf) (zlen sigbuf) = (ctx', Some (p_sig_len p, Some sig)) /\
    zlen sig = zlen sigbuf /\
    ossl_slh_dsa_verify ctx' msg cx encode (slice sig 0 (p_sig_len p)) (p_sig_len p) = true /\
    ossl_slh_dsa_key_get_pub key = Some pub /\
    ossl_slh_dsa_key_new true true propq alg = Some vkey /\
    ossl_slh_dsa_set_pub vkey (slice pub 0 (ossl_slh_dsa_key_get_pub_len key)) = Some vkey' /\
    ossl_slh_dsa_hash_ctx_new true vkey' = Some vctx /\
    ossl_slh_dsa_verify vctx msg cx encode (slice sig 0 (p_sig_len p)) (p_sig_len p) = true.
Proof.
  intros Hal Hp Hmd Hmac He Henc Hsz. destruct (key_new_ok propq alg p Hp Hmd Hmac) as (key0 & Ek0).
  destruct (key_new_wf _ _ _ _ _ Ek0) as (Hk0 & Hp0 & _). rewrite Hp in Hp0. injection Hp0 as Hp0.
  destruct (hash_ctx_new_wf _ Hk0) as (ctx0 & Ec0 & Eh0 & _).
  destruct (generate_ok Hal ctx0 entropy) as (key & Eg & Hk & Hg & Hpub & Hpriv & Hpar & _);
    [by rewrite Eh0|by rewrite Eh0|unfold ctx_n, ctx_params; rewrite Eh0, <- Hp0; done|].
  unfold ctx_params in Hpar. rewrite Eh0, <- Hp0 in Hpar.
  destruct (hash_ctx_new_wf _ Hk) as (ctx & Ec & Eh & _).
  destruct (dsa_sign_verify Hal key ctx msg cx add_rand encode sigbuf Hk Hg Hpriv Ec Henc) as
    (ctx' & sig & Es & Hsl & Eh' & Hwf' & Hv); [by rewrite Hpar|]. rewrite Hpar in *.
  pose proof (proj1 (proj1 Hk)) as Hn. rewrite Hpar in Hn. destruct Hk0 as (Hp0' & [Hz0 Hb0] & Hrest).
  assert (key_wf key0) as Hk0 by done. pose proof Hk as (_ & [Hz Hb] & _).
  set (pub := slice (SLH_DSA_PUB key) 0 (2 * p_n p)).
  assert (pub = slice (k_priv key) (p_n p * 2) (2 * p_n p)) as Hpubs
    by (unfold pub, SLH_DSA_PUB, SLH_DSA_PK_SEED, from; by rewrite Hpar).
  assert (zlen pub = 2 * p_n p) as Hpz by (rewrite Hpubs; apply slice_length; lia).
  assert (ossl_slh_dsa_set_pub key0 pub = Some (set_keydata (splice (k_priv key0) (pub_off key0) pub) true false key0)) as Esp.
  { unfold ossl_slh_dsa_set_pub, ossl_slh_dsa_key_get_pub_len. rewrite <- Hp0, Hpz, Z.eqb_refl. done. }
  assert (key_wf (set_keydata (splice (k_priv key0) (pub_off key0) pub) true false key0)) as Hvk
    by (eapply set_pub_wf; [exact Hk0| |exact Esp]; rewrite Hpubs; by apply slice_ok).
  destruct (hash_ctx_new_wf _ Hvk) as (vctx & Ev & Ehv & Hvwf).
  exists key, ctx, ctx', sig, (SLH_DSA_PUB key), key0. eexists. exists vctx. split_and!; try done.
  - unfold slh_dsa_gen. cbn [negb]. rewrite Ek0. cbn [mbind option_bind]. rewrite Ec0. cbn [mbind option_bind]. by rewrite Eg.
  - apply (Hv key ctx'); try done.
  - unfold ossl_slh_dsa_key_get_pub. by rewrite Hpub.
  - unfold ossl_slh_dsa_key_get_pub_len. rewrite Hpar. exact Esp.
  - apply (Hv _ vctx Hvk Ehv Hvwf); [|done]. split; [cbn; congruence|]. rewrite Hpar. fold pub.
    unfold SLH_DSA_PUB, SLH_DSA_PK_SEED, from, pub_off. cbn [k_priv k_params set_keydata]. rewrite <- Hp0.
    change (slice (splice (k_priv key0) (p_n p * 2) pub) (p_n p * 2) (2 * p_n p) = pub). rewrite <- Hpz.
    apply slice_splice_same; lia.
Qed.

Lemma slh_dsa_keygen_sign_verify_witness :
  exists key, @slh_dsa_gen pad_evp always_alloc zero_provider true true None (Some (zeros 48)) "SLH-DSA-SHA2-128f" = Some key.
Proof.
  destruct (@slh_dsa_keygen_sign_verify pad_evp always_alloc zero_provider pad_evp_laws "SLH-DSA-SHA2-128f"
    (OSSL_SLH_PARAMS_128F "SLH-DSA-SHA2-128f" 1461 false OSSL_SLH_DSA_SHA2_NUM_ZEROS_H_AND_T_BOUND1) None (zeros 48)
    [1; 2; 3] [4] None true (zeros 17088)) as (key & ? & ? & ? & ? & ? & ? & ? & E & _).
  - done.
  - done.
  - done.
  - done.
  - split; [by apply zlen_zeros|apply zeros_ok].
  - intros _. split; by compute.
  - rewrite zlen_zeros; [simpl; lia|lia].
  - exists key. exact E.
Defined.

(** *** The life of a key object *)

Inductive key_step `{EVP} `{Allocator} `{Provider} : SLH_DSA_KEY -> SLH_DSA_KEY -> Prop :=
  | step_set_priv key priv key' :
      bytes_ok priv -> ossl_slh_dsa_set_priv key priv = Some key' -> key_step key key'
  | step_set_pub key pub key' :
      bytes_ok pub -> ossl_slh_dsa_set_pub key pub = Some key' -> key_step key key'
  | step_reset key : key_step key (ossl_slh_dsa_key_reset key)
  | step_fromdata key params inc :
      params_bytes params -> key_step key (ossl_slh_dsa_key_fromdata key params inc).1
  | step_generate key ctx e :
      ossl_slh_dsa_hash_ctx_new true key = Some ctx -> (forall x, e = Some x -> bytes_ok x) ->
      key_step key (ossl_slh_dsa_generate_key ctx e).1
  | step_dup key za sa sel key' : ossl_slh_dsa_key_dup za sa key sel = Some key' -> key_step key key'.

Section Life.
Context `{EV : EVP} `{AL : Allocator} `{PR : Provider} `{RN : !RandLaws} `{EL : !EVPLaws}.
Context (Halloc : forall n s, malloc_ok n s = true).

(** A private key is never present without the public key. *)
Definition key_inv (p : SLH_DSA_PARAMS) (key : SLH_DSA_KEY) : Prop :=
  key_wf key /\ k_params key = p /\ (k_has_priv key = true -> k_pub key = true).

Lemma reset_inv p key : key_wf key -> k_params key = p -> key_inv p (ossl_slh_dsa_key_reset key).
Proof.
  intros Hk Hp. split; [by apply reset_wf|]. unfold ossl_slh_dsa_key_reset. by destruct (k_has_priv key).
Qed.
Lemma fromdata_pub_inv p key params :
  key_wf key -> params_bytes params -> k_params key = p ->
  key_inv p (fromdata_pub key params (2 * p_n (k_params key))).1.
Proof.
  intros Hk Hb Hp. pose proof (fromdata_pub_wf key params _ Hk Hb eq_refl) as Hw. pose proof (key_wf_n _ Hk).
  unfold fromdata_pub in *.
  destruct (OSSL_PARAM_locate_const params "pub") as [q|] eqn:El; cbn [mbind option_bind] in *; [|by apply reset_inv].
  destruct (OSSL_PARAM_get_octet_string q _) as [d|] eqn:Ed; [|by apply reset_inv].
  destruct (get_octet_bytes _ _ _ _ _ Hb El Ed) as [Hd Hz].
  destruct (zlen d =? _); cbn [negb fst] in *; [by split|]. apply reset_inv; [|done].
  apply set_keydata_wf; [done|]. apply splice_nbytes; [apply Hk|done|unfold pub_off; lia|unfold pub_off; lia].
Qed.
Lemma fromdata_inv p key params inc :
  key_inv p key -> params_bytes params -> key_inv p (ossl_slh_dsa_key_fromdata key params inc).1.
Proof.
  intros (Hk & Hp & Hi) Hb. pose proof (key_wf_n _ Hk).
  unfold ossl_slh_dsa_key_fromdata, ossl_slh_dsa_key_get_priv_len. cbv zeta.
  assert (Z.shiftr (4 * p_n (k_params key)) 1 = 2 * p_n (k_params key)) as ->
    by (rewrite Z.shiftr_div_pow2 by lia; change (2 ^ 1) with 2; dlia).
  destruct (if inc then OSSL_PARAM_locate_const params "priv" else None) as [q|] eqn:El; [|by apply fromdata_pub_inv].
  destruct inc; [|done]. destruct (OSSL_PARAM_get_octet_string q _) as [d|] eqn:Ed; [|done].
  destruct (get_octet_bytes _ _ _ _ _ Hb El Ed) as [Hd Hz].
  assert (nbytes 128 (splice (k_priv key) 0 d)) as Hs by (apply splice_nbytes; [apply Hk|done|lia|lia]).
  destruct (zlen d =? 4 * _); [by split; [apply set_keydata_wf|]|].
  destruct (zlen d =? 2 * _); cbn [negb fst]; [|apply reset_inv; [by apply set_keydata_wf|done]].
  apply (fromdata_pub_inv p (set_keydata (splice (k_priv key) 0 d) (k_pub key) true key)); [by apply set_keydata_wf|done|done].
Qed.

Lemma finish_inv p ctx out :
  key_wf out -> ossl_slh_dsa_hash_ctx_new true (h_key ctx) = Some ctx -> k_params out = p ->
  (exists a b c, out = set_keydata a b c (h_key ctx)) -> key_inv p (generate_finish ctx out).1.
Proof.
  intros Hk Ec <- (a & b & c & ->).
  destruct (generate_finish_ok Halloc ctx _ a b c Hk Ec eq_refl) as (key' & -> & Hw & _ & Hpub & _ & Hp & _). by split_and!.
Qed.
Lemma err_inv p out : key_wf out -> k_params out = p -> key_inv p (generate_err out).1.
Proof.
  intros Hk Hp. pose proof (key_wf_n _ Hk). split; [|done]. apply set_keydata_wf; [done|].
  apply splice_nbytes; [apply Hk|apply zeros_ok|lia|]. rewrite zlen_zeros; lia.
Qed.
Lemma generate_inv p ctx e :
  key_inv p (h_key ctx) -> ossl_slh_dsa_hash_ctx_new true (h_key ctx) = Some ctx ->
  (forall x, e = Some x -> bytes_ok x) -> key_inv p (ossl_slh_dsa_generate_key ctx e).1.
Proof.
  intros (Hk & Hp & Hi) Ec He. pose proof (key_wf_n _ Hk) as Hn.
  assert (key_inv p (generate_random ctx).1) as Hrand.
  { unfold generate_random. destruct (RAND_priv_bytes_ex _) as [sk|] eqn:E1; [|by apply err_inv].
    apply rand_priv_len in E1 as [Hs Hsb]. cbv zeta.
    assert (key_wf (set_priv_bytes 0 sk (h_key ctx))) as Hk1 by (apply set_priv_bytes_wf; (done || lia)).
    destruct (RAND_bytes_ex _) as [pk|] eqn:E2; [|by apply err_inv]. apply rand_len in E2 as [Hpz Hpb].
    apply finish_inv; [|done|done|by do 3 eexists].
    apply set_priv_bytes_wf; [done|done|unfold pub_off; cbn; lia|unfold pub_off; cbn; lia]. }
  unfold ossl_slh_dsa_generate_key. cbv zeta. destruct e as [e|]; [|done]. destruct (Z.eqb_spec (zlen e) 0); [done|].
  destruct (Z.eqb_spec (zlen e) (2 * p_n (k_params (h_key ctx)) + p_n (k_params (h_key ctx)))); cbn [negb]; [|by apply err_inv].
  apply finish_inv; [|done|done|by do 3 eexists]. apply set_priv_bytes_wf; [done|by apply He|lia|lia].
Qed.

Lemma step_inv p key key' : key_inv p key -> key_step key key' -> key_inv p key'.
Proof.
  intros Hi Hs. destruct Hs as [key priv key' Hb E|key pub key' Hb E|key|key params inc Hb|key ctx e Ec He|key za sa sel key' E].
  - destruct Hi as (Hk & Hp & _). split; [by eapply set_priv_wf|]. revert E. unfold ossl_slh_dsa_set_priv.
    destruct (negb _); [done|]. by intros [= <-].
  - destruct Hi as (Hk & Hp & _). split; [by eapply set_pub_wf|]. revert E. unfold ossl_slh_dsa_set_pub.
    destruct (negb _); [done|]. by intros [= <-].
  - destruct Hi as (Hk & Hp & _). by apply reset_inv.
  - by apply fromdata_inv.
  - assert (h_key ctx = key) as Hh.
    { destruct Hi as (Hk & _). destruct (hash_ctx_new_wf _ Hk) as (c & Ec' & Eh & _). rewrite Ec in Ec'. by injection Ec' as <-. }
    rewrite <- Hh in Hi, Ec. by apply generate_inv.
  - destruct Hi as (Hk & Hp & Hi). split; [by eapply dup_wf|]. revert E. unfold ossl_slh_dsa_key_dup.
    destruct (negb za); [done|]. destruct (match k_propq key with Some _ => negb sa | None => false end); [done|].
    destruct (selected sel OSSL_KEYMGMT_SELECT_KEYPAIR); intros [= <-]; [|done]. split; [done|].
    cbn. destruct (selected sel OSSL_KEYMGMT_SELECT_PRIVATE_KEY); [done|done].
Qed.
End Life.

(** C21: whatever sequence of imports, generations, resets and duplications a key
    object goes through after its creation, it keeps its parameter set, its hash
    functions fit that set, its 128 byte key buffer holds bytes, and it never claims
    a private key without the public key. *)
Theorem slh_key_life_invariant `{EV : EVP} `{AL : Allocator} `{PR : Provider} `{RN : !RandLaws} `{EL : !EVPLaws}
    za sa propq alg key key' :
  (forall n s, malloc_ok n s = true) -> ossl_slh_dsa_key_new za sa propq alg = Some key -> rtc key_step key key' ->
  key_wf key' /\ ossl_slh_dsa_params_get alg = Some (k_params key') /\ (k_has_priv key' = true -> k_pub key' = true).
Proof.
  intros Hal Hn Hs. destruct (key_new_wf _ _ _ _ _ Hn) as (Hk & Hp & _ & Hpriv).
  assert (key_inv (k_params key) key') as (H1 & H2 & H3).
  { assert (key_inv (k_params key) key) as Hi by (split; [done|split; [done|congruence]]).
    revert Hi. generalize (k_params key) at 1 2. clear Hn Hk Hp Hpriv. intros p Hi. induction Hs as [|x y z Hxy _ IH]; [done|].
    apply IH. exact (step_inv Hal p x y Hi Hxy). }
  split; [done|]. split; [|done]. by rewrite H2.
Qed.

Lemma zero_provider_rand : @RandLaws zero_provider.
Proof.
  split; intros n d; cbn [RAND_priv_bytes_ex RAND_bytes_ex zero_provider]; destruct (Z.leb_spec 0 n); intros [= <-];
    (split; [by apply zlen_zeros|apply zeros_ok]).
Qed.

Lemma slh_key_life_invariant_witness :
  exists key key', @ossl_slh_dsa_key_new zero_provider true true None "SLH-DSA-SHAKE-128s" = Some key /\
    @ossl_slh_dsa_set_priv key (zeros 64) = Some key' /\
    key_wf (ossl_slh_dsa_key_reset key') /\
    ossl_slh_dsa_params_get "SLH-DSA-SHAKE-128s" = Some (k_params (ossl_slh_dsa_key_reset key')) /\
    (k_has_priv (ossl_slh_dsa_key_reset key') = true -> k_pub (ossl_slh_dsa_key_reset key') = true).
Proof.
  eexists _, _. split; [reflexivity|]. split; [reflexivity|].
  eapply (@slh_key_life_invariant pad_evp always_alloc zero_provider zero_provider_rand pad_evp_laws true true None);
    [done|reflexivity|].
  eapply rtc_l; [eapply step_set_priv; [apply (zeros_ok 64)|reflexivity]|].
  eapply rtc_l; [apply step_reset|apply rtc_refl].
Defined.

(** When key generation fails, for want of entropy of the right length, of
    random bytes or of a hash function, the object holds no usable key and the
    [2n] bytes of the secret seeds are zero. *)
Lemma slh_generate_failure_wipes `{EV : EVP} `{AL : Allocator} `{PR : Provider} `{RN : !RandLaws} ctx e key' :
  key_wf (h_key ctx) -> (forall x, e = Some x -> bytes_ok x) ->
  ossl_slh_dsa_generate_key ctx e = (key', false) ->
  k_pub key' = false /\ k_has_priv key' = false /\
  slice (k_priv key') 0 (2 * p_n (k_params key')) = zeros (2 * p_n (k_params key')).
Proof. intros Hk He E. exact (generate_fail ctx e key' Hk He E). Qed.

Lemma slh_generate_failure_wipes_witness :
  exists ctx key', key_wf (h_key ctx) /\
    @ossl_slh_dsa_generate_key pad_evp always_alloc zero_provider ctx (Some [1; 2; 3]) = (key', false) /\
    (k_pub key' = false /\ k_has_priv key' = false /\
     slice (k_priv key') 0 (2 * p_n (k_params key')) = zeros (2 * p_n (k_params key'))).
Proof.
  destruct (@key_new_ok zero_provider None "SLH-DSA-SHA2-192s" _ eq_refl (fun _ => eq_refl) eq_refl) as (key & Ek).
  destruct (@key_new_wf zero_provider _ _ _ _ _ Ek) as (Hk & Hp & _). injection Hp as Hp.
  destruct (hash_ctx_new_wf key Hk) as (ctx & _ & <- & _).
  assert (@ossl_slh_dsa_generate_key pad_evp always_alloc zero_provider ctx (Some [1; 2; 3]) =
    ((generate_err (h_key ctx)).1, false)) as E.
  { unfold ossl_slh_dsa_generate_key. rewrite <- Hp. reflexivity. }
  exists ctx, (generate_err (h_key ctx)).1. split; [exact Hk|]. split; [exact E|].
  apply (@slh_generate_failure_wipes pad_evp always_alloc zero_provider zero_provider_rand ctx (Some [1; 2; 3])).
  - exact Hk.
  - intros x [= <-]. repeat constructor; unfold is_byte; lia.
  - exact E.
Defined.

(** The pairwise consistency check accepts a well-formed key exactly when both
    halves are present and the stored root is the root of the hypertree that the
    secret and public seeds define. *)
Lemma slh_pairwise_check_exact `{EV : EVP} `{AL : Allocator} `{EL : !EVPLaws} key :
  (forall n s, malloc_ok n s = true) -> key_wf key ->
  ossl_slh_dsa_key_pairwise_check true key = true <-> k_pub key = true /\ k_has_priv key = true /\ genuine key.
Proof. intros Hal Hk. exact (pairwise_check_iff Hal key Hk). Qed.

Lemma slh_pairwise_check_exact_witness :
  exists key, @ossl_slh_dsa_key_new zero_provider true true None "SLH-DSA-SHA2-128s" = Some key /\
    (@ossl_slh_dsa_key_pairwise_check pad_evp always_alloc true key = true <->
     k_pub key = true /\ k_has_priv key = true /\ @genuine pad_evp always_alloc key).
Proof.
  eexists. split; [reflexivity|]. apply (@slh_pairwise_check_exact pad_evp always_alloc pad_evp_laws); [done|].
  eapply (@key_new_wf zero_provider true true None "SLH-DSA-SHA2-128s"). reflexivity.
Defined.

(** Key bytes survive import, export and duplication.  Loading [4n] bytes and
    reading them back gives the same bytes, and the public key is their second
    half; loading [2n] public bytes gives them back and leaves no private key; other
    lengths are refused; a full duplicate equals its source under every selection
    its source can satisfy, and releasing a key clears the secret seeds. *)
Lemma slh_key_bytes_roundtrip key priv pub :
  key_wf key -> bytes_ok priv -> bytes_ok pub ->
  let n := p_n (k_params key) in
  (ossl_slh_dsa_set_priv key priv =
     if zlen priv =? 4 * n then Some (set_keydata (splice (k_priv key) 0 priv) true true key) else None) /\
  (forall key', ossl_slh_dsa_set_priv key priv = Some key' ->
     option_map (fun b => slice b 0 (4 * n)) (ossl_slh_dsa_key_get_priv key') = Some priv /\
     option_map (fun b => slice b 0 (2 * n)) (ossl_slh_dsa_key_get_pub key') = Some (slice priv (2 * n) (2 * n)) /\
     slice (ossl_slh_dsa_key_free key') 0 (2 * n) = zeros (2 * n) /\
     (forall dup, ossl_slh_dsa_key_dup true true key' OSSL_KEYMGMT_SELECT_KEYPAIR = Some dup ->
        forall sel, ossl_slh_dsa_key_equal key' dup sel = true)) /\
  (forall key', ossl_slh_dsa_set_pub key pub = Some key' ->
     option_map (fun b => slice b 0 (2 * n)) (ossl_slh_dsa_key_get_pub key') = Some pub /\
     ossl_slh_dsa_key_get_priv key' = None).
Proof.
  intros Hk Hb Hb' n. pose proof (key_wf_n _ Hk) as Hn. fold n in Hn. pose proof Hk as (_ & [Hz _] & _).
  assert (ossl_slh_dsa_set_priv key priv =
     if zlen priv =? 4 * n then Some (set_keydata (splice (k_priv key) 0 priv) true true key) else None) as Hset.
  { unfold ossl_slh_dsa_set_priv, ossl_slh_dsa_key_get_priv_len. fold n. rewrite Z.eqb_sym. by destruct (zlen priv =? 4 * n). }
  split; [done|]. split.
  - intros key' E. rewrite Hset in E. destruct (Z.eqb_spec (zlen priv) (4 * n)) as [El|]; [|done]. injection E as <-.
    cbn [ossl_slh_dsa_key_get_priv ossl_slh_dsa_key_get_pub k_has_priv k_pub set_keydata option_map]. split_and!.
    + f_equal. rewrite <- El. cbn [k_priv set_keydata]. apply slice_splice_same; lia.
    + f_equal. unfold SLH_DSA_PUB, SLH_DSA_PK_SEED, from. cbn [k_priv k_params set_keydata]. fold n.
      change (slice (splice (k_priv key) 0 priv) (n * 2) (2 * n) = slice priv (2 * n) (2 * n)).
      rewrite slice_splice_sub by lia. f_equal. lia.
    + unfold ossl_slh_dsa_key_free. cbn [k_priv set_keydata]. change (Z.shiftr (4 * SLH_DSA_MAX_N) 1) with 64.
      assert (zlen (splice (k_priv key) 0 priv) = 128) as Hsz by (rewrite splice_zlen; lia).
      rewrite slice_splice_sub by (rewrite ?zlen_zeros, ?Hsz; lia). unfold slice, zeros. rewrite drop_0.
      rewrite take_replicate. f_equal. lia.
    + intros dup. unfold ossl_slh_dsa_key_dup. cbn [negb k_propq set_keydata].
      destruct (match k_propq key with Some _ => false | None => false end) eqn:Eq; [by destruct (k_propq key)|].
      change (selected OSSL_KEYMGMT_SELECT_KEYPAIR OSSL_KEYMGMT_SELECT_KEYPAIR) with true.
      change (selected OSSL_KEYMGMT_SELECT_KEYPAIR OSSL_KEYMGMT_SELECT_PRIVATE_KEY) with true. cbv iota.
      intros [= <-] sel. unfold ossl_slh_dsa_key_equal. cbn [k_params k_pub k_has_priv k_priv set_keydata].
      rewrite bool_decide_eq_true_2 by done. cbn [negb].
      destruct (selected sel OSSL_KEYMGMT_SELECT_KEYPAIR) eqn:E1; [|done].
      unfold SLH_DSA_PUB, SLH_DSA_PK_SEED. cbn [k_params k_priv set_keydata].
      rewrite !(bool_decide_eq_true_2 (_ = _)) by done.
      destruct (selected sel OSSL_KEYMGMT_SELECT_PUBLIC_KEY) eqn:E2; cbn [andb negb]; [done|].
      destruct (selected sel OSSL_KEYMGMT_SELECT_PRIVATE_KEY) eqn:E3; [done|].
      exfalso. unfold selected in *. apply negb_false_iff in E2, E3. apply Z.eqb_eq in E2, E3.
      change OSSL_KEYMGMT_SELECT_KEYPAIR with (Z.lor OSSL_KEYMGMT_SELECT_PRIVATE_KEY OSSL_KEYMGMT_SELECT_PUBLIC_KEY) in E1.
      rewrite Z.land_lor_distr_r, E2, E3 in E1. done.
  - intros key'. unfold ossl_slh_dsa_set_pub, ossl_slh_dsa_key_get_pub_len. fold n.
    destruct (Z.eqb_spec (2 * n) (zlen pub)) as [El|]; [|done]. intros [= <-]. split; [|done].
    cbn [ossl_slh_dsa_key_get_pub k_pub set_keydata option_map]. f_equal.
    unfold SLH_DSA_PUB, SLH_DSA_PK_SEED, from, pub_off. cbn [k_priv k_params set_keydata]. fold n.
    change (slice (splice (k_priv key) (n * 2) pub) (n * 2) (2 * n) = pub). rewrite El. apply slice_splice_same; lia.
Qed.

Lemma slh_key_bytes_roundtrip_witness :
  exists key, k_params key = OSSL_SLH_PARAMS_128S "SLH-DSA-SHA2-128s" 1460 false OSSL_SLH_DSA_SHA2_NUM_ZEROS_H_AND_T_BOUND1 /\
    (forall key', ossl_slh_dsa_set_priv key (replicate 64 7) = Some key' ->
       option_map (fun b => slice b 0 64) (ossl_slh_dsa_key_get_priv key') = Some (replicate 64 7)).
Proof.
  destruct (@key_new_ok zero_provider None "SLH-DSA-SHA2-128s" _ eq_refl (fun _ => eq_refl) eq_refl) as (key & Ek).
  destruct (@key_new_wf zero_provider _ _ _ _ _ Ek) as (Hk & Hp & _). injection Hp as Hp.
  exists key. split; [symmetry; exact Hp|]. intros key' E.
  destruct (slh_key_bytes_roundtrip key (replicate 64 7) []) as (_ & H & _).
  - exact Hk.
  - apply Forall_replicate. unfold is_byte. lia.
  - constructor.
  - rewrite <- Hp in H. destruct (H key' E) as [H1 _]. exact H1.
Defined.

(** Duplicating only the public half of a key still copies the secret seeds:
    the duplicate reports no private key, but its buffer is the source's, and
    resetting it does not clear the seeds, because [ossl_slh_dsa_key_reset] cleanses
    only when [has_priv] is set. *)
Lemma slh_dup_public_keeps_secret key dup :
  ossl_slh_dsa_key_dup true true key OSSL_KEYMGMT_SELECT_PUBLIC_KEY = Some dup ->
  k_has_priv dup = false /\ k_priv dup = k_priv key /\ k_priv (ossl_slh_dsa_key_reset dup) = k_priv key.
Proof.
  unfold ossl_slh_dsa_key_dup. cbn [negb].
  destruct (match k_propq key with Some _ => false | None => false end) eqn:Eq; [by destruct (k_propq key)|].
  by intros [= <-].
Qed.
