(* ===== verification/BitPack.v ===== *)
(** * Bit packing

    The reference for the encoders and decoders of the lattice schemes: a list of
    [b]-bit values is the number whose base [2^b] digits they are, least significant
    first, written as little-endian bytes.  The lemmas join and split bit fields and
    relate digits to bytes. *)
From S2P Require Import Prelude.
From S2P Require Import ByteOrder.
From S2P Require Import ZSum.

(** ** Digits *)

(** The number with the given base [2^b] digits, least significant first. *)
Definition digits_val (b : Z) (ws : list Z) : Z := foldr (fun w acc => w + 2 ^ b * acc) 0 ws.
Fixpoint to_digits (b : Z) (n : nat) (v : Z) : list Z :=
  match n with O => [] | S n' => v mod 2 ^ b :: to_digits b n' (v / 2 ^ b) end.
Definition is_digit (b w : Z) : Prop := 0 <= w < 2 ^ b.

Lemma digits_val_range b ws : 0 <= b -> Forall (is_digit b) ws -> 0 <= digits_val b ws < 2 ^ (b * zlen ws).
Proof.
  intros Hb. induction 1 as [|w ws Hw _ IH]; [rewrite Z.mul_0_r; by compute|]. unfold is_digit in Hw.
  rewrite zlen_cons, Z.mul_add_distr_l, Z.mul_1_r, Z.pow_add_r by (pose proof (zlen_nonneg ws); nia).
  cbn [digits_val foldr]. fold (digits_val b ws). nia.
Qed.
Lemma digits_val_app b u v :
  0 <= b -> digits_val b (u ++ v) = digits_val b u + 2 ^ (b * zlen u) * digits_val b v.
Proof.
  intros Hb. induction u as [|w u IH]; [change (zlen (@nil Z)) with 0; rewrite Z.mul_0_r, Z.pow_0_r; change (digits_val b []) with 0; cbn [app]; lia|].
  cbn [app digits_val foldr]. fold (digits_val b (u ++ v)) (digits_val b u). rewrite IH.
  replace (b * zlen (w :: u)) with (b + b * zlen u) by (rewrite zlen_cons; ring).
  rewrite Z.pow_add_r by (pose proof (zlen_nonneg u); nia). ring.
Qed.
Lemma to_digits_length b n v : length (to_digits b n v) = n.
Proof. revert v. induction n; intros v; simpl; auto. Qed.
Lemma to_digits_ok b n v : 0 <= b -> Forall (is_digit b) (to_digits b n v).
Proof.
  intros Hb. revert v. induction n as [|n IH]; intros v; constructor; [|apply IH].
  apply Z.mod_pos_bound. by apply Z.pow_pos_nonneg.
Qed.
Lemma to_digits_val b ws : 0 <= b -> Forall (is_digit b) ws -> to_digits b (length ws) (digits_val b ws) = ws.
Proof.
  intros Hb. induction 1 as [|w ws Hw _ IH]; [done|]. cbn [length to_digits digits_val foldr].
  fold (digits_val b ws). unfold is_digit in Hw. assert (0 < 2 ^ b) by (by apply Z.pow_pos_nonneg).
  rewrite (Z.mul_comm (2 ^ b)), Z.mod_add, Z.div_add, Z.mod_small, Z.div_small, Z.add_0_l, IH by lia. done.
Qed.
Lemma val_to_digits b n v : 0 <= b -> digits_val b (to_digits b n v) = v mod 2 ^ (b * Z.of_nat n).
Proof.
  intros Hb. revert v. induction n as [|n IH]; intros v; cbn [to_digits digits_val foldr].
  - change (Z.of_nat 0) with 0. by rewrite Z.mul_0_r, Z.mod_1_r.
  - fold (digits_val b (to_digits b n (v / 2 ^ b))). rewrite IH.
    replace (b * Z.of_nat (S n)) with (b + b * Z.of_nat n) by lia.
    rewrite Z.pow_add_r, Z.rem_mul_r by (try apply Z.pow_pos_nonneg; nia). done.
Qed.
Lemma to_digits_app b n m v :
  0 <= b -> to_digits b (n + m) v = to_digits b n v ++ to_digits b m (v / 2 ^ (b * Z.of_nat n)).
Proof.
  intros Hb. revert v. induction n as [|n IH]; intros v; cbn [Nat.add to_digits app].
  - change (Z.of_nat 0) with 0. by rewrite Z.mul_0_r, Z.div_1_r.
  - rewrite IH, Z.div_div by (try apply Z.pow_pos_nonneg; nia). rewrite <- Z.pow_add_r by nia.
    by replace (b * Z.of_nat (S n)) with (b + b * Z.of_nat n) by lia.
Qed.
Lemma to_digits_add b n v w k :
  0 <= b -> b * Z.of_nat n <= k -> to_digits b n (v + 2 ^ k * w) = to_digits b n v.
Proof.
  intros Hb Hk. rewrite <- (to_digits_val b (to_digits b n v)), <- (to_digits_val b (to_digits b n (v + 2 ^ k * w)))
    by (done || by apply to_digits_ok).
  rewrite !val_to_digits, !to_digits_length by done. f_equal.
  replace k with (b * Z.of_nat n + (k - b * Z.of_nat n)) by lia. rewrite Z.pow_add_r by nia.
  rewrite <- Z.mul_assoc, (Z.mul_comm (2 ^ _)), Z.mod_add; [done|]. pose proof (Z.pow_pos_nonneg 2 (b * Z.of_nat n)). nia.
Qed.

Lemma le_bytes_digits n v : le_bytes n v = to_digits 8 n v.
Proof. revert v. induction n as [|n IH]; intros v; cbn [le_bytes to_digits]; [done|]. by rewrite IH. Qed.
Lemma le_val_digits l : le_val l = digits_val 8 l.
Proof. induction l as [|x l IH]; cbn [le_val digits_val foldr]; [done|]. by rewrite IH. Qed.

Lemma le_val_app u v : le_val (u ++ v) = le_val u + 256 ^ zlen u * le_val v.
Proof.
  rewrite !le_val_digits, digits_val_app by lia. rewrite (Z.pow_mul_r 2 8) by (pose proof (zlen_nonneg u); lia). done.
Qed.

(** ** Joining bit fields *)

Lemma lor_field w x y k :
  0 <= k <= w -> 0 <= x < 2 ^ k -> Z.lor x (Z.shiftl y k mod 2 ^ w) = (x + 2 ^ k * y) mod 2 ^ w.
Proof.
  intros Hk Hx. rewrite Z.shiftl_mul_pow2 by lia. replace w with (k + (w - k)) by lia.
  rewrite Z.pow_add_r, (Z.mul_comm y) by lia. pose proof (Z.pow_pos_nonneg 2 k ltac:(lia) ltac:(lia)) as H1.
  pose proof (Z.pow_pos_nonneg 2 (w - k) ltac:(lia) ltac:(lia)) as H2.
  rewrite Z.mul_mod_distr_l, (Z.mul_comm (2 ^ k)), <- Z.shiftl_mul_pow2, lor_shiftl_add by lia.
  set (m := 2 ^ (w - k)) in *. pose proof (Z.div_mod y m ltac:(lia)). pose proof (Z.mod_pos_bound y m H2).
  apply (Z.mod_unique _ _ (y / m)); [left|]; nia.
Qed.
Lemma lor_u32 x y k : 0 <= k <= 32 -> 0 <= x < 2 ^ k -> Z.lor x (u32 (Z.shiftl y k)) = u32 (x + 2 ^ k * y).
Proof. apply (lor_field 32). Qed.
Lemma lor_u64 x y k : 0 <= k <= 64 -> 0 <= x < 2 ^ k -> Z.lor x (u64 (Z.shiftl y k)) = u64 (x + 2 ^ k * y).
Proof. apply (lor_field 64). Qed.
Lemma land_mask x k : 0 <= k -> Z.land x (Z.shiftl 1 k - 1) = x mod 2 ^ k.
Proof. intros Hk. rewrite <- Z.land_ones by done. f_equal. Qed.

(** The powers the encoders use, as literals. *)
Ltac pow_literals :=
  change (2 ^ 1) with 2 in *; change (2 ^ 2) with 4 in *; change (2 ^ 3) with 8 in *; change (2 ^ 4) with 16 in *;
  change (2 ^ 5) with 32 in *; change (2 ^ 6) with 64 in *; change (2 ^ 7) with 128 in *; change (2 ^ 8) with 256 in *;
  change (2 ^ 9) with 512 in *; change (2 ^ 10) with 1024 in *; change (2 ^ 12) with 4096 in *;
  change (2 ^ 13) with 8192 in *; change (2 ^ 14) with 16384 in *; change (2 ^ 15) with 32768 in *;
  change (2 ^ 16) with 65536 in *; change (2 ^ 18) with 262144 in *; change (2 ^ 20) with 1048576 in *;
  change (2 ^ 21) with 2097152 in *; change (2 ^ 22) with 4194304 in *; change (2 ^ 24) with 16777216 in *;
  change (2 ^ 26) with 67108864 in *; change (2 ^ 27) with 134217728 in *; change (2 ^ 28) with 268435456 in *;
  change (2 ^ 30) with 1073741824 in *; change (2 ^ 32) with 4294967296 in *; change (2 ^ 39) with 549755813888 in *;
  change (2 ^ 52) with 4503599627370496 in *.

Lemma le_bytes_app n m v : le_bytes (n + m) v = le_bytes n v ++ le_bytes m (v / 256 ^ Z.of_nat n).
Proof.
  rewrite !le_bytes_digits, to_digits_app by lia. do 3 f_equal. rewrite (Z.pow_mul_r 2 8) by lia. done.
Qed.
Lemma le_bytes_cong n x y : x mod 256 ^ Z.of_nat n = y mod 256 ^ Z.of_nat n -> le_bytes n x = le_bytes n y.
Proof. intros H. by rewrite <- le_bytes_mod, H, le_bytes_mod. Qed.

(** ** Bit packing *)

(** Algorithms 16 and 17 of FIPS 204, Algorithm 5 of FIPS 203: [ws] are the values packed, of [b] bits each. *)
Definition bit_pack (b : Z) (ws : list Z) : list Z := le_bytes (Z.to_nat (b * zlen ws / 8)) (digits_val b ws).
(** Algorithms 18 and 19 of FIPS 204, Algorithm 6 of FIPS 203. *)
Definition bit_unpack (b : Z) (n : nat) (bytes : list Z) : list Z := to_digits b n (le_val bytes).

Lemma bit_unpack_pack b ws :
  0 <= b -> b * zlen ws mod 8 = 0 -> Forall (is_digit b) ws -> bit_unpack b (length ws) (bit_pack b ws) = ws.
Proof.
  intros Hb Hm Hws. unfold bit_unpack, bit_pack. rewrite le_val_bytes.
  pose proof (digits_val_range b ws Hb Hws) as Hr. pose proof (zlen_nonneg ws).
  rewrite Z2Nat.id by (apply Z.div_pos; nia). rewrite Z.mod_small; [by apply to_digits_val|].
  change 256 with (2 ^ 8). rewrite <- Z.pow_mul_r by (try apply Z.div_pos; nia).
  by replace (8 * (b * zlen ws / 8)) with (b * zlen ws) by dlia.
Qed.
Lemma bit_pack_unpack b n bytes :
  0 <= b -> bytes_ok bytes -> b * Z.of_nat n = 8 * zlen bytes -> bit_pack b (bit_unpack b n bytes) = bytes.
Proof.
  intros Hb Hok Hn. unfold bit_pack, bit_unpack. rewrite val_to_digits by done.
  replace (b * zlen (to_digits b n (le_val bytes)) / 8) with (zlen bytes)
    by (unfold zlen; rewrite to_digits_length; unfold zlen in Hn; rewrite Hn, Z.mul_comm, Z.div_mul; lia).
  rewrite zlen_to_nat, Hn, Z.pow_mul_r by (pose proof (zlen_nonneg bytes); lia). change (2 ^ 8) with 256.
  unfold zlen. rewrite le_bytes_mod. by apply le_bytes_val.
Qed.
Lemma bit_pack_length b ws : zlen (bit_pack b ws) = Z.max 0 (b * zlen ws / 8).
Proof. unfold bit_pack, zlen. rewrite le_bytes_length. lia. Qed.
Lemma bit_pack_ok b ws : bytes_ok (bit_pack b ws).
Proof. apply le_bytes_ok. Qed.

(** ** Groups *)

(** A group of [g] coefficients, encoded as digits of [b] bits, makes [n] bytes. *)
Definition packs (f : list Z -> list Z) (enc : Z -> Z) (b : Z) (g n : nat) : Prop :=
  forall cs, length cs = g -> Forall (is_digit b) (enc <$> cs) -> f cs = le_bytes n (digits_val b (enc <$> cs)).
Definition unpacks (f : list Z -> list Z) (dec : Z -> Z) (b : Z) (g n : nat) : Prop :=
  forall bs, length bs = n -> bytes_ok bs -> f bs = dec <$> to_digits b g (le_val bs).

Section Groups.
Context (b : Z) (g n : nat) (Hb : 0 < b) (Hg : (0 < g)%nat) (Hgn : b * Z.of_nat g = 8 * Z.of_nat n).

Fixpoint pack_groups (k : nat) (f : list Z -> list Z) (cs : list Z) : list Z :=
  match k with O => [] | S k' => f (take g cs) ++ pack_groups k' f (drop g cs) end.

Lemma pack_groups_spec f enc k cs :
  packs f enc b g n -> length cs = (g * k)%nat -> Forall (is_digit b) (enc <$> cs) ->
  pack_groups k f cs = bit_pack b (enc <$> cs).
Proof.
  intros Hf. revert cs. induction k as [|k IH]; intros cs Hl Hd.
  - rewrite Nat.mul_0_r in Hl. destruct cs; [|done]. unfold bit_pack. change (zlen (enc <$> [])) with 0.
    by rewrite Z.mul_0_r.
  - cbn [pack_groups]. rewrite <- (take_drop g cs) in Hd at 1. rewrite fmap_app in Hd. apply Forall_app in Hd as [Hd1 Hd2].
    rewrite (Hf (take g cs)) by (done || (rewrite length_take; lia)).
    rewrite IH by (done || (rewrite length_drop; lia)).
    rewrite <- (take_drop g cs) at 3. rewrite fmap_app. unfold bit_pack.
    rewrite digits_val_app, zlen_app by lia.
    assert (zlen (enc <$> take g cs) = Z.of_nat g) as -> by (unfold zlen; rewrite length_fmap, length_take; lia).
    assert (zlen (enc <$> drop g cs) = Z.of_nat (g * k)) as -> by (unfold zlen; rewrite length_fmap, length_drop; lia).
    set (x := digits_val b (enc <$> take g cs)). set (y := digits_val b (enc <$> drop g cs)).
    assert (b * Z.of_nat (g * k) / 8 = Z.of_nat (n * k)) as Hk.
    { rewrite !Nat2Z.inj_mul, Z.mul_assoc, Hgn. replace (8 * Z.of_nat n * Z.of_nat k) with (Z.of_nat n * Z.of_nat k * 8) by ring.
      by apply Z.div_mul. }
    replace (b * (Z.of_nat g + Z.of_nat (g * k)) / 8) with (Z.of_nat (n + n * k)).
    2: { rewrite Z.mul_add_distr_l, Hgn. replace (8 * Z.of_nat n + b * Z.of_nat (g * k)) with
           (b * Z.of_nat (g * k) + Z.of_nat n * 8) by ring. rewrite Z.div_add, Hk by lia. lia. }
    rewrite Hk, !Nat2Z.id, le_bytes_app. rewrite Hgn, Z.pow_mul_r by lia. change (2 ^ 8) with 256.
    assert (0 <= x < 256 ^ Z.of_nat n) as Hx.
    { pose proof (digits_val_range b _ ltac:(lia) Hd1) as Hr. fold x in Hr. unfold zlen in Hr.
      rewrite length_fmap, length_take, Nat.min_l, Hgn, Z.pow_mul_r in Hr by lia. done. }
    rewrite (Z.mul_comm _ y), Z.div_add, (Z.div_small x), Z.add_0_l by lia. f_equal.
    apply le_bytes_cong. by rewrite Z.mod_add by lia.
Qed.

Lemma take_drop_length {A} (l : list A) k :
  length l = (g * S k)%nat -> length (take g l) = g /\ length (drop g l) = (g * k)%nat.
Proof. rewrite length_take, length_drop. nia. Qed.

(** Decoding groups one after the other decodes the whole. *)
Lemma bit_unpack_group k bs :
  length bs = (n * S k)%nat -> bytes_ok bs ->
  bit_unpack b (g * S k) bs = to_digits b g (le_val (take n bs)) ++ bit_unpack b (g * k) (drop n bs).
Proof.
  intros Hl Hok. unfold bit_unpack. replace (g * S k)%nat with (g + g * k)%nat by lia.
  rewrite to_digits_app by lia. rewrite <- (take_drop n bs) at 1 2. rewrite le_val_app.
  assert (zlen (take n bs) = Z.of_nat n) as Hn by (unfold zlen; rewrite length_take; lia). rewrite Hn.
  assert (256 ^ Z.of_nat n = 2 ^ (b * Z.of_nat g)) as E by (rewrite Hgn, Z.pow_mul_r by lia; done).
  pose proof (le_val_range (take n bs) (Forall_take _ _ _ Hok)) as Hr. rewrite Hn, E in Hr.
  pose proof (Z.pow_pos_nonneg 2 (b * Z.of_nat g) ltac:(lia) ltac:(lia)).
  rewrite E. f_equal; [apply to_digits_add; lia|].
  by rewrite (Z.mul_comm (2 ^ _)), Z.div_add, Z.div_small, Z.add_0_l by lia.
Qed.
End Groups.
