(* ===== verification/Result.v ===== *)
(** * Results of functions that can fail or loop

    The C functions of the lattice schemes return 1 or 0; some of them have loops
    whose number of rounds depends on a digest stream. *)
From S2P Require Import Prelude.

(** [Ret]: the function returns 1; [Err]: it returns 0; [Spin]: a loop has used
    up the fuel. *)
Inductive res (A : Type) : Type := Ret (a : A) | Err | Spin.
Arguments Ret {A} _.
Arguments Err {A}.
Arguments Spin {A}.
#[export] Instance res_ret : MRet res := fun A a => Ret a.
#[export] Instance res_bind : MBind res := fun A B k m =>
  match m with Ret a => k a | Err => Err | Spin => Spin end.
Definition of_option {A} (o : option A) : res A := match o with Some a => Ret a | None => Err end.
(** [if (!c) return 0;] *)
Definition check (c : bool) : res unit := if c then Ret tt else Err.

Fixpoint res_for {St} (n : nat) (i : Z) (body : Z -> St -> res St) (s : St) : res St :=
  match n with O => Ret s | S n' => s' ← body i s; res_for n' (i + 1) body s' end.

Lemma res_for_ext {St} n i (b b' : Z -> St -> res St) s : (forall j t, b j t = b' j t) -> res_for n i b s = res_for n i b' s.
Proof.
  intros Hb. revert i s. induction n as [|n IH]; intros i s; cbn [res_for]; [done|]. rewrite Hb. destruct (b' i s) as [t| |]; [apply IH|done..].
Qed.
Lemma res_bind_Ret {A B} (m : res A) (k : A -> res B) b : (m ≫= k) = Ret b -> exists a, m = Ret a /\ k a = Ret b.
Proof. destruct m as [a| |]; [|done..]. intros H. by exists a. Qed.
Lemma res_for_inv {St} (P : Z -> St -> Prop) n i body s s' :
  P i s -> (forall j t t', i <= j < i + Z.of_nat n -> P j t -> body j t = Ret t' -> P (j + 1) t') ->
  res_for n i body s = Ret s' -> P (i + Z.of_nat n) s'.
Proof.
  revert i s. induction n as [|n IH]; intros i s Hi Hstep; cbn [res_for].
  - intros [= <-]. by rewrite Z.add_0_r.
  - intros (t & Ht & Hl)%res_bind_Ret. replace (i + Z.of_nat (S n)) with (i + 1 + Z.of_nat n) by lia.
    eapply IH; [apply (Hstep i s t); [lia|done|done]| |done]. intros j u u' Hj. apply Hstep; lia.
Qed.

(** The bound on the number of rounds of a loop that has none of its own. *)
Class Fuel := fuel : nat.
