(* ===== verification/ModCong.v ===== *)
(** * Congruence modulo a positive number

    The congruence [a ≡[q] b] that both lattice schemes compute with, as a setoid
    that the ring operations respect, and finite sums up to it. *)
From S2P Require Import Prelude.
From S2P Require Import ZSum.

Definition cong (q a b : Z) : Prop := exists k, a = b + k * q.
Notation "a ≡[ q ] b" := (cong q a b) (at level 70, no associativity, format "a  ≡[ q ]  b").

Class Modulus (q : Z) : Prop := modulus_pos : 0 < q.

#[export] Instance cong_equiv q : Equivalence (cong q).
Proof.
  split.
  - intros a. exists 0. lia.
  - intros a b [k ->]. exists (- k). lia.
  - intros a b c [k ->] [l ->]. exists (l + k). lia.
Qed.
#[export] Instance cong_add q : Proper (cong q ==> cong q ==> cong q) Z.add.
Proof. intros a a' [k ->] b b' [l ->]. exists (k + l). ring. Qed.
#[export] Instance cong_mul q : Proper (cong q ==> cong q ==> cong q) Z.mul.
Proof. intros a a' [k ->] b b' [l ->]. exists (k * b' + a' * l + k * l * q). ring. Qed.
#[export] Instance cong_opp q : Proper (cong q ==> cong q) Z.opp.
Proof. intros a a' [k ->]. exists (- k). ring. Qed.
#[export] Instance cong_sub q : Proper (cong q ==> cong q ==> cong q) Z.sub.
Proof. intros a a' [k ->] b b' [l ->]. exists (k - l). ring. Qed.

Lemma cong_of_eq {q} a b : a = b -> a ≡[q] b.
Proof. by intros ->. Qed.
(** Multiplication by a unit can be cancelled. *)
Lemma cong_cancel {q} u v a b : u * v ≡[q] 1 -> v * a ≡[q] v * b -> a ≡[q] b.
Proof.
  intros Hu Hv. rewrite <- (Z.mul_1_l a), <- (Z.mul_1_l b), <- Hu, <- !Z.mul_assoc. by rewrite Hv.
Qed.
Lemma cong_pow {q} r s n : 0 <= n -> r ≡[q] s -> r ^ n ≡[q] s ^ n.
Proof.
  intros Hn H. revert n Hn. apply natlike_ind; [done|]. intros n Hn IH. rewrite !Z.pow_succ_r by done.
  by rewrite IH, H.
Qed.
Lemma zsum_cong {q} f g n : (forall i, 0 <= i < Z.of_nat n -> f i ≡[q] g i) -> zsum f n ≡[q] zsum g n.
Proof.
  induction n as [|n IH]; [done|]. intros H. cbn [zsum]. rewrite (H (Z.of_nat n)), IH; [done| |lia].
  intros. apply H. lia.
Qed.

Section Remainders.
Context {q : Z} `{HM : !Modulus q}.

Lemma cong_iff_mod a b : a ≡[q] b <-> a mod q = b mod q.
Proof.
  unfold cong, Modulus in *. split.
  - intros [k ->]. rewrite Z.mod_add; lia.
  - intros H. exists (a / q - b / q). pose proof (Z.div_mod a q). pose proof (Z.div_mod b q). lia.
Qed.
Lemma cong_mod a : a mod q ≡[q] a.
Proof. apply cong_iff_mod. rewrite Z.mod_mod; unfold Modulus in *; lia. Qed.
Lemma cong_unique a r : 0 <= r < q -> r ≡[q] a -> r = a mod q.
Proof. intros ? <-%cong_iff_mod. by rewrite Z.mod_small. Qed.
Lemma cong_eq a b : 0 <= a < q -> 0 <= b < q -> a ≡[q] b -> a = b.
Proof. intros Ha Hb H. rewrite (cong_unique b a Ha H). by rewrite Z.mod_small. Qed.
Lemma mod_reduced a : 0 <= a mod q < q.
Proof. by apply Z.mod_pos_bound. Qed.

(** Decide a congruence between constants. *)
Definition congb (a b : Z) : bool := a mod q =? b mod q.
Lemma congb_spec a b : congb a b = true -> a ≡[q] b.
Proof. intros H%Z.eqb_eq. by apply cong_iff_mod. Qed.
End Remainders.

(** Two functions congruent on an initial segment. *)
Definition feqm (q n : Z) (f g : Z -> Z) : Prop := forall i, 0 <= i < n -> f i ≡[q] g i.
#[export] Instance feqm_equiv q n : Equivalence (feqm q n).
Proof.
  split.
  - intros f i _. reflexivity.
  - intros f g H i Hi. symmetry. by apply H.
  - intros f g h H H' i Hi. transitivity (g i); auto.
Qed.
