(* ===== verification/Transform.v ===== *)
(** * Number theoretic transforms

    The transform of size [N = 2^L] over [Z/q] as its rounds, for any table of
    twiddle factors.  The table is laid out as a tree: node 1 stands for [X^N + 1] and
    node [k] splits [X^2n - v] into [X^n - z] and [X^n + z] with [z = zt k] a square
    root of [v].  Under the hypotheses that the table is such a tree, that the leaves
    are the points [root i], and that [zi] are the inverses of [zt], the transform
    evaluates at the points, the inverse rounds undo it up to [N], and pointwise
    products are products modulo [X^N + 1]. *)
From stdpp Require Import sets.
From S2P Require Import Prelude.
From S2P Require Import ZSum.
From S2P Require Import ModCong.

(** [2^(n-1)], ..., [2], [1]. *)
Fixpoint offsets (n : nat) : list Z :=
  match n with O => [] | S n' => 2 ^ Z.of_nat n' :: offsets n' end.
Lemma offsets_spec n off : off ∈ offsets n -> exists t : nat, (t < n)%nat /\ off = 2 ^ Z.of_nat t.
Proof.
  induction n as [|n IH]; [by intros ?%not_elem_of_nil|]. intros [-> | H]%elem_of_cons; [by exists n; split; [lia|]|].
  destruct (IH H) as (t & ? & ->). exists t. split; [lia|done].
Qed.

(** A polynomial at a point, and the product modulo [X^n + 1]. *)
Definition evaln (n : nat) (f : Z -> Z) (r : Z) : Z := zsum (fun j => f j * r ^ j) n.
Definition negacyclicn (n : nat) (a b : Z -> Z) (k : Z) : Z :=
  zsum (fun i => a i * ((if i <=? k then 1 else -1) * b ((k - i) mod Z.of_nat n))) n.

Section Transform.
Context (q : Z) (L : nat) (zt : Z -> Z).
#[local] Abbreviation N := (2 ^ Z.of_nat L).
#[local] Infix "≡" := (cong q) (at level 70, no associativity).
#[local] Abbreviation feq := (feqm q N).

(** One round with blocks of [2 * off] coefficients. *)
Definition fwd_round (off : Z) (f : Z -> Z) (i : Z) : Z :=
  let z := zt (N / 2 / off + i / (2 * off)) in
  if i mod (2 * off) <? off then f i + z * f (i + off) else f (i - off) - z * f i.
Definition ntt_of (f : Z -> Z) : Z -> Z := foldl (fun f off => fwd_round off f) f (offsets L).
(** The value of [X^n] in the block that node [m] of the tree stands for. *)
Definition node_val (m : Z) : Z :=
  if m =? 1 then -1 else if m mod 2 =? 0 then zt (m / 2) else - zt (m / 2).

Lemma size_nat : Z.of_nat (2 ^ L) = N.
Proof. by rewrite Nat2Z.inj_pow. Qed.

(** ** Blocks *)

Lemma off_pos off : off ∈ offsets L -> 0 < off /\ 0 < N / 2 / off /\ N / 2 / off * (2 * off) = N.
Proof.
  intros (t & Ht & ->)%offsets_spec. assert (0 < 2 ^ Z.of_nat t) by (apply Z.pow_pos_nonneg; lia).
  assert (N = 2 ^ (Z.of_nat L - 1 - Z.of_nat t) * (2 * 2 ^ Z.of_nat t)) as E.
  { rewrite <- Z.pow_succ_r, <- Z.pow_add_r by lia. f_equal. lia. }
  assert (0 < 2 ^ (Z.of_nat L - 1 - Z.of_nat t)) by (apply Z.pow_pos_nonneg; lia).
  rewrite Z.div_div, E, Z.div_mul by lia. lia.
Qed.

(** The two halves of a block. *)
Lemma off_halves off i :
  off ∈ offsets L -> 0 <= i < N ->
  0 < off /\ 0 <= i / (2 * off) < N / 2 / off /\
  (i mod (2 * off) < off -> i + off < N /\ (i + off) / (2 * off) = i / (2 * off) /\
     (i + off) mod (2 * off) = i mod (2 * off) + off) /\
  (off <= i mod (2 * off) -> 0 <= i - off /\ (i - off) / (2 * off) = i / (2 * off) /\
     (i - off) mod (2 * off) = i mod (2 * off) - off).
Proof.
  intros Hoff Hi. destruct (off_pos off Hoff) as (Hp & Hs & E). pose proof (Z.div_mod i (2 * off) ltac:(lia)) as Hd.
  pose proof (Z.mod_pos_bound i (2 * off) ltac:(lia)) as Hm. set (b := i / (2 * off)) in *. set (m := i mod (2 * off)) in *.
  set (s := N / 2 / off) in *. assert (0 <= b < s) as Hb by (split; [apply Z.div_pos; lia|apply Z.div_lt_upper_bound; lia]).
  split_and!; [lia|lia|lia|..].
  - intros Hlt. split_and!; [nia|symmetry; apply (Z.div_unique _ _ _ (m + off)); lia|
      symmetry; apply (Z.mod_unique _ _ b); lia].
  - intros Hge. split_and!; [nia|symmetry; apply (Z.div_unique _ _ _ (m - off)); lia|
      symmetry; apply (Z.mod_unique _ _ b); lia].
Qed.

#[export] Instance fwd_proper off : off ∈ offsets L -> Proper (feq ==> feq) (fwd_round off).
Proof.
  intros Hoff f g H i Hi. destruct (off_halves off i Hoff Hi) as (? & _ & H1 & H2). unfold fwd_round.
  destruct (Z.ltb_spec (i mod (2 * off)) off) as [Hlt|Hge].
  - by rewrite (H i), (H (i + off)) by lia.
  - by rewrite (H i), (H (i - off)) by lia.
Qed.
Lemma fwd_linear off a b f g i :
  fwd_round off (fun j => a * f j + b * g j) i = a * fwd_round off f i + b * fwd_round off g i.
Proof. unfold fwd_round. destruct (_ <? _); ring. Qed.
Lemma fwd_foldl_proper l : l ⊆ offsets L -> Proper (feq ==> feq) (fun f => foldl (fun f off => fwd_round off f) f l).
Proof.
  induction l as [|off l IH]; intros Hin f g H; [done|]. cbn [foldl]. apply IH; [set_solver|].
  apply fwd_proper; [set_solver|done].
Qed.
#[export] Instance ntt_of_proper : Proper (feq ==> feq) ntt_of.
Proof. by apply fwd_foldl_proper. Qed.
Lemma ntt_of_linear a b f g : feq (ntt_of (fun j => a * f j + b * g j)) (fun j => a * ntt_of f j + b * ntt_of g j).
Proof.
  enough (forall l, l ⊆ offsets L -> forall f g h, feq h (fun j => a * f j + b * g j) ->
    feq (foldl (fun f off => fwd_round off f) h l)
      (fun j => a * foldl (fun f off => fwd_round off f) f l j + b * foldl (fun f off => fwd_round off f) g l j)) as H by (by apply H).
  induction l as [|off l IH]; intros Hin f' g' h Hh; cbn [foldl]; [done|]. apply IH; [set_solver|].
  rewrite (fwd_proper off ltac:(set_solver) _ _ Hh). intros i Hi. apply cong_of_eq, fwd_linear.
Qed.
Lemma ntt_of_scale c f : feq (ntt_of (fun j => c * f j)) (fun j => c * ntt_of f j).
Proof.
  transitivity (ntt_of (fun j => c * f j + 0 * f j)); [apply ntt_of_proper; intros i _; apply cong_of_eq; ring|].
  rewrite ntt_of_linear. intros i _. apply cong_of_eq. ring.
Qed.
(** ** Evaluation *)

Section Eval.
Context (root : Z -> Z).
Context (Hsq : forall k, 1 <= k < N -> zt k * zt k ≡ node_val k) (Hrv : forall i, 0 <= i < N -> root i ≡ node_val (N + i)).

Lemma val_square m : 2 <= m < 2 * N -> node_val m * node_val m ≡ node_val (m / 2).
Proof.
  intros Hm. rewrite <- (Hsq (m / 2)) by dlia. unfold node_val at 1 2. destruct (Z.eqb_spec m 1); [lia|].
  destruct (_ =? 0); apply cong_of_eq; ring.
Qed.
Lemma val_pow (t : nat) m : 2 ^ Z.of_nat t <= m < 2 * N -> node_val m ^ (2 ^ Z.of_nat t) ≡ node_val (m / 2 ^ Z.of_nat t).
Proof.
  induction t as [|t IH]; intros Hm; [by rewrite Z.pow_1_r, Z.div_1_r|].
  rewrite Nat2Z.inj_succ, Z.pow_succ_r in * by lia.
  rewrite (Z.mul_comm 2), Z.pow_mul_r, Z.pow_2_r by lia.
  pose proof (Z.pow_pos_nonneg 2 (Z.of_nat t) ltac:(lia) ltac:(lia)).
  assert (2 <= m / 2 ^ Z.of_nat t < 2 * N)
    by (split; [apply Z.div_le_lower_bound|apply Z.div_lt_upper_bound]; nia).
  rewrite IH by lia. rewrite val_square, Z.div_div by lia. done.
Qed.

(** At the points of a block, [X^off] is the twiddle factor with the sign of the half
    of the block the point lies in. *)
Lemma root_pow off i :
  off ∈ offsets L -> 0 <= i < N ->
  root i ^ off ≡ (if i mod (2 * off) <? off then 1 else -1) * zt (N / 2 / off + i / (2 * off)).
Proof.
  intros Hoff Hi. destruct (off_pos off Hoff) as (Hp & Hs & E). destruct (off_halves off i Hoff Hi) as (_ & Hb & _).
  destruct (offsets_spec _ _ Hoff) as (t & _ & Et). rewrite (cong_pow _ _ off (Z.lt_le_incl _ _ Hp) (Hrv i Hi)).
  rewrite Et, val_pow by (rewrite <- Et; nia). rewrite <- Et. clear Et t Hrv Hsq.
  pose proof (Z.mod_pos_bound i (2 * off) ltac:(lia)) as Hm. pose proof (Z.div_mod i (2 * off) ltac:(lia)) as Hd.
  set (s := N / 2 / off) in *. set (b := i / (2 * off)) in *. set (m := i mod (2 * off)) in *.
  assert ((N + i) / off = 2 * (s + b) + (if m <? off then 0 else 1)) as ->.
  { symmetry. apply (Z.div_unique _ _ _ (m - if m <? off then 0 else off)); destruct (Z.ltb_spec m off); nia. }
  clearbody s b m. unfold node_val. destruct (_ <? _).
  - destruct (Z.eqb_spec (2 * (s + b) + 0) 1); [lia|].
    replace ((2 * (s + b) + 0) mod 2) with 0 by dlia. replace ((2 * (s + b) + 0) / 2) with (s + b) by dlia.
    apply cong_of_eq. cbn [Z.eqb]. ring.
  - destruct (Z.eqb_spec (2 * (s + b) + 1) 1); [lia|].
    replace ((2 * (s + b) + 1) mod 2) with 1 by dlia. replace ((2 * (s + b) + 1) / 2) with (s + b) by dlia.
    apply cong_of_eq. cbn [Z.eqb]. ring.
Qed.
Lemma root_size i j : 0 <= i < N -> 0 <= j -> root i ^ (N + j) ≡ - root i ^ j.
Proof.
  intros Hi Hj. assert (root i ^ N ≡ -1) as H.
  { rewrite (cong_pow _ _ N ltac:(lia) (Hrv i Hi)), val_pow by lia.
    replace ((N + i) / N) with 1 by (apply (Z.div_unique _ _ _ i); lia). done. }
  rewrite Z.pow_add_r, H by lia. apply cong_of_eq. ring.
Qed.

(** The block of [n] coefficients at [base], as a polynomial, at the point [r]. *)
Definition block_eval (f : Z -> Z) (base n r : Z) : Z := zsum (fun j => f (base + j) * r ^ j) (Z.to_nat n).

(** A round halves the blocks and keeps their values at the points below them. *)
Lemma fwd_peval off f i :
  off ∈ offsets L -> 0 <= i < N ->
  block_eval (fwd_round off f) (off * (i / off)) off (root i) ≡ block_eval f (2 * off * (i / (2 * off))) (2 * off) (root i).
Proof.
  intros Hoff Hi. destruct (off_halves _ i Hoff Hi) as (Hp & Hb & _). pose proof (root_pow off i Hoff Hi) as Hr.
  unfold block_eval. replace (Z.to_nat (2 * off)) with (Z.to_nat off + Z.to_nat off)%nat by lia.
  rewrite zsum_split. set (b := i / (2 * off)) in *. set (z := zt (N / 2 / off + b)) in *. set (r := root i) in *.
  pose proof (Z.mod_pos_bound i (2 * off) ltac:(lia)). pose proof (Z.div_mod i (2 * off) ltac:(lia)) as Hdm.
  fold b in Hdm.
  assert (i / off = 2 * b + (if i mod (2 * off) <? off then 0 else 1)) as ->.
  { symmetry. apply (Z.div_unique _ _ _ (i mod (2 * off) - if i mod (2 * off) <? off then 0 else off));
      destruct (Z.ltb_spec (i mod (2 * off)) off); nia. }
  set (c := if i mod (2 * off) <? off then 1 else -1) in *.
  rewrite (zsum_ext (fun j => f (2 * off * b + (Z.of_nat (Z.to_nat off) + j)) * r ^ (Z.of_nat (Z.to_nat off) + j))
    (fun j => r ^ off * (f (2 * off * b + off + j) * r ^ j))).
  2: { intros j Hj. rewrite Z2Nat.id, Z.pow_add_r by lia. rewrite Z.add_assoc. ring. }
  rewrite zsum_scale, Hr, <- zsum_scale, <- zsum_add. apply zsum_cong. intros j Hj. rewrite Z2Nat.id in Hj by lia.
  apply cong_of_eq. unfold fwd_round, c. destruct (_ <? _).
  - replace (off * (2 * b + 0) + j) with (2 * off * b + j) by ring.
    replace ((2 * off * b + j) / (2 * off)) with b by (apply (Z.div_unique _ _ _ j); lia).
    replace ((2 * off * b + j) mod (2 * off)) with j by (apply (Z.mod_unique _ _ b); lia).
    destruct (Z.ltb_spec j off); [|lia]. fold z. replace (2 * off * b + off + j) with (2 * off * b + j + off) by ring.
    ring.
  - replace (off * (2 * b + 1) + j) with (2 * off * b + off + j) by ring.
    replace ((2 * off * b + off + j) / (2 * off)) with b by (apply (Z.div_unique _ _ _ (off + j)); lia).
    replace ((2 * off * b + off + j) mod (2 * off)) with (off + j) by (apply (Z.mod_unique _ _ b); lia).
    destruct (Z.ltb_spec (off + j) off); [lia|]. fold z. replace (2 * off * b + off + j - off) with (2 * off * b + j) by ring.
    ring.
Qed.

Lemma ntt_of_eval f i : 0 <= i < N -> ntt_of f i ≡ evaln (2 ^ L) f (root i).
Proof.
  intros Hi. enough (forall n, (n <= L)%nat -> forall g,
    foldl (fun f off => fwd_round off f) g (offsets n) i ≡ block_eval g (2 ^ Z.of_nat n * (i / 2 ^ Z.of_nat n)) (2 ^ Z.of_nat n) (root i)) as H.
  { unfold ntt_of. rewrite (H L ltac:(lia)). unfold block_eval, evaln. rewrite Z.div_small, Z.mul_0_r by lia.
    replace (Z.to_nat N) with (2 ^ L)%nat by (pose proof size_nat; lia). apply cong_of_eq, zsum_ext. intros. by rewrite Z.add_0_l. }
  induction n as [|n IH]; intros Hn g; cbn [offsets foldl].
  - unfold block_eval. change (2 ^ Z.of_nat 0) with 1. rewrite Z.div_1_r, Z.mul_1_l. change (Z.to_nat 1) with 1%nat. cbn [zsum].
    change (Z.of_nat 0) with 0. rewrite Z.pow_0_r, Z.add_0_r. apply cong_of_eq. ring.
  - rewrite IH by lia. rewrite fwd_peval.
    + rewrite Nat2Z.inj_succ, Z.pow_succ_r by lia. done.
    + clear -Hn. induction L as [|m IHm]; [lia|]. cbn [offsets]. destruct (Nat.eq_dec n m) as [-> |]; [by left|right; apply IHm; lia].
    + done.
Qed.
End Eval.

(** ** Multiplication modulo [X^N + 1] *)

(** Multiplying by [X^i] rotates the coefficients with a change of sign. *)
Lemma eval_rotate b r i :
  (forall j, 0 <= j -> r ^ (N + j) ≡ - r ^ j) -> 0 <= i < N ->
  zsum (fun k => (if i <=? k then 1 else -1) * b ((k - i) mod N) * r ^ k) (2 ^ L) ≡ r ^ i * evaln (2 ^ L) b r.
Proof.
  intros Hr Hi. unfold evaln.
  assert (exists n m, Z.of_nat n = i /\ Z.of_nat m = N - i /\ (n + m = 2 ^ L)%nat) as (n & m & Hn & Hm & Hs)
    by (exists (Z.to_nat i), (Z.to_nat (N - i)); pose proof size_nat; lia).
  rewrite <- Hs, zsum_split, (Nat.add_comm n m), zsum_split, Z.mul_add_distr_l, <- !zsum_scale.
  rewrite (Z.add_comm (zsum _ n)).
  apply cong_add; apply zsum_cong; intros j Hj; cbv beta.
  - rewrite Hn. destruct (Z.leb_spec i (i + j)); [|lia].
    replace (i + j - i) with j by lia. rewrite Z.mod_small, Z.pow_add_r by lia. apply cong_of_eq. ring.
  - rewrite Hm. destruct (Z.leb_spec i j); [lia|].
    replace ((j - i) mod N) with (N - i + j) by (apply (Z.mod_unique _ _ (-1)); lia).
    transitivity (b (N - i + j) * r ^ (N + j)); [rewrite Hr by lia; apply cong_of_eq; ring|]. apply cong_of_eq.
    replace (N + j) with (i + (N - i + j)) by lia. rewrite Z.pow_add_r by lia. ring.
Qed.
Lemma eval_negacyclic a b r :
  (forall j, 0 <= j -> r ^ (N + j) ≡ - r ^ j) ->
  evaln (2 ^ L) (negacyclicn (2 ^ L) a b) r ≡ evaln (2 ^ L) a r * evaln (2 ^ L) b r.
Proof.
  intros Hr. pose proof size_nat as HN. unfold evaln at 1, negacyclicn.
  rewrite (zsum_ext _ (fun k => zsum (fun i => a i * ((if i <=? k then 1 else -1) * b ((k - i) mod N) * r ^ k)) (2 ^ L))).
  2: { intros k Hk. rewrite Z.mul_comm, <- zsum_scale, HN. apply zsum_ext. intros. ring. }
  rewrite zsum_swap. transitivity (zsum (fun i => a i * (r ^ i * evaln (2 ^ L) b r)) (2 ^ L)).
  - apply zsum_cong. intros i Hi. rewrite zsum_scale. by rewrite eval_rotate by (done || lia).
  - generalize (evaln (2 ^ L) b r). intros e. unfold evaln. rewrite Z.mul_comm, <- zsum_scale. apply cong_of_eq, zsum_ext. intros. ring.
Qed.
End Transform.

(** ** The inverse rounds *)

Section Backward.
Context (q : Z) (L : nat) (zi : Z -> Z -> Z).
#[local] Abbreviation N := (2 ^ Z.of_nat L).
#[local] Infix "≡" := (cong q) (at level 70, no associativity).
#[local] Abbreviation feq := (feqm q N).

(** One round backward. *)
Definition inv_round (off : Z) (g : Z -> Z) (i : Z) : Z :=
  let z := zi off (i / (2 * off)) in
  if i mod (2 * off) <? off then g i + g (i + off) else z * (g (i - off) - g i).

(** The inverse rounds, without the final scaling. *)
Definition intt_of (g : Z -> Z) : Z -> Z := foldr inv_round g (offsets L).

#[export] Instance inv_proper off : off ∈ offsets L -> Proper (feq ==> feq) (inv_round off).
Proof.
  intros Hoff f g H i Hi. destruct (off_halves L off i Hoff Hi) as (? & _ & H1 & H2). unfold inv_round.
  destruct (Z.ltb_spec (i mod (2 * off)) off) as [Hlt|Hge].
  - by rewrite (H i), (H (i + off)) by lia.
  - by rewrite (H i), (H (i - off)) by lia.
Qed.
Lemma inv_linear off a b f g i :
  inv_round off (fun j => a * f j + b * g j) i = a * inv_round off f i + b * inv_round off g i.
Proof. unfold inv_round. destruct (_ <? _); ring. Qed.

Lemma inv_foldr_proper l : l ⊆ offsets L -> Proper (feq ==> feq) (fun g => foldr inv_round g l).
Proof.
  induction l as [|off l IH]; intros Hin f g H; [done|]. cbn [foldr]. apply inv_proper; [set_solver|].
  apply IH; [set_solver|done].
Qed.
#[export] Instance intt_of_proper : Proper (feq ==> feq) intt_of.
Proof. by apply inv_foldr_proper. Qed.

Lemma intt_of_linear a b f g : feq (intt_of (fun j => a * f j + b * g j)) (fun j => a * intt_of f j + b * intt_of g j).
Proof.
  enough (forall l, l ⊆ offsets L -> feq (foldr inv_round (fun j => a * f j + b * g j) l)
    (fun j => a * foldr inv_round f l j + b * foldr inv_round g l j)) as H by (by apply H).
  induction l as [|off l IH]; intros Hin; cbn [foldr]; [done|].
  rewrite (inv_proper off ltac:(set_solver) _ _ (IH ltac:(set_solver))). intros i Hi. apply cong_of_eq, inv_linear.
Qed.
Lemma intt_of_scale c f : feq (intt_of (fun j => c * f j)) (fun j => c * intt_of f j).
Proof.
  transitivity (intt_of (fun j => c * f j + 0 * f j)); [apply intt_of_proper; intros i _; apply cong_of_eq; ring|].
  rewrite intt_of_linear. intros i _. apply cong_of_eq. ring.
Qed.

Section Inverse.
Context (zt : Z -> Z).
Context (Hinv : forall off b, off ∈ offsets L -> 0 <= b < N / 2 / off -> zi off b * zt (N / 2 / off + b) ≡ 1).

Lemma inv_fwd off f : off ∈ offsets L -> feq (inv_round off (fwd_round L zt off f)) (fun i => 2 * f i).
Proof.
  intros Hoff i Hi. destruct (off_halves L off i Hoff Hi) as (? & Hb & H1 & H2).
  pose proof (Hinv off _ Hoff Hb) as Hz. unfold inv_round, fwd_round.
  destruct (Z.ltb_spec (i mod (2 * off)) off) as [Hlt|Hge].
  - destruct H1 as (_ & -> & ->); [done|]. destruct (Z.ltb_spec (i mod (2 * off) + off) off).
    { pose proof (Z.mod_pos_bound i (2 * off)). lia. }
    replace (i + off - off) with i by lia. apply cong_of_eq. ring.
  - destruct H2 as (_ & -> & ->); [done|]. pose proof (Z.mod_pos_bound i (2 * off)).
    destruct (Z.ltb_spec (i mod (2 * off) - off) off); [|lia].
    replace (i - off + off) with i by lia.
    set (z := zt (N / 2 / off + i / (2 * off))) in *. set (z' := zi _ _) in *.
    replace (z' * (f (i - off) + z * f i - (f (i - off) - z * f i))) with (z' * z * (2 * f i)) by ring.
    rewrite Hz. apply cong_of_eq. ring.
Qed.
Lemma fwd_inv off g : off ∈ offsets L -> feq (fwd_round L zt off (inv_round off g)) (fun i => 2 * g i).
Proof.
  intros Hoff i Hi. destruct (off_halves L off i Hoff Hi) as (? & Hb & H1 & H2).
  pose proof (Hinv off _ Hoff Hb) as Hz. unfold inv_round, fwd_round.
  set (z := zt (N / 2 / off + i / (2 * off))) in *. set (z' := zi _ _) in *.
  destruct (Z.ltb_spec (i mod (2 * off)) off) as [Hlt|Hge].
  - destruct H1 as (_ & -> & ->); [done|]. fold z'. destruct (Z.ltb_spec (i mod (2 * off) + off) off).
    { pose proof (Z.mod_pos_bound i (2 * off)). lia. }
    replace (i + off - off) with i by lia.
    replace (g i + g (i + off) + z * (z' * (g i - g (i + off))))
      with (g i + g (i + off) + z' * z * (g i - g (i + off))) by ring.
    rewrite Hz. apply cong_of_eq. ring.
  - destruct H2 as (_ & -> & ->); [done|]. pose proof (Z.mod_pos_bound i (2 * off)).
    destruct (Z.ltb_spec (i mod (2 * off) - off) off); [|lia].
    replace (i - off + off) with i by lia.
    replace (g (i - off) + g i - z * (z' * (g (i - off) - g i)))
      with (g (i - off) + g i - z' * z * (g (i - off) - g i)) by ring.
    rewrite Hz. apply cong_of_eq. ring.
Qed.

Lemma intt_of_ntt_of f : feq (intt_of (ntt_of L zt f)) (fun i => N * f i).
Proof.
  assert (Z.of_nat (length (offsets L)) = Z.of_nat L) as Hlen by (clear; induction L; simpl; lia).
  enough (forall l, l ⊆ offsets L -> forall f,
    feq (foldr inv_round (foldl (fun f off => fwd_round L zt off f) f l) l) (fun i => 2 ^ Z.of_nat (length l) * f i)) as H.
  { intros i Hi. rewrite <- Hlen. by apply (H (offsets L)). }
  induction l as [|off l IH]; intros Hin h; cbn [foldl foldr];
    [intros i _; change (2 ^ Z.of_nat _) with 1; apply cong_of_eq; ring|].
  assert (off ∈ offsets L) as Hoff by set_solver.
  rewrite (inv_proper off Hoff _ _ (IH ltac:(set_solver) (fwd_round L zt off h))).
  intros i Hi. cbn [length]. rewrite Nat2Z.inj_succ, Z.pow_succ_r by lia.
  set (c := 2 ^ Z.of_nat (length l)).
  transitivity (inv_round off (fun j => c * fwd_round L zt off h j + 0 * fwd_round L zt off h j) i).
  - apply inv_proper; [done| |done]. intros j _. apply cong_of_eq. ring.
  - rewrite inv_linear, (inv_fwd off h Hoff i Hi). apply cong_of_eq. ring.
Qed.
Lemma ntt_of_intt_of g : feq (ntt_of L zt (intt_of g)) (fun i => N * g i).
Proof.
  assert (Z.of_nat (length (offsets L)) = Z.of_nat L) as Hlen by (clear; induction L; simpl; lia).
  enough (forall l, l ⊆ offsets L -> forall c,
    feq (foldl (fun f off => fwd_round L zt off f) (fun i => c * foldr inv_round g l i) l)
      (fun i => c * 2 ^ Z.of_nat (length l) * g i)) as H.
  { transitivity (ntt_of L zt (fun i => 1 * intt_of g i)); [apply (ntt_of_proper q L zt); intros i _; apply cong_of_eq; ring|].
    intros i Hi. rewrite (H (offsets L) ltac:(done) 1 i Hi), Hlen. apply cong_of_eq. ring. }
  induction l as [|off l IH]; intros Hin c; cbn [foldl foldr];
    [intros i _; change (2 ^ Z.of_nat _) with 1; apply cong_of_eq; ring|].
  assert (off ∈ offsets L) as Hoff by set_solver.
  assert (l ⊆ offsets L) as Hin' by set_solver.
  transitivity (foldl (fun f off => fwd_round L zt off f) (fun i => 2 * c * foldr inv_round g l i) l).
  - apply (fwd_foldl_proper q L zt); [done|]. intros i Hi.
    transitivity (fwd_round L zt off (fun j => c * inv_round off (foldr inv_round g l) j + 0 * inv_round off (foldr inv_round g l) j) i).
    + apply (fwd_proper q L zt); [done| |done]. intros j _. apply cong_of_eq. ring.
    + rewrite fwd_linear, (fwd_inv off _ Hoff i Hi). apply cong_of_eq. ring.
  - rewrite (IH Hin'). intros i _. cbn [length]. rewrite Nat2Z.inj_succ, Z.pow_succ_r by lia. apply cong_of_eq. ring.
Qed.
End Inverse.

End Backward.
