(* ===== verification/NttPass.v ===== *)
(** * Rounds of a number theoretic transform

    The loops over blocks of coefficients that the transforms of the lattice schemes
    share, and what one round leaves at every index of the array. *)
From S2P Require Import Prelude.
From S2P Require Import ZSum.

(** A polynomial: 256 coefficients ([struct poly_st] of ML-DSA,
    [struct ossl_ml_kem_scalar_st] of ML-KEM). *)
Abbreviation POLY := (list Z).

Definition on_pair (f : Z -> Z -> Z * Z) (offset j : Z) (p : POLY) : POLY :=
  let '(x, y) := f (coeff p j) (coeff p (j + offset)) in
  set_coeff (set_coeff p j x) (j + offset) y.

(** [for (i = 0; i < step; i++) { for (j = k; j < k + offset; j++) ...; k += 2 * offset; }] *)
Definition ntt_pass (f : Z -> Z -> Z -> Z * Z) (step offset : Z) (p : POLY) : POLY :=
  (for_each (Z.to_nat step) 0
     (fun i '(k, p) => (k + 2 * offset, for_each (Z.to_nat offset) k (on_pair (f i) offset) p))
     (0, p)).2.

(** ** The loops compute a round *)

Section Pass.
Context (p : POLY) (off : Z) (Hoff : 0 < off).

(** What a round leaves at index [x]. *)
Definition pass_val (f : Z -> Z -> Z -> Z * Z) (x : Z) : Z :=
  let b := x / (2 * off) in
  if x mod (2 * off) <? off then (f b (coeff p x) (coeff p (x + off))).1
  else (f b (coeff p (x - off)) (coeff p x)).2.

Lemma pair_loop (g : Z -> Z -> Z * Z) k t :
  0 <= k -> k + 2 * off <= zlen t ->
  let t' := for_each (Z.to_nat off) k (on_pair g off) t in
  zlen t' = zlen t /\
  forall x, 0 <= x -> coeff t' x =
    if (k <=? x) && (x <? k + off) then (g (coeff t x) (coeff t (x + off))).1
    else if (k + off <=? x) && (x <? k + 2 * off) then (g (coeff t (x - off)) (coeff t x)).2
    else coeff t x.
Proof.
  intros Hk Hl. cbv zeta.
  set (P := fun j t' => zlen t' = zlen t /\ forall x, 0 <= x -> coeff t' x =
    if (k <=? x) && (x <? j) then (g (coeff t x) (coeff t (x + off))).1
    else if (k + off <=? x) && (x <? j + off) then (g (coeff t (x - off)) (coeff t x)).2
    else coeff t x).
  pose proof (for_each_inv P (Z.to_nat off) k (on_pair g off) t) as Hinv.
  replace (k + Z.of_nat (Z.to_nat off)) with (k + off) in Hinv by lia.
  replace (k + 2 * off) with (k + off + off) by lia. apply Hinv; clear Hinv.
  - split; [done|]. intros x Hx. destruct (Z.leb_spec k x), (Z.ltb_spec x k); try lia; cbn [andb];
      destruct (Z.leb_spec (k + off) x), (Z.ltb_spec x (k + off)); try lia; done.
  - intros j t' Hj [Hl' Ht']. unfold on_pair. rewrite (Ht' j), (Ht' (j + off)) by lia.
    destruct (Z.leb_spec k j), (Z.ltb_spec j j); try lia. destruct (Z.leb_spec (k + off) j); [lia|].
    destruct (Z.leb_spec k (j + off)), (Z.ltb_spec (j + off) j); try lia.
    destruct (Z.leb_spec (k + off) (j + off)), (Z.ltb_spec (j + off) (j + off)); try lia. cbn [andb].
    destruct (g (coeff t j) (coeff t (j + off))) as [u v] eqn:Eg.
    split; [by rewrite !zlen_set_coeff|]. intros x Hx.
    rewrite !coeff_set by (rewrite ?zlen_set_coeff; lia). destruct (Z.eqb_spec x (j + off)) as [->|].
    + replace (j + off - off) with j by lia. rewrite Eg.
      destruct (Z.leb_spec k (j + off)), (Z.ltb_spec (j + off) (j + 1)),
        (Z.leb_spec (k + off) (j + off)), (Z.ltb_spec (j + off) (j + 1 + off)); try lia; done.
    + destruct (Z.eqb_spec x j) as [->|].
      * rewrite Eg. destruct (Z.leb_spec k j), (Z.ltb_spec j (j + 1)); try lia. done.
      * rewrite Ht' by done.
        destruct (Z.leb_spec k x), (Z.ltb_spec x j), (Z.ltb_spec x (j + 1)); try lia; cbn [andb]; try done;
          destruct (Z.leb_spec (k + off) x), (Z.ltb_spec x (j + off)), (Z.ltb_spec x (j + 1 + off));
          try lia; done.
Qed.

Lemma pass_spec f step :
  0 <= step -> step * (2 * off) <= zlen p ->
  zlen (ntt_pass f step off p) = zlen p /\
  forall x, 0 <= x < step * (2 * off) -> coeff (ntt_pass f step off p) x = pass_val f x.
Proof.
  intros Hs Hl. unfold ntt_pass.
  set (P := fun i (s : Z * POLY) => s.1 = i * (2 * off) /\ zlen s.2 = zlen p /\
    forall x, 0 <= x -> coeff s.2 x = if x <? s.1 then pass_val f x else coeff p x).
  match goal with |- context [for_each ?n ?i ?b ?s] =>
    assert (P (0 + Z.of_nat (Z.to_nat step)) (for_each n i b s)) as (Hk & Hlt & Ht) end.
  2: { split; [done|]. intros x Hx. rewrite Ht, Hk by lia. rewrite (proj2 (Z.ltb_lt _ _)) by lia; done. }
  apply for_each_inv.
  - split; [done|]. split; [done|]. intros x Hx. cbn [fst snd]. destruct (Z.ltb_spec x 0); [lia|done].
  - intros i [k' t'] Hi (Hk' & Hlt & Ht). cbn [fst snd] in *. subst k'. split; [cbn [fst]; lia|]. cbn [fst snd].
    destruct (pair_loop (f i) (i * (2 * off)) t') as [Hl' Hc]; [lia|nia|].
    split; [by rewrite Hl'|]. intros x Hx. rewrite Hc by done. unfold pass_val.
    assert (i * (2 * off) <= x < i * (2 * off) + 2 * off -> x / (2 * off) = i) as Hdiv
      by (intros; symmetry; apply (Z.div_unique _ _ _ (x - i * (2 * off))); lia).
    assert (i * (2 * off) <= x < i * (2 * off) + 2 * off -> x mod (2 * off) = x - i * (2 * off)) as Hmod
      by (intros; rewrite Z.mod_eq, Hdiv; lia).
    rewrite !Ht by lia. destruct (Z.leb_spec (i * (2 * off)) x), (Z.ltb_spec x (i * (2 * off) + off)); cbn [andb].
    + rewrite Hdiv, Hmod by lia. destruct (Z.ltb_spec x (i * (2 * off))); [lia|].
      destruct (Z.ltb_spec (x + off) (i * (2 * off))), (Z.ltb_spec x (i * (2 * off) + 2 * off)),
        (Z.ltb_spec (x - i * (2 * off)) off); try lia; done.
    + destruct (Z.leb_spec (i * (2 * off) + off) x), (Z.ltb_spec x (i * (2 * off) + 2 * off)); try lia; cbn [andb].
      * rewrite Ht by lia. rewrite Hdiv, Hmod by lia.
        destruct (Z.ltb_spec (x - off) (i * (2 * off))), (Z.ltb_spec (x - i * (2 * off)) off),
          (Z.ltb_spec x (i * (2 * off))); try lia; done.
      * destruct (Z.ltb_spec x (i * (2 * off))); [lia|done].
    + destruct (Z.leb_spec (i * (2 * off) + off) x); [lia|]. cbn [andb].
      destruct (Z.ltb_spec x (i * (2 * off))), (Z.ltb_spec x (i * (2 * off) + 2 * off)); try lia; done.
    + lia.
Qed.
End Pass.

(** ** Checking a table *)

Definition all_below (n : nat) (P : Z -> bool) : bool := forallb (fun i => P (Z.of_nat i)) (seq 0 n).
Lemma all_below_spec n P i : all_below n P = true -> 0 <= i < Z.of_nat n -> P i = true.
Proof.
  unfold all_below. rewrite forallb_forall. intros H Hi. specialize (H (Z.to_nat i)).
  rewrite Z2Nat.id in H by lia. apply H, in_seq. lia.
Qed.

