(* ===== verification/MlDsaField.v ===== *)
(** * ML-DSA: arithmetic modulo q

    Model of the inline functions of [crypto/ml_dsa/ml_dsa_local.h] and of
    [reduce_montgomery] of [crypto/ml_dsa/ml_dsa_ntt.c].  Coefficients are 32-bit
    unsigned values kept in [0, q); the theorems relate the branch-free and
    Montgomery forms to arithmetic modulo [q], stated with the congruence
    [a ≡q b], which is a setoid. *)
From S2P Require Import Prelude.
From S2P Require Import ConstantTime.
From S2P Require Import ZSum.
From S2P Require Import ModCong.

Definition ML_DSA_Q : Z := 8380417.
Definition ML_DSA_Q_MINUS1_DIV2 : Z := (ML_DSA_Q - 1) / 2.
Definition ML_DSA_Q_NEG_INV : Z := 4236238847.
Definition ML_DSA_D_BITS : Z := 13.
Definition ML_DSA_NUM_POLY_COEFFICIENTS : Z := 256.
Definition ML_DSA_GAMMA1_TWO_POWER_19 : Z := Z.shiftl 1 19.
Definition ML_DSA_GAMMA1_TWO_POWER_17 : Z := Z.shiftl 1 17.
Definition ML_DSA_GAMMA2_Q_MINUS1_DIV32 : Z := (ML_DSA_Q - 1) / 32.
Definition ML_DSA_GAMMA2_Q_MINUS1_DIV88 : Z := (ML_DSA_Q - 1) / 88.
Definition ML_DSA_ETA_4 : Z := 4.
Definition ML_DSA_ETA_2 : Z := 2.

Definition reduce_once (x : Z) : Z :=
  constant_time_select_32 (constant_time_lt_32 x ML_DSA_Q) x (u32 (x - ML_DSA_Q)).

Definition mod_sub (a b : Z) : Z := reduce_once (u32 (ML_DSA_Q + a - b)).

Definition abs_signed (x : Z) : Z :=
  constant_time_select_32 (constant_time_lt_32 x 0x80000000) x (u32 (0 - x)).

Definition abs_mod_prime (x : Z) : Z :=
  constant_time_select_32 (constant_time_lt_32 ML_DSA_Q_MINUS1_DIV2 x) (u32 (ML_DSA_Q - x)) x.

Definition maximum (x y : Z) : Z :=
  u32 (constant_time_select_int (constant_time_lt x y) y x).

Definition reduce_montgomery (a : Z) : Z :=
  let t := u32 (u32 a * ML_DSA_Q_NEG_INV) in
  let b := u64 (a + u64 (t * ML_DSA_Q)) in
  let c := u32 (Z.shiftr b 32) in
  reduce_once c.

(** ** The congruence modulo [q] *)

Declare Scope mldsa_scope.
Infix "≡q" := (cong ML_DSA_Q) (at level 70, no associativity) : mldsa_scope.
#[global] Open Scope mldsa_scope.
#[export] Instance ML_DSA_Q_modulus : Modulus ML_DSA_Q.
Proof. done. Qed.

(** A reduced coefficient, and the signed representative of a coefficient. *)
Definition coeff_ok (x : Z) : Prop := 0 <= x < ML_DSA_Q.
Definition centered (x : Z) : Z := if x <=? ML_DSA_Q_MINUS1_DIV2 then x else x - ML_DSA_Q.

(** Prove a congruence by giving its multiple of [q]. *)
Ltac cong_by k := exists k; unfold ML_DSA_Q; try ring.

Lemma coeff_mod a : coeff_ok (a mod ML_DSA_Q).
Proof. apply Z.mod_pos_bound. done. Qed.

(** ** The reductions *)

Lemma reduce_once_spec x :
  0 <= x < 4294967296 -> reduce_once x = if x <? ML_DSA_Q then x else x - ML_DSA_Q.
Proof.
  intros Hx. unfold reduce_once. pose proof (u32_range (x - ML_DSA_Q)).
  rewrite constant_time_lt_32_spec by (unfold ML_DSA_Q; lia).
  rewrite constant_time_select_32_spec by lia.
  destruct (Z.ltb_spec x ML_DSA_Q); [done|]. apply u32_small. unfold ML_DSA_Q in *. lia.
Qed.

Lemma reduce_once_ok x : 0 <= x < 2 * ML_DSA_Q -> coeff_ok (reduce_once x) /\ reduce_once x ≡q x.
Proof.
  intros Hx. unfold ML_DSA_Q in Hx. rewrite reduce_once_spec by lia. unfold coeff_ok.
  destruct (Z.ltb_spec x ML_DSA_Q); unfold ML_DSA_Q in *; split; try lia; [done|].
  cong_by (-1).
Qed.

Lemma mod_sub_ok a b :
  coeff_ok a -> 0 <= b <= ML_DSA_Q -> coeff_ok (mod_sub a b) /\ mod_sub a b ≡q a - b.
Proof.
  unfold coeff_ok, ML_DSA_Q. intros Ha Hb. unfold mod_sub.
  rewrite u32_small by (unfold ML_DSA_Q; lia).
  destruct (reduce_once_ok (ML_DSA_Q + a - b)) as [Hr Hc]; [unfold ML_DSA_Q; lia|].
  split; [exact Hr|]. rewrite Hc. cong_by 1.
Qed.

(** The sum and difference of reduced values, as the polynomial code forms them. *)
Lemma coeff_add_ok a b :
  coeff_ok a -> coeff_ok b -> coeff_ok (reduce_once (u32 (a + b))) /\ reduce_once (u32 (a + b)) ≡q a + b.
Proof.
  unfold coeff_ok. intros Ha Hb. rewrite u32_small by (unfold ML_DSA_Q in *; lia).
  apply reduce_once_ok. unfold ML_DSA_Q in *. lia.
Qed.
Lemma coeff_sub_ok a b :
  coeff_ok a -> coeff_ok b -> coeff_ok (mod_sub a b) /\ mod_sub a b ≡q a - b.
Proof. intros Ha Hb. apply mod_sub_ok; [done|]. unfold coeff_ok in Hb. lia. Qed.

Lemma abs_mod_prime_spec x : coeff_ok x -> abs_mod_prime x = Z.abs (centered x).
Proof.
  unfold coeff_ok, abs_mod_prime, centered. intros Hx.
  change ML_DSA_Q_MINUS1_DIV2 with 4190208. unfold ML_DSA_Q in *.
  rewrite constant_time_lt_32_spec by lia. rewrite (u32_small (8380417 - x)) by lia.
  rewrite constant_time_select_32_spec by lia.
  destruct (Z.ltb_spec 4190208 x), (Z.leb_spec x 4190208); lia.
Qed.

(** A value of type [int32_t] stored in a [uint32_t]. *)
Lemma abs_signed_spec x : -2147483648 < x < 2147483648 -> abs_signed (u32 x) = Z.abs x.
Proof.
  intros Hx. unfold abs_signed. pose proof (u32_range x). pose proof (u32_range (0 - u32 x)).
  rewrite constant_time_lt_32_spec by lia. rewrite constant_time_select_32_spec by lia.
  destruct (Z.ltb_spec (u32 x) 2147483648); cint.
Qed.

Lemma maximum_spec x y : 0 <= x < 4294967296 -> 0 <= y < 4294967296 -> maximum x y = Z.max x y.
Proof.
  intros Hx Hy. unfold maximum. rewrite constant_time_lt_spec by lia.
  rewrite constant_time_select_int_spec by lia. destruct (Z.ltb_spec x y); lia.
Qed.

Lemma centered_cong x : centered x ≡q x.
Proof. unfold centered. destruct (_ <=? _); [done|]. cong_by (-1). Qed.
Lemma centered_range x : coeff_ok x -> - ML_DSA_Q_MINUS1_DIV2 <= centered x <= ML_DSA_Q_MINUS1_DIV2.
Proof.
  unfold coeff_ok, centered. change ML_DSA_Q_MINUS1_DIV2 with 4190208. unfold ML_DSA_Q.
  destruct (Z.leb_spec x 4190208); lia.
Qed.
Lemma centered_unique x y :
  coeff_ok x -> - ML_DSA_Q_MINUS1_DIV2 <= y <= ML_DSA_Q_MINUS1_DIV2 -> y ≡q x -> centered x = y.
Proof.
  intros Hx Hy Hc. pose proof (centered_range x Hx). rewrite <- (centered_cong x) in Hc.
  destruct Hc as [k Hk]. revert Hk Hy H. change ML_DSA_Q_MINUS1_DIV2 with 4190208.
  unfold ML_DSA_Q. lia.
Qed.
#[export] Hint Resolve coeff_mod : cint.

(** ** Montgomery reduction *)

(** [2^-32] modulo [q]. *)
Definition R_INV : Z := 8265825.
Lemma R_INV_unit : R_INV * 2 ^ 32 ≡q 1.
Proof. by apply cong_iff_mod. Qed.

Lemma u32_cong x : (u32 x - x) mod 4294967296 = 0.
Proof. unfold u32. rewrite Zminus_mod, Z.mod_mod, Z.sub_diag by lia. done. Qed.

Lemma reduce_montgomery_ok a :
  0 <= a < 2 ^ 32 * ML_DSA_Q -> coeff_ok (reduce_montgomery a) /\ reduce_montgomery a ≡q a * R_INV.
Proof.
  intros Ha. unfold reduce_montgomery. set (t := u32 (u32 a * ML_DSA_Q_NEG_INV)).
  assert (0 <= t < 4294967296) as Ht by apply u32_range. change (2 ^ 32) with 4294967296 in Ha.
  rewrite (u64_small (t * ML_DSA_Q)), (u64_small (a + _)) by (unfold ML_DSA_Q in *; lia).
  assert ((a + t * ML_DSA_Q) mod 4294967296 = 0) as Hdiv.
  { unfold t, u32. rewrite Z.mul_mod_idemp_l by lia.
    rewrite <- Z.add_mod_idemp_r, Z.mul_mod_idemp_l, Z.add_mod_idemp_r by lia.
    replace (a + a * ML_DSA_Q_NEG_INV * ML_DSA_Q) with (a * 8265825 * 4294967296 + 0)
      by (unfold ML_DSA_Q_NEG_INV, ML_DSA_Q; ring).
    by rewrite Z.add_comm, Z.mod_add. }
  rewrite Z.shiftr_div_pow2 by lia. change (2 ^ 32) with 4294967296.
  set (c := (a + t * ML_DSA_Q) / 4294967296).
  assert (a + t * ML_DSA_Q = 4294967296 * c) as Hc by (unfold c; dlia).
  assert (0 <= c < 2 * ML_DSA_Q) as Hcr by (unfold ML_DSA_Q in *; lia).
  rewrite u32_small by (unfold ML_DSA_Q in *; lia).
  destruct (reduce_once_ok c Hcr) as [Hr He]. split; [done|]. rewrite He.
  apply (cong_cancel R_INV (2 ^ 32)); [apply R_INV_unit|].
  rewrite (Z.mul_comm a), Z.mul_assoc, (Z.mul_comm (2 ^ 32) R_INV), R_INV_unit, Z.mul_1_l.
  change (2 ^ 32) with 4294967296. rewrite <- Hc. cong_by t.
Qed.

(** The product of a constant in Montgomery form with a value below [2^32]. *)
Lemma montgomery_mul z x :
  coeff_ok z -> 0 <= x < 2 ^ 32 ->
  coeff_ok (reduce_montgomery (u64 (z * x))) /\ reduce_montgomery (u64 (z * x)) ≡q z * x * R_INV.
Proof.
  unfold coeff_ok. change (2 ^ 32) with 4294967296. intros Hz Hx.
  rewrite u64_small by (unfold ML_DSA_Q in *; nia).
  apply reduce_montgomery_ok. change (2 ^ 32) with 4294967296. nia.
Qed.
