(* ===== verification/MlDsaRound.v ===== *)
(** * ML-DSA: rounding and hints

    Model of [crypto/ml_dsa/ml_dsa_key_compress.c].  The branch-free roundings
    are shown equal to the definitions of FIPS 204 (Power2Round, Decompose), and
    the hint functions to recover the high bits they promise. *)
From S2P Require Import Prelude.
From S2P Require Import ConstantTime.
From S2P Require Import ModCong.
From S2P Require Import MlDsaField.

Definition ossl_ml_dsa_key_compress_power2_round (r : Z) : Z * Z :=
  let r1 := Z.shiftr r ML_DSA_D_BITS in
  let r0 := u32 (r - u32 (Z.shiftl r1 ML_DSA_D_BITS)) in
  let r0_adjusted := mod_sub r0 (Z.shiftl 1 ML_DSA_D_BITS) in
  let r1_adjusted := u32 (r1 + 1) in
  let mask := constant_time_lt (Z.shiftl 1 (ML_DSA_D_BITS - 1)) r0 in
  (u32 (constant_time_select_int mask r1_adjusted r1),
   u32 (constant_time_select_int mask r0_adjusted r0)).

Definition ossl_ml_dsa_key_compress_high_bits (r gamma2 : Z) : Z :=
  let r1 := i32 (Z.shiftr (u32 (r + 127)) 7) in
  if gamma2 =? ML_DSA_GAMMA2_Q_MINUS1_DIV32 then
    let r1 := Z.shiftr (i32 (i32 (r1 * 1025) + Z.shiftl 1 21)) 22 in
    u32 (Z.land r1 15)
  else
    let r1 := Z.shiftr (i32 (i32 (r1 * 11275) + Z.shiftl 1 23)) 24 in
    u32 (Z.lxor r1 (Z.land (Z.shiftr (i32 (43 - r1)) 31) r1)).

Definition ossl_ml_dsa_key_compress_decompose (r gamma2 : Z) : Z * Z :=
  let r1 := ossl_ml_dsa_key_compress_high_bits r gamma2 in
  let r0 := i32 (u32 (r - u32 (u32 (r1 * 2) * gamma2))) in
  let r0 := i32 (r0 - Z.land (Z.shiftr (i32 (ML_DSA_Q_MINUS1_DIV2 - r0)) 31) ML_DSA_Q) in
  (r1, r0).

Definition ossl_ml_dsa_key_compress_low_bits (r gamma2 : Z) : Z :=
  (ossl_ml_dsa_key_compress_decompose r gamma2).2.

Definition ossl_ml_dsa_key_compress_make_hint (ct0 cs2 gamma2 w : Z) : Z :=
  let r_plus_z := mod_sub w cs2 in
  let r := reduce_once (u32 (r_plus_z + ct0)) in
  if ossl_ml_dsa_key_compress_high_bits r gamma2 =? ossl_ml_dsa_key_compress_high_bits r_plus_z gamma2
  then 0 else 1.

Definition ossl_ml_dsa_key_compress_use_hint (hint r gamma2 : Z) : Z :=
  let '(r1, r0) := ossl_ml_dsa_key_compress_decompose r gamma2 in
  if hint =? 0 then r1
  else if gamma2 =? (ML_DSA_Q - 1) / 32 then
    if 0 <? r0 then Z.land (u32 (r1 + 1)) 15 else Z.land (u32 (r1 - 1)) 15
  else
    if 0 <? r0 then (if r1 =? 43 then 0 else u32 (r1 + 1))
    else (if r1 =? 0 then 43 else u32 (r1 - 1)).

(** ** The definitions of FIPS 204 *)

(** [r mod± m], in [(-m/2, m/2]] for an even [m]. *)
Definition mod_pm (r m : Z) : Z := if r mod m <=? m / 2 then r mod m else r mod m - m.

Definition Power2Round (r : Z) : Z * Z :=
  let r0 := mod_pm r (2 ^ 13) in ((r - r0) / 2 ^ 13, r0).

Definition Decompose (r gamma2 : Z) : Z * Z :=
  let r0 := mod_pm r (2 * gamma2) in
  if r - r0 =? ML_DSA_Q - 1 then (0, r0 - 1) else ((r - r0) / (2 * gamma2), r0).

Definition UseHint (h r gamma2 : Z) : Z :=
  let m := (ML_DSA_Q - 1) / (2 * gamma2) in
  let '(r1, r0) := Decompose r gamma2 in
  if h =? 0 then r1 else if 0 <? r0 then (r1 + 1) mod m else (r1 - 1) mod m.

(** The two values of [gamma2] the parameter sets use. *)
Definition gamma2_ok (gamma2 : Z) : Prop :=
  gamma2 = ML_DSA_GAMMA2_Q_MINUS1_DIV32 \/ gamma2 = ML_DSA_GAMMA2_Q_MINUS1_DIV88.
#[export] Instance gamma2_ok_dec g : Decision (gamma2_ok g).
Proof. unfold gamma2_ok. apply _. Defined.

(** Case analysis on [gamma2], with its constants evaluated. *)
Ltac gamma2_cases Hg :=
  destruct Hg as [-> | ->];
  [change ML_DSA_GAMMA2_Q_MINUS1_DIV32 with 261888 in *;
   change ((ML_DSA_Q - 1) / (2 * 261888)) with 16 in *; change (2 * 261888) with 523776 in *;
   change (523776 / 2) with 261888 in *
  |change ML_DSA_GAMMA2_Q_MINUS1_DIV88 with 95232 in *;
   change ((ML_DSA_Q - 1) / (2 * 95232)) with 44 in *; change (2 * 95232) with 190464 in *;
   change (190464 / 2) with 95232 in *].

(** ** Rounding by powers of two *)

Lemma power2_round_spec r :
  coeff_ok r -> let '(r1, r0) := ossl_ml_dsa_key_compress_power2_round r in
  r1 = (Power2Round r).1 /\ r0 = (Power2Round r).2 mod ML_DSA_Q /\ centered r0 = (Power2Round r).2 /\
  0 <= r1 < 1024 /\ -4096 < (Power2Round r).2 <= 4096 /\ r = r1 * 2 ^ 13 + (Power2Round r).2.
Proof.
  unfold coeff_ok, ossl_ml_dsa_key_compress_power2_round, Power2Round, mod_pm.
  change ML_DSA_D_BITS with 13. intros Hr.
  change (Z.shiftl 1 13) with 8192. change (Z.shiftl 1 (13 - 1)) with 4096.
  rewrite Z.shiftl_mul_pow2, !Z.shiftr_div_pow2 by lia. change (2 ^ 13) with 8192.
  assert (0 <= r / 8192 <= 1022 \/ r / 8192 = 1023 /\ r mod 8192 = 0) as Hq by (unfold ML_DSA_Q in *; dlia).
  rewrite (u32_small (r / 8192 * 8192)) by dlia.
  replace (r - r / 8192 * 8192) with (r mod 8192) by dlia. pose proof (Z.mod_pos_bound r 8192 ltac:(lia)).
  rewrite (u32_small (r mod 8192)), (u32_small (r / 8192 + 1)), constant_time_lt_spec by lia.
  destruct (mod_sub_ok (r mod 8192) 8192) as [[Ha1 Ha2] Ha3]; [unfold coeff_ok, ML_DSA_Q; lia|unfold ML_DSA_Q; lia|].
  rewrite !constant_time_select_int_spec by (unfold ML_DSA_Q in *; lia).
  change (8192 / 2) with 4096. unfold centered. change ML_DSA_Q_MINUS1_DIV2 with 4190208.
  destruct Ha3 as [k Hk]. unfold ML_DSA_Q in *. cbn [fst snd].
  destruct (Z.ltb_spec 4096 (r mod 8192)), (Z.leb_spec (r mod 8192) 4096); try lia.
  - assert (k = 1) as -> by lia. split_and!; try dlia.
    destruct (Z.leb_spec (mod_sub (r mod 8192) 8192) 4190208); lia.
  - split_and!; try dlia. destruct (Z.leb_spec (r mod 8192) 4190208); lia.
Qed.

(** ** Decomposition *)

(** [k] and [r0] are the high and low parts of [r]: the interval of length
    [2 * gamma2] around [k * 2 * gamma2], the one below [q] counted to [0]. *)
Definition decomposes (r gamma2 k r0 : Z) : Prop :=
  0 <= k < (ML_DSA_Q - 1) / (2 * gamma2) /\
  (r = k * (2 * gamma2) + r0 /\ - gamma2 < r0 <= gamma2 \/
   k = 0 /\ r = ML_DSA_Q + r0 /\ - gamma2 <= r0 < 0).

Lemma decomposes_fips r gamma2 :
  coeff_ok r -> gamma2_ok gamma2 ->
  decomposes r gamma2 (Decompose r gamma2).1 (Decompose r gamma2).2.
Proof.
  unfold coeff_ok, decomposes, Decompose, mod_pm. intros Hr Hg. gamma2_cases Hg.
  - destruct (Z.leb_spec (r mod 523776) 261888).
    + destruct (Z.eqb_spec (r - r mod 523776) (ML_DSA_Q - 1)); simpl; unfold ML_DSA_Q in *; dlia.
    + destruct (Z.eqb_spec (r - (r mod 523776 - 523776)) (ML_DSA_Q - 1)); simpl; unfold ML_DSA_Q in *; dlia.
  - destruct (Z.leb_spec (r mod 190464) 95232).
    + destruct (Z.eqb_spec (r - r mod 190464) (ML_DSA_Q - 1)); simpl; unfold ML_DSA_Q in *; dlia.
    + destruct (Z.eqb_spec (r - (r mod 190464 - 190464)) (ML_DSA_Q - 1)); simpl; unfold ML_DSA_Q in *; dlia.
Qed.

Lemma decomposes_unique r gamma2 k r0 k' r0' :
  gamma2_ok gamma2 -> decomposes r gamma2 k r0 -> decomposes r gamma2 k' r0' -> k = k' /\ r0 = r0'.
Proof.
  unfold decomposes. intros Hg. gamma2_cases Hg; unfold ML_DSA_Q; lia.
Qed.

Ltac enum_to n x :=
  match n with
  | 0 => assert (x = 0) by lia
  | _ => let m := eval compute in (n - 1) in
         destruct (Z.eq_dec x n); [|enum_to m x]
  end.

(** The rounded quotients the code computes with a multiplication and a shift. *)
Lemma high_bits_32 r :
  coeff_ok r -> exists r0, decomposes r ML_DSA_GAMMA2_Q_MINUS1_DIV32
    (ossl_ml_dsa_key_compress_high_bits r ML_DSA_GAMMA2_Q_MINUS1_DIV32) r0.
Proof.
  unfold coeff_ok, ossl_ml_dsa_key_compress_high_bits, decomposes. rewrite Z.eqb_refl.
  change ML_DSA_GAMMA2_Q_MINUS1_DIV32 with 261888. change ((ML_DSA_Q - 1) / (2 * 261888)) with 16.
  change (Z.shiftl 1 21) with 2097152. unfold ML_DSA_Q. intros Hr.
  rewrite !Z.shiftr_div_pow2 by lia. change (2 ^ 7) with 128. change (2 ^ 22) with 4194304.
  rewrite (u32_small (r + 127)) by lia. set (a := (r + 127) / 128).
  assert (128 * a <= r + 127 < 128 * a + 128) as Ha by (unfold a; dlia).
  rewrite (i32_small a), (i32_small (a * 1025)), (i32_small (_ + _)) by lia.
  set (b := (a * 1025 + 2097152) / 4194304).
  assert (4194304 * b <= a * 1025 + 2097152 < 4194304 * b + 4194304) as Hb by (unfold b; dlia).
  change 15 with (Z.ones 4). rewrite Z.land_ones by lia. change (2 ^ 4) with 16.
  rewrite u32_small by dlia. assert (0 <= b <= 16) as Hb' by lia. clearbody a b.
  destruct (Z.eq_dec b 16) as [->|]; [exists (r - 8380417); change (16 mod 16) with 0; lia|].
  rewrite Z.mod_small by lia. exists (r - b * 523776). split; [lia|]. left. split; [lia|].
  enum_to 15 b; subst b; lia.
Qed.

Lemma high_bits_88 r :
  coeff_ok r -> exists r0, decomposes r ML_DSA_GAMMA2_Q_MINUS1_DIV88
    (ossl_ml_dsa_key_compress_high_bits r ML_DSA_GAMMA2_Q_MINUS1_DIV88) r0.
Proof.
  unfold coeff_ok, ossl_ml_dsa_key_compress_high_bits, decomposes.
  change (ML_DSA_GAMMA2_Q_MINUS1_DIV88 =? ML_DSA_GAMMA2_Q_MINUS1_DIV32) with false. cbv iota.
  change ML_DSA_GAMMA2_Q_MINUS1_DIV88 with 95232. change ((ML_DSA_Q - 1) / (2 * 95232)) with 44.
  change (Z.shiftl 1 23) with 8388608. unfold ML_DSA_Q. intros Hr.
  rewrite !Z.shiftr_div_pow2 by lia. change (2 ^ 7) with 128. change (2 ^ 24) with 16777216.
  change (2 ^ 31) with 2147483648.
  rewrite (u32_small (r + 127)) by lia. set (a := (r + 127) / 128).
  assert (128 * a <= r + 127 < 128 * a + 128) as Ha by (unfold a; dlia).
  rewrite (i32_small a), (i32_small (a * 11275)), (i32_small (_ + _)) by lia.
  set (b := (a * 11275 + 8388608) / 16777216).
  assert (16777216 * b <= a * 11275 + 8388608 < 16777216 * b + 16777216) as Hb by (unfold b; dlia).
  assert (0 <= b <= 44) as Hb' by lia. clearbody a b. rewrite (i32_small (43 - b)) by lia.
  destruct (Z.eq_dec b 44) as [->|]; [exists (r - 8380417); replace (u32 _) with 0 by reflexivity; lia|].
  replace ((43 - b) / 2147483648) with 0 by dlia. rewrite Z.land_0_l, Z.lxor_0_r, u32_small by lia.
  exists (r - b * 190464). split; [lia|]. left. split; [lia|].
  enum_to 43 b; subst b; lia.
Qed.

Lemma high_bits_decomposes r gamma2 :
  coeff_ok r -> gamma2_ok gamma2 ->
  exists r0, decomposes r gamma2 (ossl_ml_dsa_key_compress_high_bits r gamma2) r0.
Proof. intros Hr [-> | ->]; [by apply high_bits_32|by apply high_bits_88]. Qed.

Lemma high_bits_spec r gamma2 :
  coeff_ok r -> gamma2_ok gamma2 ->
  ossl_ml_dsa_key_compress_high_bits r gamma2 = (Decompose r gamma2).1.
Proof.
  intros Hr Hg. destruct (high_bits_decomposes r gamma2 Hr Hg) as [r0 H0].
  pose proof (decomposes_fips r gamma2 Hr Hg) as H1. by destruct (decomposes_unique _ _ _ _ _ _ Hg H0 H1).
Qed.

Lemma decompose_decomposes r gamma2 :
  coeff_ok r -> gamma2_ok gamma2 ->
  let '(r1, r0) := ossl_ml_dsa_key_compress_decompose r gamma2 in decomposes r gamma2 r1 r0.
Proof.
  intros Hr Hg. destruct (high_bits_decomposes r gamma2 Hr Hg) as [r0 H0].
  unfold ossl_ml_dsa_key_compress_decompose.
  set (r1 := ossl_ml_dsa_key_compress_high_bits r gamma2) in *. clearbody r1.
  enough (i32 (i32 (u32 (r - u32 (u32 (r1 * 2) * gamma2))) -
    Z.land (Z.shiftr (i32 (ML_DSA_Q_MINUS1_DIV2 - i32 (u32 (r - u32 (u32 (r1 * 2) * gamma2))))) 31) ML_DSA_Q)
    = r0) as -> by done.
  rewrite Z.shiftr_div_pow2 by lia. change (2 ^ 31) with 2147483648.
  change ML_DSA_Q_MINUS1_DIV2 with 4190208. unfold coeff_ok in Hr.
  assert (0 <= r1 * 2 * gamma2 <= 8380416) as Hm.
  { destruct H0 as [H0 _]. gamma2_cases Hg; lia. }
  rewrite (u32_small (r1 * 2)), (u32_small (r1 * 2 * gamma2)) by
    (gamma2_cases Hg; lia).
  set (d := r - r1 * 2 * gamma2). assert (-8380417 < d < 8380417) as Hd by (unfold d, ML_DSA_Q in *; lia).
  assert (i32 (u32 d) = d) as -> by cint. rewrite (i32_small (4190208 - d)) by lia.
  destruct H0 as [Hk [[Hr0 Hb]|(-> & Hr0 & Hb)]].
  - assert (d = r0) as -> by (unfold d; lia).
    assert (-523776 <= r0 <= 523776) by (gamma2_cases Hg; lia).
    replace ((4190208 - r0) / 2147483648) with 0 by dlia. rewrite Z.land_0_l, Z.sub_0_r.
    apply i32_small. lia.
  - assert (-523776 <= r0 < 0) by (gamma2_cases Hg; lia). unfold ML_DSA_Q in *.
    replace ((4190208 - d) / 2147483648) with (-1) by (unfold d; dlia). rewrite Z.land_m1_l.
    rewrite i32_small; unfold d; lia.
Qed.

Lemma decompose_spec r gamma2 :
  coeff_ok r -> gamma2_ok gamma2 ->
  ossl_ml_dsa_key_compress_decompose r gamma2 = Decompose r gamma2.
Proof.
  intros Hr Hg. pose proof (decompose_decomposes r gamma2 Hr Hg) as H0.
  pose proof (decomposes_fips r gamma2 Hr Hg) as H1. destruct (ossl_ml_dsa_key_compress_decompose _ _) as [r1 r0].
  destruct (decomposes_unique _ _ _ _ _ _ Hg H0 H1) as [-> ->]. by destruct (Decompose r gamma2).
Qed.

Lemma high_bits_unique r gamma2 k r0 :
  coeff_ok r -> gamma2_ok gamma2 -> decomposes r gamma2 k r0 ->
  ossl_ml_dsa_key_compress_high_bits r gamma2 = k.
Proof.
  intros Hr Hg H0. destruct (high_bits_decomposes r gamma2 Hr Hg) as [? H1].
  by destruct (decomposes_unique _ _ _ _ _ _ Hg H1 H0).
Qed.

Lemma use_hint_spec h r gamma2 :
  coeff_ok r -> gamma2_ok gamma2 ->
  ossl_ml_dsa_key_compress_use_hint h r gamma2 = UseHint h r gamma2.
Proof.
  intros Hr Hg. unfold ossl_ml_dsa_key_compress_use_hint, UseHint. rewrite decompose_spec by done.
  pose proof (decomposes_fips r gamma2 Hr Hg) as [Hk _]. destruct (Decompose r gamma2) as [r1 r0]. cbn [fst] in Hk.
  destruct (h =? 0); [done|]. destruct Hg as [-> | ->].
  - change (ML_DSA_GAMMA2_Q_MINUS1_DIV32 =? (ML_DSA_Q - 1) / 32) with true. cbv iota.
    change ((ML_DSA_Q - 1) / (2 * ML_DSA_GAMMA2_Q_MINUS1_DIV32)) with 16 in *.
    change 15 with (Z.ones 4). rewrite !Z.land_ones by lia. change (2 ^ 4) with 16.
    destruct (0 <? r0); cint.
  - change (ML_DSA_GAMMA2_Q_MINUS1_DIV88 =? (ML_DSA_Q - 1) / 32) with false. cbv iota.
    change ((ML_DSA_Q - 1) / (2 * ML_DSA_GAMMA2_Q_MINUS1_DIV88)) with 44 in *.
    destruct (0 <? r0); [destruct (Z.eqb_spec r1 43)|destruct (Z.eqb_spec r1 0)]; subst; cint.
Qed.

(** ** Hints *)

(** Moving by at most [gamma2] changes the high bits by at most one step, in
    the direction the sign of the low bits gives. *)
Lemma hint_step r r' k r0 k' r0' gamma2 d :
  gamma2_ok gamma2 -> coeff_ok r -> coeff_ok r' -> decomposes r gamma2 k r0 -> decomposes r' gamma2 k' r0' ->
  r' ≡q r - d -> - gamma2 <= d <= gamma2 -> k <> k' ->
  k' = (if 0 <? r0 then k + 1 else k - 1) mod ((ML_DSA_Q - 1) / (2 * gamma2)).
Proof.
  unfold coeff_ok, decomposes. intros Hg Hr Hr' Hd Hd' [c Hc] Hb Hk. unfold ML_DSA_Q in *.
  assert (c = 0 \/ c = 1 \/ c = -1) as Hc' by (gamma2_cases Hg; lia).
  change (8380417 - 1) with 8380416 in *.
  destruct Hg as [-> | ->].
  - change (8380416 / (2 * ML_DSA_GAMMA2_Q_MINUS1_DIV32)) with 16 in *.
    change ML_DSA_GAMMA2_Q_MINUS1_DIV32 with 261888 in *. destruct (Z.ltb_spec 0 r0).
    + destruct (Z.eq_dec k 15); [replace ((k + 1) mod 16) with 0 by dlia|rewrite Z.mod_small by lia]; lia.
    + destruct (Z.eq_dec k 0); [replace ((k - 1) mod 16) with 15 by dlia|rewrite Z.mod_small by lia]; lia.
  - change (8380416 / (2 * ML_DSA_GAMMA2_Q_MINUS1_DIV88)) with 44 in *.
    change ML_DSA_GAMMA2_Q_MINUS1_DIV88 with 95232 in *. destruct (Z.ltb_spec 0 r0).
    + destruct (Z.eq_dec k 43); [replace ((k + 1) mod 44) with 0 by dlia|rewrite Z.mod_small by lia]; lia.
    + destruct (Z.eq_dec k 0); [replace ((k - 1) mod 44) with 43 by dlia|rewrite Z.mod_small by lia]; lia.
Qed.

Lemma use_make_hint ct0 cs2 w gamma2 :
  gamma2_ok gamma2 -> coeff_ok ct0 -> coeff_ok cs2 -> coeff_ok w -> Z.abs (centered ct0) <= gamma2 ->
  ossl_ml_dsa_key_compress_use_hint (ossl_ml_dsa_key_compress_make_hint ct0 cs2 gamma2 w)
    (reduce_once (u32 (mod_sub w cs2 + ct0))) gamma2
  = ossl_ml_dsa_key_compress_high_bits (mod_sub w cs2) gamma2.
Proof.
  intros Hg Hct Hcs Hw Hb. unfold ossl_ml_dsa_key_compress_make_hint.
  destruct (coeff_sub_ok w cs2 Hw Hcs) as [Hs _]. set (r' := mod_sub w cs2) in *.
  destruct (coeff_add_ok r' ct0 Hs Hct) as [Hr Hrc]. set (r := reduce_once _) in *.
  rewrite use_hint_spec by done. unfold UseHint. rewrite !high_bits_spec by done.
  pose proof (decomposes_fips r gamma2 Hr Hg) as Hd. pose proof (decomposes_fips r' gamma2 Hs Hg) as Hd'.
  destruct (Decompose r gamma2) as [k r0], (Decompose r' gamma2) as [k' r0']. cbn [fst snd] in *.
  destruct (Z.eqb_spec k k') as [|Hk]; [done|]. cbn [Z.eqb].
  pose proof (hint_step r r' k r0 k' r0' gamma2 (centered ct0) Hg Hr Hs Hd Hd') as Hh.
  rewrite Hh; [by destruct (0 <? r0)| |lia|done].
  rewrite Hrc, centered_cong. cong_by 0.
Qed.

Lemma high_bits_stable w cs2 gamma2 b :
  gamma2_ok gamma2 -> coeff_ok cs2 -> coeff_ok w -> Z.abs (centered cs2) <= b ->
  Z.abs (ossl_ml_dsa_key_compress_low_bits (mod_sub w cs2) gamma2) < gamma2 - b ->
  ossl_ml_dsa_key_compress_high_bits (mod_sub w cs2) gamma2 = ossl_ml_dsa_key_compress_high_bits w gamma2.
Proof.
  intros Hg Hcs Hw Hb. destruct (coeff_sub_ok w cs2 Hw Hcs) as [Hs Hsc].
  unfold ossl_ml_dsa_key_compress_low_bits. pose proof (decompose_decomposes _ _ Hs Hg) as Hd.
  destruct (ossl_ml_dsa_key_compress_decompose _ _) as [k r0]. cbn [snd]. intros Hr0.
  rewrite (high_bits_unique _ _ k r0) by done. symmetry.
  apply (high_bits_unique w gamma2 k (r0 + centered cs2)); [done|done|].
  assert (mod_sub w cs2 ≡q w - centered cs2) as [c Hc] by (by rewrite Hsc, centered_cong).
  unfold decomposes, coeff_ok, ML_DSA_Q in *. change (8380417 - 1) with 8380416 in *.
  destruct Hg as [-> | ->].
  - change (8380416 / (2 * ML_DSA_GAMMA2_Q_MINUS1_DIV32)) with 16 in *.
    change ML_DSA_GAMMA2_Q_MINUS1_DIV32 with 261888 in *. assert (c = 0 \/ c = 1 \/ c = -1) by lia. lia.
  - change (8380416 / (2 * ML_DSA_GAMMA2_Q_MINUS1_DIV88)) with 44 in *.
    change ML_DSA_GAMMA2_Q_MINUS1_DIV88 with 95232 in *. assert (c = 0 \/ c = 1 \/ c = -1) by lia. lia.
Qed.

Lemma high_bits_range r gamma2 :
  coeff_ok r -> gamma2_ok gamma2 ->
  0 <= ossl_ml_dsa_key_compress_high_bits r gamma2 < (ML_DSA_Q - 1) / (2 * gamma2).
Proof. intros Hr Hg. by destruct (high_bits_decomposes r gamma2 Hr Hg) as [r0 [H _]]. Qed.

Lemma low_bits_range r gamma2 :
  coeff_ok r -> gamma2_ok gamma2 -> Z.abs (ossl_ml_dsa_key_compress_low_bits r gamma2) <= gamma2.
Proof.
  intros Hr Hg. unfold ossl_ml_dsa_key_compress_low_bits. pose proof (decompose_decomposes _ _ Hr Hg) as Hd.
  destruct (ossl_ml_dsa_key_compress_decompose _ _) as [k r0]. cbn [snd].
  destruct Hd as [_ Hd]. gamma2_cases Hg; lia.
Qed.

(** C28: the roundings are those of FIPS 204.  For every reduced coefficient the
    branch-free code computes Power2Round (its low part kept modulo [q]),
    Decompose with its high and low parts, and UseHint, for both rounding
    widths; no intermediate product overflows. *)
Theorem ml_dsa_rounding_exact r h gamma2 :
  coeff_ok r -> gamma2_ok gamma2 ->
  ossl_ml_dsa_key_compress_power2_round r = ((Power2Round r).1, (Power2Round r).2 mod ML_DSA_Q) /\
  ossl_ml_dsa_key_compress_decompose r gamma2 = Decompose r gamma2 /\
  ossl_ml_dsa_key_compress_high_bits r gamma2 = (Decompose r gamma2).1 /\
  ossl_ml_dsa_key_compress_low_bits r gamma2 = (Decompose r gamma2).2 /\
  ossl_ml_dsa_key_compress_use_hint h r gamma2 = UseHint h r gamma2.
Proof.
  intros Hr Hg. split_and!.
  - pose proof (power2_round_spec r Hr) as H. destruct (ossl_ml_dsa_key_compress_power2_round r).
    by destruct H as (-> & -> & _).
  - by apply decompose_spec.
  - by apply high_bits_spec.
  - unfold ossl_ml_dsa_key_compress_low_bits. by rewrite decompose_spec.
  - by apply use_hint_spec.
Qed.

Lemma ml_dsa_rounding_exact_witness :
  ossl_ml_dsa_key_compress_decompose 8380000 ML_DSA_GAMMA2_Q_MINUS1_DIV88 = (0, -417) /\
  ossl_ml_dsa_key_compress_power2_round 8191 = (1, 8380416).
Proof.
  destruct (ml_dsa_rounding_exact 8380000 0 ML_DSA_GAMMA2_Q_MINUS1_DIV88) as (_ & -> & _);
    [by compute|by right|].
  destruct (ml_dsa_rounding_exact 8191 0 ML_DSA_GAMMA2_Q_MINUS1_DIV32) as (-> & _); [by compute|by left|].
  split; reflexivity.
Defined.

(** A hint recovers the high bits.  When the perturbation [ct0] is at most
    [gamma2] in absolute value, applying the hint made by the signer to
    [w - cs2 + ct0] gives the high bits of [w - cs2]; and when moreover [cs2] is
    at most [b] and the low bits of [w - cs2] are below [gamma2 - b], as the
    signer checks, these are the high bits of [w] itself. *)
Lemma ml_dsa_hint_recovers ct0 cs2 w gamma2 b :
  gamma2_ok gamma2 -> coeff_ok ct0 -> coeff_ok cs2 -> coeff_ok w ->
  Z.abs (centered ct0) <= gamma2 -> Z.abs (centered cs2) <= b ->
  let hint := ossl_ml_dsa_key_compress_make_hint ct0 cs2 gamma2 w in
  let used := ossl_ml_dsa_key_compress_use_hint hint (reduce_once (u32 (mod_sub w cs2 + ct0))) gamma2 in
  (hint = 0 \/ hint = 1) /\
  used = ossl_ml_dsa_key_compress_high_bits (mod_sub w cs2) gamma2 /\
  (Z.abs (ossl_ml_dsa_key_compress_low_bits (mod_sub w cs2) gamma2) < gamma2 - b ->
   used = ossl_ml_dsa_key_compress_high_bits w gamma2).
Proof.
  intros Hg Hct Hcs Hw H1 H2. cbv zeta. rewrite use_make_hint by done. split_and!.
  - unfold ossl_ml_dsa_key_compress_make_hint. destruct (_ =? _); auto.
  - done.
  - by apply high_bits_stable.
Qed.

Lemma ml_dsa_hint_recovers_witness :
  let g := ML_DSA_GAMMA2_Q_MINUS1_DIV32 in
  ossl_ml_dsa_key_compress_use_hint 1 (reduce_once (u32 (mod_sub 261800 0 + 200))) g = 0 /\
  ossl_ml_dsa_key_compress_make_hint 200 0 g 261800 = 1.
Proof.
  cbv zeta. split; [|reflexivity].
  destruct (ml_dsa_hint_recovers 200 0 261800 ML_DSA_GAMMA2_Q_MINUS1_DIV32 0) as (_ & H & _);
    [by left|by compute..|]. exact H.
Defined.
