(* ===== verification/MlDsaNtt.v ===== *)
(** * ML-DSA: the number theoretic transform

    Model of [crypto/ml_dsa/ml_dsa_ntt.c].  The in-place transforms are written
    as the code's loops over the coefficient array.  The theorems: the forward
    transform evaluates the polynomial at the odd powers of the root of unity
    1753 in bit-reversed order, as FIPS 204 defines it; the inverse undoes it up
    to the Montgomery factor; and transforming, multiplying pointwise and
    transforming back is multiplication modulo [X^256 + 1]. *)
From S2P Require Import Prelude.
From S2P Require Import ConstantTime.
From S2P Require Import ZSum.
From S2P Require Import ModCong.
From S2P Require Import Transform.
From S2P Require Import NttPass.
From S2P Require Import MlDsaField.

Definition zetas_montgomery : list Z :=
  [4193792; 25847; 5771523; 7861508; 237124; 7602457; 7504169; 466468;
    1826347; 2353451; 8021166; 6288512; 3119733; 5495562; 3111497; 2680103;
    2725464; 1024112; 7300517; 3585928; 7830929; 7260833; 2619752; 6271868;
    6262231; 4520680; 6980856; 5102745; 1757237; 8360995; 4010497; 280005;
    2706023; 95776; 3077325; 3530437; 6718724; 4788269; 5842901; 3915439;
    4519302; 5336701; 3574422; 5512770; 3539968; 8079950; 2348700; 7841118;
    6681150; 6736599; 3505694; 4558682; 3507263; 6239768; 6779997; 3699596;
    811944; 531354; 954230; 3881043; 3900724; 5823537; 2071892; 5582638;
    4450022; 6851714; 4702672; 5339162; 6927966; 3475950; 2176455; 6795196;
    7122806; 1939314; 4296819; 7380215; 5190273; 5223087; 4747489; 126922;
    3412210; 7396998; 2147896; 2715295; 5412772; 4686924; 7969390; 5903370;
    7709315; 7151892; 8357436; 7072248; 7998430; 1349076; 1852771; 6949987;
    5037034; 264944; 508951; 3097992; 44288; 7280319; 904516; 3958618;
    4656075; 8371839; 1653064; 5130689; 2389356; 8169440; 759969; 7063561;
    189548; 4827145; 3159746; 6529015; 5971092; 8202977; 1315589; 1341330;
    1285669; 6795489; 7567685; 6940675; 5361315; 4499357; 4751448; 3839961;
    2091667; 3407706; 2316500; 3817976; 5037939; 2244091; 5933984; 4817955;
    266997; 2434439; 7144689; 3513181; 4860065; 4621053; 7183191; 5187039;
    900702; 1859098; 909542; 819034; 495491; 6767243; 8337157; 7857917;
    7725090; 5257975; 2031748; 3207046; 4823422; 7855319; 7611795; 4784579;
    342297; 286988; 5942594; 4108315; 3437287; 5038140; 1735879; 203044;
    2842341; 2691481; 5790267; 1265009; 4055324; 1247620; 2486353; 1595974;
    4613401; 1250494; 2635921; 4832145; 5386378; 1869119; 1903435; 7329447;
    7047359; 1237275; 5062207; 6950192; 7929317; 1312455; 3306115; 6417775;
    7100756; 1917081; 5834105; 7005614; 1500165; 777191; 2235880; 3406031;
    7838005; 5548557; 6709241; 6533464; 5796124; 4656147; 594136; 4603424;
    6366809; 2432395; 2454455; 8215696; 1957272; 3369112; 185531; 7173032;
    5196991; 162844; 1616392; 3014001; 810149; 1652634; 4686184; 6581310;
    5341501; 3523897; 3866901; 269760; 2213111; 7404533; 1717735; 472078;
    7953734; 1723600; 6577327; 1910376; 6712985; 7276084; 8119771; 4546524;
    5441381; 6144432; 7959518; 6094090; 183443; 7403526; 1612842; 4834730;
    7826001; 3919660; 8332111; 7018208; 3937738; 1400424; 7534263; 1976782].

Definition ossl_ml_dsa_poly_ntt_mult (lhs rhs : POLY) : POLY :=
  zip_with (fun a b => reduce_montgomery (u64 (a * b))) lhs rhs.

(** The bodies of the innermost loops: the new values of [coeff[j]] and
    [coeff[j + offset]]. *)
Definition ntt_butterfly (z_step_root even odd : Z) : Z * Z :=
  let t_odd := reduce_montgomery (u64 (z_step_root * odd)) in
  (reduce_once (u32 (even + t_odd)), mod_sub even t_odd).
Definition intt_butterfly (step_root even odd : Z) : Z * Z :=
  (reduce_once (u32 (odd + even)), reduce_montgomery (u64 (step_root * u32 (ML_DSA_Q + even - odd)))).

(** [for (step = 1; step < 256; step <<= 1)]: eight rounds. *)
Fixpoint ntt_rounds (fuel : nat) (step offset : Z) (p : POLY) : POLY :=
  match fuel with
  | O => p
  | S fuel' =>
    if step <? ML_DSA_NUM_POLY_COEFFICIENTS then
      let offset := Z.shiftr offset 1 in
      ntt_rounds fuel' (Z.shiftl step 1) offset
        (ntt_pass (fun i => ntt_butterfly (coeff zetas_montgomery (step + i))) step offset p)
    else p
  end.
Definition ossl_ml_dsa_poly_ntt (p : POLY) : POLY := ntt_rounds 9 1 ML_DSA_NUM_POLY_COEFFICIENTS p.

(** [for (offset = 1; offset < 256; offset <<= 1)]: eight rounds. *)
Fixpoint intt_rounds (fuel : nat) (step offset : Z) (p : POLY) : POLY :=
  match fuel with
  | O => p
  | S fuel' =>
    if offset <? ML_DSA_NUM_POLY_COEFFICIENTS then
      let step := Z.shiftr step 1 in
      intt_rounds fuel' step (Z.shiftl offset 1)
        (ntt_pass (fun i => intt_butterfly (u32 (ML_DSA_Q - coeff zetas_montgomery (step + (step - 1 - i)))))
           step offset p)
    else p
  end.
Definition inverse_degree_montgomery : Z := 41978.
Definition ossl_ml_dsa_poly_ntt_inverse (p : POLY) : POLY :=
  let p := intt_rounds 9 ML_DSA_NUM_POLY_COEFFICIENTS 1 p in
  (fun c => reduce_montgomery (u64 (c * inverse_degree_montgomery))) <$> p.

(** A polynomial with its coefficients reduced. *)
Definition poly_ok (p : POLY) : Prop := zlen p = 256 /\ Forall coeff_ok p.

(** ** The transforms on coefficient functions

    A polynomial as the function of its coefficients; [feq] is congruence of
    all 256 of them. *)

Abbreviation feq := (feqm ML_DSA_Q 256).

(** The twiddle factor of node [k] of the tree, out of Montgomery form, and those of
    the inverse transform. *)
Definition zt (k : Z) : Z := coeff zetas_montgomery k * R_INV.
Definition zi (off b : Z) : Z := - zt (128 / off + (128 / off - 1 - b)).

Definition NTT : (Z -> Z) -> Z -> Z := ntt_of 8 zt.
Definition INTT : (Z -> Z) -> Z -> Z := intt_of 8 zi.
#[export] Instance NTT_proper : Proper (feq ==> feq) NTT.
Proof. exact (ntt_of_proper ML_DSA_Q 8 zt). Qed.
#[export] Instance INTT_proper : Proper (feq ==> feq) INTT.
Proof. exact (intt_of_proper ML_DSA_Q 8 zi). Qed.

(** ** The loops compute the rounds *)

Lemma zetas_ok k : coeff_ok (coeff zetas_montgomery k).
Proof.
  assert (forallb (fun x => (0 <=? x) && (x <? ML_DSA_Q)) zetas_montgomery = true) as H by reflexivity.
  rewrite forallb_forall in H. unfold coeff.
  destruct (zetas_montgomery !! Z.to_nat k) as [x|] eqn:E; [|by compute].
  apply list_elem_of_lookup_2, list_elem_of_In in E. specialize (H x E). cbn [default]. unfold coeff_ok. simpl. lia.
Qed.

Definition ntt_round (p : POLY) (off : Z) : POLY :=
  ntt_pass (fun i => ntt_butterfly (coeff zetas_montgomery (128 / off + i))) (128 / off) off p.
Definition intt_round (off : Z) (p : POLY) : POLY :=
  ntt_pass (fun i => intt_butterfly
    (u32 (ML_DSA_Q - coeff zetas_montgomery (128 / off + (128 / off - 1 - i))))) (128 / off) off p.

Lemma ntt_unfold p : ossl_ml_dsa_poly_ntt p = foldl ntt_round p (offsets 8).
Proof. cbv -[ntt_pass ntt_butterfly zetas_montgomery coeff Z.add]. reflexivity. Qed.
Lemma intt_unfold p : intt_rounds 9 256 1 p = foldr intt_round p (offsets 8).
Proof. cbv -[ntt_pass intt_butterfly zetas_montgomery coeff Z.add Z.sub u32]. reflexivity. Qed.

Lemma poly_ok_coeff p i : poly_ok p -> 0 <= i < 256 -> coeff_ok (coeff p i).
Proof. intros [Hl Hc] Hi. rewrite coeff_Forall in Hc. apply Hc. lia. Qed.
Lemma poly_ok_intro p : zlen p = 256 -> (forall i, 0 <= i < 256 -> coeff_ok (coeff p i)) -> poly_ok p.
Proof. intros Hl H. split; [done|]. apply coeff_Forall. by rewrite Hl. Qed.

Lemma poly_ok_feq t f :
  zlen t = 256 -> (forall i, 0 <= i < 256 -> coeff_ok (coeff t i) /\ coeff t i ≡q f i) ->
  poly_ok t /\ feq (coeff t) f.
Proof. intros Hl H. split; [apply poly_ok_intro; [done|]|]; intros i Hi; by apply H. Qed.

Lemma ntt_round_ok p off :
  poly_ok p -> off ∈ offsets 8 -> poly_ok (ntt_round p off) /\ feq (coeff (ntt_round p off)) (fwd_round 8 zt off (coeff p)).
Proof.
  intros Hp Hoff. destruct (off_pos 8 off Hoff) as (? & ? & H256). change (2 ^ Z.of_nat 8 / 2) with 128 in *. change (2 ^ Z.of_nat 8) with 256 in *. pose proof Hp as [Hl _].
  destruct (pass_spec p off ltac:(lia) (fun i => ntt_butterfly (coeff zetas_montgomery (128 / off + i)))
    (128 / off)) as [Hl' Hc]; [lia|lia|]. fold (ntt_round p off) in *.
  apply poly_ok_feq; [lia|]. intros i Hi.
  rewrite Hc by lia. destruct (off_halves 8 off i Hoff Hi) as (_ & _ & H1 & H2).
    unfold pass_val, fwd_round, zt, ntt_butterfly. change (2 ^ Z.of_nat 8 / 2) with 128. set (z := coeff zetas_montgomery _).
    destruct (Z.ltb_spec (i mod (2 * off)) off) as [Hlt|Hge]; cbn [fst snd].
    - pose proof (poly_ok_coeff p i Hp ltac:(lia)). pose proof (poly_ok_coeff p (i + off) Hp ltac:(lia)) as Ho.
      destruct (montgomery_mul z (coeff p (i + off))) as [Hm Hmc];
        [apply zetas_ok|unfold coeff_ok, ML_DSA_Q in Ho; lia|].
      destruct (coeff_add_ok (coeff p i) _ H3 Hm) as [? Hs]. split; [done|]. rewrite Hs, Hmc. cong_by 0.
    - pose proof (poly_ok_coeff p i Hp ltac:(lia)) as Ho. pose proof (poly_ok_coeff p (i - off) Hp ltac:(lia)).
      destruct (montgomery_mul z (coeff p i)) as [Hm Hmc];
        [apply zetas_ok|unfold coeff_ok, ML_DSA_Q in Ho; lia|].
      destruct (coeff_sub_ok (coeff p (i - off)) _ H3 Hm) as [? Hs]. split; [done|]. rewrite Hs, Hmc. cong_by 0.
Qed.

Lemma intt_round_ok p off :
  poly_ok p -> off ∈ offsets 8 -> poly_ok (intt_round off p) /\ feq (coeff (intt_round off p)) (inv_round zi off (coeff p)).
Proof.
  intros Hp Hoff. destruct (off_pos 8 off Hoff) as (? & ? & H256). change (2 ^ Z.of_nat 8 / 2) with 128 in *. change (2 ^ Z.of_nat 8) with 256 in *. pose proof Hp as [Hl _].
  destruct (pass_spec p off ltac:(lia) (fun i => intt_butterfly
    (u32 (ML_DSA_Q - coeff zetas_montgomery (128 / off + (128 / off - 1 - i)))))
    (128 / off)) as [Hl' Hc]; [lia|lia|]. fold (intt_round off p) in *.
  apply poly_ok_feq; [lia|]. intros i Hi.
  rewrite Hc by lia. destruct (off_halves 8 off i Hoff Hi) as (_ & _ & H1 & H2).
    unfold pass_val, inv_round, zi, zt, intt_butterfly. set (z := coeff zetas_montgomery _).
    assert (coeff_ok z) as Hz by apply zetas_ok.
    destruct (Z.ltb_spec (i mod (2 * off)) off) as [Hlt|Hge]; cbn [fst snd].
    - pose proof (poly_ok_coeff p i Hp ltac:(lia)). pose proof (poly_ok_coeff p (i + off) Hp ltac:(lia)).
      rewrite (Z.add_comm (coeff p (i + off))). by apply coeff_add_ok.
    - pose proof (poly_ok_coeff p i Hp ltac:(lia)) as Ho. pose proof (poly_ok_coeff p (i - off) Hp ltac:(lia)) as Ho'.
      unfold coeff_ok, ML_DSA_Q in Ho, Ho', Hz.
      rewrite (u32_small (ML_DSA_Q - z)), (u32_small (ML_DSA_Q + _ - _)) by (unfold ML_DSA_Q; lia).
      rewrite u64_small by (unfold ML_DSA_Q; nia).
      destruct (reduce_montgomery_ok ((ML_DSA_Q - z) * (ML_DSA_Q + coeff p (i - off) - coeff p i))) as [Hm Hmc];
        [change (2 ^ 32) with 4294967296; unfold ML_DSA_Q; nia|]. split; [done|]. rewrite Hmc.
      set (d := coeff p (i - off) - coeff p i).
      replace (ML_DSA_Q + coeff p (i - off) - coeff p i) with (ML_DSA_Q + d) by (unfold d; lia).
      exists (R_INV * (ML_DSA_Q + d - z)). unfold R_INV. ring.
Qed.

(** The transforms of the code are the transforms on functions. *)
Lemma ntt_fold_ok l p f :
  l ⊆ offsets 8 -> poly_ok p -> feq (coeff p) f ->
  poly_ok (foldl ntt_round p l) /\
  feq (coeff (foldl ntt_round p l)) (foldl (fun f off => fwd_round 8 zt off f) f l).
Proof.
  revert p f. induction l as [|off l IH]; intros p f Hin Hp Hf; [done|]. cbn [foldl].
  assert (off ∈ offsets 8) as Hoff by (apply Hin; by left).
  destruct (ntt_round_ok p off Hp Hoff) as [Hp' Hr]. apply IH; [intros o Ho; apply Hin; by right|done|].
  rewrite Hr. by apply (fwd_proper ML_DSA_Q 8).
Qed.
Lemma intt_fold_ok l p :
  l ⊆ offsets 8 -> poly_ok p ->
  poly_ok (foldr intt_round p l) /\ feq (coeff (foldr intt_round p l)) (foldr (inv_round zi) (coeff p) l).
Proof.
  intros Hin Hp. induction l as [|off l IH]; [done|]. cbn [foldr].
  assert (off ∈ offsets 8) as Hoff by (apply Hin; by left).
  destruct IH as [Hp' Hr]; [intros o Ho; apply Hin; by right|].
  destruct (intt_round_ok _ off Hp' Hoff) as [Hq Hrq]. split; [done|]. rewrite Hrq. by apply (inv_proper ML_DSA_Q 8).
Qed.

Lemma ntt_ok p :
  poly_ok p -> poly_ok (ossl_ml_dsa_poly_ntt p) /\ feq (coeff (ossl_ml_dsa_poly_ntt p)) (NTT (coeff p)).
Proof. intros Hp. rewrite ntt_unfold. by apply ntt_fold_ok. Qed.
Lemma intt_rounds_ok p :
  poly_ok p -> poly_ok (intt_rounds 9 256 1 p) /\ feq (coeff (intt_rounds 9 256 1 p)) (INTT (coeff p)).
Proof. intros Hp. rewrite intt_unfold. by apply intt_fold_ok. Qed.

(** ** The tables *)

Lemma zt_square k : 1 <= k < 256 -> zt k * zt k ≡q node_val zt k.
Proof.
  intros Hk. apply congb_spec. assert (all_below 255 (fun i => congb (q := ML_DSA_Q) (zt (i + 1) * zt (i + 1)) (node_val zt (i + 1))) = true)
    as H by (vm_compute; reflexivity).
  apply (all_below_spec _ _ (k - 1)) in H; [|lia]. cbv beta in H. rewrite Z.sub_add in H. exact H.
Qed.

(** The twiddle factors of the inverse are the inverses of those of the transform. *)
Lemma zt_inverse off b :
  off ∈ offsets 8 -> 0 <= b < 128 / off -> zi off b * zt (128 / off + b) ≡q 1.
Proof.
  set (P := fun step b => congb (q := ML_DSA_Q) (- zt (step + (step - 1 - b)) * zt (step + b)) 1).
  assert (forallb (fun step => all_below (Z.to_nat step) (P step)) [1; 2; 4; 8; 16; 32; 64; 128] = true) as H
    by (vm_compute; reflexivity).
  rewrite forallb_forall in H. intros Hoff Hb. apply congb_spec. change (P (128 / off) b = true).
  apply (all_below_spec (Z.to_nat (128 / off))); [apply H|lia]. clear Hb.
  destruct (offsets_spec _ _ Hoff) as (t & Ht & ->). do 8 (destruct t as [|t]; [simpl; tauto|]). lia.
Qed.

(** The powers of 1753, and the order FIPS 204 takes them in. *)
Fixpoint pow_table (n : nat) (x : Z) : list Z :=
  match n with O => [] | S n' => x :: pow_table n' (x * 1753 mod ML_DSA_Q) end.
Lemma pow_table_spec n x i y : pow_table n x !! i = Some y -> y ≡q x * 1753 ^ Z.of_nat i.
Proof.
  revert x i. induction n as [|n IH]; intros x [|i] H; try done; cbn [pow_table] in H.
  - injection H as <-. change (Z.of_nat 0) with 0. rewrite Z.pow_0_r. cong_by 0.
  - apply IH in H. rewrite H, cong_mod, Nat2Z.inj_succ, Z.pow_succ_r by lia. cong_by 0.
Qed.

Definition BitRev8 (m : Z) : Z :=
  foldr (fun k acc => 2 * acc + (if Z.testbit m k then 1 else 0)) 0 [7; 6; 5; 4; 3; 2; 1; 0].
Definition root (i : Z) : Z := 1753 ^ (2 * BitRev8 i + 1).

(** The evaluation points of the transform. *)
Lemma root_val i : 0 <= i < 256 -> root i ≡q node_val zt (256 + i).
Proof.
  intros Hi. set (tab := pow_table 512 1).
  assert (all_below 256 (fun i => match tab !! Z.to_nat (2 * BitRev8 i + 1) with
    Some y => congb (q := ML_DSA_Q) y (node_val zt (256 + i)) && (0 <=? BitRev8 i) | None => false end) = true) as H by (vm_compute; reflexivity).
  apply (all_below_spec _ _ i) in H; [|lia]. cbv beta in H.
  destruct (tab !! _) as [y|] eqn:E; [|done]. apply andb_prop in H as [Hy%congb_spec Hb%Z.leb_le].
  rewrite <- Hy. apply pow_table_spec in E. rewrite E, Z2Nat.id by lia. unfold root. cong_by 0.
Qed.


(** ** What the transforms compute *)

Definition eval : (Z -> Z) -> Z -> Z := evaln 256.
Definition negacyclic : (Z -> Z) -> (Z -> Z) -> Z -> Z := negacyclicn 256.

Lemma NTT_eval f i : 0 <= i < 256 -> NTT f i ≡q eval f (root i).
Proof. exact (ntt_of_eval ML_DSA_Q 8 zt root zt_square root_val f i). Qed.
Lemma root_256 i j : 0 <= i < 256 -> 0 <= j -> root i ^ (256 + j) ≡q - root i ^ j.
Proof. exact (root_size ML_DSA_Q 8 zt root zt_square root_val i j). Qed.
Lemma eval_mult a b r :
  (forall j, 0 <= j -> r ^ (256 + j) ≡q - r ^ j) -> eval (negacyclic a b) r ≡q eval a r * eval b r.
Proof. exact (eval_negacyclic ML_DSA_Q 8 a b r). Qed.
Lemma NTT_linear a b f g : feq (NTT (fun j => a * f j + b * g j)) (fun j => a * NTT f j + b * NTT g j).
Proof. exact (ntt_of_linear ML_DSA_Q 8 zt a b f g). Qed.
Lemma INTT_linear a b f g : feq (INTT (fun j => a * f j + b * g j)) (fun j => a * INTT f j + b * INTT g j).
Proof. exact (intt_of_linear ML_DSA_Q 8 zi a b f g). Qed.
Lemma NTT_scale c f : feq (NTT (fun j => c * f j)) (fun j => c * NTT f j).
Proof. exact (ntt_of_scale ML_DSA_Q 8 zt c f). Qed.
Lemma INTT_scale c f : feq (INTT (fun j => c * f j)) (fun j => c * INTT f j).
Proof. exact (intt_of_scale ML_DSA_Q 8 zi c f). Qed.
Lemma INTT_NTT f : feq (INTT (NTT f)) (fun i => 256 * f i).
Proof. exact (intt_of_ntt_of ML_DSA_Q 8 zi zt zt_inverse f). Qed.
Lemma NTT_INTT g : feq (NTT (INTT g)) (fun i => 256 * g i).
Proof. exact (ntt_of_intt_of ML_DSA_Q 8 zi zt zt_inverse g). Qed.

(** ** The functions of the code *)

#[local] Opaque eval negacyclic.

Lemma ntt_mult_ok a b :
  poly_ok a -> poly_ok b -> poly_ok (ossl_ml_dsa_poly_ntt_mult a b) /\
  feq (coeff (ossl_ml_dsa_poly_ntt_mult a b)) (fun i => coeff a i * coeff b i * R_INV).
Proof.
  intros Ha Hb. pose proof Ha as [Hla _]. pose proof Hb as [Hlb _].
  unfold ossl_ml_dsa_poly_ntt_mult. apply poly_ok_feq; [rewrite zlen_zip_with; lia|]. intros i Hi.
  rewrite coeff_zip_with by lia. apply montgomery_mul; [by apply poly_ok_coeff|].
  pose proof (poly_ok_coeff b i Hb Hi) as Hc. unfold coeff_ok, ML_DSA_Q in Hc. lia.
Qed.

(** The final scaling of the inverse divides by 256 and multiplies by [2^32]. *)
Definition INV_SCALE : Z := inverse_degree_montgomery * R_INV.
Lemma INV_SCALE_spec : 256 * INV_SCALE ≡q 2 ^ 32.
Proof. by apply cong_iff_mod. Qed.

Lemma ntt_inverse_ok p :
  poly_ok p -> poly_ok (ossl_ml_dsa_poly_ntt_inverse p) /\
  feq (coeff (ossl_ml_dsa_poly_ntt_inverse p)) (fun i => INV_SCALE * INTT (coeff p) i).
Proof.
  intros Hp. destruct (intt_rounds_ok p Hp) as [Hq Hc]. unfold ossl_ml_dsa_poly_ntt_inverse.
  change ML_DSA_NUM_POLY_COEFFICIENTS with 256. set (t := intt_rounds 9 256 1 p) in *. pose proof Hq as [Hl _].
  apply poly_ok_feq; [by rewrite zlen_fmap|]. intros i Hi. rewrite coeff_map by lia.
  pose proof (poly_ok_coeff t i Hq Hi) as Ht.
  destruct (montgomery_mul (coeff t i) inverse_degree_montgomery) as [? Hm]; [done|by compute|].
  split; [done|]. rewrite Hm, (Hc i Hi). unfold INV_SCALE. cong_by 0.
Qed.

Lemma ntt_inverse_ntt p :
  poly_ok p -> feq (coeff (ossl_ml_dsa_poly_ntt_inverse (ossl_ml_dsa_poly_ntt p))) (fun i => 2 ^ 32 * coeff p i).
Proof.
  intros Hp. destruct (ntt_ok p Hp) as [Hn Hf]. destruct (ntt_inverse_ok _ Hn) as [_ Hi]. rewrite Hi.
  intros i Hi'. rewrite (INTT_proper _ _ Hf i Hi'), (INTT_NTT _ i Hi'), <- INV_SCALE_spec. cong_by 0.
Qed.
Lemma ntt_ntt_inverse p :
  poly_ok p -> feq (coeff (ossl_ml_dsa_poly_ntt (ossl_ml_dsa_poly_ntt_inverse p))) (fun i => 2 ^ 32 * coeff p i).
Proof.
  intros Hp. destruct (ntt_inverse_ok p Hp) as [Hn Hf]. destruct (ntt_ok _ Hn) as [_ Hi]. rewrite Hi.
  intros i Hi'. rewrite (NTT_proper _ _ Hf i Hi'), (NTT_scale _ _ i Hi'), (NTT_INTT _ i Hi'), <- INV_SCALE_spec.
  cong_by 0.
Qed.

Lemma poly_mult_ok a b :
  poly_ok a -> poly_ok b ->
  let p := ossl_ml_dsa_poly_ntt_inverse
             (ossl_ml_dsa_poly_ntt_mult (ossl_ml_dsa_poly_ntt a) (ossl_ml_dsa_poly_ntt b)) in
  poly_ok p /\ feq (coeff p) (negacyclic (coeff a) (coeff b)).
Proof.
  intros Ha Hb. cbv zeta. destruct (ntt_ok a Ha) as [Hna Hfa], (ntt_ok b Hb) as [Hnb Hfb].
  destruct (ntt_mult_ok _ _ Hna Hnb) as [Hm Hfm]. destruct (ntt_inverse_ok _ Hm) as [Hp Hfp].
  split; [done|]. rewrite Hfp.
  assert (feq (coeff (ossl_ml_dsa_poly_ntt_mult (ossl_ml_dsa_poly_ntt a) (ossl_ml_dsa_poly_ntt b)))
    (fun i => R_INV * NTT (negacyclic (coeff a) (coeff b)) i)) as Hc.
  { intros i Hi. rewrite (Hfm i Hi), (Hfa i Hi), (Hfb i Hi), !NTT_eval by done.
    rewrite eval_mult by (intros; by apply root_256). cong_by 0. }
  intros i Hi. rewrite (INTT_proper _ _ Hc i Hi), (INTT_scale _ _ i Hi), (INTT_NTT _ i Hi).
  generalize (negacyclic (coeff a) (coeff b) i). intros x.
  transitivity (256 * INV_SCALE * R_INV * x); [cong_by 0|].
  rewrite INV_SCALE_spec, (Z.mul_comm (2 ^ 32)), R_INV_unit. cong_by 0.
Qed.

(** The transform is the one of FIPS 204.  For a polynomial with reduced
    coefficients, [ossl_ml_dsa_poly_ntt] leaves at index [i] the value of the
    polynomial at [1753^(2 * BitRev8(i) + 1)] modulo [q], reduced; every index
    stays in the array and no intermediate value overflows its width. *)
Lemma ml_dsa_ntt_evaluates p i :
  poly_ok p -> 0 <= i < 256 ->
  poly_ok (ossl_ml_dsa_poly_ntt p) /\
  coeff (ossl_ml_dsa_poly_ntt p) i = eval (coeff p) (1753 ^ (2 * BitRev8 i + 1)) mod ML_DSA_Q.
Proof.
  intros Hp Hi. destruct (ntt_ok p Hp) as [Hn Hf]. split; [done|].
  apply cong_unique; [by apply poly_ok_coeff|]. rewrite (Hf i Hi). by apply NTT_eval.
Qed.

Lemma ml_dsa_ntt_evaluates_witness :
  let p := 3 :: 1 :: zeros 254 in
  coeff (ossl_ml_dsa_poly_ntt p) 0 = eval (coeff p) (1753 ^ (2 * BitRev8 0 + 1)) mod ML_DSA_Q.
Proof.
  apply (ml_dsa_ntt_evaluates (3 :: 1 :: zeros 254) 0); [|lia].
  split; [reflexivity|]. repeat (constructor; [by compute|]). constructor.
Defined.

(** C27: multiplication through the transform is exact.  Transforming two
    polynomials, multiplying pointwise and transforming back gives, for every
    pair of reduced polynomials, the coefficients of their product modulo
    [X^256 + 1] and [q]: the Montgomery factors of the three steps cancel.  The
    two transforms undo each other up to the factor [2^32]. *)
Theorem ml_dsa_poly_mult_exact a b k :
  poly_ok a -> poly_ok b -> 0 <= k < 256 ->
  let p := ossl_ml_dsa_poly_ntt_inverse
             (ossl_ml_dsa_poly_ntt_mult (ossl_ml_dsa_poly_ntt a) (ossl_ml_dsa_poly_ntt b)) in
  poly_ok p /\
  coeff p k = negacyclic (coeff a) (coeff b) k mod ML_DSA_Q /\
  coeff (ossl_ml_dsa_poly_ntt_inverse (ossl_ml_dsa_poly_ntt a)) k = 2 ^ 32 * coeff a k mod ML_DSA_Q /\
  coeff (ossl_ml_dsa_poly_ntt (ossl_ml_dsa_poly_ntt_inverse a)) k = 2 ^ 32 * coeff a k mod ML_DSA_Q.
Proof.
  intros Ha Hb Hk. destruct (poly_mult_ok a b Ha Hb) as [Hp Hf]. split_and!.
  - done.
  - apply cong_unique; [by apply poly_ok_coeff|by apply Hf].
  - apply cong_unique; [|by apply ntt_inverse_ntt]. apply poly_ok_coeff; [|done].
    by apply ntt_inverse_ok, ntt_ok.
  - apply cong_unique; [|by apply ntt_ntt_inverse]. apply poly_ok_coeff; [|done].
    by apply ntt_ok, ntt_inverse_ok.
Qed.

Lemma ml_dsa_poly_mult_exact_witness :
  let x255 := zeros 255 ++ [1] in let x := 0 :: 1 :: zeros 254 in
  coeff (ossl_ml_dsa_poly_ntt_inverse
    (ossl_ml_dsa_poly_ntt_mult (ossl_ml_dsa_poly_ntt x255) (ossl_ml_dsa_poly_ntt x))) 0 = 8380416.
Proof.
  assert (poly_ok (zeros 255 ++ [1]) /\ poly_ok (0 :: 1 :: zeros 254)) as [Ha Hb].
  { split; (split; [reflexivity|]; repeat (constructor; [by compute|]); constructor). }
  cbv zeta. destruct (ml_dsa_poly_mult_exact _ _ 0 Ha Hb) as (_ & -> & _); [lia|].
  vm_compute. reflexivity.
Defined.
