(* ===== verification/MlDsaPoly.v ===== *)
(** * ML-DSA: polynomials, vectors and matrices

    Model of [crypto/ml_dsa/ml_dsa_poly.h], [ml_dsa_vector.h], [ml_dsa_matrix.h]
    and [ml_dsa_matrix.c], less the functions that draw from a hash.  A loop over
    the coefficients that writes each of them from the operands at the same index
    is a map of the operand lists, which is also what it computes when the output
    is one of the operands.  Each operation is related to the coefficient
    functions of its operands. *)
From S2P Require Import Prelude.
From S2P Require Import ConstantTime.
From S2P Require Import ZSum.
From S2P Require Import NttPass.
From S2P Require Import ModCong.
From S2P Require Import MlDsaField.
From S2P Require Import MlDsaRound.
From S2P Require Import MlDsaNtt.

(** ** Polynomials *)

Definition poly_zero : POLY := zeros 256.
Definition poly_add (lhs rhs : POLY) : POLY := zip_with (fun a b => reduce_once (u32 (a + b))) lhs rhs.
Definition poly_sub (lhs rhs : POLY) : POLY := zip_with mod_sub lhs rhs.
Definition poly_equal (a b : POLY) : bool := bool_decide (a = b).
Definition poly_ntt (p : POLY) : POLY := ossl_ml_dsa_poly_ntt p.

Definition poly_power2_round (t : POLY) : POLY * POLY :=
  ((fun c => (ossl_ml_dsa_key_compress_power2_round c).1) <$> t,
   (fun c => (ossl_ml_dsa_key_compress_power2_round c).2) <$> t).
Definition poly_scale_power2_round (p : POLY) : POLY := (fun c => u32 (Z.shiftl c ML_DSA_D_BITS)) <$> p.
Definition poly_high_bits (p : POLY) (gamma2 : Z) : POLY :=
  (fun c => ossl_ml_dsa_key_compress_high_bits c gamma2) <$> p.
(** The signed low bits are stored in unsigned coefficients. *)
Definition poly_low_bits (p : POLY) (gamma2 : Z) : POLY :=
  (fun c => u32 (ossl_ml_dsa_key_compress_low_bits c gamma2)) <$> p.
Definition poly_make_hint (ct0 cs2 w : POLY) (gamma2 : Z) : POLY :=
  zip_with (fun '(a, b) c => u32 (ossl_ml_dsa_key_compress_make_hint a b gamma2 c)) (zip ct0 cs2) w.
Definition poly_use_hint (h r : POLY) (gamma2 : Z) : POLY :=
  zip_with (fun a b => ossl_ml_dsa_key_compress_use_hint a b gamma2) h r.
Definition poly_max (p : POLY) (mx : Z) : Z := foldl (fun mx c => maximum mx (abs_mod_prime c)) mx p.
Definition poly_max_signed (p : POLY) (mx : Z) : Z := foldl (fun mx c => maximum mx (abs_signed c)) mx p.

(** ** Vectors *)

(** [struct vector_st]: the array and its length. *)
Abbreviation VECTOR := (list (list Z)).
Definition vget (v : VECTOR) (i : Z) : POLY := default poly_zero (v !! Z.to_nat i).
Definition vset (v : VECTOR) (i : Z) (p : POLY) : VECTOR := <[Z.to_nat i := p]> v.

Definition vector_zero (va : VECTOR) : VECTOR := replicate (length va) poly_zero.
Definition vector_equal (a b : VECTOR) : bool :=
  if negb (zlen a =? zlen b) then false else forallb (fun '(x, y) => poly_equal x y) (zip a b).
Definition vector_add (lhs rhs : VECTOR) : VECTOR := zip_with poly_add lhs rhs.
Definition vector_sub (lhs rhs : VECTOR) : VECTOR := zip_with poly_sub lhs rhs.
Definition vector_ntt (va : VECTOR) : VECTOR := ossl_ml_dsa_poly_ntt <$> va.
Definition vector_ntt_inverse (va : VECTOR) : VECTOR := ossl_ml_dsa_poly_ntt_inverse <$> va.
Definition vector_mult_scalar (lhs : VECTOR) (rhs : POLY) : VECTOR :=
  (fun p => ossl_ml_dsa_poly_ntt_mult p rhs) <$> lhs.
Definition vector_scale_power2_round_ntt (va : VECTOR) : VECTOR := vector_ntt (poly_scale_power2_round <$> va).
Definition vector_power2_round (t : VECTOR) : VECTOR * VECTOR :=
  ((fun p => (poly_power2_round p).1) <$> t, (fun p => (poly_power2_round p).2) <$> t).
Definition vector_high_bits (va : VECTOR) (gamma2 : Z) : VECTOR := (fun p => poly_high_bits p gamma2) <$> va.
Definition vector_low_bits (va : VECTOR) (gamma2 : Z) : VECTOR := (fun p => poly_low_bits p gamma2) <$> va.
Definition vector_max (v : VECTOR) : Z := foldl (fun mx p => poly_max p mx) 0 v.
Definition vector_max_signed (v : VECTOR) : Z := foldl (fun mx p => poly_max_signed p mx) 0 v.
Definition vector_count_ones (v : VECTOR) : Z :=
  foldl (fun count p => foldl (fun count c => u64 (count + c)) count p) 0 v.
Definition vector_make_hint (ct0 cs2 w : VECTOR) (gamma2 : Z) : VECTOR :=
  zip_with (fun '(a, b) c => poly_make_hint a b c gamma2) (zip ct0 cs2) w.
Definition vector_use_hint (h r : VECTOR) (gamma2 : Z) : VECTOR :=
  zip_with (fun a b => poly_use_hint a b gamma2) h r.

(** ** Matrices *)

(** [struct matrix_st]: [k * l] polynomials, row by row. *)
Record MATRIX := mkMATRIX { m_poly : list POLY; m_k : Z; m_l : Z }.

Definition ossl_ml_dsa_matrix_mult_vector (a : MATRIX) (s t : VECTOR) : VECTOR :=
  (for_each (Z.to_nat (m_k a)) 0 (fun i st =>
     for_each (Z.to_nat (m_l a)) 0 (fun j '(poly, t) =>
       let product := ossl_ml_dsa_poly_ntt_mult (vget (m_poly a) poly) (vget s j) in
       (poly + 1, vset t i (poly_add product (vget t i)))) st)
     (0, vector_zero t)).2.

(** ** Well-formed vectors *)

Definition vec_ok (n : Z) (v : VECTOR) : Prop := zlen v = n /\ Forall poly_ok v.
(** The coefficients of component [i]. *)
Definition vc (v : VECTOR) (i : Z) : Z -> Z := coeff (vget v i).

Lemma poly_zero_ok : poly_ok poly_zero.
Proof. split; [done|]. apply Forall_replicate. by compute. Qed.
Lemma coeff_zero i : coeff poly_zero i = 0.
Proof.
  unfold coeff, poly_zero, zeros. destruct (decide (Z.to_nat i < 256)%nat).
  - by rewrite lookup_replicate_2 by lia.
  - by rewrite lookup_ge_None_2 by (rewrite length_replicate; lia).
Qed.

Lemma vget_lookup (v : VECTOR) i : 0 <= i < zlen v -> v !! Z.to_nat i = Some (vget v i).
Proof.
  unfold zlen, vget. intros. destruct (lookup_lt_is_Some_2 v (Z.to_nat i)) as [x ->]; [lia|done].
Qed.
Lemma vget_set v i p j :
  0 <= i < zlen v -> 0 <= j -> vget (vset v i p) j = if j =? i then p else vget v j.
Proof.
  unfold vget, vset, zlen. intros Hi Hj. destruct (Z.eqb_spec j i) as [->|].
  - by rewrite list_lookup_insert_eq by lia.
  - by rewrite list_lookup_insert_ne by lia.
Qed.
Lemma zlen_vset v i p : zlen (vset v i p) = zlen v.
Proof. unfold zlen, vset. by rewrite length_insert. Qed.
Lemma vget_map f v i : 0 <= i < zlen v -> vget (f <$> v) i = f (vget v i).
Proof. intros Hi. unfold vget at 1. by rewrite list_lookup_fmap, vget_lookup. Qed.
Lemma vget_zip_with (f : POLY -> POLY -> POLY) v w i :
  0 <= i < zlen v -> zlen v = zlen w -> vget (zip_with f v w) i = f (vget v i) (vget w i).
Proof. intros Hi Hl. unfold vget at 1. rewrite lookup_zip_with, !vget_lookup by lia. done. Qed.
Lemma vec_ext v w :
  zlen v = zlen w -> (forall i, 0 <= i < zlen v -> vget v i = vget w i) -> v = w.
Proof.
  unfold zlen, vget. intros Hl H. apply list_eq_same_length with (length w); [done|lia|].
  intros i x y Hi Hx Hy. specialize (H (Z.of_nat i) ltac:(lia)). rewrite Nat2Z.id, Hx, Hy in H. done.
Qed.

Lemma vec_ok_get n v i : vec_ok n v -> 0 <= i < n -> poly_ok (vget v i).
Proof.
  intros [Hl Hv] Hi. rewrite Forall_lookup in Hv. apply (Hv (Z.to_nat i)), vget_lookup. lia.
Qed.
Lemma vec_ok_intro n v : zlen v = n -> (forall i, 0 <= i < n -> poly_ok (vget v i)) -> vec_ok n v.
Proof.
  intros Hl H. split; [done|]. apply Forall_lookup. intros i x Hx. pose proof (lookup_lt_Some _ _ _ Hx) as Hi.
  specialize (H (Z.of_nat i)). unfold vget, zlen in *. rewrite Nat2Z.id, Hx in H. apply H. lia.
Qed.

(** Two reduced polynomials with congruent coefficients are equal. *)
Lemma poly_eq_feq p q : poly_ok p -> poly_ok q -> feq (coeff p) (coeff q) -> p = q.
Proof.
  intros Hp Hq H. pose proof Hp as [Hlp _]. pose proof Hq as [Hlq _]. apply coeff_ext; [lia|].
  intros i Hi. rewrite Hlp in Hi. apply cong_eq; [by apply poly_ok_coeff..|by apply H].
Qed.

(** ** The operations on coefficients *)

Lemma poly_add_ok a b :
  poly_ok a -> poly_ok b -> poly_ok (poly_add a b) /\ feq (coeff (poly_add a b)) (fun i => coeff a i + coeff b i).
Proof.
  intros Ha Hb. pose proof Ha as [Hla _]. pose proof Hb as [Hlb _].
  unfold poly_add. apply poly_ok_feq; [rewrite zlen_zip_with; lia|]. intros i Hi.
  rewrite coeff_zip_with by lia. apply coeff_add_ok; by apply poly_ok_coeff.
Qed.
Lemma poly_sub_ok a b :
  poly_ok a -> poly_ok b -> poly_ok (poly_sub a b) /\ feq (coeff (poly_sub a b)) (fun i => coeff a i - coeff b i).
Proof.
  intros Ha Hb. pose proof Ha as [Hla _]. pose proof Hb as [Hlb _].
  unfold poly_sub. apply poly_ok_feq; [rewrite zlen_zip_with; lia|]. intros i Hi.
  rewrite coeff_zip_with by lia. apply coeff_sub_ok; by apply poly_ok_coeff.
Qed.

(** Vector operations component by component. *)
Lemma vec_map_ok n v f (g : (Z -> Z) -> Z -> Z) :
  (forall p, poly_ok p -> poly_ok (f p) /\ feq (coeff (f p)) (g (coeff p))) ->
  vec_ok n v -> vec_ok n (f <$> v) /\ forall i, 0 <= i < n -> feq (vc (f <$> v) i) (g (vc v i)).
Proof.
  intros Hf Hv. pose proof Hv as [Hl _].
  assert (forall i, 0 <= i < n -> poly_ok (vget (f <$> v) i) /\ feq (vc (f <$> v) i) (g (vc v i))) as H.
  { intros i Hi. unfold vc. rewrite vget_map by lia. apply Hf. by eapply vec_ok_get. }
  split; [apply vec_ok_intro; [by rewrite zlen_fmap|]|]; intros i Hi; by apply H.
Qed.
Lemma vec_zip_ok n v w f (g : (Z -> Z) -> (Z -> Z) -> Z -> Z) :
  (forall p q, poly_ok p -> poly_ok q -> poly_ok (f p q) /\ feq (coeff (f p q)) (g (coeff p) (coeff q))) ->
  vec_ok n v -> vec_ok n w ->
  vec_ok n (zip_with f v w) /\ forall i, 0 <= i < n -> feq (vc (zip_with f v w) i) (g (vc v i) (vc w i)).
Proof.
  intros Hf Hv Hw. pose proof Hv as [Hl _]. pose proof Hw as [Hl' _].
  assert (forall i, 0 <= i < n -> poly_ok (vget (zip_with f v w) i) /\
    feq (vc (zip_with f v w) i) (g (vc v i) (vc w i))) as H.
  { intros i Hi. unfold vc. rewrite vget_zip_with by lia. apply Hf; by eapply vec_ok_get. }
  split; [apply vec_ok_intro|]; [|intros i Hi; by apply H..].
  unfold zlen in *. rewrite length_zip_with. lia.
Qed.

Lemma vector_add_ok n v w :
  vec_ok n v -> vec_ok n w -> vec_ok n (vector_add v w) /\
  forall i, 0 <= i < n -> feq (vc (vector_add v w) i) (fun x => vc v i x + vc w i x).
Proof. apply (vec_zip_ok n v w poly_add (fun f g x => f x + g x)), poly_add_ok. Qed.
Lemma vector_sub_ok n v w :
  vec_ok n v -> vec_ok n w -> vec_ok n (vector_sub v w) /\
  forall i, 0 <= i < n -> feq (vc (vector_sub v w) i) (fun x => vc v i x - vc w i x).
Proof. apply (vec_zip_ok n v w poly_sub (fun f g x => f x - g x)), poly_sub_ok. Qed.
Lemma vector_ntt_ok n v :
  vec_ok n v -> vec_ok n (vector_ntt v) /\ forall i, 0 <= i < n -> feq (vc (vector_ntt v) i) (NTT (vc v i)).
Proof. apply (vec_map_ok n v ossl_ml_dsa_poly_ntt NTT), ntt_ok. Qed.
Lemma vector_ntt_inverse_ok n v :
  vec_ok n v -> vec_ok n (vector_ntt_inverse v) /\
  forall i, 0 <= i < n -> feq (vc (vector_ntt_inverse v) i) (fun x => INV_SCALE * INTT (vc v i) x).
Proof. apply (vec_map_ok n v ossl_ml_dsa_poly_ntt_inverse (fun f x => INV_SCALE * INTT f x)), ntt_inverse_ok. Qed.
Lemma vector_mult_scalar_ok n v c :
  vec_ok n v -> poly_ok c -> vec_ok n (vector_mult_scalar v c) /\
  forall i, 0 <= i < n -> feq (vc (vector_mult_scalar v c) i) (fun x => vc v i x * coeff c x * R_INV).
Proof.
  intros Hv Hc. revert Hv.
  apply (vec_map_ok n v (fun p => ossl_ml_dsa_poly_ntt_mult p c) (fun f x => f x * coeff c x * R_INV)).
  intros p Hp. by apply ntt_mult_ok.
Qed.

(** ** Matrix by vector *)

Definition mat_ok (k l : Z) (a : MATRIX) : Prop :=
  m_k a = k /\ m_l a = l /\ 0 <= k /\ 0 <= l /\ vec_ok (k * l) (m_poly a).
(** Entry [(i, j)]. *)
Definition mc (a : MATRIX) (i j : Z) : Z -> Z := vc (m_poly a) (i * m_l a + j).

(** The first [j] products of row [i]. *)
Definition row_sum (a : MATRIX) (s : VECTOR) (i : Z) (n : nat) (x : Z) : Z :=
  zsum (fun j => mc a i j x * vc s j x * R_INV) n.

Lemma vector_zero_ok (t : VECTOR) : vec_ok (zlen t) (vector_zero t) /\ forall i x, vc (vector_zero t) i x = 0.
Proof.
  split.
  - split; [unfold zlen, vector_zero; by rewrite length_replicate|]. apply Forall_replicate, poly_zero_ok.
  - intros i x. unfold vc, vget, vector_zero.
    destruct (decide (Z.to_nat i < length t)%nat).
    + rewrite lookup_replicate_2 by lia. apply coeff_zero.
    + rewrite lookup_ge_None_2 by (rewrite length_replicate; lia). apply coeff_zero.
Qed.

Lemma vset_ok n v i p : vec_ok n v -> 0 <= i < n -> poly_ok p -> vec_ok n (vset v i p).
Proof.
  intros Hv Hi Hp. pose proof Hv as [Hl _]. apply vec_ok_intro; [by rewrite zlen_vset|]. intros j Hj.
  rewrite vget_set by lia. destruct (j =? i); [done|]. by eapply vec_ok_get.
Qed.

Section MatrixVector.
Context (k l : Z) (a : MATRIX) (s : VECTOR) (Ha : mat_ok k l a) (Hs : vec_ok l s).

(** The state before column [j] of row [i]. *)
Definition mv_inv (i j : Z) (st : Z * VECTOR) : Prop :=
  st.1 = i * l + j /\ vec_ok k st.2 /\
  (forall i', 0 <= i' < i -> feq (vc st.2 i') (row_sum a s i' (Z.to_nat l))) /\
  (forall i', i < i' < k -> feq (vc st.2 i') (fun _ => 0)) /\
  (i < k -> feq (vc st.2 i) (row_sum a s i (Z.to_nat j))).

Lemma mv_row i st :
  0 <= i < k -> mv_inv i 0 st ->
  mv_inv (i + 1) 0 (for_each (Z.to_nat l) 0 (fun j '(poly, t) =>
    (poly + 1, vset t i (poly_add (ossl_ml_dsa_poly_ntt_mult (vget (m_poly a) poly) (vget s j)) (vget t i)))) st).
Proof.
  intros Hi Hst. destruct Ha as (Ek & El & Hk0 & Hl0 & Hm). set (body := fun j '(poly, t) => _).
  enough (mv_inv i l (for_each (Z.to_nat l) 0 body st)) as (H1 & H2 & H3 & H4 & H5).
  { split_and!; [lia|done| | |].
    - intros i' Hi'. destruct (Z.eq_dec i' i) as [->|]; [apply H5; lia|]. apply H3. lia.
    - intros i' Hi'. apply H4. lia.
    - intros Hi'. apply H4. lia. }
  replace l with (0 + Z.of_nat (Z.to_nat l)) at 1 by lia.
  apply (for_each_inv (fun j st => mv_inv i j st)); [done|]. rewrite Z2Nat.id by lia.
  intros j [poly t] Hj (E & Hv & H3 & H4 & H5). cbn [fst snd] in *. subst poly. unfold body.
  set (m := vget (m_poly a) (i * l + j)). assert (poly_ok m) as Hmo by (eapply vec_ok_get; [done|nia]).
  assert (poly_ok (vget s j)) as Hso by (eapply vec_ok_get; [done|lia]).
  assert (poly_ok (vget t i)) as Hto by (eapply vec_ok_get; [done|lia]).
  destruct (ntt_mult_ok m (vget s j) Hmo Hso) as [Hp Hpf].
  destruct (poly_add_ok _ _ Hp Hto) as [Hr Hrf]. set (r := poly_add _ _) in *.
  pose proof Hv as [Hlt _].
  assert (forall i', 0 <= i' < k -> i' <> i -> vc (vset t i r) i' = vc t i') as Hne.
  { intros i' Hi' Hn. unfold vc. rewrite vget_set by lia. by destruct (Z.eqb_spec i' i). }
  split_and!; cbn [fst snd].
  - lia.
  - by apply vset_ok.
  - intros i' Hi'. rewrite Hne by lia. by apply H3.
  - intros i' Hi'. rewrite Hne by lia. by apply H4.
  - intros _. unfold vc. rewrite vget_set by lia. rewrite Z.eqb_refl. intros x Hx.
    rewrite (Hrf x Hx), (Hpf x Hx). specialize (H5 ltac:(lia) x Hx). unfold vc in H5. rewrite H5.
    replace (Z.to_nat (j + 1)) with (S (Z.to_nat j)) by lia. unfold row_sum. cbn [zsum]. rewrite Z2Nat.id by lia.
    unfold mc, vc. rewrite El. fold m. apply cong_of_eq. lia.
Qed.

Lemma matrix_mult_vector_ok (t : VECTOR) :
  zlen t = k -> vec_ok k (ossl_ml_dsa_matrix_mult_vector a s t) /\
  forall i, 0 <= i < k -> feq (vc (ossl_ml_dsa_matrix_mult_vector a s t) i) (row_sum a s i (Z.to_nat l)).
Proof.
  intros Ht. unfold ossl_ml_dsa_matrix_mult_vector. destruct Ha as (Ek & El & Hk0 & Hl0 & Hm). rewrite Ek, El.
  destruct (vector_zero_ok t) as [Hz Hz0]. rewrite Ht in Hz.
  match goal with |- context [for_each ?n ?i ?b ?s0] =>
    assert (mv_inv (0 + Z.of_nat n) 0 (for_each n i b s0)) as Hinv end.
  - apply (for_each_inv (fun i st => mv_inv i 0 st)).
    + split_and!; cbn [fst snd]; [lia|done|intros; lia| |]; intros; intros x Hx; rewrite Hz0; done.
    + intros i st Hi Hst. apply mv_row; [lia|done].
  - destruct Hinv as (_ & Hv & Hd & _). rewrite Z2Nat.id in Hd by lia. split; [done|]. intros i Hi. apply Hd. lia.
Qed.
End MatrixVector.

(** ** Norms *)

Lemma vec_Forall (P : Z -> Prop) n v :
  vec_ok n v ->
  (Forall (Forall P) v <-> forall i x, 0 <= i < n -> 0 <= x < 256 -> P (vc v i x)).
Proof.
  intros Hv. pose proof Hv as [Hl Hv']. rewrite Forall_lookup. split.
  - intros Hf i x Hi Hx. specialize (Hf (Z.to_nat i) (vget v i) ltac:(apply vget_lookup; lia)).
    rewrite coeff_Forall in Hf. apply Hf. destruct (vec_ok_get n v i Hv Hi). lia.
  - intros Hf i p Hp. pose proof (lookup_lt_Some _ _ _ Hp) as Hi. apply coeff_Forall. intros x Hx.
    specialize (Hf (Z.of_nat i) x). unfold vc, vget in Hf. rewrite Nat2Z.id, Hp in Hf.
    apply Hf; [unfold zlen in Hl; lia|]. rewrite Forall_lookup in Hv'. destruct (Hv' _ _ Hp). lia.
Qed.

Lemma abs_mod_prime_range c : coeff_ok c -> 0 <= abs_mod_prime c < 4294967296.
Proof.
  intros Hc. rewrite abs_mod_prime_spec by done. pose proof (centered_range c Hc) as H.
  change ML_DSA_Q_MINUS1_DIV2 with 4190208 in H. lia.
Qed.

Lemma poly_max_lt p mx B :
  Forall coeff_ok p -> 0 <= mx < 4294967296 ->
  0 <= poly_max p mx < 4294967296 /\
  (poly_max p mx < B <-> mx < B /\ Forall (fun c => Z.abs (centered c) < B) p).
Proof.
  unfold poly_max. intros Hp. revert mx. induction Hp as [|c p Hc Hp IH]; intros mx Hmx; cbn [foldl].
  - split; [done|]. intuition.
  - pose proof (abs_mod_prime_range c Hc) as Ha. rewrite maximum_spec by done.
    destruct (IH (Z.max mx (abs_mod_prime c))) as [Hr Hi]; [lia|]. split; [done|].
    rewrite Hi, Forall_cons, abs_mod_prime_spec by done. rewrite Z.max_lub_lt_iff. tauto.
Qed.

Lemma vector_max_lt n v B :
  vec_ok n v -> 0 < B ->
  (vector_max v < B <-> forall i x, 0 <= i < n -> 0 <= x < 256 -> Z.abs (centered (vc v i x)) < B).
Proof.
  intros Hv HB.
  assert (forall (v : VECTOR) mx, Forall poly_ok v -> 0 <= mx < 4294967296 ->
    (foldl (fun mx p => poly_max p mx) mx v < B <-> mx < B /\ Forall (Forall (fun c => Z.abs (centered c) < B)) v)) as H.
  { clear v Hv. intros v mx Hv. revert mx. induction Hv as [|p v Hp Hv IH]; intros mx Hmx; cbn [foldl]; [intuition|].
    destruct (poly_max_lt p mx B) as [Hr Hi]; [apply Hp|done|]. rewrite IH, Hi, Forall_cons by done. tauto. }
  unfold vector_max. rewrite H, (vec_Forall _ n v Hv) by (apply Hv || lia). intuition lia.
Qed.

(** The low bits of a vector, as the signer bounds them. *)
Lemma poly_max_signed_lt p gamma2 mx B :
  gamma2_ok gamma2 -> Forall coeff_ok p -> 0 <= mx < 4294967296 ->
  let m := poly_max_signed (poly_low_bits p gamma2) mx in
  0 <= m < 4294967296 /\
  (m < B <-> mx < B /\ Forall (fun c => Z.abs (ossl_ml_dsa_key_compress_low_bits c gamma2) < B) p).
Proof.
  unfold poly_max_signed, poly_low_bits. intros Hg Hp. revert mx.
  induction Hp as [|c p Hc Hp IH]; intros mx Hmx; cbn [foldl fmap list_fmap].
  - split; [done|]. intuition.
  - pose proof (low_bits_range c gamma2 Hc Hg) as Ha.
    assert (gamma2 <= 261888) by (destruct Hg as [-> | ->]; by compute).
    rewrite abs_signed_spec by lia. rewrite maximum_spec by lia.
    destruct (IH (Z.max mx (Z.abs (ossl_ml_dsa_key_compress_low_bits c gamma2)))) as [Hr Hi]; [lia|]. split; [done|].
    rewrite Hi, Forall_cons, Z.max_lub_lt_iff. tauto.
Qed.

Lemma vector_max_signed_lt n v gamma2 B :
  gamma2_ok gamma2 -> vec_ok n v -> 0 < B ->
  (vector_max_signed (vector_low_bits v gamma2) < B <->
   forall i x, 0 <= i < n -> 0 <= x < 256 -> Z.abs (ossl_ml_dsa_key_compress_low_bits (vc v i x) gamma2) < B).
Proof.
  intros Hg Hv HB.
  assert (forall (v : VECTOR) mx, Forall poly_ok v -> 0 <= mx < 4294967296 ->
    (foldl (fun mx p => poly_max_signed p mx) mx (vector_low_bits v gamma2) < B <->
     mx < B /\ Forall (Forall (fun c => Z.abs (ossl_ml_dsa_key_compress_low_bits c gamma2) < B)) v)) as H.
  { clear v Hv. intros v mx Hv. revert mx.
    induction Hv as [|p v Hp Hv IH]; intros mx Hmx; cbn [foldl vector_low_bits fmap list_fmap]; [intuition|].
    destruct (poly_max_signed_lt p gamma2 mx B) as [Hr Hi]; [done|apply Hp|done|].
    unfold vector_low_bits, fmap in IH. rewrite IH, Hi, Forall_cons by done. tauto. }
  unfold vector_max_signed. rewrite H, (vec_Forall _ n v Hv) by (apply Hv || lia). intuition lia.
Qed.
