(* ===== verification/MlDsaParams.v ===== *)
(** * ML-DSA parameter sets

    The table of [crypto/ml_dsa/ml_dsa_params.c], its lookup by key type, and the
    relations between its columns that the encoders and the signer rely on. *)
From S2P Require Import Prelude.
From S2P Require Import ConstantTime.
From S2P Require Import ModCong.
From S2P Require Import MlDsaField.
From S2P Require Import MlDsaRound.

Record ML_DSA_PARAMS := mkML_DSA_PARAMS {
  dp_alg : string; dp_evp_type : Z; dp_tau : Z; dp_bit_strength : Z; dp_gamma1 : Z; dp_gamma2 : Z;
  dp_k : Z; dp_l : Z; dp_eta : Z; dp_beta : Z; dp_omega : Z; dp_security_category : Z;
  dp_sk_len : Z; dp_pk_len : Z; dp_sig_len : Z }.
#[export] Instance ML_DSA_PARAMS_eq_dec : EqDecision ML_DSA_PARAMS.
Proof. solve_decision. Defined.

Definition EVP_PKEY_ML_DSA_44 : Z := 1457.
Definition EVP_PKEY_ML_DSA_65 : Z := 1458.
Definition EVP_PKEY_ML_DSA_87 : Z := 1459.

(** The rows up to the terminator. *)
Definition ml_dsa_params : list ML_DSA_PARAMS :=
  [mkML_DSA_PARAMS "ML-DSA-44" EVP_PKEY_ML_DSA_44 39 128
     ML_DSA_GAMMA1_TWO_POWER_17 ML_DSA_GAMMA2_Q_MINUS1_DIV88 4 4 ML_DSA_ETA_2 78 80 2 2560 1312 2420;
   mkML_DSA_PARAMS "ML-DSA-65" EVP_PKEY_ML_DSA_65 49 192
     ML_DSA_GAMMA1_TWO_POWER_19 ML_DSA_GAMMA2_Q_MINUS1_DIV32 6 5 ML_DSA_ETA_4 196 55 3 4032 1952 3309;
   mkML_DSA_PARAMS "ML-DSA-87" EVP_PKEY_ML_DSA_87 60 256
     ML_DSA_GAMMA1_TWO_POWER_19 ML_DSA_GAMMA2_Q_MINUS1_DIV32 8 7 ML_DSA_ETA_2 120 75 5 4896 2592 4627].

Definition ossl_ml_dsa_params_get (evp_type : Z) : option ML_DSA_PARAMS :=
  List.find (fun p => dp_evp_type p =? evp_type) ml_dsa_params.

(** ** Consistency of the table *)

(** The number of bits of a coefficient of [z], of [s1] and [s2], and of [w1]. *)
Definition gamma1_bits (gamma1 : Z) : Z := if gamma1 =? ML_DSA_GAMMA1_TWO_POWER_19 then 20 else 18.
Definition eta_bits (eta : Z) : Z := if eta =? ML_DSA_ETA_4 then 4 else 3.
Definition w1_bits (gamma2 : Z) : Z := if gamma2 =? ML_DSA_GAMMA2_Q_MINUS1_DIV32 then 4 else 6.

Definition mparams_ok (p : ML_DSA_PARAMS) : Prop :=
  (dp_eta p = ML_DSA_ETA_2 \/ dp_eta p = ML_DSA_ETA_4) /\
  (dp_gamma1 p = ML_DSA_GAMMA1_TWO_POWER_17 \/ dp_gamma1 p = ML_DSA_GAMMA1_TWO_POWER_19) /\
  gamma2_ok (dp_gamma2 p) /\
  dp_beta p = dp_tau p * dp_eta p /\ 0 < dp_tau p <= 64 /\
  0 < dp_k p <= 8 /\ 0 < dp_l p <= 7 /\ 0 < dp_omega p <= 80 /\
  (dp_bit_strength p = 128 \/ dp_bit_strength p = 192 \/ dp_bit_strength p = 256) /\
  dp_pk_len p = 32 + 32 * 10 * dp_k p /\
  dp_sk_len p = 128 + 32 * (eta_bits (dp_eta p) * (dp_k p + dp_l p) + 13 * dp_k p) /\
  dp_sig_len p = dp_bit_strength p / 4 + 32 * gamma1_bits (dp_gamma1 p) * dp_l p + dp_omega p + dp_k p.

Lemma ml_dsa_params_ok p : p ∈ ml_dsa_params -> mparams_ok p.
Proof.
  intros Hp. unfold ml_dsa_params in Hp.
  repeat (apply elem_of_cons in Hp as [->|Hp]; [unfold mparams_ok, gamma2_ok; cbn; split_and!; auto; lia|]).
  by apply not_elem_of_nil in Hp.
Qed.

Lemma mparams_get_ok evp_type p :
  ossl_ml_dsa_params_get evp_type = Some p -> mparams_ok p /\ dp_evp_type p = evp_type /\ p ∈ ml_dsa_params.
Proof.
  intros H. unfold ossl_ml_dsa_params_get in H. apply List.find_some in H as [Hin%list_elem_of_In Heq].
  split_and!; [by apply ml_dsa_params_ok|by apply Z.eqb_eq|done].
Qed.

Lemma mparams_lens p :
  mparams_ok p -> 0 < dp_sig_len p < 65536 /\ 0 < dp_pk_len p < 65536 /\ 0 < dp_sk_len p < 65536.
Proof.
  intros (He & Hg & _ & _ & _ & Hk & Hl & Hom & Hb & -> & -> & ->).
  assert (18 <= gamma1_bits (dp_gamma1 p) <= 20) as Hgb by (destruct Hg as [-> | ->]; by vm_compute).
  assert (3 <= eta_bits (dp_eta p) <= 4) as Heb by (destruct He as [-> | ->]; by vm_compute).
  assert (32 <= dp_bit_strength p / 4 <= 64) as Hb4 by (destruct Hb as [-> | [-> | ->]]; by vm_compute).
  split_and!; nia.
Qed.
