(* ===== verification/MlDsaPack.v ===== *)
(** * ML-DSA: packing groups of coefficients

    The loop bodies of the encoders and decoders of
    [crypto/ml_dsa/ml_dsa_encoders.c]: each takes a group of 2, 4 or 8
    coefficients to or from a whole number of bytes.  They are shown to be the
    bit packing of FIPS 204: the coefficients are the digits, least significant
    first, of the number whose little-endian bytes are written. *)
From S2P Require Import Prelude.
From S2P Require Import ConstantTime.
From S2P Require Import ByteOrder.
From S2P Require Import ZSum.
From S2P Require Import BitPack.
From S2P Require Import ModCong.
From S2P Require Import MlDsaField.

(** ** The loop bodies *)

Definition pack_4_bits (c : list Z) : list Z :=
  let z0 := coeff c 0 in let z1 := coeff c 1 in [u8 (Z.lor z0 (u32 (Z.shiftl z1 4)))].

Definition pack_6_bits (c : list Z) : list Z :=
  let c0 := coeff c 0 in let c1 := coeff c 1 in let c2 := coeff c 2 in let c3 := coeff c 3 in
  [u8 (Z.lor c0 (u32 (Z.shiftl c1 6)));
   u8 (Z.lor (Z.shiftr c1 2) (u32 (Z.shiftl c2 4)));
   u8 (Z.lor (Z.shiftr c2 4) (u32 (Z.shiftl c3 2)))].

Definition pack_10_bits (c : list Z) : list Z :=
  let c0 := coeff c 0 in let c1 := coeff c 1 in let c2 := coeff c 2 in let c3 := coeff c 3 in
  [u8 c0;
   u8 (Z.lor (Z.shiftr c0 8) (u32 (Z.shiftl c1 2)));
   u8 (Z.lor (Z.shiftr c1 6) (u32 (Z.shiftl c2 4)));
   u8 (Z.lor (Z.shiftr c2 4) (u32 (Z.shiftl c3 6)));
   u8 (Z.shiftr c3 2)].

Definition unpack_10_bits (b : list Z) : list Z :=
  let v := OPENSSL_load_u32_le b 0 in let w := byte_at b 4 in let mask := 0x3ff in
  [Z.land v mask; Z.land (Z.shiftr v 10) mask; Z.land (Z.shiftr v 20) mask;
   Z.lor (Z.shiftr v 30) (u32 (Z.shiftl w 2))].

Definition pack_signed_4 (c : list Z) : list Z :=
  let z := mod_sub 4 (coeff c 0) in [u8 (Z.lor z (u32 (Z.shiftl (mod_sub 4 (coeff c 1)) 4)))].

Definition unpack_signed_4 (b : list Z) : option (list Z) :=
  let v := OPENSSL_load_u32_le b 0 in
  let msbs := Z.land v 0x88888888 in
  let mask := Z.lor (Z.lor (Z.shiftr msbs 1) (Z.shiftr msbs 2)) (Z.shiftr msbs 3) in
  if negb (Z.land mask v =? 0) then None
  else Some [mod_sub 4 (Z.land v 15); mod_sub 4 (Z.land (Z.shiftr v 4) 15);
             mod_sub 4 (Z.land (Z.shiftr v 8) 15); mod_sub 4 (Z.land (Z.shiftr v 12) 15);
             mod_sub 4 (Z.land (Z.shiftr v 16) 15); mod_sub 4 (Z.land (Z.shiftr v 20) 15);
             mod_sub 4 (Z.land (Z.shiftr v 24) 15); mod_sub 4 (Z.shiftr v 28)].

Definition pack_signed_2 (c : list Z) : list Z :=
  let z := mod_sub 2 (coeff c 0) in
  let z := Z.lor z (u32 (Z.shiftl (mod_sub 2 (coeff c 1)) 3)) in
  let z := Z.lor z (u32 (Z.shiftl (mod_sub 2 (coeff c 2)) 6)) in
  let z := Z.lor z (u32 (Z.shiftl (mod_sub 2 (coeff c 3)) 9)) in
  let z := Z.lor z (u32 (Z.shiftl (mod_sub 2 (coeff c 4)) 12)) in
  let z := Z.lor z (u32 (Z.shiftl (mod_sub 2 (coeff c 5)) 15)) in
  let z := Z.lor z (u32 (Z.shiftl (mod_sub 2 (coeff c 6)) 18)) in
  let z := Z.lor z (u32 (Z.shiftl (mod_sub 2 (coeff c 7)) 21)) in
  u16_le (u16 z) ++ [u8 (Z.shiftr z 16)].

(** The fourth byte of [u] is zero, so the load gives the value of the three. *)
Definition unpack_signed_2 (b : list Z) : option (list Z) :=
  let v := OPENSSL_load_u32_le (slice b 0 3 ++ [0]) 0 in
  let msbs := Z.land v 9586980 in
  let mask := Z.lor (Z.shiftr msbs 1) (Z.shiftr msbs 2) in
  if negb (Z.land mask v =? 0) then None
  else Some [mod_sub 2 (Z.land v 7); mod_sub 2 (Z.land (Z.shiftr v 3) 7);
             mod_sub 2 (Z.land (Z.shiftr v 6) 7); mod_sub 2 (Z.land (Z.shiftr v 9) 7);
             mod_sub 2 (Z.land (Z.shiftr v 12) 7); mod_sub 2 (Z.land (Z.shiftr v 15) 7);
             mod_sub 2 (Z.land (Z.shiftr v 18) 7); mod_sub 2 (Z.land (Z.shiftr v 21) 7)].

Definition pack_signed_two_to_power_12 (c : list Z) : list Z :=
  let range := Z.shiftl 1 12 in let z i := mod_sub range (coeff c i) in
  let a1 := z 0 in
  let a1 := Z.lor a1 (u64 (Z.shiftl (z 1) 13)) in
  let a1 := Z.lor a1 (u64 (Z.shiftl (z 2) 26)) in
  let a1 := Z.lor a1 (u64 (Z.shiftl (z 3) 39)) in
  let a2 := z 4 in
  let a1 := Z.lor a1 (u64 (Z.shiftl a2 52)) in
  let a2 := Z.lor (Z.shiftr a2 12) (u64 (Z.shiftl (z 5) 1)) in
  let a2 := Z.lor a2 (u64 (Z.shiftl (z 6) 14)) in
  let a2 := Z.lor a2 (u64 (Z.shiftl (z 7) 27)) in
  u64_le a1 ++ u32_le (u32 a2) ++ [u8 (Z.shiftr a2 32)].

Definition unpack_signed_two_to_power_12 (b : list Z) : list Z :=
  let range := Z.shiftl 1 12 in let mask_13_bits := Z.shiftl 1 13 - 1 in
  let a1 := OPENSSL_load_u64_le b 0 in let a2 := OPENSSL_load_u32_le b 8 in let b13 := byte_at b 12 in
  [mod_sub range (Z.land a1 mask_13_bits); mod_sub range (Z.land (Z.shiftr a1 13) mask_13_bits);
   mod_sub range (Z.land (Z.shiftr a1 26) mask_13_bits); mod_sub range (Z.land (Z.shiftr a1 39) mask_13_bits);
   mod_sub range (u32 (Z.lor (Z.shiftr a1 52) (Z.land (u32 (Z.shiftl a2 12)) mask_13_bits)));
   mod_sub range (Z.land (Z.shiftr a2 1) mask_13_bits); mod_sub range (Z.land (Z.shiftr a2 14) mask_13_bits);
   mod_sub range (Z.lor (Z.shiftr a2 27) (u32 (Z.shiftl b13 5)))].

Definition pack_signed_two_to_power_19 (c : list Z) : list Z :=
  let range := Z.shiftl 1 19 in
  let z0 := mod_sub range (coeff c 0) in
  let z1 := mod_sub range (coeff c 1) in
  let z0 := Z.lor z0 (u32 (Z.shiftl z1 20)) in
  let z1 := Z.lor (Z.shiftr z1 12) (u32 (Z.shiftl (mod_sub range (coeff c 2)) 8)) in
  let z2 := mod_sub range (coeff c 3) in
  let z1 := Z.lor z1 (u32 (Z.shiftl z2 28)) in
  u32_le z0 ++ u32_le z1 ++ u16_le (u16 (Z.shiftr z2 4)).

Definition unpack_signed_two_to_power_19 (b : list Z) : list Z :=
  let range := Z.shiftl 1 19 in let mask_20_bits := Z.shiftl 1 20 - 1 in
  let a1 := OPENSSL_load_u32_le b 0 in let a2 := OPENSSL_load_u32_le b 4 in let a3 := OPENSSL_load_u16_le b 8 in
  [mod_sub range (Z.land a1 mask_20_bits);
   mod_sub range (Z.lor (Z.shiftr a1 20) (u32 (Z.shiftl (Z.land a2 0xFF) 12)));
   mod_sub range (Z.land (Z.shiftr a2 8) mask_20_bits);
   mod_sub range (Z.lor (Z.shiftr a2 28) (u32 (Z.shiftl a3 4)))].

Definition pack_signed_two_to_power_17 (c : list Z) : list Z :=
  let range := Z.shiftl 1 17 in
  let z0 := mod_sub range (coeff c 0) in
  let z1 := mod_sub range (coeff c 1) in
  let z0 := Z.lor z0 (u32 (Z.shiftl z1 18)) in
  let z1 := Z.lor (Z.shiftr z1 14) (u32 (Z.shiftl (mod_sub range (coeff c 2)) 4)) in
  let z2 := mod_sub range (coeff c 3) in
  let z1 := Z.lor z1 (u32 (Z.shiftl z2 22)) in
  u32_le z0 ++ u32_le z1 ++ [u8 (Z.shiftr z2 10)].

Definition unpack_signed_two_to_power_17 (b : list Z) : list Z :=
  let range := Z.shiftl 1 17 in let mask_18_bits := Z.shiftl 1 18 - 1 in
  let a1 := OPENSSL_load_u32_le b 0 in let a2 := OPENSSL_load_u32_le b 4 in let a3 := byte_at b 8 in
  [mod_sub range (Z.land a1 mask_18_bits);
   mod_sub range (Z.lor (Z.shiftr a1 18) (u32 (Z.shiftl (Z.land a2 0xF) 14)));
   mod_sub range (Z.land (Z.shiftr a2 4) mask_18_bits);
   mod_sub range (Z.lor (Z.shiftr a2 22) (u32 (Z.shiftl a3 10)))].

(** ** Groups *)

(** Split a group into its elements. *)
Ltac group_cases :=
  let cs := fresh "cs" in intros cs ? ?;
  repeat (destruct cs as [|? cs]; [done|]); destruct cs; [|done];
  repeat match goal with H : Forall _ (_ <$> _) |- _ => cbn [fmap list_fmap] in H end;
  repeat match goal with H : Forall _ (_ :: _) |- _ => apply Forall_cons in H as [? H] end;
  cbv [id fmap list_fmap digits_val foldr coeff lookup list_lookup from_option Z.to_nat Pos.to_nat Pos.iter_op Nat.add];
  repeat match goal with |- context [mod_sub ?r ?c] =>
    let z := fresh "z" in set (z := mod_sub r c) in *; clearbody z end;
  unfold is_digit in *.

Ltac bytes_eq := repeat match goal with |- _ :: _ = _ :: _ => apply f_equal2 | |- [] = [] => reflexivity end.

(** Rewrite the innermost disjunctions of bit fields to sums. *)
Ltac join_fields :=
  repeat match goal with
  | |- context [Z.lor ?x (u32 (Z.shiftl ?y ?k))] =>
    lazymatch x with context [Z.lor] => fail | _ => idtac end;
    rewrite (lor_u32 x y k) by (pow_literals; dlia); pow_literals; try rewrite (u32_small (x + _)) by dlia
  | |- context [Z.lor ?x (u64 (Z.shiftl ?y ?k))] =>
    lazymatch x with context [Z.lor] => fail | _ => idtac end;
    rewrite (lor_u64 x y k) by (pow_literals; dlia); pow_literals; try rewrite (u64_small (x + _)) by dlia
  end.

Lemma pack_4_bits_packs : packs pack_4_bits id 4 2 1.
Proof.
  unfold packs, pack_4_bits. group_cases. unfold id in *. pow_literals.
  join_fields. cbn [le_bytes]. f_equal. cint.
Qed.
Lemma pack_6_bits_packs : packs pack_6_bits id 6 4 3.
Proof.
  unfold packs, pack_6_bits. group_cases. unfold id in *. rewrite !Z.shiftr_div_pow2 by lia. pow_literals.
  join_fields. cbn [le_bytes]. bytes_eq; cint.
Qed.
Lemma pack_10_bits_packs : packs pack_10_bits id 10 4 5.
Proof.
  unfold packs, pack_10_bits. group_cases. unfold id in *. rewrite !Z.shiftr_div_pow2 by lia. pow_literals.
  join_fields. cbn [le_bytes]. bytes_eq; cint.
Qed.
Lemma pack_signed_4_packs : packs pack_signed_4 (mod_sub 4) 4 2 1.
Proof.
  unfold packs, pack_signed_4. group_cases. pow_literals.
  join_fields. cbn [le_bytes]. f_equal. cint.
Qed.
Lemma pack_signed_2_packs : packs pack_signed_2 (mod_sub 2) 3 8 3.
Proof.
  unfold packs, pack_signed_2. group_cases. pow_literals. join_fields.
  rewrite u16_le_eq, Z.shiftr_div_pow2 by lia. pow_literals. cbn [le_bytes app]. bytes_eq; cint.
Qed.
Lemma pack_signed_12_packs : packs pack_signed_two_to_power_12 (mod_sub (Z.shiftl 1 12)) 13 8 13.
Proof.
  unfold packs, pack_signed_two_to_power_12. group_cases. rewrite !Z.shiftr_div_pow2 by lia. pow_literals.
  join_fields. rewrite u64_le_eq, u32_le_eq. change 13%nat with (8 + (4 + 1))%nat. rewrite !le_bytes_app.
  change (256 ^ Z.of_nat 8) with 18446744073709551616. change (256 ^ Z.of_nat 4) with 4294967296.
  f_equal; [apply le_bytes_cong; change (256 ^ Z.of_nat 8) with 18446744073709551616; cint|].
  match goal with |- context [le_bytes 4 (?v / _)] => replace (v / 18446744073709551616) with
    (z11 / 4096 + 2 * z12 + 16384 * z13 + 134217728 * z14) by dlia end.
  f_equal; apply (le_bytes_cong 4); change (256 ^ Z.of_nat 4) with 4294967296; cint.
Qed.
Lemma pack_signed_19_packs : packs pack_signed_two_to_power_19 (mod_sub (Z.shiftl 1 19)) 20 4 10.
Proof.
  unfold packs, pack_signed_two_to_power_19. group_cases. rewrite !Z.shiftr_div_pow2 by lia. pow_literals.
  join_fields. rewrite !u32_le_eq, u16_le_eq. change 10%nat with (4 + (4 + 2))%nat. rewrite !le_bytes_app.
  change (256 ^ Z.of_nat 4) with 4294967296.
  f_equal; [apply le_bytes_cong; change (256 ^ Z.of_nat 4) with 4294967296; cint|].
  f_equal; apply le_bytes_cong; [change (256 ^ Z.of_nat 4) with 4294967296|change (256 ^ Z.of_nat 2) with 65536]; cint.
Qed.
Lemma pack_signed_17_packs : packs pack_signed_two_to_power_17 (mod_sub (Z.shiftl 1 17)) 18 4 9.
Proof.
  unfold packs, pack_signed_two_to_power_17. group_cases. rewrite !Z.shiftr_div_pow2 by lia. pow_literals.
  join_fields. rewrite !u32_le_eq. change 9%nat with (4 + (4 + 1))%nat. rewrite !le_bytes_app.
  change (256 ^ Z.of_nat 4) with 4294967296.
  f_equal; [apply le_bytes_cong; change (256 ^ Z.of_nat 4) with 4294967296; cint|].
  f_equal; [apply le_bytes_cong; change (256 ^ Z.of_nat 4) with 4294967296|cbn [le_bytes]; bytes_eq]; cint.
Qed.

(** ** Splitting bytes into digits *)

Ltac all_bytes := unfold bytes_ok; repeat (apply Forall_cons_2; [assumption|]); apply Forall_nil_2.

(** Split a byte group into its elements. *)
Ltac byte_cases :=
  let bs := fresh "bs" in intros bs ? ?;
  repeat (destruct bs as [|? bs]; [done|]); destruct bs; [|done];
  repeat match goal with H : bytes_ok (_ :: _) |- _ => apply Forall_cons in H as [? H]
                       | H : Forall is_byte (_ :: _) |- _ => apply Forall_cons in H as [? H] end;
  unfold OPENSSL_load_u16_le, OPENSSL_load_u32_le, OPENSSL_load_u64_le;
  cbv [byte_at lookup list_lookup from_option id Z.to_nat Pos.to_nat Pos.iter_op Nat.add Z.add Pos.add Pos.succ];
  rewrite ?or2_val, ?or4_val, ?or8_val by (done || all_bytes); unfold is_byte in *.

Lemma unpack_10_bits_unpacks : unpacks unpack_10_bits id 10 4 5.
Proof.
  unfold unpacks, unpack_10_bits. byte_cases. cbn [le_val]. change 0x3ff with (Z.shiftl 1 10 - 1).
  rewrite !land_mask, !Z.shiftr_div_pow2 by lia. pow_literals. join_fields.
  cbn [to_digits fmap list_fmap]. unfold id. pow_literals. bytes_eq; cint.
Qed.

(** The little-endian value of joined byte strings. *)
(** Name the words of a group, with their ranges. *)
Ltac name_word w l c :=
  let H := fresh in assert (0 <= le_val l < c) as H by (change c with (256 ^ zlen l); apply le_val_range; all_bytes);
  change (256 ^ zlen l) with c; set (w := le_val l) in *; clearbody w.

Lemma unpack_signed_12_unpacks : unpacks unpack_signed_two_to_power_12 (mod_sub (Z.shiftl 1 12)) 13 8 13.
Proof.
  unfold unpacks, unpack_signed_two_to_power_12. byte_cases.
  change (le_val [z; z0; z1; z2; z3; z4; z5; z6; z7; z8; z9; z10; z11])
    with (le_val ([z; z0; z1; z2; z3; z4; z5; z6] ++ [z7; z8; z9; z10] ++ [z11])).
  rewrite !le_val_app. name_word a1 [z; z0; z1; z2; z3; z4; z5; z6] 18446744073709551616.
  name_word a2 [z7; z8; z9; z10] 4294967296. cbn [le_val].
  rewrite !land_mask, !Z.shiftr_div_pow2 by lia. pow_literals.
  replace (u32 (Z.shiftl a2 12) mod 8192) with (Z.shiftl (a2 mod 2) 12)
    by (rewrite !Z.shiftl_mul_pow2 by lia; pow_literals; cint).
  rewrite lor_shiftl_add by (pow_literals; dlia). join_fields. cbn [to_digits fmap list_fmap]. pow_literals.
  clear -H13 H14 H15. bytes_eq; f_equal; cint.
Qed.
Lemma unpack_signed_19_unpacks : unpacks unpack_signed_two_to_power_19 (mod_sub (Z.shiftl 1 19)) 20 4 10.
Proof.
  unfold unpacks, unpack_signed_two_to_power_19. byte_cases.
  change (le_val [z; z0; z1; z2; z3; z4; z5; z6; z7; z8])
    with (le_val ([z; z0; z1; z2] ++ [z3; z4; z5; z6] ++ [z7; z8])).
  rewrite !le_val_app. name_word a1 [z; z0; z1; z2] 4294967296.
  name_word a2 [z3; z4; z5; z6] 4294967296. name_word a3 [z7; z8] 65536.
  change 0xFF with (Z.shiftl 1 8 - 1). rewrite !land_mask, !Z.shiftr_div_pow2 by lia. pow_literals.
  join_fields. cbn [to_digits fmap list_fmap]. pow_literals. clear -H11 H12 H13. bytes_eq; f_equal; cint.
Qed.
Lemma unpack_signed_17_unpacks : unpacks unpack_signed_two_to_power_17 (mod_sub (Z.shiftl 1 17)) 18 4 9.
Proof.
  unfold unpacks, unpack_signed_two_to_power_17. byte_cases.
  change (le_val [z; z0; z1; z2; z3; z4; z5; z6; z7])
    with (le_val ([z; z0; z1; z2] ++ [z3; z4; z5; z6] ++ [z7])).
  rewrite !le_val_app. name_word a1 [z; z0; z1; z2] 4294967296.
  name_word a2 [z3; z4; z5; z6] 4294967296. cbn [le_val].
  change 0xF with (Z.shiftl 1 4 - 1). rewrite !land_mask, !Z.shiftr_div_pow2 by lia. pow_literals.
  join_fields. cbn [to_digits fmap list_fmap]. pow_literals. clear -H9 H10 H11. bytes_eq; f_equal; cint.
Qed.

(** ** The range checks of the signed decoders *)

(** A value below [2^(b * n)] is zero when all its bits are, digit by digit. *)
Lemma zero_by_digits b n x :
  0 < b -> 0 <= x < 2 ^ (b * Z.of_nat n) ->
  (x =? 0) = forallb (fun j => forallb (fun k => negb (Z.testbit x (b * Z.of_nat j + Z.of_nat k)))
                                 (seq 0 (Z.to_nat b))) (seq 0 n).
Proof.
  intros Hb Hx. apply eq_true_iff_eq. rewrite Z.eqb_eq, forallb_forall. split.
  - intros -> j _. apply forallb_forall. intros k _. by rewrite Z.bits_0.
  - intros H. apply Z.bits_inj'. intros i Hi. rewrite Z.bits_0.
    destruct (Z.lt_ge_cases i (b * Z.of_nat n)) as [Hlt|]; [|apply (testbit_out (b * Z.of_nat n)); (done || nia)].
    pose proof (Z.div_mod i b ltac:(lia)) as Hd. pose proof (Z.mod_pos_bound i b Hb).
    assert (0 <= i / b < Z.of_nat n) by (split; [by apply Z.div_pos|apply Z.div_lt_upper_bound; lia]).
    specialize (H (Z.to_nat (i / b)) ltac:(apply in_seq; lia)). rewrite forallb_forall in H.
    specialize (H (Z.to_nat (i mod b)) ltac:(apply in_seq; lia)). rewrite !Z2Nat.id, <- Hd in H by lia.
    by apply negb_true_iff.
Qed.

Lemma digit_bit b n v j k :
  0 <= b -> (j < n)%nat -> 0 <= k < b ->
  Z.testbit (List.nth j (to_digits b n v) 0) k = Z.testbit v (b * Z.of_nat j + k).
Proof.
  intros Hb. revert v j. induction n as [|n IH]; intros v j Hj Hk; [lia|].
  destruct j as [|j]; cbn [to_digits List.nth].
  - change (Z.of_nat 0) with 0. rewrite Z.mul_0_r, Z.add_0_l. apply Z.mod_pow2_bits_low. lia.
  - rewrite IH by lia. rewrite Z.div_pow2_bits by nia. f_equal. lia.
Qed.

(** Three bits are at most 4, four bits at most 8, when the top bit excludes the others. *)
Lemma octal_le_4 d :
  is_digit 3 d -> (d <=? 4) = negb (Z.testbit d 2 && (Z.testbit d 0 || Z.testbit d 1)).
Proof.
  unfold is_digit. change (2 ^ 3) with 8. intros Hd.
  assert (d = 0 \/ d = 1 \/ d = 2 \/ d = 3 \/ d = 4 \/ d = 5 \/ d = 6 \/ d = 7) as H by lia.
  destruct_or! H; by subst d.
Qed.
Lemma nibble_le_8 d :
  is_digit 4 d -> (d <=? 8) = negb (Z.testbit d 3 && (Z.testbit d 0 || Z.testbit d 1 || Z.testbit d 2)).
Proof.
  unfold is_digit. change (2 ^ 4) with 16. intros Hd.
  assert (d = 0 \/ d = 1 \/ d = 2 \/ d = 3 \/ d = 4 \/ d = 5 \/ d = 6 \/ d = 7 \/
    d = 8 \/ d = 9 \/ d = 10 \/ d = 11 \/ d = 12 \/ d = 13 \/ d = 14 \/ d = 15) as H by lia.
  destruct_or! H; by subst d.
Qed.

Lemma forallb_nth (l : list Z) (P : Z -> bool) :
  forallb P l = forallb (fun j => P (List.nth j l 0)) (seq 0 (length l)).
Proof.
  induction l as [|x l IH]; [done|]. cbn [length seq forallb List.nth]. f_equal.
  rewrite IH, <- seq_shift.
  generalize (seq 0 (length l)). intros s. induction s as [|j s IHs]; [done|]. cbn [List.map forallb List.nth]. by rewrite IHs.
Qed.
Lemma forallb_seq_ext n (P Q : nat -> bool) :
  (forall j, (j < n)%nat -> P j = Q j) -> forallb P (seq 0 n) = forallb Q (seq 0 n).
Proof.
  intros H. apply eq_true_iff_eq. rewrite !forallb_forall.
  split; intros HP j Hj; specialize (HP j Hj); apply in_seq in Hj; specialize (H j ltac:(lia)); congruence.
Qed.
Lemma to_digits_nth_ok b n v j : 0 <= b -> is_digit b (List.nth j (to_digits b n v) 0).
Proof.
  intros Hb. destruct (List.nth_in_or_default j (to_digits b n v) 0) as [Hin| ->].
  - apply list_elem_of_In in Hin. pose proof (to_digits_ok b n v Hb) as H. rewrite Forall_forall in H. by apply H.
  - split; [done|]. by apply Z.pow_pos_nonneg.
Qed.

(** The bit tests the checks make, at the bit positions of digit [j]. *)
Ltac check_digit j :=
  change (Z.to_nat 4) with 4%nat; change (Z.to_nat 3) with 3%nat; cbn [seq forallb];
  rewrite !Z.land_spec, !Z.lor_spec, !Z.shiftr_spec, !Z.land_spec, !digit_bit by lia;
  do 8 (destruct j as [|j]; [
    repeat match goal with |- context [Z.testbit ?x ?i] =>
      lazymatch i with Zpos _ => fail | Z0 => fail | _ => idtac end;
      let r := eval vm_compute in i in progress change i with r end;
    repeat match goal with |- context [Z.testbit (Zpos ?p) ?i] =>
      let r := eval vm_compute in (Z.testbit (Zpos p) i) in change (Z.testbit (Zpos p) i) with r end;
    rewrite ?andb_false_r, ?orb_false_r, ?andb_true_r;
    repeat match goal with |- context [Z.testbit ?v ?i] => destruct (Z.testbit v i) end; reflexivity|]); lia.

Lemma signed_4_check v :
  0 <= v < 2 ^ 32 ->
  let msbs := Z.land v 0x88888888 in
  let mask := Z.lor (Z.lor (Z.shiftr msbs 1) (Z.shiftr msbs 2)) (Z.shiftr msbs 3) in
  (Z.land mask v =? 0) = forallb (fun d => d <=? 8) (to_digits 4 8 v).
Proof.
  intros Hv. cbv zeta. rewrite (zero_by_digits 4 8) by (lia || (rewrite Z.land_comm; by apply (land_range_l 32))).
  rewrite forallb_nth, to_digits_length. apply forallb_seq_ext. intros j Hj.
  rewrite nibble_le_8 by (by apply to_digits_nth_ok). check_digit j.
Qed.
Lemma signed_2_check v :
  0 <= v < 2 ^ 24 ->
  let msbs := Z.land v 9586980 in
  let mask := Z.lor (Z.shiftr msbs 1) (Z.shiftr msbs 2) in
  (Z.land mask v =? 0) = forallb (fun d => d <=? 4) (to_digits 3 8 v).
Proof.
  intros Hv. cbv zeta. rewrite (zero_by_digits 3 8) by (lia || (rewrite Z.land_comm; by apply (land_range_l 24))).
  rewrite forallb_nth, to_digits_length. apply forallb_seq_ext. intros j Hj.
  rewrite octal_le_4 by (by apply to_digits_nth_ok). check_digit j.
Qed.

(** A decoder of groups that refuses digits above [lim]. *)
Definition unpacks_upto (f : list Z -> option (list Z)) (dec : Z -> Z) (b : Z) (g n : nat) (lim : Z) : Prop :=
  forall bs, length bs = n -> bytes_ok bs ->
  let ds := to_digits b g (le_val bs) in
  f bs = if forallb (fun d => d <=? lim) ds then Some (dec <$> ds) else None.

Lemma unpacks_all f dec b g n :
  0 <= b -> unpacks f dec b g n -> unpacks_upto (fun bs => Some (f bs)) dec b g n (2 ^ b - 1).
Proof.
  intros Hb Hf bs Hl Hok. cbv zeta. rewrite (Hf bs Hl Hok).
  replace (forallb _ _) with true; [done|]. symmetry. apply forallb_forall. intros d Hd%list_elem_of_In.
  pose proof (to_digits_ok b g (le_val bs) Hb) as Hall. rewrite Forall_forall in Hall. specialize (Hall d Hd).
  unfold is_digit in Hall. lia.
Qed.

Lemma unpack_signed_4_unpacks : unpacks_upto unpack_signed_4 (mod_sub 4) 4 8 4 8.
Proof.
  intros bs Hl Hok. cbv zeta. unfold unpack_signed_4. rewrite load_u32_le_val by (done || unfold zlen; lia).
  assert (slice bs 0 4 = bs) as -> by (unfold slice; rewrite drop_0, take_ge; [done|lia]).
  pose proof (le_val_range bs Hok) as Hv. replace (256 ^ zlen bs) with (2 ^ 32) in Hv by (unfold zlen; rewrite Hl; done).
  rewrite signed_4_check by done. destruct (forallb _ _); [|done]. cbn [negb]. do 2 f_equal.
  cbn [to_digits fmap list_fmap]. change 15 with (Z.ones 4). rewrite !Z.land_ones, !Z.shiftr_div_pow2 by lia.
  pow_literals. set (v := le_val bs) in *. clearbody v. bytes_eq; f_equal; dlia.
Qed.
Lemma unpack_signed_2_unpacks : unpacks_upto unpack_signed_2 (mod_sub 2) 3 8 3 4.
Proof.
  intros bs Hl Hok. cbv zeta. unfold unpack_signed_2.
  assert (slice bs 0 3 = bs) as -> by (unfold slice; rewrite drop_0, take_ge; [done|lia]).
  assert (zlen bs = 3) as Hz by (unfold zlen; lia).
  rewrite load_u32_le_val; [|by apply Forall_app; split; [|constructor; [by compute|]]|lia|autorewrite with zlen; lia].
  assert (slice (bs ++ [0]) 0 4 = bs ++ [0]) as ->
    by (unfold slice; rewrite drop_0, take_ge; [done|rewrite length_app; simpl; lia]).
  rewrite le_val_app. change (le_val [0]) with 0. rewrite Z.mul_0_r, Z.add_0_r.
  pose proof (le_val_range bs Hok) as Hv. rewrite Hz in Hv. change (256 ^ 3) with (2 ^ 24) in Hv.
  rewrite signed_2_check by done. destruct (forallb _ _); [|done]. cbn [negb]. do 2 f_equal.
  cbn [to_digits fmap list_fmap]. change 7 with (Z.ones 3). rewrite !Z.land_ones, !Z.shiftr_div_pow2 by lia.
  pow_literals. set (v := le_val bs) in *. clearbody v. bytes_eq; f_equal; dlia.
Qed.
