(* ===== verification/MlDsaEncode.v ===== *)
(** * ML-DSA: encoding and decoding polynomials

    Model of the polynomial encoders and decoders of
    [crypto/ml_dsa/ml_dsa_encoders.c] over the packet writers and readers.  All of
    them are shown to be one reference function, the bit packing of FIPS 204
    ([bit_pack] and [bit_unpack]), at the right width; the decoders of the
    private key refuse exactly the digits out of range. *)
From S2P Require Import Prelude.
From S2P Require Import ConstantTime.
From S2P Require Import ByteOrder.
From S2P Require Import Packet.
From S2P Require Import WPacket.
From S2P Require Import WPacketSpec.
From S2P Require Import WPacketOut.
From S2P Require Import ZSum.
From S2P Require Import BitPack.
From S2P Require Import NttPass.
From S2P Require Import ModCong.
From S2P Require Import MlDsaField.
From S2P Require Import MlDsaNtt.
From S2P Require Import MlDsaPack.

Definition POLY_COEFF_NUM_BYTES (bits : Z) : Z := bits * (ML_DSA_NUM_POLY_COEFFICIENTS / 8).

(** [memcpy(out + off, d)] through the pointer an allocation returned. *)
Definition wp_at (out : option Z) (off : Z) (d : list Z) : W unit :=
  match out with None => fun _ => Crash | Some o => wp_store (o + off) d end.

Section Encoders.
Context `{AL : Allocator}.

(** [do { *out++ = ...; } while (in < end)], [g] coefficients a round. *)
Fixpoint store_groups (fuel g : nat) (f : list Z -> list Z) (inp : list Z) (out : option Z) (off : Z) : W unit :=
  match fuel with
  | O => wret tt
  | S fuel' =>
    let d := f (take g inp) in
    wp_at out off d;;
    match drop g inp with [] => wret tt | rest => store_groups fuel' g f rest out (off + zlen d) end
  end.
Definition encode_whole (len : Z) (g : nat) (f : list Z -> list Z) (p : POLY) : W unit :=
  let! out := WPACKET_allocate_bytes len in store_groups 256 g f p out 0.

(** The same loop with an allocation of [len] bytes in every round. *)
Fixpoint encode_groups (fuel : nat) (len : Z) (g : nat) (f : list Z -> list Z) (inp : list Z) : W unit :=
  match fuel with
  | O => wret tt
  | S fuel' =>
    let! out := WPACKET_allocate_bytes len in
    wp_at out 0 (f (take g inp));;
    match drop g inp with [] => wret tt | rest => encode_groups fuel' len g f rest end
  end.

Definition poly_encode_4_bits (p : POLY) : W unit := encode_whole (POLY_COEFF_NUM_BYTES 4) 2 pack_4_bits p.
Definition poly_encode_6_bits (p : POLY) : W unit := encode_whole (POLY_COEFF_NUM_BYTES 6) 4 pack_6_bits p.
Definition poly_encode_10_bits (p : POLY) : W unit := encode_whole (POLY_COEFF_NUM_BYTES 10) 4 pack_10_bits p.
Definition poly_encode_signed_4 (p : POLY) : W unit := encode_whole (32 * 4) 2 pack_signed_4 p.
Definition poly_encode_signed_2 (p : POLY) : W unit := encode_whole (POLY_COEFF_NUM_BYTES 3) 8 pack_signed_2 p.
Definition poly_encode_signed_two_to_power_12 (p : POLY) : W unit :=
  encode_groups 256 13 8 pack_signed_two_to_power_12 p.
Definition poly_encode_signed_two_to_power_19 (p : POLY) : W unit :=
  encode_groups 256 10 4 pack_signed_two_to_power_19 p.
Definition poly_encode_signed_two_to_power_17 (p : POLY) : W unit :=
  encode_groups 256 9 4 pack_signed_two_to_power_17 p.
End Encoders.

(** [n] rounds that read [bytes] bytes each; a refused group is the error return. *)
Fixpoint decode_groups (n : nat) (bytes : Z) (f : list Z -> option (list Z)) (pkt : PACKET) : option (POLY * PACKET) :=
  match n with
  | O => Some ([], pkt)
  | S n' =>
    '(b, pkt) ← PACKET_get_bytes pkt bytes;
    cs ← f b;
    '(rest, pkt) ← decode_groups n' bytes f pkt;
    Some (cs ++ rest, pkt)
  end.

Definition poly_decode_10_bits : PACKET -> option (POLY * PACKET) :=
  decode_groups (256 / 4) 5 (fun b => Some (unpack_10_bits b)).
Definition poly_decode_signed_4 : PACKET -> option (POLY * PACKET) := decode_groups (256 / 8) 4 unpack_signed_4.
Definition poly_decode_signed_2 : PACKET -> option (POLY * PACKET) := decode_groups (256 / 8) 3 unpack_signed_2.
Definition poly_decode_signed_two_to_power_12 : PACKET -> option (POLY * PACKET) :=
  decode_groups (256 / 8) 13 (fun b => Some (unpack_signed_two_to_power_12 b)).
Definition poly_decode_signed_two_to_power_19 : PACKET -> option (POLY * PACKET) :=
  decode_groups (256 / 4) 10 (fun b => Some (unpack_signed_two_to_power_19 b)).
Definition poly_decode_signed_two_to_power_17 : PACKET -> option (POLY * PACKET) :=
  decode_groups (256 / 4) 9 (fun b => Some (unpack_signed_two_to_power_17 b)).

(** ** Groups *)

Section Groups.
Context (b : Z) (g n : nat) (Hb : 0 < b) (Hg : (0 < g)%nat) (Hgn : b * Z.of_nat g = 8 * Z.of_nat n).

Lemma decode_groups_app f dec lim k pkt bs rest :
  unpacks_upto f dec b g n lim -> pkt_rep pkt (bs ++ rest) -> bytes_ok bs -> length bs = (n * k)%nat ->
  let ds := bit_unpack b (g * k) bs in
  if forallb (fun d => d <=? lim) ds
  then exists pkt', decode_groups k (Z.of_nat n) f pkt = Some (dec <$> ds, pkt') /\ pkt_rep pkt' rest
  else decode_groups k (Z.of_nat n) f pkt = None.
Proof.
  intros Hf. revert pkt bs. induction k as [|k IH]; intros pkt bs Hrep Hok Hl; cbv zeta.
  - rewrite Nat.mul_0_r in *. destruct bs; [|done]. exists pkt. done.
  - rewrite (bit_unpack_group b g n Hb Hg Hgn) by done. rewrite forallb_app, fmap_app. cbn [decode_groups].
    assert (length (take n bs) = n) as Ht by (rewrite length_take; lia).
    rewrite <- (take_drop n bs), <- app_assoc in Hrep.
    destruct (PACKET_get_bytes_app _ _ _ (Z.of_nat n) Hrep ltac:(unfold zlen; lia)) as (pkt1 & -> & Hrep1).
    cbn [mbind option_bind]. rewrite (Hf (take n bs) Ht (Forall_take _ _ _ Hok)).
    destruct (forallb _ (to_digits b g _)); cbn [mbind option_bind andb]; [|done].
    specialize (IH pkt1 (drop n bs) Hrep1 (Forall_drop _ _ _ Hok) ltac:(rewrite length_drop; lia)). cbv zeta in IH.
    destruct (forallb _ (bit_unpack _ _ _)); [|by rewrite IH].
    destruct IH as (pkt2 & -> & Hrep2). by exists pkt2.
Qed.

Lemma decode_groups_short f dec lim k pkt l :
  unpacks_upto f dec b g n lim -> pkt_rep pkt l -> bytes_ok l -> zlen l < Z.of_nat (n * k) ->
  decode_groups k (Z.of_nat n) f pkt = None.
Proof.
  intros Hf. revert pkt l. induction k as [|k IH]; intros pkt l Hrep Hok Hl; [pose proof (zlen_nonneg l); lia|].
  cbn [decode_groups]. destruct (Z.lt_ge_cases (zlen l) (Z.of_nat n)) as [Hs|Hs].
  - by rewrite (PACKET_get_bytes_short _ _ _ Hrep Hs).
  - rewrite <- (take_drop n l) in Hrep. unfold zlen in *. assert (length (take n l) = n) as Ht by (rewrite length_take; lia).
    destruct (PACKET_get_bytes_app _ _ _ (Z.of_nat n) Hrep ltac:(unfold zlen; lia)) as (pkt1 & -> & Hrep1).
    cbn [mbind option_bind]. destruct (f (take n l)); [|done]. cbn [mbind option_bind].
    by rewrite (IH pkt1 (drop n l)) by (done || apply Forall_drop, Hok || rewrite length_drop; lia).
Qed.

(** Encoding into a packet with room. *)
Lemma store_groups_out `{AL : Allocator} f enc k fuel cs w data x cap :
  packs f enc b g n -> length cs = (g * k)%nat -> (0 < k <= fuel)%nat ->
  Forall (is_digit b) (enc <$> cs) ->
  forall pre, wp_out w (data ++ pre ++ x) cap -> zlen x = Z.of_nat (n * k) ->
  exists w', store_groups fuel g f cs (Some (zlen data)) (zlen pre) w = Done tt w' /\
    wp_out w' (data ++ pre ++ bit_pack b (enc <$> cs)) cap.
Proof.
  intros Hf Hl Hk Hd pre Ho Hx.
  assert (forall k fuel cs w x pre, length cs = (g * k)%nat -> (0 < k <= fuel)%nat -> Forall (is_digit b) (enc <$> cs) ->
    wp_out w (data ++ pre ++ x) cap -> zlen x = Z.of_nat (n * k) ->
    exists w', store_groups fuel g f cs (Some (zlen data)) (zlen pre) w = Done tt w' /\
      wp_out w' (data ++ pre ++ pack_groups g k f cs) cap) as H.
  2: { rewrite <- (pack_groups_spec b g n Hb Hg Hgn f enc k cs) by done. by eapply H. }
  clear -Hf Hb Hg Hgn. intros k. induction k as [|k IH]; intros fuel cs w x pre Hl Hk Hd Ho Hx; [lia|].
  destruct fuel as [|fuel]; [lia|]. cbn [store_groups pack_groups].
  destruct (take_drop_length b g n Hb Hg Hgn cs k Hl) as [Ht Hdl].
  assert (zlen (f (take g cs)) = Z.of_nat n) as Hfl.
  { rewrite Hf; [unfold zlen; by rewrite le_bytes_length|done|].
    rewrite <- (take_drop g cs), fmap_app in Hd. by apply Forall_app in Hd as [? _]. }
  set (d := f (take g cs)) in *. unfold wbind at 1. cbn [wp_at].
  rewrite <- (take_drop n x) in Ho. rewrite app_assoc in Ho.
  destruct (out_store w (data ++ pre) (take n x) (drop n x) cap d) as (w1 & E1 & Ho1).
  { done. } { rewrite Hfl. unfold zlen in *. rewrite length_take. lia. }
  rewrite zlen_app in E1. rewrite E1. rewrite <- app_assoc in Ho1.
  destruct k as [|k].
  - assert (drop g cs = []) as -> by (apply length_zero_iff_nil; lia). exists w1. split; [done|].
    assert (drop n x = []) as Hx0 by (apply length_zero_iff_nil; rewrite length_drop; unfold zlen in *; lia).
    cbn [pack_groups]. by rewrite Hx0 in Ho1.
  - destruct (drop g cs) as [|c cs'] eqn:E; [cbn [length] in Hdl; lia|]. rewrite <- E in *.

    destruct (IH fuel (drop g cs) w1 (drop n x) (pre ++ d)) as (w2 & E2 & Ho2).
    + lia.
    + lia.
    + rewrite <- (take_drop g cs), fmap_app in Hd. by apply Forall_app in Hd as [_ ?].
    + by rewrite <- app_assoc.
    + unfold zlen in *. rewrite length_drop. lia.
    + exists w2. rewrite zlen_app in E2. rewrite E2. by rewrite <- app_assoc in Ho2.
Qed.
End Groups.

(** ** What the encoders and decoders promise *)

(** [e] writes the bit packing of the coefficients mapped by [enc], [b] bits each. *)
Class Encodes `{AL : Allocator} (e : POLY -> W unit) (enc : Z -> Z) (b : Z) : Prop :=
  encodes : forall p w data cap,
    zlen p = 256 -> Forall (is_digit b) (enc <$> p) -> wp_out w data cap -> zlen data + 32 * b <= cap ->
    exists w', e p w = Done tt w' /\ wp_out w' (data ++ bit_pack b (enc <$> p)) cap.

(** [d] reads [32 * b] bytes, refuses them when a digit is above [lim], and else
    gives the digits mapped by [dec]. *)
Class Decodes (d : PACKET -> option (POLY * PACKET)) (dec : Z -> Z) (b lim : Z) : Prop := {
  decodes : forall pkt bs rest,
    pkt_rep pkt (bs ++ rest) -> bytes_ok bs -> zlen bs = 32 * b ->
    let ds := bit_unpack b 256 bs in
    if forallb (fun x => x <=? lim) ds
    then exists pkt', d pkt = Some (dec <$> ds, pkt') /\ pkt_rep pkt' rest
    else d pkt = None;
  decodes_short : forall pkt l, pkt_rep pkt l -> bytes_ok l -> zlen l < 32 * b -> d pkt = None }.

Section Instances.
Context `{AL : Allocator}.

Lemma encode_whole_out b g n f enc k :
  0 < b -> (0 < g)%nat -> b * Z.of_nat g = 8 * Z.of_nat n -> (g * k = 256)%nat -> packs f enc b g n ->
  Encodes (encode_whole (32 * b) g f) enc b.
Proof.
  intros Hb Hg Hgn Hk Hf p w data cap Hp Hd Ho Hc. unfold encode_whole, wbind.
  destruct (out_alloc w data cap (32 * b) Ho ltac:(lia) Hc) as (w1 & x & -> & Hx & Ho1).
  destruct (store_groups_out b g n Hb Hg Hgn f enc k 256 p w1 data x cap Hf ltac:(unfold zlen in Hp; lia)
    ltac:(nia) Hd [] Ho1 ltac:(nia)) as (w2 & E2 & Ho2). by exists w2.
Qed.

Lemma encode_groups_out b g n f enc k :
  0 < b -> (0 < g)%nat -> b * Z.of_nat g = 8 * Z.of_nat n -> (g * k = 256)%nat -> packs f enc b g n ->
  Encodes (encode_groups 256 (Z.of_nat n) g f) enc b.
Proof.
  intros Hb Hg Hgn Hk Hf p w data cap Hp Hd Ho Hc.
  rewrite <- (pack_groups_spec b g n Hb Hg Hgn f enc k) by (done || unfold zlen in Hp; lia).
  assert (forall k fuel cs w data, length cs = (g * k)%nat -> (0 < k <= fuel)%nat -> Forall (is_digit b) (enc <$> cs) ->
    wp_out w data cap -> zlen data + Z.of_nat (n * k) <= cap ->
    exists w', encode_groups fuel (Z.of_nat n) g f cs w = Done tt w' /\ wp_out w' (data ++ pack_groups g k f cs) cap) as H.
  2: { apply H; [unfold zlen in Hp; lia|nia|done|done|nia]. }
  clear -Hf Hb Hg Hgn. intros k. induction k as [|k IH]; intros fuel cs w data Hl Hk Hd Ho Hc; [lia|].
  destruct fuel as [|fuel]; [lia|]. cbn [encode_groups pack_groups].
  destruct (take_drop_length b g n Hb Hg Hgn cs k Hl) as [Ht Hdl].
  assert (zlen (f (take g cs)) = Z.of_nat n) as Hfl.
  { rewrite Hf; [unfold zlen; by rewrite le_bytes_length|done|].
    rewrite <- (take_drop g cs), fmap_app in Hd. by apply Forall_app in Hd as [? _]. }
  set (d := f (take g cs)) in *. unfold wbind.
  destruct (out_alloc w data cap (Z.of_nat n) Ho ltac:(nia) ltac:(nia)) as (w1 & x & -> & Hx & Ho1). cbn [wp_at].
  rewrite Z.add_0_r. destruct (out_store_end w1 data x cap d Ho1 ltac:(lia)) as (w2 & -> & Ho2).
  destruct k as [|k].
  - assert (drop g cs = []) as -> by (apply length_zero_iff_nil; lia). exists w2. split; [done|].
    cbn [pack_groups]. by rewrite app_nil_r.
  - destruct (drop g cs) as [|c cs'] eqn:E; [cbn [length] in Hdl; lia|]. rewrite <- E in *.
    destruct (IH fuel (drop g cs) w2 (data ++ d)) as (w3 & E3 & Ho3).
    + lia.
    + lia.
    + rewrite <- (take_drop g cs), fmap_app in Hd. by apply Forall_app in Hd as [_ ?].
    + done.
    + rewrite zlen_app. nia.
    + exists w3. rewrite E3. by rewrite <- app_assoc in Ho3.
Qed.

#[export] Instance encodes_4_bits : Encodes poly_encode_4_bits id 4.
Proof.
  change (Encodes (fun p => encode_whole (32 * 4) 2 pack_4_bits p) id 4).
  apply (encode_whole_out 4 2 1 pack_4_bits id 128); [lia..|apply pack_4_bits_packs].
Qed.
#[export] Instance encodes_6_bits : Encodes poly_encode_6_bits id 6.
Proof.
  change (Encodes (fun p => encode_whole (32 * 6) 4 pack_6_bits p) id 6).
  apply (encode_whole_out 6 4 3 pack_6_bits id 64); [lia..|apply pack_6_bits_packs].
Qed.
#[export] Instance encodes_10_bits : Encodes poly_encode_10_bits id 10.
Proof.
  change (Encodes (fun p => encode_whole (32 * 10) 4 pack_10_bits p) id 10).
  apply (encode_whole_out 10 4 5 pack_10_bits id 64); [lia..|apply pack_10_bits_packs].
Qed.
#[export] Instance encodes_signed_4 : Encodes poly_encode_signed_4 (mod_sub 4) 4.
Proof.
  change (Encodes (fun p => encode_whole (32 * 4) 2 pack_signed_4 p) (mod_sub 4) 4).
  apply (encode_whole_out 4 2 1 pack_signed_4 (mod_sub 4) 128); [lia..|apply pack_signed_4_packs].
Qed.
#[export] Instance encodes_signed_2 : Encodes poly_encode_signed_2 (mod_sub 2) 3.
Proof.
  change (Encodes (fun p => encode_whole (32 * 3) 8 pack_signed_2 p) (mod_sub 2) 3).
  apply (encode_whole_out 3 8 3 pack_signed_2 (mod_sub 2) 32); [lia..|apply pack_signed_2_packs].
Qed.
#[export] Instance encodes_signed_12 : Encodes poly_encode_signed_two_to_power_12 (mod_sub (Z.shiftl 1 12)) 13.
Proof.
  change (Encodes (fun p => encode_groups 256 (Z.of_nat 13) 8 pack_signed_two_to_power_12 p) (mod_sub (Z.shiftl 1 12)) 13).
  apply (encode_groups_out 13 8 13 pack_signed_two_to_power_12 (mod_sub (Z.shiftl 1 12)) 32); [lia..|apply pack_signed_12_packs].
Qed.
#[export] Instance encodes_signed_19 : Encodes poly_encode_signed_two_to_power_19 (mod_sub (Z.shiftl 1 19)) 20.
Proof.
  change (Encodes (fun p => encode_groups 256 (Z.of_nat 10) 4 pack_signed_two_to_power_19 p) (mod_sub (Z.shiftl 1 19)) 20).
  apply (encode_groups_out 20 4 10 pack_signed_two_to_power_19 (mod_sub (Z.shiftl 1 19)) 64); [lia..|apply pack_signed_19_packs].
Qed.
#[export] Instance encodes_signed_17 : Encodes poly_encode_signed_two_to_power_17 (mod_sub (Z.shiftl 1 17)) 18.
Proof.
  change (Encodes (fun p => encode_groups 256 (Z.of_nat 9) 4 pack_signed_two_to_power_17 p) (mod_sub (Z.shiftl 1 17)) 18).
  apply (encode_groups_out 18 4 9 pack_signed_two_to_power_17 (mod_sub (Z.shiftl 1 17)) 64); [lia..|apply pack_signed_17_packs].
Qed.
End Instances.

Lemma decode_groups_decodes b g n f dec lim k :
  0 < b -> (0 < g)%nat -> b * Z.of_nat g = 8 * Z.of_nat n -> (g * k = 256)%nat ->
  unpacks_upto f dec b g n lim -> Decodes (decode_groups k (Z.of_nat n) f) dec b lim.
Proof.
  intros Hb Hg Hgn Hk Hf. split.
  - intros pkt bs rest Hrep Hok Hl. rewrite <- Hk.
    apply (decode_groups_app b g n Hb Hg Hgn f dec lim k pkt bs rest); [done..|]. unfold zlen in Hl. nia.
  - intros pkt l Hrep Hok Hl. eapply (decode_groups_short b g n); [done..|]. nia.
Qed.

#[export] Instance decodes_10_bits : Decodes poly_decode_10_bits id 10 1023.
Proof.
  change (Decodes (decode_groups 64 (Z.of_nat 5) (fun b => Some (unpack_10_bits b))) id 10 1023).
  apply (decode_groups_decodes 10 4 5 (fun b => Some (unpack_10_bits b)) id 1023 64); [lia..|].
  apply (unpacks_all _ _ 10); [lia|apply unpack_10_bits_unpacks].
Qed.
#[export] Instance decodes_signed_4 : Decodes poly_decode_signed_4 (mod_sub 4) 4 8.
Proof.
  change (Decodes (decode_groups 32 (Z.of_nat 4) unpack_signed_4) (mod_sub 4) 4 8).
  apply (decode_groups_decodes 4 8 4 unpack_signed_4 (mod_sub 4) 8 32); [lia..|].
  apply unpack_signed_4_unpacks.
Qed.
#[export] Instance decodes_signed_2 : Decodes poly_decode_signed_2 (mod_sub 2) 3 4.
Proof.
  change (Decodes (decode_groups 32 (Z.of_nat 3) unpack_signed_2) (mod_sub 2) 3 4).
  apply (decode_groups_decodes 3 8 3 unpack_signed_2 (mod_sub 2) 4 32); [lia..|].
  apply unpack_signed_2_unpacks.
Qed.
#[export] Instance decodes_signed_12 : Decodes poly_decode_signed_two_to_power_12 (mod_sub (Z.shiftl 1 12)) 13 8191.
Proof.
  change (Decodes (decode_groups 32 (Z.of_nat 13) (fun b => Some (unpack_signed_two_to_power_12 b))) (mod_sub (Z.shiftl 1 12)) 13 8191).
  apply (decode_groups_decodes 13 8 13 (fun b => Some (unpack_signed_two_to_power_12 b)) (mod_sub (Z.shiftl 1 12)) 8191 32); [lia..|].
  apply (unpacks_all _ _ 13); [lia|apply unpack_signed_12_unpacks].
Qed.
#[export] Instance decodes_signed_19 : Decodes poly_decode_signed_two_to_power_19 (mod_sub (Z.shiftl 1 19)) 20 1048575.
Proof.
  change (Decodes (decode_groups 64 (Z.of_nat 10) (fun b => Some (unpack_signed_two_to_power_19 b))) (mod_sub (Z.shiftl 1 19)) 20 1048575).
  apply (decode_groups_decodes 20 4 10 (fun b => Some (unpack_signed_two_to_power_19 b)) (mod_sub (Z.shiftl 1 19)) 1048575 64); [lia..|].
  apply (unpacks_all _ _ 20); [lia|apply unpack_signed_19_unpacks].
Qed.
#[export] Instance decodes_signed_17 : Decodes poly_decode_signed_two_to_power_17 (mod_sub (Z.shiftl 1 17)) 18 262143.
Proof.
  change (Decodes (decode_groups 64 (Z.of_nat 9) (fun b => Some (unpack_signed_two_to_power_17 b))) (mod_sub (Z.shiftl 1 17)) 18 262143).
  apply (decode_groups_decodes 18 4 9 (fun b => Some (unpack_signed_two_to_power_17 b)) (mod_sub (Z.shiftl 1 17)) 262143 64); [lia..|].
  apply (unpacks_all _ _ 18); [lia|apply unpack_signed_17_unpacks].
Qed.

(** ** Round trips *)

Lemma mod_sub_invol r c : coeff_ok r -> coeff_ok c -> mod_sub r (mod_sub r c) = c.
Proof.
  intros Hr Hc. destruct (coeff_sub_ok r c Hr Hc) as [H1 E1].
  destruct (coeff_sub_ok r _ Hr H1) as [H2 E2]. apply cong_eq; [done|done|]. rewrite E2, E1. cong_by 0.
Qed.
Lemma mod_sub_signed r c :
  coeff_ok r -> coeff_ok c -> 0 <= r - centered c < ML_DSA_Q -> mod_sub r c = r - centered c.
Proof.
  intros Hr Hc Hd. destruct (coeff_sub_ok r c Hr Hc) as [H1 E1]. apply cong_eq; [done|done|].
  by rewrite E1, centered_cong.
Qed.

(** What is written is read back. *)
Lemma codec_roundtrip `{Decodes d dec b lim} enc p pkt rest :
  0 <= b -> zlen p = 256 ->
  Forall (fun c => is_digit b (enc c) /\ enc c <= lim /\ dec (enc c) = c) p ->
  pkt_rep pkt (bit_pack b (enc <$> p) ++ rest) ->
  exists pkt', d pkt = Some (p, pkt') /\ pkt_rep pkt' rest.
Proof.
  intros Hb Hl Hp Hrep. assert (zlen (enc <$> p) = 256) as Hl' by (by rewrite zlen_fmap).
  assert (zlen (bit_pack b (enc <$> p)) = 32 * b) as Hz by (rewrite bit_pack_length, Hl'; dlia).
  pose proof (decodes pkt _ rest Hrep (bit_pack_ok _ _) Hz) as Hd. cbv zeta in Hd.
  replace 256%nat with (length (enc <$> p)) in Hd by (unfold zlen in Hl'; lia).
  rewrite bit_unpack_pack in Hd.
  - replace (forallb _ _) with true in Hd.
    + destruct Hd as (pkt' & -> & Hrep'). exists pkt'. split; [|done]. do 2 f_equal.
      rewrite <- list_fmap_compose. rewrite <- (list_fmap_id p) at 2. apply list_fmap_ext. intros i x Hx.
      rewrite Forall_lookup in Hp. by apply (Hp i x Hx).
    + symmetry. apply forallb_forall. intros x Hx%list_elem_of_In. apply list_elem_of_fmap in Hx as (c & -> & Hc).
      rewrite Forall_forall in Hp. specialize (Hp c Hc). lia.
  - done.
  - rewrite Hl'. dlia.
  - apply Forall_fmap. eapply Forall_impl; [exact Hp|]. by intros c [? _].
Qed.

(** What is accepted has one encoding only. *)
Lemma codec_canonical `{Decodes d dec b lim} enc pkt bs rest p pkt' :
  0 <= b -> (forall x, is_digit b x -> enc (dec x) = x) ->
  pkt_rep pkt (bs ++ rest) -> bytes_ok bs -> zlen bs = 32 * b -> d pkt = Some (p, pkt') ->
  bs = bit_pack b (enc <$> p) /\ pkt_rep pkt' rest /\ zlen p = 256 /\
  Forall (fun c => exists x, is_digit b x /\ x <= lim /\ c = dec x) p.
Proof.
  intros Hb He Hrep Hok Hl Ed. pose proof (decodes pkt bs rest Hrep Hok Hl) as Hd. cbv zeta in Hd.
  pose proof (to_digits_ok b 256 (le_val bs) Hb) as Hdg. fold (bit_unpack b 256 bs) in Hdg.
  assert (bit_pack b (bit_unpack b 256 bs) = bs) as Hpu by (apply bit_pack_unpack; done || lia).
  assert (zlen (bit_unpack b 256 bs) = 256) as Hn by (unfold zlen, bit_unpack; by rewrite to_digits_length).
  revert Hd Hdg Hpu Hn. generalize (bit_unpack b 256 bs) as ds. intros ds Hd Hdg Hpu Hn.
  destruct (forallb _ _) eqn:Ef; [|congruence]. rewrite forallb_forall in Ef.
  destruct Hd as (pkt1 & E1 & Hrep1). rewrite Ed in E1. injection E1 as -> ->. split_and!.
  - rewrite <- Hpu at 1. f_equal. rewrite <- list_fmap_compose. rewrite <- (list_fmap_id ds) at 1.
    apply list_fmap_ext. intros i x Hx. symmetry. apply He. rewrite Forall_lookup in Hdg. by apply (Hdg i).
  - done.
  - by rewrite zlen_fmap.
  - apply Forall_fmap, Forall_forall. intros x Hx. exists x. rewrite Forall_forall in Hdg.
    split_and!; [by apply Hdg| |done]. apply Z.leb_le, Ef. by apply list_elem_of_In.
Qed.

(** C29: the polynomial encoders and decoders are the bit packing of FIPS 204.
    Each encoder, given a packet with room, appends the [32 * b] bytes whose
    little-endian value has the coefficients (the signed ones mapped to
    [range - c]) as its base [2^b] digits; each decoder reads back exactly these
    digits, and those of the private key vectors refuse a digit above [2 * eta]. *)
Theorem ml_dsa_codecs_are_bit_packing `{AL : Allocator} :
  Encodes poly_encode_4_bits id 4 /\ Encodes poly_encode_6_bits id 6 /\ Encodes poly_encode_10_bits id 10 /\
  Encodes poly_encode_signed_4 (mod_sub 4) 4 /\ Encodes poly_encode_signed_2 (mod_sub 2) 3 /\
  Encodes poly_encode_signed_two_to_power_12 (mod_sub (2 ^ 12)) 13 /\
  Encodes poly_encode_signed_two_to_power_17 (mod_sub (2 ^ 17)) 18 /\
  Encodes poly_encode_signed_two_to_power_19 (mod_sub (2 ^ 19)) 20 /\
  Decodes poly_decode_10_bits id 10 (2 ^ 10 - 1) /\
  Decodes poly_decode_signed_4 (mod_sub 4) 4 8 /\ Decodes poly_decode_signed_2 (mod_sub 2) 3 4 /\
  Decodes poly_decode_signed_two_to_power_12 (mod_sub (2 ^ 12)) 13 (2 ^ 13 - 1) /\
  Decodes poly_decode_signed_two_to_power_17 (mod_sub (2 ^ 17)) 18 (2 ^ 18 - 1) /\
  Decodes poly_decode_signed_two_to_power_19 (mod_sub (2 ^ 19)) 20 (2 ^ 20 - 1).
Proof.
  repeat split_and!;
    [exact encodes_4_bits|exact encodes_6_bits|exact encodes_10_bits|exact encodes_signed_4|exact encodes_signed_2
    |exact encodes_signed_12|exact encodes_signed_17|exact encodes_signed_19|exact decodes_10_bits
    |exact decodes_signed_4|exact decodes_signed_2|exact decodes_signed_12|exact decodes_signed_17|exact decodes_signed_19].
Qed.
