(* ===== verification/MlDsaHint.v ===== *)
(** * ML-DSA: packing the hint vector

    Model of [hint_bits_encode] and [hint_bits_decode] of
    [crypto/ml_dsa/ml_dsa_encoders.c].  The reference is [hint_encoding], the
    positions of the ones of all rows padded to [omega] bytes and then the number
    of positions used up to each row; decoding accepts exactly the encodings. *)
From stdpp Require Import sorting.
From S2P Require Import Prelude.
From S2P Require Import ByteOrder.
From S2P Require Import Packet.
From S2P Require Import WPacket.
From S2P Require Import WPacketSpec.
From S2P Require Import WPacketOut.
From S2P Require Import ZSum.
From S2P Require Import NttPass.
From S2P Require Import ModCong.
From S2P Require Import MlDsaField.
From S2P Require Import MlDsaNtt.
From S2P Require Import MlDsaPoly.
From S2P Require Import MlDsaEncode.

Section Encode.
Context `{AL : Allocator}.

(** [for (j = 0; j < 256; j++) if (p->coeff[j] != 0) data[coeff_index++] = j;] *)
Fixpoint hint_encode_row (n : nat) (j : Z) (data : option Z) (p : POLY) (coeff_index : Z) : W Z :=
  match n with
  | O => wret coeff_index
  | S n' =>
    if negb (coeff p j =? 0)
    then wp_at data coeff_index [u8 j];; hint_encode_row n' (j + 1) data p (coeff_index + 1)
    else hint_encode_row n' (j + 1) data p coeff_index
  end.

Fixpoint hint_encode_rows (data : option Z) (omega : Z) (rows : VECTOR) (i coeff_index : Z) : W unit :=
  match rows with
  | [] => wret tt
  | p :: rows' =>
    let! coeff_index := hint_encode_row 256 0 data p coeff_index in
    wp_at data (omega + i) [u8 coeff_index];;
    hint_encode_rows data omega rows' (i + 1) coeff_index
  end.

Definition hint_bits_encode (hint : VECTOR) (omega : Z) : W unit :=
  let k := zlen hint in
  let! data := WPACKET_allocate_bytes (omega + k) in
  wp_at data 0 (zeros (omega + k));;
  hint_encode_rows data omega hint 0 0.
End Encode.

(** [while (coeff_index < limit)]; the fuel is the distance to [limit]. *)
Fixpoint hint_decode_row (fuel : nat) (inp : list Z) (limit coeff_index last : Z) (p : POLY) : option (Z * POLY) :=
  match fuel with
  | O => Some (coeff_index, p)
  | S fuel' =>
    if coeff_index <? limit then
      let byte := byte_at inp coeff_index in
      if (0 <=? last) && (byte <=? last) then None
      else hint_decode_row fuel' inp limit (coeff_index + 1) byte (set_coeff p byte 1)
    else Some (coeff_index, p)
  end.

(** The loop over the rows [p] and [limits]. *)
Fixpoint hint_decode_rows (inp : list Z) (omega : Z) (rows : VECTOR) (limits : list Z) (coeff_index : Z) :
    option (Z * VECTOR) :=
  match rows, limits with
  | p :: rows', limit :: limits' =>
    if (limit <? coeff_index) || (omega <? limit) then None
    else
      '(coeff_index, p) ← hint_decode_row (Z.to_nat (limit - coeff_index)) inp limit coeff_index (-1) p;
      '(coeff_index, rows') ← hint_decode_rows inp omega rows' limits' coeff_index;
      Some (coeff_index, p :: rows')
  | _, _ => Some (coeff_index, [])
  end.

Definition hint_bits_decode (hint : VECTOR) (pkt : PACKET) (omega : Z) : option (VECTOR * PACKET) :=
  '(inp, pkt) ← PACKET_get_bytes pkt omega;
  '(limits, pkt) ← PACKET_get_bytes pkt (zlen hint);
  '(coeff_index, hint) ← hint_decode_rows inp omega (vector_zero hint) limits 0;
  if forallb (fun x => x =? 0) (drop (Z.to_nat coeff_index) inp) then Some (hint, pkt) else None.

(** ** The reference encoding *)

(** The indices of the coefficients that are set, from index [j] on. *)
Definition positions_from (n : nat) (j : Z) (p : POLY) : list Z :=
  filter (fun i => coeff p i <> 0) (seqZ j (Z.of_nat n)).
Definition positions (p : POLY) : list Z := positions_from 256 0 p.
Fixpoint cumulative (n : Z) (h : VECTOR) : list Z :=
  match h with [] => [] | p :: h' => let n' := n + zlen (positions p) in n' :: cumulative n' h' end.
Definition all_positions (h : VECTOR) : list Z := mjoin (positions <$> h).
Definition hint_encoding (omega : Z) (h : VECTOR) : list Z :=
  all_positions h ++ zeros (omega - zlen (all_positions h)) ++ cumulative 0 h.

(** Rows of zeros and ones with at most [omega] ones. *)
Definition bit (c : Z) : Prop := c = 0 \/ c = 1.
Definition hint_row_ok (p : POLY) : Prop := zlen p = 256 /\ Forall bit p.
Definition hint_ok (omega : Z) (h : VECTOR) : Prop :=
  Forall hint_row_ok h /\ zlen (all_positions h) <= omega.

Definition indicator (s : list Z) (p : POLY) : POLY := foldl (fun p b => set_coeff p b 1) p s.

Lemma all_positions_cons p h : all_positions (p :: h) = positions p ++ all_positions h.
Proof. done. Qed.

Lemma positions_elem p i : i ∈ positions p <-> 0 <= i < 256 /\ coeff p i <> 0.
Proof. unfold positions, positions_from. rewrite list_elem_of_filter, elem_of_seqZ. lia. Qed.
Lemma positions_ok p : bytes_ok (positions p).
Proof. apply Forall_forall. intros i [? _]%positions_elem. done. Qed.
Lemma seqZ_sorted m n : StronglySorted Z.lt (seqZ m n).
Proof.
  destruct (Z.le_gt_cases n 0); [rewrite seqZ_nil by lia; constructor|].
  revert m. pattern n. apply natlike_rec2; [| |lia].
  - intros m. rewrite seqZ_nil by lia. constructor.
  - clear. intros n Hn IH m. rewrite seqZ_cons by lia. rewrite Z.pred_succ. constructor; [apply IH|].
    apply Forall_forall. intros x Hx%elem_of_seqZ. lia.
Qed.
Lemma filter_sorted (P : Z -> Prop) `{!forall x, Decision (P x)} l :
  StronglySorted Z.lt l -> StronglySorted Z.lt (filter P l).
Proof.
  induction 1 as [|x l Hl IH Hx]; [constructor|]. rewrite filter_cons. case_decide; [|done].
  constructor; [done|]. apply Forall_forall. intros y [_ Hy]%list_elem_of_filter.
  rewrite Forall_forall in Hx. by apply Hx.
Qed.
Lemma positions_sorted p : StronglySorted Z.lt (positions p).
Proof. apply filter_sorted, seqZ_sorted. Qed.
Lemma sorted_lt_nodup l : StronglySorted Z.lt l -> NoDup l.
Proof.
  induction 1 as [|x l Hl IH Hx]; constructor; [|done]. intros Hin. rewrite Forall_forall in Hx.
  specialize (Hx x Hin). lia.
Qed.
(** A strictly increasing list is determined by its elements. *)
Lemma sorted_lt_unique l l' :
  StronglySorted Z.lt l -> StronglySorted Z.lt l' -> (forall x, x ∈ l <-> x ∈ l') -> l = l'.
Proof.
  intros Hl Hl' H. apply (StronglySorted_unique_strong Z.lt); [lia|done|done|].
  apply NoDup_Permutation; [by apply sorted_lt_nodup..|done].
Qed.

(** ** Rows *)

Lemma indicator_zlen s p : zlen (indicator s p) = zlen p.
Proof.
  unfold indicator. revert p. induction s as [|b s IH]; intros p; [done|]. cbn [foldl].
  by rewrite IH, zlen_set_coeff.
Qed.
Lemma indicator_coeff s p i :
  zlen p = 256 -> bytes_ok s -> 0 <= i ->
  coeff (indicator s p) i = if bool_decide (i ∈ s) then 1 else coeff p i.
Proof.
  unfold indicator. revert p. induction s as [|b s IH]; intros p Hp Hs Hi.
  - rewrite bool_decide_false; [done|]. apply not_elem_of_nil.
  - inversion Hs as [|? ? Hb Hs']; subst. cbn [foldl]. rewrite IH by (done || by rewrite zlen_set_coeff).
    rewrite coeff_set by (unfold is_byte in Hb; lia).
    destruct (Z.eqb_spec i b) as [->|Hne].
    + rewrite (bool_decide_true (b ∈ b :: s)) by (by left). by destruct (bool_decide _).
    + rewrite (bool_decide_ext (i ∈ b :: s) (i ∈ s)); [done|]. rewrite elem_of_cons. tauto.
Qed.

Lemma indicator_row_ok s : bytes_ok s -> hint_row_ok (indicator s poly_zero).
Proof.
  intros Hs. split; [by rewrite indicator_zlen|]. apply coeff_Forall. intros i [Hi _].
  rewrite indicator_coeff by done. rewrite coeff_zero. unfold bit. destruct (bool_decide _); auto.
Qed.
Lemma positions_indicator s :
  bytes_ok s -> StronglySorted Z.lt s -> positions (indicator s poly_zero) = s.
Proof.
  intros Hs Hsort. apply sorted_lt_unique; [apply positions_sorted|done|]. intros i. rewrite positions_elem.
  split.
  - intros [Hi Hc]. rewrite indicator_coeff, coeff_zero in Hc by (done || lia). by case_bool_decide.
  - intros Hi. unfold bytes_ok in Hs. rewrite Forall_forall in Hs. pose proof (Hs i Hi) as Hb. split; [done|].
    unfold is_byte in Hb. rewrite indicator_coeff by (done || lia || by apply Forall_forall).
    by rewrite bool_decide_true.
Qed.
Lemma indicator_positions p : hint_row_ok p -> indicator (positions p) poly_zero = p.
Proof.
  intros [Hl Hb]. apply coeff_ext; [by rewrite indicator_zlen|]. rewrite indicator_zlen. intros i Hi.
  change (zlen poly_zero) with 256 in Hi. rewrite indicator_coeff by (done || lia || apply positions_ok).
  rewrite coeff_Forall in Hb. destruct (Hb i ltac:(lia)) as [E|E].
  - rewrite bool_decide_false; [by rewrite coeff_zero, E|]. by intros [_ ?]%positions_elem.
  - rewrite bool_decide_true; [done|]. apply positions_elem. lia.
Qed.

(** The order test of the decoder. *)
Fixpoint chain (last : Z) (s : list Z) : bool :=
  match s with [] => true | b :: s' => negb ((0 <=? last) && (b <=? last)) && chain b s' end.

Lemma chain_sorted last s : bytes_ok s -> 0 <= last -> chain last s = true <-> StronglySorted Z.lt (last :: s).
Proof.
  intros Hs. revert last. induction Hs as [|b s Hb Hs IH]; intros last Hl.
  - split; [intros _; repeat constructor|done].
  - cbn [chain]. unfold is_byte in Hb. rewrite andb_true_iff, IH by lia. split.
    + intros [H1 H2]. constructor; [done|]. assert (last < b) by lia. constructor; [done|].
      apply StronglySorted_inv in H2 as [_ H2]. eapply Forall_impl; [exact H2|]. lia.
    + intros H. apply StronglySorted_inv in H as [H1 H2]. split; [|done].
      apply Forall_inv in H2. lia.
Qed.
Lemma chain_start s : bytes_ok s -> chain (-1) s = true <-> StronglySorted Z.lt s.
Proof.
  destruct s as [|b s]; intros Hs; [split; [constructor|done]|]. inversion Hs; subst. unfold is_byte in *.
  cbn [chain Z.leb Z.compare andb negb]. apply chain_sorted; [done|lia].
Qed.

Lemma decode_row_spec inp pre s post last p :
  inp = pre ++ s ++ post ->
  hint_decode_row (length s) inp (zlen pre + zlen s) (zlen pre) last p =
  if chain last s then Some (zlen pre + zlen s, indicator s p) else None.
Proof.
  revert pre last p. induction s as [|b s IH]; intros pre last p ->; cbn [length hint_decode_row chain].
  - by rewrite zlen_nil, Z.add_0_r.
  - rewrite zlen_cons. pose proof (zlen_nonneg s). destruct (Z.ltb_spec (zlen pre) (zlen pre + (1 + zlen s))); [|lia].
    assert (byte_at (pre ++ (b :: s) ++ post) (zlen pre) = b) as E
      by (unfold byte_at; rewrite zlen_to_nat; cbn [app]; by rewrite list_lookup_middle).
    rewrite E. cbv zeta. destruct (_ && _); [done|]. cbn [negb andb].
    specialize (IH (pre ++ [b]) b (set_coeff p b 1)). rewrite zlen_app in IH.
    change (zlen [b]) with 1 in IH. rewrite Z.add_assoc, IH by (by rewrite <- app_assoc). done.
Qed.

(** ** The whole vector *)

Lemma decode_rows_encoding inp omega h pre post :
  Forall hint_row_ok h -> inp = pre ++ all_positions h ++ post -> zlen pre + zlen (all_positions h) <= omega ->
  hint_decode_rows inp omega (replicate (length h) poly_zero) (cumulative (zlen pre) h) (zlen pre) =
  Some (zlen pre + zlen (all_positions h), h).
Proof.
  revert pre. induction h as [|p h IH]; intros pre Hh Hi Ho.
  - by rewrite Z.add_0_r.
  - inversion Hh as [|? ? Hp Hh']; subst. rewrite all_positions_cons, zlen_app in *.
    cbn [length replicate cumulative hint_decode_rows].
    pose proof (zlen_nonneg (positions p)). pose proof (zlen_nonneg (all_positions h)).
    destruct (Z.ltb_spec (zlen pre + zlen (positions p)) (zlen pre)); [lia|].
    destruct (Z.ltb_spec omega (zlen pre + zlen (positions p))); [lia|]. cbn [orb].
    replace (Z.to_nat (zlen pre + zlen (positions p) - zlen pre)) with (length (positions p)) by (unfold zlen; lia).
    rewrite (decode_row_spec _ pre _ (all_positions h ++ post)) by (by rewrite <- app_assoc).
    rewrite (proj2 (chain_start _ (positions_ok p)) (positions_sorted p)). cbn [mbind option_bind].
    rewrite indicator_positions by done.
    specialize (IH (pre ++ positions p) Hh'). rewrite zlen_app in IH.
    rewrite IH by (rewrite <- ?app_assoc; done || lia). cbn [mbind option_bind]. do 2 f_equal. lia.
Qed.

Lemma decode_rows_inv inp omega limits ci ci' h :
  bytes_ok inp -> zlen inp = omega -> 0 <= ci <= omega ->
  hint_decode_rows inp omega (replicate (length limits) poly_zero) limits ci = Some (ci', h) ->
  ci <= ci' <= omega /\ length h = length limits /\ Forall hint_row_ok h /\ limits = cumulative ci h /\
  slice inp ci (ci' - ci) = all_positions h.
Proof.
  intros Hok Ho. revert ci h. induction limits as [|limit limits IH]; intros ci h Hci.
  - cbn [length replicate hint_decode_rows]. intros [= <- <-]. rewrite Z.sub_diag. split_and!; done || lia.
  - cbn [length replicate hint_decode_rows]. destruct (Z.ltb_spec limit ci); [done|].
    destruct (Z.ltb_spec omega limit); [done|]. cbn [orb].
    set (s := slice inp ci (limit - ci)).
    assert (zlen s = limit - ci) as Hs by (apply slice_length; lia).
    assert (bytes_ok s) as Hsok by (apply Forall_take, Forall_drop, Hok).
    assert (inp = take (Z.to_nat ci) inp ++ s ++ drop (Z.to_nat limit) inp) as Hinp.
    { unfold s, slice. rewrite <- (take_drop (Z.to_nat ci) inp) at 1. f_equal.
      rewrite <- (take_drop (Z.to_nat (limit - ci)) (drop (Z.to_nat ci) inp)) at 1. f_equal.
      rewrite drop_drop. f_equal. lia. }
    assert (zlen (take (Z.to_nat ci) inp) = ci) as Ht by (unfold zlen in *; rewrite length_take; lia).
    pose proof (decode_row_spec inp (take (Z.to_nat ci) inp) s _ (-1) poly_zero Hinp) as Hr.
    rewrite Ht, Hs in Hr. replace (ci + (limit - ci)) with limit in Hr by lia.
    replace (Z.to_nat (limit - ci)) with (length s) by (unfold zlen in Hs; lia). rewrite Hr.
    destruct (chain (-1) s) eqn:Ec; [|done]. cbn [mbind option_bind].
    apply chain_start in Ec; [|done].
    destruct (hint_decode_rows _ _ _ limits limit) as [[ci1 h1]|] eqn:Er; [|done]. cbn [mbind option_bind].
    intros [= <- <-]. destruct (IH limit h1 ltac:(lia) Er) as (H1 & H2 & H3 & H4 & H5).
    pose proof (positions_indicator s Hsok Ec) as Hpos.
    split_and!; [lia|lia|cbn [length]; lia|constructor; [by apply indicator_row_ok|done]| |].
    + cbn [cumulative]. rewrite Hpos, Hs. replace (ci + (limit - ci)) with limit by lia. by rewrite <- H4.
    + rewrite all_positions_cons, Hpos, <- H5. unfold s, slice.
      replace (Z.to_nat (ci1 - ci)) with (Z.to_nat (limit - ci) + Z.to_nat (ci1 - limit))%nat by lia.
      rewrite <- take_take_drop. f_equal. rewrite drop_drop. do 2 f_equal. lia.
Qed.

Lemma cumulative_length n h : zlen (cumulative n h) = zlen h.
Proof. revert n. induction h as [|p h IH]; intros n; [done|]. cbn [cumulative]. by rewrite !zlen_cons, IH. Qed.
Lemma hint_encoding_length omega h : hint_ok omega h -> zlen (hint_encoding omega h) = omega + zlen h.
Proof. intros [_ Ho]. unfold hint_encoding. rewrite !zlen_app, zlen_zeros, cumulative_length by lia. lia. Qed.

Lemma cumulative_ok omega n h : 0 <= n -> n + zlen (all_positions h) <= omega -> omega < 256 -> bytes_ok (cumulative n h).
Proof.
  revert n. induction h as [|p h IH]; intros n Hn Hm Ho; [constructor|]. rewrite all_positions_cons, zlen_app in Hm.
  pose proof (zlen_nonneg (positions p)). pose proof (zlen_nonneg (all_positions h)).
  constructor; [unfold is_byte; lia|]. apply IH; lia.
Qed.
Lemma all_positions_ok h : bytes_ok (all_positions h).
Proof.
  induction h as [|p h IH]; [constructor|]. rewrite all_positions_cons. apply Forall_app. split; [apply positions_ok|done].
Qed.
Lemma hint_encoding_ok omega h : hint_ok omega h -> omega < 256 -> bytes_ok (hint_encoding omega h).
Proof.
  intros [_ Hm] Ho. unfold bytes_ok, hint_encoding. rewrite !Forall_app.
  split_and!; [apply all_positions_ok| |by apply (cumulative_ok omega)].
  apply Forall_replicate. by compute.
Qed.

Lemma hint_decode_encoding omega h h0 pkt rest :
  hint_ok omega h -> zlen h0 = zlen h -> pkt_rep pkt (hint_encoding omega h ++ rest) ->
  exists pkt', hint_bits_decode h0 pkt omega = Some (h, pkt') /\ pkt_rep pkt' rest.
Proof.
  intros Hh Hl Hrep. pose proof Hh as [Hrows Hm]. pose proof (zlen_nonneg (all_positions h)).
  unfold hint_encoding in Hrep. rewrite (app_assoc (all_positions h)), <- app_assoc in Hrep.
  set (inp := all_positions h ++ zeros (omega - zlen (all_positions h))) in *.
  assert (zlen inp = omega) as Hi by (unfold inp; rewrite zlen_app, zlen_zeros by lia; lia).
  unfold hint_bits_decode.
  destruct (PACKET_get_bytes_app _ _ _ omega Hrep ltac:(lia)) as (pkt1 & -> & Hrep1). cbn [mbind option_bind].
  destruct (PACKET_get_bytes_app _ _ _ (zlen h0) Hrep1 ltac:(rewrite cumulative_length; lia)) as (pkt2 & -> & Hrep2).
  cbn [mbind option_bind]. unfold vector_zero. replace (length h0) with (length h) by (unfold zlen in Hl; lia).
  pose proof (decode_rows_encoding inp omega h [] (zeros (omega - zlen (all_positions h))) Hrows ltac:(done) ltac:(done)) as E.
  change (zlen []) with 0 in E. rewrite E. cbn [mbind option_bind]. rewrite Z.add_0_l. exists pkt2. split; [|done].
  unfold inp. rewrite zlen_to_nat, drop_app_length. replace (forallb _ _) with true; [done|].
  symmetry. apply forallb_forall. intros x Hx%list_elem_of_In. by apply elem_of_replicate in Hx as [-> _].
Qed.

Lemma all_zero_zeros l : forallb (fun x => x =? 0) l = true -> l = zeros (zlen l).
Proof.
  intros H. rewrite forallb_forall in H. unfold zeros. rewrite zlen_to_nat. symmetry. apply replicate_as_Forall. split; [done|].
  apply Forall_forall. intros x Hx. symmetry. apply Z.eqb_eq, H. by apply list_elem_of_In.
Qed.

(** Only an encoding is accepted. *)
Lemma hint_decode_inv omega h0 pkt l h pkt' :
  0 <= omega -> bytes_ok l -> pkt_rep pkt l -> hint_bits_decode h0 pkt omega = Some (h, pkt') ->
  exists rest, l = hint_encoding omega h ++ rest /\ hint_ok omega h /\ zlen h = zlen h0 /\ pkt_rep pkt' rest.
Proof.
  intros Ho Hok Hrep. pose proof (zlen_nonneg h0). unfold hint_bits_decode.
  destruct (Z.lt_ge_cases (zlen l) omega) as [Hs|Hs]; [by rewrite (PACKET_get_bytes_short _ _ _ Hrep Hs)|].
  rewrite <- (take_drop (Z.to_nat omega) l) in Hrep.
  assert (zlen (take (Z.to_nat omega) l) = omega) as Ht by (unfold zlen in *; rewrite length_take; lia).
  destruct (PACKET_get_bytes_app _ _ _ omega Hrep ltac:(lia)) as (pkt1 & -> & Hrep1). cbn [mbind option_bind].
  set (inp := take _ l) in *. set (l1 := drop _ l) in *.
  destruct (Z.lt_ge_cases (zlen l1) (zlen h0)) as [Hs1|Hs1]; [by rewrite (PACKET_get_bytes_short _ _ _ Hrep1 Hs1)|].
  rewrite <- (take_drop (length h0) l1) in Hrep1.
  assert (length (take (length h0) l1) = length h0) as Ht1 by (unfold zlen in *; rewrite length_take; lia).
  destruct (PACKET_get_bytes_app _ _ _ (zlen h0) Hrep1 ltac:(unfold zlen; lia)) as (pkt2 & -> & Hrep2).
  cbn [mbind option_bind]. unfold vector_zero. rewrite <- Ht1 at 1.
  destruct (hint_decode_rows _ _ _ _ _) as [[ci h1]|] eqn:Er; [|done]. cbn [mbind option_bind].
  assert (bytes_ok inp) as Hinp by (by apply Forall_take).
  destruct (decode_rows_inv inp omega _ 0 ci h1 Hinp Ht ltac:(lia) Er) as (Hc & Hl & Hr & Hlim & Hsl).
  destruct (forallb _ _) eqn:Ef; [|done]. intros [= <- <-]. apply all_zero_zeros in Ef.
  rewrite Z.sub_0_r in Hsl. unfold slice in Hsl. change (Z.to_nat 0) with 0%nat in Hsl. rewrite drop_0 in Hsl.
  assert (zlen (all_positions h1) = ci) as Hci by (rewrite <- Hsl; unfold zlen in *; rewrite length_take; lia).
  exists (drop (length h0) l1). split_and!.
  - unfold hint_encoding. rewrite Hci, <- Hlim, <- !app_assoc.
    replace (omega - ci) with (zlen (drop (Z.to_nat ci) inp)) by (unfold zlen in *; rewrite length_drop; lia).
    rewrite <- Ef, <- Hsl. rewrite (app_assoc (take _ inp)), !take_drop.
    unfold inp, l1. by rewrite take_drop.
  - split; [done|]. lia.
  - unfold zlen. lia.
  - done.
Qed.

(** ** Encoding into a packet with room *)

Lemma splice_app {A} (a b d : list A) : splice (a ++ b) (zlen a) d = a ++ d ++ drop (length d) b.
Proof.
  unfold splice. rewrite zlen_to_nat, take_app_length. do 2 f_equal. rewrite <- drop_drop. by rewrite drop_app_length.
Qed.
Lemma splice_splice_app {A} (x : list A) o a b :
  0 <= o -> o + zlen a <= zlen x -> splice (splice x o a) (o + zlen a) b = splice x o (a ++ b).
Proof.
  intros Ho Hx. assert (zlen (take (Z.to_nat o) x) = o) as Ht by (pose proof (zlen_nonneg a); unfold zlen in *; rewrite length_take; lia).
  unfold splice at 2. rewrite app_assoc.
  replace (o + zlen a) with (zlen (take (Z.to_nat o) x ++ a)) by (rewrite zlen_app; lia). rewrite splice_app.
  unfold splice. rewrite <- !app_assoc, drop_drop, length_app. by rewrite Nat.add_assoc.
Qed.
Lemma splice_nil {A} (x : list A) o : splice x o [] = x.
Proof. unfold splice. cbn [app length]. by rewrite Nat.add_0_r, take_drop. Qed.

Lemma positions_from_S n j p :
  positions_from (S n) j p =
  if negb (coeff p j =? 0) then j :: positions_from n (j + 1) p else positions_from n (j + 1) p.
Proof.
  unfold positions_from. rewrite seqZ_cons by lia. rewrite filter_cons.
  replace (Z.pred (Z.of_nat (S n))) with (Z.of_nat n) by lia. change (Z.succ j) with (j + 1).
  destruct (Z.eqb_spec (coeff p j) 0); case_decide; done || lia.
Qed.

Section Out.
Context `{AL : Allocator}.

Lemma out_at w data x cap off d :
  wp_out w (data ++ x) cap -> 0 <= off -> off + zlen d <= zlen x ->
  exists w', wp_at (Some (zlen data)) off d w = Done tt w' /\ wp_out w' (data ++ splice x off d) cap.
Proof.
  intros Ho H0 Hd. pose proof (zlen_nonneg d). cbn [wp_at]. unfold splice.
  assert (zlen (take (Z.to_nat off) x) = off) as Ht by (unfold zlen in *; rewrite length_take; lia).
  rewrite <- (take_drop (Z.to_nat off) x) in Ho. rewrite <- (take_drop (length d) (drop (Z.to_nat off) x)) in Ho.
  rewrite app_assoc in Ho.
  destruct (out_store w _ _ _ cap d Ho) as (w' & E & Ho').
  - unfold zlen in *. rewrite length_take, length_drop. lia.
  - exists w'. rewrite zlen_app, Ht in E. split; [done|]. by rewrite <- app_assoc, drop_drop in Ho'.
Qed.

Lemma hint_row_out n j p ci w data x cap :
  wp_out w (data ++ x) cap -> 0 <= j -> j + Z.of_nat n <= 256 -> 0 <= ci ->
  ci + zlen (positions_from n j p) <= zlen x ->
  exists w', hint_encode_row n j (Some (zlen data)) p ci w = Done (ci + zlen (positions_from n j p)) w' /\
    wp_out w' (data ++ splice x ci (positions_from n j p)) cap.
Proof.
  revert j ci w x. induction n as [|n IH]; intros j ci w x Ho Hj Hn Hci Hx.
  - change (positions_from 0 j p) with (@nil Z). rewrite splice_nil, Z.add_0_r. by exists w.
  - rewrite positions_from_S in *. cbn [hint_encode_row]. destruct (negb _).
    + rewrite zlen_cons in *. pose proof (zlen_nonneg (positions_from n (j + 1) p)). unfold wbind.
      destruct (out_at w data x cap ci [j] Ho Hci ltac:(change (zlen [j]) with 1; lia)) as (w1 & E1 & Ho1).
      rewrite u8_small by lia. rewrite E1.
      destruct (IH (j + 1) (ci + 1) w1 _ Ho1) as (w2 & E2 & Ho2); [lia..| |].
      { rewrite splice_zlen by (try change (zlen [j]) with 1; lia). lia. }
      exists w2. rewrite Z.add_assoc, E2. split; [done|].
      change (ci + 1) with (ci + zlen [j]) in Ho2. by rewrite splice_splice_app in Ho2 by (try change (zlen [j]) with 1; lia).
    + apply IH; done || lia.
Qed.

Lemma drop_zeros n m T : 0 <= n <= m -> drop (Z.to_nat n) (zeros m ++ T) = zeros (m - n) ++ T.
Proof.
  intros H. unfold zeros. rewrite drop_app_le by (rewrite length_replicate; lia). rewrite drop_replicate.
  do 2 f_equal. lia.
Qed.

Lemma hint_rows_out omega h P C w data cap :
  zlen P + zlen (all_positions h) <= omega -> omega < 256 ->
  wp_out w (data ++ P ++ zeros (omega - zlen P) ++ C ++ zeros (zlen h)) cap ->
  exists w', hint_encode_rows (Some (zlen data)) omega h (zlen C) (zlen P) w = Done tt w' /\
    wp_out w' (data ++ P ++ all_positions h ++ zeros (omega - zlen P - zlen (all_positions h)) ++ C ++ cumulative (zlen P) h) cap.
Proof.
  intros Hm Hom. revert P C w Hm. induction h as [|p h IH]; intros P C w Hm Ho.
  - exists w. split; [done|]. change (zlen (all_positions [])) with 0. by rewrite Z.sub_0_r.
  - rewrite all_positions_cons, zlen_app in *. cbn [hint_encode_rows cumulative]. unfold wbind.
    pose proof (zlen_nonneg P). pose proof (zlen_nonneg C). pose proof (zlen_nonneg h).
    pose proof (zlen_nonneg (positions p)). pose proof (zlen_nonneg (all_positions h)).
    set (T := C ++ zeros (zlen (p :: h))) in *.
    destruct (hint_row_out 256 0 p (zlen P) w data _ cap Ho ltac:(lia) ltac:(lia) ltac:(lia)) as (w1 & E1 & Ho1).
    { fold (positions p). rewrite !zlen_app, zlen_zeros by lia. pose proof (zlen_nonneg T). lia. }
    fold (positions p) in E1, Ho1. rewrite E1.
    rewrite splice_app in Ho1. rewrite <- (zlen_to_nat (positions p)), drop_zeros in Ho1 by lia.
    unfold T in Ho1. rewrite zlen_cons in Ho1.
    replace (zeros (1 + zlen h)) with ([0] ++ zeros (zlen h)) in Ho1
      by (unfold zeros; by rewrite (Z2Nat.inj_add 1) by lia).
    set (n := zlen P + zlen (positions p)) in *.
    set (pre := P ++ positions p ++ zeros (omega - zlen P - zlen (positions p)) ++ C).
    assert (zlen pre = omega + zlen C) as Hpre by (unfold pre; rewrite !zlen_app, zlen_zeros by lia; lia).
    replace (data ++ _) with (data ++ pre ++ [0] ++ zeros (zlen h)) in Ho1 by (unfold pre; by rewrite <- !app_assoc).
    destruct (out_at w1 data _ cap (zlen pre) [u8 n] Ho1 ltac:(lia)) as (w2 & E2 & Ho2).
    { rewrite !zlen_app. change (zlen [u8 n]) with 1. change (zlen [0]) with 1. pose proof (zlen_nonneg (zeros (zlen h))). lia. }
    rewrite Hpre in E2. rewrite E2. rewrite splice_app in Ho2. cbn [length drop app] in Ho2.
    rewrite u8_small in Ho2 by lia.
    destruct (IH (P ++ positions p) (C ++ [n]) w2) as (w3 & E3 & Ho3).
    + rewrite zlen_app. lia.
    + rewrite zlen_app. fold n. replace (omega - n) with (omega - zlen P - zlen (positions p)) by lia.
      unfold pre in Ho2. rewrite <- !app_assoc in Ho2. rewrite <- !app_assoc. exact Ho2.
    + rewrite !zlen_app in E3. change (zlen [n]) with 1 in E3. fold n in E3. rewrite E3. exists w3. split; [done|].
      rewrite !zlen_app in Ho3. fold n in Ho3. rewrite <- !app_assoc in Ho3 |- *.
      replace (omega - zlen P - (zlen (positions p) + zlen (all_positions h))) with (omega - n - zlen (all_positions h)) by lia.
      by rewrite <- (app_assoc C) in Ho3.
Qed.

Lemma hint_encode_out omega h w data cap :
  hint_ok omega h -> 0 < omega < 256 -> wp_out w data cap -> zlen data + omega + zlen h <= cap ->
  exists w', hint_bits_encode h omega w = Done tt w' /\ wp_out w' (data ++ hint_encoding omega h) cap.
Proof.
  intros [Hr Hm] Hom Ho Hc. pose proof (zlen_nonneg h). unfold hint_bits_encode, wbind.
  destruct (out_alloc w data cap (omega + zlen h) Ho ltac:(lia) ltac:(lia)) as (w1 & x & -> & Hx & Ho1). cbn [wp_at].
  rewrite Z.add_0_r. destruct (out_store_end w1 data x cap (zeros (omega + zlen h)) Ho1) as (w2 & -> & Ho2).
  { rewrite zlen_zeros by lia. lia. }
  replace (zeros (omega + zlen h)) with (zeros omega ++ zeros (zlen h)) in Ho2
    by (unfold zeros; rewrite (Z2Nat.inj_add omega) by lia; by rewrite replicate_add).
  destruct (hint_rows_out omega h [] [] w2 data cap) as (w3 & E3 & Ho3); [done|lia| |].
  - change (zlen []) with 0. by rewrite Z.sub_0_r.
  - exists w3. split; [done|]. unfold hint_encoding. change (zlen []) with 0 in Ho3. by rewrite Z.sub_0_r in Ho3.
Qed.
End Out.
