(* ===== verification/MlDsaSig.v ===== *)
(** * ML-DSA: encoding vectors and signatures

    Model of [ossl_ml_dsa_sig_encode], [ossl_ml_dsa_sig_decode],
    [ossl_ml_dsa_w1_encode] and [ossl_ml_dsa_poly_decode_expand_mask] of
    [crypto/ml_dsa/ml_dsa_encoders.c].  A signature that is encoded is decoded
    back, and every byte string that is accepted is the encoding of the signature
    it is decoded to, so a signature has exactly one encoding. *)
From S2P Require Import Prelude.
From S2P Require Import ByteOrder.
From S2P Require Import Packet.
From S2P Require Import WPacket.
From S2P Require Import WPacketSpec.
From S2P Require Import WPacketOut.
From S2P Require Import ZSum.
From S2P Require Import BitPack.
From S2P Require Import NttPass.
From S2P Require Import ModCong.
From S2P Require Import MlDsaField.
From S2P Require Import MlDsaRound.
From S2P Require Import MlDsaNtt.
From S2P Require Import MlDsaPoly.
From S2P Require Import MlDsaParams.
From S2P Require Import MlDsaPack.
From S2P Require Import MlDsaEncode.
From S2P Require Import MlDsaHint.

(** [struct ml_dsa_sig_st]; the lengths are those of the lists. *)
Record ML_DSA_SIG := mkML_DSA_SIG { sig_z : VECTOR; sig_hint : VECTOR; sig_c_tilde : list Z }.

(** [WPACKET_finish(&pkt)], its result ignored; what the [len] bytes of the
    packet's buffer hold then. *)
Definition finish_buf `{Allocator} (len : Z) (w : WPACKET) : option (list Z) :=
  match WPACKET_finish w with
  | Done _ w' | Fail w' => b ← GETBUF w'; Some (slice b 0 len)
  | Crash => None
  end.

Section Codec.
Context `{AL : Allocator}.

(** [for (i = 0; i < n; ++i) if (!encode_fn(poly + i, &pkt)) goto err;] *)
Fixpoint encode_polys (encode_fn : POLY -> W unit) (v : VECTOR) : W unit :=
  match v with [] => wret tt | p :: v' => encode_fn p;; encode_polys encode_fn v' end.

Definition z_encode_fn (params : ML_DSA_PARAMS) : POLY -> W unit :=
  if dp_gamma1 params =? ML_DSA_GAMMA1_TWO_POWER_19
  then poly_encode_signed_two_to_power_19 else poly_encode_signed_two_to_power_17.

(** [out] is the caller's buffer, [None] for NULL; the result is what it holds. *)
Definition ossl_ml_dsa_sig_encode (sig : ML_DSA_SIG) (params : ML_DSA_PARAMS) (out : option (list Z)) :
    option (list Z) :=
  out ← out;
  '(_, pkt) ← w_run (WPACKET_init_static_len (slice out 0 (dp_sig_len params)) 0;;
                     WPACKET_memcpy (sig_c_tilde sig);;
                     encode_polys (z_encode_fn params) (sig_z sig);;
                     hint_bits_encode (sig_hint sig) (dp_omega params)) uninit_wpacket;
  b ← finish_buf (dp_sig_len params) pkt;
  Some (splice out 0 b).

(** The result and what the buffer [out] holds. *)
Definition ossl_ml_dsa_w1_encode (w1 : VECTOR) (gamma2 : Z) (out : list Z) : bool * list Z :=
  match WPACKET_init_static_len out 0 uninit_wpacket with
  | Done _ pkt =>
    let encode_fn := if gamma2 =? ML_DSA_GAMMA2_Q_MINUS1_DIV32 then poly_encode_4_bits else poly_encode_6_bits in
    match encode_polys encode_fn w1 pkt with
    | Done _ pkt => (true, default out (finish_buf (zlen out) pkt))
    | Fail pkt => (false, default out (finish_buf (zlen out) pkt))
    | Crash => (false, out)
    end
  | Fail _ | Crash => (false, out)
  end.
End Codec.

(** [for (i = 0; i < n; ++i) if (!decode_fn(poly + i, &pkt)) goto err;] *)
Fixpoint decode_polys (decode_fn : PACKET -> option (POLY * PACKET)) (n : nat) (pkt : PACKET) :
    option (VECTOR * PACKET) :=
  match n with
  | O => Some ([], pkt)
  | S n' =>
    '(p, pkt) ← decode_fn pkt;
    '(v, pkt) ← decode_polys decode_fn n' pkt;
    Some (p :: v, pkt)
  end.

Definition z_decode_fn (gamma1 : Z) : PACKET -> option (POLY * PACKET) :=
  if gamma1 =? ML_DSA_GAMMA1_TWO_POWER_19
  then poly_decode_signed_two_to_power_19 else poly_decode_signed_two_to_power_17.

(** [sig] gives the lengths; on failure what was stored in it is not used. *)
Definition ossl_ml_dsa_sig_decode (sig : ML_DSA_SIG) (inp : list Z) (params : ML_DSA_PARAMS) : option ML_DSA_SIG :=
  pkt ← PACKET_buf_init inp 0 (zlen inp);
  '(c_tilde, pkt) ← PACKET_copy_bytes pkt (zlen (sig_c_tilde sig));
  '(z, pkt) ← decode_polys (z_decode_fn (dp_gamma1 params)) (length (sig_z sig)) pkt;
  '(hint, pkt) ← hint_bits_decode (sig_hint sig) pkt (dp_omega params);
  if negb (PACKET_remaining pkt =? 0) then None else Some (mkML_DSA_SIG z hint c_tilde).

Definition ossl_ml_dsa_poly_decode_expand_mask (inp : list Z) (gamma1 : Z) : option POLY :=
  pkt ← PACKET_buf_init inp 0 (zlen inp);
  '(p, _) ← z_decode_fn gamma1 pkt;
  Some p.

(** ** Vectors of polynomials that are packed alike *)

Section Vectors.
Context (f : Z -> Z) (b lim : Z) (Hb : 0 <= b).

Definition vec_encoding (v : VECTOR) : list Z := mjoin ((fun p => bit_pack b (f <$> p)) <$> v).
(** A polynomial [d] may return and [e] may write. *)
Definition codable (p : POLY) : Prop :=
  zlen p = 256 /\ Forall (fun c => is_digit b (f c) /\ f c <= lim /\ f (f c) = c) p.

Lemma vec_encoding_cons p v : vec_encoding (p :: v) = bit_pack b (f <$> p) ++ vec_encoding v.
Proof. done. Qed.
Lemma bit_pack_256 (p : POLY) : zlen p = 256 -> zlen (bit_pack b (f <$> p)) = 32 * b.
Proof. intros Hp. rewrite bit_pack_length, zlen_fmap, Hp. dlia. Qed.
Lemma vec_encoding_length v : Forall (fun p => zlen p = 256) v -> zlen (vec_encoding v) = 32 * b * zlen v.
Proof.
  induction 1 as [|p v Hp _ IH]; [by rewrite Z.mul_0_r|].
  rewrite vec_encoding_cons, zlen_app, IH, bit_pack_256, zlen_cons by done. lia.
Qed.
Lemma vec_encoding_ok v : bytes_ok (vec_encoding v).
Proof.
  induction v as [|p v IH]; [constructor|]. rewrite vec_encoding_cons. apply Forall_app. split; [apply bit_pack_ok|done].
Qed.
Lemma codable_length v : Forall codable v -> Forall (fun p => zlen p = 256) v.
Proof. intros H. eapply Forall_impl; [exact H|]. by intros p [? _]. Qed.

Context `{AL : Allocator} (e : POLY -> W unit) (d : PACKET -> option (POLY * PACKET)).

Lemma encode_polys_out `{!Encodes e f b} v w data cap :
  Forall (fun p => zlen p = 256 /\ Forall (is_digit b) (f <$> p)) v -> wp_out w data cap ->
  zlen data + 32 * b * zlen v <= cap ->
  exists w', encode_polys e v w = Done tt w' /\ wp_out w' (data ++ vec_encoding v) cap.
Proof.
  intros Hv. revert w data. induction Hv as [|p v [Hp Hd] Hv IH]; intros w data Ho Hc.
  - exists w. split; [done|]. by rewrite app_nil_r.
  - rewrite zlen_cons in Hc. pose proof (zlen_nonneg v). cbn [encode_polys]. unfold wbind.
    destruct (encodes p w data cap Hp Hd Ho ltac:(nia)) as (w1 & -> & Ho1).
    destruct (IH w1 _ Ho1) as (w2 & -> & Ho2); [rewrite zlen_app, bit_pack_256 by done; nia|].
    exists w2. by rewrite <- app_assoc in Ho2.
Qed.

Lemma decode_polys_app `{!Decodes d f b lim} v pkt rest :
  Forall codable v -> pkt_rep pkt (vec_encoding v ++ rest) ->
  exists pkt', decode_polys d (length v) pkt = Some (v, pkt') /\ pkt_rep pkt' rest.
Proof.
  intros Hv. revert pkt. induction Hv as [|p v [Hp Hd] Hv IH]; intros pkt Hrep; [by exists pkt|].
  rewrite vec_encoding_cons, <- app_assoc in Hrep. cbn [length decode_polys].
  destruct (codec_roundtrip f p pkt _ Hb Hp Hd Hrep) as (pkt1 & -> & Hrep1). cbn [mbind option_bind].
  destruct (IH pkt1 Hrep1) as (pkt2 & -> & Hrep2). by exists pkt2.
Qed.

Lemma decode_polys_inv `{!Decodes d f b lim} n pkt l v pkt' :
  (forall x, is_digit b x -> f (f x) = x) ->
  bytes_ok l -> pkt_rep pkt l -> decode_polys d n pkt = Some (v, pkt') ->
  exists rest, l = vec_encoding v ++ rest /\ Forall codable v /\ length v = n /\ pkt_rep pkt' rest.
Proof.
  intros Hf. revert pkt l v. induction n as [|n IH]; intros pkt l v Hok Hrep.
  - intros [= <- <-]. by exists l.
  - cbn [decode_polys]. destruct (d pkt) as [[p pkt1]|] eqn:Ed; [|done]. cbn [mbind option_bind].
    destruct (decode_polys d n pkt1) as [[v1 pkt2]|] eqn:Ev; [|done]. cbn [mbind option_bind]. intros [= <- <-].
    destruct (Z.lt_ge_cases (zlen l) (32 * b)) as [Hs|Hs]; [by rewrite (decodes_short pkt l Hrep Hok Hs) in Ed|].
    assert (zlen (take (Z.to_nat (32 * b)) l) = 32 * b) as Ht by (unfold zlen in *; rewrite length_take; lia).
    rewrite <- (take_drop (Z.to_nat (32 * b)) l) in Hrep.
    destruct (codec_canonical f pkt _ _ p pkt1 Hb Hf Hrep (Forall_take _ _ _ Hok) Ht Ed) as (E1 & Hrep1 & Hp & Hc).
    destruct (IH pkt1 _ v1 (Forall_drop _ _ _ Hok) Hrep1 Ev) as (rest & El & Hv & Hn & Hrep2).
    exists rest. split_and!; [|constructor; [|done]|cbn [length]; lia|done].
    + rewrite vec_encoding_cons, <- app_assoc, <- El, <- E1. by rewrite take_drop.
    + split; [done|]. eapply Forall_impl; [exact Hc|]. intros c (x & Hx & Hlim & ->). rewrite !Hf by done. done.
Qed.
End Vectors.

(** ** The coefficients of [z] *)

Definition gamma1_ok (gamma1 : Z) : Prop :=
  gamma1 = ML_DSA_GAMMA1_TWO_POWER_17 \/ gamma1 = ML_DSA_GAMMA1_TWO_POWER_19.
Definition z_coeff_ok (gamma1 c : Z) : Prop := coeff_ok c /\ - gamma1 < centered c <= gamma1.

Section Gamma1.
Context (gamma1 : Z) (Hg : gamma1_ok gamma1).

Lemma gamma1_pow : 2 ^ gamma1_bits gamma1 = 2 * gamma1 /\ 0 < gamma1 <= 524288 /\ 0 <= gamma1_bits gamma1.
Proof. destruct Hg as [-> | ->]; vm_compute; split_and!; (reflexivity || discriminate). Qed.
Lemma gamma1_coeff : coeff_ok gamma1.
Proof. destruct gamma1_pow as (_ & H & _). unfold coeff_ok, ML_DSA_Q. lia. Qed.

Lemma z_coeff_digit c :
  z_coeff_ok gamma1 c <-> coeff_ok c /\ is_digit (gamma1_bits gamma1) (mod_sub gamma1 c).
Proof.
  destruct gamma1_pow as (Hp & Hr & _). unfold z_coeff_ok, is_digit. rewrite Hp.
  split; intros [Hc H]; (split; [done|]).
  - rewrite mod_sub_signed; [lia|apply gamma1_coeff|done|]. unfold ML_DSA_Q. lia.
  - destruct (coeff_sub_ok gamma1 c gamma1_coeff Hc) as [H1 E1].
    rewrite (centered_unique c (gamma1 - mod_sub gamma1 c)); [lia|done| |].
    + change ML_DSA_Q_MINUS1_DIV2 with 4190208. lia.
    + rewrite E1. cong_by 0.
Qed.
Lemma digit_coeff x : is_digit (gamma1_bits gamma1) x -> coeff_ok x.
Proof. destruct gamma1_pow as (Hp & Hr & _). unfold is_digit, coeff_ok, ML_DSA_Q. rewrite Hp. lia. Qed.
Lemma gamma1_digits x : is_digit (gamma1_bits gamma1) x -> mod_sub gamma1 (mod_sub gamma1 x) = x.
Proof. intros Hx. apply mod_sub_invol; [apply gamma1_coeff|by apply digit_coeff]. Qed.

Definition z_lim : Z := 2 ^ gamma1_bits gamma1 - 1.
Lemma z_codable p :
  codable (mod_sub gamma1) (gamma1_bits gamma1) z_lim p <-> zlen p = 256 /\ Forall (z_coeff_ok gamma1) p.
Proof.
  unfold codable. split; intros [Hl Hp]; (split; [done|]); (eapply Forall_impl; [exact Hp|]); intros c Hc.
  - destruct Hc as (H1 & _ & E). apply z_coeff_digit. split; [|done]. rewrite <- E.
    apply (coeff_sub_ok gamma1 (mod_sub gamma1 c) gamma1_coeff), digit_coeff, H1.
  - apply z_coeff_digit in Hc as [H1 H2]. split_and!; [done|unfold z_lim, is_digit in *; lia|].
    apply mod_sub_invol; [apply gamma1_coeff|done].
Qed.

#[local] Instance z_encodes `{AL : Allocator} :
  Encodes (if gamma1 =? ML_DSA_GAMMA1_TWO_POWER_19
           then poly_encode_signed_two_to_power_19 else poly_encode_signed_two_to_power_17)
    (mod_sub gamma1) (gamma1_bits gamma1).
Proof. destruct Hg as [-> | ->]; [exact encodes_signed_17|exact encodes_signed_19]. Qed.
#[local] Instance z_decodes : Decodes (z_decode_fn gamma1) (mod_sub gamma1) (gamma1_bits gamma1) z_lim.
Proof. unfold z_lim. destruct Hg as [-> | ->]; [exact decodes_signed_17|exact decodes_signed_19]. Qed.

Definition z_encoding (z : VECTOR) : list Z := vec_encoding (mod_sub gamma1) (gamma1_bits gamma1) z.

(** [ossl_ml_dsa_poly_decode_expand_mask] cannot fail on a full buffer, and gives
    coefficients in the range of [z]. *)
Lemma decode_expand_mask_ok inp :
  bytes_ok inp -> zlen inp = 32 * gamma1_bits gamma1 ->
  exists p, ossl_ml_dsa_poly_decode_expand_mask inp gamma1 = Some p /\ zlen p = 256 /\ Forall (z_coeff_ok gamma1) p /\
    p = mod_sub gamma1 <$> bit_unpack (gamma1_bits gamma1) 256 inp.
Proof.
  intros Hok Hl. destruct gamma1_pow as (Hp & Hr & Hb).
  assert (gamma1_bits gamma1 <= 20) as Hb20 by (destruct Hg as [-> | ->]; by vm_compute).
  destruct (pkt_buf_init_rep inp 0 (zlen inp) inp) as (pkt & E & Hrep); [lia|lia|unfold SIZE_MAX; dlia| |].
  { unfold slice. change (Z.to_nat 0) with 0%nat. rewrite drop_0, zlen_to_nat, take_ge; done. }
  unfold ossl_ml_dsa_poly_decode_expand_mask. rewrite E. cbn [mbind option_bind].
  rewrite <- (app_nil_r inp) in Hrep. pose proof (decodes pkt inp [] Hrep Hok Hl) as Hd. cbv zeta in Hd.
  pose proof (to_digits_ok (gamma1_bits gamma1) 256 (le_val inp) Hb) as Hdg. fold (bit_unpack (gamma1_bits gamma1) 256 inp) in Hdg.
  assert (zlen (bit_unpack (gamma1_bits gamma1) 256 inp) = 256) as Hn by (unfold zlen, bit_unpack; by rewrite to_digits_length).
  revert Hd Hdg Hn. generalize (bit_unpack (gamma1_bits gamma1) 256 inp) as ds. intros ds Hd Hdg Hn.
  replace (forallb _ ds) with true in Hd.
  - destruct Hd as (pkt' & -> & _). cbn [mbind option_bind]. eexists. split; [done|]. rewrite zlen_fmap.
    split_and!; [done| |done]. apply Forall_fmap. eapply Forall_impl; [exact Hdg|]. intros x Hx. cbn.
    apply z_coeff_digit. rewrite gamma1_digits by done. split; [|done].
    by apply (coeff_sub_ok gamma1 x gamma1_coeff), digit_coeff.
  - symmetry. apply forallb_forall. intros x Hx%list_elem_of_In. rewrite Forall_forall in Hdg.
    specialize (Hdg x Hx). unfold is_digit, z_lim in *. lia.
Qed.
End Gamma1.

(** ** Signatures *)

Definition sig_ok (params : ML_DSA_PARAMS) (sig : ML_DSA_SIG) : Prop :=
  zlen (sig_c_tilde sig) = dp_bit_strength params / 4 /\ bytes_ok (sig_c_tilde sig) /\
  zlen (sig_z sig) = dp_l params /\ Forall (fun p => zlen p = 256 /\ Forall (z_coeff_ok (dp_gamma1 params)) p) (sig_z sig) /\
  zlen (sig_hint sig) = dp_k params /\ hint_ok (dp_omega params) (sig_hint sig).
(** The lengths of a signature object, its contents not yet used. *)
Definition sig_shape (params : ML_DSA_PARAMS) (sig : ML_DSA_SIG) : Prop :=
  zlen (sig_c_tilde sig) = dp_bit_strength params / 4 /\ zlen (sig_z sig) = dp_l params /\
  zlen (sig_hint sig) = dp_k params.

(** Algorithm 26 of FIPS 204. *)
Definition sig_encoding (params : ML_DSA_PARAMS) (sig : ML_DSA_SIG) : list Z :=
  sig_c_tilde sig ++ z_encoding (dp_gamma1 params) (sig_z sig) ++ hint_encoding (dp_omega params) (sig_hint sig).

Lemma sig_ok_z_codable params sig :
  mparams_ok params -> sig_ok params sig ->
  Forall (codable (mod_sub (dp_gamma1 params)) (gamma1_bits (dp_gamma1 params)) (z_lim (dp_gamma1 params))) (sig_z sig).
Proof.
  intros (_ & Hg & _) (_ & _ & _ & Hz & _). eapply Forall_impl; [exact Hz|]. intros p Hp. by apply z_codable.
Qed.

Lemma sig_encoding_length params sig :
  mparams_ok params -> sig_ok params sig -> zlen (sig_encoding params sig) = dp_sig_len params.
Proof.
  intros Hp Hs. pose proof (sig_ok_z_codable _ _ Hp Hs) as Hz%codable_length.
  destruct Hp as (_ & Hg & _ & _ & _ & _ & _ & _ & _ & _ & _ & ->). destruct Hs as (Hc & _ & Hl & _ & Hk & Hh).
  destruct (gamma1_pow _ Hg) as (_ & _ & Hb).
  unfold sig_encoding, z_encoding. rewrite !zlen_app, Hc, vec_encoding_length, hint_encoding_length by done. lia.
Qed.
Lemma sig_encoding_ok params sig : mparams_ok params -> sig_ok params sig -> bytes_ok (sig_encoding params sig).
Proof.
  intros Hp (_ & Hc & _ & _ & _ & Hh). unfold bytes_ok, sig_encoding. rewrite !Forall_app.
  split_and!; [done|apply vec_encoding_ok|]. apply hint_encoding_ok; [done|].
  destruct Hp as (_ & _ & _ & _ & _ & _ & _ & ? & _). lia.
Qed.

Lemma sig_encode_ok `{AL : Allocator} params sig out :
  (forall n s, malloc_ok n s = true) -> mparams_ok params -> sig_ok params sig -> dp_sig_len params <= zlen out ->
  ossl_ml_dsa_sig_encode sig params (Some out) = Some (splice out 0 (sig_encoding params sig)).
Proof.
  intros Hal Hp Hs Hout. pose proof (sig_encoding_length _ _ Hp Hs) as Hlen.
  pose proof (sig_ok_z_codable _ _ Hp Hs) as Hz.
  pose proof Hp as (_ & Hg & _ & _ & _ & Hk & Hl & Hom & _ & _ & _ & Hsl).
  pose proof Hs as (Hc & Hcok & Hzl & _ & Hhl & Hh). destruct (gamma1_pow _ Hg) as (_ & _ & Hb).
  unfold sig_encoding, z_encoding in Hlen. rewrite !zlen_app, vec_encoding_length, hint_encoding_length in Hlen
    by (done || by eapply codable_length).
  pose proof (zlen_nonneg (sig_c_tilde sig)).
  assert (zlen (slice out 0 (dp_sig_len params)) = dp_sig_len params) as Hsl' by (pose proof (mparams_lens _ Hp); apply slice_length; lia).
  destruct (out_init (slice out 0 (dp_sig_len params)) uninit_wpacket Hal) as (w0 & E0 & Ho0).
  { rewrite Hsl'. pose proof (mparams_lens _ Hp). unfold SIZE_MAX. lia. }
  rewrite Hsl' in Ho0.
  destruct (out_memcpy w0 [] _ (sig_c_tilde sig) Ho0) as (w1 & E1 & Ho1); [rewrite zlen_nil; nia|].
  assert (Encodes (z_encode_fn params) (mod_sub (dp_gamma1 params)) (gamma1_bits (dp_gamma1 params))) as Hez
    by (exact (z_encodes _ Hg)).
  pose proof (encode_polys_out (mod_sub (dp_gamma1 params)) _ Hb (z_encode_fn params) (sig_z sig) w1 ([] ++ sig_c_tilde sig) (dp_sig_len params)) as H2.
  edestruct H2 as (w2 & E2 & Ho2); [|exact Ho1| |]; clear H2.
  { eapply Forall_impl; [exact Hz|]. intros p [Hp1 Hp2]. split; [done|]. apply Forall_fmap.
    eapply Forall_impl; [exact Hp2|]. by intros c [? _]. }
  { cbn [app]. lia. }
  destruct (hint_encode_out (dp_omega params) (sig_hint sig) w2 _ _ Hh ltac:(lia) Ho2) as (w3 & E3 & Ho3).
  { rewrite !zlen_app, vec_encoding_length by (done || by eapply codable_length). rewrite zlen_nil. lia. }
  destruct (out_finish_buf _ _ _ Ho3) as (w4 & b & E4 & Hg4 & Hb4).
  unfold ossl_ml_dsa_sig_encode. cbn [mbind option_bind].
  erewrite w_run_done; [|unfold wbind; rewrite E0, E1; unfold wbind; rewrite E2; exact E3]. cbn [mbind option_bind].
  unfold finish_buf. rewrite E4, Hg4. cbn [mbind option_bind]. do 2 f_equal.
  replace (dp_sig_len params) with (zlen (sig_encoding params sig)) by (by apply sig_encoding_length).
  by rewrite <- !app_assoc in Hb4.
Qed.

Lemma sig_decode_encoding params sig0 sig :
  mparams_ok params -> sig_ok params sig -> sig_shape params sig0 ->
  ossl_ml_dsa_sig_decode sig0 (sig_encoding params sig) params = Some sig.
Proof.
  intros Hp Hs (H01 & H02 & H03). pose proof (sig_ok_z_codable _ _ Hp Hs) as Hz.
  pose proof (sig_encoding_length _ _ Hp Hs) as Hlen. pose proof (mparams_lens _ Hp).
  pose proof Hp as (_ & Hg & _). destruct Hs as (Hc & _ & Hl & _ & Hk & Hh). destruct (gamma1_pow _ Hg) as (_ & _ & Hb).
  unfold ossl_ml_dsa_sig_decode.
  destruct (pkt_buf_init_rep (sig_encoding params sig) 0 (zlen (sig_encoding params sig)) (sig_encoding params sig))
    as (pkt & -> & Hrep); [lia|lia|rewrite Hlen; unfold SIZE_MAX; dlia| |].
  { unfold slice. change (Z.to_nat 0) with 0%nat. rewrite drop_0, zlen_to_nat, take_ge; done. }
  cbn [mbind option_bind]. unfold sig_encoding in Hrep.
  destruct (PACKET_get_bytes_app _ _ _ (zlen (sig_c_tilde sig0)) Hrep ltac:(lia)) as (pkt1 & E1 & Hrep1).
  change (PACKET_copy_bytes pkt) with (PACKET_get_bytes pkt). rewrite E1. cbn [mbind option_bind].
  pose proof (z_decodes _ Hg) as Hdz.
  destruct (decode_polys_app _ _ (z_lim (dp_gamma1 params)) Hb (z_decode_fn (dp_gamma1 params)) (sig_z sig) pkt1 _ Hz Hrep1)
    as (pkt2 & E2 & Hrep2).
  replace (length (sig_z sig0)) with (length (sig_z sig)) by (unfold zlen in *; lia). rewrite E2. cbn [mbind option_bind].
  rewrite <- (app_nil_r (hint_encoding _ _)) in Hrep2.
  destruct (hint_decode_encoding _ _ (sig_hint sig0) _ _ Hh ltac:(lia) Hrep2) as (pkt3 & -> & Hrep3). cbn [mbind option_bind].
  rewrite (pkt_rep_remaining _ _ Hrep3). by destruct sig.
Qed.

Lemma sig_decode_inv params sig0 inp sig :
  mparams_ok params -> sig_shape params sig0 -> bytes_ok inp -> zlen inp <= SIZE_MAX / 2 ->
  ossl_ml_dsa_sig_decode sig0 inp params = Some sig ->
  sig_ok params sig /\ inp = sig_encoding params sig.
Proof.
  intros Hp (H01 & H02 & H03) Hok Hmax. pose proof Hp as (_ & Hg & _ & _ & _ & _ & _ & Hom & _).
  destruct (gamma1_pow _ Hg) as (_ & _ & Hb). unfold ossl_ml_dsa_sig_decode. pose proof (zlen_nonneg inp).
  destruct (pkt_buf_init_rep inp 0 (zlen inp) inp) as (pkt & -> & Hrep); [lia..| |].
  { unfold slice. change (Z.to_nat 0) with 0%nat. rewrite drop_0, zlen_to_nat, take_ge; done. }
  cbn [mbind option_bind]. change (PACKET_copy_bytes pkt) with (PACKET_get_bytes pkt).
  destruct (Z.lt_ge_cases (zlen inp) (zlen (sig_c_tilde sig0))) as [Hs|Hs]; [by rewrite (PACKET_get_bytes_short _ _ _ Hrep Hs)|].
  rewrite <- (take_drop (length (sig_c_tilde sig0)) inp) in Hrep.
  set (c := take _ inp) in *. set (l1 := drop _ inp) in *.
  assert (zlen c = zlen (sig_c_tilde sig0)) as Hc by (unfold c, zlen in *; rewrite length_take; lia).
  destruct (PACKET_get_bytes_app _ _ _ _ Hrep Hc) as (pkt1 & -> & Hrep1). cbn [mbind option_bind].
  pose proof (z_decodes _ Hg) as Hdz.
  destruct (decode_polys _ _ pkt1) as [[z pkt2]|] eqn:Ez; [|done]. cbn [mbind option_bind].
  assert (bytes_ok l1) as Hok1 by (by apply Forall_drop).
  destruct (decode_polys_inv _ _ (z_lim (dp_gamma1 params)) Hb (z_decode_fn (dp_gamma1 params)) _ _ _ _ _
    (gamma1_digits _ Hg) Hok1 Hrep1 Ez) as (l2 & El2 & Hz & Hzl & Hrep2).
  destruct (hint_bits_decode _ _ _) as [[h pkt3]|] eqn:Eh; [|done]. cbn [mbind option_bind].
  assert (bytes_ok l2) as Hok2 by (rewrite El2 in Hok1; by apply Forall_app in Hok1 as [_ ?]).
  destruct (hint_decode_inv (dp_omega params) _ _ _ _ _ ltac:(lia) Hok2 Hrep2 Eh) as (l3 & El3 & Hh & Hhl & Hrep3).
  rewrite (pkt_rep_remaining _ _ Hrep3). destruct (Z.eqb_spec (zlen l3) 0) as [E3|]; [|done]. cbn [negb].
  intros [= <-]. apply zlen_zero_nil in E3 as ->. rewrite app_nil_r in El3. split.
  - unfold sig_ok. cbn [sig_c_tilde sig_z sig_hint]. split_and!; [lia|by apply Forall_take|unfold zlen in *; lia| |lia|done].
    eapply Forall_impl; [exact Hz|]. intros p Hpc. by apply z_codable in Hpc.
  - unfold sig_encoding, z_encoding. cbn [sig_c_tilde sig_z sig_hint]. rewrite <- El3, <- El2. unfold c, l1. by rewrite take_drop.
Qed.

(** ** The commitment *)

Section W1.
Context `{AL : Allocator} (gamma2 : Z) (Hg : gamma2_ok gamma2).

Definition w1_encoding (w1 : VECTOR) : list Z := vec_encoding id (w1_bits gamma2) w1.

Lemma w1_encode_ok w1 out :
  (forall n s, malloc_ok n s = true) ->
  Forall (fun p => zlen p = 256 /\ Forall (fun c => 0 <= c < 2 ^ w1_bits gamma2) p) w1 ->
  zlen out = 32 * w1_bits gamma2 * zlen w1 -> 0 < zlen w1 <= 8 ->
  ossl_ml_dsa_w1_encode w1 gamma2 out = (true, w1_encoding w1).
Proof.
  intros Hal Hw Hout Hn. assert (4 <= w1_bits gamma2 <= 6) as Hb by (destruct Hg as [-> | ->]; by vm_compute).
  destruct (out_init out uninit_wpacket Hal) as (w0 & E0 & Ho0); [unfold SIZE_MAX; nia|].
  set (e := if gamma2 =? ML_DSA_GAMMA2_Q_MINUS1_DIV32 then poly_encode_4_bits else poly_encode_6_bits).
  assert (Encodes e id (w1_bits gamma2)) as He.
  { unfold e. destruct Hg as [-> | ->]; [exact encodes_4_bits|exact encodes_6_bits]. }
  destruct (encode_polys_out id (w1_bits gamma2) ltac:(lia) e w1 w0 [] (zlen out)) as (w2 & E2 & Ho2); [|done|rewrite zlen_nil; lia|].
  { eapply Forall_impl; [exact Hw|]. intros p [? Hp]. split; [done|]. by rewrite list_fmap_id. }
  destruct (out_finish_buf _ _ _ Ho2) as (w4 & b & E4 & Hg4 & Hb4).
  unfold ossl_ml_dsa_w1_encode. rewrite E0. fold e. rewrite E2. unfold finish_buf. rewrite E4, Hg4.
  cbn [mbind option_bind default]. f_equal.
  rewrite Hout, <- (vec_encoding_length id (w1_bits gamma2)); [exact Hb4|lia|].
  eapply Forall_impl; [exact Hw|]. by intros p [? _].
Qed.
End W1.

(** ** The contract of the encoders *)

(** Signatures round-trip.  For a consistent parameter set, a signature whose
    fields have their lengths and ranges is encoded into the first [sig_len] bytes
    of the caller's buffer, and decoding these bytes gives it back. *)
Lemma ml_dsa_sig_roundtrip `{AL : Allocator} params sig sig0 out :
  (forall n s, malloc_ok n s = true) -> mparams_ok params -> sig_ok params sig -> sig_shape params sig0 ->
  zlen out = dp_sig_len params ->
  exists enc, ossl_ml_dsa_sig_encode sig params (Some out) = Some enc /\
    zlen enc = dp_sig_len params /\ bytes_ok enc /\ ossl_ml_dsa_sig_decode sig0 enc params = Some sig.
Proof.
  intros Hal Hp Hs H0 Hout. exists (sig_encoding params sig). pose proof (sig_encoding_length _ _ Hp Hs) as Hlen.
  rewrite sig_encode_ok by (done || lia). split_and!; [|done|by apply sig_encoding_ok|by apply sig_decode_encoding].
  f_equal. unfold splice. change (Z.to_nat 0) with 0%nat. rewrite take_0. cbn [app Nat.add].
  rewrite drop_ge, app_nil_r by (unfold zlen in *; lia). done.
Qed.

(** A signature with one hint bit. *)
Definition sample_sig : ML_DSA_SIG :=
  mkML_DSA_SIG (replicate 4 (replicate 256 8249346)) ((replicate 255 0 ++ [1]) :: replicate 3 poly_zero) (zeros 32).
Definition params_44 : ML_DSA_PARAMS :=
  mkML_DSA_PARAMS "ML-DSA-44" EVP_PKEY_ML_DSA_44 39 128
    ML_DSA_GAMMA1_TWO_POWER_17 ML_DSA_GAMMA2_Q_MINUS1_DIV88 4 4 ML_DSA_ETA_2 78 80 2 2560 1312 2420.
Lemma params_44_ok : mparams_ok params_44.
Proof. apply ml_dsa_params_ok. by left. Qed.
Lemma sample_sig_ok : sig_ok params_44 sample_sig.
Proof.
  unfold sig_ok. cbn [sig_z sig_hint sig_c_tilde sample_sig]. split_and!; [done| |done| |done|].
  - apply Forall_replicate. by compute.
  - apply Forall_replicate. split; [done|]. apply Forall_replicate. split; vm_compute; split; done.
  - split; [|vm_compute; discriminate]. constructor.
    + split; [done|]. apply Forall_app. split; [apply Forall_replicate; by left|]. constructor; [by right|constructor].
    + apply Forall_replicate. split; [done|]. apply Forall_replicate. by left.
Qed.
Lemma ml_dsa_sig_roundtrip_witness :
  exists enc, @ossl_ml_dsa_sig_encode always_alloc sample_sig params_44 (Some (zeros 2420)) = Some enc /\
    zlen enc = 2420 /\ bytes_ok enc /\ ossl_ml_dsa_sig_decode sample_sig enc params_44 = Some sample_sig.
Proof.
  apply (@ml_dsa_sig_roundtrip always_alloc params_44 sample_sig sample_sig (zeros 2420));
    [done|apply params_44_ok|apply sample_sig_ok|done|done].
Defined.

(** The encoding of a signature is unique.  A byte string the decoder accepts
    is the encoding of the signature it returns, which is in range: no padding, no
    order of hint positions and no trailing byte can be changed without the
    signature being refused or another one being read. *)
Lemma ml_dsa_sig_canonical `{AL : Allocator} params sig0 inp sig :
  (forall n s, malloc_ok n s = true) -> mparams_ok params -> sig_shape params sig0 ->
  bytes_ok inp -> zlen inp <= SIZE_MAX / 2 ->
  ossl_ml_dsa_sig_decode sig0 inp params = Some sig ->
  sig_ok params sig /\ zlen inp = dp_sig_len params /\ ossl_ml_dsa_sig_encode sig params (Some inp) = Some inp.
Proof.
  intros Hal Hp H0 Hok Hmax Hd. destruct (sig_decode_inv _ _ _ _ Hp H0 Hok Hmax Hd) as [Hs ->].
  pose proof (sig_encoding_length _ _ Hp Hs) as Hlen. split_and!; [done|done|].
  rewrite sig_encode_ok by (done || lia). f_equal. unfold splice. change (Z.to_nat 0) with 0%nat. rewrite take_0.
  cbn [app Nat.add]. by rewrite drop_ge, app_nil_r.
Qed.

Lemma ml_dsa_sig_canonical_witness :
  let inp := sig_encoding params_44 sample_sig in
  sig_ok params_44 sample_sig /\ zlen inp = 2420 /\
  @ossl_ml_dsa_sig_encode always_alloc sample_sig params_44 (Some inp) = Some inp.
Proof.
  apply (@ml_dsa_sig_canonical always_alloc params_44 sample_sig (sig_encoding params_44 sample_sig) sample_sig);
    [done|apply params_44_ok|done|apply sig_encoding_ok; [apply params_44_ok|apply sample_sig_ok]| |].
  - rewrite sig_encoding_length by (apply params_44_ok || apply sample_sig_ok). by compute.
  - apply sig_decode_encoding; [apply params_44_ok|apply sample_sig_ok|done].
Defined.
