(* ===== verification/MlDsaSample.v ===== *)
(** * ML-DSA: sampling from an extendable-output function

    Model of [crypto/ml_dsa/ml_dsa_hash.h], [crypto/ml_dsa/ml_dsa_sample.c] and of
    [vector_expand_mask] of [ml_dsa_vector.h].  The digest context is a parameter
    of the model (class [Xof]): it is initialised, fed and squeezed, and the laws
    ask only that these calls succeed and return bytes.  The rejection loops run
    until the stream has given enough values, so their model takes [fuel], the
    number of blocks squeezed after the first; running out of it is the result
    [Spin], distinct from the error return [Err].  Each loop is shown to return
    the first values of the stream that are in range, as soon as there are
    enough of them. *)
From S2P Require Import Prelude.
From S2P Require Import ByteOrder.
From S2P Require Import ZSum.
From S2P Require Import Result.
From S2P Require Import NttPass.
From S2P Require Import ModCong.
From S2P Require Import MlDsaField.
From S2P Require Import MlDsaRound.
From S2P Require Import MlDsaNtt.
From S2P Require Import MlDsaPoly.
From S2P Require Import MlDsaParams.
From S2P Require Import MlDsaSig.

(** ** The digest context *)

Inductive XOF_MD := SHAKE128 | SHAKE256.

Class Xof := {
  EVP_MD_CTX : Type;
  EVP_MD_CTX_new : option EVP_MD_CTX;
  (** resets the context for [md] *)
  EVP_DigestInit_ex2 : XOF_MD -> option EVP_MD_CTX;
  EVP_DigestUpdate : EVP_MD_CTX -> list Z -> option EVP_MD_CTX;
  EVP_DigestSqueeze : EVP_MD_CTX -> Z -> option (list Z * EVP_MD_CTX) }.

Class XofLaws `{Xof} : Prop := {
  ctx_new_ok : is_Some EVP_MD_CTX_new;
  init_ok md : is_Some (EVP_DigestInit_ex2 md);
  update_ok c m : is_Some (EVP_DigestUpdate c m);
  (** an update with no data changes nothing *)
  update_nil c : EVP_DigestUpdate c [] = Some c;
  squeeze_ok c n : 0 < n -> exists b c', EVP_DigestSqueeze c n = Some (b, c') /\ zlen b = n /\ bytes_ok b }.

Definition SHAKE128_BLOCKSIZE : Z := (1600 - 128 * 2) / 8.
Definition SHAKE256_BLOCKSIZE : Z := (1600 - 256 * 2) / 8.
Definition ML_DSA_RHO_BYTES : Z := 32.
Definition ML_DSA_PRIV_SEED_BYTES : Z := 64.
Definition ML_DSA_RHO_PRIME_BYTES : Z := 64.

Section Hash.
Context `{XF : Xof}.

Definition shake_xof (md : XOF_MD) (inp : list Z) (out_len : Z) : option (list Z * EVP_MD_CTX) :=
  ctx ← EVP_DigestInit_ex2 md;
  ctx ← EVP_DigestUpdate ctx inp;
  EVP_DigestSqueeze ctx out_len.
Definition shake_xof_2 (md : XOF_MD) (in1 in2 : list Z) (out_len : Z) : option (list Z * EVP_MD_CTX) :=
  ctx ← EVP_DigestInit_ex2 md;
  ctx ← EVP_DigestUpdate ctx in1;
  ctx ← EVP_DigestUpdate ctx in2;
  EVP_DigestSqueeze ctx out_len.
Definition shake_xof_3 (md : XOF_MD) (in1 in2 in3 : list Z) (out_len : Z) : option (list Z * EVP_MD_CTX) :=
  ctx ← EVP_DigestInit_ex2 md;
  ctx ← EVP_DigestUpdate ctx in1;
  ctx ← EVP_DigestUpdate ctx in2;
  ctx ← EVP_DigestUpdate ctx in3;
  EVP_DigestSqueeze ctx out_len.
End Hash.

(** ** Candidates *)

Definition MOD5 (n : Z) : Z := u32 (n - u32 (5 * Z.shiftr (u32 (0x3335 * n)) 16)).

(** The value stored in [*out], and whether it is accepted. *)
Definition coeff_from_three_bytes (s0 s1 s2 : Z) : Z * bool :=
  let out := Z.lor (Z.lor s0 (u32 (Z.shiftl s1 8))) (u32 (Z.shiftl (Z.land s2 0x7f) 16)) in
  (out, out <? ML_DSA_Q).
(** [None]: 0 is returned and nothing stored. *)
Definition coeff_from_nibble_4 (nibble : Z) : option Z :=
  if nibble <? 9 then Some (mod_sub 4 nibble) else None.
Definition coeff_from_nibble_2 (nibble : Z) : option Z :=
  if nibble <? 15 then Some (mod_sub 2 (MOD5 nibble)) else None.

(** The body of the loop over a block: [try] stores its candidate in
    [out->coeff[j]]; [inr] is the [return 1] when the polynomial is full. *)
Section Scan.
Context {A : Type} (try : A -> Z -> POLY -> POLY * bool).

Fixpoint rej_scan (items : list A) (j : Z) (out : POLY) : Z * POLY + POLY :=
  match items with
  | [] => inl (j, out)
  | a :: items' =>
    let '(out, ok) := try a j out in
    if ok then
      let j := j + 1 in
      if ML_DSA_NUM_POLY_COEFFICIENTS <=? j then inr out else rej_scan items' j out
    else rej_scan items' j out
  end.
End Scan.

(** [b = blocks; b < end; b += 3] *)
Fixpoint triples (bs : list Z) : list (Z * Z * Z) :=
  match bs with s0 :: s1 :: s2 :: bs' => (s0, s1, s2) :: triples bs' | _ => [] end.
(** The low and the high nibble of every byte. *)
Definition nibbles (bs : list Z) : list Z := bs ≫= (fun b => [Z.land b 0x0F; Z.shiftr b 4]).

Definition try_three_bytes (s : Z * Z * Z) (j : Z) (out : POLY) : POLY * bool :=
  let '(s0, s1, s2) := s in
  let '(v, ok) := coeff_from_three_bytes s0 s1 s2 in (set_coeff out j v, ok).
Definition try_nibble (coef_from_nibble : Z -> option Z) (z : Z) (j : Z) (out : POLY) : POLY * bool :=
  match coef_from_nibble z with Some v => (set_coeff out j v, true) | None => (out, false) end.

Section Sample.
Context `{XF : Xof} `{FU : Fuel}.

(** [while (1) { for (...) ...; if (!EVP_DigestSqueeze(...)) return 0; }] *)
Fixpoint rej_loop {A} (try : A -> Z -> POLY -> POLY * bool) (split : list Z -> list A) (blocksize : Z)
    (fuel : nat) (ctx : EVP_MD_CTX) (blocks : list Z) (j : Z) (out : POLY) : res POLY :=
  match rej_scan try (split blocks) j out with
  | inr out => Ret out
  | inl (j, out) =>
    match fuel with
    | O => Spin
    | S fuel' =>
      '(blocks, ctx) ← of_option (EVP_DigestSqueeze ctx blocksize);
      rej_loop try split blocksize fuel' ctx blocks j out
    end
  end.

Definition rej_ntt_poly (md : XOF_MD) (seed : list Z) (out : POLY) : res POLY :=
  '(blocks, ctx) ← of_option (shake_xof md seed SHAKE128_BLOCKSIZE);
  rej_loop try_three_bytes triples SHAKE128_BLOCKSIZE fuel ctx blocks 0 out.

Definition rej_bounded_poly (md : XOF_MD) (coef_from_nibble : Z -> option Z) (seed : list Z) (out : POLY) : res POLY :=
  '(blocks, ctx) ← of_option (shake_xof md seed SHAKE256_BLOCKSIZE);
  rej_loop (try_nibble coef_from_nibble) nibbles SHAKE256_BLOCKSIZE fuel ctx blocks 0 out.

Definition ossl_ml_dsa_matrix_expand_A (md : XOF_MD) (rho : list Z) (out : MATRIX) : res MATRIX :=
  '(_, polys) ← res_for (Z.to_nat (m_k out)) 0 (fun i st =>
     res_for (Z.to_nat (m_l out)) 0 (fun j '(poly, polys) =>
       let derived_seed := slice rho 0 ML_DSA_RHO_BYTES ++ [u8 j; u8 i] in
       p ← rej_ntt_poly md derived_seed (vget polys poly);
       Ret (poly + 1, vset polys poly p)) st) (0, m_poly out);
  Ret (mkMATRIX polys (m_k out) (m_l out)).

(** One of the two loops: the counter is the byte after the seed. *)
Definition expand_S_loop (md : XOF_MD) (fn : Z -> option Z) (seed : list Z) (v : VECTOR) (counter : Z) :
    res (Z * VECTOR) :=
  res_for (length v) 0 (fun i '(counter, v) =>
    p ← rej_bounded_poly md fn (slice seed 0 ML_DSA_PRIV_SEED_BYTES ++ [counter; 0]) (vget v i);
    Ret (u8 (counter + 1), vset v i p)) (counter, v).

Definition ossl_ml_dsa_vector_expand_S (md : XOF_MD) (eta : Z) (seed : list Z) (s1 s2 : VECTOR) :
    res (VECTOR * VECTOR) :=
  let fn := if eta =? ML_DSA_ETA_4 then coeff_from_nibble_4 else coeff_from_nibble_2 in
  '(counter, s1) ← expand_S_loop md fn seed s1 0;
  '(_, s2) ← expand_S_loop md fn seed s2 counter;
  Ret (s1, s2).

Definition ossl_ml_dsa_poly_expand_mask (seed : list Z) (gamma1 : Z) (md : XOF_MD) : option POLY :=
  let buf_len := 32 * (if gamma1 =? ML_DSA_GAMMA1_TWO_POWER_19 then 20 else 18) in
  '(buf, _) ← shake_xof md seed buf_len;
  ossl_ml_dsa_poly_decode_expand_mask buf gamma1.

(** The result of [poly_expand_mask] is ignored: a component that was not computed
    keeps what the vector held. *)
Definition vector_expand_mask (out : VECTOR) (rho_prime : list Z) (kappa gamma1 : Z) (md : XOF_MD) : VECTOR :=
  for_each (length out) 0 (fun i out =>
    let index := u64 (u32 kappa + i) in
    let derived_seed := slice rho_prime 0 ML_DSA_RHO_PRIME_BYTES ++ [Z.land index 0xFF; Z.land (Z.shiftr index 8) 0xFF] in
    match ossl_ml_dsa_poly_expand_mask derived_seed gamma1 md with
    | Some p => vset out i p
    | None => out
    end) out.

(** [for (;;)]: the next byte of the stream that is at most [end]. *)
Fixpoint ball_index (fuel : nat) (ctx : EVP_MD_CTX) (block : list Z) (offset end_ : Z) :
    res (Z * (EVP_MD_CTX * list Z * Z)) :=
  match fuel with
  | O => Spin
  | S fuel' =>
    '(block, ctx, offset) ←
      (if offset =? SHAKE256_BLOCKSIZE then
         '(block, ctx) ← of_option (EVP_DigestSqueeze ctx SHAKE256_BLOCKSIZE); Ret (block, ctx, 0)
       else Ret (block, ctx, offset));
    let index := byte_at block offset in
    if index <=? end_ then Ret (index, (ctx, block, offset + 1))
    else ball_index fuel' ctx block (offset + 1) end_
  end.

(** The swap of one round. *)
Definition ball_swap (out_c : POLY) (end_ index signs : Z) : POLY :=
  set_coeff (set_coeff out_c end_ (coeff out_c index)) index (mod_sub 1 (2 * Z.land signs 1)).

Definition ossl_ml_dsa_poly_sample_in_ball (seed : list Z) (md : XOF_MD) (tau : Z) : res POLY :=
  '(block, ctx) ← of_option (shake_xof md seed SHAKE256_BLOCKSIZE);
  let signs := OPENSSL_load_u64_le block 0 in
  '(_, _, out_c) ← res_for (Z.to_nat tau) (256 - tau) (fun end_ '(st, signs, out_c) =>
     let '(ctx, block, offset) := st in
     '(index, st) ← ball_index fuel ctx block offset end_;
     Ret (st, Z.shiftr signs 1, ball_swap out_c end_ index signs)) ((ctx, block, 8), signs, poly_zero);
  Ret out_c.

Definition poly_sample_in_ball_ntt (seed : list Z) (md : XOF_MD) (tau : Z) : res POLY :=
  p ← ossl_ml_dsa_poly_sample_in_ball seed md tau;
  Ret (poly_ntt p).
End Sample.

(** ** What is accepted *)

(** Algorithms 14 and 15 of FIPS 204; a negative number is stored modulo [q]. *)
Definition CoeffFromThreeBytes (s : Z * Z * Z) : option Z :=
  let '(s0, s1, s2) := s in
  let z := s0 + 256 * s1 + 65536 * (s2 mod 128) in if z <? ML_DSA_Q then Some z else None.
Definition CoeffFromHalfByte (eta b : Z) : option Z :=
  if (eta =? 2) && (b <? 15) then Some ((2 - b mod 5) mod ML_DSA_Q)
  else if (eta =? 4) && (b <? 9) then Some ((4 - b) mod ML_DSA_Q)
  else None.

(** [try] stores an accepted candidate in place [j] and keeps what is before it. *)
Definition tries {A} (try : A -> Z -> POLY -> POLY * bool) (acc : A -> option Z) (ok : A -> Prop) : Prop :=
  forall a j out, ok a -> 0 <= j < 256 -> zlen out = 256 ->
  match acc a with
  | Some v => try a j out = (set_coeff out j v, true)
  | None => exists out', try a j out = (out', false) /\ zlen out' = 256 /\ take (Z.to_nat j) out' = take (Z.to_nat j) out
  end.

Lemma take_set_coeff p j v n : Z.of_nat n <= j -> take n (set_coeff p j v) = take n p.
Proof. intros H. unfold set_coeff. apply take_insert_ge. lia. Qed.
Lemma take_set_coeff_S p j v :
  0 <= j < zlen p -> take (Z.to_nat (j + 1)) (set_coeff p j v) = take (Z.to_nat j) p ++ [v].
Proof.
  intros Hj. replace (Z.to_nat (j + 1)) with (S (Z.to_nat j)) by lia. unfold set_coeff, zlen in *.
  rewrite (take_S_r _ _ v) by (by rewrite list_lookup_insert_eq by lia). by rewrite take_insert_ge by lia.
Qed.

Lemma three_bytes_tries :
  tries try_three_bytes CoeffFromThreeBytes (fun '(s0, s1, s2) => is_byte s0 /\ is_byte s1 /\ is_byte s2).
Proof.
  intros [[s0 s1] s2] j out (H0 & H1 & H2) Hj Hl. unfold is_byte in *.
  assert (coeff_from_three_bytes s0 s1 s2 = (s0 + 256 * s1 + 65536 * (s2 mod 128),
    s0 + 256 * s1 + 65536 * (s2 mod 128) <? ML_DSA_Q)) as E.
  { unfold coeff_from_three_bytes. change 0x7f with (Z.ones 7). rewrite Z.land_ones by lia. change (2 ^ 7) with 128.
    rewrite !u32_small by (rewrite Z.shiftl_mul_pow2 by lia; dlia).
    rewrite (lor_shiftl_add s0), (lor_shiftl_add _ (s2 mod 128)) by (lia || dlia).
    change (2 ^ 8) with 256. change (2 ^ 16) with 65536. f_equal; [lia|f_equal; lia]. }
  unfold try_three_bytes, CoeffFromThreeBytes. rewrite E. destruct (_ <? _); [done|].
  eexists. split; [done|]. split; [by rewrite zlen_set_coeff|]. apply take_set_coeff. lia.
Qed.

Lemma nibble_tries eta fn :
  (eta = ML_DSA_ETA_2 /\ fn = coeff_from_nibble_2 \/ eta = ML_DSA_ETA_4 /\ fn = coeff_from_nibble_4) ->
  tries (try_nibble fn) (CoeffFromHalfByte eta) (fun z => 0 <= z < 16).
Proof.
  intros Hfn z j out Hz Hj Hl. unfold try_nibble.
  assert (fn z = CoeffFromHalfByte eta z) as ->.
  { assert (z ∈ seqZ 0 16) as Hin by (by apply elem_of_seqZ).
    destruct Hfn as [[-> ->] | [-> ->]]; revert Hin;
      (assert (forallb (fun z => bool_decide (coeff_from_nibble_2 z = CoeffFromHalfByte 2 z) &&
                                 bool_decide (coeff_from_nibble_4 z = CoeffFromHalfByte 4 z)) (seqZ 0 16) = true) as H
         by (vm_compute; reflexivity));
      intros Hin%list_elem_of_In; rewrite forallb_forall in H; specialize (H z Hin);
      apply andb_true_iff in H as [H1%bool_decide_eq_true H2%bool_decide_eq_true]; done. }
  destruct (CoeffFromHalfByte eta z); [done|]. by exists out.
Qed.

Section ScanSpec.
Context {A : Type} (try : A -> Z -> POLY -> POLY * bool) (acc : A -> option Z) (ok : A -> Prop).
Context (Htry : tries try acc ok).

Lemma rej_scan_spec items j out :
  Forall ok items -> 0 <= j < 256 -> zlen out = 256 ->
  let vs := omap acc items in
  match rej_scan try items j out with
  | inr p => 256 <= j + zlen vs /\ p = take (Z.to_nat j) out ++ take (Z.to_nat (256 - j)) vs
  | inl (j', p) => j' = j + zlen vs /\ j' < 256 /\ zlen p = 256 /\ take (Z.to_nat j') p = take (Z.to_nat j) out ++ vs
  end.
Proof.
  intros Hok. revert j out. induction Hok as [|a items Ha _ IH]; intros j out Hj Hl; cbv zeta; cbn [rej_scan omap list_omap].
  - rewrite app_nil_r. split_and!; [unfold zlen; simpl|..]; done || lia.
  - pose proof (Htry a j out Ha Hj Hl) as Ht. destruct (acc a) as [v|].
    + rewrite Ht. change ML_DSA_NUM_POLY_COEFFICIENTS with 256. rewrite zlen_cons.
      assert (take (Z.to_nat (j + 1)) (set_coeff out j v) = take (Z.to_nat j) out ++ [v]) as Et
        by (apply take_set_coeff_S; lia).
      destruct (Z.leb_spec 256 (j + 1)).
      * pose proof (zlen_nonneg (omap acc items)). split; [lia|].
        replace (256 - j) with 1 by lia. change (Z.to_nat 1) with 1%nat. cbn [take]. rewrite take_0, <- Et.
        symmetry. apply take_ge. pose proof (zlen_set_coeff out j v). unfold zlen in *. lia.
      * specialize (IH (j + 1) (set_coeff out j v) ltac:(lia) ltac:(by rewrite zlen_set_coeff)). cbv zeta in IH.
        destruct (rej_scan _ _ _ _) as [[j' p]|p].
        -- destruct IH as (-> & H1 & H2 & H3). rewrite Et, <- app_assoc in H3. split_and!; [lia|lia|done|exact H3].
        -- destruct IH as (H1 & ->). rewrite Et, <- app_assoc. split; [lia|]. f_equal.
           replace (Z.to_nat (256 - j)) with (S (Z.to_nat (256 - (j + 1)))) by lia. done.
    + destruct Ht as (out' & -> & Hl' & Hp). specialize (IH j out' Hj Hl'). cbv zeta in IH. rewrite Hp in IH. exact IH.
Qed.
End ScanSpec.

(** ** The rejection loops *)

(** The next [n] blocks of the stream. *)
Fixpoint squeezed `{Xof} (n : nat) (blocksize : Z) (ctx : EVP_MD_CTX) : list Z :=
  match n with
  | O => []
  | S n' =>
    match EVP_DigestSqueeze ctx blocksize with
    | Some (b, ctx') => b ++ squeezed n' blocksize ctx'
    | None => []
    end
  end.

Section Loop.
Context `{XF : Xof} `{XL : !XofLaws}.
Context {A : Type} (try : A -> Z -> POLY -> POLY * bool) (acc : A -> option Z) (ok : A -> Prop).
Context (Htry : tries try acc ok) (split : list Z -> list A) (blocksize : Z) (Hbs : 0 < blocksize).
Context (Hsplit : forall b bs, zlen b = blocksize -> split (b ++ bs) = split b ++ split bs).
Context (Hok : forall bs, bytes_ok bs -> Forall ok (split bs)) (Hnil : split [] = []).

(** The loop returns the first values in range, when the blocks it may look at
    have enough of them, and keeps running when they have not. *)
Lemma rej_loop_spec n ctx blocks j out :
  0 <= j < 256 -> zlen out = 256 -> zlen blocks = blocksize -> bytes_ok blocks ->
  let vs := omap acc (split (blocks ++ squeezed n blocksize ctx)) in
  rej_loop try split blocksize n ctx blocks j out =
  if 256 <=? j + zlen vs then Ret (take (Z.to_nat j) out ++ take (Z.to_nat (256 - j)) vs) else Spin.
Proof.
  revert ctx blocks j out. induction n as [|n IH]; intros ctx blocks j out Hj Hl Hb Hbok; cbv zeta;
    cbn [rej_loop squeezed]; pose proof (rej_scan_spec try acc ok Htry (split blocks) j out (Hok _ Hbok) Hj Hl) as Hs;
    cbv zeta in Hs; rewrite Hsplit, omap_app, zlen_app by done.
  - rewrite Hnil. cbn [omap list_omap]. rewrite zlen_nil, Z.add_0_r, app_nil_r.
    destruct (rej_scan _ _ _ _) as [[j' p]|p].
    + destruct (Z.leb_spec 256 (j + zlen (omap acc (split blocks)))); [lia|done].
    + destruct Hs as [H1 ->]. destruct (Z.leb_spec 256 (j + zlen (omap acc (split blocks)))); [done|lia].
  - destruct (squeeze_ok ctx blocksize Hbs) as (b & ctx' & E & Hbl & Hbo). rewrite E.
    destruct (rej_scan _ _ _ _) as [[j' p]|p].
    + destruct Hs as (-> & H1 & H2 & H3). cbn [of_option mbind res_bind].
      pose proof (zlen_nonneg (omap acc (split blocks))). rewrite IH by (done || lia). cbv zeta.
      rewrite <- Z.add_assoc. destruct (_ <=? _); [|done]. f_equal. rewrite H3, <- app_assoc. f_equal.
      rewrite take_app. rewrite (take_ge (omap acc (split blocks))) by (unfold zlen in *; lia). do 2 f_equal.
      unfold zlen in *. lia.
    + destruct Hs as [H1 ->]. pose proof (zlen_nonneg (omap acc (split (b ++ squeezed n blocksize ctx')))).
      destruct (Z.leb_spec 256 (j + (zlen (omap acc (split blocks)) + zlen (omap acc (split (b ++ squeezed n blocksize ctx'))))));
        [|lia]. do 2 f_equal. by rewrite take_app_le by (unfold zlen in *; lia).
Qed.
End Loop.

Lemma triples_app b bs : (exists k, length b = 3 * k)%nat -> triples (b ++ bs) = triples b ++ triples bs.
Proof.
  intros [k Hk]. revert b Hk. induction k as [|k IH]; intros b Hk; [by destruct b|].
  destruct b as [|x [|y [|z b]]]; [cbn in Hk; lia..|]. cbn [triples app]. rewrite IH; [done|]. cbn [length] in Hk. lia.
Qed.
Lemma triples_ok bs :
  bytes_ok bs -> Forall (fun '(s0, s1, s2) => is_byte s0 /\ is_byte s1 /\ is_byte s2) (triples bs).
Proof.
  remember (length bs) as n eqn:Hn. revert bs Hn. induction n as [n IH] using lt_wf_ind. intros bs -> Hbs.
  destruct bs as [|x [|y [|z bs]]]; [constructor..|]. unfold bytes_ok in Hbs; rewrite !Forall_cons in Hbs. destruct Hbs as (? & ? & ? & Hbs).
  cbn [triples]. constructor; [done|]. apply (IH (length bs)); [simpl; lia|done|done].
Qed.
Lemma nibbles_app b bs : nibbles (b ++ bs) = nibbles b ++ nibbles bs.
Proof. apply bind_app. Qed.
Lemma nibbles_ok bs : bytes_ok bs -> Forall (fun z => 0 <= z < 16) (nibbles bs).
Proof.
  unfold nibbles. induction 1 as [|b bs Hb _ IH]; [constructor|]. cbn [mbind list_bind app]. unfold is_byte in Hb.
  constructor; [|constructor; [|exact IH]].
  - change 0x0F with (Z.ones 4). rewrite Z.land_ones by lia. apply Z.mod_pos_bound. lia.
  - rewrite Z.shiftr_div_pow2 by lia. change (2 ^ 4) with 16. dlia.
Qed.

(** The first [n + 1] blocks of the stream of a seed. *)
Definition stream `{Xof} (md : XOF_MD) (seed : list Z) (blocksize : Z) (n : nat) : list Z :=
  match shake_xof md seed blocksize with
  | Some (b, ctx) => b ++ squeezed n blocksize ctx
  | None => []
  end.
(** The polynomial whose coefficients are the first 256 of [vs]. *)
Definition first_256 (vs : list Z) : res POLY := if 256 <=? zlen vs then Ret (take 256 vs) else Spin.

Section Poly.
Context `{XF : Xof} `{XL : !XofLaws} `{FU : Fuel}.

Lemma shake_xof_ok md inp n :
  0 < n -> exists b ctx, shake_xof md inp n = Some (b, ctx) /\ zlen b = n /\ bytes_ok b.
Proof.
  intros Hn. unfold shake_xof. destruct (init_ok md) as [c1 ->]. cbn [mbind option_bind].
  destruct (update_ok c1 inp) as [c2 ->]. cbn [mbind option_bind]. by apply squeeze_ok.
Qed.
Lemma shake_xof_2_ok md in1 in2 n :
  0 < n -> exists b ctx, shake_xof_2 md in1 in2 n = Some (b, ctx) /\ zlen b = n /\ bytes_ok b.
Proof.
  intros Hn. unfold shake_xof_2. destruct (init_ok md) as [c1 ->]. cbn [mbind option_bind].
  destruct (update_ok c1 in1) as [c2 ->]. cbn [mbind option_bind].
  destruct (update_ok c2 in2) as [c3 ->]. cbn [mbind option_bind]. by apply squeeze_ok.
Qed.
Lemma shake_xof_3_nil md in1 in2 n : shake_xof_3 md in1 in2 [] n = shake_xof_2 md in1 in2 n.
Proof.
  unfold shake_xof_3, shake_xof_2. destruct (EVP_DigestInit_ex2 md) as [c1|]; [|done]. cbn [mbind option_bind].
  destruct (EVP_DigestUpdate c1 in1) as [c2|]; [|done]. cbn [mbind option_bind].
  destruct (EVP_DigestUpdate c2 in2) as [c3|]; [|done]. cbn [mbind option_bind]. by rewrite update_nil.
Qed.
Lemma shake_xof_3_ok md in1 in2 in3 n :
  0 < n -> exists b ctx, shake_xof_3 md in1 in2 in3 n = Some (b, ctx) /\ zlen b = n /\ bytes_ok b.
Proof.
  intros Hn. unfold shake_xof_3. destruct (init_ok md) as [c1 ->]. cbn [mbind option_bind].
  destruct (update_ok c1 in1) as [c2 ->]. cbn [mbind option_bind].
  destruct (update_ok c2 in2) as [c3 ->]. cbn [mbind option_bind].
  destruct (update_ok c3 in3) as [c4 ->]. cbn [mbind option_bind]. by apply squeeze_ok.
Qed.

Lemma rej_ntt_poly_spec md seed out :
  zlen out = 256 ->
  rej_ntt_poly md seed out = first_256 (omap CoeffFromThreeBytes (triples (stream md seed SHAKE128_BLOCKSIZE fuel))).
Proof.
  intros Hl. unfold rej_ntt_poly, stream.
  destruct (shake_xof_ok md seed SHAKE128_BLOCKSIZE eq_refl) as (b & ctx & -> & Hb & Hok). cbn [of_option mbind res_bind].
  rewrite (rej_loop_spec _ _ _ three_bytes_tries triples SHAKE128_BLOCKSIZE eq_refl); [|..]; try done.
  - intros b' bs Hb'. apply triples_app. exists 56%nat. change SHAKE128_BLOCKSIZE with 168 in Hb'. unfold zlen in Hb'. lia.
  - apply triples_ok.
Qed.

Lemma rej_bounded_poly_spec md eta fn seed out :
  (eta = ML_DSA_ETA_2 /\ fn = coeff_from_nibble_2 \/ eta = ML_DSA_ETA_4 /\ fn = coeff_from_nibble_4) ->
  zlen out = 256 ->
  rej_bounded_poly md fn seed out = first_256 (omap (CoeffFromHalfByte eta) (nibbles (stream md seed SHAKE256_BLOCKSIZE fuel))).
Proof.
  intros Hfn Hl. unfold rej_bounded_poly, stream.
  destruct (shake_xof_ok md seed SHAKE256_BLOCKSIZE eq_refl) as (b & ctx & -> & Hb & Hok). cbn [of_option mbind res_bind].
  rewrite (rej_loop_spec _ _ _ (nibble_tries eta fn Hfn) nibbles SHAKE256_BLOCKSIZE eq_refl); [|..]; try done.
  - intros b' bs _. apply nibbles_app.
  - apply nibbles_ok.
Qed.
End Poly.

(** ** What is sampled is in range *)

Lemma first_256_inv (P : Z -> Prop) vs p : first_256 vs = Ret p -> Forall P vs -> zlen p = 256 /\ Forall P p.
Proof.
  unfold first_256. destruct (Z.leb_spec 256 (zlen vs)); [|done]. intros [= <-] Hv.
  split; [unfold zlen in *; rewrite length_take; lia|by apply Forall_take].
Qed.
Lemma omap_Forall {A} (acc : A -> option Z) (P : Z -> Prop) (ok : A -> Prop) l :
  (forall a v, ok a -> acc a = Some v -> P v) -> Forall ok l -> Forall P (omap acc l).
Proof.
  intros H. induction 1 as [|a l Ha _ IH]; [constructor|]. cbn [omap list_omap].
  destruct (acc a) as [v|] eqn:E; [|done]. constructor; [by eapply H|done].
Qed.

(** The coefficients of [s1] and [s2]. *)
Definition short (eta c : Z) : Prop := coeff_ok c /\ Z.abs (centered c) <= eta.

Lemma three_bytes_range s v :
  (let '(s0, s1, s2) := s in is_byte s0 /\ is_byte s1 /\ is_byte s2) -> CoeffFromThreeBytes s = Some v -> coeff_ok v.
Proof.
  destruct s as [[s0 s1] s2]. unfold is_byte, coeff_ok. intros (? & ? & ?). cbn [CoeffFromThreeBytes].
  destruct (Z.ltb_spec (s0 + 256 * s1 + 65536 * (s2 mod 128)) ML_DSA_Q); [|done]. intros [= <-].
  split; [dlia|done].
Qed.
Lemma half_byte_range eta z v :
  eta = ML_DSA_ETA_2 \/ eta = ML_DSA_ETA_4 -> 0 <= z < 16 -> CoeffFromHalfByte eta z = Some v -> short eta v.
Proof.
  intros He Hz. assert (forall a, - eta <= a <= eta -> short eta (a mod ML_DSA_Q)) as Ha.
  { intros a Ha. split; [apply coeff_mod|]. rewrite (centered_unique _ a); [lia|apply coeff_mod| |].
    - change ML_DSA_Q_MINUS1_DIV2 with 4190208. destruct He as [-> | ->]; unfold ML_DSA_ETA_2, ML_DSA_ETA_4 in Ha; lia.
    - symmetry. apply cong_mod. }
  unfold CoeffFromHalfByte. destruct He as [-> | ->].
  - change (ML_DSA_ETA_2 =? 2) with true. cbn [andb]. destruct (Z.ltb_spec z 15); [|done].
    intros [= <-]. apply Ha. unfold ML_DSA_ETA_2. dlia.
  - change (ML_DSA_ETA_4 =? 2) with false. change (ML_DSA_ETA_4 =? 4) with true. cbn [andb].
    destruct (Z.ltb_spec z 9); [|done]. intros [= <-]. apply Ha. unfold ML_DSA_ETA_4. lia.
Qed.

Lemma bytes_app_ok b bs : bytes_ok b -> bytes_ok bs -> bytes_ok (b ++ bs).
Proof. intros. by apply Forall_app. Qed.

Section Range.
Context `{XF : Xof} `{XL : !XofLaws} `{FU : Fuel}.

Lemma squeezed_ok n blocksize ctx : 0 < blocksize -> bytes_ok (squeezed n blocksize ctx).
Proof.
  intros Hb. revert ctx. induction n as [|n IH]; intros ctx; cbn [squeezed]; [constructor|].
  destruct (squeeze_ok ctx blocksize Hb) as (b & ctx' & -> & _ & Hok). by apply bytes_app_ok.
Qed.
Lemma stream_ok md seed blocksize n : 0 < blocksize -> bytes_ok (stream md seed blocksize n).
Proof.
  intros Hb. unfold stream. destruct (shake_xof_ok md seed blocksize Hb) as (b & ctx & -> & _ & Hok).
  apply bytes_app_ok; [done|by apply squeezed_ok].
Qed.

Lemma rej_ntt_poly_ok md seed out p : zlen out = 256 -> rej_ntt_poly md seed out = Ret p -> poly_ok p.
Proof.
  intros Hl Hr. rewrite rej_ntt_poly_spec in Hr by done. apply (first_256_inv coeff_ok _ _ Hr).
  eapply omap_Forall; [apply three_bytes_range|]. eapply Forall_impl; [apply triples_ok, stream_ok; done|].
  by intros [[? ?] ?].
Qed.
Lemma rej_bounded_poly_ok md eta fn seed out p :
  (eta = ML_DSA_ETA_2 /\ fn = coeff_from_nibble_2 \/ eta = ML_DSA_ETA_4 /\ fn = coeff_from_nibble_4) ->
  zlen out = 256 -> rej_bounded_poly md fn seed out = Ret p -> zlen p = 256 /\ Forall (short eta) p.
Proof.
  intros Hfn Hl Hr. rewrite (rej_bounded_poly_spec md eta fn) in Hr by done. apply (first_256_inv (short eta) _ _ Hr).
  eapply omap_Forall; [|apply nibbles_ok, stream_ok; done]. intros z v Hz Hv. cbv beta in Hz.
  apply (half_byte_range eta z); [|done|done]. destruct Hfn as [[-> _] | [-> _]]; auto.
Qed.

Lemma zlen_256_vset (v : VECTOR) i p :
  Forall (fun q => zlen q = 256) v -> zlen p = 256 -> Forall (fun q => zlen q = 256) (vset v i p).
Proof. intros Hv Hp. by apply Forall_insert. Qed.

Lemma vget_256 (v : VECTOR) i : Forall (fun q => zlen q = 256) v -> zlen (vget v i) = 256.
Proof.
  intros Hv. unfold vget. destruct (v !! Z.to_nat i) as [p|] eqn:E; [|done]. rewrite Forall_lookup in Hv. by apply (Hv _ _ E).
Qed.
Lemma poly_ok_256 (v : VECTOR) : Forall poly_ok v -> Forall (fun q => zlen q = 256) v.
Proof. intros H. eapply Forall_impl; [exact H|]. by intros p [? _]. Qed.

(** The matrix, from a matrix whose components are polynomials. *)
Lemma matrix_expand_A_ok md rho a a' k l :
  mat_ok k l a -> ossl_ml_dsa_matrix_expand_A md rho a = Ret a' -> mat_ok k l a'.
Proof.
  intros (Hk & Hl & Hk0 & Hl0 & Hv) (st & Hloop & Ha)%res_bind_Ret. destruct st as [n polys]. injection Ha as <-.
  split_and!; [done|done|done|done|]. cbn [m_poly].
  pose (P := fun (_ : Z) (st : Z * VECTOR) => vec_ok (k * l) st.2).
  refine (res_for_inv P _ _ _ _ _ _ _ Hloop); [exact Hv|]. clear Hloop. intros i t t' _ Ht Hin.
  refine (res_for_inv P _ _ _ _ _ _ _ Hin); [exact Ht|]. clear Ht Hin. intros j [m ps] t'' _ Hps (p & Hp & Ht')%res_bind_Ret.
  injection Ht' as <-. unfold P in *. cbn [snd] in *. destruct Hps as [H1 H2]. split; [by rewrite zlen_vset|].
  apply Forall_insert; [done|]. eapply rej_ntt_poly_ok; [|exact Hp]. by apply vget_256, poly_ok_256.
Qed.

Definition short_vec (n eta : Z) (v : VECTOR) : Prop :=
  zlen v = n /\ Forall (fun p => zlen p = 256 /\ Forall (short eta) p) v.
Lemma short_vec_ok n eta v : short_vec n eta v -> vec_ok n v.
Proof.
  intros [Hl Hv]. split; [done|]. eapply Forall_impl; [exact Hv|]. intros p [Hp Hs]. split; [done|].
  eapply Forall_impl; [exact Hs|]. by intros c [? _].
Qed.

Lemma expand_S_loop_ok md eta fn seed v c c' v' n :
  (eta = ML_DSA_ETA_2 /\ fn = coeff_from_nibble_2 \/ eta = ML_DSA_ETA_4 /\ fn = coeff_from_nibble_4) ->
  short_vec n eta v -> expand_S_loop md fn seed v c = Ret (c', v') -> short_vec n eta v'.
Proof.
  intros Hfn Hv Hloop. pose (P := fun (_ : Z) (st : Z * VECTOR) => short_vec n eta st.2).
  refine (res_for_inv P _ _ _ _ _ _ _ Hloop); [exact Hv|]. clear Hloop Hv.
  intros i [m t] t' _ [H1 H2] (p & Hp & Ht')%res_bind_Ret. injection Ht' as <-. unfold P in *. cbn [snd] in *.
  split; [by rewrite zlen_vset|]. apply Forall_insert; [done|]. eapply rej_bounded_poly_ok; [exact Hfn| |exact Hp].
  apply vget_256. eapply Forall_impl; [exact H2|]. by intros q [? _].
Qed.

Lemma vector_expand_S_ok md eta seed s1 s2 s1' s2' l k :
  eta = ML_DSA_ETA_2 \/ eta = ML_DSA_ETA_4 -> short_vec l eta s1 -> short_vec k eta s2 ->
  ossl_ml_dsa_vector_expand_S md eta seed s1 s2 = Ret (s1', s2') -> short_vec l eta s1' /\ short_vec k eta s2'.
Proof.
  intros He Hs1 Hs2 ([c1 v1] & H1 & ([c2 v2] & H2 & Hr)%res_bind_Ret)%res_bind_Ret. injection Hr as <- <-.
  split; eapply expand_S_loop_ok; try done; destruct He as [-> | ->]; auto.
Qed.

(** The mask, whatever the vector held. *)
Lemma vector_expand_mask_ok y rho_prime kappa gamma1 md :
  gamma1_ok gamma1 ->
  let y' := vector_expand_mask y rho_prime kappa gamma1 md in
  zlen y' = zlen y /\ Forall (fun p => zlen p = 256 /\ Forall (z_coeff_ok gamma1) p) y'.
Proof.
  intros Hg. cbv zeta.
  pose (P := fun (i : Z) (v : VECTOR) => zlen v = zlen y /\
    forall j, 0 <= j < i -> zlen (vget v j) = 256 /\ Forall (z_coeff_ok gamma1) (vget v j)).
  assert (P (0 + Z.of_nat (length y)) (vector_expand_mask y rho_prime kappa gamma1 md)) as [Hl Hj].
  { unfold vector_expand_mask. apply for_each_inv; [split; [done|lia]|]. intros i v Hi [Hvl Hv]. unfold ossl_ml_dsa_poly_expand_mask.
    set (n := 32 * _). assert (n = 32 * gamma1_bits gamma1) as Hn by done.
    destruct (shake_xof_ok md (slice rho_prime 0 ML_DSA_RHO_PRIME_BYTES ++
      [Z.land (u64 (u32 kappa + i)) 255; Z.land (Z.shiftr (u64 (u32 kappa + i)) 8) 255]) n) as (b & ctx & -> & Hb & Hok).
    { rewrite Hn. destruct Hg as [-> | ->]; by vm_compute. }
    cbn [mbind option_bind]. destruct (decode_expand_mask_ok gamma1 Hg b Hok) as (p & -> & Hp & Hz & _); [lia|].
    split; [by rewrite zlen_vset|]. intros j Hj. unfold zlen in Hvl. rewrite vget_set by (unfold zlen; lia).
    destruct (Z.eqb_spec j i); [done|]. apply Hv. lia. }
  split; [exact Hl|]. apply Forall_lookup. intros i p Hp. pose proof (lookup_lt_Some _ _ _ Hp) as Hlt.
  unfold zlen in Hl. specialize (Hj (Z.of_nat i) ltac:(lia)). unfold vget in Hj. rewrite Nat2Z.id, Hp in Hj. exact Hj.
Qed.
End Range.

(** ** The challenge *)

(** The coefficients of the challenge, and how many of them are not zero. *)
Definition ternary (c : Z) : Prop := c = 0 \/ c = 1 \/ c = ML_DSA_Q - 1.
Definition nonzeros (p : POLY) : Z := zsum (fun i => if coeff p i =? 0 then 0 else 1) 256.

Lemma ternary_ok c : ternary c -> coeff_ok c /\ Z.abs (centered c) = if c =? 0 then 0 else 1.
Proof. intros [-> | [-> | ->]]; by vm_compute. Qed.

Section Ball.
Context (tau : Z).

(** Before the round for [end_]. *)
Definition ball_inv (end_ : Z) (p : POLY) : Prop :=
  zlen p = 256 /\ (forall i, 0 <= i < 256 -> ternary (coeff p i)) /\
  (forall i, end_ <= i < 256 -> coeff p i = 0) /\ nonzeros p = end_ - (256 - tau).

Lemma nonzeros_set p i v :
  zlen p = 256 -> 0 <= i < 256 ->
  nonzeros (set_coeff p i v) = nonzeros p + ((if v =? 0 then 0 else 1) - (if coeff p i =? 0 then 0 else 1)).
Proof.
  intros Hl Hi. unfold nonzeros.
  rewrite (zsum_update (fun j => if coeff p j =? 0 then 0 else 1) (fun j => if coeff (set_coeff p i v) j =? 0 then 0 else 1) 256 i).
  - rewrite coeff_set by lia. by rewrite Z.eqb_refl.
  - exact Hi.
  - intros j [Hj _] Hne. rewrite coeff_set by lia. by destruct (Z.eqb_spec j i).
Qed.

Lemma sign_ternary signs : let v := mod_sub 1 (2 * Z.land signs 1) in ternary v /\ v <> 0.
Proof.
  cbv zeta. assert (Z.land signs 1 = signs mod 2) as -> by (apply (Z.land_ones signs 1); lia).
  assert (signs mod 2 = 0 \/ signs mod 2 = 1) as [-> | ->] by dlia;
    (split; [|by vm_compute]); [right; left|right; right]; by vm_compute.
Qed.

Lemma ball_swap_inv p end_ index signs :
  0 <= index <= end_ -> end_ < 256 -> ball_inv end_ p -> ball_inv (end_ + 1) (ball_swap p end_ index signs).
Proof.
  intros Hi He (Hl & Ht & Hz & Hn). destruct (sign_ternary signs) as [Hv Hv0]. unfold ball_swap.
  set (v := mod_sub 1 _) in *. set (p1 := set_coeff p end_ (coeff p index)).
  assert (zlen p1 = 256) as Hl1 by (unfold p1; by rewrite zlen_set_coeff).
  assert (forall i, 0 <= i -> coeff p1 i = if i =? end_ then coeff p index else coeff p i) as Hc1
    by (intros; unfold p1; apply coeff_set; lia).
  assert (coeff p1 index = coeff p index) as Hci by (rewrite Hc1 by lia; by destruct (_ =? _)).
  split_and!.
  - by rewrite zlen_set_coeff.
  - intros i Hi'. rewrite coeff_set, Hc1 by lia. destruct (i =? index); [done|]. destruct (i =? end_); apply Ht; lia.
  - intros i Hi'. rewrite coeff_set, Hc1 by lia. destruct (Z.eqb_spec i index); [lia|]. destruct (Z.eqb_spec i end_); [lia|].
    apply Hz. lia.
  - rewrite nonzeros_set, Hci by lia. unfold p1. rewrite nonzeros_set by lia. rewrite (Hz end_) by lia. rewrite Hn.
    destruct (Z.eqb_spec v 0); [done|]. clear. change (0 =? 0) with true. cbv iota. lia.
Qed.
End Ball.

Section Challenge.
Context `{XF : Xof} `{XL : !XofLaws} `{FU : Fuel}.

Lemma ball_index_ok n ctx block offset end_ index st :
  bytes_ok block -> ball_index n ctx block offset end_ = Ret (index, st) ->
  0 <= index <= end_ /\ bytes_ok st.1.2.
Proof.
  revert ctx block offset. induction n as [|n IH]; intros ctx block offset Hok; cbn [ball_index]; [done|].
  intros ([[block' ctx'] offset'] & Hb & Hi)%res_bind_Ret.
  assert (bytes_ok block') as Hok'.
  { destruct (_ =? _); [|by injection Hb as <- <- <-].
    destruct (squeeze_ok ctx SHAKE256_BLOCKSIZE eq_refl) as (b & c & E & _ & Hbo). rewrite E in Hb.
    by injection Hb as <- <- <-. }
  destruct (Z.leb_spec (byte_at block' offset') end_); [|by eapply IH].
  injection Hi as <- <-. cbn. pose proof (byte_at_ok block' offset' Hok') as H0. unfold is_byte in H0. split; [lia|done].
Qed.

Lemma sample_in_ball_ok seed md tau c :
  0 <= tau <= 256 -> ossl_ml_dsa_poly_sample_in_ball seed md tau = Ret c -> ball_inv tau 256 c.
Proof.
  intros Ht. unfold ossl_ml_dsa_poly_sample_in_ball.
  destruct (shake_xof_ok md seed SHAKE256_BLOCKSIZE eq_refl) as (b & ctx & -> & Hb & Hok). cbn [of_option mbind res_bind].
  intros ([[[[ctx' b'] o'] signs'] c'] & Hloop & Hc)%res_bind_Ret. injection Hc as <-.
  pose (P := fun (end_ : Z) (st : EVP_MD_CTX * list Z * Z * Z * POLY) =>
    ball_inv tau end_ st.2 /\ bytes_ok st.1.1.1.2).
  assert (P (256 - tau + Z.of_nat (Z.to_nat tau)) (ctx', b', o', signs', c')) as [H _].
  { refine (res_for_inv P _ _ _ _ _ _ _ Hloop).
    - split; [|done]. cbn [snd]. split_and!; [done|intros; rewrite coeff_zero; by left|intros; by rewrite coeff_zero|].
      rewrite Z.sub_diag. unfold nonzeros. rewrite (zsum_ext _ (fun _ => 0)); [by rewrite zsum_0|].
      intros. by rewrite coeff_zero.
    - clear Hloop. intros end_ [[[[ctx0 b0] o] signs] p] t' He [Hp Hok0] ([index st] & Hi & Ht')%res_bind_Ret. injection Ht' as <-.
      cbn [fst snd] in *. destruct (ball_index_ok _ _ _ _ _ _ _ Hok0 Hi) as [Hr Hok']. split; [|done].
      cbn [snd]. apply ball_swap_inv; [done|lia|done]. }
  cbn [snd] in H. by replace (256 - tau + Z.of_nat (Z.to_nat tau)) with 256 in H by lia.
Qed.
End Challenge.

(** ** Theorems *)

(** The half bytes of a string in the order of Algorithm 31 of FIPS 204: [z mod 16], then [z / 16]. *)
Definition half_bytes (bs : list Z) : list Z := bs ≫= (fun z => [z mod 16; z / 16]).
Lemma nibbles_half_bytes bs : nibbles bs = half_bytes bs.
Proof.
  unfold nibbles, half_bytes. induction bs as [|b bs IH]; [done|]. cbn [mbind list_bind app]. rewrite IH, Z.shiftr_div_pow2 by lia.
  change 15 with (Z.ones 4). by rewrite Z.land_ones by lia.
Qed.

(** C30: rejection sampling returns exactly the first values of the stream in
    range.  With [n] the number of blocks allowed after the first, the polynomial
    of a matrix entry, and that of a secret vector, is made of the first 256
    values that Algorithms 14 and 15 of FIPS 204 accept among the first [n + 1]
    blocks, taken three bytes at a time, and a half byte at a time with the low half
    first; it is returned as soon as there are 256 of them. *)
Theorem ml_dsa_rejection_sampling `{XL : XofLaws} `{FU : Fuel} md seed out eta :
  zlen out = 256 -> eta = ML_DSA_ETA_2 \/ eta = ML_DSA_ETA_4 ->
  let fn := if eta =? ML_DSA_ETA_4 then coeff_from_nibble_4 else coeff_from_nibble_2 in
  rej_ntt_poly md seed out =
    first_256 (omap CoeffFromThreeBytes (triples (stream md seed SHAKE128_BLOCKSIZE fuel))) /\
  rej_bounded_poly md fn seed out =
    first_256 (omap (CoeffFromHalfByte eta) (half_bytes (stream md seed SHAKE256_BLOCKSIZE fuel))).
Proof.
  intros Hl He fn. split; [by apply rej_ntt_poly_spec|]. rewrite <- nibbles_half_bytes. apply rej_bounded_poly_spec; [|done].
  unfold fn. destruct He as [-> | ->]; auto.
Qed.

(** A context that counts. *)
Definition counter_xof : Xof := {|
  EVP_MD_CTX := Z; EVP_MD_CTX_new := Some 0; EVP_DigestInit_ex2 _ := Some 0;
  EVP_DigestUpdate c m := Some (c + le_val m);
  EVP_DigestSqueeze c n := Some ((fun i => (c + 77 * i * i) mod 256) <$> seqZ 0 n, c + 256 * n + 1) |}.
Lemma counter_xof_laws : @XofLaws counter_xof.
Proof.
  split; cbn.
  - by eexists.
  - by eexists.
  - by eexists.
  - intros c. f_equal. lia.
  - intros c n Hn. eexists _, _. split; [done|]. split.
    + rewrite zlen_fmap. unfold zlen. rewrite length_seqZ. lia.
    + apply Forall_fmap, Forall_forall. intros i _. cbn. unfold is_byte. apply Z.mod_pos_bound. lia.
Qed.
#[local] Instance fuel_20 : Fuel := 20%nat.

Lemma ml_dsa_rejection_sampling_witness :
  exists p, @rej_ntt_poly counter_xof fuel_20 SHAKE128 [1; 2] poly_zero = Ret p /\
    first_256 (omap CoeffFromThreeBytes (triples (@stream counter_xof SHAKE128 [1; 2] SHAKE128_BLOCKSIZE fuel))) = Ret p.
Proof.
  eexists. split; [vm_compute; reflexivity|].
  destruct (@ml_dsa_rejection_sampling counter_xof counter_xof_laws fuel_20 SHAKE128 [1; 2] poly_zero 2) as [<- _];
    [done|by left|]. vm_compute. reflexivity.
Defined.

(** The challenge polynomial has exactly [tau] coefficients that are [1] or
    [-1] and zeros elsewhere, for every seed. *)
Lemma ml_dsa_challenge_weight `{XL : XofLaws} `{FU : Fuel} seed md tau c :
  0 <= tau <= 256 -> ossl_ml_dsa_poly_sample_in_ball seed md tau = Ret c ->
  zlen c = 256 /\ Forall ternary c /\ nonzeros c = tau.
Proof.
  intros Ht Hc. destruct (sample_in_ball_ok _ _ _ _ Ht Hc) as (Hl & Hter & _ & Hn). split_and!; [done| |lia].
  apply coeff_Forall. intros i Hi. apply Hter. lia.
Qed.

Lemma ml_dsa_challenge_weight_witness :
  exists c, @ossl_ml_dsa_poly_sample_in_ball counter_xof 500%nat [5; 6; 7] SHAKE256 39 = Ret c /\ nonzeros c = 39.
Proof.
  eexists. split; [vm_compute; reflexivity|].
  apply (@ml_dsa_challenge_weight counter_xof counter_xof_laws 500%nat [5; 6; 7] SHAKE256 39); [lia|].
  vm_compute. reflexivity.
Defined.
