(* ===== verification/MlDsaKey.v ===== *)
(** * ML-DSA keys

    Model of [crypto/ml_dsa/ml_dsa_key.c] and of the key encoders and decoders of
    [crypto/ml_dsa/ml_dsa_encoders.c].  The operations that change a key run in
    the monad [KM], which keeps the key as the code leaves it when they fail. *)
From S2P Require Import Prelude.
From S2P Require Import ByteOrder.
From S2P Require Import Packet.
From S2P Require Import WPacket.
From S2P Require Import WPacketSpec.
From S2P Require Import WPacketOut.
From S2P Require Import KeyMgmt.
From S2P Require Import ZSum.
From S2P Require Import BitPack.
From S2P Require Import Result.
From S2P Require Import ModCong.
From S2P Require Import MlDsaField.
From S2P Require Import MlDsaRound.
From S2P Require Import MlDsaNtt.
From S2P Require Import MlDsaPoly.
From S2P Require Import MlDsaParams.
From S2P Require Import MlDsaPack.
From S2P Require Import MlDsaEncode.
From S2P Require Import MlDsaHint.
From S2P Require Import MlDsaSig.
From S2P Require Import MlDsaSample.
#[local] Close Scope wpacket_scope.

Definition ML_DSA_SEED_BYTES : Z := 32.
Definition ML_DSA_K_BYTES : Z := 32.
Definition ML_DSA_TR_BYTES : Z := 64.
Definition ML_DSA_KEY_PREFER_SEED : Z := 1.
Definition ML_DSA_KEY_RETAIN_SEED : Z := 2.
Definition ML_DSA_KEY_PROV_FLAGS_DEFAULT : Z := Z.lor ML_DSA_KEY_PREFER_SEED ML_DSA_KEY_RETAIN_SEED.

(** ** Data *)

(** [struct ml_dsa_key_st]; a NULL pointer is [None].  [s1], [s2] and [t0] are
    parts of one block, so they are NULL together. *)
Record ML_DSA_KEY := mkML_DSA_KEY {
  mk_params : ML_DSA_PARAMS; mk_shake128_md : option XOF_MD; mk_shake256_md : option XOF_MD;
  mk_rho : list Z; mk_tr : list Z; mk_K : list Z;
  mk_pub_encoding : option (list Z); mk_priv_encoding : option (list Z); mk_seed : option (list Z);
  mk_prov_flags : Z;
  mk_t1 : option VECTOR; mk_t0 : option VECTOR; mk_s2 : option VECTOR; mk_s1 : option VECTOR }.

(** A vector is empty as long as it is not allocated. *)
Definition vec (v : option VECTOR) : VECTOR := match v with Some v => v | None => [] end.
(** Allocated memory before its first use. *)
Definition uninit_vector (n : Z) : VECTOR := replicate (Z.to_nat n) poly_zero.
Definition uninit_matrix (k l : Z) : MATRIX := mkMATRIX (uninit_vector (k * l)) k l.

(** Field updates. *)
Definition set_rho (x : list Z) (k : ML_DSA_KEY) : ML_DSA_KEY :=
  mkML_DSA_KEY (mk_params k) (mk_shake128_md k) (mk_shake256_md k) x (mk_tr k) (mk_K k) (mk_pub_encoding k)
    (mk_priv_encoding k) (mk_seed k) (mk_prov_flags k) (mk_t1 k) (mk_t0 k) (mk_s2 k) (mk_s1 k).
Definition set_tr (x : list Z) (k : ML_DSA_KEY) : ML_DSA_KEY :=
  mkML_DSA_KEY (mk_params k) (mk_shake128_md k) (mk_shake256_md k) (mk_rho k) x (mk_K k) (mk_pub_encoding k)
    (mk_priv_encoding k) (mk_seed k) (mk_prov_flags k) (mk_t1 k) (mk_t0 k) (mk_s2 k) (mk_s1 k).
Definition set_K (x : list Z) (k : ML_DSA_KEY) : ML_DSA_KEY :=
  mkML_DSA_KEY (mk_params k) (mk_shake128_md k) (mk_shake256_md k) (mk_rho k) (mk_tr k) x (mk_pub_encoding k)
    (mk_priv_encoding k) (mk_seed k) (mk_prov_flags k) (mk_t1 k) (mk_t0 k) (mk_s2 k) (mk_s1 k).
Definition set_pub_encoding (x : option (list Z)) (k : ML_DSA_KEY) : ML_DSA_KEY :=
  mkML_DSA_KEY (mk_params k) (mk_shake128_md k) (mk_shake256_md k) (mk_rho k) (mk_tr k) (mk_K k) x
    (mk_priv_encoding k) (mk_seed k) (mk_prov_flags k) (mk_t1 k) (mk_t0 k) (mk_s2 k) (mk_s1 k).
Definition set_priv_encoding (x : option (list Z)) (k : ML_DSA_KEY) : ML_DSA_KEY :=
  mkML_DSA_KEY (mk_params k) (mk_shake128_md k) (mk_shake256_md k) (mk_rho k) (mk_tr k) (mk_K k) (mk_pub_encoding k)
    x (mk_seed k) (mk_prov_flags k) (mk_t1 k) (mk_t0 k) (mk_s2 k) (mk_s1 k).
Definition set_seed (x : option (list Z)) (k : ML_DSA_KEY) : ML_DSA_KEY :=
  mkML_DSA_KEY (mk_params k) (mk_shake128_md k) (mk_shake256_md k) (mk_rho k) (mk_tr k) (mk_K k) (mk_pub_encoding k)
    (mk_priv_encoding k) x (mk_prov_flags k) (mk_t1 k) (mk_t0 k) (mk_s2 k) (mk_s1 k).
Definition set_prov_flags (x : Z) (k : ML_DSA_KEY) : ML_DSA_KEY :=
  mkML_DSA_KEY (mk_params k) (mk_shake128_md k) (mk_shake256_md k) (mk_rho k) (mk_tr k) (mk_K k) (mk_pub_encoding k)
    (mk_priv_encoding k) (mk_seed k) x (mk_t1 k) (mk_t0 k) (mk_s2 k) (mk_s1 k).
Definition set_t1 (x : option VECTOR) (k : ML_DSA_KEY) : ML_DSA_KEY :=
  mkML_DSA_KEY (mk_params k) (mk_shake128_md k) (mk_shake256_md k) (mk_rho k) (mk_tr k) (mk_K k) (mk_pub_encoding k)
    (mk_priv_encoding k) (mk_seed k) (mk_prov_flags k) x (mk_t0 k) (mk_s2 k) (mk_s1 k).
Definition set_t0 (x : option VECTOR) (k : ML_DSA_KEY) : ML_DSA_KEY :=
  mkML_DSA_KEY (mk_params k) (mk_shake128_md k) (mk_shake256_md k) (mk_rho k) (mk_tr k) (mk_K k) (mk_pub_encoding k)
    (mk_priv_encoding k) (mk_seed k) (mk_prov_flags k) (mk_t1 k) x (mk_s2 k) (mk_s1 k).
Definition set_s2 (x : option VECTOR) (k : ML_DSA_KEY) : ML_DSA_KEY :=
  mkML_DSA_KEY (mk_params k) (mk_shake128_md k) (mk_shake256_md k) (mk_rho k) (mk_tr k) (mk_K k) (mk_pub_encoding k)
    (mk_priv_encoding k) (mk_seed k) (mk_prov_flags k) (mk_t1 k) (mk_t0 k) x (mk_s1 k).
Definition set_s1 (x : option VECTOR) (k : ML_DSA_KEY) : ML_DSA_KEY :=
  mkML_DSA_KEY (mk_params k) (mk_shake128_md k) (mk_shake256_md k) (mk_rho k) (mk_tr k) (mk_K k) (mk_pub_encoding k)
    (mk_priv_encoding k) (mk_seed k) (mk_prov_flags k) (mk_t1 k) (mk_t0 k) (mk_s2 k) x.
Definition set_secret (s1 s2 t0 : option VECTOR) (k : ML_DSA_KEY) : ML_DSA_KEY := set_s1 s1 (set_s2 s2 (set_t0 t0 k)).

(** ** Effects *)

(** The calls of the allocator on keys and signatures, by what they allocate. *)
Inductive site := KeyObject | T1Block | SecretBlock | ScratchT0 | ScratchPolys | PubEncoding | PrivEncoding | SeedCopy | MessageCopy.
(** Which of them succeed, and the library's other services. *)
Class KeyEnv := {
  alloc_at : site -> bool;
  EVP_MD_fetch_xof : XOF_MD -> option string -> bool;
  RAND_priv_seed : option (list Z) }.

Definition KM (A : Type) : Type := ML_DSA_KEY -> res A * ML_DSA_KEY.
#[export] Instance KM_ret : MRet KM := fun A a k => (Ret a, k).
#[export] Instance KM_bind : MBind KM := fun A B f m k =>
  match m k with (Ret a, k') => f a k' | (Err, k') => (Err, k') | (Spin, k') => (Spin, k') end.
Definition kget : KM ML_DSA_KEY := fun k => (Ret k, k).
Definition kset (f : ML_DSA_KEY -> ML_DSA_KEY) : KM unit := fun k => (Ret tt, f k).
Definition klift {A} (r : res A) : KM A := fun k => (r, k).
Definition kcheck (c : bool) : KM unit := klift (check c).

(** The prefetched digests; the code does not test the pointers again. *)
Definition md128 (key : ML_DSA_KEY) : XOF_MD := default SHAKE128 (mk_shake128_md key).
Definition md256 (key : ML_DSA_KEY) : XOF_MD := default SHAKE256 (mk_shake256_md key).

Definition ossl_ml_dsa_key_params (key : ML_DSA_KEY) : ML_DSA_PARAMS := mk_params key.
Definition ossl_ml_dsa_key_get_seed (key : ML_DSA_KEY) : option (list Z) := mk_seed key.
Definition ossl_ml_dsa_key_get_prov_flags (key : ML_DSA_KEY) : Z := mk_prov_flags key.
Definition ossl_ml_dsa_key_matches (key : ML_DSA_KEY) (evp_type : Z) : bool := dp_evp_type (mk_params key) =? evp_type.
Definition ossl_ml_dsa_key_get_pub (key : ML_DSA_KEY) : option (list Z) := mk_pub_encoding key.
Definition ossl_ml_dsa_key_get_pub_len (key : ML_DSA_KEY) : Z := dp_pk_len (mk_params key).
Definition ossl_ml_dsa_key_get_collision_strength_bits (key : ML_DSA_KEY) : Z := dp_bit_strength (mk_params key).
Definition ossl_ml_dsa_key_get_priv (key : ML_DSA_KEY) : option (list Z) := mk_priv_encoding key.
Definition ossl_ml_dsa_key_get_priv_len (key : ML_DSA_KEY) : Z := dp_sk_len (mk_params key).
Definition ossl_ml_dsa_key_get_sig_len (key : ML_DSA_KEY) : Z := dp_sig_len (mk_params key).
Definition ossl_ml_dsa_key_get_name (key : ML_DSA_KEY) : string := dp_alg (mk_params key).

(** ** Life cycle *)

Definition ossl_ml_dsa_key_reset (key : ML_DSA_KEY) : ML_DSA_KEY :=
  let key := match mk_s1 key with Some _ => set_secret None None None key | None => key end in
  let key := set_t1 None key in
  let key := set_K (zeros ML_DSA_K_BYTES) key in
  let key := set_pub_encoding None key in
  let key := set_priv_encoding None key in
  set_seed None key.

(** The contents of the object when its memory is released. *)
Definition ossl_ml_dsa_key_free (key : ML_DSA_KEY) : ML_DSA_KEY := ossl_ml_dsa_key_reset key.

(** [OPENSSL_zalloc] *)
Definition zero_key (params : ML_DSA_PARAMS) : ML_DSA_KEY :=
  mkML_DSA_KEY params None None (zeros ML_DSA_RHO_BYTES) (zeros ML_DSA_TR_BYTES) (zeros ML_DSA_K_BYTES)
    None None None 0 None None None None.
Definition with_mds (md128 md256 : option XOF_MD) (k : ML_DSA_KEY) : ML_DSA_KEY :=
  mkML_DSA_KEY (mk_params k) md128 md256 (mk_rho k) (mk_tr k) (mk_K k) (mk_pub_encoding k)
    (mk_priv_encoding k) (mk_seed k) (mk_prov_flags k) (mk_t1 k) (mk_t0 k) (mk_s2 k) (mk_s1 k).

Section Key.
Context `{AL : Allocator} `{XF : Xof} `{FU : Fuel} `{KE : KeyEnv}.

Definition ossl_ml_dsa_key_new (propq : option string) (evp_type : Z) : option ML_DSA_KEY :=
  params ← ossl_ml_dsa_params_get evp_type;
  if negb (alloc_at KeyObject) then None
  else
    let ret := set_prov_flags ML_DSA_KEY_PROV_FLAGS_DEFAULT (zero_key params) in
    let fetch md := if EVP_MD_fetch_xof md propq then Some md else None in
    let ret := with_mds (fetch SHAKE128) (fetch SHAKE256) ret in
    match mk_shake128_md ret, mk_shake256_md ret with
    | Some _, Some _ => Some ret
    | _, _ => None
    end.

Definition ossl_ml_dsa_key_pub_alloc : KM unit :=
  key ← kget;
  kcheck (negb (bool_decide (is_Some (mk_t1 key))));;
  kcheck (alloc_at T1Block);;
  kset (set_t1 (Some (uninit_vector (dp_k (mk_params key))))).
Definition ossl_ml_dsa_key_priv_alloc : KM unit :=
  key ← kget;
  let k := dp_k (mk_params key) in let l := dp_l (mk_params key) in
  kcheck (negb (bool_decide (is_Some (mk_s1 key))));;
  kcheck (alloc_at SecretBlock);;
  kset (set_secret (Some (uninit_vector l)) (Some (uninit_vector k)) (Some (uninit_vector k))).

Definition ossl_ml_dsa_set_prekey (flags_set flags_clr : Z) (seed sk : option (list Z)) : KM unit :=
  key ← kget;
  kcheck (negb (bool_decide (is_Some (mk_pub_encoding key))) && negb (bool_decide (is_Some (mk_priv_encoding key))) &&
          (match sk with Some sk => zlen sk =? dp_sk_len (mk_params key) | None => true end) &&
          (match seed with Some s => zlen s =? ML_DSA_SEED_BYTES | None => true end) &&
          negb (bool_decide (is_Some (mk_seed key))));;
  let sk_ok := match sk with Some _ => alloc_at PrivEncoding | None => true end in
  let seed_ok := match seed with Some _ => alloc_at SeedCopy | None => true end in
  if sk_ok && seed_ok then
    (match sk with Some _ => kset (set_priv_encoding sk) | None => mret tt end);;
    (match seed with Some _ => kset (set_seed seed) | None => mret tt end);;
    kset (fun key => set_prov_flags (Z.land (Z.lor (mk_prov_flags key) flags_set) (Z.lnot flags_clr)) key)
  else
    kset (fun key => set_seed None (set_priv_encoding None key));;
    klift Err.

Definition krun (m : KM unit) (key : ML_DSA_KEY) : option ML_DSA_KEY :=
  match m key with (Ret _, key') => Some key' | _ => None end.
Definition has {A} (x : option A) : bool := bool_decide (is_Some x).

(** The public part of the copy. *)
Definition dup_public (src ret : ML_DSA_KEY) : option ML_DSA_KEY :=
  match mk_pub_encoding src with
  | None => Some ret
  | Some pub =>
    let ret := set_tr (mk_tr src) (set_rho (mk_rho src) ret) in
    ret ← (match mk_t1 src with
           | Some t1 => ret ← krun ossl_ml_dsa_key_pub_alloc ret; Some (set_t1 (Some t1) ret)
           | None => Some ret
           end);
    if alloc_at PubEncoding then Some (set_pub_encoding (Some (slice pub 0 (dp_pk_len (mk_params src)))) ret) else None
  end.
Definition dup_private (src ret : ML_DSA_KEY) : option ML_DSA_KEY :=
  ret ← (match mk_priv_encoding src with
         | None => Some ret
         | Some priv =>
           let ret := set_K (mk_K src) ret in
           ret ← (match mk_s1 src with
                  | Some s1 => ret ← krun ossl_ml_dsa_key_priv_alloc ret; Some (set_secret (Some s1) (mk_s2 src) (mk_t0 src) ret)
                  | None => Some ret
                  end);
           if alloc_at PrivEncoding then Some (set_priv_encoding (Some (slice priv 0 (dp_sk_len (mk_params src)))) ret) else None
         end);
  match mk_seed src with
  | None => Some ret
  | Some seed => if alloc_at SeedCopy then Some (set_seed (Some (slice seed 0 ML_DSA_SEED_BYTES)) ret) else None
  end.
Definition ossl_ml_dsa_key_dup (src : option ML_DSA_KEY) (selection : Z) : option ML_DSA_KEY :=
  src ← src;
  if negb (has (mk_pub_encoding src)) && (has (mk_priv_encoding src) || has (mk_seed src)) then None
  else if negb (alloc_at KeyObject) then None
  else
    let ret := set_prov_flags (mk_prov_flags src) (zero_key (mk_params src)) in
    ret ← (if selected selection OSSL_KEYMGMT_SELECT_KEYPAIR then
             ret ← dup_public src ret;
             if selected selection OSSL_KEYMGMT_SELECT_PRIVATE_KEY then dup_private src ret else Some ret
           else Some ret);
    Some (with_mds (mk_shake128_md src) (mk_shake256_md src) ret).

(** The parameter sets are compared by address, that is by table row. *)
Definition ossl_ml_dsa_key_equal (key1 key2 : ML_DSA_KEY) (selection : Z) : bool :=
  if negb (bool_decide (mk_params key1 = mk_params key2)) then false
  else if selected selection OSSL_KEYMGMT_SELECT_KEYPAIR then
    let pub_checked := selected selection OSSL_KEYMGMT_SELECT_PUBLIC_KEY && has (mk_pub_encoding key1) && has (mk_pub_encoding key2) in
    let pk_len := dp_pk_len (mk_params key1) in let sk_len := dp_sk_len (mk_params key1) in
    let bytes o len := slice (default [] o) 0 len in
    if pub_checked then bool_decide (bytes (mk_pub_encoding key1) pk_len = bytes (mk_pub_encoding key2) pk_len)
    else if selected selection OSSL_KEYMGMT_SELECT_PRIVATE_KEY && has (mk_priv_encoding key1) && has (mk_priv_encoding key2)
    then bool_decide (bytes (mk_priv_encoding key1) sk_len = bytes (mk_priv_encoding key2) sk_len)
    else false
  else true.

Definition ossl_ml_dsa_key_has (key : ML_DSA_KEY) (selection : Z) : bool :=
  if selected selection OSSL_KEYMGMT_SELECT_KEYPAIR then
    if negb (has (ossl_ml_dsa_key_get_pub key)) then false
    else if selected selection OSSL_KEYMGMT_SELECT_PRIVATE_KEY && negb (has (ossl_ml_dsa_key_get_priv key)) then false
    else true
  else false.

(** ** Encodings *)

(** [WPACKET_get_total_written(&pkt, &written) && written == enc_len] *)
Definition check_written (enc_len : Z) : W unit :=
  (let! written := WPACKET_get_total_written in wguard (written =? enc_len))%W.

Definition ossl_ml_dsa_pk_encode : KM unit :=
  key ← kget;
  let enc_len := dp_pk_len (mk_params key) in
  kcheck (alloc_at PubEncoding);;
  '(_, pkt) ← klift (of_option (w_run
    (WPACKET_init_static_len (zeros enc_len) 0;;
     WPACKET_memcpy (mk_rho key);;
     encode_polys poly_encode_10_bits (vec (mk_t1 key));;
     check_written enc_len)%W uninit_wpacket));
  enc ← klift (of_option (finish_buf enc_len pkt));
  kset (set_pub_encoding (Some enc)).

Definition ossl_ml_dsa_sk_encode : KM unit :=
  key ← kget;
  let enc_len := dp_sk_len (mk_params key) in
  kcheck (alloc_at PrivEncoding);;
  let encode_fn := if dp_eta (mk_params key) =? ML_DSA_ETA_4 then poly_encode_signed_4 else poly_encode_signed_2 in
  '(_, pkt) ← klift (of_option (w_run
    (WPACKET_init_static_len (zeros enc_len) 0;;
     WPACKET_memcpy (mk_rho key);; WPACKET_memcpy (mk_K key);; WPACKET_memcpy (mk_tr key);;
     encode_polys encode_fn (vec (mk_s1 key));;
     encode_polys encode_fn (vec (mk_s2 key));;
     encode_polys poly_encode_signed_two_to_power_12 (vec (mk_t0 key));;
     check_written enc_len)%W uninit_wpacket));
  enc ← klift (of_option (finish_buf enc_len pkt));
  kset (set_priv_encoding (Some enc)).

Definition ossl_ml_dsa_pk_decode (inp : list Z) : KM unit :=
  key ← kget;
  kcheck (negb (has (mk_priv_encoding key) || has (mk_pub_encoding key)));;
  kcheck (zlen inp =? dp_pk_len (mk_params key));;
  ossl_ml_dsa_key_pub_alloc;;
  kcheck (has EVP_MD_CTX_new);;
  pkt ← klift (of_option (PACKET_buf_init inp 0 (zlen inp)));
  '(rho, pkt) ← klift (of_option (PACKET_copy_bytes pkt ML_DSA_RHO_BYTES));
  kset (set_rho rho);;
  key ← kget;
  '(t1, pkt) ← klift (of_option (decode_polys poly_decode_10_bits (length (vec (mk_t1 key))) pkt));
  kset (set_t1 (Some t1));;
  '(tr, _) ← klift (of_option (shake_xof (md256 key) inp ML_DSA_TR_BYTES));
  kset (set_tr tr);;
  kcheck (alloc_at PubEncoding);;
  kset (set_pub_encoding (Some inp)).

(** ** The public key from the private one *)

Definition public_from_private (key : ML_DSA_KEY) : res (VECTOR * VECTOR) :=
  let k := dp_k (mk_params key) in let l := dp_l (mk_params key) in
  check (alloc_at ScratchPolys);;
  a_ntt ← ossl_ml_dsa_matrix_expand_A (md128 key) (mk_rho key) (uninit_matrix k l);
  let s1_ntt := vector_ntt (vec (mk_s1 key)) in
  let t := ossl_ml_dsa_matrix_mult_vector a_ntt s1_ntt (uninit_vector k) in
  let t := vector_ntt_inverse t in
  let t := vector_add t (vec (mk_s2 key)) in
  Ret (vector_power2_round t).

(** [shake_xof(md_ctx, key->shake256_md, key->pub_encoding, pk_len, key->tr, 64)] *)
Definition hash_public : KM unit :=
  key ← kget;
  '(tr, _) ← klift (of_option (shake_xof (md256 key) (default [] (mk_pub_encoding key)) ML_DSA_TR_BYTES));
  kset (set_tr tr).

Definition ossl_ml_dsa_key_public_from_private : KM unit :=
  kcheck (alloc_at ScratchT0);;
  kcheck (has EVP_MD_CTX_new);;
  ossl_ml_dsa_key_pub_alloc;;
  key ← kget;
  '(t1, t0) ← klift (public_from_private key);
  kset (set_t1 (Some t1));;
  kcheck (vector_equal t0 (vec (mk_t0 key)));;
  ossl_ml_dsa_pk_encode;;
  hash_public.

Definition ossl_ml_dsa_key_pairwise_check (key : ML_DSA_KEY) : res unit :=
  check (has (mk_pub_encoding key) && has (mk_priv_encoding key));;
  check (alloc_at ScratchT0);;
  check (has EVP_MD_CTX_new);;
  '(t1, t0) ← public_from_private key;
  check (vector_equal t1 (vec (mk_t1 key)) && vector_equal t0 (vec (mk_t0 key))).

(** The public key must be the one whose hash was read; if not, the key is reset. *)
Definition check_public (input_tr : list Z) : KM unit := fun key =>
  match ossl_ml_dsa_key_public_from_private key with
  | (Spin, key) => (Spin, key)
  | (Ret _, key) => if bool_decide (input_tr = mk_tr key) then (Ret tt, key) else (Err, ossl_ml_dsa_key_reset key)
  | (Err, key) => (Err, ossl_ml_dsa_key_reset key)
  end.

(** [in_is_priv]: [in] is the pointer [key->priv_encoding]. *)
Definition ossl_ml_dsa_sk_decode (in_is_priv : bool) (inp : list Z) : KM unit :=
  kset (set_seed None);;
  key ← kget;
  kcheck (negb (has (mk_priv_encoding key) && negb in_is_priv || has (mk_pub_encoding key)));;
  kcheck (zlen inp =? dp_sk_len (mk_params key));;
  ossl_ml_dsa_key_priv_alloc;;
  let decode_fn := if dp_eta (mk_params key) =? ML_DSA_ETA_4 then poly_decode_signed_4 else poly_decode_signed_2 in
  pkt ← klift (of_option (PACKET_buf_init inp 0 (zlen inp)));
  '(rho, pkt) ← klift (of_option (PACKET_copy_bytes pkt ML_DSA_RHO_BYTES)); kset (set_rho rho);;
  '(K, pkt) ← klift (of_option (PACKET_copy_bytes pkt ML_DSA_K_BYTES)); kset (set_K K);;
  '(input_tr, pkt) ← klift (of_option (PACKET_copy_bytes pkt ML_DSA_TR_BYTES));
  '(s1, pkt) ← klift (of_option (decode_polys decode_fn (Z.to_nat (dp_l (mk_params key))) pkt)); kset (set_s1 (Some s1));;
  '(s2, pkt) ← klift (of_option (decode_polys decode_fn (Z.to_nat (dp_k (mk_params key))) pkt)); kset (set_s2 (Some s2));;
  '(t0, pkt) ← klift (of_option (decode_polys poly_decode_signed_two_to_power_12 (Z.to_nat (dp_k (mk_params key))) pkt));
  kset (set_t0 (Some t0));;
  kcheck (PACKET_remaining pkt =? 0);;
  key ← kget;
  (if has (mk_priv_encoding key) then mret tt
   else kcheck (alloc_at PrivEncoding);; kset (set_priv_encoding (Some inp)));;
  check_public input_tr.

(** ** Key generation *)

Definition keygen_body : KM unit :=
  key ← kget;
  kcheck (has (mk_seed key) && has EVP_MD_CTX_new);;
  ossl_ml_dsa_key_pub_alloc;;
  ossl_ml_dsa_key_priv_alloc;;
  key ← kget;
  let params := mk_params key in
  let augmented_seed := slice (default [] (mk_seed key)) 0 ML_DSA_SEED_BYTES ++ [u8 (dp_k params); u8 (dp_l params)] in
  '(expanded_seed, _) ← klift (of_option (shake_xof (md256 key) augmented_seed
                                (ML_DSA_RHO_BYTES + ML_DSA_PRIV_SEED_BYTES + ML_DSA_K_BYTES)));
  let priv_seed := slice expanded_seed ML_DSA_RHO_BYTES ML_DSA_PRIV_SEED_BYTES in
  kset (set_rho (slice expanded_seed 0 ML_DSA_RHO_BYTES));;
  kset (set_K (slice expanded_seed (ML_DSA_RHO_BYTES + ML_DSA_PRIV_SEED_BYTES) ML_DSA_K_BYTES));;
  key ← kget;
  '(s1, s2) ← klift (ossl_ml_dsa_vector_expand_S (md256 key) (dp_eta params) priv_seed (vec (mk_s1 key)) (vec (mk_s2 key)));
  kset (fun key => set_s1 (Some s1) (set_s2 (Some s2) key));;
  key ← kget;
  '(t1, t0) ← klift (public_from_private key);
  kset (fun key => set_t1 (Some t1) (set_t0 (Some t0) key));;
  ossl_ml_dsa_pk_encode;;
  hash_public;;
  ossl_ml_dsa_sk_encode.

(** The seed is dropped on every path, unless it is to be kept. *)
Definition keygen_internal : KM unit := fun key =>
  let '(r, out) := keygen_body key in
  (r, if has (mk_seed out) && (Z.land (mk_prov_flags out) ML_DSA_KEY_RETAIN_SEED =? 0) then set_seed None out else out).

Definition ossl_ml_dsa_generate_key : KM unit :=
  key ← kget;
  (if has (mk_seed key) then mret tt
   else kcheck (alloc_at SeedCopy);; seed ← klift (of_option RAND_priv_seed); kset (set_seed (Some seed)));;
  let sk := mk_priv_encoding key in
  kset (set_priv_encoding None);;
  match sk with
  | None => keygen_internal
  | Some sk =>
    keygen_internal;;
    out ← kget;
    let len := dp_sk_len (mk_params out) in
    if bool_decide (slice (default [] (mk_priv_encoding out)) 0 len = slice sk 0 len) then mret tt
    else kset ossl_ml_dsa_key_reset;; klift Err
  end.
End Key.

(** ** Encodings of FIPS 204 *)

Definition s_bits (params : ML_DSA_PARAMS) : Z := eta_bits (dp_eta params).
Definition s_encoding (params : ML_DSA_PARAMS) (s : VECTOR) : list Z := vec_encoding (mod_sub (dp_eta params)) (s_bits params) s.
Definition t0_encoding (t0 : VECTOR) : list Z := vec_encoding (mod_sub (2 ^ 12)) 13 t0.
(** Algorithms 22 and 24. *)
Definition pk_encoding (rho : list Z) (t1 : VECTOR) : list Z := rho ++ vec_encoding id 10 t1.
Definition sk_encoding (params : ML_DSA_PARAMS) (rho K tr : list Z) (s1 s2 t0 : VECTOR) : list Z :=
  rho ++ K ++ tr ++ s_encoding params s1 ++ s_encoding params s2 ++ t0_encoding t0.

(** Vectors of [n] polynomials with coefficients in a range. *)
Definition vec_in (P : Z -> Prop) (n : Z) (v : VECTOR) : Prop :=
  zlen v = n /\ Forall (fun p => zlen p = 256 /\ Forall P p) v.
Definition t1_coeff (c : Z) : Prop := 0 <= c < 2 ^ 10.
Definition t0_coeff (c : Z) : Prop := coeff_ok c /\ - 2 ^ 12 < centered c <= 2 ^ 12.

Lemma vec_in_impl (P Q : Z -> Prop) n v : (forall c, P c -> Q c) -> vec_in P n v -> vec_in Q n v.
Proof.
  intros H [Hl Hv]. split; [done|]. eapply Forall_impl; [exact Hv|]. intros p [Hp Hc]. split; [done|].
  eapply Forall_impl; [exact Hc|]. exact H.
Qed.
Lemma vec_in_256 P n v : vec_in P n v -> Forall (fun p => zlen p = 256) v.
Proof. intros [_ Hv]. eapply Forall_impl; [exact Hv|]. by intros p [? _]. Qed.

(** Digits of a signed range [-(r - 1) .. r] or [-r .. r]. *)
Section Signed.
Context (r b lim : Z) (Hr : 0 < r <= 4096) (Hb : 0 <= b) (Hlim : lim < 2 ^ b) (Hpow : 2 ^ b <= 8192) (Hlim2 : r <= lim).

Lemma signed_digit c :
  coeff_ok c -> r - lim <= centered c <= r <-> is_digit b (mod_sub r c) /\ mod_sub r c <= lim.
Proof.
  intros Hc. assert (coeff_ok r) as Hrc by (unfold coeff_ok, ML_DSA_Q; lia). unfold is_digit. split.
  - intros H. rewrite mod_sub_signed; [lia|done|done|]. unfold ML_DSA_Q. lia.
  - intros [H1 H2]. destruct (coeff_sub_ok r c Hrc Hc) as [H3 E1].
    rewrite (centered_unique c (r - mod_sub r c)); [lia|done| |].
    + change ML_DSA_Q_MINUS1_DIV2 with 4190208. lia.
    + rewrite E1. cong_by 0.
Qed.
Lemma signed_invol x : is_digit b x -> mod_sub r (mod_sub r x) = x.
Proof. unfold is_digit. intros Hx. apply mod_sub_invol; unfold coeff_ok, ML_DSA_Q; lia. Qed.
Lemma signed_codable p :
  codable (mod_sub r) b lim p <-> zlen p = 256 /\ Forall (fun c => coeff_ok c /\ r - lim <= centered c <= r) p.
Proof.
  assert (coeff_ok r) as Hrc by (unfold coeff_ok, ML_DSA_Q; lia).
  unfold codable. split; intros [Hl Hp]; (split; [done|]); (eapply Forall_impl; [exact Hp|]); intros c Hc; cbv beta in Hc.
  - destruct Hc as (H1 & H2 & E). assert (coeff_ok c) as Hcc.
    { rewrite <- E. apply (coeff_sub_ok r (mod_sub r c) Hrc). unfold is_digit, coeff_ok, ML_DSA_Q in *. lia. }
    split; [done|]. by apply signed_digit.
  - destruct Hc as [H1 H2]. apply signed_digit in H2 as [H2 H3]; [|done]. split_and!; [done|done|]. by apply mod_sub_invol.
Qed.
End Signed.

Section Params.
Context (params : ML_DSA_PARAMS) (Hp : mparams_ok params).

Lemma eta_facts :
  0 < dp_eta params <= 4096 /\ 0 <= s_bits params /\ 2 * dp_eta params < 2 ^ s_bits params /\ 2 ^ s_bits params <= 8192 /\
  dp_eta params <= 2 * dp_eta params.
Proof. destruct Hp as (He & _). unfold s_bits. destruct He as [-> | ->]; vm_compute; intuition discriminate. Qed.

Lemma s_codable p :
  codable (mod_sub (dp_eta params)) (s_bits params) (2 * dp_eta params) p <-> zlen p = 256 /\ Forall (short (dp_eta params)) p.
Proof.
  destruct eta_facts as (H1 & H2 & H3 & H4 & H5). rewrite signed_codable by done. unfold short.
  split; intros [Hl H]; (split; [done|]); (eapply Forall_impl; [exact H|]); cbv beta; intros c Hc;
    unfold coeff_ok in *; lia.
Qed.

#[local] Instance s_encodes `{AL : Allocator} :
  Encodes (if dp_eta params =? ML_DSA_ETA_4 then poly_encode_signed_4 else poly_encode_signed_2)
    (mod_sub (dp_eta params)) (s_bits params).
Proof. unfold s_bits. destruct Hp as ([-> | ->] & _); [exact encodes_signed_2|exact encodes_signed_4]. Qed.
#[local] Instance s_decodes :
  Decodes (if dp_eta params =? ML_DSA_ETA_4 then poly_decode_signed_4 else poly_decode_signed_2)
    (mod_sub (dp_eta params)) (s_bits params) (2 * dp_eta params).
Proof. unfold s_bits. destruct Hp as ([-> | ->] & _); [exact decodes_signed_2|exact decodes_signed_4]. Qed.
End Params.

Lemma t0_codable p : codable (mod_sub (2 ^ 12)) 13 8191 p <-> zlen p = 256 /\ Forall t0_coeff p.
Proof.
  rewrite (signed_codable (2 ^ 12) 13 8191) by lia. unfold t0_coeff.
  split; intros [Hl H]; (split; [done|]); (eapply Forall_impl; [exact H|]); cbv beta; intros c Hc;
    unfold coeff_ok in *; lia.
Qed.
Lemma t1_codable p : codable id 10 1023 p <-> zlen p = 256 /\ Forall t1_coeff p.
Proof.
  unfold codable, is_digit, t1_coeff, id.
  split; intros [Hl H]; (split; [done|]); (eapply Forall_impl; [exact H|]); cbv beta; intros c Hc;
    unfold coeff_ok in *; lia.
Qed.
