(* ===== verification/MlDsaExample.v ===== *)
(** * A digest that can be followed by hand

    An instance of the digest interface whose output does not depend on its input:
    zero bytes, and for the length of a mask of ML-DSA-44 the bytes whose 18-bit
    fields are all [gamma1], which decode to the zero vector.  The matrix it expands
    to is zero, the secrets have all coefficients 2, and the first signing attempt is
    accepted.  It satisfies the laws the theorems assume, so that they can be applied
    to whole runs of key generation and signing. *)
From S2P Require Import Prelude.
From S2P Require Import ConstantTime.
From S2P Require Import Packet.
From S2P Require Import WPacket.
From S2P Require Import Result.
From S2P Require Import ModCong.
From S2P Require Import MlDsaField.
From S2P Require Import MlDsaNtt.
From S2P Require Import MlDsaPoly.
From S2P Require Import MlDsaParams.
From S2P Require Import MlDsaSig.
From S2P Require Import MlDsaSample.
From S2P Require Import MlDsaKey.

Definition mask_bytes : list Z := mjoin (replicate 64 [0; 0; 2; 0; 8; 0; 32; 0; 128]).
Definition flat_output (n : Z) : list Z := if n =? 576 then mask_bytes else zeros n.
#[local] Instance flat_xof : Xof := {|
  EVP_MD_CTX := unit; EVP_MD_CTX_new := Some tt; EVP_DigestInit_ex2 _ := Some tt;
  EVP_DigestUpdate c m := Some c;
  EVP_DigestSqueeze c n := Some (flat_output n, c) |}.
#[local] Instance flat_xof_laws : @XofLaws flat_xof.
Proof.
  split; cbn; try done.
  intros c n Hn. eexists _, _. split; [done|]. unfold flat_output. destruct (Z.eqb_spec n 576) as [->|].
  - split; [done|]. apply (Forall_iff (fun x => 0 <= x < 256)); [done|]. repeat constructor; by compute.
  - split; [apply zlen_zeros; lia|]. by apply Forall_replicate.
Qed.
#[local] Instance example_fuel : Fuel := 8%nat.
#[local] Instance example_env : KeyEnv := {|
  alloc_at _ := true; EVP_MD_fetch_xof _ _ := true; RAND_priv_seed := Some (zeros 32) |}.

Definition twos (n : nat) : VECTOR := replicate n (replicate 256 2).

Lemma flat_matrix rho : ossl_ml_dsa_matrix_expand_A SHAKE128 rho (uninit_matrix 4 4) = Ret (uninit_matrix 4 4).
Proof. vm_compute. reflexivity. Qed.
Lemma flat_secrets seed :
  ossl_ml_dsa_vector_expand_S SHAKE256 2 seed (uninit_vector 4) (uninit_vector 4) = Ret (twos 4, twos 4).
Proof. vm_compute. reflexivity. Qed.
Lemma flat_challenge : exists c, ossl_ml_dsa_poly_sample_in_ball (zeros 32) SHAKE256 39 = Ret c.
Proof. eexists. vm_compute. reflexivity. Qed.
Lemma flat_mask rho_prime kappa :
  vector_expand_mask (uninit_vector 4) rho_prime kappa ML_DSA_GAMMA1_TWO_POWER_17 SHAKE256 = uninit_vector 4.
Proof.
  unfold vector_expand_mask. apply (for_each_inv (fun _ v => v = uninit_vector 4)); [done|]. intros i v Hi ->.
  unfold ossl_ml_dsa_poly_expand_mask, shake_xof. cbn [mbind option_bind EVP_DigestInit_ex2 EVP_DigestUpdate EVP_DigestSqueeze flat_xof].
  match goal with |- context [ossl_ml_dsa_poly_decode_expand_mask ?b ?g] =>
    assert (ossl_ml_dsa_poly_decode_expand_mask b g = Some poly_zero) as -> by (vm_compute; reflexivity) end.
  assert (i = 0 \/ i = 1 \/ i = 2 \/ i = 3) as [-> | [-> | [-> | ->]]] 
    by (change (Z.of_nat (length (uninit_vector 4))) with 4 in Hi; lia); reflexivity.
Qed.
