(* ===== verification/MlDsaKeySpec.v ===== *)
(** * ML-DSA keys: what the operations guarantee

    [key_pair] says that a key object is a genuine key pair: its public vector is
    the rounding of [A * s1 + s2] for the matrix of its seed, its encodings are the
    encodings of FIPS 204 of its components, and the hash it caches is that of the
    public encoding.  Generating a key and decoding a private key establish it;
    decoding the encodings of a pair gives its components back. *)
From S2P Require Import Prelude.
From S2P Require Import ByteOrder.
From S2P Require Import Packet.
From S2P Require Import WPacket.
From S2P Require Import WPacketSpec.
From S2P Require Import WPacketOut.
From S2P Require Import KeyMgmt.
From S2P Require Import ZSum.
From S2P Require Import BitPack.
From S2P Require Import Result.
From S2P Require Import ModCong.
From S2P Require Import MlDsaField.
From S2P Require Import MlDsaRound.
From S2P Require Import MlDsaNtt.
From S2P Require Import MlDsaPoly.
From S2P Require Import MlDsaParams.
From S2P Require Import MlDsaPack.
From S2P Require Import MlDsaEncode.
From S2P Require Import MlDsaHint.
From S2P Require Import MlDsaSig.
From S2P Require Import MlDsaSample.
From S2P Require Import MlDsaKey.
From S2P Require Import MlDsaExample.
#[local] Close Scope wpacket_scope.

(** ** Running the key monad *)

Lemma km_bind_Ret {A B} (m : KM A) (f : A -> KM B) k b k' :
  (m ≫= f) k = (Ret b, k') -> exists a k1, m k = (Ret a, k1) /\ f a k1 = (Ret b, k').
Proof.
  unfold mbind, KM_bind. destruct (m k) as [[a| |] k1]; [|done..]. intros H. by exists a, k1.
Qed.
Lemma kcheck_Ret c k (u : unit) k' : kcheck c k = (Ret u, k') -> c = true /\ k' = k.
Proof. unfold kcheck, klift, check. destruct c; [|done]. by intros [= _ <-]. Qed.
Lemma klift_Ret {A} (r : res A) k a k' : klift r k = (Ret a, k') -> r = Ret a /\ k' = k.
Proof. by intros [= -> ->]. Qed.
Lemma of_option_Ret {A} (o : option A) a : of_option o = Ret a -> o = Some a.
Proof. destruct o; [|done]. by intros [= ->]. Qed.
Lemma kget_Ret k a k' : kget k = (Ret a, k') -> a = k /\ k' = k.
Proof. by intros [= <- <-]. Qed.
Lemma kret_Ret {A} (x a : A) k k' : (mret x : KM A) k = (Ret a, k') -> k' = k.
Proof. by intros [= _ ->]. Qed.
Lemma kset_Ret f k (u : unit) k' : kset f k = (Ret u, k') -> k' = f k.
Proof. by intros [= _ <-]. Qed.

(** Take one step of a run that returned. *)
Ltac km_step :=
  match goal with
  | H : (_ ≫= _) _ = (Ret _, _) |- _ => let a := fresh "a" in let k := fresh "k" in let E := fresh "E" in
      apply km_bind_Ret in H as (a & k & E & H)
  | H : kget _ = (Ret _, _) |- _ => apply kget_Ret in H as [? ?]; subst
  | H : kcheck _ _ = (Ret _, _) |- _ => apply kcheck_Ret in H as [? ?]; subst
  | H : klift (of_option _) _ = (Ret _, _) |- _ => apply klift_Ret in H as [H ?]; apply of_option_Ret in H; subst
  | H : klift _ _ = (Ret _, _) |- _ => apply klift_Ret in H as [H ?]; subst
  | H : kset _ _ = (Ret _, _) |- _ => apply kset_Ret in H; subst
  | H : @mret KM _ _ _ _ = (Ret _, _) |- _ => apply kret_Ret in H; subst
  | H : (let '(_, _) := ?x in _) _ = (Ret _, _) |- _ => is_var x; destruct x
  end.

(** ** Encoding *)

Section Encode.
Context `{AL : Allocator} (Halloc : forall n s, malloc_ok n s = true).

Lemma check_written_ok w data n : wp_out w data n -> zlen data = n -> check_written n w = Done tt w.
Proof.
  intros Ho Hd. unfold check_written, WPACKET_get_total_written, wbind, wget, wret, wguard.
  rewrite (out_written _ _ _ Ho), Hd, Z.eqb_refl. done.
Qed.

(** A packet over a buffer of [n] bytes that is filled exactly. *)
Lemma static_run (m : W unit) data n :
  0 < n <= SIZE_MAX -> zlen data = n ->
  (forall w0, wp_out w0 [] n -> exists w', m w0 = Done tt w' /\ wp_out w' data n) ->
  exists w, w_run (wbind (WPACKET_init_static_len (zeros n) 0) (fun _ => m)) uninit_wpacket = Some (tt, w) /\
    finish_buf n w = Some data.
Proof.
  intros Hn Hd Hm. destruct (out_init (zeros n) uninit_wpacket Halloc) as (w0 & E0 & Ho0); [rewrite zlen_zeros; lia|].
  rewrite zlen_zeros in Ho0 by lia. destruct (Hm w0 Ho0) as (w1 & E1 & Ho1).
  destruct (out_finish_buf _ _ _ Ho1) as (w2 & b & E2 & Hg & Hb). exists w1. split.
  - apply w_run_done. unfold wbind. by rewrite E0.
  - unfold finish_buf. rewrite E2, Hg. cbn [mbind option_bind]. rewrite <- Hd. by rewrite Hb.
Qed.

Lemma pk_encoding_length params rho t1 :
  mparams_ok params -> zlen rho = 32 -> vec_in t1_coeff (dp_k params) t1 -> zlen (pk_encoding rho t1) = dp_pk_len params.
Proof.
  intros (_ & _ & _ & _ & _ & _ & _ & _ & _ & -> & _) Hr Ht. unfold pk_encoding.
  rewrite zlen_app, vec_encoding_length by (lia || by eapply vec_in_256). destruct Ht as [-> _]. lia.
Qed.
Lemma sk_encoding_length params rho K tr s1 s2 t0 :
  mparams_ok params -> zlen rho = 32 -> zlen K = 32 -> zlen tr = 64 ->
  vec_in (short (dp_eta params)) (dp_l params) s1 -> vec_in (short (dp_eta params)) (dp_k params) s2 ->
  vec_in t0_coeff (dp_k params) t0 -> zlen (sk_encoding params rho K tr s1 s2 t0) = dp_sk_len params.
Proof.
  intros Hp Hr HK Ht H1 H2 H0. destruct (eta_facts params Hp) as (_ & Hb & _).
  destruct Hp as (_ & _ & _ & _ & _ & _ & _ & _ & _ & _ & -> & _). unfold sk_encoding, s_encoding, t0_encoding.
  rewrite !zlen_app, !vec_encoding_length by (lia || by eapply vec_in_256).
  destruct H1 as [-> _], H2 as [-> _], H0 as [-> _]. unfold s_bits. lia.
Qed.

Lemma codable_digits f b lim v :
  Forall (codable f b lim) v -> Forall (fun p => zlen p = 256 /\ Forall (is_digit b) (f <$> p)) v.
Proof.
  intros H. eapply Forall_impl; [exact H|]. intros p [Hl Hp]. split; [done|]. apply Forall_fmap.
  eapply Forall_impl; [exact Hp|]. by intros c [? _].
Qed.
Lemma encode_vec f b lim e `{!Encodes e f b} v w data cap :
  0 <= b -> wp_out w data cap -> Forall (codable f b lim) v -> zlen data + zlen (vec_encoding f b v) <= cap ->
  exists w', encode_polys e v w = Done tt w' /\ wp_out w' (data ++ vec_encoding f b v) cap.
Proof.
  intros Hb Ho Hv Hc. apply (encode_polys_out f b Hb e); [by eapply codable_digits|done|].
  rewrite <- (vec_encoding_length f b) by (done || by eapply codable_length). done.
Qed.
Lemma vec_in_t1 n v : vec_in t1_coeff n v -> Forall (codable id 10 1023) v.
Proof. intros [_ Hv]. eapply Forall_impl; [exact Hv|]. intros p. by rewrite t1_codable. Qed.
Lemma vec_in_t0 n v : vec_in t0_coeff n v -> Forall (codable (mod_sub (2 ^ 12)) 13 8191) v.
Proof. intros [_ Hv]. eapply Forall_impl; [exact Hv|]. intros p. by rewrite t0_codable. Qed.
Lemma vec_in_s params n v :
  mparams_ok params -> vec_in (short (dp_eta params)) n v ->
  Forall (codable (mod_sub (dp_eta params)) (s_bits params) (2 * dp_eta params)) v.
Proof. intros Hp [_ Hv]. eapply Forall_impl; [exact Hv|]. intros p. by rewrite s_codable. Qed.

Context `{XF : Xof} `{FU : Fuel} `{KE : KeyEnv}.

Lemma pk_encode_eq key t1 :
  mparams_ok (mk_params key) -> zlen (mk_rho key) = 32 -> mk_t1 key = Some t1 ->
  vec_in t1_coeff (dp_k (mk_params key)) t1 ->
  ossl_ml_dsa_pk_encode key =
  if alloc_at PubEncoding then (Ret tt, set_pub_encoding (Some (pk_encoding (mk_rho key) t1)) key) else (Err, key).
Proof.
  intros Hp Hr Ht1 Ht. pose proof (pk_encoding_length _ _ _ Hp Hr Ht) as Hlen. pose proof (mparams_lens _ Hp) as (_ & Hpk & _).
  unfold ossl_ml_dsa_pk_encode, mbind, KM_bind, kget, kcheck, klift, check. destruct (alloc_at PubEncoding); [|done].
  rewrite Ht1. cbn [vec].
  edestruct (static_run (wbind (WPACKET_memcpy (mk_rho key)) (fun _ => wbind (encode_polys poly_encode_10_bits t1)
    (fun _ => check_written (dp_pk_len (mk_params key))))) (pk_encoding (mk_rho key) t1)) as (w & E & Hf);
    [|exact Hlen| |rewrite E; cbn [of_option]; rewrite Hf; done]; [unfold SIZE_MAX; lia|].
  intros w0 Ho0. unfold pk_encoding in Hlen. rewrite zlen_app in Hlen.
  pose proof (zlen_nonneg (vec_encoding id 10 t1)).
  destruct (out_memcpy w0 [] _ (mk_rho key) Ho0) as (w1 & E1 & Ho1); [rewrite zlen_nil; lia|]. cbn [app] in Ho1.
  destruct (encode_vec id 10 1023 poly_encode_10_bits t1 w1 _ _ ltac:(lia) Ho1) as (w2 & E2 & Ho2);
    [by eapply vec_in_t1|lia|].
  exists w2. unfold wbind. rewrite E1, E2. split; [|exact Ho2]. eapply check_written_ok; [exact Ho2|]. by rewrite zlen_app.
Qed.

Lemma sk_encode_eq key s1 s2 t0 :
  mparams_ok (mk_params key) -> zlen (mk_rho key) = 32 -> zlen (mk_K key) = 32 -> zlen (mk_tr key) = 64 ->
  mk_s1 key = Some s1 -> mk_s2 key = Some s2 -> mk_t0 key = Some t0 ->
  vec_in (short (dp_eta (mk_params key))) (dp_l (mk_params key)) s1 ->
  vec_in (short (dp_eta (mk_params key))) (dp_k (mk_params key)) s2 ->
  vec_in t0_coeff (dp_k (mk_params key)) t0 ->
  ossl_ml_dsa_sk_encode key =
  if alloc_at PrivEncoding
  then (Ret tt, set_priv_encoding (Some (sk_encoding (mk_params key) (mk_rho key) (mk_K key) (mk_tr key) s1 s2 t0)) key)
  else (Err, key).
Proof.
  intros Hp Hr HK Htr E1 E2 E0 H1 H2 H0. pose proof (sk_encoding_length _ _ _ _ _ _ _ Hp Hr HK Htr H1 H2 H0) as Hlen.
  pose proof (mparams_lens _ Hp) as (_ & _ & Hsk). destruct (eta_facts _ Hp) as (_ & Hb & _).
  unfold ossl_ml_dsa_sk_encode, mbind, KM_bind, kget, kcheck, klift, check. destruct (alloc_at PrivEncoding); [|done].
  rewrite E1, E2, E0. cbn [vec]. clear E1 E2 E0. cbv zeta.
  pose proof (@s_encodes (mk_params key) Hp AL) as Hse. set (fn := if _ =? _ then _ else _) in *.
  pose proof (zlen_nonneg (s_encoding (mk_params key) s1)) as N1. pose proof (zlen_nonneg (s_encoding (mk_params key) s2)) as N2.
  pose proof (zlen_nonneg (t0_encoding t0)) as N0.
  match goal with |- context [w_run (wbind _ (fun _ => ?m)) _] =>
    edestruct (static_run m (sk_encoding (mk_params key) (mk_rho key) (mk_K key) (mk_tr key) s1 s2 t0)) as (w & E & Hf) end;
    [|exact Hlen| |rewrite E; cbn [of_option]; rewrite Hf; done]; [unfold SIZE_MAX; lia|].
  intros w0 Ho0. pose proof Hlen as Hlen'. unfold sk_encoding in Hlen'. rewrite !zlen_app in Hlen'.
  destruct (out_memcpy w0 [] _ (mk_rho key) Ho0) as (w1 & E1 & Ho1); [rewrite zlen_nil; lia|]. cbn [app] in Ho1.
  destruct (out_memcpy w1 _ _ (mk_K key) Ho1) as (w2 & E2 & Ho2); [lia|].
  destruct (out_memcpy w2 _ _ (mk_tr key) Ho2) as (w3 & E3 & Ho3); [rewrite zlen_app; lia|].
  destruct (encode_vec _ _ (2 * dp_eta (mk_params key)) fn s1 w3 _ _ Hb Ho3) as (w4 & E4 & Ho4);
    [by eapply vec_in_s|fold (s_encoding (mk_params key) s1); rewrite !zlen_app; lia|].
  destruct (encode_vec _ _ (2 * dp_eta (mk_params key)) fn s2 w4 _ _ Hb Ho4) as (w5 & E5 & Ho5);
    [by eapply vec_in_s|fold (s_encoding (mk_params key) s1) (s_encoding (mk_params key) s2); rewrite !zlen_app; lia|].
  destruct (encode_vec (mod_sub (2 ^ 12)) 13 8191 poly_encode_signed_two_to_power_12 t0 w5 _ _ ltac:(lia) Ho5) as (w6 & E6 & Ho6);
    [by eapply vec_in_t0|fold (s_encoding (mk_params key) s1) (s_encoding (mk_params key) s2) (t0_encoding t0); rewrite !zlen_app; lia|].
  rewrite <- !app_assoc in Ho6. exists w6. unfold wbind. rewrite E1, E2, E3, E4, E5, E6. split; [|exact Ho6].
  eapply check_written_ok; [exact Ho6|exact Hlen].
Qed.
End Encode.

(** ** Genuine keys *)

(** [t = A * s1 + s2] as the code computes it. *)
Definition t_vector (a : MATRIX) (s1 s2 : VECTOR) : VECTOR :=
  vector_add (vector_ntt_inverse (ossl_ml_dsa_matrix_mult_vector a (vector_ntt s1) (uninit_vector (m_k a)))) s2.

Lemma uninit_vector_ok n : 0 <= n -> vec_ok n (uninit_vector n) /\ forall eta, 0 <= eta -> vec_in (short eta) n (uninit_vector n).
Proof.
  intros Hn. unfold uninit_vector. assert (zlen (replicate (Z.to_nat n) poly_zero) = n) as Hl
    by (unfold zlen; rewrite length_replicate; lia). split; [|intros eta He]; (split; [done|]); apply Forall_replicate.
  - apply poly_zero_ok.
  - split; [done|]. apply Forall_replicate. split; [by compute|]. change (centered 0) with 0. lia.
Qed.
Lemma uninit_matrix_ok k l : 0 <= k -> 0 <= l -> mat_ok k l (uninit_matrix k l).
Proof. intros Hk Hl. split_and!; [done..|]. apply uninit_vector_ok. nia. Qed.

Lemma vec_in_ok (P : Z -> Prop) n v : (forall c, P c -> coeff_ok c) -> vec_in P n v -> vec_ok n v.
Proof.
  intros HP [Hl Hv]. split; [done|]. eapply Forall_impl; [exact Hv|]. intros p [Hp Hc]. split; [done|].
  eapply Forall_impl; [exact Hc|]. exact HP.
Qed.
Lemma vec_ok_in n v : vec_ok n v -> vec_in coeff_ok n v.
Proof. intros [Hl Hv]. split; [done|]. eapply Forall_impl; [exact Hv|]. by intros p [? ?]. Qed.
Lemma vec_in_map (P Q : Z -> Prop) (f : Z -> Z) n v :
  (forall c, P c -> Q (f c)) -> vec_in P n v -> vec_in Q n ((fun p : list Z => f <$> p) <$> v).
Proof.
  intros Hf [Hl Hv]. split; [by rewrite zlen_fmap|]. apply Forall_fmap. eapply Forall_impl; [exact Hv|].
  intros p [Hp Hc]. cbn. split; [by rewrite zlen_fmap|]. apply Forall_fmap. eapply Forall_impl; [exact Hc|]. exact Hf.
Qed.

Lemma t_vector_ok k l a s1 s2 : mat_ok k l a -> vec_ok l s1 -> vec_ok k s2 -> vec_ok k (t_vector a s1 s2).
Proof.
  intros Ha H1 H2. unfold t_vector. pose proof Ha as (-> & _ & Hk & _). apply vector_add_ok; [|done].
  apply vector_ntt_inverse_ok. eapply matrix_mult_vector_ok; [done|by apply vector_ntt_ok|]. by apply uninit_vector_ok.
Qed.
Lemma vector_power2_round_in k t :
  vec_ok k t -> let '(t1, t0) := vector_power2_round t in vec_in t1_coeff k t1 /\ vec_in t0_coeff k t0.
Proof.
  intros Ht%vec_ok_in. unfold vector_power2_round, poly_power2_round. cbv beta iota. cbn [fst snd].
  split; [eapply (vec_in_map coeff_ok t1_coeff), Ht|eapply (vec_in_map coeff_ok t0_coeff), Ht];
    intros c Hc; cbv beta; pose proof (power2_round_spec c Hc) as Hs; destruct (ossl_ml_dsa_key_compress_power2_round c) as [r1 r0];
    destruct Hs as (_ & E0 & Ec & H1 & H2 & _); cbn [fst snd].
  - unfold t1_coeff. lia.
  - unfold t0_coeff. rewrite Ec. split; [rewrite E0; apply coeff_mod|]. lia.
Qed.

Lemma Ret_inj {A} (x y : A) : Ret x = Ret y -> x = y.
Proof. by intros [= ->]. Qed.

Section Pair.
Context `{XF : Xof} `{FU : Fuel}.

(** The public half. *)
Definition public_ok (key : ML_DSA_KEY) (t1 : VECTOR) : Prop :=
  mparams_ok (mk_params key) /\ zlen (mk_rho key) = 32 /\ bytes_ok (mk_rho key) /\
  mk_t1 key = Some t1 /\ vec_in t1_coeff (dp_k (mk_params key)) t1 /\
  mk_pub_encoding key = Some (pk_encoding (mk_rho key) t1) /\
  exists ctx, shake_xof (md256 key) (pk_encoding (mk_rho key) t1) 64 = Some (mk_tr key, ctx).

Definition key_pair (key : ML_DSA_KEY) : Prop :=
  exists a s1 s2 t0 t1,
    public_ok key t1 /\ zlen (mk_K key) = 32 /\ bytes_ok (mk_K key) /\
    mk_s1 key = Some s1 /\ mk_s2 key = Some s2 /\ mk_t0 key = Some t0 /\
    ossl_ml_dsa_matrix_expand_A (md128 key) (mk_rho key) (uninit_matrix (dp_k (mk_params key)) (dp_l (mk_params key))) = Ret a /\
    vec_in (short (dp_eta (mk_params key))) (dp_l (mk_params key)) s1 /\
    vec_in (short (dp_eta (mk_params key))) (dp_k (mk_params key)) s2 /\
    vector_power2_round (t_vector a s1 s2) = (t1, t0) /\
    mk_priv_encoding key = Some (sk_encoding (mk_params key) (mk_rho key) (mk_K key) (mk_tr key) s1 s2 t0).

Context `{XL : !XofLaws} `{KE : KeyEnv} `{AL : Allocator} (Halloc : forall n s, malloc_ok n s = true).

Lemma short_coeff_ok eta c : short eta c -> coeff_ok c.
Proof. by intros [? _]. Qed.

Lemma public_from_private_inv key s1 s2 t1 t0 :
  mparams_ok (mk_params key) -> mk_s1 key = Some s1 -> mk_s2 key = Some s2 ->
  vec_in (short (dp_eta (mk_params key))) (dp_l (mk_params key)) s1 ->
  vec_in (short (dp_eta (mk_params key))) (dp_k (mk_params key)) s2 ->
  public_from_private key = Ret (t1, t0) ->
  exists a, ossl_ml_dsa_matrix_expand_A (md128 key) (mk_rho key) (uninit_matrix (dp_k (mk_params key)) (dp_l (mk_params key))) = Ret a /\
    mat_ok (dp_k (mk_params key)) (dp_l (mk_params key)) a /\
    vector_power2_round (t_vector a s1 s2) = (t1, t0) /\
    vec_in t1_coeff (dp_k (mk_params key)) t1 /\ vec_in t0_coeff (dp_k (mk_params key)) t0.
Proof.
  intros Hp E1 E2 H1 H2 (u & _ & (a & Ha & Ht)%res_bind_Ret)%res_bind_Ret. exists a.
  pose proof Hp as (_ & _ & _ & _ & _ & Hk & Hl & _).
  assert (mat_ok (dp_k (mk_params key)) (dp_l (mk_params key)) a) as Hm
    by (eapply matrix_expand_A_ok; [apply uninit_matrix_ok; lia|exact Ha]).
  rewrite E1, E2 in Ht. cbn [vec] in Ht. pose proof Hm as (Hmk & _).
  assert (vector_power2_round (t_vector a s1 s2) = (t1, t0)) as Et.
  { apply Ret_inj in Ht. unfold t_vector. by rewrite Hmk. }
  pose proof (vector_power2_round_in (dp_k (mk_params key)) (t_vector a s1 s2)) as Hr. rewrite Et in Hr.
  destruct Hr as [Hr1 Hr0]; [|done]. apply (t_vector_ok _ (dp_l (mk_params key))); [done|..];
    (eapply vec_in_ok; [apply short_coeff_ok|done]).
Qed.

Lemma pub_alloc_Ret key u key' :
  ossl_ml_dsa_key_pub_alloc key = (Ret u, key') -> key' = set_t1 (Some (uninit_vector (dp_k (mk_params key)))) key.
Proof. intros H. unfold ossl_ml_dsa_key_pub_alloc in H. by repeat km_step. Qed.
Lemma priv_alloc_Ret key u key' :
  ossl_ml_dsa_key_priv_alloc key = (Ret u, key') ->
  key' = set_secret (Some (uninit_vector (dp_l (mk_params key)))) (Some (uninit_vector (dp_k (mk_params key))))
           (Some (uninit_vector (dp_k (mk_params key)))) key.
Proof. intros H. unfold ossl_ml_dsa_key_priv_alloc in H. by repeat km_step. Qed.
Lemma hash_public_Ret key u key' :
  hash_public key = (Ret u, key') ->
  exists tr ctx, shake_xof (md256 key) (default [] (mk_pub_encoding key)) 64 = Some (tr, ctx) /\ key' = set_tr tr key.
Proof. intros H. unfold hash_public in H. repeat km_step. by eexists _, _. Qed.

Lemma shake_xof_length md inp n b ctx : 0 < n -> shake_xof md inp n = Some (b, ctx) -> zlen b = n /\ bytes_ok b.
Proof. intros Hn E. destruct (shake_xof_ok md inp n Hn) as (b' & c' & E' & ? & ?). rewrite E in E'. by injection E' as <- <-. Qed.

Lemma bytes_ok_slice b off len : bytes_ok b -> bytes_ok (slice b off len).
Proof. intros Hb. by apply Forall_take, Forall_drop. Qed.
(** A key with all its components. *)
Definition has_components (key : ML_DSA_KEY) (a : MATRIX) (s1 s2 t0 t1 : VECTOR) : Prop :=
  mparams_ok (mk_params key) /\ zlen (mk_rho key) = 32 /\ bytes_ok (mk_rho key) /\
  zlen (mk_K key) = 32 /\ bytes_ok (mk_K key) /\
  mk_s1 key = Some s1 /\ mk_s2 key = Some s2 /\ mk_t0 key = Some t0 /\ mk_t1 key = Some t1 /\
  ossl_ml_dsa_matrix_expand_A (md128 key) (mk_rho key) (uninit_matrix (dp_k (mk_params key)) (dp_l (mk_params key))) = Ret a /\
  vec_in (short (dp_eta (mk_params key))) (dp_l (mk_params key)) s1 /\
  vec_in (short (dp_eta (mk_params key))) (dp_k (mk_params key)) s2 /\
  vec_in t1_coeff (dp_k (mk_params key)) t1 /\ vec_in t0_coeff (dp_k (mk_params key)) t0 /\
  vector_power2_round (t_vector a s1 s2) = (t1, t0).

Lemma key_pair_facts key :
  key_pair key -> exists a s1 s2 t0 t1, has_components key a s1 s2 t0 t1 /\ zlen (mk_tr key) = 64 /\ bytes_ok (mk_tr key) /\
    mat_ok (dp_k (mk_params key)) (dp_l (mk_params key)) a /\
    (exists ctx, shake_xof (md256 key) (pk_encoding (mk_rho key) t1) 64 = Some (mk_tr key, ctx)) /\
    mk_pub_encoding key = Some (pk_encoding (mk_rho key) t1) /\
    mk_priv_encoding key = Some (sk_encoding (mk_params key) (mk_rho key) (mk_K key) (mk_tr key) s1 s2 t0).
Proof.
  intros (a & s1 & s2 & t0 & t1 & Hpub & HK & HKb & E1 & E2 & E0 & Ha & H1 & H2 & Hr & Hpriv).
  destruct Hpub as (Hp & Hrho & Hrb & Et & Ht1 & Epub & ctx & Hx). exists a, s1, s2, t0, t1.
  destruct (shake_xof_length _ _ 64 _ _ ltac:(lia) Hx) as [Htr Htrb]. pose proof Hp as (_ & _ & _ & _ & _ & Hk & Hl & _).
  assert (mat_ok (dp_k (mk_params key)) (dp_l (mk_params key)) a) as Hm
    by (eapply matrix_expand_A_ok; [|exact Ha]; apply uninit_matrix_ok; lia).
  assert (vec_in t0_coeff (dp_k (mk_params key)) t0) as Ht0.
  { pose proof (vector_power2_round_in (dp_k (mk_params key)) (t_vector a s1 s2)) as Hv. rewrite Hr in Hv. apply Hv.
    eapply t_vector_ok; [exact Hm|..]; (eapply vec_in_ok; [apply short_coeff_ok|done]). }
  split_and!; try done. by exists ctx.
Qed.
Lemma components_sk_length key a s1 s2 t0 t1 :
  has_components key a s1 s2 t0 t1 -> zlen (mk_tr key) = 64 ->
  zlen (sk_encoding (mk_params key) (mk_rho key) (mk_K key) (mk_tr key) s1 s2 t0) = dp_sk_len (mk_params key).
Proof.
  intros (Hp & Hr & _ & HK & _ & _ & _ & _ & _ & _ & H1 & H2 & _ & H0 & _) Htr. by apply sk_encoding_length.
Qed.

(** Encoding and hashing the public key. *)
Lemma publish_Ret key a s1 s2 t0 t1 u1 k1 u2 k2 :
  has_components key a s1 s2 t0 t1 -> ossl_ml_dsa_pk_encode key = (Ret u1, k1) -> hash_public k1 = (Ret u2, k2) ->
  exists tr ctx, shake_xof (md256 key) (pk_encoding (mk_rho key) t1) 64 = Some (tr, ctx) /\ zlen tr = 64 /\ bytes_ok tr /\
    k2 = set_tr tr (set_pub_encoding (Some (pk_encoding (mk_rho key) t1)) key).
Proof.
  intros (Hp & Hr & Hrb & HK & HKb & E1 & E2 & E0 & Et & Ha & H1 & H2 & Ht1 & Ht0 & Hround) Hpk Hh.
  rewrite (pk_encode_eq Halloc key t1) in Hpk by done. destruct (alloc_at PubEncoding); [|done]. injection Hpk as _ <-.
  apply hash_public_Ret in Hh as (tr & ctx & Hx & ->). exists tr, ctx.
  destruct (shake_xof_length _ _ 64 _ _ ltac:(lia) Hx) as [Htr Htrb]. split_and!; [exact Hx|done|done|done].
Qed.

Lemma complete_pair key a s1 s2 t0 t1 u1 k1 u2 k2 u3 k3 :
  has_components key a s1 s2 t0 t1 ->
  ossl_ml_dsa_pk_encode key = (Ret u1, k1) -> hash_public k1 = (Ret u2, k2) -> ossl_ml_dsa_sk_encode k2 = (Ret u3, k3) ->
  key_pair k3 /\ mk_params k3 = mk_params key.
Proof.
  intros Hc Hpk Hh Hsk. destruct (publish_Ret _ _ _ _ _ _ _ _ _ _ Hc Hpk Hh) as (tr & ctx & Hx & Htr & Htrb & ->).
  destruct Hc as (Hp & Hr & Hrb & HK & HKb & E1 & E2 & E0 & Et & Ha & H1 & H2 & Ht1 & Ht0 & Hround).
  rewrite (sk_encode_eq Halloc _ s1 s2 t0) in Hsk by done. destruct (alloc_at PrivEncoding); [|done]. injection Hsk as _ <-.
  split; [|done]. exists a, s1, s2, t0, t1. unfold public_ok. by split_and!; try (by eexists).
Qed.

(** Keeps the conversions below at the level of the fields. *)
#[local] Opaque uninit_vector slice shake_xof ossl_ml_dsa_vector_expand_S public_from_private
  ossl_ml_dsa_pk_encode ossl_ml_dsa_sk_encode hash_public.

(** The run of [keygen_body] up to the encodings. *)
Lemma keygen_body_Ret key u key' :
  keygen_body key = (Ret u, key') ->
  exists x ctx s1 s2 t1 t0 key4 u1 k1 u2 k2,
    shake_xof (md256 key) (slice (default [] (mk_seed key)) 0 ML_DSA_SEED_BYTES ++
      [u8 (dp_k (mk_params key)); u8 (dp_l (mk_params key))]) 128 = Some (x, ctx) /\
    ossl_ml_dsa_vector_expand_S (md256 key) (dp_eta (mk_params key)) (slice x 32 64)
      (uninit_vector (dp_l (mk_params key))) (uninit_vector (dp_k (mk_params key))) = Ret (s1, s2) /\
    mk_params key4 = mk_params key /\ mk_rho key4 = slice x 0 32 /\ mk_K key4 = slice x 96 32 /\
    mk_s1 key4 = Some s1 /\ mk_s2 key4 = Some s2 /\ public_from_private key4 = Ret (t1, t0) /\
    ossl_ml_dsa_pk_encode (set_t1 (Some t1) (set_t0 (Some t0) key4)) = (Ret u1, k1) /\
    hash_public k1 = (Ret u2, k2) /\ ossl_ml_dsa_sk_encode k2 = (Ret u, key').
Proof.
  intros H. unfold keygen_body in H. repeat km_step. apply pub_alloc_Ret in E1 as ->. apply priv_alloc_Ret in E2 as ->.
  eexists l, e, l0, l1, l2, l3, _, a6, k0, a7, k3. split_and!; [exact E4|exact E5| | | | | |exact E3|exact E0|exact E6|exact H]; reflexivity.
Qed.

Lemma keygen_body_pair key u key' :
  mparams_ok (mk_params key) -> keygen_body key = (Ret u, key') -> key_pair key' /\ mk_params key' = mk_params key.
Proof.
  intros Hp H. pose proof Hp as (He & _ & _ & _ & _ & Hk & Hl & _).
  apply keygen_body_Ret in H as (x & ctx & s1 & s2 & t1 & t0 & k4 & u1 & k1 & u2 & k2 & Hx & HS & Ep & Er & EK & Es1 & Es2 & Hpub & Hpk & Hh & Hsk).
  destruct (shake_xof_length _ _ 128 _ _ ltac:(lia) Hx) as [Hxl Hxb].
  assert (0 <= dp_eta (mk_params key)) as He0 by (destruct He as [-> | ->]; by vm_compute).
  edestruct vector_expand_S_ok as [H1 H2]; [exact He| | |exact HS|];
    [apply (uninit_vector_ok (dp_l (mk_params key))); lia|apply (uninit_vector_ok (dp_k (mk_params key))); lia|].
  rewrite <- Ep in *.
  destruct (public_from_private_inv k4 s1 s2 t1 t0) as (a & Ha & Hm & Hround & Ht1 & Ht0); [done..|].
  assert (has_components (set_t1 (Some t1) (set_t0 (Some t0) k4)) a s1 s2 t0 t1) as Hc.
  { unfold has_components. cbn [mk_params mk_rho mk_K mk_s1 mk_s2 mk_t0 mk_t1 set_t1 set_t0].
    rewrite Er, EK, Es1, Es2. rewrite Er in Ha. split_and!; try done;
      [apply slice_length; lia|by apply bytes_ok_slice|apply slice_length; lia|by apply bytes_ok_slice]. }
  destruct (complete_pair _ _ _ _ _ _ _ _ _ _ _ _ Hc Hpk Hh Hsk) as [Hpair Epar]. split; [done|exact Epar].
Qed.

Lemma has_Some {A} (x : A) : has (Some x) = true.
Proof. done. Qed.
Lemma has_None {A} : has (@None A) = false.
Proof. done. Qed.
Lemma drop_seed_pair key : key_pair key -> key_pair (set_seed None key).
Proof. done. Qed.

Lemma keygen_internal_pair key u key' :
  mparams_ok (mk_params key) -> keygen_internal key = (Ret u, key') -> key_pair key' /\ mk_params key' = mk_params key.
Proof.
  intros Hp. unfold keygen_internal. destruct (keygen_body key) as [r out] eqn:E. intros [= -> <-].
  destruct (keygen_body_pair _ _ _ Hp E) as [H1 H2]. by destruct (_ && _).
Qed.

Lemma generate_key_pair key u key' :
  mparams_ok (mk_params key) -> ossl_ml_dsa_generate_key key = (Ret u, key') ->
  key_pair key' /\ mk_params key' = mk_params key /\
  (forall sk, mk_priv_encoding key = Some sk -> zlen sk = dp_sk_len (mk_params key) -> mk_priv_encoding key' = Some sk).
Proof.
  intros Hp H. unfold ossl_ml_dsa_generate_key in H. repeat km_step.
  assert (mk_params k0 = mk_params key /\ mk_priv_encoding k0 = mk_priv_encoding key) as [Ep Es].
  { destruct (has (mk_seed key)); by repeat km_step. }
  destruct (mk_priv_encoding key) as [sk|].
  - repeat km_step. apply keygen_internal_pair in E as [Hpair Epar]; [|by cbn; rewrite Ep].
    cbn in Epar. case_bool_decide as Hsl; [|by repeat km_step]. km_step.
    split_and!; [done|congruence|]. intros sk' [= <-] Hlen.
    destruct (key_pair_facts _ Hpair) as (a' & s1 & s2 & t0 & t1 & Hc & Htr & _ & _ & _ & _ & Hpriv).
    pose proof (components_sk_length _ _ _ _ _ _ Hc Htr) as Hl.
    rewrite Hpriv in Hsl |- *. change (default [] (Some ?x)) with x in Hsl.
    rewrite !slice_whole in Hsl by congruence. by rewrite Hsl.
  - apply keygen_internal_pair in H as [Hpair Epar]; [|by cbn; rewrite Ep]. cbn in Epar. split_and!; [done|congruence|done].
Qed.

(** ** Decoding *)

Lemma copy_bytes_inv pkt l n b pkt' :
  0 <= n -> pkt_rep pkt l -> PACKET_copy_bytes pkt n = Some (b, pkt') ->
  exists rest, l = b ++ rest /\ zlen b = n /\ pkt_rep pkt' rest.
Proof.
  intros Hn Hrep E. change (PACKET_get_bytes pkt n = Some (b, pkt')) in E.
  pose proof (PACKET_get_bytes_reads n Hn pkt l Hrep) as H. unfold split_front in H.
  destruct (Z.ltb_spec (zlen l) n); [by rewrite E in H|]. destruct H as (pkt1 & E1 & Hrep1). rewrite E in E1.
  injection E1 as -> ->. exists (drop (Z.to_nat n) l). rewrite take_drop. split_and!; [done| |done].
  unfold zlen in *. rewrite length_take. lia.
Qed.
Lemma buf_init_inv inp pkt : PACKET_buf_init inp 0 (zlen inp) = Some pkt -> pkt_rep pkt inp.
Proof.
  unfold PACKET_buf_init. pose proof (zlen_nonneg inp). destruct (Z.ltb_spec (SIZE_MAX / 2) (zlen inp)); [done|]. intros [= <-].
  destruct (pkt_buf_init_rep inp 0 (zlen inp) inp) as (p & E & Hrep); [lia..|by rewrite slice_whole|].
  unfold PACKET_buf_init in E. destruct (Z.ltb_spec (SIZE_MAX / 2) (zlen inp)); [lia|]. by injection E as <-.
Qed.
Lemma vector_equal_spec (a b : VECTOR) : vector_equal a b = true -> a = b.
Proof.
  unfold vector_equal. destruct (Z.eqb_spec (zlen a) (zlen b)) as [Hl|]; [|done]. cbn [negb]. unfold zlen in Hl.
  revert b Hl. induction a as [|x a IH]; intros [|y b] Hl; [done|cbn in Hl; lia..|]. cbn [zip zip_with forallb].
  unfold poly_equal at 1. intros [->%bool_decide_eq_true Hf]%andb_true_iff. f_equal. apply IH; [cbn in Hl; lia|done].
Qed.
Lemma vector_equal_refl (a : VECTOR) : vector_equal a a = true.
Proof.
  unfold vector_equal. rewrite Z.eqb_refl. cbn [negb]. induction a as [|x a IH]; [done|]. cbn [zip zip_with forallb].
  unfold poly_equal at 1. by rewrite bool_decide_true.
Qed.

Lemma s_vec_in params n v :
  mparams_ok params -> Forall (codable (mod_sub (dp_eta params)) (s_bits params) (2 * dp_eta params)) v -> zlen v = n ->
  vec_in (short (dp_eta params)) n v.
Proof. intros Hp Hv Hl. split; [done|]. eapply Forall_impl; [exact Hv|]. intros p. by rewrite s_codable. Qed.
Lemma t0_vec_in n v : Forall (codable (mod_sub (2 ^ 12)) 13 8191) v -> zlen v = n -> vec_in t0_coeff n v.
Proof. intros Hv Hl. split; [done|]. eapply Forall_impl; [exact Hv|]. intros p. by rewrite t0_codable. Qed.
Lemma t1_vec_in n v : Forall (codable id 10 1023) v -> zlen v = n -> vec_in t1_coeff n v.
Proof. intros Hv Hl. split; [done|]. eapply Forall_impl; [exact Hv|]. intros p. by rewrite t1_codable. Qed.

(** The run of [ossl_ml_dsa_sk_decode] up to the check of the public key. *)
Lemma sk_decode_Ret key in_is_priv inp u key' :
  mparams_ok (mk_params key) -> bytes_ok inp -> (in_is_priv = true -> mk_priv_encoding key = Some inp) ->
  ossl_ml_dsa_sk_decode in_is_priv inp key = (Ret u, key') ->
  exists rho K tr s1 s2 t0 k2,
    inp = sk_encoding (mk_params key) rho K tr s1 s2 t0 /\ zlen rho = 32 /\ zlen K = 32 /\ zlen tr = 64 /\
    vec_in (short (dp_eta (mk_params key))) (dp_l (mk_params key)) s1 /\
    vec_in (short (dp_eta (mk_params key))) (dp_k (mk_params key)) s2 /\ vec_in t0_coeff (dp_k (mk_params key)) t0 /\
    mk_params k2 = mk_params key /\ mk_rho k2 = rho /\ mk_K k2 = K /\ mk_s1 k2 = Some s1 /\ mk_s2 k2 = Some s2 /\
    mk_t0 k2 = Some t0 /\ mk_priv_encoding k2 = Some inp /\ mk_seed k2 = None /\
    check_public tr k2 = (Ret u, key').
Proof.
  intros Hp Hok Hin H. unfold ossl_ml_dsa_sk_decode in H. repeat km_step. cbn [mk_params set_seed mk_priv_encoding mk_pub_encoding] in *.
  pose proof Hp as (_ & _ & _ & _ & _ & Hk & Hl & _). destruct (eta_facts _ Hp) as (He1 & Hb & He3 & He4 & He5).
  apply priv_alloc_Ret in E3 as ->. apply buf_init_inv in E4.
  destruct (copy_bytes_inv a4 inp 32 l p ltac:(lia) E4 E5) as (r1 & Ei1 & Hrho & Hrep1).
  destruct (copy_bytes_inv p r1 32 l0 p0 ltac:(lia) Hrep1 E0) as (r2 & Ei2 & HK & Hrep2).
  destruct (copy_bytes_inv p0 r2 64 l1 p1 ltac:(lia) Hrep2 E1) as (r3 & Ei3 & Htr & Hrep3).
  assert (bytes_ok r3) as Hok3 by (unfold bytes_ok in *; rewrite Ei1, Ei2, Ei3, !Forall_app in Hok; tauto).
  pose proof (s_decodes (mk_params key) Hp) as Hsd.
  assert (Decodes poly_decode_signed_two_to_power_12 (mod_sub (2 ^ 12)) 13 8191) as Htd by (exact decodes_signed_12).
  assert (forall x, is_digit (s_bits (mk_params key)) x -> mod_sub (dp_eta (mk_params key)) (mod_sub (dp_eta (mk_params key)) x) = x) as Hsi
    by (by apply signed_invol).
  assert (forall x, is_digit 13 x -> mod_sub (2 ^ 12) (mod_sub (2 ^ 12) x) = x) as Hti by (apply signed_invol; lia).
  destruct (decode_polys_inv _ _ _ Hb _ _ _ _ _ _ Hsi Hok3 Hrep3 E) as (r4 & Ei4 & Hs1 & Hl1 & Hrep4).
  assert (bytes_ok r4) as Hok4 by (unfold bytes_ok in *; rewrite Ei4, !Forall_app in Hok3; tauto).
  destruct (decode_polys_inv _ _ _ Hb _ _ _ _ _ _ Hsi Hok4 Hrep4 E6) as (r5 & Ei5 & Hs2 & Hl2 & Hrep5).
  assert (bytes_ok r5) as Hok5 by (unfold bytes_ok in *; rewrite Ei5, !Forall_app in Hok4; tauto).
  destruct (decode_polys_inv (mod_sub (2 ^ 12)) 13 8191 ltac:(lia) _ _ _ _ _ _ Hti Hok5 Hrep5 E7) as (r6 & Ei6 & Ht0 & Hl0 & Hrep6).
  rewrite (pkt_rep_remaining _ _ Hrep6) in H2. apply Z.eqb_eq, zlen_zero_nil in H2. rewrite H2, app_nil_r in Ei6.
  assert (inp = sk_encoding (mk_params key) l l0 l1 l2 l3 l4) as Ei by (rewrite Ei1, Ei2, Ei3, Ei4, Ei5, Ei6; reflexivity).
  assert (mk_params k2 = mk_params key /\ mk_rho k2 = l /\ mk_K k2 = l0 /\ mk_s1 k2 = Some l2 /\ mk_s2 k2 = Some l3 /\
    mk_t0 k2 = Some l4 /\ mk_priv_encoding k2 = Some inp /\ mk_seed k2 = None) as Hf.
  { match type of E10 with (if has ?e then _ else _) _ = _ => change e with (mk_priv_encoding key) in E10 end.
    destruct (mk_priv_encoding key) as [x|] eqn:Ex; rewrite ?has_Some, ?has_None in E10.
    - destruct in_is_priv; [|done]. repeat km_step. specialize (Hin eq_refl). split_and!; try reflexivity. cbn. by rewrite Ex.
    - repeat km_step. by split_and!. }
  exists l, l0, l1, l2, l3, l4, k2. split; [exact Ei|]. clear Ei. split_and!; try done; try apply Hf.
  - eapply s_vec_in; [done|done|unfold zlen; lia].
  - eapply s_vec_in; [done|done|unfold zlen; lia].
  - eapply t0_vec_in; [done|unfold zlen; lia].
Qed.

(** Every private key that is accepted is a genuine pair. *)
Lemma sk_decode_pair key in_is_priv inp u key' :
  mparams_ok (mk_params key) -> bytes_ok inp -> (in_is_priv = true -> mk_priv_encoding key = Some inp) ->
  ossl_ml_dsa_sk_decode in_is_priv inp key = (Ret u, key') ->
  key_pair key' /\ mk_params key' = mk_params key /\ mk_priv_encoding key' = Some inp /\ mk_seed key' = None.
Proof.
  intros Hp Hok Hin H.
  apply sk_decode_Ret in H as (rho & K & tr & s1 & s2 & t0 & k2 & Hinp & Hr & HK & Htr & H1 & H2 & H0 & Ep & Er & EK & E1 & E2 & E0 & Epriv & Eseed & H); [|done..].
  unfold check_public in H. destruct (ossl_ml_dsa_key_public_from_private k2) as [[v| |] k3] eqn:Epub; [|done..].
  case_bool_decide as Etr; [|done]. injection H as _ <-. unfold ossl_ml_dsa_key_public_from_private in Epub.
  repeat km_step. apply pub_alloc_Ret in E4 as ->. rewrite <- Ep in *.
  destruct (public_from_private_inv _ s1 s2 _ _ Hp E1 E2 H1 H2 E6) as (a' & Ha & _ & Hround & Ht1 & Ht0).
  apply vector_equal_spec in H4. change (vec (mk_t0 _)) with (vec (mk_t0 k2)) in H4. rewrite E0 in H4. cbn [vec] in H4. subst l0.
  assert (bytes_ok (mk_rho k2) /\ bytes_ok (mk_K k2)) as [Hrb HKb]
    by (unfold bytes_ok, sk_encoding in Hok |- *; rewrite !Forall_app in Hok; tauto).
  match type of E5 with ossl_ml_dsa_pk_encode ?k = _ => assert (has_components k a' s1 s2 t0 l) as Hc end.
  { unfold has_components. by split_and!. }
  destruct (publish_Ret _ _ _ _ _ _ _ _ _ _ Hc E5 Epub) as (tr & ctx & Hx & _ & _ & E3). clear E5 Epub E6 Hc.
  rewrite E3 in *. cbn [mk_tr set_tr] in *. split_and!; [|done|exact Epriv|exact Eseed].
  exists a', s1, s2, t0, l. unfold public_ok. split_and!; try done. by exists ctx.
Qed.

(** ** Round trips *)

Lemma km_bind_eq {A B} (m : KM A) (f : A -> KM B) k a k1 : m k = (Ret a, k1) -> (m ≫= f) k = f a k1.
Proof. intros E. unfold mbind, KM_bind. by rewrite E. Qed.
Lemma kget_bind {B} (f : ML_DSA_KEY -> KM B) k : (kget ≫= f) k = f k k.
Proof. done. Qed.
Lemma kset_bind {B} g (f : unit -> KM B) k : (kset g ≫= f) k = f tt (g k).
Proof. done. Qed.
Lemma kcheck_bind {B} (f : unit -> KM B) k : (kcheck true ≫= f) k = f tt k.
Proof. done. Qed.
Lemma klift_bind {A B} (a : A) (f : A -> KM B) k : (klift (of_option (Some a)) ≫= f) k = f a k.
Proof. done. Qed.
Lemma kret_bind {A B} (a : A) (f : A -> KM B) k : ((mret a : KM A) ≫= f) k = f a k.
Proof. done. Qed.
Create Rewrite HintDb km.
#[local] Hint Rewrite @kget_bind @kset_bind @kcheck_bind @klift_bind @kret_bind @has_Some @has_None : km.
(** Evaluate a run as far as the results of its steps are known. *)
Ltac km_run := repeat (autorewrite with km; cbv beta iota zeta).

(** A key object that holds nothing yet, for the same algorithms as [key]. *)
Definition fresh_for (key f : ML_DSA_KEY) : Prop :=
  mk_params f = mk_params key /\ md128 f = md128 key /\ md256 f = md256 key /\
  mk_pub_encoding f = None /\ mk_priv_encoding f = None /\ mk_t1 f = None /\ mk_s1 f = None.
Definition same_public (key f : ML_DSA_KEY) : Prop :=
  mk_rho f = mk_rho key /\ mk_tr f = mk_tr key /\ mk_t1 f = mk_t1 key /\ mk_pub_encoding f = mk_pub_encoding key.
Definition same_private (key f : ML_DSA_KEY) : Prop :=
  mk_K f = mk_K key /\ mk_s1 f = mk_s1 key /\ mk_s2 f = mk_s2 key /\ mk_t0 f = mk_t0 key /\
  mk_priv_encoding f = mk_priv_encoding key.

Lemma buf_init_ok inp : zlen inp < 65536 -> exists pkt, PACKET_buf_init inp 0 (zlen inp) = Some pkt /\ pkt_rep pkt inp.
Proof.
  intros Hl. pose proof (zlen_nonneg inp). apply pkt_buf_init_rep; [lia|lia|unfold SIZE_MAX; dlia|by rewrite slice_whole].
Qed.
Lemma pub_alloc_run key :
  (forall s, alloc_at s = true) -> mk_t1 key = None ->
  ossl_ml_dsa_key_pub_alloc key = (Ret tt, set_t1 (Some (uninit_vector (dp_k (mk_params key)))) key).
Proof.
  intros Hs Ht. unfold ossl_ml_dsa_key_pub_alloc. km_run. rewrite Ht, Hs. done.
Qed.
Lemma priv_alloc_run key :
  (forall s, alloc_at s = true) -> mk_s1 key = None ->
  ossl_ml_dsa_key_priv_alloc key = (Ret tt, set_secret (Some (uninit_vector (dp_l (mk_params key))))
    (Some (uninit_vector (dp_k (mk_params key)))) (Some (uninit_vector (dp_k (mk_params key)))) key).
Proof.
  intros Hs Ht. unfold ossl_ml_dsa_key_priv_alloc. km_run. rewrite Ht, Hs. done.
Qed.

Lemma pk_decode_run key t1 f :
  (forall s, alloc_at s = true) -> public_ok key t1 -> fresh_for key f ->
  exists f', ossl_ml_dsa_pk_decode (pk_encoding (mk_rho key) t1) f = (Ret tt, f') /\ same_public key f' /\
    mk_params f' = mk_params key /\ md128 f' = md128 key /\ md256 f' = md256 key.
Proof.
  intros Hal (Hp & Hr & Hrb & Et1 & Ht1 & Epub & ctx & Hx) (Fp & F128 & F256 & Fpub & Fpriv & Ft1 & Fs1).
  pose proof (pk_encoding_length _ _ _ Hp Hr Ht1) as Hlen. pose proof (mparams_lens _ Hp) as (_ & Hpk & _).
  pose proof Hp as (_ & _ & _ & _ & _ & Hk & _). pose proof ctx_new_ok as Hctx.
  set (inp := pk_encoding (mk_rho key) t1) in *.
  destruct (buf_init_ok inp ltac:(lia)) as (pkt & Ebuf & Hrep). unfold inp, pk_encoding in Hrep.
  destruct (PACKET_get_bytes_app _ _ _ 32 Hrep Hr) as (pkt1 & E1 & Hrep1). change (PACKET_get_bytes pkt 32) with (PACKET_copy_bytes pkt 32) in E1.
  rewrite <- (app_nil_r (vec_encoding _ _ _)) in Hrep1. pose proof decodes_10_bits as Hd.
  destruct (decode_polys_app id 10 1023 ltac:(lia) poly_decode_10_bits t1 pkt1 [] (vec_in_t1 _ _ Ht1) Hrep1) as (pkt2 & E2 & _).
  assert (has EVP_MD_CTX_new = true) as Hc by (by apply bool_decide_true).
  unfold ossl_ml_dsa_pk_decode. km_run. rewrite Fpub, Fpriv, Hlen, Fp, Z.eqb_refl. km_run. cbn [orb negb]. km_run.
  rewrite (km_bind_eq _ _ _ _ _ (pub_alloc_run f Hal Ft1)), Hc, <- Hlen, Ebuf. km_run.
  change ML_DSA_RHO_BYTES with 32. rewrite E1. km_run. cbn [mk_t1 set_rho set_t1 vec mk_params].
  replace (length (uninit_vector (dp_k (mk_params f)))) with (length t1)
    by (pose proof (uninit_vector_ok (dp_k (mk_params key)) ltac:(lia)) as [[Hu _] _]; destruct Ht1 as [Hu1 _]; rewrite Fp; unfold zlen in *; lia).
  rewrite E2. km_run. change (md256 (set_rho _ _)) with (md256 f). rewrite F256. change ML_DSA_TR_BYTES with 64. rewrite Hx. km_run.
  rewrite Hal. km_run. eexists. split; [reflexivity|]. unfold same_public. cbn. by rewrite Et1, Epub.
Qed.

Lemma public_from_private_run key f a s1 s2 t0 t1 :
  (forall s, alloc_at s = true) -> has_components key a s1 s2 t0 t1 -> mk_params f = mk_params key -> md128 f = md128 key ->
  mk_rho f = mk_rho key -> mk_s1 f = Some s1 -> mk_s2 f = Some s2 -> public_from_private f = Ret (t1, t0).
Proof.
  intros Hal Hc Fp F128 Frho F1 F2. destruct Hc as (Hp & _ & _ & _ & _ & _ & _ & _ & _ & Ha & _ & _ & _ & _ & Hround).
  pose proof Hp as (_ & _ & _ & _ & _ & Hk & Hl & _).
  assert (m_k a = dp_k (mk_params key)) as Hm by (eapply matrix_expand_A_ok; [|exact Ha]; apply uninit_matrix_ok; lia).
  Transparent public_from_private. unfold public_from_private. Opaque public_from_private.
  rewrite Hal, Fp, F128, Frho, F1, F2. cbn [check mbind res_bind vec].
  rewrite Ha. cbn [mbind res_bind]. unfold t_vector in Hround. rewrite Hm in Hround. by rewrite Hround.
Qed.

Lemma hash_public_run f x tr ctx :
  mk_pub_encoding f = Some x -> shake_xof (md256 f) x 64 = Some (tr, ctx) -> hash_public f = (Ret tt, set_tr tr f).
Proof.
  intros Hx E. Transparent hash_public. unfold hash_public. Opaque hash_public. km_run. rewrite Hx.
  change (default [] (Some x)) with x. change ML_DSA_TR_BYTES with 64. rewrite E. km_run. done.
Qed.

Lemma check_public_run key f a s1 s2 t0 t1 ctx :
  (forall s, alloc_at s = true) -> has_components key a s1 s2 t0 t1 ->
  shake_xof (md256 key) (pk_encoding (mk_rho key) t1) 64 = Some (mk_tr key, ctx) ->
  mk_params f = mk_params key -> md128 f = md128 key -> md256 f = md256 key -> mk_rho f = mk_rho key ->
  mk_s1 f = Some s1 -> mk_s2 f = Some s2 -> mk_t0 f = Some t0 -> mk_t1 f = None ->
  check_public (mk_tr key) f =
  (Ret tt, set_tr (mk_tr key) (set_pub_encoding (Some (pk_encoding (mk_rho key) t1)) (set_t1 (Some t1) (set_t1 (Some (uninit_vector (dp_k (mk_params f)))) f)))).
Proof.
  intros Hal Hc Hx Fp F128 F256 Frho F1 F2 F0 Ft1. assert (has EVP_MD_CTX_new = true) as Hn by (apply bool_decide_true, ctx_new_ok).
  unfold check_public, ossl_ml_dsa_key_public_from_private. rewrite !Hal, Hn. km_run.
  rewrite (km_bind_eq _ _ _ _ _ (pub_alloc_run f Hal Ft1)). km_run. set (f1 := set_t1 _ f).
  rewrite (public_from_private_run key f1 a s1 s2 t0 t1) by done. change (klift (Ret ?x)) with (klift (of_option (Some x))). km_run.
  change (mk_t0 f1) with (mk_t0 f). rewrite F0. cbn [vec]. rewrite vector_equal_refl. km_run.
  destruct Hc as (Hp & Hr & _ & _ & _ & _ & _ & _ & _ & _ & _ & _ & Ht1 & _).
  assert (ossl_ml_dsa_pk_encode (set_t1 (Some t1) f1) =
    (Ret tt, set_pub_encoding (Some (pk_encoding (mk_rho key) t1)) (set_t1 (Some t1) f1))) as Epk.
  { rewrite (pk_encode_eq Halloc _ t1), Hal; [change (mk_rho (set_t1 _ f1)) with (mk_rho f); by rewrite Frho|..];
      change (mk_params (set_t1 _ f1)) with (mk_params f); change (mk_rho (set_t1 _ f1)) with (mk_rho f); rewrite ?Fp, ?Frho; done. }
  rewrite (km_bind_eq _ _ _ _ _ Epk). set (f2 := set_pub_encoding _ _).
  rewrite (hash_public_run f2 (pk_encoding (mk_rho key) t1) (mk_tr key) ctx); [|done|change (md256 f2) with (md256 f); by rewrite F256].
  cbn [mk_tr set_tr]. by rewrite bool_decide_true.
Qed.

Lemma get_bytes_step pkt d rest n :
  pkt_rep pkt (d ++ rest) -> zlen d = n -> exists pkt', PACKET_copy_bytes pkt n = Some (d, pkt') /\ pkt_rep pkt' rest.
Proof. apply PACKET_get_bytes_app. Qed.

Lemma sk_decode_run key f sk :
  (forall s, alloc_at s = true) -> key_pair key -> fresh_for key f -> mk_priv_encoding key = Some sk ->
  exists f', ossl_ml_dsa_sk_decode false sk f = (Ret tt, f') /\ same_public key f' /\ same_private key f' /\ mk_params f' = mk_params key.
Proof.
  intros Hal Hpair (Fp & F128 & F256 & Fpub & Fpriv & Ft1 & Fs1) Esk.
  destruct (key_pair_facts _ Hpair) as (a & s1 & s2 & t0 & t1 & Hc & Htr & Htrb & Hm & [ctx Hx] & Epub & Epriv).
  rewrite Esk in Epriv. injection Epriv as Epriv. pose proof (components_sk_length _ _ _ _ _ _ Hc Htr) as Hlen. rewrite <- Epriv in Hlen.
  pose proof Hc as (Hp & Hr & Hrb & HK & HKb & E1 & E2 & E0 & Et1 & Ha & H1 & H2 & Ht1 & Ht0 & Hround).
  pose proof (mparams_lens _ Hp) as (_ & _ & Hsk). destruct (eta_facts _ Hp) as (_ & Hb & _).
  destruct (buf_init_ok sk ltac:(lia)) as (pkt & Ebuf & Hrep). rewrite Epriv in Hrep. unfold sk_encoding in Hrep.
  destruct (get_bytes_step _ _ _ 32 Hrep Hr) as (pkt1 & B1 & Hrep1).
  destruct (get_bytes_step _ _ _ 32 Hrep1 HK) as (pkt2 & B2 & Hrep2).
  destruct (get_bytes_step _ _ _ 64 Hrep2 Htr) as (pkt3 & B3 & Hrep3).
  pose proof (s_decodes (mk_params key) Hp) as Hsd. set (fn := if _ =? _ then _ else _) in Hsd.
  assert (Decodes poly_decode_signed_two_to_power_12 (mod_sub (2 ^ 12)) 13 8191) as Htd by (exact decodes_signed_12).
  destruct (decode_polys_app _ _ _ Hb fn s1 pkt3 _ (vec_in_s _ _ _ Hp H1) Hrep3) as (pkt4 & B4 & Hrep4).
  destruct (decode_polys_app _ _ _ Hb fn s2 pkt4 _ (vec_in_s _ _ _ Hp H2) Hrep4) as (pkt5 & B5 & Hrep5).
  unfold t0_encoding in Hrep5. rewrite <- (app_nil_r (vec_encoding _ _ _)) in Hrep5.
  destruct (decode_polys_app (mod_sub (2 ^ 12)) 13 8191 ltac:(lia) _ t0 pkt5 [] (vec_in_t0 _ _ Ht0) Hrep5) as (pkt6 & B6 & Hrep6).
  unfold ossl_ml_dsa_sk_decode. km_run. cbn [mk_priv_encoding mk_pub_encoding mk_params set_seed]. rewrite Fpub, Fpriv, Fp, Hlen, Z.eqb_refl.
  km_run. cbn [andb orb negb]. km_run. fold fn.
  rewrite (km_bind_eq _ _ _ _ _ (priv_alloc_run (set_seed None f) Hal Fs1)), <- Hlen, Ebuf. km_run.
  change ML_DSA_RHO_BYTES with 32. change ML_DSA_K_BYTES with 32. change ML_DSA_TR_BYTES with 64. rewrite B1. km_run. rewrite B2. km_run. rewrite B3. km_run.
  replace (Z.to_nat (dp_l (mk_params key))) with (length s1) by (destruct H1 as [H1 _]; unfold zlen in H1; lia).
  replace (Z.to_nat (dp_k (mk_params key))) with (length s2) by (destruct H2 as [H2 _]; unfold zlen in H2; lia).
  rewrite B4. km_run. rewrite B5. km_run.
  replace (length s2) with (length t0) by (destruct H2 as [H2 _], Ht0 as [H0 _]; unfold zlen in *; lia).
  rewrite B6. km_run. rewrite (pkt_rep_remaining _ _ Hrep6). change (zlen [] =? 0) with true. km_run.
  match goal with |- context [has (mk_priv_encoding ?k)] => change (mk_priv_encoding k) with (mk_priv_encoding f); set (f1 := k) end.
  rewrite Fpriv. km_run. rewrite Hal.
  rewrite (km_bind_eq _ _ _ tt (set_priv_encoding (Some sk) f1)) by done.
  rewrite (check_public_run key _ a s1 s2 t0 t1 ctx) by done.
  eexists. split; [reflexivity|]. unfold same_public, same_private. cbn. by rewrite E1, E2, E0, Et1, Epub, Esk.
Qed.

(** ** Generation succeeds *)

(** The components of a key generated from [x = rho || rho' || K]. *)
Definition generated_key (key : ML_DSA_KEY) (x : list Z) (s1 s2 t1 t0 : VECTOR) (tr : list Z) : ML_DSA_KEY :=
  let k := set_tr tr (set_pub_encoding (Some (pk_encoding (slice x 0 32) t1)) (set_t1 (Some t1) (set_secret (Some s1) (Some s2) (Some t0)
             (set_K (slice x 96 32) (set_rho (slice x 0 32) key))))) in
  set_priv_encoding (Some (sk_encoding (mk_params key) (slice x 0 32) (slice x 96 32) tr s1 s2 t0)) k.

Lemma keygen_body_run key seed x ctx s1 s2 a t1 t0 tr ctx' :
  (forall s, alloc_at s = true) -> mparams_ok (mk_params key) ->
  mk_seed key = Some seed -> mk_t1 key = None -> mk_s1 key = None ->
  shake_xof (md256 key) (slice seed 0 32 ++ [u8 (dp_k (mk_params key)); u8 (dp_l (mk_params key))]) 128 = Some (x, ctx) ->
  ossl_ml_dsa_vector_expand_S (md256 key) (dp_eta (mk_params key)) (slice x 32 64)
    (uninit_vector (dp_l (mk_params key))) (uninit_vector (dp_k (mk_params key))) = Ret (s1, s2) ->
  ossl_ml_dsa_matrix_expand_A (md128 key) (slice x 0 32) (uninit_matrix (dp_k (mk_params key)) (dp_l (mk_params key))) = Ret a ->
  vector_power2_round (t_vector a s1 s2) = (t1, t0) ->
  shake_xof (md256 key) (pk_encoding (slice x 0 32) t1) 64 = Some (tr, ctx') ->
  keygen_body key = (Ret tt, generated_key key x s1 s2 t1 t0 tr).
Proof.
  intros Hal Hp Hseed Ft1 Fs1 Hx HS HA Hround Htr. pose proof Hp as (He & _ & _ & _ & _ & Hk & Hl & _).
  destruct (shake_xof_length _ _ 128 _ _ ltac:(lia) Hx) as [Hxl Hxb].
  destruct (shake_xof_length _ _ 64 _ _ ltac:(lia) Htr) as [Htrl Htrb].
  assert (0 <= dp_eta (mk_params key)) as He0 by (destruct He as [-> | ->]; by vm_compute).
  edestruct vector_expand_S_ok as [H1 H2]; [exact He| | |exact HS|];
    [apply (uninit_vector_ok (dp_l (mk_params key))); lia|apply (uninit_vector_ok (dp_k (mk_params key))); lia|].
  assert (mat_ok (dp_k (mk_params key)) (dp_l (mk_params key)) a) as Hm
    by (eapply matrix_expand_A_ok; [|exact HA]; apply uninit_matrix_ok; lia).
  pose proof (vector_power2_round_in (dp_k (mk_params key)) (t_vector a s1 s2)) as Hr. rewrite Hround in Hr.
  destruct Hr as [Ht1 Ht0]; [apply (t_vector_ok _ (dp_l (mk_params key))); [done|..]; (eapply vec_in_ok; [apply short_coeff_ok|done])|].
  assert (has EVP_MD_CTX_new = true) as Hn by (apply bool_decide_true, ctx_new_ok).
  assert (zlen (slice x 0 32) = 32 /\ zlen (slice x 96 32) = 32) as [Hrl HKl] by (split; apply slice_length; lia).
  unfold keygen_body. km_run. rewrite Hseed, Hn. km_run. cbn [andb]. km_run.
  rewrite (km_bind_eq _ _ _ _ _ (pub_alloc_run key Hal Ft1)). set (k1 := set_t1 _ key).
  rewrite (km_bind_eq _ _ _ _ _ (priv_alloc_run k1 Hal Fs1)). km_run.
  change (mk_seed (set_secret _ _ _ k1)) with (mk_seed key). rewrite Hseed. cbn [default from_option id].
  change ML_DSA_SEED_BYTES with 32. change (ML_DSA_RHO_BYTES + ML_DSA_PRIV_SEED_BYTES + ML_DSA_K_BYTES) with 128.
  change (md256 (set_secret _ _ _ k1)) with (md256 key). change (mk_params (set_secret _ _ _ k1)) with (mk_params key). rewrite Hx. km_run.
  change ML_DSA_RHO_BYTES with 32. change ML_DSA_PRIV_SEED_BYTES with 64. change ML_DSA_K_BYTES with 32. change (32 + 64) with 96.
  match goal with |- context [klift (ossl_ml_dsa_vector_expand_S ?m ?e ?s ?v1 ?v2)] =>
    change (ossl_ml_dsa_vector_expand_S m e s v1 v2) with (ossl_ml_dsa_vector_expand_S (md256 key) (dp_eta (mk_params key)) (slice x 32 64)
      (uninit_vector (dp_l (mk_params key))) (uninit_vector (dp_k (mk_params key)))) end.
  rewrite HS. change (klift (Ret ?y)) with (klift (of_option (Some y))). km_run.
  match goal with |- context [public_from_private ?k] => set (k4 := k) end.
  assert (has_components (set_t1 (Some t1) (set_t0 (Some t0) k4)) a s1 s2 t0 t1) as Hc.
  { unfold has_components. cbn. split_and!; try done; by apply bytes_ok_slice. }
  rewrite (public_from_private_run _ k4 a s1 s2 t0 t1 Hal Hc) by done. change (klift (Ret ?y)) with (klift (of_option (Some y))). km_run.
  set (k5 := set_t1 _ (set_t0 _ k4)) in *. pose proof (pk_encode_eq Halloc k5 t1) as Epk. rewrite Hal in Epk.
  rewrite (km_bind_eq _ _ _ _ _ (Epk Hp Hrl eq_refl Ht1)). set (k6 := set_pub_encoding _ _).
  assert (hash_public k6 = (Ret tt, set_tr tr k6)) as Eh by (by apply (hash_public_run k6 (pk_encoding (slice x 0 32) t1) tr ctx')).
  rewrite (km_bind_eq _ _ _ _ _ Eh). pose proof (sk_encode_eq Halloc (set_tr tr k6) s1 s2 t0) as Esk. rewrite Hal in Esk.
  rewrite Esk by done. reflexivity.
Qed.

Lemma keygen_internal_run key key' :
  keygen_body key = (Ret tt, key') -> mk_seed key' = mk_seed key -> mk_prov_flags key' = mk_prov_flags key ->
  keygen_internal key = (Ret tt, if has (mk_seed key) && (Z.land (mk_prov_flags key) ML_DSA_KEY_RETAIN_SEED =? 0)
                                 then set_seed None key' else key').
Proof. intros E Es Ef. unfold keygen_internal. by rewrite E, Es, Ef. Qed.

(** The seed a key generation starts from. *)
Definition starting_seed (key : ML_DSA_KEY) : option (list Z) :=
  match mk_seed key with Some s => Some s | None => RAND_priv_seed end.

Lemma generate_key_run key seed key' :
  (forall s, alloc_at s = true) -> starting_seed key = Some seed -> mk_priv_encoding key = None ->
  keygen_internal (set_priv_encoding None (set_seed (Some seed) key)) = (Ret tt, key') ->
  ossl_ml_dsa_generate_key key = (Ret tt, key').
Proof.
  intros Hal Hseed Hpriv E. unfold starting_seed in Hseed. unfold ossl_ml_dsa_generate_key. km_run. rewrite Hal, Hpriv.
  destruct (mk_seed key) as [sd|] eqn:Es; km_run.
  - injection Hseed as ->. replace (set_seed (Some seed) key) with key in E; [exact E|]. destruct key. cbn in *. by subst.
  - rewrite Hseed. rewrite (km_bind_eq _ _ _ tt (set_seed (Some seed) key)) by done. km_run. exact E.
Qed.

(** ** Duplication *)

Definition no_secret (key : ML_DSA_KEY) : Prop :=
  mk_K key = zeros 32 /\ mk_s1 key = None /\ mk_s2 key = None /\ mk_t0 key = None /\
  mk_priv_encoding key = None /\ mk_seed key = None.

Lemma dup_public_pair key t1 ret ret' :
  public_ok key t1 -> mk_params ret = mk_params key -> mk_t1 ret = None -> dup_public key ret = Some ret' ->
  same_public key ret' /\ mk_params ret' = mk_params key /\ same_private ret ret' /\ mk_seed ret' = mk_seed ret.
Proof.
  intros (Hp & Hr & _ & Et1 & Ht1 & Epub & _) Ep Ft1. unfold dup_public. rewrite Epub, Et1.
  destruct (krun ossl_ml_dsa_key_pub_alloc (set_tr (mk_tr key) (set_rho (mk_rho key) ret))) as [r|] eqn:Er; [|done].
  cbn [mbind option_bind]. destruct (alloc_at PubEncoding); [|done]. intros [= <-]. unfold krun in Er.
  destruct (ossl_ml_dsa_key_pub_alloc _) as [[u| |] k1] eqn:E; [|done..]. injection Er as <-. apply pub_alloc_Ret in E as ->.
  rewrite slice_whole by (by eapply pk_encoding_length). unfold same_public, same_private. cbn. by rewrite Et1, Epub, Ep.
Qed.

Lemma dup_private_pair key ret ret' :
  key_pair key -> mk_params ret = mk_params key -> mk_s1 ret = None -> dup_private key ret = Some ret' ->
  same_private key ret' /\ mk_params ret' = mk_params key /\ same_public ret ret'.
Proof.
  intros Hpair Ep Fs1. destruct (key_pair_facts _ Hpair) as (a & s1 & s2 & t0 & t1 & Hc & Htr & _ & _ & _ & _ & Epriv).
  pose proof (components_sk_length _ _ _ _ _ _ Hc Htr) as Hlen.
  destruct Hc as (_ & _ & _ & _ & _ & E1 & E2 & E0 & _). unfold dup_private. rewrite Epriv, E1.
  destruct (krun ossl_ml_dsa_key_priv_alloc (set_K (mk_K key) ret)) as [r|] eqn:Er; [|done].
  cbn [mbind option_bind]. destruct (alloc_at PrivEncoding); [|done]. unfold krun in Er.
  destruct (ossl_ml_dsa_key_priv_alloc _) as [[u| |] k1] eqn:E; [|done..]. injection Er as <-. apply priv_alloc_Ret in E as ->.
  rewrite slice_whole by done. cbn [mbind option_bind]. unfold same_private, same_public.
  destruct (mk_seed key) as [sd|]; [destruct (alloc_at SeedCopy); [|done]|]; intros [= <-]; cbn; by rewrite E1, E2, E0, Epriv, Ep.
Qed.

(** The properties of pairs only read these fields. *)
Lemma key_pair_same key f :
  key_pair key -> same_public key f -> same_private key f -> mk_params f = mk_params key ->
  md128 f = md128 key -> md256 f = md256 key -> key_pair f.
Proof.
  intros (a & s1 & s2 & t0 & t1 & Hpub & HK & HKb & E1 & E2 & E0 & Ha & H1 & H2 & Hr & Epriv) (Fr & Ft & F1 & Fp) (GK & G1 & G2 & G0 & Gp) Ep M1 M2.
  exists a, s1, s2, t0, t1. unfold public_ok in *. rewrite Fr, Ft, F1, Fp, GK, G1, G2, G0, Gp, Ep, M1, M2.
  split; [exact Hpub|]. by split_and!.
Qed.
End Pair.

(** ** A whole run *)

(** A zero matrix maps everything to zero. *)
Lemma INTT_zero : feq (INTT (fun _ => 0)) (fun _ => 0).
Proof. transitivity (INTT (fun x => 0 * x)); [apply INTT_proper; intros i _; cong_by 0|]. rewrite (INTT_scale 0 (fun x => x)). intros i _. cong_by 0. Qed.
Lemma vc_uninit n i x : vc (uninit_vector n) i x = 0.
Proof.
  unfold vc, vget. destruct (uninit_vector n !! Z.to_nat i) as [p|] eqn:E; [|apply coeff_zero].
  apply lookup_replicate in E as [-> _]. apply coeff_zero.
Qed.
Lemma zero_matrix_times k l v :
  0 <= k -> 0 <= l -> vec_ok l v ->
  vector_ntt_inverse (ossl_ml_dsa_matrix_mult_vector (uninit_matrix k l) (vector_ntt v) (uninit_vector k)) = uninit_vector k.
Proof.
  intros Hk Hl Hv. destruct (uninit_vector_ok k Hk) as [Hu _]. pose proof (uninit_matrix_ok k l Hk Hl) as Hm.
  destruct (matrix_mult_vector_ok k l _ (vector_ntt v) Hm (proj1 (vector_ntt_ok _ _ Hv)) (uninit_vector k) (proj1 Hu)) as [Ho Hf].
  destruct (vector_ntt_inverse_ok _ _ Ho) as [Hi Hif]. apply vec_ext; [destruct Hi, Hu; congruence|].
  destruct Hi as [Hil Hiv] eqn:E. rewrite Hil. clear E. intros i Hi'.
  apply poly_eq_feq; [by eapply vec_ok_get|by eapply vec_ok_get|]. change (coeff (vget ?w i)) with (vc w i).
  assert (feq (vc (ossl_ml_dsa_matrix_mult_vector (uninit_matrix k l) (vector_ntt v) (uninit_vector k)) i) (fun _ => 0)) as Hz.
  { intros z Hz. rewrite (Hf i Hi' z Hz). apply cong_of_eq. unfold row_sum. rewrite (zsum_ext _ (fun _ => 0)); [apply zsum_0|].
    intros j _. unfold mc. cbn [m_poly uninit_matrix]. by rewrite vc_uninit. }
  intros x Hx. rewrite (Hif i Hi' x Hx), (INTT_proper _ _ Hz x Hx), (INTT_zero x Hx), vc_uninit. cong_by 0.
Qed.

#[local] Existing Instance flat_xof.
#[local] Existing Instance flat_xof_laws.
#[local] Existing Instance example_fuel.
#[local] Existing Instance example_env.
#[local] Existing Instance always_alloc.

Definition example_fresh : ML_DSA_KEY :=
  with_mds (Some SHAKE128) (Some SHAKE256) (set_prov_flags ML_DSA_KEY_PROV_FLAGS_DEFAULT (zero_key params_44)).
Definition example_key : ML_DSA_KEY :=
  generated_key (set_seed (Some (zeros 32)) example_fresh) (zeros 128) (twos 4) (twos 4) (uninit_vector 4) (twos 4) (zeros 64).

Lemma example_alloc n s : @malloc_ok always_alloc n s = true.
Proof. done. Qed.
Lemma example_new : ossl_ml_dsa_key_new None EVP_PKEY_ML_DSA_44 = Some example_fresh.
Proof. done. Qed.
Lemma example_t : t_vector (uninit_matrix 4 4) (twos 4) (twos 4) = twos 4.
Proof.
  unfold t_vector. change (m_k (uninit_matrix 4 4)) with 4.
  rewrite zero_matrix_times; [vm_compute; reflexivity|lia|lia|]. split; [done|]. apply Forall_replicate. split; [done|].
  apply Forall_replicate. by compute.
Qed.
Lemma example_generated : ossl_ml_dsa_generate_key example_fresh = (Ret tt, example_key).
Proof.
  assert (keygen_body (set_priv_encoding None (set_seed (Some (zeros 32)) example_fresh)) = (Ret tt, example_key)) as E.
  { eapply (@keygen_body_run flat_xof _ _ _ _ example_alloc (set_priv_encoding None (set_seed (Some (zeros 32)) example_fresh)) (zeros 32) (zeros 128) tt
      (twos 4) (twos 4) (uninit_matrix 4 4) (uninit_vector 4) (twos 4) (zeros 64) tt);
      [done|apply params_44_ok|done..| | | |].
    - apply flat_secrets.
    - apply flat_matrix.
    - rewrite example_t. vm_compute. reflexivity.
    - done. }
  apply (generate_key_run _ (zeros 32)); [reflexivity..|]. rewrite (keygen_internal_run _ _ E eq_refl eq_refl).
  match goal with |- (_, if ?b then _ else _) = _ => assert (b = false) as -> by (vm_compute; reflexivity) end. reflexivity.
Qed.

(** ** Theorems *)

(** C31: only genuine pairs come out of key generation and of the private key
    decoder.  A key object that [ossl_ml_dsa_generate_key] fills is a key pair; when
    it held a private encoding before, the generated one is equal to it.  A key
    object that [ossl_ml_dsa_sk_decode] fills from any bytes is a key pair whose
    private encoding is these bytes, and has no seed.  The buffers of the packets the
    encodings are written to are assumed to be allocated; whichever of the other
    allocations on the way fail ([alloc_at]), a call that reports success has filled
    the key so. *)
Theorem ml_dsa_keys_are_pairs `{XF : Xof} `{XL : !XofLaws} `{FU : Fuel} `{KE : KeyEnv} `{AL : Allocator} key key' in_is_priv inp :
  (forall n s, malloc_ok n s = true) -> mparams_ok (mk_params key) -> bytes_ok inp ->
  (in_is_priv = true -> mk_priv_encoding key = Some inp) ->
  (ossl_ml_dsa_generate_key key = (Ret tt, key') ->
     key_pair key' /\ mk_params key' = mk_params key /\
     (forall sk, mk_priv_encoding key = Some sk -> zlen sk = dp_sk_len (mk_params key) -> mk_priv_encoding key' = Some sk)) /\
  (ossl_ml_dsa_sk_decode in_is_priv inp key = (Ret tt, key') ->
     key_pair key' /\ mk_params key' = mk_params key /\ mk_priv_encoding key' = Some inp /\ mk_seed key' = None).
Proof.
  intros Hal Hp Hok Hin. split; [by apply generate_key_pair|by apply sk_decode_pair].
Qed.

Lemma ml_dsa_keys_are_pairs_witness : key_pair example_key /\ ossl_ml_dsa_generate_key example_fresh = (Ret tt, example_key).
Proof.
  split; [|exact example_generated].
  destruct (ml_dsa_keys_are_pairs example_fresh example_key false []) as [H _];
    [reflexivity|apply params_44_ok|by apply Forall_nil|discriminate|]. apply H, example_generated.
Defined.

(** A key pair to apply the other theorems to. *)
Lemma example_pair : key_pair example_key.
Proof.
  destruct (generate_key_pair example_alloc example_fresh tt example_key) as [H _];
    [apply params_44_ok|exact example_generated|exact H].
Qed.

(** C32: key generation completes.  If no allocation fails and the samplers return
    for the seed (they do as soon as the digest stream holds enough values in range),
    then [ossl_ml_dsa_generate_key] returns the key of Algorithm 6 of FIPS 204: [rho],
    [rho'] and [K] are the hash of the seed and the dimensions, the vectors are those
    sampled, [t1] and [t0] the rounding of [A s1 + s2], [tr] the hash of the public
    encoding; the seed stays in the key exactly when the flags say so. *)
Theorem ml_dsa_keygen_completes `{XF : Xof} `{XL : !XofLaws} `{FU : Fuel} `{KE : KeyEnv} `{AL : Allocator} key seed x ctx s1 s2 a t1 t0 :
  (forall n s, malloc_ok n s = true) -> (forall s, alloc_at s = true) -> mparams_ok (mk_params key) ->
  starting_seed key = Some seed -> mk_priv_encoding key = None -> mk_t1 key = None -> mk_s1 key = None ->
  shake_xof (md256 key) (slice seed 0 32 ++ [u8 (dp_k (mk_params key)); u8 (dp_l (mk_params key))]) 128 = Some (x, ctx) ->
  ossl_ml_dsa_vector_expand_S (md256 key) (dp_eta (mk_params key)) (slice x 32 64)
    (uninit_vector (dp_l (mk_params key))) (uninit_vector (dp_k (mk_params key))) = Ret (s1, s2) ->
  ossl_ml_dsa_matrix_expand_A (md128 key) (slice x 0 32) (uninit_matrix (dp_k (mk_params key)) (dp_l (mk_params key))) = Ret a ->
  vector_power2_round (t_vector a s1 s2) = (t1, t0) ->
  exists tr ctx', shake_xof (md256 key) (pk_encoding (slice x 0 32) t1) 64 = Some (tr, ctx') /\
    let out := generated_key (set_seed (Some seed) key) x s1 s2 t1 t0 tr in
    ossl_ml_dsa_generate_key key =
    (Ret tt, if Z.land (mk_prov_flags key) ML_DSA_KEY_RETAIN_SEED =? 0 then set_seed None out else out).
Proof.
  intros Hal Hs Hp Hseed Hpriv Ht1 Hs1 Hx HS HA Hr.
  destruct (shake_xof_ok (md256 key) (pk_encoding (slice x 0 32) t1) 64 ltac:(lia)) as (tr & ctx' & Htr & _). exists tr, ctx'.
  split; [exact Htr|]. cbv zeta. apply (generate_key_run _ seed); [done..|].
  pose proof (keygen_body_run Hal (set_priv_encoding None (set_seed (Some seed) key)) seed x ctx s1 s2 a t1 t0 tr ctx'
    Hs Hp eq_refl Ht1 Hs1 Hx HS HA Hr Htr) as E.
  rewrite (keygen_internal_run _ _ E eq_refl eq_refl). reflexivity.
Qed.

Lemma ml_dsa_keygen_completes_witness : exists key, ossl_ml_dsa_generate_key example_fresh = (Ret tt, key) /\ mk_seed key = Some (zeros 32).
Proof.
  destruct (@ml_dsa_keygen_completes flat_xof _ _ _ always_alloc example_fresh (zeros 32) (zeros 128) tt (twos 4) (twos 4) (uninit_matrix 4 4) (uninit_vector 4) (twos 4))
    as (tr & ctx' & _ & E); [reflexivity|reflexivity|apply params_44_ok|reflexivity|reflexivity|reflexivity|reflexivity|reflexivity|
      apply flat_secrets|apply flat_matrix| |].
  - rewrite example_t. vm_compute. reflexivity.
  - cbv zeta in E. eexists. split; [exact E|]. reflexivity.
Defined.

(** Key encodings round-trip.  The encodings a key pair holds, decoded into an
    empty key object of the same algorithm, give back the public components, and
    the private ones with them for the private encoding. *)
Lemma ml_dsa_key_encodings_roundtrip `{XF : Xof} `{XL : !XofLaws} `{FU : Fuel} `{KE : KeyEnv} `{AL : Allocator} key f :
  (forall n s, malloc_ok n s = true) -> (forall s, alloc_at s = true) -> key_pair key -> fresh_for key f ->
  exists pk sk f1 f2, ossl_ml_dsa_key_get_pub key = Some pk /\ ossl_ml_dsa_key_get_priv key = Some sk /\
    zlen pk = dp_pk_len (mk_params key) /\ zlen sk = dp_sk_len (mk_params key) /\
    ossl_ml_dsa_pk_decode pk f = (Ret tt, f1) /\ same_public key f1 /\
    ossl_ml_dsa_sk_decode false sk f = (Ret tt, f2) /\ same_public key f2 /\ same_private key f2.
Proof.
  intros Hal Hs Hpair Hf. pose proof Hpair as (a & s1 & s2 & t0 & t1 & Hpub & _).
  destruct (key_pair_facts _ Hpair) as (a' & s1' & s2' & t0' & t1' & Hc & Htr & _ & _ & _ & _ & Epriv).
  pose proof (components_sk_length _ _ _ _ _ _ Hc Htr) as Hlen.
  destruct (pk_decode_run _ _ _ Hs Hpub Hf) as (f1 & E1 & Hf1 & _).
  destruct (sk_decode_run Hal _ _ _ Hs Hpair Hf Epriv) as (f2 & E2 & Hf2 & Hf2' & _).
  destruct Hpub as (Hp & Hr & _ & _ & Ht1 & Epub & _). eexists _, _, f1, f2.
  split_and!; [exact Epub|exact Epriv|by apply pk_encoding_length|exact Hlen|exact E1|exact Hf1|exact E2|exact Hf2|exact Hf2'].
Qed.

Lemma ml_dsa_key_encodings_roundtrip_witness :
  exists pk f1, ossl_ml_dsa_key_get_pub example_key = Some pk /\ ossl_ml_dsa_pk_decode pk example_fresh = (Ret tt, f1) /\
    same_public example_key f1.
Proof.
  destruct (ml_dsa_key_encodings_roundtrip example_key example_fresh) as (pk & sk & f1 & f2 & E1 & _ & _ & _ & E2 & Hs & _);
    [reflexivity|reflexivity|exact example_pair|by split_and!|]. by exists pk, f1.
Defined.

(** Duplication respects the selection, and a reset leaves no secret.  A copy
    of a key pair has its public components when any component is selected, and is a
    key pair when the private key is; without the private key selected it holds no
    secret at all: no seed, no private encoding, no secret vectors, and a zero [K].
    After a reset neither the key nor the copy holds one. *)
Lemma ml_dsa_dup_respects_selection `{XF : Xof} `{XL : !XofLaws} `{FU : Fuel} `{KE : KeyEnv} key selection copy :
  key_pair key -> ossl_ml_dsa_key_dup (Some key) selection = Some copy ->
  (selected selection OSSL_KEYMGMT_SELECT_KEYPAIR = true -> same_public key copy) /\
  (selected selection OSSL_KEYMGMT_SELECT_PRIVATE_KEY = true -> key_pair copy /\ same_private key copy) /\
  (selected selection OSSL_KEYMGMT_SELECT_PRIVATE_KEY = false -> no_secret copy) /\
  no_secret (ossl_ml_dsa_key_reset key) /\ no_secret (ossl_ml_dsa_key_reset copy).
Proof.
  intros Hpair. pose proof Hpair as (a & s1 & s2 & t0 & t1 & Hpub & _ & _ & E1 & E2 & E0 & _). pose proof Hpub as (_ & _ & _ & _ & _ & Epub & _).
  assert (forall k : ML_DSA_KEY, (mk_s1 k = None -> mk_s2 k = None /\ mk_t0 k = None) -> no_secret (ossl_ml_dsa_key_reset k)) as Hreset.
  { intros k Hk. unfold ossl_ml_dsa_key_reset, no_secret. destruct (mk_s1 k) eqn:E; cbn; [done|]. by destruct (Hk eq_refl) as [-> ->]. }
  assert (selected selection OSSL_KEYMGMT_SELECT_PRIVATE_KEY = true -> selected selection OSSL_KEYMGMT_SELECT_KEYPAIR = true) as Hsel.
  { unfold selected. rewrite !negb_true_iff, !Z.eqb_neq. intros Hn H'. apply Hn. unfold OSSL_KEYMGMT_SELECT_PRIVATE_KEY, OSSL_KEYMGMT_SELECT_KEYPAIR in *.
    apply (f_equal (fun z => Z.land z 1)) in H'. by rewrite <- Z.land_assoc in H'. }
  unfold ossl_ml_dsa_key_dup. cbn [mbind option_bind]. rewrite Epub. change (has (Some ?x)) with true. cbn [negb andb].
  destruct (alloc_at KeyObject); [|done]. cbn [negb]. set (ret := set_prov_flags _ _).
  destruct (selected selection OSSL_KEYMGMT_SELECT_KEYPAIR).
  - destruct (dup_public key ret) as [r1|] eqn:Er1; [|done]. cbn [mbind option_bind].
    destruct (dup_public_pair key t1 ret r1 Hpub eq_refl eq_refl Er1) as (Hsp & Ep1 & Hpriv1 & Es1).
    destruct Hpriv1 as (GK & G1 & G2 & G0 & Gp). destruct (selected selection OSSL_KEYMGMT_SELECT_PRIVATE_KEY).
    + destruct (dup_private key r1) as [r2|] eqn:Er2; [|done]. cbn [mbind option_bind]. intros [= <-].
      destruct (dup_private_pair key r1 r2 Hpair Ep1 G1 Er2) as (Hsv & Ep2 & Hsp2).
      assert (same_public key (with_mds (mk_shake128_md key) (mk_shake256_md key) r2)) as Hs
        by (destruct Hsp as (? & ? & ? & ?), Hsp2 as (? & ? & ? & ?); unfold same_public; cbn; split_and!; congruence).
      split_and!; [done|intros _; split; [by apply (key_pair_same key)|done]|done|apply Hreset; congruence|].
      destruct Hsv as (_ & F1 & _). apply Hreset. cbn. rewrite F1, E1. done.
    + intros [= <-]. split_and!; [done|done| |apply Hreset; congruence|]; [|apply Hreset; cbn; by rewrite G2, G0].
      intros _. unfold no_secret. cbn. by rewrite GK, G1, G2, G0, Gp, Es1.
  - intros [= <-]. split_and!; [done|intros Hb; by specialize (Hsel Hb)|done|apply Hreset; congruence|by apply Hreset].
Qed.

Lemma ml_dsa_dup_respects_selection_witness :
  exists copy, ossl_ml_dsa_key_dup (Some example_key) OSSL_KEYMGMT_SELECT_PUBLIC_KEY = Some copy /\ no_secret copy.
Proof.
  destruct (ossl_ml_dsa_key_dup (Some example_key) OSSL_KEYMGMT_SELECT_PUBLIC_KEY) as [copy|] eqn:E; [|discriminate E].
  exists copy. split; [done|]. by apply (ml_dsa_dup_respects_selection example_key OSSL_KEYMGMT_SELECT_PUBLIC_KEY copy example_pair E).
Defined.
