(* ===== verification/MlDsaLattice.v ===== *)
(** * ML-DSA: the equations behind a signature

    What makes verification succeed: the product of a challenge and a short vector
    is short; the verifier's [A z - c t1 2^13] is [w - c s2 + c t0], row by row; and
    the hints of the signer turn it into the high bits of [w].  Everything is about
    the code's own transforms and roundings. *)
From S2P Require Import Prelude.
From S2P Require Import ZSum.
From S2P Require Import Transform.
From S2P Require Import NttPass.
From S2P Require Import Result.
From S2P Require Import ModCong.
From S2P Require Import MlDsaField.
From S2P Require Import MlDsaRound.
From S2P Require Import MlDsaNtt.
From S2P Require Import MlDsaPoly.
From S2P Require Import MlDsaParams.
From S2P Require Import MlDsaHint.
From S2P Require Import MlDsaSig.
From S2P Require Import MlDsaSample.
From S2P Require Import MlDsaKey.
From S2P Require Import MlDsaKeySpec.

#[local] Opaque ossl_ml_dsa_key_compress_power2_round zsum NTT INTT ossl_ml_dsa_poly_ntt ossl_ml_dsa_poly_ntt_inverse.

(** ** Products with a challenge *)

Definition is_challenge (tau : Z) (c : POLY) : Prop :=
  zlen c = 256 /\ (forall i, 0 <= i < 256 -> ternary (coeff c i)) /\ nonzeros c = tau.

Lemma challenge_ok tau c : is_challenge tau c -> poly_ok c.
Proof. intros (Hl & Ht & _). apply poly_ok_intro; [done|]. intros i Hi. by apply ternary_ok, Ht. Qed.

Lemma ntt_mult_comm a b : ossl_ml_dsa_poly_ntt_mult a b = ossl_ml_dsa_poly_ntt_mult b a.
Proof.
  unfold ossl_ml_dsa_poly_ntt_mult. rewrite <- zip_with_flip. apply zip_with_ext; [|done..].
  intros x y. unfold flip. by rewrite Z.mul_comm.
Qed.

Lemma negacyclic_centered a b : feq (negacyclic a b) (negacyclic (fun i => centered (a i)) (fun i => centered (b i))).
Proof. intros k _. unfold negacyclic, negacyclicn. change (Z.of_nat 256) with 256. apply zsum_cong. intros i _. by rewrite !centered_cong. Qed.

Lemma negacyclic_bound a b B k :
  0 <= B -> (forall i, 0 <= i < 256 -> Z.abs (b i) <= B) ->
  Z.abs (negacyclic a b k) <= zsum (fun i => Z.abs (a i)) 256 * B.
Proof.
  intros HB Hb. unfold negacyclic, negacyclicn. change (Z.of_nat 256) with 256. rewrite Z.mul_comm, <- zsum_scale. apply zsum_abs. intros i _.
  rewrite !Z.abs_mul. assert (Z.abs (if i <=? k then 1 else -1) = 1) as -> by (by destruct (_ <=? _)).
  specialize (Hb ((k - i) mod 256) (Z.mod_pos_bound (k - i) 256 ltac:(lia))). nia.
Qed.

#[local] Opaque negacyclic.

(** [c * s] as the code computes it from the transforms. *)
Definition scaled (c : POLY) (s : VECTOR) : VECTOR :=
  vector_ntt_inverse (vector_mult_scalar (vector_ntt s) (poly_ntt c)).

Lemma scaled_get c s i :
  0 <= i < zlen s -> vget (scaled c s) i =
  ossl_ml_dsa_poly_ntt_inverse (ossl_ml_dsa_poly_ntt_mult (ossl_ml_dsa_poly_ntt (vget s i)) (ossl_ml_dsa_poly_ntt c)).
Proof. intros Hi. unfold scaled, vector_ntt_inverse, vector_mult_scalar, vector_ntt. by rewrite !vget_map by (rewrite ?zlen_fmap; lia). Qed.

Lemma scaled_ok n c s : poly_ok c -> vec_ok n s -> vec_ok n (scaled c s).
Proof.
  intros Hc Hs. unfold scaled. apply vector_ntt_inverse_ok, vector_mult_scalar_ok; [by apply vector_ntt_ok|].
  by apply ntt_ok.
Qed.

(** The coefficients of [c * s] are at most [tau * B]. *)
Lemma scaled_bound tau n c s B :
  is_challenge tau c -> vec_ok n s -> 0 <= B -> tau * B <= ML_DSA_Q_MINUS1_DIV2 ->
  (forall i x, 0 <= i < n -> 0 <= x < 256 -> Z.abs (centered (vc s i x)) <= B) ->
  forall i x, 0 <= i < n -> 0 <= x < 256 -> Z.abs (centered (vc (scaled c s) i x)) <= tau * B.
Proof.
  intros Hc Hs HB Hlim Hb i x Hi Hx. pose proof Hs as [Hl _]. unfold vc. rewrite scaled_get, ntt_mult_comm by lia.
  pose proof (challenge_ok _ _ Hc) as Hco. pose proof (vec_ok_get _ _ _ Hs Hi) as Hsi.
  destruct (poly_mult_ok _ _ Hco Hsi) as [Hp Hf]. cbv zeta in *. set (p := ossl_ml_dsa_poly_ntt_inverse _) in *.
  destruct Hc as (_ & Hter & Hn).
  pose proof (negacyclic_bound (fun i => centered (coeff c i)) (fun j => centered (vc s i j)) B x HB
    ltac:(intros; by apply Hb)) as Hneg.
  rewrite (zsum_ext _ (fun i => if coeff c i =? 0 then 0 else 1)) in Hneg by (intros; by apply ternary_ok, Hter).
  unfold nonzeros in Hn. rewrite Hn in Hneg.
  rewrite (centered_unique _ (negacyclic (fun i => centered (coeff c i)) (fun j => centered (vc s i j)) x)); [done| |lia|].
  - by apply poly_ok_coeff.
  - rewrite (Hf x Hx). symmetry. by apply negacyclic_centered.
Qed.

(** ** The verifier's equation *)

Lemma NTT_add f g : feq (NTT (fun j => f j + g j)) (fun j => NTT f j + NTT g j).
Proof.
  transitivity (NTT (fun j => 1 * f j + 1 * g j)); [apply NTT_proper; intros i _; cong_by 0|].
  rewrite NTT_linear. intros i _. cong_by 0.
Qed.
(** [INTT] of [f - g + h]. *)
Lemma INTT_sub_add f g h :
  feq (INTT (fun j => f j - g j + h j)) (fun j => INTT f j - INTT g j + INTT h j).
Proof.
  transitivity (INTT (fun j => 1 * (1 * f j + (-1) * g j) + 1 * h j)); [apply INTT_proper; intros i _; cong_by 0|].
  rewrite INTT_linear. intros i Hi. rewrite (INTT_linear _ _ _ _ i Hi). cong_by 0.
Qed.
Lemma NTT_inverse_scaled f : feq (NTT (fun x => INV_SCALE * INTT f x)) (fun x => 2 ^ 32 * f x).
Proof.
  intros x Hx. rewrite (NTT_scale _ _ x Hx), (NTT_INTT _ x Hx), <- INV_SCALE_spec. cong_by 0.
Qed.

(** [NTT(c s) = NTT(s) NTT(c)]. *)
Lemma NTT_scaled n c s i :
  poly_ok c -> vec_ok n s -> 0 <= i < n ->
  feq (NTT (vc (scaled c s) i)) (fun x => NTT (vc s i) x * coeff (poly_ntt c) x).
Proof.
  intros Hc Hs Hi. destruct (vector_ntt_ok _ _ Hs) as [Hns Hnf]. destruct (ntt_ok c Hc) as [Hnc _].
  destruct (vector_mult_scalar_ok _ _ _ Hns Hnc) as [Hm Hmf]. destruct (vector_ntt_inverse_ok _ _ Hm) as [_ Hif].
  unfold scaled. rewrite (NTT_proper _ _ (Hif i Hi)), NTT_inverse_scaled.
  intros x Hx. rewrite (Hmf i Hi x Hx), (Hnf i Hi x Hx). unfold poly_ntt.
  transitivity (R_INV * 2 ^ 32 * (NTT (vc s i) x * coeff (ossl_ml_dsa_poly_ntt c) x)); [cong_by 0|].
  rewrite R_INV_unit. cong_by 0.
Qed.

Lemma scale_round_ok n t1 :
  vec_in t1_coeff n t1 ->
  vec_ok n (vector_scale_power2_round_ntt t1) /\
  forall i, 0 <= i < n -> feq (vc (vector_scale_power2_round_ntt t1) i) (NTT (fun x => 2 ^ 13 * vc t1 i x)).
Proof.
  intros [Hl Ht]. unfold vector_scale_power2_round_ntt. set (v := poly_scale_power2_round <$> t1).
  assert (forall c, t1_coeff c -> u32 (Z.shiftl c ML_DSA_D_BITS) = 2 ^ 13 * c) as Hsh.
  { intros c Hc. unfold t1_coeff in Hc. rewrite Z.shiftl_mul_pow2 by done. change (2 ^ ML_DSA_D_BITS) with 8192.
    change (2 ^ 13) with 8192. rewrite u32_small; lia. }
  assert (vec_ok n v) as Hv.
  { split; [unfold v; by rewrite zlen_fmap|]. apply Forall_fmap. eapply Forall_impl; [exact Ht|]. intros p [Hp Hc]. cbn.
    split; [unfold poly_scale_power2_round; by rewrite zlen_fmap|]. apply Forall_fmap. eapply Forall_impl; [exact Hc|].
    intros c Hcc. cbn. rewrite Hsh by done. unfold t1_coeff, coeff_ok, ML_DSA_Q in *. lia. }
  destruct (vector_ntt_ok _ _ Hv) as [Hn Hf]. split; [done|]. intros i Hi. rewrite (Hf i Hi). apply NTT_proper.
  intros x Hx. apply cong_of_eq. unfold vc, v. rewrite vget_map by lia. unfold poly_scale_power2_round.
  rewrite Forall_lookup in Ht. destruct (Ht (Z.to_nat i) (vget t1 i)) as [Hp Hc]; [apply vget_lookup; lia|].
  rewrite coeff_map by lia. apply Hsh. rewrite coeff_Forall in Hc. apply Hc. lia.
Qed.

(** [t = t1 2^13 + t0]. *)
Lemma power2_round_sum n t t1 t0 i x :
  vec_ok n t -> vector_power2_round t = (t1, t0) -> 0 <= i < n -> 0 <= x < 256 ->
  vc t i x ≡q 2 ^ 13 * vc t1 i x + vc t0 i x.
Proof.
  intros Ht Hr Hi Hx. pose proof Ht as [Hl _]. unfold vector_power2_round in Hr. injection Hr as <- <-.
  pose proof (vec_ok_get _ _ _ Ht Hi) as Hti. pose proof Hti as [Hl256 _]. unfold vc. rewrite !vget_map by lia. unfold poly_power2_round. cbn [fst snd].
  rewrite !coeff_map by lia. cbv beta. pose proof (power2_round_spec _ (poly_ok_coeff _ _ Hti Hx)) as Hs.
  destruct (ossl_ml_dsa_key_compress_power2_round (coeff (vget t i) x)) as [r1 r0]. destruct Hs as (_ & _ & Hc & _ & _ & E). cbn [fst snd].
  rewrite E at 1. rewrite <- Hc, centered_cong. cong_by 0.
Qed.

(** [A v] in the transform domain. *)
Definition a_times (k : Z) (a : MATRIX) (v : VECTOR) : VECTOR :=
  ossl_ml_dsa_matrix_mult_vector a (vector_ntt v) (uninit_vector k).

Section Equation.
Context (k l : Z) (a : MATRIX) (Ha : mat_ok k l a).
Context (s1 s2 t1 t0 : VECTOR) (Hs1 : vec_ok l s1) (Hs2 : vec_ok k s2) (Ht1 : vec_in t1_coeff k t1) (Ht0 : vec_ok k t0).
Context (Ht : vector_power2_round (t_vector a s1 s2) = (t1, t0)).
Context (c : POLY) (Hc : poly_ok c) (y : VECTOR) (Hy : vec_ok l y).

#[local] Abbreviation mult := (a_times k a).
#[local] Abbreviation C := (coeff (poly_ntt c)).
#[local] Abbreviation w := (vector_ntt_inverse (mult y)).
#[local] Abbreviation z := (vector_add y (scaled c s1)).

Lemma mult_ok v :
  vec_ok l v -> vec_ok k (mult v) /\
  forall i, 0 <= i < k -> feq (vc (mult v) i) (fun x => zsum (fun j => mc a i j x * NTT (vc v j) x * R_INV) (Z.to_nat l)).
Proof.
  intros Hv. pose proof Ha as (_ & _ & Hk & Hl & _). destruct (vector_ntt_ok _ _ Hv) as [Hn Hf].
  destruct (matrix_mult_vector_ok k l a _ Ha Hn (uninit_vector k)) as [Hm Hmf]; [by apply uninit_vector_ok|].
  split; [done|]. intros i Hi x Hx. rewrite (Hmf i Hi x Hx). apply zsum_cong. intros j Hj. rewrite (Hf j ltac:(lia) x Hx). done.
Qed.

(** [NTT(t)] without [NTT(t0)] is [NTT(t1 2^13)]. *)
Lemma NTT_t1 i x :
  0 <= i < k -> 0 <= x < 256 ->
  NTT (fun x => 2 ^ 13 * vc t1 i x) x ≡q 2 ^ 32 * vc (mult s1) i x + NTT (vc s2 i) x - NTT (vc t0 i) x.
Proof.
  intros Hi Hx. pose proof Ha as (Ek & _). destruct (mult_ok s1 Hs1) as [Hm _].
  destruct (vector_ntt_inverse_ok _ _ Hm) as [Hin Hif]. destruct (vector_add_ok _ _ _ Hin Hs2) as [Htv Htf].
  assert (t_vector a s1 s2 = vector_add (vector_ntt_inverse (mult s1)) s2) as Et by (unfold t_vector, a_times; by rewrite Ek).
  rewrite Et in Ht. set (t := vector_add _ _) in *.
  assert (feq (NTT (vc t i)) (fun x => 2 ^ 32 * vc (mult s1) i x + NTT (vc s2 i) x)) as H1.
  { rewrite (NTT_proper _ _ (Htf i Hi)), NTT_add. intros z Hz.
    rewrite (NTT_proper _ _ (Hif i Hi) z Hz), (NTT_inverse_scaled _ z Hz). done. }
  assert (feq (NTT (vc t i)) (fun x => NTT (fun x => 2 ^ 13 * vc t1 i x) x + NTT (vc t0 i) x)) as H2.
  { rewrite <- NTT_add. apply NTT_proper. intros z Hz. by eapply power2_round_sum. }
  specialize (H1 x Hx). specialize (H2 x Hx). cbv beta in *. rewrite <- H1, H2. cong_by 0.
Qed.

Lemma mult_z i x :
  0 <= i < k -> 0 <= x < 256 -> vc (mult z) i x ≡q vc (mult y) i x + vc (mult s1) i x * C x.
Proof.
  intros Hi Hx. pose proof (scaled_ok _ _ _ Hc Hs1) as Hcs. destruct (vector_add_ok _ _ _ Hy Hcs) as [Hz Hzf].
  destruct (mult_ok _ Hz) as [_ Ez], (mult_ok y Hy) as [_ Ey], (mult_ok s1 Hs1) as [_ E1].
  rewrite (Ez i Hi x Hx), (Ey i Hi x Hx), (E1 i Hi x Hx), (Z.mul_comm _ (C x)), <- zsum_scale, <- zsum_add.
  apply zsum_cong. intros j Hj.
  rewrite (NTT_proper _ _ (Hzf j ltac:(lia)) x Hx), (NTT_add _ _ x Hx), (NTT_scaled l c s1 j Hc Hs1 ltac:(lia) x Hx).
  cong_by 0.
Qed.

(** [A z - c t1 2^13 = w - c s2 + c t0] *)
Lemma verifier_equation i x :
  0 <= i < k -> 0 <= x < 256 ->
  let ct1 := vector_mult_scalar (vector_scale_power2_round_ntt t1) (poly_ntt c) in
  let w_approx := vector_ntt_inverse (vector_sub (mult z) ct1) in
  poly_ok (vget w_approx i) /\
  vc w_approx i x ≡q vc w i x - vc (scaled c s2) i x + vc (scaled c t0) i x.
Proof.
  intros Hi Hx. cbv zeta. destruct (ntt_ok c Hc) as [Hnc _]. destruct (scale_round_ok _ _ Ht1) as [Hsr Hsf].
  destruct (vector_mult_scalar_ok _ _ (poly_ntt c) Hsr Hnc) as [Hct Hcf]. set (ct1 := vector_mult_scalar _ _) in *.
  assert (vec_ok l z) as Hz by (apply vector_add_ok; [done|by apply scaled_ok]).
  destruct (mult_ok z Hz) as [Hmz _]. destruct (mult_ok y Hy) as [Hmy _].
  destruct (vector_sub_ok _ _ _ Hmz Hct) as [Hd Hdf]. destruct (vector_ntt_inverse_ok _ _ Hd) as [Hw Hwf].
  split; [by eapply vec_ok_get|]. rewrite (Hwf i Hi x Hx).
  destruct (vector_ntt_ok _ _ Hs2) as [Hn2 Hf2], (vector_ntt_ok _ _ Ht0) as [Hn0 Hf0].
  destruct (vector_mult_scalar_ok _ _ _ Hn2 Hnc) as [Hc2 Hcf2], (vector_mult_scalar_ok _ _ _ Hn0 Hnc) as [Hc0 Hcf0].
  assert (feq (vc (vector_sub (mult z) ct1) i) (fun x => vc (mult y) i x -
    vc (vector_mult_scalar (vector_ntt s2) (poly_ntt c)) i x + vc (vector_mult_scalar (vector_ntt t0) (poly_ntt c)) i x)) as Hin.
  { intros x' Hx'. rewrite (Hdf i Hi x' Hx'), (Hcf i Hi x' Hx'), (Hsf i Hi x' Hx'), (NTT_t1 i x' Hi Hx'), (mult_z i x' Hi Hx').
    unfold poly_ntt in *. rewrite (Hcf2 i Hi x' Hx'), (Hcf0 i Hi x' Hx'), (Hf2 i Hi x' Hx'), (Hf0 i Hi x' Hx').
    set (m := vc (mult s1) i x'). set (n := coeff (ossl_ml_dsa_poly_ntt c) x').
    transitivity (vc (mult y) i x' + m * n - R_INV * 2 ^ 32 * (m * n) - NTT (vc s2 i) x' * n * R_INV + NTT (vc t0 i) x' * n * R_INV);
      [cong_by 0|]. rewrite R_INV_unit. cong_by 0. }
  rewrite (INTT_proper _ _ Hin x Hx), (INTT_sub_add _ _ _ x Hx). unfold scaled.
  destruct (vector_ntt_inverse_ok _ _ Hmy) as [_ Hiy]. rewrite (Hiy i Hi x Hx). destruct (vector_ntt_inverse_ok _ _ Hc2) as [_ Hi2].
  destruct (vector_ntt_inverse_ok _ _ Hc0) as [_ Hi0]. unfold poly_ntt in *. rewrite (Hi2 i Hi x Hx), (Hi0 i Hi x Hx). cong_by 0.
Qed.
End Equation.

(** ** Hints *)

Lemma coeff_middle pre c q : coeff (pre ++ c :: q) (zlen pre) = c.
Proof. unfold coeff. rewrite zlen_to_nat. by rewrite list_lookup_middle. Qed.
Lemma positions_count pre q :
  Forall bit q -> zlen (positions_from (length q) (zlen pre) (pre ++ q)) = foldr Z.add 0 q.
Proof.
  unfold positions_from. intros Hq. revert pre. induction Hq as [|c q Hc Hq IH]; intros pre; [done|].
  rewrite seqZ_cons, filter_cons, coeff_middle by (cbn [length]; lia). specialize (IH (pre ++ [c])).
  replace (zlen (pre ++ [c])) with (Z.succ (zlen pre)) in IH by (rewrite zlen_app, zlen_cons, zlen_nil; lia).
  replace ((pre ++ [c]) ++ q) with (pre ++ c :: q) in IH by (by rewrite <- app_assoc).
  replace (Z.pred (Z.of_nat (length (c :: q)))) with (Z.of_nat (length q)) by (cbn [length]; lia).
  cbn [foldr].
  destruct Hc as [-> | ->]; case_decide; try lia; rewrite ?zlen_cons; lia.
Qed.
Lemma row_count p n :
  Forall bit p -> 0 <= n -> n + zlen p < 2 ^ 64 ->
  foldl (fun count c => u64 (count + c)) n p = n + foldr Z.add 0 p /\ 0 <= foldr Z.add 0 p <= zlen p.
Proof.
  intros Hp. revert n. induction Hp as [|c p Hc Hp IH]; intros n Hn Hm; cbn [foldl foldr]; [change (zlen []) with 0 in *; lia|].
  rewrite zlen_cons in *. pose proof (zlen_nonneg p). change (2 ^ 64) with 18446744073709551616 in *.
  assert (0 <= c <= 1) by (destruct Hc; lia). rewrite u64_small by lia. destruct (IH (n + c)) as [-> ?]; lia.
Qed.
Lemma count_ones_positions h :
  Forall hint_row_ok h -> zlen h <= 8 -> vector_count_ones h = zlen (all_positions h) /\ zlen (all_positions h) <= 2048.
Proof.
  intros Hh Hl. unfold vector_count_ones.
  enough (forall n, 0 <= n -> n + 256 * zlen h < 2 ^ 64 ->
    foldl (fun count p => foldl (fun count c => u64 (count + c)) count p) n h = n + zlen (all_positions h) /\
    zlen (all_positions h) <= 256 * zlen h) as H.
  { destruct (H 0 ltac:(lia)) as [-> ?]; [change (2 ^ 64) with 18446744073709551616; lia|]. split; lia. }
  clear Hl. induction Hh as [|p h [Hp Hb] Hh IH]; intros n Hn Hm.
  { cbn [foldl]. change (all_positions []) with (@nil Z). unfold zlen. cbn [length]. lia. }
  rewrite zlen_cons in *. pose proof (zlen_nonneg h). rewrite all_positions_cons, zlen_app. cbn [foldl].
  destruct (row_count p n Hb) as [-> Hr]; [lia|lia|].
  assert (zlen (positions p) = foldr Z.add 0 p) as ->.
  { unfold positions. rewrite <- (positions_count [] p Hb). cbn [app]. unfold zlen in Hp. by replace (length p) with 256%nat by lia. }
  destruct (IH (n + foldr Z.add 0 p)) as [-> ?]; lia.
Qed.

Section Hints.
Context (k gamma2 : Z) (Hg : gamma2_ok gamma2) (w cs2 ct0 : VECTOR).
Context (Hw : vec_ok k w) (Hcs2 : vec_ok k cs2) (Hct0 : vec_ok k ct0).
#[local] Abbreviation hint := (vector_make_hint ct0 cs2 w gamma2).

Lemma zlen_hint : zlen hint = k.
Proof.
  destruct Hw as [Hl _], Hcs2 as [Hl2 _], Hct0 as [Hl0 _]. unfold vector_make_hint, zlen in *.
  rewrite length_zip_with, length_zip. lia.
Qed.
Lemma hint_get i : 0 <= i < k -> vget hint i = poly_make_hint (vget ct0 i) (vget cs2 i) (vget w i) gamma2.
Proof.
  destruct Hw as [Hl _], Hcs2 as [Hl2 _], Hct0 as [Hl0 _]. intros Hi. unfold vget at 1, vector_make_hint.
  rewrite lookup_zip_with, lookup_zip_with, !vget_lookup by lia. done.
Qed.
Lemma hint_coeff i x :
  0 <= i < k -> 0 <= x < 256 ->
  zlen (vget hint i) = 256 /\
  vc hint i x = ossl_ml_dsa_key_compress_make_hint (vc ct0 i x) (vc cs2 i x) gamma2 (vc w i x) /\ bit (vc hint i x).
Proof.
  intros Hi Hx. unfold vc. rewrite hint_get by done. unfold poly_make_hint.
  pose proof (vec_ok_get _ _ _ Hw Hi) as [Hl _]. pose proof (vec_ok_get _ _ _ Hcs2 Hi) as [Hl2 _].
  pose proof (vec_ok_get _ _ _ Hct0 Hi) as [Hl0 _].
  assert (bit (ossl_ml_dsa_key_compress_make_hint (coeff (vget ct0 i) x) (coeff (vget cs2 i) x) gamma2 (coeff (vget w i) x))) as Hb
    by (unfold ossl_ml_dsa_key_compress_make_hint, bit; destruct (_ =? _); auto).
  split; [unfold zlen in *; rewrite length_zip_with, length_zip; lia|]. unfold coeff at 1 5.
  rewrite lookup_zip_with, lookup_zip_with, !coeff_lookup by lia. cbn. rewrite u32_small by (destruct Hb; lia). done.
Qed.
Lemma hint_rows_ok : Forall hint_row_ok hint.
Proof.
  apply Forall_lookup. intros i p Hp. pose proof (lookup_lt_Some _ _ _ Hp) as Hi. pose proof zlen_hint as Hl. unfold zlen in Hl.
  assert (vget hint (Z.of_nat i) = p) as Hv by (unfold vget; by rewrite Nat2Z.id, Hp).
  destruct (hint_coeff (Z.of_nat i) 0 ltac:(lia) ltac:(lia)) as [H256 _]. rewrite Hv in H256. split; [done|].
  apply coeff_Forall. intros x Hx. destruct (hint_coeff (Z.of_nat i) x ltac:(lia) ltac:(lia)) as (_ & _ & Hb). unfold vc in Hb.
  by rewrite Hv in Hb.
Qed.

(** The verifier recovers the signer's commitment. *)
Lemma hints_recover beta w_approx :
  vec_ok k w_approx ->
  (forall i x, 0 <= i < k -> 0 <= x < 256 -> vc w_approx i x ≡q vc w i x - vc cs2 i x + vc ct0 i x) ->
  (forall i x, 0 <= i < k -> 0 <= x < 256 -> Z.abs (centered (vc cs2 i x)) <= beta) ->
  (forall i x, 0 <= i < k -> 0 <= x < 256 -> Z.abs (centered (vc ct0 i x)) < gamma2) ->
  (forall i x, 0 <= i < k -> 0 <= x < 256 ->
    Z.abs (ossl_ml_dsa_key_compress_low_bits (vc (vector_sub w cs2) i x) gamma2) < gamma2 - beta) ->
  vector_use_hint hint w_approx gamma2 = vector_high_bits w gamma2.
Proof.
  intros Hwa Heq Hb2 Hb0 Hlow. pose proof Hwa as [Hla _]. pose proof Hw as [Hl _]. pose proof Hcs2 as [Hl2 _]. pose proof zlen_hint as Hlh.
  assert (zlen (vector_use_hint hint w_approx gamma2) = k) as Hlu
    by (unfold vector_use_hint, zlen in *; rewrite length_zip_with; lia).
  apply vec_ext; [rewrite Hlu; unfold vector_high_bits; by rewrite zlen_fmap|]. rewrite Hlu. intros i Hi.
  unfold vector_use_hint, vector_high_bits. rewrite vget_zip_with, vget_map by lia.
  pose proof (vec_ok_get _ _ _ Hwa Hi) as Hai. pose proof (vec_ok_get _ _ _ Hw Hi) as Hwi. pose proof Hai as [La _]. pose proof Hwi as [Lw _].
  destruct (hint_coeff i 0 Hi ltac:(lia)) as [Lh _].
  unfold poly_use_hint, poly_high_bits. apply coeff_ext; [rewrite zlen_zip_with, zlen_fmap; lia|].
  rewrite zlen_zip_with, Lh by lia. intros x Hx. rewrite coeff_zip_with, coeff_map by lia.
  destruct (hint_coeff i x Hi Hx) as (_ & Eh & _). unfold vc in Eh. rewrite Eh.
  assert (coeff_ok (vc cs2 i x) /\ coeff_ok (vc ct0 i x) /\ coeff_ok (vc w i x) /\ coeff_ok (vc w_approx i x)) as (C2 & C0 & Cw & Ca)
    by (split_and!; apply poly_ok_coeff; try done; by eapply vec_ok_get).
  specialize (Heq i x Hi Hx). specialize (Hb2 i x Hi Hx). specialize (Hb0 i x Hi Hx). specialize (Hlow i x Hi Hx).
  assert (vc (vector_sub w cs2) i x = mod_sub (vc w i x) (vc cs2 i x)) as Esub.
  { pose proof (vec_ok_get _ _ _ Hcs2 Hi) as [? _]. unfold vc, vector_sub. rewrite vget_zip_with by lia. unfold poly_sub.
    by rewrite coeff_zip_with by lia. }
  rewrite Esub in Hlow. destruct (coeff_sub_ok _ _ Cw C2) as [Cs Es]. destruct (coeff_add_ok _ _ Cs C0) as [Cr Er].
  assert (vc w_approx i x = reduce_once (u32 (mod_sub (vc w i x) (vc cs2 i x) + vc ct0 i x))) as Ea
    by (apply cong_eq; [done..|]; by rewrite Er, Es).
  unfold vc in *. rewrite Ea, use_make_hint by (done || lia). eapply high_bits_stable; done.
Qed.
End Hints.
