(* ===== verification/MlDsaSign.v ===== *)
(** * ML-DSA: signing and verification

    Model of [crypto/ml_dsa/ml_dsa_sign.c].  The temporary vectors share one
    allocation in the code; each is written before it is read in every round of
    the signing loop, except the mask [y] and the buffer [w1_encoded], whose
    writers can fail without being checked: these two are the state that one
    attempt hands to the next.  The unbounded loop over [kappa] carries fuel. *)
From S2P Require Import Prelude.
From S2P Require Import ConstantTime.
From S2P Require Import Packet.
From S2P Require Import WPacket.
From S2P Require Import Result.
From S2P Require Import ModCong.
From S2P Require Import MlDsaField.
From S2P Require Import MlDsaNtt.
From S2P Require Import MlDsaPoly.
From S2P Require Import MlDsaParams.
From S2P Require Import MlDsaSig.
From S2P Require Import MlDsaSample.
From S2P Require Import MlDsaKey.
#[local] Close Scope wpacket_scope.

Definition ML_DSA_MU_BYTES : Z := 64.
Definition ML_DSA_MAX_CONTEXT_STRING_LEN : Z := 255.

Definition w1_encoded_len (params : ML_DSA_PARAMS) : Z :=
  dp_k params * (if dp_gamma2 params =? ML_DSA_GAMMA2_Q_MINUS1_DIV88 then 192 else 128).
Definition c_tilde_len (params : ML_DSA_PARAMS) : Z := Z.shiftr (dp_bit_strength params) 2.

(** A signature object over blocks that hold nothing yet. *)
Definition signature_init (k l c_tilde_len : Z) : ML_DSA_SIG :=
  mkML_DSA_SIG (uninit_vector l) (uninit_vector k) (zeros c_tilde_len).

Section Sign.
Context `{XF : Xof} `{FU : Fuel} `{KE : KeyEnv} `{AL : Allocator}.

(** The message representative: the message itself, or its hash with the hash of
    the public key. *)
Definition message_mu (key : ML_DSA_KEY) (msg_is_mu : bool) (encoded_msg : list Z) : res (list Z) :=
  if msg_is_mu then
    check (zlen encoded_msg =? ML_DSA_MU_BYTES);;
    Ret encoded_msg
  else
    '(mu, _) ← of_option (shake_xof_2 (md256 key) (mk_tr key) encoded_msg ML_DSA_MU_BYTES);
    Ret mu.

(** What the signing loop reads: the parameters, the digest, the matrix, the
    transformed secrets, [mu] and [rho_prime]. *)
Record sign_env := mkSignEnv {
  se_params : ML_DSA_PARAMS; se_md : XOF_MD; se_a : MATRIX;
  se_s1 : VECTOR; se_s2 : VECTOR; se_t0 : VECTOR; se_mu : list Z; se_rho_prime : list Z }.

(** One round of the loop, from the mask and the buffer the last one left.  The
    signature is [None] when the attempt is rejected ([continue]); a failing
    digest leaves the loop ([break]). *)
Definition sign_attempt (e : sign_env) (kappa : Z) (y : VECTOR) (w1_encoded : list Z) :
    res (VECTOR * list Z * option ML_DSA_SIG) :=
  let params := se_params e in
  let k := dp_k params in
  let gamma1 := dp_gamma1 params in
  let gamma2 := dp_gamma2 params in
  let y := vector_expand_mask y (se_rho_prime e) kappa gamma1 (se_md e) in
  let y_ntt := vector_ntt y in
  let w := vector_ntt_inverse (ossl_ml_dsa_matrix_mult_vector (se_a e) y_ntt (uninit_vector k)) in
  let w1 := vector_high_bits w gamma2 in
  let '(_, w1_encoded) := ossl_ml_dsa_w1_encode w1 gamma2 w1_encoded in
  '(c_tilde, _) ← of_option (shake_xof_2 (se_md e) (se_mu e) w1_encoded (c_tilde_len params));
  c_ntt ← poly_sample_in_ball_ntt c_tilde (se_md e) (dp_tau params);
  let cs1 := vector_ntt_inverse (vector_mult_scalar (se_s1 e) c_ntt) in
  let cs2 := vector_ntt_inverse (vector_mult_scalar (se_s2 e) c_ntt) in
  let z := vector_add y cs1 in
  let r0 := vector_low_bits (vector_sub w cs2) gamma2 in
  let z_max := vector_max z in
  let r0_max := vector_max_signed r0 in
  if negb (Z.lor (constant_time_ge z_max (u32 (gamma1 - dp_beta params)))
                 (constant_time_ge r0_max (u32 (gamma2 - dp_beta params))) =? 0)
  then Ret (y, w1_encoded, None)
  else
    let ct0 := vector_ntt_inverse (vector_mult_scalar (se_t0 e) c_ntt) in
    let hint := vector_make_hint ct0 cs2 w gamma2 in
    let ct0_max := vector_max ct0 in
    let h_ones := u32 (vector_count_ones hint) in
    if negb (Z.lor (constant_time_ge ct0_max gamma2) (constant_time_lt (u32 (dp_omega params)) h_ones) =? 0)
    then Ret (y, w1_encoded, None)
    else Ret (y, w1_encoded, Some (mkML_DSA_SIG z hint c_tilde)).

(** [for (kappa = 0;; kappa += l)], with at most [n] rounds. *)
Fixpoint sign_loop (n : nat) (e : sign_env) (kappa : Z) (y : VECTOR) (w1_encoded : list Z) : res ML_DSA_SIG :=
  match n with
  | O => Spin
  | S n' =>
    '(y, w1_encoded, sig) ← sign_attempt e kappa y w1_encoded;
    match sig with
    | Some sig => Ret sig
    | None => sign_loop n' e (u64 (kappa + dp_l (se_params e))) y w1_encoded
    end
  end.

(** [out_sig] is the caller's buffer; the result is what it holds. *)
Definition ml_dsa_sign_internal (priv : ML_DSA_KEY) (msg_is_mu : bool) (encoded_msg rnd out_sig : list Z) :
    res (list Z) :=
  let params := mk_params priv in
  let k := dp_k params in
  let l := dp_l params in
  check (alloc_at ScratchPolys);;
  check (has EVP_MD_CTX_new);;
  a_ntt ← ossl_ml_dsa_matrix_expand_A (md128 priv) (mk_rho priv) (uninit_matrix k l);
  mu ← message_mu priv msg_is_mu encoded_msg;
  '(rho_prime, _) ← of_option (shake_xof_3 (md256 priv) (mk_K priv) rnd mu ML_DSA_RHO_PRIME_BYTES);
  let e := mkSignEnv params (md256 priv) a_ntt (vector_ntt (vec (mk_s1 priv))) (vector_ntt (vec (mk_s2 priv)))
             (vector_ntt (vec (mk_t0 priv))) mu rho_prime in
  sig ← sign_loop fuel e 0 (uninit_vector l) (zeros (w1_encoded_len params));
  of_option (ossl_ml_dsa_sig_encode sig params (Some out_sig)).

(** [Ret]: the signature is accepted. *)
Definition ml_dsa_verify_internal (pub : ML_DSA_KEY) (msg_is_mu : bool) (msg_enc sig_enc : list Z) : res unit :=
  let params := mk_params pub in
  let k := dp_k params in
  let l := dp_l params in
  let gamma2 := dp_gamma2 params in
  check (alloc_at ScratchPolys);;
  check (has EVP_MD_CTX_new);;
  sig ← of_option (ossl_ml_dsa_sig_decode (signature_init k l (c_tilde_len params)) sig_enc params);
  a_ntt ← ossl_ml_dsa_matrix_expand_A (md128 pub) (mk_rho pub) (uninit_matrix k l);
  mu ← message_mu pub msg_is_mu msg_enc;
  c_ntt ← poly_sample_in_ball_ntt (sig_c_tilde sig) (md256 pub) (dp_tau params);
  let ct1_ntt := vector_mult_scalar (vector_scale_power2_round_ntt (vec (mk_t1 pub))) c_ntt in
  let z_max := vector_max (sig_z sig) in
  let z_ntt := vector_ntt (sig_z sig) in
  let az_ntt := ossl_ml_dsa_matrix_mult_vector a_ntt z_ntt (uninit_vector k) in
  let w_approx := vector_ntt_inverse (vector_sub az_ntt ct1_ntt) in
  let w1 := vector_use_hint (sig_hint sig) w_approx gamma2 in
  let '(_, w1_encoded) := ossl_ml_dsa_w1_encode w1 gamma2 (zeros (w1_encoded_len params)) in
  '(c_tilde, _) ← of_option (shake_xof_3 (md256 pub) mu w1_encoded [] (c_tilde_len params));
  check ((z_max <? u32 (dp_gamma1 params - dp_beta params)) && bool_decide (c_tilde = sig_c_tilde sig)).

(** Messages of up to 1024 encoded bytes need no allocation. *)
Definition msg_encode (msg ctx : list Z) (encode : bool) : option (list Z) :=
  if negb encode then Some msg
  else if ML_DSA_MAX_CONTEXT_STRING_LEN <? zlen ctx then None
  else
    let encoded_len := u64 (1 + 1 + zlen ctx + zlen msg) in
    if (encoded_len <=? 1024) || alloc_at MessageCopy
    then Some ([0; u8 (zlen ctx)] ++ ctx ++ msg) else None.

(** [sig] is the caller's buffer, [None] for NULL; the result is what it holds and
    what [*sig_len] is set to. *)
Definition ossl_ml_dsa_sign (priv : ML_DSA_KEY) (msg_is_mu : bool) (msg context rand : list Z) (encode : bool)
    (sig : option (list Z)) (sig_size : Z) : res (option (list Z) * Z) :=
  check (has (ossl_ml_dsa_key_get_priv priv));;
  match sig with
  | None => Ret (None, dp_sig_len (mk_params priv))
  | Some out =>
    check (negb (sig_size <? dp_sig_len (mk_params priv)));;
    m ← (if msg_is_mu then Ret msg else of_option (msg_encode msg context encode));
    out ← ml_dsa_sign_internal priv msg_is_mu m rand out;
    Ret (Some out, dp_sig_len (mk_params priv))
  end.

Definition ossl_ml_dsa_verify (pub : ML_DSA_KEY) (msg_is_mu : bool) (msg context : list Z) (encode : bool)
    (sig : list Z) : res unit :=
  check (has (ossl_ml_dsa_key_get_pub pub));;
  m ← (if msg_is_mu then Ret msg else of_option (msg_encode msg context encode));
  ml_dsa_verify_internal pub msg_is_mu m sig.
End Sign.
