(* ===== verification/MlDsaSignSpec.v ===== *)
(** * ML-DSA: signatures that are produced are accepted

    [verifies] states the conditions of Algorithm 8 of FIPS 204 on a decoded
    signature.  [ml_dsa_verify_internal] accepts exactly the encodings of signatures
    that satisfy them; every signature the signing loop returns satisfies them, for
    any genuine key pair, digest, message and randomness; and the loop returns the
    first attempt that passes the signer's checks. *)
From S2P Require Import Prelude.
From S2P Require Import ConstantTime.
From S2P Require Import ByteOrder.
From S2P Require Import Packet.
From S2P Require Import WPacket.
From S2P Require Import WPacketSpec.
From S2P Require Import WPacketOut.
From S2P Require Import ZSum.
From S2P Require Import NttPass.
From S2P Require Import Result.
From S2P Require Import ModCong.
From S2P Require Import MlDsaField.
From S2P Require Import MlDsaRound.
From S2P Require Import MlDsaNtt.
From S2P Require Import MlDsaPoly.
From S2P Require Import MlDsaParams.
From S2P Require Import MlDsaHint.
From S2P Require Import MlDsaSig.
From S2P Require Import MlDsaSample.
From S2P Require Import MlDsaKey.
From S2P Require Import MlDsaKeySpec.
From S2P Require Import MlDsaExample.
From S2P Require Import MlDsaLattice.
From S2P Require Import MlDsaSign.
#[local] Close Scope wpacket_scope.
#[local] Opaque zsum ossl_ml_dsa_poly_ntt ossl_ml_dsa_poly_ntt_inverse ossl_ml_dsa_key_compress_use_hint.

(** ** Ranges *)

Lemma vector_max_range n v : vec_ok n v -> 0 <= vector_max v < 4294967296.
Proof.
  intros [_ Hv]. unfold vector_max. enough (forall mx, 0 <= mx < 4294967296 ->
    0 <= foldl (fun mx p => poly_max p mx) mx v < 4294967296) as H by (by apply H).
  induction Hv as [|p v [_ Hp] Hv IH]; intros mx Hmx; cbn [foldl]; [done|]. apply IH.
  by destruct (poly_max_lt p mx 0 Hp Hmx).
Qed.
Lemma vector_max_signed_range n v gamma2 :
  gamma2_ok gamma2 -> vec_ok n v -> 0 <= vector_max_signed (vector_low_bits v gamma2) < 4294967296.
Proof.
  intros Hg [_ Hv]. unfold vector_max_signed. enough (forall mx, 0 <= mx < 4294967296 ->
    0 <= foldl (fun mx p => poly_max_signed p mx) mx (vector_low_bits v gamma2) < 4294967296) as H by (by apply H).
  induction Hv as [|p v [_ Hp] Hv IH]; intros mx Hmx; cbn [foldl vector_low_bits fmap list_fmap]; [done|]. apply IH.
  by destruct (poly_max_signed_lt p gamma2 mx 0 Hg Hp Hmx).
Qed.
(** Both comparisons of a rejection test fail. *)
Lemma masks_zero a b : (Z.lor (mask_of 32 a) (mask_of 32 b) =? 0) = negb a && negb b.
Proof. by destruct a, b. Qed.

Definition w1_in (gamma2 : Z) (w1 : VECTOR) : Prop :=
  Forall (fun p => zlen p = 256 /\ Forall (fun c => 0 <= c < 2 ^ w1_bits gamma2) p) w1.
Lemma w1_digit gamma2 c : gamma2_ok gamma2 -> 0 <= c < (ML_DSA_Q - 1) / (2 * gamma2) -> 0 <= c < 2 ^ w1_bits gamma2.
Proof.
  intros [-> | ->].
  - change ((ML_DSA_Q - 1) / _) with 16. change (2 ^ w1_bits _) with 16. lia.
  - change ((ML_DSA_Q - 1) / _) with 44. change (2 ^ w1_bits _) with 64. lia.
Qed.
Lemma use_hint_range h r gamma2 :
  coeff_ok r -> gamma2_ok gamma2 -> 0 <= ossl_ml_dsa_key_compress_use_hint h r gamma2 < (ML_DSA_Q - 1) / (2 * gamma2).
Proof.
  intros Hr Hg. rewrite use_hint_spec by done. unfold UseHint. pose proof (decomposes_fips _ _ Hr Hg) as [Hk _].
  destruct (Decompose r gamma2) as [r1 r0]. cbn [fst] in Hk. destruct (h =? 0); [done|].
  destruct (0 <? r0); apply Z.mod_pos_bound; destruct Hg as [-> | ->]; by compute.
Qed.
Lemma use_hint_w1_in n gamma2 h w :
  gamma2_ok gamma2 -> vec_ok n w -> zlen h = n -> Forall (fun p => zlen p = 256) h ->
  w1_in gamma2 (vector_use_hint h w gamma2) /\ zlen (vector_use_hint h w gamma2) = n.
Proof.
  intros Hg Hw Hl Hh. pose proof Hw as [Hlw Hw']. split.
  - unfold w1_in, vector_use_hint. apply Forall_lookup. intros i p. rewrite lookup_zip_with_Some.
    intros (ph & pw & -> & Hi1 & Hi2). rewrite Forall_lookup in Hh, Hw'. specialize (Hh _ _ Hi1). destruct (Hw' _ _ Hi2) as [Hp Hc].
    unfold poly_use_hint. split; [rewrite zlen_zip_with; lia|]. apply coeff_Forall. rewrite zlen_zip_with by lia. intros x Hx.
    rewrite coeff_zip_with by lia. apply w1_digit, use_hint_range; [done| |done]. rewrite coeff_Forall in Hc. apply Hc. lia.
  - unfold vector_use_hint, zlen in *. rewrite length_zip_with. lia.
Qed.
Lemma high_bits_w1_in n gamma2 w :
  gamma2_ok gamma2 -> vec_ok n w -> w1_in gamma2 (vector_high_bits w gamma2) /\ zlen (vector_high_bits w gamma2) = n.
Proof.
  intros Hg [Hl Hw]. split; [|unfold vector_high_bits; by rewrite zlen_fmap]. unfold w1_in, vector_high_bits. apply Forall_fmap.
  eapply Forall_impl; [exact Hw|]. intros p [Hp Hc]. cbn. unfold poly_high_bits. split; [by rewrite zlen_fmap|]. apply Forall_fmap.
  eapply Forall_impl; [exact Hc|]. intros c Hcc. cbn. by apply w1_digit, high_bits_range.
Qed.

Lemma w1_len params : gamma2_ok (dp_gamma2 params) -> w1_encoded_len params = 32 * w1_bits (dp_gamma2 params) * dp_k params.
Proof.
  unfold w1_encoded_len, w1_bits. intros [-> | ->].
  - change (_ =? ML_DSA_GAMMA2_Q_MINUS1_DIV88) with false. rewrite Z.eqb_refl. lia.
  - change (_ =? ML_DSA_GAMMA2_Q_MINUS1_DIV32) with false. rewrite Z.eqb_refl. lia.
Qed.
Lemma w1_len_pos params : mparams_ok params -> 0 <= w1_encoded_len params.
Proof.
  intros (_ & _ & Hg & _ & _ & Hk & _). rewrite w1_len by done.
  assert (4 <= w1_bits (dp_gamma2 params)) by (destruct Hg as [-> | ->]; by compute). nia.
Qed.
Lemma c_len params : c_tilde_len params = dp_bit_strength params / 4.
Proof. unfold c_tilde_len. by rewrite Z.shiftr_div_pow2. Qed.

Lemma signature_init_shape params :
  mparams_ok params -> sig_shape params (signature_init (dp_k params) (dp_l params) (c_tilde_len params)).
Proof.
  intros (_ & _ & _ & _ & _ & Hk & Hl & _ & Hbs & _). unfold sig_shape, signature_init. cbn [sig_c_tilde sig_z sig_hint]. rewrite c_len. split_and!.
  - apply zlen_zeros. destruct Hbs as [-> | [-> | ->]]; by compute.
  - by apply uninit_vector_ok; lia.
  - by apply uninit_vector_ok; lia.
Qed.

(** ** The conditions of verification *)

Section Spec.
Context `{XF : Xof} `{FU : Fuel}.

(** The verifier's approximation of the commitment. *)
Definition approximation (params : ML_DSA_PARAMS) (a : MATRIX) (t1 z : VECTOR) (c : POLY) : VECTOR :=
  vector_ntt_inverse (vector_sub (a_times (dp_k params) a z)
    (vector_mult_scalar (vector_scale_power2_round_ntt t1) (poly_ntt c))).

Definition verifies (params : ML_DSA_PARAMS) (md : XOF_MD) (a : MATRIX) (t1 : VECTOR) (mu : list Z) (sig : ML_DSA_SIG) : Prop :=
  sig_ok params sig /\
  (forall i x, 0 <= i < dp_l params -> 0 <= x < 256 ->
    Z.abs (centered (vc (sig_z sig) i x)) < dp_gamma1 params - dp_beta params) /\
  exists c ctx, ossl_ml_dsa_poly_sample_in_ball (sig_c_tilde sig) md (dp_tau params) = Ret c /\
    shake_xof_2 md mu (w1_encoding (dp_gamma2 params)
      (vector_use_hint (sig_hint sig) (approximation params a t1 (sig_z sig) c) (dp_gamma2 params)))
      (dp_bit_strength params / 4) = Some (sig_c_tilde sig, ctx).

Context `{XL : !XofLaws} `{AL : Allocator} (Halloc : forall n s, malloc_ok n s = true).

Lemma beta_facts params :
  mparams_ok params -> 0 < dp_beta params < 1024 /\ 0 < dp_gamma1 params - dp_beta params < 4294967296 /\
  0 < dp_gamma2 params - dp_beta params < 4294967296 /\ dp_gamma1 params < 1048576 /\ dp_gamma2 params < 1048576.
Proof.
  intros (He & Hg1 & Hg2 & -> & Ht & _).
  assert (2 <= dp_eta params <= 4) by (destruct He as [-> | ->]; by compute).
  assert (131072 <= dp_gamma1 params < 1048576) by (destruct Hg1 as [-> | ->]; by compute).
  assert (95232 <= dp_gamma2 params < 1048576) by (destruct Hg2 as [-> | ->]; by compute). nia.
Qed.
Lemma sig_z_vec params sig : sig_ok params sig -> vec_ok (dp_l params) (sig_z sig).
Proof.
  intros (_ & _ & Hl & Hz & _). split; [done|]. eapply Forall_impl; [exact Hz|]. intros p [Hp Hc]. split; [done|].
  eapply Forall_impl; [exact Hc|]. by intros c [? _].
Qed.
Lemma sampled_challenge seed md tau c :
  0 < tau <= 64 -> ossl_ml_dsa_poly_sample_in_ball seed md tau = Ret c -> is_challenge tau c.
Proof.
  intros Ht Hc. assert (0 <= tau <= 256) as Ht' by lia.
  destruct (sample_in_ball_ok _ _ _ _ Ht' Hc) as (H1 & H2 & _ & H3). split_and!; [done|done|]. lia.
Qed.

Lemma approximation_ok params a t1 z c :
  mparams_ok params -> mat_ok (dp_k params) (dp_l params) a -> vec_in t1_coeff (dp_k params) t1 ->
  vec_ok (dp_l params) z -> poly_ok c -> vec_ok (dp_k params) (approximation params a t1 z c).
Proof.
  intros Hp Ha Ht Hz Hc. apply vector_ntt_inverse_ok, vector_sub_ok.
  - by eapply mult_ok.
  - apply vector_mult_scalar_ok; [by apply scale_round_ok|]. by apply ntt_ok.
Qed.
Lemma w1_encoded_ok params w1 out :
  mparams_ok params -> w1_in (dp_gamma2 params) w1 -> zlen w1 = dp_k params -> zlen out = w1_encoded_len params ->
  ossl_ml_dsa_w1_encode w1 (dp_gamma2 params) out = (true, w1_encoding (dp_gamma2 params) w1) /\
  zlen (w1_encoding (dp_gamma2 params) w1) = w1_encoded_len params.
Proof.
  intros (_ & _ & Hg & _ & _ & Hk & _) Hw Hl Hout. pose proof (w1_len _ Hg) as Hlen. split.
  - apply w1_encode_ok; [done|done|exact Hw|lia|lia].
  - unfold w1_encoding. rewrite vec_encoding_length, Hl; [lia|destruct Hg as [-> | ->]; by compute|].
    eapply Forall_impl; [exact Hw|]. by intros p [? _].
Qed.

Context `{KE : KeyEnv}.

Lemma message_mu_ok key msg_is_mu m mu :
  message_mu key msg_is_mu m = Ret mu -> zlen mu = 64.
Proof.
  unfold message_mu. destruct msg_is_mu.
  - destruct (Z.eqb_spec (zlen m) ML_DSA_MU_BYTES); [|done]. by intros [= <-].
  - destruct (shake_xof_2_ok (md256 key) (mk_tr key) m ML_DSA_MU_BYTES eq_refl) as (b & ctx & -> & Hb & _).
    by intros [= <-].
Qed.

Lemma in_ball_ntt seed md tau :
  poly_sample_in_ball_ntt seed md tau = p ← ossl_ml_dsa_poly_sample_in_ball seed md tau; Ret (poly_ntt p).
Proof. done. Qed.

(** The commitment the verifier recomputes from a decoded signature. *)
Lemma recomputed params md a t1 mu sig c :
  mparams_ok params -> mat_ok (dp_k params) (dp_l params) a -> vec_in t1_coeff (dp_k params) t1 -> sig_ok params sig ->
  ossl_ml_dsa_poly_sample_in_ball (sig_c_tilde sig) md (dp_tau params) = Ret c ->
  let w1 := vector_use_hint (sig_hint sig) (approximation params a t1 (sig_z sig) c) (dp_gamma2 params) in
  ossl_ml_dsa_w1_encode w1 (dp_gamma2 params) (zeros (w1_encoded_len params)) = (true, w1_encoding (dp_gamma2 params) w1) /\
  exists ct ctx, shake_xof_2 md mu (w1_encoding (dp_gamma2 params) w1) (dp_bit_strength params / 4) = Some (ct, ctx).
Proof.
  intros Hp Hma Ht1 Hs Hc. cbv zeta. pose proof Hp as (_ & _ & Hg2 & _ & Htau & _ & _ & _ & Hbs & _).
  pose proof (sig_z_vec _ _ Hs) as Hz. pose proof (sampled_challenge _ _ _ _ Htau Hc) as Hch.
  pose proof (approximation_ok params a t1 _ c Hp Hma Ht1 Hz (challenge_ok _ _ Hch)) as Hap.
  destruct Hs as (_ & _ & _ & _ & Hlh & [Hh _]).
  destruct (use_hint_w1_in _ _ (sig_hint sig) _ Hg2 Hap Hlh) as [Hw1 Hlw1].
  { eapply Forall_impl; [exact Hh|]. by intros p [? _]. }
  destruct (w1_encoded_ok params _ (zeros (w1_encoded_len params)) Hp Hw1 Hlw1 (zlen_zeros _ (w1_len_pos _ Hp))) as [-> _].
  split; [done|]. destruct (shake_xof_2_ok md mu (w1_encoding (dp_gamma2 params) (vector_use_hint (sig_hint sig)
    (approximation params a t1 (sig_z sig) c) (dp_gamma2 params))) (dp_bit_strength params / 4)) as (ct & ctx & E & _).
  { destruct Hbs as [-> | [-> | ->]]; by compute. }
  by exists ct, ctx.
Qed.

(** Verification is exact. *)
Lemma verify_internal_iff pub t1 a msg_is_mu m mu sig_enc :
  public_ok pub t1 -> alloc_at ScratchPolys = true ->
  ossl_ml_dsa_matrix_expand_A (md128 pub) (mk_rho pub) (uninit_matrix (dp_k (mk_params pub)) (dp_l (mk_params pub))) = Ret a ->
  message_mu pub msg_is_mu m = Ret mu -> bytes_ok sig_enc -> zlen sig_enc <= SIZE_MAX / 2 ->
  ml_dsa_verify_internal pub msg_is_mu m sig_enc = Ret tt <->
  exists sig, sig_enc = sig_encoding (mk_params pub) sig /\ verifies (mk_params pub) (md256 pub) a t1 mu sig.
Proof.
  intros (Hp & _ & _ & Et1 & Ht1 & _) Hal Ha Hmu Hok Hmax. set (params := mk_params pub) in *.
  pose proof Hp as (_ & _ & Hg2 & _ & Htau & Hk & Hl & _ & Hbs & _). destruct (beta_facts _ Hp) as (Hb & Hg1b & _).
  assert (mat_ok (dp_k params) (dp_l params) a) as Hma by (eapply matrix_expand_A_ok; [|exact Ha]; apply uninit_matrix_ok; lia).
  pose proof (signature_init_shape _ Hp) as Hsh.
  unfold ml_dsa_verify_internal. rewrite Hal. assert (has EVP_MD_CTX_new = true) as -> by (apply bool_decide_true, ctx_new_ok).
  cbn [check mbind res_bind]. fold params. rewrite Ha, Hmu, Et1. cbn [mbind res_bind vec]. split.
  - intros (sig & Hd & H)%res_bind_Ret. apply of_option_Ret in Hd.
    destruct (sig_decode_inv _ _ _ _ Hp Hsh Hok Hmax Hd) as [Hs ->]. exists sig. split; [done|]. split; [done|].
    rewrite in_ball_ntt in H. destruct (ossl_ml_dsa_poly_sample_in_ball _ _ _) as [c| |] eqn:Hc; [|done..].
    destruct (recomputed _ _ a t1 mu sig c Hp Hma Ht1 Hs Hc) as [Ew (ct & ctx & E)]. unfold approximation, a_times in *.
    cbn [mbind res_bind] in H. rewrite Ew, shake_xof_3_nil, c_len, E in H. cbn [of_option mbind res_bind] in H.
    rewrite u32_small in H by lia.
    destruct (Z.ltb_spec (vector_max (sig_z sig)) (dp_gamma1 params - dp_beta params)) as [Hz|]; [|done].
    cbn [andb] in H. case_bool_decide as Ect; [|done]. rewrite (vector_max_lt (dp_l params)) in Hz by (lia || by apply sig_z_vec).
    split; [done|]. exists c, ctx. split; [done|]. by rewrite E, Ect.
  - intros (sig & -> & Hs & Hz & c & ctx & Hc & E). rewrite (sig_decode_encoding _ _ _ Hp Hs Hsh). cbn [of_option mbind res_bind].
    rewrite in_ball_ntt, Hc. destruct (recomputed _ _ a t1 mu sig c Hp Hma Ht1 Hs Hc) as [Ew _]. unfold approximation, a_times in *.
    cbn [mbind res_bind]. rewrite Ew, shake_xof_3_nil, c_len, E. cbn [of_option mbind res_bind]. rewrite u32_small by lia.
    rewrite <- (vector_max_lt (dp_l params)) in Hz by (lia || by apply sig_z_vec). rewrite bool_decide_true, (proj2 (Z.ltb_lt _ _) Hz) by done.
    done.
Qed.
End Spec.

(** ** One attempt *)

Section Attempt.
Context `{XF : Xof} `{FU : Fuel} `{XL : !XofLaws} `{AL : Allocator} (Halloc : forall n s, malloc_ok n s = true).
Context (e : sign_env).
#[local] Abbreviation params := (se_params e).
#[local] Abbreviation k := (dp_k params).
#[local] Abbreviation l := (dp_l params).

(** The mask, the commitment and the products of the attempt with counter
    [kappa], for the challenge [c]. *)
Definition mask (kappa : Z) : VECTOR :=
  vector_expand_mask (uninit_vector l) (se_rho_prime e) kappa (dp_gamma1 params) (se_md e).
Definition commitment (kappa : Z) : VECTOR := vector_ntt_inverse (a_times k (se_a e) (mask kappa)).
Definition product (s_ntt : VECTOR) (c : POLY) : VECTOR := vector_ntt_inverse (vector_mult_scalar s_ntt (poly_ntt c)).
Definition sig_of (kappa : Z) (c_tilde : list Z) (c : POLY) : ML_DSA_SIG :=
  mkML_DSA_SIG (vector_add (mask kappa) (product (se_s1 e) c))
    (vector_make_hint (product (se_t0 e) c) (product (se_s2 e) c) (commitment kappa) (dp_gamma2 params)) c_tilde.
Definition challenge (kappa : Z) (c_tilde : list Z) (c : POLY) : Prop :=
  (exists ctx, shake_xof_2 (se_md e) (se_mu e)
     (w1_encoding (dp_gamma2 params) (vector_high_bits (commitment kappa) (dp_gamma2 params)))
     (dp_bit_strength params / 4) = Some (c_tilde, ctx)) /\
  ossl_ml_dsa_poly_sample_in_ball c_tilde (se_md e) (dp_tau params) = Ret c.

(** The bounds of Algorithm 7, steps 23 and 28. *)
Definition within (kappa : Z) (c : POLY) : Prop :=
  (forall i x, 0 <= i < l -> 0 <= x < 256 ->
    Z.abs (centered (vc (vector_add (mask kappa) (product (se_s1 e) c)) i x)) < dp_gamma1 params - dp_beta params) /\
  (forall i x, 0 <= i < k -> 0 <= x < 256 ->
    Z.abs (ossl_ml_dsa_key_compress_low_bits (vc (vector_sub (commitment kappa) (product (se_s2 e) c)) i x) (dp_gamma2 params))
      < dp_gamma2 params - dp_beta params) /\
  (forall i x, 0 <= i < k -> 0 <= x < 256 -> Z.abs (centered (vc (product (se_t0 e) c) i x)) < dp_gamma2 params) /\
  zlen (all_positions (sig_hint (sig_of kappa [] c))) <= dp_omega params.

Definition accepted (kappa : Z) (sig : ML_DSA_SIG) : Prop :=
  exists c_tilde c, challenge kappa c_tilde c /\ within kappa c /\ sig = sig_of kappa c_tilde c.
Definition rejected (kappa : Z) : Prop := exists c_tilde c, challenge kappa c_tilde c /\ ~ within kappa c.

Context (Hp : mparams_ok params) (Ha : mat_ok k l (se_a e)).
Context (H1 : vec_ok l (se_s1 e)) (H2 : vec_ok k (se_s2 e)) (H0 : vec_ok k (se_t0 e)).

(** The mask does not depend on what the vector held. *)
Lemma mask_eq y kappa :
  zlen y = l -> vector_expand_mask y (se_rho_prime e) kappa (dp_gamma1 params) (se_md e) = mask kappa.
Proof.
  intros Hl. pose proof Hp as (_ & Hg & _ & _ & _ & _ & Hlp & _).
  pose (seed := fun i => slice (se_rho_prime e) 0 ML_DSA_RHO_PRIME_BYTES ++
      [Z.land (u64 (u32 kappa + i)) 255; Z.land (Z.shiftr (u64 (u32 kappa + i)) 8) 255]).
  enough (forall v : VECTOR, zlen v = l -> let v' := vector_expand_mask v (se_rho_prime e) kappa (dp_gamma1 params) (se_md e) in
    zlen v' = l /\ forall j, 0 <= j < l -> ossl_ml_dsa_poly_expand_mask (seed j) (dp_gamma1 params) (se_md e) = Some (vget v' j)) as H.
  { destruct (H y Hl) as [Ly Hy]. destruct (uninit_vector_ok l ltac:(lia)) as [[Lu _] _]. destruct (H _ Lu) as [Lm Hm].
    apply vec_ext; [unfold mask; lia|]. rewrite Ly. intros j Hj. specialize (Hy j Hj). specialize (Hm j Hj). unfold mask. congruence. }
  clear y Hl. intros y Hl. cbv zeta. pose (P := fun (i : Z) (v : VECTOR) => zlen v = l /\
    forall j, 0 <= j < i -> ossl_ml_dsa_poly_expand_mask (seed j) (dp_gamma1 params) (se_md e) = Some (vget v j)).
  assert (P (0 + Z.of_nat (length y)) (vector_expand_mask y (se_rho_prime e) kappa (dp_gamma1 params) (se_md e))) as HP.
  { unfold vector_expand_mask. apply for_each_inv; [split; [done|lia]|]. intros i v Hi [Hvl Hv]. fold (seed i).
    destruct (ossl_ml_dsa_poly_expand_mask (seed i) (dp_gamma1 params) (se_md e)) as [p|] eqn:E.
    - split; [by rewrite zlen_vset|]. intros j Hj. unfold zlen in Hl, Hvl. rewrite vget_set by (unfold zlen; lia).
      destruct (Z.eqb_spec j i) as [->|]; [done|]. apply Hv. lia.
    - exfalso. unfold ossl_ml_dsa_poly_expand_mask in E. set (n := 32 * _) in E.
      assert (n = 32 * gamma1_bits (dp_gamma1 params)) as Hn by done.
      destruct (shake_xof_ok (se_md e) (seed i) n) as (b & ctx & Eb & Hb & Hok); [rewrite Hn; destruct Hg as [-> | ->]; by vm_compute|].
      rewrite Eb in E. cbn [mbind option_bind] in E.
      destruct (decode_expand_mask_ok _ Hg b Hok) as (p & Ep & _); [lia|]. by rewrite Ep in E. }
  unfold zlen in Hl. destruct HP as [HPl HPj]. split; [exact HPl|]. intros j Hj. apply HPj. lia.
Qed.

Lemma mask_z kappa : zlen (mask kappa) = l /\ Forall (fun p => zlen p = 256 /\ Forall (z_coeff_ok (dp_gamma1 params)) p) (mask kappa).
Proof.
  pose proof Hp as (_ & Hg & _ & _ & _ & _ & Hlp & _). destruct (uninit_vector_ok l ltac:(lia)) as [[Lu _] _].
  rewrite <- Lu at 1. by apply vector_expand_mask_ok.
Qed.
Lemma mask_ok kappa : vec_ok l (mask kappa).
Proof.
  destruct (mask_z kappa) as [Hl Hm]. split; [done|]. eapply Forall_impl; [exact Hm|]. intros p [Hl' Hc]. split; [done|].
  eapply Forall_impl; [exact Hc|]. by intros c [? _].
Qed.
Lemma commitment_ok kappa : vec_ok k (commitment kappa).
Proof. apply vector_ntt_inverse_ok. eapply mult_ok; [exact Ha|apply mask_ok]. Qed.
Lemma product_ok n s c : vec_ok n s -> poly_ok c -> vec_ok n (product s c).
Proof. intros Hs Hc. apply vector_ntt_inverse_ok, vector_mult_scalar_ok; [done|]. by apply ntt_ok. Qed.

(** The branch-free tests are the bounds. *)
Lemma attempt_tests kappa c :
  poly_ok c ->
  let sig := sig_of kappa [] c in
  let r0 := vector_low_bits (vector_sub (commitment kappa) (product (se_s2 e) c)) (dp_gamma2 params) in
  let t := (Z.lor (constant_time_ge (vector_max (sig_z sig)) (u32 (dp_gamma1 params - dp_beta params)))
             (constant_time_ge (vector_max_signed r0) (u32 (dp_gamma2 params - dp_beta params))) =? 0) &&
           (Z.lor (constant_time_ge (vector_max (product (se_t0 e) c)) (dp_gamma2 params))
             (constant_time_lt (u32 (dp_omega params)) (u32 (vector_count_ones (sig_hint sig)))) =? 0) in
  t = true <-> within kappa c.
Proof.
  intros Hc. cbv zeta. pose proof Hp as (_ & _ & Hg & _ & _ & Hk & _ & Hom & _). destruct (beta_facts _ Hp) as (Hb & Hb1 & Hb2 & Hg1' & Hg2').
  pose proof (product_ok _ _ _ H1 Hc) as Hc1. pose proof (product_ok _ _ _ H2 Hc) as Hc2. pose proof (product_ok _ _ _ H0 Hc) as Hc0.
  pose proof (commitment_ok kappa) as Hw. destruct (vector_add_ok _ _ _ (mask_ok kappa) Hc1) as [Hz _].
  destruct (vector_sub_ok _ _ _ Hw Hc2) as [Hs _].
  pose proof (hint_rows_ok k (dp_gamma2 params) _ _ _ Hw Hc2 Hc0) as Hrows. pose proof (zlen_hint k (dp_gamma2 params) _ _ _ Hw Hc2 Hc0) as Hhl.
  destruct (count_ones_positions _ Hrows) as [Hcount Hc2048]; [lia|].
  unfold within, sig_of. cbn [sig_z sig_hint]. rewrite Hcount. set (pos := all_positions _) in *. pose proof (zlen_nonneg pos).
  rewrite (u32_small (dp_gamma1 params - _)), (u32_small (dp_gamma2 params - _)), (u32_small (dp_omega params)), (u32_small (zlen pos)) by lia.
  rewrite !constant_time_ge_spec, constant_time_lt_spec, !masks_zero
    by (lia || (eapply vector_max_range; done) || (eapply vector_max_signed_range; done)).
  rewrite <- (vector_max_lt l), <- (vector_max_signed_lt k), <- (vector_max_lt k) by (done || lia).
  rewrite !andb_true_iff, !negb_true_iff, !Z.leb_gt, Z.ltb_ge. tauto.
Qed.

Lemma sign_attempt_eq kappa y w1_encoded c_tilde c :
  zlen y = l -> zlen w1_encoded = w1_encoded_len params -> challenge kappa c_tilde c ->
  exists b, (b = true <-> within kappa c) /\ exists w1', zlen w1' = w1_encoded_len params /\
    sign_attempt e kappa y w1_encoded = Ret (mask kappa, w1', if b then Some (sig_of kappa c_tilde c) else None).
Proof.
  intros Hy Hw1 [[ctx Hh] Hc]. pose proof Hp as (_ & _ & Hg & _ & Htau & _).
  pose proof (attempt_tests kappa c (challenge_ok _ _ (sampled_challenge _ _ _ _ Htau Hc))) as Ht. cbv zeta in Ht.
  eexists. split; [exact Ht|]. destruct (high_bits_w1_in _ _ _ Hg (commitment_ok kappa)) as [Hin Hlen].
  destruct (w1_encoded_ok Halloc _ _ w1_encoded Hp Hin Hlen Hw1) as [Ew Hwl]. eexists. split; [exact Hwl|].
  unfold sign_attempt. rewrite (mask_eq y kappa Hy). fold (a_times k (se_a e) (mask kappa)). fold (commitment kappa).
  rewrite Ew, c_len, Hh. cbn [of_option mbind res_bind]. rewrite in_ball_ntt, Hc. cbn [mbind res_bind].
  fold (product (se_s1 e) c) (product (se_s2 e) c) (product (se_t0 e) c).
  unfold sig_of. cbn [sig_z sig_hint]. destruct (Z.lor _ _ =? 0); cbn [negb andb]; [|done]. by destruct (Z.lor _ _ =? 0).
Qed.

Lemma sign_attempt_challenge kappa y w1_encoded r :
  zlen y = l -> zlen w1_encoded = w1_encoded_len params -> sign_attempt e kappa y w1_encoded = Ret r ->
  exists c_tilde c, challenge kappa c_tilde c.
Proof.
  intros Hy Hw1. pose proof Hp as (_ & _ & Hg & _ & _ & _ & _ & _ & Hbs & _).
  destruct (high_bits_w1_in _ _ _ Hg (commitment_ok kappa)) as [Hin Hlen].
  destruct (w1_encoded_ok Halloc _ _ w1_encoded Hp Hin Hlen Hw1) as [Ew _].
  destruct (shake_xof_2_ok (se_md e) (se_mu e) (w1_encoding (dp_gamma2 params) (vector_high_bits (commitment kappa) (dp_gamma2 params)))
    (dp_bit_strength params / 4)) as (ct & ctx & E & _); [destruct Hbs as [-> | [-> | ->]]; by compute|].
  unfold sign_attempt. rewrite (mask_eq y kappa Hy). fold (a_times k (se_a e) (mask kappa)). fold (commitment kappa).
  rewrite Ew, c_len, E. cbn [of_option mbind res_bind]. rewrite in_ball_ntt.
  destruct (ossl_ml_dsa_poly_sample_in_ball ct (se_md e) (dp_tau params)) as [c| |] eqn:Hc; [|done..]. intros _.
  exists ct, c. split; [by exists ctx|done].
Qed.

(** ** The loop *)

(** The counter of attempt [i]. *)
Definition kappa_at (kappa : Z) (i : nat) : Z := u64 (kappa + Z.of_nat i * l).

Lemma kappa_at_S kappa i : kappa_at (u64 (kappa + l)) i = kappa_at kappa (S i).
Proof. unfold kappa_at, u64. rewrite Zplus_mod_idemp_l. f_equal. lia. Qed.
Lemma kappa_at_0 kappa : 0 <= kappa < 2 ^ 64 -> kappa_at kappa 0 = kappa.
Proof. intros Hk. unfold kappa_at. rewrite u64_small; change (2 ^ 64) with 18446744073709551616 in *; lia. Qed.

Lemma challenge_unique kappa ct c ct' c' : challenge kappa ct c -> challenge kappa ct' c' -> ct = ct' /\ c = c'.
Proof.
  intros [[ctx E] Hc] [[ctx' E'] Hc']. assert (ct = ct') as <- by congruence. split; [done|]. rewrite Hc in Hc'. by apply Ret_inj.
Qed.

(** The loop returns the first attempt within the bounds. *)
Lemma sign_loop_first n kappa y w1_encoded sig :
  0 <= kappa < 2 ^ 64 -> zlen y = l -> zlen w1_encoded = w1_encoded_len params ->
  sign_loop n e kappa y w1_encoded = Ret sig <->
  exists i, (i < n)%nat /\ accepted (kappa_at kappa i) sig /\ forall j, (j < i)%nat -> rejected (kappa_at kappa j).
Proof.
  revert kappa y w1_encoded. induction n as [|n IH]; intros kappa y w1_encoded Hk Hy Hw; [split; [done|intros (i & ? & _); lia]|].
  assert (0 <= u64 (kappa + l) < 2 ^ 64) as Hk' by apply u64_range. cbn [sign_loop]. split.
  - intros ([[y' w'] o] & Ha' & H)%res_bind_Ret. destruct (sign_attempt_challenge _ _ _ _ Hy Hw Ha') as (ct & c & Hch).
    destruct (sign_attempt_eq kappa y w1_encoded ct c Hy Hw Hch) as (b & Hb & w1' & Hl' & E). rewrite E in Ha'.
    apply Ret_inj in Ha'. injection Ha' as <- <- <-. destruct b.
    + apply Ret_inj in H as <-. exists 0%nat. rewrite kappa_at_0 by done. split_and!; [lia| |intros; lia]. exists ct, c.
      split_and!; [done| |done]. by apply Hb.
    + apply IH in H as (i & Hi & Hacc & Hrej); [|done|apply mask_z|done]. exists (S i). rewrite <- kappa_at_S.
      split_and!; [lia|done|]. intros [|j] Hj; [|rewrite <- kappa_at_S; apply Hrej; lia]. rewrite kappa_at_0 by done.
      exists ct, c. split; [done|]. by rewrite <- Hb.
  - intros (i & Hi & Hacc & Hrej). destruct i as [|i].
    + rewrite kappa_at_0 in Hacc by done. destruct Hacc as (ct & c & Hch & Hin & ->).
      destruct (sign_attempt_eq kappa y w1_encoded ct c Hy Hw Hch) as (b & Hb & w1' & _ & ->).
      rewrite (proj2 Hb Hin). done.
    + destruct (Hrej 0%nat ltac:(lia)) as (ct & c & Hch & Hout). rewrite kappa_at_0 in Hch, Hout by done.
      destruct (sign_attempt_eq kappa y w1_encoded ct c Hy Hw Hch) as (b & Hb & w1' & Hl' & ->).
      destruct b; [by destruct Hout; apply Hb|]. cbn [mbind res_bind]. apply IH; [done|apply mask_z|done|].
      exists i. rewrite kappa_at_S. split_and!; [lia|done|]. intros j Hj. rewrite kappa_at_S. apply Hrej. lia.
Qed.

(** ** Soundness *)

Context (s1 s2 t1 t0 : VECTOR) (Hs1 : vec_in (short (dp_eta params)) l s1) (Hs2 : vec_in (short (dp_eta params)) k s2).
Context (Ht1 : vec_in t1_coeff k t1) (Ht0 : vec_in t0_coeff k t0) (Ht : vector_power2_round (t_vector (se_a e) s1 s2) = (t1, t0)).
Context (E1 : se_s1 e = vector_ntt s1) (E2 : se_s2 e = vector_ntt s2) (E0 : se_t0 e = vector_ntt t0).

Lemma vec_in_coeff (P : Z -> Prop) n v i x : vec_in P n v -> 0 <= i < n -> 0 <= x < 256 -> P (vc v i x).
Proof.
  intros [Hl Hv] Hi Hx. rewrite Forall_lookup in Hv. destruct (Hv (Z.to_nat i) (vget v i)) as [Hp' Hc]; [apply vget_lookup; lia|].
  rewrite coeff_Forall in Hc. apply Hc. lia.
Qed.

(** [c s2] is at most [beta]. *)
Lemma cs2_bound c :
  is_challenge (dp_tau params) c ->
  forall i x, 0 <= i < k -> 0 <= x < 256 -> Z.abs (centered (vc (product (se_s2 e) c) i x)) <= dp_beta params.
Proof.
  intros Hc. pose proof Hp as (He & _ & _ & -> & Htau & _). rewrite E2.
  apply (scaled_bound (dp_tau params) k c s2 (dp_eta params)); [done|eapply vec_in_ok; [|exact Hs2]; by intros ? []|..].
  - destruct He as [-> | ->]; by compute.
  - change ML_DSA_Q_MINUS1_DIV2 with 4190208. destruct He as [-> | ->]; [change ML_DSA_ETA_2 with 2|change ML_DSA_ETA_4 with 4]; lia.
  - intros i x Hi Hx. by apply (vec_in_coeff _ _ _ _ _ Hs2).
Qed.

Lemma accepted_verifies kappa sig : accepted kappa sig -> verifies params (se_md e) (se_a e) t1 (se_mu e) sig.
Proof.
  intros (ct & c & [[ctx Hh] Hc] & (Bz & Br & B0 & Bh) & ->). pose proof Hp as (_ & Hg1 & Hg & _ & Htau & Hk & Hl & _ & Hbs & _).
  pose proof (sampled_challenge _ _ _ _ Htau Hc) as Hch. pose proof (challenge_ok _ _ Hch) as Hco.
  pose proof (product_ok _ _ _ H1 Hco) as Hc1. pose proof (product_ok _ _ _ H2 Hco) as Hc2. pose proof (product_ok _ _ _ H0 Hco) as Hc0.
  pose proof (commitment_ok kappa) as Hw. destruct (vector_add_ok _ _ _ (mask_ok kappa) Hc1) as [Hz _].
  destruct (beta_facts _ Hp) as (Hb & _).
  destruct (shake_xof_2_ok (se_md e) (se_mu e) (w1_encoding (dp_gamma2 params) (vector_high_bits (commitment kappa) (dp_gamma2 params)))
    (dp_bit_strength params / 4)) as (ct' & ctx' & Eh & Hctl & Hctb); [destruct Hbs as [-> | [-> | ->]]; by compute|].
  rewrite Hh in Eh. injection Eh as <- <-.
  assert (sig_ok params (sig_of kappa ct c)) as Hs.
  { unfold sig_ok, sig_of. cbn [sig_c_tilde sig_z sig_hint]. split_and!; [done|done|by destruct Hz| |by apply zlen_hint|].
    - apply Forall_lookup. intros i p Hpi. pose proof (lookup_lt_Some _ _ _ Hpi) as Hi. destruct Hz as [Hlz Hz].
      rewrite Forall_lookup in Hz. destruct (Hz _ _ Hpi) as [Hp256 Hpc]. split; [done|]. apply coeff_Forall. intros x Hx.
      rewrite coeff_Forall in Hpc. split; [by apply Hpc|]. specialize (Bz (Z.of_nat i) x ltac:(unfold zlen in Hlz; lia) ltac:(lia)).
      unfold vc, vget in Bz. rewrite Nat2Z.id, Hpi in Bz. cbn [default from_option id] in Bz. lia.
    - split; [by apply (hint_rows_ok k)|done]. }
  split; [exact Hs|]. split; [exact Bz|]. exists c, ctx. split; [exact Hc|]. cbn [sig_hint sig_of sig_z sig_c_tilde].
  rewrite (hints_recover k (dp_gamma2 params) Hg _ _ _ Hw Hc2 Hc0 (dp_beta params)); [exact Hh| |..|exact B0|exact Br].
  - apply approximation_ok; done.
  - intros i x Hi Hx. unfold approximation, product, commitment. rewrite E1, E2, E0.
    apply (verifier_equation k l (se_a e) Ha s1 s2 t1 t0); try done; try (eapply vec_in_ok; [|done]; by intros ? []). apply mask_ok.
  - by apply cs2_bound.
Qed.
End Attempt.

(** ** Whole signatures *)

Section Whole.
Context `{XF : Xof} `{FU : Fuel} `{XL : !XofLaws} `{KE : KeyEnv} `{AL : Allocator} (Halloc : forall n s, malloc_ok n s = true).

(** What the signing loop runs on, for a key and a message representative. *)
Definition loop_env (priv : ML_DSA_KEY) (a : MATRIX) (mu rho_prime : list Z) : sign_env :=
  mkSignEnv (mk_params priv) (md256 priv) a (vector_ntt (vec (mk_s1 priv))) (vector_ntt (vec (mk_s2 priv)))
    (vector_ntt (vec (mk_t0 priv))) mu rho_prime.

(** The facts on a pair that the loop needs. *)
Lemma pair_env priv :
  key_pair priv -> exists a s1 s2 t1 t0, public_ok priv t1 /\
    ossl_ml_dsa_matrix_expand_A (md128 priv) (mk_rho priv) (uninit_matrix (dp_k (mk_params priv)) (dp_l (mk_params priv))) = Ret a /\
    mat_ok (dp_k (mk_params priv)) (dp_l (mk_params priv)) a /\
    mk_s1 priv = Some s1 /\ mk_s2 priv = Some s2 /\ mk_t0 priv = Some t0 /\
    vec_in (short (dp_eta (mk_params priv))) (dp_l (mk_params priv)) s1 /\
    vec_in (short (dp_eta (mk_params priv))) (dp_k (mk_params priv)) s2 /\
    vec_in t1_coeff (dp_k (mk_params priv)) t1 /\ vec_in t0_coeff (dp_k (mk_params priv)) t0 /\
    vector_power2_round (t_vector a s1 s2) = (t1, t0).
Proof.
  intros Hpair. pose proof Hpair as (a & s1 & s2 & t0 & t1 & Hpub & _). pose proof Hpub as (_ & _ & _ & Et1 & _).
  destruct (key_pair_facts _ Hpair) as (a' & s1' & s2' & t0' & t1' & Hc & _ & _ & Hm & _).
  destruct Hc as (Hp & _ & _ & _ & _ & E1 & E2 & E0 & Et1' & Ha & H1 & H2 & Ht1 & Ht0 & Hround).
  exists a', s1', s2', t1', t0'. assert (t1 = t1') as -> by congruence. by split_and!.
Qed.
Lemma short_vec_ntt eta n s : vec_in (short eta) n s -> vec_ok n (vector_ntt s).
Proof. intros Hs. apply vector_ntt_ok. eapply vec_in_ok; [apply short_coeff_ok|done]. Qed.
Lemma t0_vec_ntt n t0 : vec_in t0_coeff n t0 -> vec_ok n (vector_ntt t0).
Proof. intros Ht. apply vector_ntt_ok. eapply vec_in_ok; [|done]. by intros c [? _]. Qed.

Lemma rho_prime_some priv rnd mu :
  exists rho_prime ctx, shake_xof_3 (md256 priv) (mk_K priv) rnd mu ML_DSA_RHO_PRIME_BYTES = Some (rho_prime, ctx).
Proof. destruct (shake_xof_3_ok (md256 priv) (mk_K priv) rnd mu ML_DSA_RHO_PRIME_BYTES eq_refl) as (b & ctx & E & _). by exists b, ctx. Qed.

(** Signing returns the encoding of the first attempt within the bounds. *)
Lemma sign_internal_iff priv a msg_is_mu m mu rho_prime ctx rnd out out' :
  key_pair priv -> alloc_at ScratchPolys = true ->
  ossl_ml_dsa_matrix_expand_A (md128 priv) (mk_rho priv) (uninit_matrix (dp_k (mk_params priv)) (dp_l (mk_params priv))) = Ret a ->
  message_mu priv msg_is_mu m = Ret mu ->
  shake_xof_3 (md256 priv) (mk_K priv) rnd mu ML_DSA_RHO_PRIME_BYTES = Some (rho_prime, ctx) ->
  dp_sig_len (mk_params priv) <= zlen out ->
  let e := loop_env priv a mu rho_prime in
  ml_dsa_sign_internal priv msg_is_mu m rnd out = Ret out' <->
  exists i sig, (i < fuel)%nat /\ accepted e (kappa_at e 0 i) sig /\ (forall j, (j < i)%nat -> rejected e (kappa_at e 0 j)) /\
    out' = splice out 0 (sig_encoding (mk_params priv) sig).
Proof.
  intros Hpair Hal Ha Hmu Hrho Hout e.
  destruct (pair_env _ Hpair) as (a' & s1 & s2 & t1 & t0 & (Hp & _) & Ha' & Hm & E1 & E2 & E0 & H1 & H2 & Ht1 & Ht0 & Hround).
  rewrite Ha in Ha'. apply Ret_inj in Ha' as <-. pose proof Hp as (_ & _ & _ & _ & _ & Hk & Hl & _).
  assert (has EVP_MD_CTX_new = true) as Hn by (apply bool_decide_true, ctx_new_ok).
  assert (se_s1 e = vector_ntt s1 /\ se_s2 e = vector_ntt s2 /\ se_t0 e = vector_ntt t0) as (G1 & G2 & G0)
    by (unfold e, loop_env; cbn; by rewrite E1, E2, E0).
  pose proof (sign_loop_first Halloc e Hp Hm) as Hfirst. rewrite G1, G2, G0 in Hfirst.
  specialize (Hfirst (short_vec_ntt _ _ _ H1) (short_vec_ntt _ _ _ H2) (t0_vec_ntt _ _ Ht0) fuel 0
    (uninit_vector (dp_l (mk_params priv))) (zeros (w1_encoded_len (mk_params priv)))).
  assert (forall sig, sign_loop fuel e 0 (uninit_vector (dp_l (mk_params priv))) (zeros (w1_encoded_len (mk_params priv))) = Ret sig <->
    exists i, (i < fuel)%nat /\ accepted e (kappa_at e 0 i) sig /\ forall j, (j < i)%nat -> rejected e (kappa_at e 0 j)) as Hloop.
  { intros sig. apply Hfirst; [by compute|apply (uninit_vector_ok (dp_l (mk_params priv))); lia|apply zlen_zeros; by apply w1_len_pos]. }
  clear Hfirst.
  assert (forall kappa sig, accepted e kappa sig -> ossl_ml_dsa_sig_encode sig (mk_params priv) (Some out) =
    Some (splice out 0 (sig_encoding (mk_params priv) sig))) as Henc.
  { intros kappa sig Hacc. apply sig_encode_ok; [done|done| |done].
    eapply (accepted_verifies e Hp Hm) in Hacc; [apply Hacc|..]; rewrite ?G1, ?G2, ?G0;
      try done; try (by eapply short_vec_ntt); by eapply t0_vec_ntt. }
  unfold ml_dsa_sign_internal. rewrite Hal, Hn. cbn [check mbind res_bind]. rewrite Ha. cbn [mbind res_bind]. rewrite Hmu.
  cbn [mbind res_bind]. rewrite Hrho. cbn [of_option mbind res_bind]. fold (loop_env priv a mu rho_prime). fold e. split.
  - intros (sig & Hsig & He)%res_bind_Ret. apply Hloop in Hsig as (i & Hi & Hacc & Hrej). exists i, sig.
    rewrite (Henc _ _ Hacc) in He. by apply Ret_inj in He.
  - intros (i & sig & Hi & Hacc & Hrej & ->). rewrite (proj2 (Hloop sig)) by (by exists i). cbn [mbind res_bind].
    by rewrite (Henc _ _ Hacc).
Qed.

(** Every signature of a pair satisfies the conditions of verification. *)
Lemma sign_internal_verifies priv msg_is_mu m rnd out out' :
  key_pair priv -> dp_sig_len (mk_params priv) <= zlen out -> ml_dsa_sign_internal priv msg_is_mu m rnd out = Ret out' ->
  exists a t1 mu sig, public_ok priv t1 /\ message_mu priv msg_is_mu m = Ret mu /\ alloc_at ScratchPolys = true /\
    ossl_ml_dsa_matrix_expand_A (md128 priv) (mk_rho priv) (uninit_matrix (dp_k (mk_params priv)) (dp_l (mk_params priv))) = Ret a /\
    verifies (mk_params priv) (md256 priv) a t1 mu sig /\
    out' = splice out 0 (sig_encoding (mk_params priv) sig).
Proof.
  intros Hpair Hout Hsign.
  destruct (pair_env _ Hpair) as (a & s1 & s2 & t1 & t0 & Hpub & Ha & Hm & E1 & E2 & E0 & H1 & H2 & Ht1 & Ht0 & Hround). pose proof Hpub as (Hp & _).
  assert (alloc_at ScratchPolys = true) as Hal by (unfold ml_dsa_sign_internal in Hsign; by destruct (alloc_at ScratchPolys)).
  assert (exists mu, message_mu priv msg_is_mu m = Ret mu) as [mu Hmu].
  { unfold ml_dsa_sign_internal in Hsign. apply res_bind_Ret in Hsign as (? & _ & Hsign). apply res_bind_Ret in Hsign as (? & _ & Hsign).
    apply res_bind_Ret in Hsign as (? & _ & Hsign). apply res_bind_Ret in Hsign as (mu & ? & _). by exists mu. }
  destruct (rho_prime_some priv rnd mu) as (rho_prime & ctx & Hrho).
  pose proof (sign_internal_iff priv a msg_is_mu m mu rho_prime ctx rnd out out' Hpair Hal Ha Hmu Hrho Hout) as Hiff. cbv zeta in Hiff.
  destruct (proj1 Hiff Hsign) as (i & sig & _ & Hacc & _ & Eo). clear Hiff.
  exists a, t1, mu, sig. split_and!; [done..| |exact Eo].
  eapply (accepted_verifies (loop_env priv a mu rho_prime) Hp Hm) in Hacc; [exact Hacc|..];
    cbn; rewrite ?E1, ?E2, ?E0; cbn [vec]; try done; try (by eapply short_vec_ntt); by eapply t0_vec_ntt.
Qed.

Lemma sign_run key msg context rand out size m sig :
  is_Some (mk_priv_encoding key) -> dp_sig_len (mk_params key) <= size -> msg_encode msg context true = Some m ->
  ml_dsa_sign_internal key false m rand out = Ret sig ->
  ossl_ml_dsa_sign key false msg context rand true (Some out) size = Ret (Some sig, dp_sig_len (mk_params key)).
Proof.
  intros [sk Hsk] Hs Hm E. unfold ossl_ml_dsa_sign, ossl_ml_dsa_key_get_priv. rewrite Hsk, has_Some. destruct (Z.ltb_spec size (dp_sig_len (mk_params key))); [lia|].
  cbn [check negb mbind res_bind]. rewrite Hm. cbn [of_option mbind res_bind]. by rewrite E.
Qed.

(** What a caller of [ossl_ml_dsa_verify] observes. *)
Definition accepts (pub : ML_DSA_KEY) (msg_is_mu : bool) (msg context : list Z) (encode : bool) (sig : list Z) : Prop :=
  ossl_ml_dsa_verify pub msg_is_mu msg context encode sig = Ret tt.

(** A key with the public components of [key]. *)
Lemma public_ok_same key t1 f :
  public_ok key t1 -> same_public key f -> mk_params f = mk_params key -> md256 f = md256 key -> public_ok f t1.
Proof.
  intros (Hp & Hr & Hb & E1 & H1 & Ep & Hx) (Fr & Ft & F1 & Fp) Epar M. unfold public_ok. rewrite Fr, Ft, F1, Fp, Epar, M. by split_and!.
Qed.

Lemma sign_accepted key f msg_is_mu msg context rand encode out size sig len :
  key_pair key -> same_public key f -> mk_params f = mk_params key -> md128 f = md128 key -> md256 f = md256 key ->
  size <= zlen out -> ossl_ml_dsa_sign key msg_is_mu msg context rand encode (Some out) size = Ret (Some sig, len) ->
  len = dp_sig_len (mk_params key) /\ zlen sig = zlen out /\ accepts f msg_is_mu msg context encode (slice sig 0 len).
Proof.
  intros Hpair Hsame Ep M1 M2 Hout (u & _ & H)%res_bind_Ret. apply res_bind_Ret in H as (u' & Hsize & H).
  apply res_bind_Ret in H as (m & Hm & H). apply res_bind_Ret in H as (sg & Hsign & H). apply Ret_inj in H. injection H as <- <-.
  destruct (Z.ltb_spec size (dp_sig_len (mk_params key))); [done|]. clear Hsize.
  assert (dp_sig_len (mk_params key) <= zlen out) as Hroom by lia.
  destruct (sign_internal_verifies _ _ _ _ _ _ Hpair Hroom Hsign) as (a & t1 & mu & s & Hpub & Hmu & Hal & Ha & Hv & ->).
  pose proof Hv as [Hs _]. pose proof Hpub as (Hp & _). pose proof (sig_encoding_length _ _ Hp Hs) as Hlen.
  pose proof (mparams_lens _ Hp) as (Hsl & _). split; [done|].
  assert (zlen (splice out 0 (sig_encoding (mk_params key) s)) = zlen out) as Hzl by (apply splice_zlen; lia). split; [exact Hzl|].
  rewrite <- Hlen at 1. rewrite slice_splice_same by lia.
  unfold accepts, ossl_ml_dsa_verify. pose proof (public_ok_same _ _ _ Hpub Hsame Ep M2) as Hf. pose proof Hf as (_ & _ & _ & _ & _ & Fp & _).
  unfold ossl_ml_dsa_key_get_pub. rewrite Fp. change (check (has (Some ?x))) with (@Ret unit tt). cbn [mbind res_bind]. rewrite Hm. cbn [mbind res_bind].
  destruct Hsame as (Fr & Ft & _).
  eapply (verify_internal_iff Halloc f t1 a); [exact Hf|exact Hal|by rewrite M1, Fr, Ep| | |unfold SIZE_MAX; dlia|].
  - unfold message_mu in *. rewrite M2, Ft. exact Hmu.
  - by apply sig_encoding_ok.
  - exists s. rewrite Ep, M2. done.
Qed.
End Whole.

(** ** A run in which the first attempt is accepted *)

Lemma small_decomposes r gamma2 :
  coeff_ok r -> gamma2_ok gamma2 -> Z.abs (centered r) < gamma2 ->
  ossl_ml_dsa_key_compress_high_bits r gamma2 = 0 /\ ossl_ml_dsa_key_compress_low_bits r gamma2 = centered r.
Proof.
  intros Hr Hg Hb. assert (decomposes r gamma2 0 (centered r)) as Hd.
  { assert (0 <= 0 < (ML_DSA_Q - 1) / (2 * gamma2)) as Hm by (destruct Hg as [-> | ->]; by compute). split; [exact Hm|].
    unfold centered, coeff_ok in *. destruct (Z.leb_spec r ML_DSA_Q_MINUS1_DIV2); [left|right]; lia. }
  split; [by eapply high_bits_unique|]. unfold ossl_ml_dsa_key_compress_low_bits. pose proof (decompose_decomposes _ _ Hr Hg) as Hd'.
  destruct (ossl_ml_dsa_key_compress_decompose r gamma2) as [r1 r0]. by destruct (decomposes_unique _ _ _ _ _ _ Hg Hd' Hd).
Qed.
Lemma centered_add a b c : coeff_ok a -> coeff_ok b -> coeff_ok c -> c ≡q a + b -> Z.abs (centered a) + Z.abs (centered b) <= ML_DSA_Q_MINUS1_DIV2 ->
  Z.abs (centered c) <= Z.abs (centered a) + Z.abs (centered b).
Proof.
  intros Ha Hb Hc E Hlim. rewrite (centered_unique c (centered a + centered b)); [lia|done|lia|]. by rewrite E, !centered_cong.
Qed.
Lemma centered_sub a b c : coeff_ok a -> coeff_ok b -> coeff_ok c -> c ≡q a - b -> Z.abs (centered a) + Z.abs (centered b) <= ML_DSA_Q_MINUS1_DIV2 ->
  Z.abs (centered c) <= Z.abs (centered a) + Z.abs (centered b).
Proof.
  intros Ha Hb Hc E Hlim. rewrite (centered_unique c (centered a - centered b)); [lia|done|lia|]. by rewrite E, !centered_cong.
Qed.
Lemma positions_nil p : (forall x, 0 <= x < 256 -> coeff p x = 0) -> positions p = [].
Proof.
  intros Hp. destruct (positions p) as [|i l] eqn:E; [done|]. assert (i ∈ positions p) as Hi by (rewrite E; by left).
  apply positions_elem in Hi as [Hi Hn]. by rewrite Hp in Hn.
Qed.
Lemma all_positions_nil n h : zlen h = n -> (forall i x, 0 <= i < n -> 0 <= x < 256 -> vc h i x = 0) -> all_positions h = [].
Proof.
  intros Hl Hh. unfold all_positions. assert (positions <$> h = replicate (length h) []) as ->.
  { apply list_eq. intros i. rewrite list_lookup_fmap. destruct (h !! i) as [p|] eqn:E; cbn.
    - pose proof (lookup_lt_Some _ _ _ E) as Hi. rewrite lookup_replicate_2 by done. f_equal. apply positions_nil. intros x Hx.
      specialize (Hh (Z.of_nat i) x). unfold vc, vget in Hh. rewrite Nat2Z.id, E in Hh. apply Hh; [unfold zlen in Hl; lia|done].
    - symmetry. apply lookup_ge_None_2. rewrite length_replicate. by apply lookup_ge_None. }
  clear Hl Hh. induction h as [|p h IH]; [done|]. exact IH.
Qed.

Section Flat.
Context `{XF : Xof} `{XL : !XofLaws} (e : sign_env) (kappa : Z) (s1 s2 t0 : VECTOR) (c : POLY).
#[local] Abbreviation params := (se_params e).
Context (Hp : mparams_ok params).
Context (E1 : se_s1 e = vector_ntt s1) (E2 : se_s2 e = vector_ntt s2) (E0 : se_t0 e = vector_ntt t0).
Context (H1 : vec_in (short (dp_eta params)) (dp_l params) s1) (H2 : vec_in (short (dp_eta params)) (dp_k params) s2).
Context (H0 : vec_in (short (dp_eta params)) (dp_k params) t0) (Hc : is_challenge (dp_tau params) c).
Context (Hmask : mask e kappa = uninit_vector (dp_l params)) (Hw : commitment e kappa = uninit_vector (dp_k params)).

Lemma short_product n s :
  vec_in (short (dp_eta params)) n s -> vec_ok n (product (vector_ntt s) c) /\
  forall i x, 0 <= i < n -> 0 <= x < 256 -> Z.abs (centered (vc (product (vector_ntt s) c) i x)) <= dp_beta params.
Proof.
  intros Hs. assert (vec_ok n s) as Hso by (eapply vec_in_ok; [apply short_coeff_ok|done]). pose proof Hp as (He & _ & _ & -> & Htau & _). split.
  - apply product_ok; [by apply vector_ntt_ok|by eapply challenge_ok].
  - apply (scaled_bound (dp_tau params) n c s (dp_eta params)); [done|done|..].
    + destruct He as [-> | ->]; by compute.
    + change ML_DSA_Q_MINUS1_DIV2 with 4190208. destruct He as [-> | ->]; [change ML_DSA_ETA_2 with 2|change ML_DSA_ETA_4 with 4]; lia.
    + intros i x Hi Hx. by apply (vec_in_coeff _ _ _ _ _ Hs).
Qed.

(** With a zero mask and a zero commitment, and a short [t0], the bounds hold. *)
Lemma flat_within : within e kappa c.
Proof.
  pose proof Hp as (_ & Hg1 & Hg & _ & _ & Hk & Hl & Hom & _). destruct (beta_facts _ Hp) as (Hb & _).
  assert (4096 < dp_gamma1 params /\ 4096 < dp_gamma2 params) as [G1 G2] by (split; [destruct Hg1 as [-> | ->]|destruct Hg as [-> | ->]]; by compute).
  destruct (short_product _ _ H1) as [P1 B1], (short_product _ _ H2) as [P2 B2], (short_product _ _ H0) as [P0 B0].
  destruct (uninit_vector_ok (dp_l params) ltac:(lia)) as [Ul _], (uninit_vector_ok (dp_k params) ltac:(lia)) as [Uk _].
  assert (forall n v i x, vec_ok n v -> 0 <= i < n -> 0 <= x < 256 -> coeff_ok (vc v i x)) as Cok
    by (intros n v i x Hv Hi Hx; apply poly_ok_coeff; [by eapply vec_ok_get|done]).
  destruct (vector_sub_ok _ _ _ Uk P2) as [Ps Fs].
  assert (forall i x, 0 <= i < dp_k params -> 0 <= x < 256 ->
    Z.abs (centered (vc (vector_sub (uninit_vector (dp_k params)) (product (vector_ntt s2) c)) i x)) <= dp_beta params) as Bs.
  { intros i x Hi Hx. etransitivity; [apply (centered_sub 0 (vc (product (vector_ntt s2) c) i x))|];
      [done|by eapply Cok|by eapply Cok| | |]; change (centered 0) with 0; specialize (B2 i x Hi Hx); change ML_DSA_Q_MINUS1_DIV2 with 4190208; try lia.
    rewrite (Fs i Hi x Hx), vc_uninit. done. }
  unfold within. rewrite Hmask, Hw, E1, E2, E0. split_and!.
  - intros i x Hi Hx. destruct (vector_add_ok _ _ _ Ul P1) as [Pz Fz]. specialize (B1 i x Hi Hx).
    eapply Z.le_lt_trans; [apply (centered_add 0 (vc (product (vector_ntt s1) c) i x))|];
      [done|by eapply Cok|by eapply Cok| | |]; change (centered 0) with 0; change ML_DSA_Q_MINUS1_DIV2 with 4190208; try lia.
    rewrite (Fz i Hi x Hx), vc_uninit. done.
  - intros i x Hi Hx. specialize (Bs i x Hi Hx). destruct (small_decomposes _ _ (Cok _ _ i x Ps Hi Hx) Hg) as [_ ->]; lia.
  - intros i x Hi Hx. specialize (B0 i x Hi Hx). lia.
  - unfold sig_of. cbn [sig_hint]. rewrite Hw, E2, E0.
    rewrite (all_positions_nil (dp_k params)); [rewrite zlen_nil; lia|by apply zlen_hint|]. intros i x Hi Hx.
    destruct (hint_coeff (dp_k params) (dp_gamma2 params) _ _ _ Uk P2 P0 i x Hi Hx) as (_ & -> & _).
    specialize (Bs i x Hi Hx). specialize (B0 i x Hi Hx). unfold ossl_ml_dsa_key_compress_make_hint. rewrite vc_uninit.
    pose proof (Cok _ _ i x P2 Hi Hx) as C2. pose proof (Cok _ _ i x P0 Hi Hx) as C0.
    destruct (coeff_sub_ok 0 _ ltac:(done) C2) as [Cs Es]. destruct (coeff_add_ok _ _ Cs C0) as [Ca Ea].
    assert (Z.abs (centered (mod_sub 0 (vc (product (vector_ntt s2) c) i x))) <= dp_beta params) as Bm.
    { etransitivity; [apply (centered_sub 0 (vc (product (vector_ntt s2) c) i x)); try done|];
        change (centered 0) with 0; specialize (B2 i x Hi Hx); change ML_DSA_Q_MINUS1_DIV2 with 4190208; lia. }
    pose proof (centered_add _ _ _ Cs C0 Ca Ea) as Bt. change ML_DSA_Q_MINUS1_DIV2 with 4190208 in Bt.
    destruct (small_decomposes _ _ Cs Hg) as [-> _]; [lia|]. destruct (small_decomposes _ _ Ca Hg) as [-> _]; [lia|]. done.
Qed.
End Flat.

#[local] Existing Instance flat_xof.
#[local] Existing Instance flat_xof_laws.
#[local] Existing Instance example_fuel.
#[local] Existing Instance example_env.
#[local] Existing Instance always_alloc.

Lemma twos_short : vec_in (short 2) 4 (twos 4).
Proof. split; [done|]. apply Forall_replicate. split; [done|]. apply Forall_replicate. split; [by compute|by vm_compute]. Qed.
#[local] Opaque uninit_vector uninit_matrix twos.
Definition example_loop : sign_env := loop_env example_key (uninit_matrix 4 4) (zeros 64) (zeros 64).
Lemma example_accepted c :
  ossl_ml_dsa_poly_sample_in_ball (zeros 32) SHAKE256 39 = Ret c ->
  accepted example_loop (kappa_at example_loop 0 0) (sig_of example_loop 0 (zeros 32) c).
Proof.
  intros Hc. change (kappa_at example_loop 0 0) with 0.
  assert (mask example_loop 0 = uninit_vector 4) as Hm by apply flat_mask.
  assert (commitment example_loop 0 = uninit_vector 4) as Hw.
  { unfold commitment, a_times. rewrite Hm. apply zero_matrix_times; [lia|lia|]. by apply uninit_vector_ok. }
  exists (zeros 32), c. split_and!; [split; [by exists tt|exact Hc]| |done].
  eapply (flat_within example_loop 0 (twos 4) (twos 4) (twos 4)); [apply params_44_ok|reflexivity|reflexivity|reflexivity|
    apply twos_short|apply twos_short|apply twos_short| |exact Hm|exact Hw].
  eapply (sampled_challenge (zeros 32) SHAKE256); [cbn; lia|exact Hc].
Qed.

(** ** Theorems *)

(** C2: key generation, signing and verification fit together.  For every parameter
    set, digest, message, context, randomness and number of attempts: a signature
    that [ossl_ml_dsa_sign] returns for a key that [ossl_ml_dsa_generate_key] has
    generated is accepted by [ossl_ml_dsa_verify] with that key, and with any key
    object that has decoded the exported public key.  It fills the first [sig_len]
    bytes of the caller's buffer. *)
Theorem ml_dsa_keygen_sign_verify `{XF : Xof} `{XL : !XofLaws} `{FU : Fuel} `{KE : KeyEnv} `{AL : Allocator}
    key0 key f msg_is_mu msg context rand encode out size sig len :
  (forall n s, malloc_ok n s = true) -> (forall s, alloc_at s = true) ->
  mparams_ok (mk_params key0) -> ossl_ml_dsa_generate_key key0 = (Ret tt, key) -> fresh_for key f ->
  size <= zlen out -> ossl_ml_dsa_sign key msg_is_mu msg context rand encode (Some out) size = Ret (Some sig, len) ->
  len = dp_sig_len (mk_params key0) /\ zlen sig = zlen out /\
  accepts key msg_is_mu msg context encode (slice sig 0 len) /\
  exists pk f', ossl_ml_dsa_key_get_pub key = Some pk /\ ossl_ml_dsa_pk_decode pk f = (Ret tt, f') /\
    accepts f' msg_is_mu msg context encode (slice sig 0 len).
Proof.
  intros Hal Hs Hp Hgen Hf Hout Hsign. destruct (generate_key_pair Hal _ _ _ Hp Hgen) as (Hpair & Ep & _).
  destruct (sign_accepted Hal key key _ _ _ _ _ _ _ _ _ Hpair ltac:(done) eq_refl eq_refl eq_refl Hout Hsign) as (Hlen & Hz & Hacc).
  split_and!; [congruence|done|done|]. pose proof Hpair as (a & s1 & s2 & t0 & t1 & Hpub & _).
  destruct (pk_decode_run _ _ _ Hs Hpub Hf) as (f' & E & Hsame & Fp & F1 & F2). exists (pk_encoding (mk_rho key) t1), f'.
  destruct Hpub as (_ & _ & _ & _ & _ & Epub & _). split_and!; [exact Epub|exact E|].
  by destruct (sign_accepted Hal key f' _ _ _ _ _ _ _ _ _ Hpair Hsame Fp F1 F2 Hout Hsign) as (_ & _ & ?).
Qed.

(** Signing with the example key. *)
#[local] Opaque ossl_ml_dsa_matrix_expand_A ossl_ml_dsa_sig_encode sign_loop sig_encoding splice.
Lemma example_matrix :
  ossl_ml_dsa_matrix_expand_A (md128 example_key) (mk_rho example_key)
    (uninit_matrix (dp_k (mk_params example_key)) (dp_l (mk_params example_key))) = Ret (uninit_matrix 4 4).
Proof. apply (flat_matrix (mk_rho example_key)). Qed.
Lemma example_mu m : message_mu example_key false m = Ret (zeros 64).
Proof. reflexivity. Qed.
Lemma example_rho_prime mu : shake_xof_3 (md256 example_key) (mk_K example_key) (zeros 32) mu ML_DSA_RHO_PRIME_BYTES = Some (zeros 64, tt).
Proof. reflexivity. Qed.
Lemma example_sign_internal m :
  exists sig, ml_dsa_sign_internal example_key false m (zeros 32) (zeros 2420) = Ret sig.
Proof.
  destruct flat_challenge as [c Hc]. eexists.
  pose proof (sign_internal_iff example_alloc example_key (uninit_matrix 4 4) false m (zeros 64) (zeros 64) tt (zeros 32)
    (zeros 2420)) as Hiff. cbv zeta in Hiff. apply Hiff; clear Hiff.
  - exact example_pair.
  - reflexivity.
  - exact example_matrix.
  - exact (example_mu m).
  - exact (example_rho_prime (zeros 64)).
  - by compute.
  - exists 0%nat, (sig_of example_loop 0 (zeros 32) c). split_and!; [unfold fuel, example_fuel; lia|by apply example_accepted|lia|reflexivity].
Qed.
Lemma example_signs :
  exists sig, ossl_ml_dsa_sign example_key false [1; 2; 3] [] (zeros 32) true (Some (zeros 2420)) 2420 = Ret (Some sig, 2420).
Proof.
  destruct (example_sign_internal [0; 0; 1; 2; 3]) as [sig E]. exists sig.
  assert (dp_sig_len (mk_params example_key) = 2420) as Hl by reflexivity. rewrite <- Hl at 2.
  apply (sign_run example_key [1; 2; 3] [] (zeros 32) (zeros 2420) 2420 [0; 0; 1; 2; 3] sig); [by eexists|by rewrite Hl|reflexivity|exact E].
Qed.

Lemma ml_dsa_keygen_sign_verify_witness :
  exists sig, ossl_ml_dsa_sign example_key false [1; 2; 3] [] (zeros 32) true (Some (zeros 2420)) 2420 = Ret (Some sig, 2420) /\
    accepts example_key false [1; 2; 3] [] true (slice sig 0 2420).
Proof.
  destruct example_signs as [sig Hsig]. exists sig. split; [exact Hsig|].
  destruct (ml_dsa_keygen_sign_verify example_fresh example_key example_fresh false [1; 2; 3] [] (zeros 32) true (zeros 2420) 2420 sig 2420)
    as (_ & _ & Hacc & _); [reflexivity|reflexivity|apply params_44_ok|exact example_generated|by split_and!|by compute|exact Hsig|exact Hacc].
Defined.

(** C7: signing returns the first attempt within the bounds, and does so as soon as
    there is one.  For a key pair whose matrix the sampler returns, and with at most
    [fuel] attempts allowed, the result of [ml_dsa_sign_internal] is the encoding of
    the signature of attempt [i] exactly when [i < fuel], attempt [i] satisfies the
    bounds of Algorithm 7 of FIPS 204 on [z], on the low bits of [w - c s2], on [c t0]
    and on the number of hints, and no earlier attempt does.  The masks of the
    attempts are those of the counters [0], [l], [2 l], ...  *)
Theorem ml_dsa_sign_first_attempt `{XF : Xof} `{XL : !XofLaws} `{FU : Fuel} `{KE : KeyEnv} `{AL : Allocator}
    priv a msg_is_mu m mu rho_prime ctx rnd out out' :
  (forall n s, malloc_ok n s = true) -> key_pair priv -> alloc_at ScratchPolys = true ->
  ossl_ml_dsa_matrix_expand_A (md128 priv) (mk_rho priv) (uninit_matrix (dp_k (mk_params priv)) (dp_l (mk_params priv))) = Ret a ->
  message_mu priv msg_is_mu m = Ret mu ->
  shake_xof_3 (md256 priv) (mk_K priv) rnd mu ML_DSA_RHO_PRIME_BYTES = Some (rho_prime, ctx) ->
  dp_sig_len (mk_params priv) <= zlen out ->
  let e := loop_env priv a mu rho_prime in
  ml_dsa_sign_internal priv msg_is_mu m rnd out = Ret out' <->
  exists i sig, (i < fuel)%nat /\ accepted e (kappa_at e 0 i) sig /\ (forall j, (j < i)%nat -> rejected e (kappa_at e 0 j)) /\
    out' = splice out 0 (sig_encoding (mk_params priv) sig).
Proof. intros Hal Hpair. by apply sign_internal_iff. Qed.

Lemma ml_dsa_sign_first_attempt_witness :
  exists out, ml_dsa_sign_internal example_key true (zeros 64) (zeros 32) (zeros 2420) = Ret out.
Proof.
  destruct flat_challenge as [c Hc]. eexists.
  apply (@ml_dsa_sign_first_attempt flat_xof _ _ _ always_alloc example_key (uninit_matrix 4 4) true (zeros 64) (zeros 64) (zeros 64) tt (zeros 32) (zeros 2420));
    [reflexivity|exact example_pair|reflexivity|apply flat_matrix|reflexivity|reflexivity|by compute|].
  exists 0%nat, (sig_of example_loop 0 (zeros 32) c). split_and!; [unfold fuel, example_fuel; lia|by apply example_accepted|lia|reflexivity].
Defined.

(** A byte string of the wrong length does not decode. *)
Lemma sig_decode_length params sig0 sig_enc :
  mparams_ok params -> sig_shape params sig0 -> bytes_ok sig_enc -> zlen sig_enc <= SIZE_MAX / 2 ->
  zlen sig_enc <> dp_sig_len params -> ossl_ml_dsa_sig_decode sig0 sig_enc params = None.
Proof.
  intros Hp Hsh Hok Hmax Hne. destruct (ossl_ml_dsa_sig_decode sig0 sig_enc params) as [s|] eqn:E; [|done].
  destruct (sig_decode_inv _ _ _ _ Hp Hsh Hok Hmax E) as [Hs ->]. by rewrite sig_encoding_length in Hne.
Qed.
(** C33: what is refused.  Signing refuses a key without a private key, a buffer
    smaller than a signature, and a context string of more than 255 bytes; without a
    buffer it only returns the length.  Verification refuses a key without a public
    key, such a context string, a signature of any other length, and a message
    representative that does not have 64 bytes; so does signing. *)
Theorem ml_dsa_refusals `{XF : Xof} `{XL : !XofLaws} `{FU : Fuel} `{KE : KeyEnv} `{AL : Allocator}
    key msg_is_mu msg context rand encode out size sig :
  mparams_ok (mk_params key) -> bytes_ok sig -> zlen sig <= SIZE_MAX / 2 ->
  let sign o := ossl_ml_dsa_sign key msg_is_mu msg context rand encode o size in
  let verify := ossl_ml_dsa_verify key msg_is_mu msg context encode sig in
  (mk_priv_encoding key = None -> sign (Some out) = Err /\ sign None = Err) /\
  (is_Some (mk_priv_encoding key) -> sign None = Ret (None, dp_sig_len (mk_params key))) /\
  (size < dp_sig_len (mk_params key) -> sign (Some out) = Err) /\
  (msg_is_mu = false -> encode = true -> ML_DSA_MAX_CONTEXT_STRING_LEN < zlen context -> sign (Some out) = Err /\ verify = Err) /\
  (mk_pub_encoding key = None -> verify = Err) /\
  (zlen sig <> dp_sig_len (mk_params key) -> verify = Err) /\
  (msg_is_mu = true -> zlen msg <> ML_DSA_MU_BYTES ->
    ~ accepts key msg_is_mu msg context encode sig /\ forall r, sign (Some out) <> Ret r).
Proof.
  intros Hp Hok Hmax sign verify. unfold sign, verify, ossl_ml_dsa_sign, ossl_ml_dsa_verify, ossl_ml_dsa_key_get_priv, ossl_ml_dsa_key_get_pub.
  split_and!.
  - intros ->. by rewrite has_None.
  - intros [sk ->]. by rewrite has_Some.
  - intros Hs. destruct (has _); [|done]. cbn [check mbind res_bind]. by rewrite (proj2 (Z.ltb_lt _ _) Hs).
  - intros -> -> Hc. unfold msg_encode. rewrite (proj2 (Z.ltb_lt _ _) Hc). cbn [negb of_option mbind res_bind].
    split; [destruct (has _), (size <? _)|destruct (has _)]; done.
  - intros ->. by rewrite has_None.
  - intros Hl. destruct (has _); [|done]. cbn [check mbind res_bind].
    destruct (if msg_is_mu then Ret msg else of_option (msg_encode msg context encode)) as [m| |] eqn:Em;
      [|done|by destruct msg_is_mu, (msg_encode msg context encode)]. cbn [mbind res_bind].
    unfold ml_dsa_verify_internal. destruct (alloc_at ScratchPolys), (has EVP_MD_CTX_new); try done. cbn [check mbind res_bind].
    by rewrite sig_decode_length by (done || by apply signature_init_shape).
  - intros -> Hl. assert (message_mu key true msg = Err) as Hmu by (unfold message_mu; by destruct (Z.eqb_spec (zlen msg) ML_DSA_MU_BYTES)).
    split.
    + unfold accepts, ossl_ml_dsa_verify. intros (? & _ & H)%res_bind_Ret. cbn [mbind res_bind] in H. unfold ml_dsa_verify_internal in H.
      do 4 (apply res_bind_Ret in H as (? & _ & H)). by rewrite Hmu in H.
    + intros r (? & _ & H)%res_bind_Ret. apply res_bind_Ret in H as (? & _ & H). cbn [mbind res_bind] in H. apply res_bind_Ret in H as (? & H & _).
      unfold ml_dsa_sign_internal in H. do 3 (apply res_bind_Ret in H as (? & _ & H)). by rewrite Hmu in H.
Qed.

Lemma ml_dsa_refusals_witness :
  ossl_ml_dsa_verify example_key false [] [] true [] = Err /\
  ossl_ml_dsa_sign example_key false [] [] [] true (Some []) 100 = Err.
Proof.
  destruct (ml_dsa_refusals example_key false [] [] [] true [] 100 []) as (_ & _ & Hs & _ & _ & Hv & _);
    [apply params_44_ok|by apply Forall_nil|by compute|]. split; [by apply Hv|by apply Hs].
Defined.
