(* ===== verification/MlDsaVerify.v ===== *)
(** * ML-DSA: Algorithm 8 of FIPS 204

    The conditions of verification stated without the code: the message representative as
    hashes of the encoded public key and of the message, the commitment recovered by an
    equation between values of polynomials at the roots of unity, the hints applied by
    [UseHint], and the hash of both compared with the challenge; and the proof that
    [ml_dsa_verify_internal] accepts exactly the encodings of the signatures that
    satisfy them. *)
From S2P Require Import Prelude.
From S2P Require Import ConstantTime.
From S2P Require Import ByteOrder.
From S2P Require Import Packet.
From S2P Require Import WPacket.
From S2P Require Import WPacketSpec.
From S2P Require Import WPacketOut.
From S2P Require Import ZSum.
From S2P Require Import NttPass.
From S2P Require Import Result.
From S2P Require Import ModCong.
From S2P Require Import MlDsaField.
From S2P Require Import MlDsaRound.
From S2P Require Import MlDsaNtt.
From S2P Require Import MlDsaPoly.
From S2P Require Import MlDsaParams.
From S2P Require Import MlDsaHint.
From S2P Require Import MlDsaSig.
From S2P Require Import MlDsaSample.
From S2P Require Import MlDsaKey.
From S2P Require Import MlDsaKeySpec.
From S2P Require Import MlDsaExample.
From S2P Require Import MlDsaLattice.
From S2P Require Import MlDsaSign.
From S2P Require Import MlDsaSignSpec.

#[local] Close Scope wpacket_scope.
#[local] Opaque zsum NTT INTT ossl_ml_dsa_poly_ntt ossl_ml_dsa_poly_ntt_inverse ossl_ml_dsa_key_compress_use_hint eval.

Section Algorithm8.
Context `{XF : Xof} `{FU : Fuel}.

(** [H(m1 || m2 || ..., n)] *)
Definition H_xof (md : XOF_MD) (ins : list (list Z)) (n : Z) : option (list Z) :=
  c ← EVP_DigestInit_ex2 md;
  c ← foldl (fun c m => c ≫= fun c => EVP_DigestUpdate c m) (Some c) ins;
  fst <$> EVP_DigestSqueeze c n.

(** Line 6 with [tr = H(pk, 64)]; an external representative is taken as it is. *)
Definition representative (md : XOF_MD) (pk : list Z) (msg_is_mu : bool) (m mu : list Z) : Prop :=
  if msg_is_mu then m = mu /\ zlen mu = 64 else exists tr, H_xof md [pk] 64 = Some tr /\ H_xof md [tr; m] 64 = Some mu.
(** Line 9: [NTT(w') = A o NTT(z) - NTT(c) o NTT(t1 2^13)], where [NTT(f)] is the list of the
    values of [f] at the roots of [X^256 + 1] and [A] is given by its transform. *)
Definition recovers (params : ML_DSA_PARAMS) (a : MATRIX) (t1 z : VECTOR) (c : POLY) (w : VECTOR) : Prop :=
  vec_ok (dp_k params) w /\
  forall i x, 0 <= i < dp_k params -> 0 <= x < 256 ->
    eval (vc w i) (root x) ≡q
    zsum (fun j => mc a i j x * eval (vc z j) (root x)) (Z.to_nat (dp_l params)) - eval (coeff c) (root x) * eval (fun y => 2 ^ 13 * vc t1 i y) (root x).
(** Line 10 *)
Definition hinted (gamma2 : Z) (h w : VECTOR) : VECTOR := zip_with (zip_with (fun h r => UseHint h r gamma2)) h w.
(** Lines 8 to 13 on a decoded signature; the challenge polynomial is the one sampled from
    the hash in the signature. *)
Definition algorithm_8 (params : ML_DSA_PARAMS) (md : XOF_MD) (a : MATRIX) (t1 : VECTOR) (mu : list Z) (sig : ML_DSA_SIG) : Prop :=
  sig_ok params sig /\
  (forall i x, 0 <= i < dp_l params -> 0 <= x < 256 -> Z.abs (centered (vc (sig_z sig) i x)) < dp_gamma1 params - dp_beta params) /\
  exists c w, ossl_ml_dsa_poly_sample_in_ball (sig_c_tilde sig) md (dp_tau params) = Ret c /\
    recovers params a t1 (sig_z sig) c w /\
    H_xof md [mu; w1_encoding (dp_gamma2 params) (hinted (dp_gamma2 params) (sig_hint sig) w)] (dp_bit_strength params / 4) = Some (sig_c_tilde sig).

Lemma H_xof_1 md m n : H_xof md [m] n = fst <$> shake_xof md m n.
Proof. unfold H_xof, shake_xof. destruct (EVP_DigestInit_ex2 md) as [c|]; [|done]. cbn. by destruct (EVP_DigestUpdate c m). Qed.
Lemma H_xof_2 md m1 m2 n : H_xof md [m1; m2] n = fst <$> shake_xof_2 md m1 m2 n.
Proof.
  unfold H_xof, shake_xof_2. destruct (EVP_DigestInit_ex2 md) as [c|]; [|done]. cbn. destruct (EVP_DigestUpdate c m1) as [c1|]; [|done]. cbn.
  by destruct (EVP_DigestUpdate c1 m2).
Qed.

(** ** The recovered commitment *)

Lemma eval_NTT f x : 0 <= x < 256 -> eval f (root x) ≡q NTT f x.
Proof. intros Hx. symmetry. by apply NTT_eval. Qed.
(** A reduced polynomial is determined by its values. *)
Lemma values_inj p q : poly_ok p -> poly_ok q -> (forall x, 0 <= x < 256 -> eval (coeff p) (root x) ≡q eval (coeff q) (root x)) -> p = q.
Proof.
  intros Hp Hq H. apply poly_eq_feq; [done|done|]. assert (feq (NTT (coeff p)) (NTT (coeff q))) as Hn by (intros x Hx; rewrite <- !eval_NTT by done; by apply H).
  intros x Hx. apply (cong_cancel (INV_SCALE * R_INV) 256).
  - transitivity (R_INV * (256 * INV_SCALE)); [cong_by 0|]. rewrite INV_SCALE_spec. apply R_INV_unit.
  - rewrite <- (INTT_NTT (coeff p) x Hx), <- (INTT_NTT (coeff q) x Hx). by apply INTT_proper.
Qed.
Lemma recovers_unique params a t1 z c w w' : recovers params a t1 z c w -> recovers params a t1 z c w' -> w = w'.
Proof.
  intros [Hw H] [Hw' H']. pose proof Hw as [Hl _]. pose proof Hw' as [Hl' _]. apply vec_ext; [lia|]. intros i Hi.
  apply values_inj; [apply (vec_ok_get (dp_k params)); [done|lia]..|]. intros x Hx. by etransitivity; [apply H; [lia|done]|symmetry; apply H'; [lia|done]].
Qed.
(** What the code computes satisfies the equation. *)
Lemma approximation_recovers params a t1 z c : mparams_ok params -> mat_ok (dp_k params) (dp_l params) a -> vec_in t1_coeff (dp_k params) t1 ->
  vec_ok (dp_l params) z -> poly_ok c -> recovers params a t1 z c (approximation params a t1 z c).
Proof.
  intros Hp Ha Ht Hz Hc. split; [by apply approximation_ok|]. intros i x Hi Hx. unfold approximation.
  destruct (mult_ok _ _ _ Ha z Hz) as [Hm Hmf]. destruct (scale_round_ok _ _ Ht) as [Hs Hsf]. destruct (ntt_ok c Hc) as [Hnc Hncf].
  destruct (vector_mult_scalar_ok _ _ (poly_ntt c) Hs Hnc) as [Hct Hcf]. destruct (vector_sub_ok _ _ _ Hm Hct) as [Hd Hdf].
  destruct (vector_ntt_inverse_ok _ _ Hd) as [_ Hif]. set (v := vector_sub _ _) in *.
  rewrite (eval_NTT (vc (vector_ntt_inverse v) i)), (NTT_proper _ _ (Hif i Hi) x Hx), (NTT_inverse_scaled _ x Hx), (Hdf i Hi x Hx), (Hcf i Hi x Hx), (Hmf i Hi x Hx), (Hsf i Hi x Hx) by done.
  unfold poly_ntt. rewrite (Hncf x Hx), (eval_NTT (coeff c)), (eval_NTT (fun y => 2 ^ 13 * vc t1 i y)) by done.
  transitivity (2 ^ 32 * zsum (fun j => R_INV * (mc a i j x * NTT (vc z j) x)) (Z.to_nat (dp_l params)) -
    R_INV * 2 ^ 32 * (NTT (coeff c) x * NTT (fun y => 2 ^ 13 * vc t1 i y) x)).
  { rewrite (zsum_ext (fun j => mc a i j x * NTT (vc z j) x * R_INV) (fun j => R_INV * (mc a i j x * NTT (vc z j) x))) by (intros; ring). cong_by 0. }
  rewrite zsum_scale. transitivity (R_INV * 2 ^ 32 * zsum (fun j => mc a i j x * NTT (vc z j) x) (Z.to_nat (dp_l params)) -
    R_INV * 2 ^ 32 * (NTT (coeff c) x * NTT (fun y => 2 ^ 13 * vc t1 i y) x)); [cong_by 0|]. rewrite R_INV_unit.
  rewrite (zsum_cong (fun j => mc a i j x * eval (vc z j) (root x)) (fun j => mc a i j x * NTT (vc z j) x)); [cong_by 0|]. intros j _. by rewrite eval_NTT.
Qed.
Lemma hinted_eq n gamma2 h w : gamma2_ok gamma2 -> vec_ok n w -> vector_use_hint h w gamma2 = hinted gamma2 h w.
Proof.
  intros Hg [_ Hw]. unfold vector_use_hint, hinted. revert h. induction Hw as [|p w Hp _ IH]; intros [|q h]; try done. cbn [zip_with]. f_equal; [|apply IH].
  unfold poly_use_hint. destruct Hp as [_ Hc]. clear -Hg Hc. revert q. induction Hc as [|r p Hr _ IH]; intros [|b q]; try done. cbn [zip_with]. f_equal; [by apply use_hint_spec|apply IH].
Qed.

Context `{XL : !XofLaws} `{AL : Allocator} (Halloc : forall n s, malloc_ok n s = true).
Lemma verifies_iff params md a t1 mu sig : mparams_ok params -> mat_ok (dp_k params) (dp_l params) a -> vec_in t1_coeff (dp_k params) t1 ->
  verifies params md a t1 mu sig <-> algorithm_8 params md a t1 mu sig.
Proof.
  intros Hp Ha Ht. pose proof Hp as (_ & _ & Hg & _ & Htau & _).
  assert (forall c, sig_ok params sig -> ossl_ml_dsa_poly_sample_in_ball (sig_c_tilde sig) md (dp_tau params) = Ret c ->
    recovers params a t1 (sig_z sig) c (approximation params a t1 (sig_z sig) c) /\
    vector_use_hint (sig_hint sig) (approximation params a t1 (sig_z sig) c) (dp_gamma2 params) =
      hinted (dp_gamma2 params) (sig_hint sig) (approximation params a t1 (sig_z sig) c)) as Hr.
  { intros c Hs Hc. pose proof (challenge_ok _ _ (sampled_challenge _ _ _ _ Htau Hc)) as Hco. pose proof (sig_z_vec _ _ Hs) as Hz.
    split; [by apply approximation_recovers|]. apply (hinted_eq (dp_k params)); [done|]. by apply approximation_ok. }
  split; intros (Hs & Hz & c & H); (split; [done|]; split; [done|]); exists c.
  - destruct H as (ctx & Hc & E). destruct (Hr c Hs Hc) as [Hw Eh]. exists (approximation params a t1 (sig_z sig) c). split; [done|]. split; [done|].
    by rewrite H_xof_2, <- Eh, E.
  - destruct H as (w & Hc & Hw & E). destruct (Hr c Hs Hc) as [Hw' Eh]. rewrite (recovers_unique _ _ _ _ _ _ _ Hw Hw'), <- Eh, H_xof_2 in E.
    destruct (shake_xof_2 _ _ _ _) as [[ct ctx]|] eqn:Ex; [|done]. injection E as ->. by exists ctx.
Qed.
Context `{KE : KeyEnv}.
Lemma message_mu_iff pub t1 msg_is_mu m mu : public_ok pub t1 ->
  message_mu pub msg_is_mu m = Ret mu <-> representative (md256 pub) (pk_encoding (mk_rho pub) t1) msg_is_mu m mu.
Proof.
  intros (_ & _ & _ & _ & _ & _ & ctx & Htr). unfold message_mu, representative. destruct msg_is_mu.
  - destruct (Z.eqb_spec (zlen m) ML_DSA_MU_BYTES) as [E|E]; cbn; split; [by intros [= <-]|by intros [-> _]|done|intros [-> E']; by destruct E].
  - rewrite H_xof_1, Htr. setoid_rewrite H_xof_2. change ML_DSA_MU_BYTES with 64. split.
    + intros H. exists (mk_tr pub). split; [done|]. destruct (shake_xof_2 _ _ _ _) as [[b c]|]; [|done]. by injection H as ->.
    + intros (tr & [= <-] & H). destruct (shake_xof_2 _ _ _ _) as [[b c]|]; [|done]. by injection H as ->.
Qed.
End Algorithm8.

(** C6: verification is exact.  For a public key object holding [rho] and [t1], whose matrix the
    sampler returns, a message (or external representative) and a byte string of any length,
    [ml_dsa_verify_internal] accepts exactly when the string is the encoding of a
    signature in range that satisfies the conditions of Algorithm 8 of FIPS 204: with
    [mu] the hash of [tr] and the message, [tr] being the hash of the encoded public key
    (or [mu] the 64 bytes given), the norm of [z] is below [gamma1 - beta], and the hash of
    [mu] and of the encoding of [UseHint(h, w')], for the [w'] with
    [NTT(w') = A o NTT(z) - NTT(c) o NTT(t1 2^13)], is the challenge in the signature. *)
Theorem ml_dsa_verify_exact `{XF : Xof} `{XL : !XofLaws} `{FU : Fuel} `{KE : KeyEnv} `{AL : Allocator} pub t1 a msg_is_mu m sig_enc :
  (forall n s, malloc_ok n s = true) -> public_ok pub t1 -> alloc_at ScratchPolys = true ->
  ossl_ml_dsa_matrix_expand_A (md128 pub) (mk_rho pub) (uninit_matrix (dp_k (mk_params pub)) (dp_l (mk_params pub))) = Ret a ->
  bytes_ok sig_enc -> zlen sig_enc <= SIZE_MAX / 2 ->
  ml_dsa_verify_internal pub msg_is_mu m sig_enc = Ret tt <->
  exists mu sig, representative (md256 pub) (pk_encoding (mk_rho pub) t1) msg_is_mu m mu /\
    sig_enc = sig_encoding (mk_params pub) sig /\ algorithm_8 (mk_params pub) (md256 pub) a t1 mu sig.
Proof.
  intros Hal Hpub Hsc Ha Hok Hmax. pose proof Hpub as (Hp & _ & _ & _ & Ht1 & _). pose proof Hp as (_ & _ & _ & _ & _ & Hk & Hl & _).
  assert (mat_ok (dp_k (mk_params pub)) (dp_l (mk_params pub)) a) as Hm by (eapply matrix_expand_A_ok; [|exact Ha]; apply uninit_matrix_ok; lia).
  pose proof (fun mu => verify_internal_iff Hal pub t1 a msg_is_mu m mu sig_enc Hpub Hsc Ha) as Hv. split.
  - intros H. assert (exists mu, message_mu pub msg_is_mu m = Ret mu) as [mu Hmu].
    { unfold ml_dsa_verify_internal in H. do 4 (apply res_bind_Ret in H as (? & _ & H)). apply res_bind_Ret in H as (mu & Emu & _). by exists mu. }
    destruct (proj1 (Hv mu Hmu Hok Hmax) H) as (sig & E & Hver). exists mu, sig. split; [by apply (message_mu_iff pub t1)|]. split; [done|]. by apply verifies_iff.
  - intros (mu & sig & Hmu & E & H). apply (message_mu_iff pub t1) in Hmu; [|done]. apply (Hv mu Hmu Hok Hmax). exists sig. split; [done|]. by apply verifies_iff.
Qed.

#[local] Existing Instance flat_xof.
#[local] Existing Instance flat_xof_laws.
#[local] Existing Instance example_fuel.
#[local] Existing Instance example_env.
#[local] Existing Instance always_alloc.
#[local] Opaque uninit_vector uninit_matrix ossl_ml_dsa_matrix_expand_A sig_encoding example_key.
Lemma example_public : public_ok example_key (uninit_vector 4).
Proof. destruct example_pair as (a & s1 & s2 & t0 & t1 & Hpub & _). pose proof Hpub as (_ & _ & _ & [= <-] & _). exact Hpub. Qed.
(** The empty string is refused, and the signature the example key makes is accepted. *)
Lemma ml_dsa_verify_exact_witness :
  ~ ml_dsa_verify_internal example_key false [] [] = Ret tt /\
  exists sig_enc, ml_dsa_verify_internal example_key false [1; 2; 3] sig_enc = Ret tt.
Proof.
  split.
  - rewrite (ml_dsa_verify_exact example_key (uninit_vector 4) (uninit_matrix 4 4) false [] []);
      [|reflexivity|exact example_public|reflexivity|apply flat_matrix|by apply Forall_nil|by compute].
    intros (mu & sig & _ & E & Hs & _). pose proof (sig_encoding_length _ _ params_44_ok Hs) as Hl.
    change (mk_params example_key) with params_44 in E. rewrite <- E in Hl. discriminate Hl.
  - destruct (example_sign_internal [1; 2; 3]) as [out Hout].
    destruct (sign_internal_verifies example_alloc example_key false [1; 2; 3] (zeros 32) (zeros 2420) out example_pair ltac:(by compute) Hout)
      as (a & t1 & mu & sig & Hpub & Hmu & Hsc & Ha & Hv & _).
    exists (sig_encoding params_44 sig). pose proof Hv as [Hs _]. pose proof (sig_encoding_length _ _ params_44_ok Hs) as Hl.
    apply (ml_dsa_verify_exact example_key t1 a false [1; 2; 3] (sig_encoding params_44 sig));
      [reflexivity|exact Hpub|exact Hsc|exact Ha|exact (sig_encoding_ok _ _ params_44_ok Hs)|rewrite Hl; by compute|]. exists mu, sig.
    split; [by apply (message_mu_iff example_key t1)|]. split; [done|]. pose proof Hpub as (Hp & _ & _ & _ & Ht1 & _). apply verifies_iff; [done| |done|done].
    eapply matrix_expand_A_ok; [|exact Ha]. apply uninit_matrix_ok; by compute.
Defined.
