(* ===== verification/MlKemField.v ===== *)
(** * ML-KEM: arithmetic modulo q

    Model of the reductions and roundings of [crypto/ml_kem/ml_kem.c].  Coefficients
    are 16-bit values kept in [0, q) with [q = 3329].  The branch-free reductions are
    shown to be remainders modulo [q], and the division-free roundings to be the
    functions Compress and Decompress of FIPS 203 with their rounding error.  The
    congruence modulo [q] is the setoid [a ≡ₖ b]. *)
From S2P Require Import Prelude.
From S2P Require Import ConstantTime.
From S2P Require Import ZSum.
From S2P Require Import ModCong.

Definition ML_KEM_DEGREE : Z := 256.
Definition ML_KEM_PRIME : Z := ML_KEM_DEGREE * 13 + 1.
Definition DEGREE : Z := ML_KEM_DEGREE.
Definition INVERSE_DEGREE : Z := ML_KEM_PRIME - 2 * 13.
Definition LOG2PRIME : Z := 12.
Definition BARRETT_SHIFT : Z := 2 * LOG2PRIME.

Definition kPrime : Z := ML_KEM_PRIME.
Definition kBarrettShift : Z := BARRETT_SHIFT.
Definition kBarrettMultiplier : Z := Z.shiftl 1 BARRETT_SHIFT / ML_KEM_PRIME.
Definition kHalfPrime : Z := (ML_KEM_PRIME - 1) / 2.
Definition kInverseDegree : Z := INVERSE_DEGREE.

Definition constish_time_non_zero (b : Z) : Z := u32 (0 - b).

Definition reduce_once (x : Z) : Z :=
  let subtracted := u16 (x - kPrime) in
  let mask := u16 (constish_time_non_zero (Z.shiftr subtracted 15)) in
  u16 (Z.lor (Z.land mask x) (Z.land (Z.lnot mask) subtracted)).

Definition reduce (x : Z) : Z :=
  let product := u64 (x * kBarrettMultiplier) in
  let quotient := u32 (Z.shiftr product kBarrettShift) in
  let remainder := u32 (x - u32 (quotient * kPrime)) in
  reduce_once (u16 remainder).

Definition compress (x bits : Z) : Z :=
  let shifted := u32 (Z.shiftl x bits) in
  let product := u64 (shifted * kBarrettMultiplier) in
  let quotient := u32 (Z.shiftr product kBarrettShift) in
  let remainder := u32 (shifted - u32 (quotient * kPrime)) in
  let quotient := u32 (quotient + Z.land 1 (constant_time_lt_32 kHalfPrime remainder)) in
  let quotient := u32 (quotient + Z.land 1 (constant_time_lt_32 (kPrime + kHalfPrime) remainder)) in
  u16 (Z.land quotient (Z.shiftl 1 bits - 1)).

Definition decompress (x bits : Z) : Z :=
  let product := u32 (x * kPrime) in
  let power := Z.shiftl 1 bits in
  let remainder := Z.land product (power - 1) in
  let lower := Z.shiftr product bits in
  u16 (lower + Z.shiftr remainder (bits - 1)).

(** ** The congruence *)

Declare Scope mlkem_scope.
Infix "≡ₖ" := (cong ML_KEM_PRIME) (at level 70, no associativity) : mlkem_scope.
#[global] Open Scope mlkem_scope.

#[export] Instance ML_KEM_PRIME_modulus : Modulus ML_KEM_PRIME.
Proof. done. Qed.

(** A reduced coefficient, and its representative closest to zero. *)
Definition kcoeff_ok (x : Z) : Prop := 0 <= x < ML_KEM_PRIME.
Definition kcentered (x : Z) : Z := (x + kHalfPrime) mod ML_KEM_PRIME - kHalfPrime.

Lemma kcoeff_mod a : kcoeff_ok (a mod ML_KEM_PRIME).
Proof. by apply Z.mod_pos_bound. Qed.
#[export] Hint Resolve kcoeff_mod : cint.
Lemma kcentered_cong x : kcentered x ≡ₖ x.
Proof. unfold kcentered. rewrite cong_mod. exists 0. ring. Qed.
Lemma kcentered_range x : - kHalfPrime <= kcentered x <= kHalfPrime.
Proof. unfold kcentered. change kHalfPrime with 1664. change ML_KEM_PRIME with 3329. dlia. Qed.
Lemma kcentered_unique x y : - kHalfPrime <= y <= kHalfPrime -> y ≡ₖ x -> kcentered x = y.
Proof.
  intros Hy H. pose proof (kcentered_range x). rewrite <- (kcentered_cong x) in H. destruct H as [k Hk].
  revert Hk Hy H0. change ML_KEM_PRIME with 3329. change kHalfPrime with 1664. lia.
Qed.

(** Prove a congruence by giving its multiple of [q]. *)
Ltac kcong_by k := exists k; try ring.

(** ** The reductions *)

Lemma reduce_once_mod x : 0 <= x < 2 * ML_KEM_PRIME -> reduce_once x = x mod ML_KEM_PRIME.
Proof.
  change ML_KEM_PRIME with 3329. intros Hx. unfold reduce_once, constish_time_non_zero.
  change kPrime with 3329. rewrite Z.shiftr_div_pow2 by lia. change (2 ^ 15) with 32768.
  destruct (Z.lt_ge_cases x 3329).
  - replace (u16 (x - 3329)) with (x + 62207) by cint. replace ((x + 62207) / 32768) with 1 by dlia.
    change (u16 (u32 (0 - 1))) with (Z.ones 16). rewrite (Z.land_comm (Z.ones 16)), Z.land_ones by lia.
    rewrite (Z.land_comm (Z.lnot _)), <- Z.ldiff_land, Z.ldiff_ones_r, Z.shiftr_div_pow2 by lia.
    change (2 ^ 16) with 65536. replace ((x + 62207) / 65536) with 0 by dlia. rewrite Z.shiftl_0_l, Z.lor_0_r. cint.
  - replace (u16 (x - 3329)) with (x - 3329) by cint. replace ((x - 3329) / 32768) with 0 by dlia.
    change (u16 (u32 (0 - 0))) with 0. change (Z.lnot 0) with (-1). rewrite Z.land_0_l, Z.land_m1_l, Z.lor_0_l. cint.
Qed.
Lemma reduce_once_kok x : 0 <= x < 2 * ML_KEM_PRIME -> kcoeff_ok (reduce_once x) /\ reduce_once x ≡ₖ x.
Proof. intros Hx. rewrite reduce_once_mod by done. split; [apply kcoeff_mod|apply cong_mod]. Qed.

(** Barrett's quotient is at most one too small. *)
Lemma barrett_quotient x :
  0 <= x < ML_KEM_PRIME + 2 * ML_KEM_PRIME * ML_KEM_PRIME ->
  let quotient := u32 (Z.shiftr (u64 (x * kBarrettMultiplier)) kBarrettShift) in
  exists r, 0 <= r < 2 * ML_KEM_PRIME /\ x = quotient * ML_KEM_PRIME + r /\
    0 <= quotient < 16777216 /\ u32 (x - u32 (quotient * kPrime)) = r.
Proof.
  change ML_KEM_PRIME with 3329. change kBarrettMultiplier with 5039. change kBarrettShift with 24. change kPrime with 3329.
  intros Hx. rewrite u64_small, Z.shiftr_div_pow2 by lia. change (2 ^ 24) with 16777216. rewrite u32_small by dlia. cbv zeta.
  set (q := x * 5039 / 16777216). exists (x - q * 3329).
  assert (0 <= x - q * 3329 < 2 * 3329) by (unfold q; dlia). assert (0 <= q < 16777216) by (unfold q; dlia).
  split_and!; [lia..|]. by rewrite (u32_small (q * _)), u32_small by lia.
Qed.
Lemma reduce_mod x :
  0 <= x < ML_KEM_PRIME + 2 * ML_KEM_PRIME * ML_KEM_PRIME -> reduce x = x mod ML_KEM_PRIME.
Proof.
  intros Hx. destruct (barrett_quotient x Hx) as (r & Hr & Hq & _ & E). unfold reduce. rewrite E.
  change ML_KEM_PRIME with 3329 in *. rewrite u16_small by lia. rewrite reduce_once_mod by (change ML_KEM_PRIME with 3329; lia).
  change ML_KEM_PRIME with 3329. rewrite Hq at 1. rewrite Z.add_comm, Z.mod_add by lia. done.
Qed.
Lemma reduce_kok x :
  0 <= x < ML_KEM_PRIME + 2 * ML_KEM_PRIME * ML_KEM_PRIME -> kcoeff_ok (reduce x) /\ reduce x ≡ₖ x.
Proof. intros Hx. rewrite reduce_mod by done. split; [apply kcoeff_mod|apply cong_mod]. Qed.

(** ** Rounding *)

(** Equations 4.7 and 4.8 of FIPS 203; [(2 a + b) / (2 b)] is [a / b] rounded to the
    nearest integer, halves up. *)
Definition Compress (d x : Z) : Z := (2 * (2 ^ d * x) + ML_KEM_PRIME) / (2 * ML_KEM_PRIME) mod 2 ^ d.
Definition Decompress (d y : Z) : Z := (2 * (ML_KEM_PRIME * y) + 2 ^ d) / (2 * 2 ^ d).

Lemma compress_spec x bits : kcoeff_ok x -> 1 <= bits <= 11 -> compress x bits = Compress bits x.
Proof.
  unfold kcoeff_ok. change ML_KEM_PRIME with 3329. intros Hx Hb. unfold compress, Compress. rewrite Z.shiftl_mul_pow2 by lia.
  assert (2 <= 2 ^ bits <= 2048) as Hp.
  { split; [change 2 with (2 ^ 1) at 1|change 2048 with (2 ^ 11)]; apply Z.pow_le_mono_r; lia. }
  rewrite (u32_small (x * 2 ^ bits)) by nia. set (s := x * 2 ^ bits).
  destruct (barrett_quotient s) as (r & Hr & Hs & Hq & ->); [change ML_KEM_PRIME with 3329; unfold s; nia|].
  set (q := u32 _) in *. change ML_KEM_PRIME with 3329 in *. change kHalfPrime with 1664. change (kPrime + 1664) with 4993.
  rewrite !constant_time_lt_32_spec by lia.
  assert (forall c, Z.land 1 (mask_of 32 c) = if c then 1 else 0) as Hland by (by intros []).
  rewrite !Hland, (Z.mul_comm (2 ^ bits)). fold s. change (2 * 3329) with 6658.
  replace ((2 * s + 3329) / 6658) with (q + (if 1664 <? r then 1 else 0) + (if 4993 <? r then 1 else 0)).
  2: { apply (Z.div_unique _ _ _ (2 * s + 3329 - 6658 * (q + (if 1664 <? r then 1 else 0) + (if 4993 <? r then 1 else 0)))); [|ring].
       left. destruct (Z.ltb_spec 1664 r), (Z.ltb_spec 4993 r); lia. }
  rewrite (u32_small (q + _)), (u32_small (q + _ + _)) by (destruct (1664 <? r), (4993 <? r); lia).
  rewrite Z.shiftl_mul_pow2, Z.mul_1_l, Z.sub_1_r, <- Z.ones_equiv, Z.land_ones by lia.
  apply u16_small. pose proof (Z.mod_pos_bound (q + (if 1664 <? r then 1 else 0) + (if 4993 <? r then 1 else 0)) (2 ^ bits)). lia.
Qed.

Lemma decompress_spec y bits : 1 <= bits <= 11 -> 0 <= y < 2 ^ bits -> decompress y bits = Decompress bits y.
Proof.
  intros Hb Hy. unfold decompress, Decompress. change kPrime with 3329. change ML_KEM_PRIME with 3329.
  assert (2 ^ bits = 2 * 2 ^ (bits - 1)) as Hp by (rewrite <- Z.pow_succ_r by lia; f_equal; lia).
  assert (0 < 2 ^ (bits - 1) <= 1024) as Hh.
  { split; [apply Z.pow_pos_nonneg; lia|change 1024 with (2 ^ 10); apply Z.pow_le_mono_r; lia]. }
  rewrite u32_small by lia. rewrite Z.shiftl_mul_pow2, Z.mul_1_l, Z.sub_1_r, <- Z.ones_equiv, Z.land_ones by lia.
  rewrite !Z.shiftr_div_pow2 by lia. rewrite Hp in *. set (h := 2 ^ (bits - 1)) in *. clearbody h.
  pose proof (Z.div_mod (y * 3329) (2 * h) ltac:(lia)) as E. pose proof (Z.mod_pos_bound (y * 3329) (2 * h) ltac:(lia)) as Hm.
  set (q := y * 3329 / (2 * h)) in *. set (r := (y * 3329) mod (2 * h)) in *.
  pose proof (Z.div_mod r h ltac:(lia)) as Er. pose proof (Z.mod_pos_bound r h ltac:(lia)) as Hrm.
  assert (0 <= r / h <= 1) by (split; [apply Z.div_pos; lia|]; apply Z.lt_succ_r, Z.div_lt_upper_bound; lia).
  assert (0 <= q < 3329) by (split; [apply Z.div_pos; lia|apply Z.div_lt_upper_bound; nia]).
  rewrite u16_small by lia. set (b := r / h) in *. set (m := r mod h) in *. clearbody b m q r.
  apply (Z.div_unique _ _ _ (2 * m + 2 * h * (1 - b))); assert (b = 0 \/ b = 1) as [-> | ->] by lia; [left; lia..|lia|lia].
Qed.

(** The largest rounding error of [bits]-bit compression. *)
Definition rounding_error (bits : Z) : Z := (ML_KEM_PRIME + 2 ^ bits) / (2 * 2 ^ bits).

Ltac pow_lits :=
  change (2 ^ 1) with 2; change (2 ^ 2) with 4; change (2 ^ 3) with 8; change (2 ^ 4) with 16; change (2 ^ 5) with 32;
  change (2 ^ 6) with 64; change (2 ^ 7) with 128; change (2 ^ 8) with 256; change (2 ^ 9) with 512;
  change (2 ^ 10) with 1024; change (2 ^ 11) with 2048.
Lemma bits_cases (P : Z -> Prop) :
  P 1 -> P 2 -> P 3 -> P 4 -> P 5 -> P 6 -> P 7 -> P 8 -> P 9 -> P 10 -> P 11 -> forall bits, 1 <= bits <= 11 -> P bits.
Proof.
  intros. assert (bits = 1 \/ bits = 2 \/ bits = 3 \/ bits = 4 \/ bits = 5 \/ bits = 6 \/ bits = 7 \/ bits = 8 \/
    bits = 9 \/ bits = 10 \/ bits = 11) as Hb by lia.
  repeat destruct Hb as [-> | Hb]; subst; done.
Qed.
Lemma compress_range x bits : kcoeff_ok x -> 1 <= bits <= 11 -> 0 <= compress x bits < 2 ^ bits.
Proof. intros Hx Hb. rewrite compress_spec by done. apply Z.mod_pos_bound. apply Z.pow_pos_nonneg; lia. Qed.
Lemma decompress_kok y bits : 1 <= bits <= 11 -> 0 <= y < 2 ^ bits -> kcoeff_ok (decompress y bits).
Proof.
  intros Hb Hy. rewrite decompress_spec by done. unfold Decompress, kcoeff_ok.
  change ML_KEM_PRIME with 3329. assert (2 <= 2 ^ bits <= 2048) as Hp.
  { split; [change 2 with (2 ^ 1) at 1|change 2048 with (2 ^ 11)]; apply Z.pow_le_mono_r; lia. }
  split; [apply Z.div_pos; lia|apply Z.div_lt_upper_bound; lia].
Qed.
(** Decompressing what was compressed is off by at most the rounding error. *)
Lemma compress_error x bits :
  kcoeff_ok x -> 1 <= bits <= 11 -> Z.abs (kcentered (decompress (compress x bits) bits - x)) <= rounding_error bits.
Proof.
  intros Hx Hb. rewrite decompress_spec, compress_spec by (done || by apply compress_range).
  enough (exists e, Z.abs e <= rounding_error bits /\ rounding_error bits <= kHalfPrime /\
    e ≡ₖ Decompress bits (Compress bits x) - x) as (e & He & Hr & Hc) by (rewrite (kcentered_unique _ e) by (done || lia); done).
  set (y := (2 * (2 ^ bits * x) + ML_KEM_PRIME) / (2 * ML_KEM_PRIME)).
  exists (Decompress bits y - x). change (Compress bits x) with (y mod 2 ^ bits).
  assert (0 <= y <= 2 ^ bits) as Hy.
  { unfold kcoeff_ok in Hx. subst y. revert bits Hb. change ML_KEM_PRIME with 3329 in *.
    apply bits_cases; pow_lits; dlia. }
  enough (Z.abs (Decompress bits y - x) <= rounding_error bits /\ rounding_error bits <= kHalfPrime) as [H1 H2].
  { split_and!; [done|done|]. destruct (Z.eq_dec y (2 ^ bits)) as [-> |].
    - rewrite Z.mod_same by lia. exists 1. unfold Decompress. rewrite Z.mul_0_r.
      replace (2 * (ML_KEM_PRIME * 2 ^ bits) + 2 ^ bits) with (2 ^ bits + ML_KEM_PRIME * (2 * 2 ^ bits)) by ring.
      rewrite Z.div_add, !Z.div_small by lia. ring.
    - by rewrite Z.mod_small by lia. }
  unfold Decompress, rounding_error. clear Hy. unfold kcoeff_ok in Hx. subst y. revert bits Hb.
  change kHalfPrime with 1664. change ML_KEM_PRIME with 3329 in *. apply bits_cases; pow_lits; dlia.
Qed.
Lemma compress_decompress y bits : 1 <= bits <= 11 -> 0 <= y < 2 ^ bits -> compress (decompress y bits) bits = y.
Proof.
  intros Hb Hy. rewrite compress_spec, decompress_spec by (done || by apply decompress_kok).
  unfold Compress, Decompress. change ML_KEM_PRIME with 3329. revert Hy. revert bits Hb.
  refine (bits_cases _ _ _ _ _ _ _ _ _ _ _ _); pow_lits; intros; dlia.
Qed.
(** Compression to one bit tells [0] from [(q + 1) / 2] up to errors below [q / 4]. *)
Lemma compress_1 x e b :
  kcoeff_ok x -> b = 0 \/ b = 1 -> -832 <= e <= 831 -> x ≡ₖ b * 1665 + e -> compress x 1 = b.
Proof.
  intros Hx Hb He [k Hk]. rewrite compress_spec by (done || lia). unfold Compress, kcoeff_ok in *. change (2 ^ 1) with 2.
  change ML_KEM_PRIME with 3329 in *. destruct Hb as [-> | ->]; dlia.
Qed.

(** C40: the branch-free arithmetic is exact.  On the ranges it is used for, [reduce_once] and
    [reduce] are the remainder modulo [q]; [compress] and [decompress] are the
    roundings of FIPS 203 for every width up to 11 bits; compressing a decompressed
    value gives it back, and decompressing a compressed one is off by at most
    [round(q / 2^(bits + 1))]. *)
Theorem ml_kem_arithmetic_exact x y z bits :
  0 <= z < 2 * ML_KEM_PRIME -> 0 <= y < ML_KEM_PRIME + 2 * ML_KEM_PRIME * ML_KEM_PRIME ->
  kcoeff_ok x -> 1 <= bits <= 11 ->
  reduce_once z = z mod ML_KEM_PRIME /\ reduce y = y mod ML_KEM_PRIME /\
  compress x bits = Compress bits x /\
  Z.abs (kcentered (decompress (compress x bits) bits - x)) <= rounding_error bits /\
  (forall w, 0 <= w < 2 ^ bits -> decompress w bits = Decompress bits w /\ compress (decompress w bits) bits = w).
Proof.
  intros Hz Hy Hx Hb. split_and!; [by apply reduce_once_mod|by apply reduce_mod|by apply compress_spec|by apply compress_error|].
  intros w Hw. split; [by apply decompress_spec|by apply compress_decompress].
Qed.

Lemma ml_kem_arithmetic_exact_witness :
  reduce_once 6657 = 3328 /\ reduce 22167810 = 3328 /\ compress 1665 4 = 8 /\ decompress 8 4 = 1665.
Proof.
  destruct (ml_kem_arithmetic_exact 1665 22167810 6657 4) as (-> & -> & -> & _ & Hd); [by compute..|].
  destruct (Hd 8) as [-> _]; [by compute|]. done.
Defined.
