(* ===== verification/MlKemNtt.v ===== *)
(** * ML-KEM: the number theoretic transform

    Model of the transforms and products of [crypto/ml_kem/ml_kem.c].  Since 3329 has
    no 512th root of unity, the transform stops at blocks of two coefficients: it is
    the complete transform of size 128 of the even-indexed and of the odd-indexed
    coefficients, and a product in the transformed domain multiplies pairs modulo
    [X^2 - 17^(2 BitRev7(i) + 1)].  The theorems: both transforms are inverse to each
    other, and transforming, multiplying and transforming back is multiplication
    modulo [X^256 + 1]. *)
From S2P Require Import Prelude.
From S2P Require Import ZSum.
From S2P Require Import ModCong.
From S2P Require Import Transform.
From S2P Require Import NttPass.
From S2P Require Import MlKemField.

(** [struct ossl_ml_kem_scalar_st]. *)
Abbreviation scalar := POLY.

Definition kNTTRoots : list Z :=
  [1; 1729; 2580; 3289; 2642; 630; 1897; 848; 1062; 1919; 193; 797; 2786; 3260; 569; 1746;
   296; 2447; 1339; 1476; 3046; 56; 2240; 1333; 1426; 2094; 535; 2882; 2393; 2879; 1974; 821;
   289; 331; 3253; 1756; 1197; 2304; 2277; 2055; 650; 1977; 2513; 632; 2865; 33; 1320; 1915;
   2319; 1435; 807; 452; 1438; 2868; 1534; 2402; 2647; 2617; 1481; 648; 2474; 3110; 1227; 910;
   17; 2761; 583; 2649; 1637; 723; 2288; 1100; 1409; 2662; 3281; 233; 756; 2156; 3015; 3050;
   1703; 1651; 2789; 1789; 1847; 952; 1461; 2687; 939; 2308; 2437; 2388; 733; 2337; 268; 641;
   1584; 2298; 2037; 3220; 375; 2549; 2090; 1645; 1063; 319; 2773; 757; 2099; 561; 2466; 2594;
   2804; 1092; 403; 1026; 1143; 2150; 2775; 886; 1722; 1212; 1874; 1029; 2110; 2935; 885; 2154].
Definition kInverseNTTRoots : list Z :=
  [1; 1175; 2444; 394; 1219; 2300; 1455; 2117; 1607; 2443; 554; 1179; 2186; 2303; 2926; 2237;
   525; 735; 863; 2768; 1230; 2572; 556; 3010; 2266; 1684; 1239; 780; 2954; 109; 1292; 1031;
   1745; 2688; 3061; 992; 2596; 941; 892; 1021; 2390; 642; 1868; 2377; 1482; 1540; 540; 1678;
   1626; 279; 314; 1173; 2573; 3096; 48; 667; 1920; 2229; 1041; 2606; 1692; 680; 2746; 568;
   3312; 2419; 2102; 219; 855; 2681; 1848; 712; 682; 927; 1795; 461; 1891; 2877; 2522; 1894;
   1010; 1414; 2009; 3296; 464; 2697; 816; 1352; 2679; 1274; 1052; 1025; 2132; 1573; 76; 2998;
   3040; 2508; 1355; 450; 936; 447; 2794; 1235; 1903; 1996; 1089; 3273; 283; 1853; 1990; 882;
   3033; 1583; 2760; 69; 543; 2532; 3136; 1410; 2267; 2481; 1432; 2699; 687; 40; 749; 1600].
Definition kModRoots : list Z :=
  [17; 3312; 2761; 568; 583; 2746; 2649; 680; 1637; 1692; 723; 2606; 2288; 1041; 1100; 2229;
   1409; 1920; 2662; 667; 3281; 48; 233; 3096; 756; 2573; 2156; 1173; 3015; 314; 3050; 279;
   1703; 1626; 1651; 1678; 2789; 540; 1789; 1540; 1847; 1482; 952; 2377; 1461; 1868; 2687; 642;
   939; 2390; 2308; 1021; 2437; 892; 2388; 941; 733; 2596; 2337; 992; 268; 3061; 641; 2688;
   1584; 1745; 2298; 1031; 2037; 1292; 3220; 109; 375; 2954; 2549; 780; 2090; 1239; 1645; 1684;
   1063; 2266; 319; 3010; 2773; 556; 757; 2572; 2099; 1230; 561; 2768; 2466; 863; 2594; 735;
   2804; 525; 1092; 2237; 403; 2926; 1026; 2303; 1143; 2186; 2150; 1179; 2775; 554; 886; 2443;
   1722; 1607; 1212; 2117; 1874; 1455; 1029; 2300; 2110; 1219; 2935; 394; 885; 2444; 2154; 1175].

Definition scalar_mult_const (s : scalar) (a : Z) : scalar := (fun c => reduce (u32 (c * a))) <$> s.

(** The bodies of the innermost loops: the new values of [*curr] and [*peer]. *)
Definition ntt_butterfly (zeta even odd : Z) : Z * Z :=
  let odd := reduce (u32 (odd * zeta)) in
  (reduce_once (u16 (odd + even)), reduce_once (u16 (even - odd + kPrime))).
Definition inverse_ntt_butterfly (zeta even odd : Z) : Z * Z :=
  (reduce_once (u16 (odd + even)), reduce (u32 (zeta * u32 (even - odd + kPrime)))).

(** [do { ... } while ((offset >>= 1) >= 2)]: seven rounds.  [roots] is the index of
    the last root used; a round has [DEGREE / (2 * offset)] blocks, each with the next
    root. *)
Fixpoint ntt_rounds (fuel : nat) (roots offset : Z) (s : scalar) : scalar :=
  match fuel with
  | O => s
  | S fuel' =>
    let blocks := DEGREE / (2 * offset) in
    let s := ntt_pass (fun i => ntt_butterfly (coeff kNTTRoots (roots + 1 + i))) blocks offset s in
    let offset := Z.shiftr offset 1 in
    if 2 <=? offset then ntt_rounds fuel' (roots + blocks) offset s else s
  end.
Definition scalar_ntt (s : scalar) : scalar := ntt_rounds 8 0 (DEGREE / 2) s.

(** [do { ... } while ((offset <<= 1) < DEGREE)]: seven rounds. *)
Fixpoint inverse_ntt_rounds (fuel : nat) (roots offset : Z) (s : scalar) : scalar :=
  match fuel with
  | O => s
  | S fuel' =>
    let blocks := DEGREE / (2 * offset) in
    let s := ntt_pass (fun i => inverse_ntt_butterfly (coeff kInverseNTTRoots (roots + 1 + i))) blocks offset s in
    let offset := Z.shiftl offset 1 in
    if offset <? DEGREE then inverse_ntt_rounds fuel' (roots + blocks) offset s else s
  end.
Definition scalar_inverse_ntt (s : scalar) : scalar :=
  scalar_mult_const (inverse_ntt_rounds 8 0 2 s) kInverseDegree.

Definition scalar_add (lhs rhs : scalar) : scalar := zip_with (fun a b => reduce_once (u16 (a + b))) lhs rhs.
Definition scalar_sub (lhs rhs : scalar) : scalar := zip_with (fun a b => reduce_once (u16 (a - b + kPrime))) lhs rhs.

(** [do { ... } while (curr < end)], a pair of coefficients a round. *)
Fixpoint mult_pairs (lc rc roots : list Z) : scalar :=
  match lc, rc, roots with
  | l0 :: l1 :: lc', r0 :: r1 :: rc', zetapow :: roots' =>
    reduce (u32 (u32 (l0 * r0) + u32 (reduce (u32 (l1 * r1)) * zetapow))) ::
    reduce (u32 (u32 (l0 * r1) + u32 (l1 * r0))) :: mult_pairs lc' rc' roots'
  | _, _, _ => []
  end.
Definition scalar_mult (lhs rhs : scalar) : scalar := mult_pairs lhs rhs kModRoots.

Fixpoint mult_add_pairs (out lc rc roots : list Z) : scalar :=
  match out, lc, rc, roots with
  | c0 :: c1 :: out', l0 :: l1 :: lc', r0 :: r1 :: rc', zetapow :: roots' =>
    reduce (u32 (c0 + u32 (l0 * r0) + u32 (reduce (u32 (l1 * r1)) * zetapow))) ::
    reduce (u32 (c1 + u32 (l0 * r1) + u32 (l1 * r0))) :: mult_add_pairs out' lc' rc' roots'
  | _, _, _, _ => []
  end.
Definition scalar_mult_add (out lhs rhs : scalar) : scalar := mult_add_pairs out lhs rhs kModRoots.

(** A scalar with its coefficients reduced. *)
Definition scalar_ok (s : scalar) : Prop := zlen s = 256 /\ Forall kcoeff_ok s.

(** ** The transforms on functions

    The even-indexed ([c = 0]) and the odd-indexed ([c = 1]) coefficients. *)

Definition part (c : Z) (f : Z -> Z) (j : Z) : Z := f (2 * j + c).
Abbreviation hfeq := (feqm ML_KEM_PRIME 128).

Definition zt (k : Z) : Z := coeff kNTTRoots k.
Definition zi (off b : Z) : Z := coeff kInverseNTTRoots (128 - 128 / off + 1 + b).
Definition HNTT : (Z -> Z) -> Z -> Z := ntt_of 7 zt.
Definition HINTT : (Z -> Z) -> Z -> Z := intt_of 7 zi.
#[export] Instance HNTT_proper : Proper (hfeq ==> hfeq) HNTT.
Proof. exact (ntt_of_proper ML_KEM_PRIME 7 zt). Qed.
#[export] Instance HINTT_proper : Proper (hfeq ==> hfeq) HINTT.
Proof. exact (intt_of_proper ML_KEM_PRIME 7 zi). Qed.

(** [part] of the coefficients of [s], up to congruence. *)
Definition parts (s : scalar) (g : Z -> Z -> Z) : Prop := forall c, 0 <= c < 2 -> hfeq (part c (coeff s)) (g c).

Lemma scalar_coeff s i : scalar_ok s -> 0 <= i < 256 -> kcoeff_ok (coeff s i).
Proof. intros [Hl Hc] Hi. rewrite coeff_Forall in Hc. apply Hc. lia. Qed.
Lemma scalar_ok_intro s f :
  zlen s = 256 -> (forall i, 0 <= i < 256 -> kcoeff_ok (coeff s i) /\ coeff s i ≡ₖ f i) ->
  scalar_ok s /\ feqm ML_KEM_PRIME 256 (coeff s) f.
Proof.
  intros Hl H. split; [split; [done|]; apply coeff_Forall; intros i Hi; apply H; lia|]. intros i Hi. by apply H.
Qed.
Lemma parts_intro s g :
  zlen s = 256 -> (forall c j, 0 <= c < 2 -> 0 <= j < 128 -> kcoeff_ok (coeff s (2 * j + c)) /\ coeff s (2 * j + c) ≡ₖ g c j) ->
  scalar_ok s /\ parts s g.
Proof.
  intros Hl H. split.
  - split; [done|]. apply coeff_Forall. intros i Hi. destruct (H (i mod 2) (i / 2)) as [Hok _]; [dlia|dlia|].
    by replace (2 * (i / 2) + i mod 2) with i in Hok by dlia.
  - intros c Hc j Hj. by apply H.
Qed.

(** ** The loops compute the rounds *)

Lemma table_ok (t : list Z) k : forallb (fun x => (0 <=? x) && (x <? ML_KEM_PRIME)) t = true -> kcoeff_ok (coeff t k).
Proof.
  intros H. rewrite forallb_forall in H. unfold coeff.
  destruct (t !! Z.to_nat k) as [x|] eqn:E; [|by compute].
  apply list_elem_of_lookup_2, list_elem_of_In in E. specialize (H x E). cbn [default]. unfold kcoeff_ok. simpl. lia.
Qed.

Definition ntt_round (s : scalar) (off : Z) : scalar :=
  ntt_pass (fun i => ntt_butterfly (coeff kNTTRoots (64 / off + i))) (64 / off) (2 * off) s.
Definition inverse_ntt_round (off : Z) (s : scalar) : scalar :=
  ntt_pass (fun i => inverse_ntt_butterfly (coeff kInverseNTTRoots (128 - 128 / off + 1 + i))) (64 / off) (2 * off) s.
Lemma kem_ntt_unfold s : scalar_ntt s = foldl ntt_round s (offsets 7).
Proof. cbv -[ntt_pass ntt_butterfly kNTTRoots coeff]. reflexivity. Qed.
Lemma inverse_kem_ntt_unfold s : inverse_ntt_rounds 8 0 2 s = foldr inverse_ntt_round s (offsets 7).
Proof. cbv -[ntt_pass inverse_ntt_butterfly kInverseNTTRoots coeff]. reflexivity. Qed.

Lemma add_kok a b : kcoeff_ok a -> kcoeff_ok b -> kcoeff_ok (reduce_once (u16 (a + b))) /\ reduce_once (u16 (a + b)) ≡ₖ a + b.
Proof.
  unfold kcoeff_ok. change ML_KEM_PRIME with 3329. intros Ha Hb. rewrite u16_small by lia.
  apply (reduce_once_kok (a + b)). change ML_KEM_PRIME with 3329. lia.
Qed.
Lemma sub_kok a b :
  kcoeff_ok a -> kcoeff_ok b ->
  kcoeff_ok (reduce_once (u16 (a - b + kPrime))) /\ reduce_once (u16 (a - b + kPrime)) ≡ₖ a - b.
Proof.
  unfold kcoeff_ok. change kPrime with 3329. change ML_KEM_PRIME with 3329. intros Ha Hb. rewrite u16_small by lia.
  destruct (reduce_once_kok (a - b + 3329)) as [Hr Hc]; [change ML_KEM_PRIME with 3329; lia|]. split; [done|].
  rewrite Hc. exists 1. change ML_KEM_PRIME with 3329. ring.
Qed.
Lemma mul_kok a b :
  kcoeff_ok a -> 0 <= b < 2 * ML_KEM_PRIME -> kcoeff_ok (reduce (u32 (a * b))) /\ reduce (u32 (a * b)) ≡ₖ a * b.
Proof.
  unfold kcoeff_ok. change ML_KEM_PRIME with 3329. intros Ha Hb. rewrite u32_small by nia.
  apply (reduce_kok (a * b)). change ML_KEM_PRIME with 3329. nia.
Qed.

(** The block and the half of an index of either parity. *)
Lemma part_block off c j :
  0 < off -> 0 <= c < 2 ->
  (2 * j + c) / (2 * (2 * off)) = j / (2 * off) /\
  ((2 * j + c) mod (2 * (2 * off)) <? 2 * off) = (j mod (2 * off) <? off).
Proof.
  intros Ho Hc. pose proof (Z.div_mod j (2 * off) ltac:(lia)). pose proof (Z.mod_pos_bound j (2 * off) ltac:(lia)).
  assert ((2 * j + c) / (2 * (2 * off)) = j / (2 * off)) as E
    by (symmetry; apply (Z.div_unique _ _ _ (2 * (j mod (2 * off)) + c)); lia).
  split; [done|]. rewrite Z.mod_eq, E by lia. destruct (Z.ltb_spec (j mod (2 * off)) off); [apply Z.ltb_lt|apply Z.ltb_ge]; lia.
Qed.

Section Rounds.
Context (s : scalar) (off : Z) (Hs : scalar_ok s) (Hoff : off ∈ offsets 7).

Lemma round_spec f :
  zlen (ntt_pass f (64 / off) (2 * off) s) = 256 /\
  forall c j, 0 <= c < 2 -> 0 <= j < 128 ->
    coeff (ntt_pass f (64 / off) (2 * off) s) (2 * j + c) =
    if j mod (2 * off) <? off then (f (j / (2 * off)) (part c (coeff s) j) (part c (coeff s) (j + off))).1
    else (f (j / (2 * off)) (part c (coeff s) (j - off)) (part c (coeff s) j)).2.
Proof.
  destruct (off_pos 7 off Hoff) as (Hp & Hs' & H128). change (2 ^ Z.of_nat 7 / 2) with 64 in *.
  change (2 ^ Z.of_nat 7) with 128 in *. destruct Hs as [Hl _].
  destruct (pass_spec s (2 * off) ltac:(lia) f (64 / off)) as [Hl' Hc]; [lia|lia|]. split; [lia|].
  intros c j Hcc Hj. rewrite Hc by lia. unfold pass_val, part. destruct (part_block off c j Hp Hcc) as [-> ->].
  replace (2 * j + c + 2 * off) with (2 * (j + off) + c) by lia. by replace (2 * j + c - 2 * off) with (2 * (j - off) + c) by lia.
Qed.

(** The neighbours of an index within its block. *)
Lemma part_ok c j : 0 <= c < 2 -> 0 <= j < 128 -> kcoeff_ok (part c (coeff s) j).
Proof. intros Hc Hj. apply scalar_coeff; [done|lia]. Qed.

Lemma kem_ntt_round_ok : scalar_ok (ntt_round s off) /\ parts (ntt_round s off) (fun c => fwd_round 7 zt off (part c (coeff s))).
Proof.
  unfold ntt_round. destruct (round_spec (fun i => ntt_butterfly (coeff kNTTRoots (64 / off + i)))) as [Hl Hc].
  apply parts_intro; [done|]. intros c j Hcc Hj. rewrite Hc by done. clear Hc Hl.
  destruct (off_halves 7 off j Hoff Hj) as (Hp & _ & H1 & H2). unfold fwd_round, ntt_butterfly, zt.
  change (2 ^ Z.of_nat 7 / 2) with 64. change (2 ^ Z.of_nat 7) with 128 in *. set (z := coeff kNTTRoots _).
  assert (kcoeff_ok z) as Hz by (by apply table_ok). pose proof Hz as Hz'. unfold kcoeff_ok in Hz'.
  destruct (Z.ltb_spec (j mod (2 * off)) off) as [Hlt|Hge]; cbn [fst snd].
  - destruct (mul_kok (part c (coeff s) (j + off)) z) as [Hm Hmc]; [apply part_ok; lia|lia|].
    destruct (add_kok _ (part c (coeff s) j) Hm) as [Ha Hac]; [by apply part_ok|]. split; [done|].
    rewrite Hac, Hmc. kcong_by 0.
  - destruct (mul_kok (part c (coeff s) j) z) as [Hm Hmc]; [by apply part_ok|lia|].
    destruct (sub_kok (part c (coeff s) (j - off)) (reduce (u32 (part c (coeff s) j * z)))) as [Ha Hac]; [apply part_ok; lia|done|]. split; [done|].
    rewrite Hac, Hmc. kcong_by 0.
Qed.
Lemma inverse_kem_ntt_round_ok :
  scalar_ok (inverse_ntt_round off s) /\ parts (inverse_ntt_round off s) (fun c => inv_round zi off (part c (coeff s))).
Proof.
  unfold inverse_ntt_round. destruct (round_spec (fun i => inverse_ntt_butterfly (coeff kInverseNTTRoots (128 - 128 / off + 1 + i)))) as [Hl Hc].
  apply parts_intro; [done|]. intros c j Hcc Hj. rewrite Hc by done. clear Hc Hl.
  destruct (off_halves 7 off j Hoff Hj) as (Hp & _ & H1 & H2). unfold inv_round, inverse_ntt_butterfly, zi.
  change (2 ^ Z.of_nat 7) with 128 in *. set (z := coeff kInverseNTTRoots _).
  assert (kcoeff_ok z) as Hz by (by apply table_ok).
  destruct (Z.ltb_spec (j mod (2 * off)) off) as [Hlt|Hge]; cbn [fst snd].
  - destruct (add_kok (part c (coeff s) (j + off)) (part c (coeff s) j)) as [Ha Hac]; [apply part_ok; lia|by apply part_ok|].
    split; [done|]. rewrite Hac. kcong_by 0.
  - assert (kcoeff_ok (part c (coeff s) j)) as Hx by (by apply part_ok).
    assert (kcoeff_ok (part c (coeff s) (j - off))) as Hy by (apply part_ok; lia).
    unfold kcoeff_ok in Hx, Hy. change ML_KEM_PRIME with 3329 in Hx, Hy. change kPrime with 3329. rewrite (u32_small (_ - _ + _)) by lia.
    destruct (mul_kok z (part c (coeff s) (j - off) - part c (coeff s) j + 3329)) as [Hm Hmc];
      [done|change ML_KEM_PRIME with 3329; lia|]. split; [done|]. rewrite Hmc. exists z. change ML_KEM_PRIME with 3329. ring.
Qed.
End Rounds.

(** The transforms of the code are the transforms of both parts. *)
Lemma kem_ntt_fold_ok l s g :
  l ⊆ offsets 7 -> scalar_ok s -> parts s g ->
  scalar_ok (foldl ntt_round s l) /\ parts (foldl ntt_round s l) (fun c => foldl (fun f off => fwd_round 7 zt off f) (g c) l).
Proof.
  revert s g. induction l as [|off l IH]; intros s g Hin Hs Hg; [done|]. cbn [foldl].
  assert (off ∈ offsets 7) as Hoff by (apply Hin; by left).
  destruct (kem_ntt_round_ok s off Hs Hoff) as [Hs' Hr]. apply (IH _ (fun c => fwd_round 7 zt off (g c))); [intros o Ho; apply Hin; by right|done|].
  intros c Hc. rewrite (Hr c Hc). by apply (fwd_proper ML_KEM_PRIME 7), Hg.
Qed.
Lemma inverse_kem_ntt_fold_ok l s :
  l ⊆ offsets 7 -> scalar_ok s ->
  scalar_ok (foldr inverse_ntt_round s l) /\ parts (foldr inverse_ntt_round s l) (fun c => foldr (inv_round zi) (part c (coeff s)) l).
Proof.
  intros Hin Hs. induction l as [|off l IH]; [by split; [|intros c _]|]. cbn [foldr].
  assert (off ∈ offsets 7) as Hoff by (apply Hin; by left).
  destruct IH as [Hs' Hr]; [intros o Ho; apply Hin; by right|].
  destruct (inverse_kem_ntt_round_ok _ off Hs' Hoff) as [Hq Hrq]. split; [done|].
  intros c Hc. rewrite (Hrq c Hc). by apply (inv_proper ML_KEM_PRIME 7), Hr.
Qed.
Lemma scalar_ntt_ok s : scalar_ok s -> scalar_ok (scalar_ntt s) /\ parts (scalar_ntt s) (fun c => HNTT (part c (coeff s))).
Proof. intros Hs. rewrite kem_ntt_unfold. apply (kem_ntt_fold_ok (offsets 7) s (fun c => part c (coeff s))); [done|done|]. by intros c _. Qed.

Lemma mult_const_ok s a : scalar_ok s -> kcoeff_ok a ->
  scalar_ok (scalar_mult_const s a) /\ feqm ML_KEM_PRIME 256 (coeff (scalar_mult_const s a)) (fun i => a * coeff s i).
Proof.
  intros Hs Ha. pose proof Hs as [Hl _]. unfold scalar_mult_const. apply scalar_ok_intro; [by rewrite zlen_fmap|]. intros i Hi.
  rewrite coeff_map by lia. destruct (mul_kok (coeff s i) a) as [Hm Hc]; [by apply scalar_coeff|unfold kcoeff_ok in Ha; lia|].
  split; [done|]. rewrite Hc. kcong_by 0.
Qed.
Lemma inverse_ntt_rounds_ok s :
  scalar_ok s -> scalar_ok (inverse_ntt_rounds 8 0 2 s) /\ parts (inverse_ntt_rounds 8 0 2 s) (fun c => HINTT (part c (coeff s))).
Proof. intros Hs. rewrite inverse_kem_ntt_unfold. by apply (inverse_kem_ntt_fold_ok (offsets 7) s). Qed.
#[local] Opaque inverse_ntt_rounds ntt_rounds HNTT HINTT.
Lemma scalar_inverse_ntt_ok s :
  scalar_ok s -> scalar_ok (scalar_inverse_ntt s) /\
  parts (scalar_inverse_ntt s) (fun c j => kInverseDegree * HINTT (part c (coeff s)) j).
Proof.
  intros Hs. unfold scalar_inverse_ntt. destruct (inverse_ntt_rounds_ok s Hs) as [Hr Hp].
  destruct (mult_const_ok _ kInverseDegree Hr) as [Hm Hc]; [by compute|]. split; [done|]. intros c Hcc j Hj. unfold part at 1.
  rewrite (Hc (2 * j + c)) by lia. specialize (Hp c Hcc j Hj). change (part c ?f j) with (f (2 * j + c)) in Hp.
  by rewrite Hp.
Qed.

(** ** The tables *)

Definition mroot (i : Z) : Z := coeff kModRoots i.

Lemma kem_zt_square k : 1 <= k < 128 -> zt k * zt k ≡ₖ node_val zt k.
Proof.
  intros Hk. apply congb_spec.
  assert (all_below 127 (fun i => congb (q := ML_KEM_PRIME) (zt (i + 1) * zt (i + 1)) (node_val zt (i + 1))) = true)
    as H by (vm_compute; reflexivity).
  apply (all_below_spec _ _ (k - 1)) in H; [|lia]. cbv beta in H. rewrite Z.sub_add in H. exact H.
Qed.
Lemma mroot_val i : 0 <= i < 128 -> mroot i ≡ₖ node_val zt (128 + i).
Proof.
  intros Hi. apply congb_spec.
  assert (all_below 128 (fun i => congb (q := ML_KEM_PRIME) (mroot i) (node_val zt (128 + i))) = true) as H
    by (vm_compute; reflexivity).
  by apply (all_below_spec _ _ i) in H; [|lia].
Qed.
Lemma kem_zt_inverse off b : off ∈ offsets 7 -> 0 <= b < 64 / off -> zi off b * zt (64 / off + b) ≡ₖ 1.
Proof.
  set (P := fun off b => congb (q := ML_KEM_PRIME) (zi off b * zt (64 / off + b)) 1).
  assert (forallb (fun off => all_below (Z.to_nat (64 / off)) (P off)) (offsets 7) = true) as H by (vm_compute; reflexivity).
  rewrite forallb_forall in H. intros Hoff Hb. apply congb_spec. change (P off b = true).
  apply (all_below_spec (Z.to_nat (64 / off))); [by apply H, list_elem_of_In|lia].
Qed.

(** The points FIPS 203 names: [17^(2 BitRev7(i) + 1)]. *)
Definition BitRev7 (m : Z) : Z :=
  foldr (fun k acc => 2 * acc + (if Z.testbit m k then 1 else 0)) 0 [6; 5; 4; 3; 2; 1; 0].
Fixpoint pow_table (n : nat) (x : Z) : list Z :=
  match n with O => [] | S n' => x :: pow_table n' (x * 17 mod ML_KEM_PRIME) end.
Lemma kem_pow_table_spec n x i y : pow_table n x !! i = Some y -> y ≡ₖ x * 17 ^ Z.of_nat i.
Proof.
  revert x i. induction n as [|n IH]; intros x [|i] H; try done; cbn [pow_table] in H.
  - injection H as <-. change (Z.of_nat 0) with 0. rewrite Z.pow_0_r. kcong_by 0.
  - apply IH in H. rewrite H, cong_mod, Nat2Z.inj_succ, Z.pow_succ_r by lia. kcong_by 0.
Qed.
Lemma mroot_fips i : 0 <= i < 128 -> mroot i ≡ₖ 17 ^ (2 * BitRev7 i + 1).
Proof.
  intros Hi. set (tab := pow_table 256 1).
  assert (all_below 128 (fun i => match tab !! Z.to_nat (2 * BitRev7 i + 1) with
    Some y => congb (q := ML_KEM_PRIME) (mroot i) y && (0 <=? BitRev7 i) | None => false end) = true) as H by (vm_compute; reflexivity).
  apply (all_below_spec _ _ i) in H; [|lia]. cbv beta in H.
  destruct (tab !! _) as [y|] eqn:E; [|done]. apply andb_prop in H as [Hy%congb_spec Hb%Z.leb_le].
  rewrite Hy. apply kem_pow_table_spec in E. rewrite E, Z2Nat.id by lia. kcong_by 0.
Qed.

(** ** What the transforms compute *)

#[local] Transparent HNTT HINTT.
Lemma HNTT_eval f i : 0 <= i < 128 -> HNTT f i ≡ₖ evaln 128 f (mroot i).
Proof. exact (ntt_of_eval ML_KEM_PRIME 7 zt mroot kem_zt_square mroot_val f i). Qed.
Lemma mroot_128 i j : 0 <= i < 128 -> 0 <= j -> mroot i ^ (128 + j) ≡ₖ - mroot i ^ j.
Proof. exact (root_size ML_KEM_PRIME 7 zt mroot kem_zt_square mroot_val i j). Qed.
Lemma HNTT_linear a b f g : hfeq (HNTT (fun j => a * f j + b * g j)) (fun j => a * HNTT f j + b * HNTT g j).
Proof. exact (ntt_of_linear ML_KEM_PRIME 7 zt a b f g). Qed.
Lemma HNTT_scale c f : hfeq (HNTT (fun j => c * f j)) (fun j => c * HNTT f j).
Proof. exact (ntt_of_scale ML_KEM_PRIME 7 zt c f). Qed.
Lemma HINTT_scale c f : hfeq (HINTT (fun j => c * f j)) (fun j => c * HINTT f j).
Proof. exact (intt_of_scale ML_KEM_PRIME 7 zi c f). Qed.
Lemma HINTT_HNTT f : hfeq (HINTT (HNTT f)) (fun i => 128 * f i).
Proof. exact (intt_of_ntt_of ML_KEM_PRIME 7 zi zt kem_zt_inverse f). Qed.
Lemma HNTT_HINTT g : hfeq (HNTT (HINTT g)) (fun i => 128 * g i).
Proof. exact (ntt_of_intt_of ML_KEM_PRIME 7 zi zt kem_zt_inverse g). Qed.
Lemma kInverseDegree_spec : kInverseDegree * 128 ≡ₖ 1.
Proof. by apply cong_iff_mod. Qed.
#[local] Opaque HNTT HINTT evaln.

(** ** Products *)

(** A product is a product added to zero. *)
Lemma mult_pairs_add roots lc rc : mult_pairs lc rc roots = mult_add_pairs (replicate (2 * length roots) 0) lc rc roots.
Proof.
  revert lc rc. induction roots as [|z roots IH]; intros lc rc; [by destruct lc as [|? [|]], rc as [|? [|]]|].
  cbn [length]. replace (2 * S (length roots))%nat with (S (S (2 * length roots))) by lia. cbn [replicate].
  destruct lc as [|l0 [|l1 lc]]; [done|done|]. destruct rc as [|r0 [|r1 rc]]; [done|done|]. cbn [mult_pairs mult_add_pairs].
  by rewrite IH, !Z.add_0_l.
Qed.
Lemma scalar_mult_add_zero a b : scalar_mult a b = scalar_mult_add (zeros 256) a b.
Proof. apply mult_pairs_add. Qed.
Lemma mult_add_pairs_coeff roots out lc rc :
  zlen out = 2 * zlen roots -> zlen lc = 2 * zlen roots -> zlen rc = 2 * zlen roots ->
  zlen (mult_add_pairs out lc rc roots) = 2 * zlen roots /\
  forall i, 0 <= i < zlen roots ->
    coeff (mult_add_pairs out lc rc roots) (2 * i) = reduce (u32 (coeff out (2 * i) + u32 (coeff lc (2 * i) * coeff rc (2 * i)) +
      u32 (reduce (u32 (coeff lc (2 * i + 1) * coeff rc (2 * i + 1))) * coeff roots i))) /\
    coeff (mult_add_pairs out lc rc roots) (2 * i + 1) =
      reduce (u32 (coeff out (2 * i + 1) + u32 (coeff lc (2 * i) * coeff rc (2 * i + 1)) + u32 (coeff lc (2 * i + 1) * coeff rc (2 * i)))).
Proof.
  revert out lc rc. induction roots as [|z roots IH]; intros out lc rc Ho Hl Hr.
  - change (zlen []) with 0 in *. split; [|lia]. by destruct out, lc, rc.
  - rewrite zlen_cons in *. pose proof (zlen_nonneg roots).
    destruct out as [|c0 [|c1 out]]; [change (zlen []) with 0 in Ho; lia|change (zlen [c0]) with 1 in Ho; lia|].
    destruct lc as [|l0 [|l1 lc]]; [change (zlen []) with 0 in Hl; lia|change (zlen [l0]) with 1 in Hl; lia|].
    destruct rc as [|r0 [|r1 rc]]; [change (zlen []) with 0 in Hr; lia|change (zlen [r0]) with 1 in Hr; lia|].
    rewrite !zlen_cons in Ho, Hl, Hr. cbn [mult_add_pairs]. destruct (IH out lc rc) as [IHl IHc]; [lia|lia|lia|].
    split; [rewrite !zlen_cons; lia|]. intros i Hi. destruct (Z.eq_dec i 0) as [-> |]; [done|].
    assert (exists k, i = k + 1 /\ 0 <= k) as (k & -> & Hk) by (exists (i - 1); lia).
    replace (2 * (k + 1)) with (2 * k + 1 + 1) by lia. rewrite !coeff_cons.
    destruct (Z.leb_spec 0 (2 * k + 1)), (Z.leb_spec 0 k), (Z.leb_spec 0 (2 * k)), (Z.leb_spec 0 (2 * k + 1 + 1)); try lia.
    apply IHc. lia.
Qed.

(** The sums of two products, and of two products and a coefficient, fit Barrett's range. *)
Lemma dot_kok x a b c d :
  0 <= x < ML_KEM_PRIME -> kcoeff_ok a -> kcoeff_ok b -> kcoeff_ok c -> kcoeff_ok d ->
  kcoeff_ok (reduce (u32 (x + u32 (a * b) + u32 (c * d)))) /\ reduce (u32 (x + u32 (a * b) + u32 (c * d))) ≡ₖ x + a * b + c * d.
Proof.
  unfold kcoeff_ok. change ML_KEM_PRIME with 3329. intros Hx Ha Hb Hc Hd.
  assert (0 <= a * b <= 3328 * 3328) by nia. assert (0 <= c * d <= 3328 * 3328) by nia.
  rewrite (u32_small (a * b)), (u32_small (c * d)), u32_small by lia.
  apply (reduce_kok (x + a * b + c * d)). change ML_KEM_PRIME with 3329. lia.
Qed.

(** The product of two pairs modulo [X^2 - mroot j]. *)
Definition pair_mult (a b : Z -> Z -> Z) (c j : Z) : Z :=
  if c =? 0 then a 0 j * b 0 j + a 1 j * b 1 j * mroot j else a 0 j * b 1 j + a 1 j * b 0 j.
Abbreviation cparts s := (fun c => part c (coeff s)).

Lemma mroot_ok i : kcoeff_ok (mroot i).
Proof. by apply table_ok. Qed.
Lemma two_parts (P : Z -> Prop) : P 0 -> P 1 -> forall c, 0 <= c < 2 -> P c.
Proof. intros H0 H1 c Hc. assert (c = 0 \/ c = 1) as [-> | ->] by lia; done. Qed.

Lemma scalar_mult_add_ok o a b :
  scalar_ok o -> scalar_ok a -> scalar_ok b ->
  scalar_ok (scalar_mult_add o a b) /\
  parts (scalar_mult_add o a b) (fun c j => part c (coeff o) j + pair_mult (cparts a) (cparts b) c j).
Proof.
  intros Ho Ha Hb. unfold scalar_mult_add.
  destruct (mult_add_pairs_coeff kModRoots o a b) as [Hl Hc]; [by rewrite (proj1 Ho)|by rewrite (proj1 Ha)|by rewrite (proj1 Hb)|].
  apply parts_intro; [done|]. intros c j Hcc Hj. destruct (Hc j Hj) as [H0 H1]. clear Hc Hl.
  pose proof (scalar_coeff o (2 * j) Ho ltac:(lia)) as Ho0. pose proof (scalar_coeff o (2 * j + 1) Ho ltac:(lia)).
  pose proof (scalar_coeff a (2 * j) Ha ltac:(lia)). pose proof (scalar_coeff a (2 * j + 1) Ha ltac:(lia)).
  pose proof (scalar_coeff b (2 * j) Hb ltac:(lia)) as Hb0. pose proof (scalar_coeff b (2 * j + 1) Hb ltac:(lia)) as Hb1.
  revert c Hcc. apply two_parts; unfold part, pair_mult; cbn [Z.eqb]; rewrite ?Z.add_0_r.
  - rewrite H0. destruct (mul_kok (coeff a (2 * j + 1)) (coeff b (2 * j + 1))) as [Hm Hmc]; [done|unfold kcoeff_ok in Hb1; lia|].
    destruct (dot_kok (coeff o (2 * j)) (coeff a (2 * j)) (coeff b (2 * j))
      (reduce (u32 (coeff a (2 * j + 1) * coeff b (2 * j + 1)))) (mroot j)) as [Hd Hdc]; [done|done|done|done|apply mroot_ok|].
    split; [exact Hd|]. etransitivity; [exact Hdc|]. rewrite Hmc. kcong_by 0.
  - rewrite H1. destruct (dot_kok (coeff o (2 * j + 1)) (coeff a (2 * j)) (coeff b (2 * j + 1)) (coeff a (2 * j + 1)) (coeff b (2 * j))) as [Hd Hdc];
      [done|done|done|done|done|]. split; [exact Hd|]. rewrite Hdc. kcong_by 0.
Qed.
Lemma zero_scalar_ok : scalar_ok (zeros 256).
Proof. split; [done|]. by apply Forall_replicate. Qed.
Lemma scalar_mult_ok a b :
  scalar_ok a -> scalar_ok b -> scalar_ok (scalar_mult a b) /\ parts (scalar_mult a b) (pair_mult (cparts a) (cparts b)).
Proof.
  intros Ha Hb. rewrite scalar_mult_add_zero. destruct (scalar_mult_add_ok _ a b zero_scalar_ok Ha Hb) as [Hok Hp]. split; [done|].
  intros c Hc j Hj. rewrite (Hp c Hc j Hj). assert (part c (coeff (zeros 256)) j = 0) as ->; [|kcong_by 0].
  unfold part, coeff, zeros. destruct (replicate _ _ !! _) eqn:E; [|done]. by apply lookup_replicate in E as [-> _].
Qed.
Lemma scalar_add_ok a b :
  scalar_ok a -> scalar_ok b ->
  scalar_ok (scalar_add a b) /\ feqm ML_KEM_PRIME 256 (coeff (scalar_add a b)) (fun i => coeff a i + coeff b i).
Proof.
  intros Ha Hb. pose proof Ha as [Hla _]. pose proof Hb as [Hlb _]. unfold scalar_add.
  apply scalar_ok_intro; [rewrite zlen_zip_with; lia|]. intros i Hi. rewrite coeff_zip_with by lia.
  apply add_kok; by apply scalar_coeff.
Qed.
Lemma scalar_sub_ok a b :
  scalar_ok a -> scalar_ok b ->
  scalar_ok (scalar_sub a b) /\ feqm ML_KEM_PRIME 256 (coeff (scalar_sub a b)) (fun i => coeff a i - coeff b i).
Proof.
  intros Ha Hb. pose proof Ha as [Hla _]. pose proof Hb as [Hlb _]. unfold scalar_sub.
  apply scalar_ok_intro; [rewrite zlen_zip_with; lia|]. intros i Hi. rewrite coeff_zip_with by lia.
  apply sub_kok; by apply scalar_coeff.
Qed.

(** ** The ring modulo [X^256 + 1] *)

Abbreviation peq := (feqm ML_KEM_PRIME 256).
Definition pmul : (Z -> Z) -> (Z -> Z) -> Z -> Z := negacyclicn 256.

(** The transform of a polynomial: 128 pairs. *)
Definition slots (f : Z -> Z) (c j : Z) : Z := HNTT (part c f) j.
Definition seq2 (f g : Z -> Z -> Z) : Prop := forall c j, 0 <= c < 2 -> 0 <= j < 128 -> f c j ≡ₖ g c j.

Lemma pmul_even f g k :
  0 <= k < 128 -> part 0 (pmul f g) k = negacyclicn 128 (part 0 f) (part 0 g) k + negacyclicn 128 (part 1 f) (part 1 g) (k - 1).
Proof.
  intros Hk. unfold part at 1, pmul, negacyclicn. rewrite Z.add_0_r. change (Z.of_nat 256) with 256. change (Z.of_nat 128) with 128.
  rewrite (zsum_even_odd _ 128). f_equal; apply zsum_ext; intros i Hi; unfold part; f_equal.
  - by rewrite Z.add_0_r.
  - rewrite Z.add_0_r. f_equal; [destruct (Z.leb_spec (2 * i) (2 * k)), (Z.leb_spec i k); lia|]. f_equal. dlia.
  - f_equal; [destruct (Z.leb_spec (2 * i + 1) (2 * k)), (Z.leb_spec i (k - 1)); lia|]. f_equal. dlia.
Qed.
Lemma pmul_odd f g k :
  0 <= k < 128 -> part 1 (pmul f g) k = negacyclicn 128 (part 0 f) (part 1 g) k + negacyclicn 128 (part 1 f) (part 0 g) k.
Proof.
  intros Hk. unfold part at 1, pmul, negacyclicn. change (Z.of_nat 256) with 256. change (Z.of_nat 128) with 128.
  rewrite (zsum_even_odd _ 128). f_equal; apply zsum_ext; intros i Hi; unfold part; f_equal.
  - by rewrite Z.add_0_r.
  - f_equal; [destruct (Z.leb_spec (2 * i) (2 * k + 1)), (Z.leb_spec i k); lia|]. f_equal. dlia.
  - rewrite Z.add_0_r. f_equal; [destruct (Z.leb_spec (2 * i + 1) (2 * k + 1)), (Z.leb_spec i k); lia|]. f_equal. dlia.
Qed.

(** Multiplying by [X] modulo [X^128 + 1]. *)
#[local] Transparent evaln.
#[local] Opaque zsum.
Lemma negacyclic_wrap a b : negacyclicn 128 a b (-1) = - negacyclicn 128 a b 127.
Proof.
  unfold negacyclicn. change (Z.of_nat 128) with 128. rewrite <- zsum_opp. apply zsum_ext. intros i Hi.
  change (Z.of_nat 128) with 128 in Hi. destruct (Z.leb_spec i (-1)), (Z.leb_spec i 127); try lia.
  replace ((-1 - i) mod 128) with ((127 - i) mod 128) by dlia. ring.
Qed.
Lemma eval_shift a b r :
  r ^ 128 ≡ₖ -1 -> evaln 128 (fun k => negacyclicn 128 a b (k - 1)) r ≡ₖ r * evaln 128 (negacyclicn 128 a b) r.
Proof.
  intros Hr. pose proof (negacyclic_wrap a b) as Hm1. set (h := negacyclicn 128 a b) in *. clearbody h. unfold evaln.
  rewrite (zsum_first _ 127), (zsum_last _ 127). change (Z.of_nat 127) with 127. change (0 - 1) with (-1). rewrite Hm1, Z.pow_0_r.
  rewrite (zsum_ext (fun i => h (1 + i - 1) * r ^ (1 + i)) (fun i => r * (h i * r ^ i))).
  2: { intros i Hi. replace (1 + i - 1) with i by lia. rewrite Z.pow_add_r, Z.pow_1_r by lia. ring. }
  rewrite zsum_scale. set (t := zsum _ 127). clearbody t. transitivity (r * t + h 127 * r ^ 128); [rewrite Hr; kcong_by 0|].
  change (r ^ 128) with (r ^ (1 + 127)). rewrite Z.pow_add_r, Z.pow_1_r by lia. generalize (r ^ 127). intros u. apply cong_of_eq. ring.
Qed.
Lemma evaln_add a b r : evaln 128 (fun i => a i + b i) r = evaln 128 a r + evaln 128 b r.
Proof. unfold evaln. rewrite <- zsum_add. apply zsum_ext. intros. ring. Qed.
Lemma evaln_ext a b r : (forall i, 0 <= i < 128 -> a i = b i) -> evaln 128 a r = evaln 128 b r.
Proof. intros H. unfold evaln. apply zsum_ext. intros i Hi. by rewrite H. Qed.
#[local] Opaque evaln negacyclicn.

Lemma slots_proper f g : peq f g -> seq2 (slots f) (slots g).
Proof. intros H c j Hc Hj. unfold slots. apply HNTT_proper; [|done]. intros i Hi. apply H. lia. Qed.
Lemma slots_mul f g : seq2 (slots (pmul f g)) (pair_mult (slots f) (slots g)).
Proof.
  intros c j Hc Hj. assert (mroot j ^ 128 ≡ₖ -1) as Hr by (pose proof (mroot_128 j 0 Hj ltac:(lia)) as H; by rewrite Z.add_0_r in H).
  assert (forall a b, evaln 128 (negacyclicn 128 a b) (mroot j) ≡ₖ evaln 128 a (mroot j) * evaln 128 b (mroot j)) as Hm.
  { intros a b. apply (eval_negacyclic ML_KEM_PRIME 7). intros k Hk. by apply mroot_128. }
  unfold slots. revert c Hc. apply two_parts; unfold pair_mult; cbn [Z.eqb]; rewrite !HNTT_eval by done.
  - transitivity (evaln 128 (fun k => negacyclicn 128 (part 0 f) (part 0 g) k + negacyclicn 128 (part 1 f) (part 1 g) (k - 1)) (mroot j)).
    + apply cong_of_eq, evaln_ext. intros k Hk. by rewrite pmul_even.
    + rewrite evaln_add, Hm, (eval_shift _ _ _ Hr), Hm. kcong_by 0.
  - transitivity (evaln 128 (fun k => negacyclicn 128 (part 0 f) (part 1 g) k + negacyclicn 128 (part 1 f) (part 0 g) k) (mroot j)).
    + apply cong_of_eq, evaln_ext. intros k Hk. by rewrite pmul_odd.
    + rewrite evaln_add, !Hm. kcong_by 0.
Qed.
#[local] Opaque pmul.
Lemma slots_linear a b f g : seq2 (slots (fun i => a * f i + b * g i)) (fun c j => a * slots f c j + b * slots g c j).
Proof. intros c j Hc Hj. exact (HNTT_linear a b (part c f) (part c g) j Hj). Qed.
(** A polynomial is determined by its transform. *)
Lemma slots_inj f g : seq2 (slots f) (slots g) -> peq f g.
Proof.
  intros H i Hi. assert (0 <= i mod 2 < 2 /\ 0 <= i / 2 < 128) as [Hc Hj] by (split; dlia).
  assert (hfeq (HNTT (part (i mod 2) f)) (HNTT (part (i mod 2) g))) as Hs by (intros j Hj'; by apply H).
  pose proof (HINTT_proper _ _ Hs (i / 2) Hj) as Hi'. rewrite (HINTT_HNTT _ (i / 2) Hj), (HINTT_HNTT _ (i / 2) Hj) in Hi'.
  apply (cong_cancel kInverseDegree 128 _ _ kInverseDegree_spec) in Hi'. unfold part in Hi'.
  by replace (2 * (i / 2) + i mod 2) with i in Hi' by dlia.
Qed.

(** Prove an identity of polynomials on their transforms, pair by pair. *)
Lemma pair_mult_proper a a' b b' : seq2 a a' -> seq2 b b' -> seq2 (pair_mult a b) (pair_mult a' b').
Proof.
  intros Ha Hb c j Hc Hj. pose proof (Ha 0 j ltac:(lia) Hj) as A0. pose proof (Ha 1 j ltac:(lia) Hj) as A1.
  pose proof (Hb 0 j ltac:(lia) Hj) as B0. pose proof (Hb 1 j ltac:(lia) Hj) as B1.
  unfold pair_mult. destruct (c =? 0); by rewrite A0, A1, B0, B1.
Qed.
#[export] Instance pmul_proper : Proper (peq ==> peq ==> peq) pmul.
Proof.
  intros f f' Hf g g' Hg. apply slots_inj. intros c j Hc Hj. rewrite !(slots_mul _ _ c j Hc Hj).
  apply pair_mult_proper; [by apply slots_proper|by apply slots_proper|done|done].
Qed.
Lemma pmul_comm f g : peq (pmul f g) (pmul g f).
Proof.
  apply slots_inj. intros c j Hc Hj. rewrite !(slots_mul _ _ c j Hc Hj). unfold pair_mult. destruct (c =? 0); kcong_by 0.
Qed.
Lemma pmul_assoc f g h : peq (pmul f (pmul g h)) (pmul (pmul f g) h).
Proof.
  apply slots_inj. intros c j Hc Hj. rewrite !(slots_mul _ _ c j Hc Hj).
  rewrite (pair_mult_proper (slots f) (slots f) _ _ ltac:(by intros ? ? _ _) (slots_mul g h) c j Hc Hj).
  rewrite (pair_mult_proper _ _ (slots h) (slots h) (slots_mul f g) ltac:(by intros ? ? _ _) c j Hc Hj).
  unfold pair_mult. cbn [Z.eqb]. destruct (c =? 0); kcong_by 0.
Qed.
Lemma pmul_linear a b f g h : peq (pmul f (fun i => a * g i + b * h i)) (fun i => a * pmul f g i + b * pmul f h i).
Proof.
  apply slots_inj. intros c j Hc Hj. rewrite (slots_mul _ _ c j Hc Hj), (slots_linear a b _ _ c j Hc Hj), !(slots_mul _ _ c j Hc Hj).
  rewrite (pair_mult_proper (slots f) (slots f) _ _ ltac:(by intros ? ? _ _) (slots_linear a b g h) c j Hc Hj).
  unfold pair_mult. destruct (c =? 0); kcong_by 0.
Qed.

(** [s] holds the transform of the polynomial [f]. *)
Definition reps (s : scalar) (f : Z -> Z) : Prop := scalar_ok s /\ parts s (slots f).
#[export] Instance reps_proper s : Proper (peq ==> impl) (reps s).
Proof.
  intros f g H [Hs Hp]. split; [done|]. intros c Hc j Hj. rewrite (Hp c Hc j Hj). by apply slots_proper.
Qed.
Lemma reps_ntt s : scalar_ok s -> reps (scalar_ntt s) (coeff s).
Proof. apply scalar_ntt_ok. Qed.
Lemma reps_mult_add o a b h f g :
  reps o h -> reps a f -> reps b g -> reps (scalar_mult_add o a b) (fun i => h i + pmul f g i).
Proof.
  intros [Ho Hh] [Ha Hf] [Hb Hg]. destruct (scalar_mult_add_ok o a b Ho Ha Hb) as [Hok Hp]. split; [done|].
  intros c Hc j Hj. rewrite (Hp c Hc j Hj), (Hh c Hc j Hj).
  transitivity (slots (fun i => 1 * h i + 1 * pmul f g i) c j); [|apply slots_proper; [intros i _; kcong_by 0|done|done]].
  rewrite (slots_linear 1 1 _ _ c j Hc Hj), (slots_mul f g c j Hc Hj).
  transitivity (slots h c j + pair_mult (slots f) (slots g) c j); [|kcong_by 0]. apply cong_add; [done|].
  apply pair_mult_proper; [|..|done|done]; intros c' j' Hc' Hj'; [by apply Hf|by apply Hg].
Qed.
Lemma reps_mult a b f g : reps a f -> reps b g -> reps (scalar_mult a b) (pmul f g).
Proof.
  intros [Ha Hf] [Hb Hg]. destruct (scalar_mult_ok a b Ha Hb) as [Hok Hp]. split; [done|].
  intros c Hc j Hj. rewrite (Hp c Hc j Hj), (slots_mul f g c j Hc Hj).
  apply pair_mult_proper; [|..|done|done]; intros c' j' Hc' Hj'; [by apply Hf|by apply Hg].
Qed.
Lemma reps_inverse s f : reps s f -> scalar_ok (scalar_inverse_ntt s) /\ peq (coeff (scalar_inverse_ntt s)) f.
Proof.
  intros [Hs Hf]. destruct (scalar_inverse_ntt_ok s Hs) as [Hok Hp]. split; [done|]. apply slots_inj. intros c j Hc Hj. unfold slots.
  rewrite (HNTT_proper _ _ (Hp c Hc) j Hj), (HNTT_scale _ _ j Hj), (HNTT_HINTT _ j Hj), (Hf c Hc j Hj). unfold slots.
  rewrite Z.mul_assoc, kInverseDegree_spec. kcong_by 0.
Qed.
Lemma reps_of s : scalar_ok s -> reps s (coeff (scalar_inverse_ntt s)).
Proof.
  intros Hs. split; [done|]. destruct (scalar_inverse_ntt_ok s Hs) as [_ Hp]. intros c Hc j Hj. unfold slots.
  rewrite (HNTT_proper _ _ (Hp c Hc) j Hj), (HNTT_scale _ _ j Hj), (HNTT_HINTT _ j Hj).
  rewrite Z.mul_assoc, kInverseDegree_spec. kcong_by 0.
Qed.
Lemma scalar_eq s t : scalar_ok s -> scalar_ok t -> peq (coeff s) (coeff t) -> s = t.
Proof.
  intros Hs Ht H. pose proof Hs as [Hl _]. pose proof Ht as [Hl' _]. apply coeff_ext; [lia|]. intros i Hi.
  apply (cong_eq (q := ML_KEM_PRIME)); [apply scalar_coeff; [done|lia]..|]. apply H. lia.
Qed.
Lemma inverse_ntt_ntt s : scalar_ok s -> scalar_inverse_ntt (scalar_ntt s) = s.
Proof. intros Hs. destruct (reps_inverse _ _ (reps_ntt s Hs)) as [Hok Hp]. by apply scalar_eq. Qed.

(** C37: the transform is the one of FIPS 203 and multiplication through it is exact.
    For scalars with reduced coefficients: the pair [i] of the transform is the
    polynomial modulo [X^2 - 17^(2 BitRev7(i) + 1)]; the inverse transform undoes it;
    and transforming two polynomials, multiplying and transforming back gives the
    coefficients of their product modulo [X^256 + 1] and [q].  Every value stays
    within its 16 or 32 bits. *)
Theorem ml_kem_poly_mult_exact a b k i c :
  scalar_ok a -> scalar_ok b -> 0 <= k < 256 -> 0 <= i < 128 -> 0 <= c < 2 ->
  scalar_ok (scalar_ntt a) /\
  coeff (scalar_ntt a) (2 * i + c) = evaln 128 (part c (coeff a)) (mroot i) mod ML_KEM_PRIME /\
  mroot i = 17 ^ (2 * BitRev7 i + 1) mod ML_KEM_PRIME /\
  scalar_inverse_ntt (scalar_ntt a) = a /\
  coeff (scalar_inverse_ntt (scalar_mult (scalar_ntt a) (scalar_ntt b))) k = pmul (coeff a) (coeff b) k mod ML_KEM_PRIME.
Proof.
  intros Ha Hb Hk Hi Hc. destruct (scalar_ntt_ok a Ha) as [Hn Hp]. split_and!.
  - done.
  - apply cong_unique; [apply scalar_coeff; [done|lia]|]. rewrite <- HNTT_eval by done. exact (Hp c Hc i Hi).
  - apply cong_unique; [apply mroot_ok|by apply mroot_fips].
  - by apply inverse_ntt_ntt.
  - destruct (reps_inverse _ _ (reps_mult _ _ _ _ (reps_ntt a Ha) (reps_ntt b Hb))) as [Hok Hr].
    apply cong_unique; [by apply scalar_coeff|by apply Hr].
Qed.

Lemma ml_kem_poly_mult_exact_witness :
  let x255 := zeros 255 ++ [1] in let x := 0 :: 1 :: zeros 254 in
  coeff (scalar_inverse_ntt (scalar_mult (scalar_ntt x255) (scalar_ntt x))) 0 = 3328.
Proof.
  assert (scalar_ok (zeros 255 ++ [1]) /\ scalar_ok (0 :: 1 :: zeros 254)) as [Ha Hb].
  { split; (split; [reflexivity|]; repeat (constructor; [by compute|]); constructor). }
  cbv zeta. destruct (ml_kem_poly_mult_exact _ _ 0 0 0 Ha Hb) as (_ & _ & _ & _ & ->); [lia..|].
  vm_compute. reflexivity.
Defined.
