(* ===== verification/MlKemCode.v ===== *)
(** * ML-KEM: encoding, decoding and compressing scalars

    Model of the encoders and decoders of [crypto/ml_kem/ml_kem.c], which move bits
    through a 64-bit accumulator.  An encoder returns the bytes it stores at [out].
    They are shown to be the functions ByteEncode and ByteDecode of FIPS 203
    ([bit_pack] and [bit_unpack]); the 12-bit decoder refuses exactly the values that
    are not reduced. *)
From S2P Require Import Prelude.
From S2P Require Import ByteOrder.
From S2P Require Import ZSum.
From S2P Require Import BitPack.
From S2P Require Import ModCong.
From S2P Require Import NttPass.
From S2P Require Import MlKemField.
From S2P Require Import MlKemNtt.

(** [do { ... } while (curr < end)] *)
Fixpoint encode_loop (bits : Z) (curr : list Z) (accum used : Z) : list Z :=
  match curr with
  | [] => []
  | element :: curr' =>
    if used + bits <? 64 then encode_loop bits curr' (Z.lor accum (u64 (Z.shiftl element used))) (used + bits)
    else if 64 <? used + bits then
      u64_le (Z.lor accum (u64 (Z.shiftl element used))) ++
      encode_loop bits curr' (Z.shiftr element (64 - used)) (used + bits - 64)
    else u64_le (Z.lor accum (u64 (Z.shiftl element used))) ++ encode_loop bits curr' 0 0
  end.
Definition scalar_encode (s : scalar) (bits : Z) : list Z := encode_loop bits s 0 0.

(** The byte of eight coefficients, and the loop over [i]. *)
Definition encode_1_byte (c : list Z) : list Z :=
  [for_each 8 0 (fun j out_byte => u8 (Z.lor out_byte (Z.shiftl (Z.land (coeff c j) 1) j))) 0].
Definition scalar_encode_1 (s : scalar) : list Z := pack_groups 8 32 encode_1_byte s.

(** [n]: coefficients still to be stored. *)
Fixpoint decode_loop (fuel : nat) (bits : Z) (n : nat) (inp : list Z) (accum accum_bits todo mask element : Z) : list Z :=
  match fuel, n with
  | S fuel', S n' =>
    let bitmask := u16 (Z.shiftl 1 bits - 1) in
    let '(inp, accum, accum_bits) :=
      if accum_bits =? 0 then (drop 8 inp, OPENSSL_load_u64_le inp 0, 64) else (inp, accum, accum_bits) in
    if (todo =? bits) && (bits <=? accum_bits) then
      Z.land (u16 accum) mask ::
      decode_loop fuel' bits n' inp (Z.shiftr accum bits) (accum_bits - bits) todo mask element
    else if todo <=? accum_bits then
      u16 (Z.lor element (Z.shiftl (Z.land (u16 accum) mask) (bits - todo))) ::
      decode_loop fuel' bits n' inp (Z.shiftr accum todo) (accum_bits - todo) bits bitmask 0
    else
      decode_loop fuel' bits (S n') inp accum 0 (todo - accum_bits) (Z.shiftr bitmask accum_bits)
        (Z.land (u16 accum) mask)
  | _, _ => []
  end.
(** A coefficient takes at most two rounds. *)
Definition scalar_decode (inp : list Z) (bits : Z) : scalar :=
  decode_loop 512 bits 256 inp 0 0 bits (u16 (Z.shiftl 1 bits - 1)) 0.

Fixpoint decode_12_loop (n : nat) (inp : list Z) : option scalar :=
  match n, inp with
  | S n', b1 :: b2 :: b3 :: inp' =>
    let c1 := u16 (Z.lor b1 (Z.shiftl (Z.land b2 0x0f) 8)) in
    let c2 := u16 (Z.lor (Z.shiftr b2 4) (Z.shiftl b3 4)) in
    let outOfRange1 := kPrime <=? c1 in
    let outOfRange2 := kPrime <=? c2 in
    if outOfRange1 || outOfRange2 then None
    else rest ← decode_12_loop n' inp'; Some (c1 :: c2 :: rest)
  | _, _ => Some []
  end.
Definition scalar_decode_12 (inp : list Z) : option scalar := decode_12_loop 128 inp.

Definition half_q_plus_1 : Z := Z.shiftr ML_KEM_PRIME 1 + 1.
(** [decode_decompress_add_bit], as often as there are coefficients. *)
Fixpoint decode_decompress_add_bits (curr : list Z) (b : Z) : list Z :=
  match curr with
  | [] => []
  | c :: curr' =>
    let mask := u16 (constish_time_non_zero (Z.land b 1)) in
    reduce_once (u16 (c + Z.land mask half_q_plus_1)) :: decode_decompress_add_bits curr' (Z.shiftr b 1)
  end.
(** [do { b = *in++; ... } while (curr < end)] *)
Fixpoint decode_decompress_add_loop (curr inp : list Z) : scalar :=
  match inp with
  | [] => []
  | b :: inp' => decode_decompress_add_bits (take 8 curr) b ++ decode_decompress_add_loop (drop 8 curr) inp'
  end.
Definition scalar_decode_decompress_add (out : scalar) (inp : list Z) : scalar :=
  decode_decompress_add_loop out (slice inp 0 (DEGREE / 8)).

Definition scalar_compress (s : scalar) (bits : Z) : scalar := (fun c => compress c bits) <$> s.
Definition scalar_decompress (s : scalar) (bits : Z) : scalar := (fun c => decompress c bits) <$> s.

(** ** Encoding *)

Lemma encode_loop_spec bits curr accum used :
  1 <= bits <= 16 -> Forall (is_digit bits) curr -> 0 <= used < 64 -> 0 <= accum < 2 ^ used ->
  (used + bits * zlen curr) mod 64 = 0 ->
  encode_loop bits curr accum used =
  le_bytes (Z.to_nat ((used + bits * zlen curr) / 8)) (accum + 2 ^ used * digits_val bits curr).
Proof.
  intros Hb Hd. revert accum used. induction Hd as [|x curr Hx _ IH]; intros accum used Hu Ha Hm.
  - change (zlen []) with 0 in *. rewrite Z.mul_0_r, Z.add_0_r in *. rewrite Z.mod_small in Hm by lia. subst used. done.
  - rewrite zlen_cons in *. pose proof (zlen_nonneg curr) as Hn. unfold is_digit in Hx.
    assert (0 < 2 ^ used) as Hpu by (apply Z.pow_pos_nonneg; lia). assert (0 < 2 ^ bits) as Hpb by (apply Z.pow_pos_nonneg; lia).
    cbn [encode_loop digits_val foldr]. rewrite lor_u64 by lia. fold (digits_val bits curr). set (v := digits_val bits curr) in *.
    set (w := accum + 2 ^ used * x). assert (0 <= w < 2 ^ (used + bits)) as Hw by (rewrite Z.pow_add_r by lia; unfold w; nia).
    assert (accum + 2 ^ used * (x + 2 ^ bits * v) = w + 2 ^ (used + bits) * v) as ->
      by (rewrite Z.pow_add_r by lia; unfold w; ring).
    destruct (Z.ltb_spec (used + bits) 64) as [Hlt|Hge].
    + assert (2 ^ (used + bits) <= 2 ^ 64) by (apply Z.pow_le_mono_r; lia). change (2 ^ 64) with 18446744073709551616 in *.
      rewrite u64_small by lia.
      replace (used + bits * (1 + zlen curr)) with (used + bits + bits * zlen curr) in * by lia. apply IH; [lia|done|done].
    + assert (exists e, used + bits = 64 + e /\ 0 <= e < 64) as (e & He & Her) by (exists (used + bits - 64); lia).
      assert (encode_loop bits curr (x / 2 ^ (64 - used)) e =
        le_bytes (Z.to_nat ((e + bits * zlen curr) / 8)) (x / 2 ^ (64 - used) + 2 ^ e * v)) as Hrest.
      { apply IH; [lia| |].
        - split; [apply Z.div_pos; [lia|apply Z.pow_pos_nonneg; lia]|]. apply Z.div_lt_upper_bound; [apply Z.pow_pos_nonneg; lia|].
          rewrite <- Z.pow_add_r by lia. replace (64 - used + e) with bits by lia. lia.
        - rewrite <- Hm. replace (used + bits * (1 + zlen curr)) with (e + bits * zlen curr + 1 * 64) by lia. by rewrite Z.mod_add. }
      replace (Z.to_nat ((used + bits * (1 + zlen curr)) / 8)) with (8 + Z.to_nat ((e + bits * zlen curr) / 8))%nat.
      2: { replace (used + bits * (1 + zlen curr)) with (e + bits * zlen curr + 8 * 8) by lia. rewrite Z.div_add by lia.
           assert (0 <= (e + bits * zlen curr) / 8) by (apply Z.div_pos; nia). lia. }
      rewrite le_bytes_app. change (256 ^ Z.of_nat 8) with (2 ^ 64). rewrite He, Z.pow_add_r, <- Z.mul_assoc, (Z.mul_comm (2 ^ 64)), Z.div_add by lia.
      assert (w / 2 ^ 64 = x / 2 ^ (64 - used)) as ->.
      { unfold w. replace 64 with (used + (64 - used)) at 1 by lia. rewrite Z.pow_add_r, <- Z.div_div by (try apply Z.pow_pos_nonneg; lia).
        by rewrite (Z.mul_comm (2 ^ used)), Z.div_add, (Z.div_small accum), Z.add_0_l by lia. }
      rewrite <- Hrest, u64_le_eq.
      replace (le_bytes 8 (w + 2 ^ e * v * 2 ^ 64)) with (le_bytes 8 (u64 w)).
      2: { apply le_bytes_cong. change (256 ^ Z.of_nat 8) with (2 ^ 64). rewrite Z.mod_add by lia. apply Z.mod_mod. lia. }
      destruct (Z.ltb_spec 64 (64 + e)).
      * rewrite Z.shiftr_div_pow2 by lia. by replace (64 + e - 64) with e by lia.
      * assert (e = 0) as -> by lia. by replace (x / 2 ^ (64 - used)) with 0 by (replace (64 - used) with bits by lia; by rewrite Z.div_small).
Qed.
(** The encoder is Algorithm 5 of FIPS 203. *)
Lemma scalar_encode_spec s bits :
  1 <= bits <= 16 -> zlen s = 256 -> Forall (is_digit bits) s -> scalar_encode s bits = bit_pack bits s.
Proof.
  intros Hb Hl Hd. unfold scalar_encode, bit_pack. rewrite encode_loop_spec.
  - rewrite Z.add_0_l, Z.mul_1_l, Z.add_0_l. done.
  - done.
  - done.
  - lia.
  - done.
  - rewrite Hl, Z.add_0_l. replace (bits * 256) with (4 * bits * 64) by ring. apply Z.mod_mul. lia.
Qed.

(** ** Decoding *)

Lemma load_next inp :
  bytes_ok inp -> 8 <= zlen inp ->
  OPENSSL_load_u64_le inp 0 = le_val (take 8 inp) /\ 0 <= le_val (take 8 inp) < 2 ^ 64 /\
  le_val inp = le_val (take 8 inp) + 2 ^ 64 * le_val (drop 8 inp) /\ bytes_ok (drop 8 inp) /\ zlen (drop 8 inp) = zlen inp - 8.
Proof.
  intros Hok Hl. assert (zlen (take 8 inp) = 8) as Ht by (unfold zlen in *; rewrite length_take; lia).
  split_and!.
  - rewrite load_u64_le_val by (done || lia). reflexivity.
  - apply le_val_range, Forall_take, Hok.
  - pose proof (le_val_range (take 8 inp) (Forall_take _ _ _ Hok)) as Hr. rewrite Ht in Hr. apply Hr.
  - rewrite <- (take_drop 8 inp) at 1. rewrite le_val_app, Ht. done.
  - by apply Forall_drop.
  - unfold zlen in *. rewrite length_drop. lia.
Qed.

(** A field of the accumulator. *)
Lemma field_low x k : 0 <= k <= 16 -> Z.land (u16 x) (2 ^ k - 1) = x mod 2 ^ k.
Proof.
  intros Hk. rewrite Z.sub_1_r, <- Z.ones_equiv, Z.land_ones by lia. unfold u16. change 65536 with (2 ^ 16).
  replace 16 with (k + (16 - k)) by lia. rewrite Z.pow_add_r by lia.
  pose proof (Z.pow_pos_nonneg 2 k ltac:(lia) ltac:(lia)). pose proof (Z.pow_pos_nonneg 2 (16 - k) ltac:(lia) ltac:(lia)).
  rewrite Z.rem_mul_r, (Z.mul_comm (2 ^ k)), Z.mod_add, Z.mod_mod by lia. done.
Qed.
(** The low digit of a number in two parts. *)
Lemma low_digit x y k m :
  0 <= k <= m -> (x + 2 ^ m * y) mod 2 ^ k = x mod 2 ^ k /\ (x + 2 ^ m * y) / 2 ^ k = x / 2 ^ k + 2 ^ (m - k) * y.
Proof.
  intros Hk. pose proof (Z.pow_pos_nonneg 2 k ltac:(lia) ltac:(lia)). replace m with (k + (m - k)) at 1 2 by lia.
  rewrite Z.pow_add_r by lia. replace (2 ^ k * 2 ^ (m - k) * y) with (2 ^ (m - k) * y * 2 ^ k) by ring.
  by rewrite Z.mod_add, Z.div_add by lia.
Qed.
Lemma joined_digit a x k bits :
  0 <= k <= bits -> 0 <= a < 2 ^ k ->
  (a + 2 ^ k * x) mod 2 ^ bits = a + 2 ^ k * (x mod 2 ^ (bits - k)) /\ (a + 2 ^ k * x) / 2 ^ bits = x / 2 ^ (bits - k).
Proof.
  intros Hk Ha. pose proof (Z.pow_pos_nonneg 2 k ltac:(lia) ltac:(lia)).
  pose proof (Z.pow_pos_nonneg 2 (bits - k) ltac:(lia) ltac:(lia)) as Hp.
  replace bits with (k + (bits - k)) at 1 3 by lia. rewrite Z.pow_add_r by lia.
  assert ((a + 2 ^ k * x) / 2 ^ k = x) as E by (rewrite (Z.mul_comm (2 ^ k)), Z.div_add, Z.div_small by lia; lia).
  split; [|by rewrite <- Z.div_div, E by lia]. rewrite Z.rem_mul_r, E by lia. f_equal.
  rewrite (Z.mul_comm (2 ^ k)), Z.mod_add, Z.mod_small by lia. done.
Qed.

Section Decode.
Context (bits : Z) (Hb : 1 <= bits <= 12).
#[local] Abbreviation bitmask := (2 ^ bits - 1).

Lemma bitmask_eq : u16 (Z.shiftl 1 bits - 1) = bitmask.
Proof.
  rewrite Z.shiftl_mul_pow2, Z.mul_1_l by lia. apply u16_small.
  assert (2 ^ 1 <= 2 ^ bits <= 2 ^ 12) by (split; apply Z.pow_le_mono_r; lia). lia.
Qed.

(** One round. *)
Lemma decode_step fuel n inp accum accum_bits todo mask element inp1 accum1 ab1 :
  (if accum_bits =? 0 then (drop 8 inp, OPENSSL_load_u64_le inp 0, 64) else (inp, accum, accum_bits)) = (inp1, accum1, ab1) ->
  decode_loop (S fuel) bits (S n) inp accum accum_bits todo mask element =
  if (todo =? bits) && (bits <=? ab1) then
    Z.land (u16 accum1) mask :: decode_loop fuel bits n inp1 (Z.shiftr accum1 bits) (ab1 - bits) todo mask element
  else if todo <=? ab1 then
    u16 (Z.lor element (Z.shiftl (Z.land (u16 accum1) mask) (bits - todo))) ::
    decode_loop fuel bits n inp1 (Z.shiftr accum1 todo) (ab1 - todo) bits bitmask 0
  else decode_loop fuel bits (S n) inp1 accum1 0 (todo - ab1) (Z.shiftr bitmask ab1) (Z.land (u16 accum1) mask).
Proof. intros E. rewrite <- bitmask_eq. cbn [decode_loop]. by rewrite E. Qed.

(** What the loop has still to decode. *)
Definition pending (n : nat) (inp : list Z) (accum accum_bits : Z) : Prop :=
  0 <= accum < 2 ^ accum_bits /\ bytes_ok inp /\ zlen inp mod 8 = 0 /\ bits * Z.of_nat n = accum_bits + 8 * zlen inp.

Lemma decode_partial fuel n inp accum accum_bits :
  pending (S n) inp accum accum_bits -> 0 < accum_bits < bits ->
  decode_loop (S fuel) bits (S n) inp accum 0 (bits - accum_bits) (Z.shiftr bitmask accum_bits) accum =
  (accum + 2 ^ accum_bits * le_val inp) mod 2 ^ bits ::
  decode_loop fuel bits n (drop 8 inp) (le_val (take 8 inp) / 2 ^ (bits - accum_bits)) (64 - (bits - accum_bits)) bits bitmask 0.
Proof.
  intros (Ha & Hok & Hm & Hn) Hab. assert (8 <= zlen inp) as Hl by dlia.
  destruct (load_next inp Hok Hl) as (Hld & Hr & Hv & _ & _). rewrite (decode_step _ _ _ _ _ _ _ _ (drop 8 inp) (le_val (take 8 inp)) 64)
    by (by rewrite Hld).
  destruct (Z.eqb_spec (bits - accum_bits) bits); [lia|]. cbn [andb]. destruct (Z.leb_spec (bits - accum_bits) 64); [|lia].
  replace (Z.shiftr bitmask accum_bits) with (2 ^ (bits - accum_bits) - 1).
  2: { rewrite Z.shiftr_div_pow2 by lia. symmetry. rewrite !Z.sub_1_r, <- !Z.ones_equiv. by rewrite Z.ones_div_pow2 by lia. }
  rewrite field_low by lia. replace (bits - (bits - accum_bits)) with accum_bits by lia.
  rewrite Z.shiftr_div_pow2 by lia. f_equal.
  destruct (joined_digit accum (le_val inp) accum_bits bits ltac:(lia) Ha) as [-> _].
  rewrite Hv. destruct (low_digit (le_val (take 8 inp)) (le_val (drop 8 inp)) (bits - accum_bits) 64 ltac:(lia)) as [-> _].
  set (x := le_val (take 8 inp) mod 2 ^ (bits - accum_bits)).
  assert (0 <= x < 2 ^ (bits - accum_bits)) as Hx by (apply Z.mod_pos_bound, Z.pow_pos_nonneg; lia).
  rewrite lor_shiftl_add by lia. assert (2 ^ accum_bits * 2 ^ (bits - accum_bits) = 2 ^ bits) as E
    by (rewrite <- Z.pow_add_r by lia; f_equal; lia).
  assert (2 ^ bits <= 2 ^ 12) by (apply Z.pow_le_mono_r; lia). change (2 ^ 12) with 4096 in *. rewrite u16_small by nia. ring.
Qed.

Lemma decode_loop_spec n fuel inp accum accum_bits :
  (2 * n <= fuel)%nat -> 0 <= accum_bits <= 64 -> pending n inp accum accum_bits ->
  decode_loop fuel bits n inp accum accum_bits bits bitmask 0 = to_digits bits n (accum + 2 ^ accum_bits * le_val inp).
Proof.
  revert fuel inp accum accum_bits. induction n as [|n IH]; intros fuel inp accum accum_bits Hf Hab Hp.
  { by destruct fuel. }
  destruct fuel as [|[|fuel]]; [lia|lia|].
  (* load the next word when the accumulator is empty *)
  assert (exists inp1 accum1 ab1, 0 < ab1 <= 64 /\ pending (S n) inp1 accum1 ab1 /\
    accum + 2 ^ accum_bits * le_val inp = accum1 + 2 ^ ab1 * le_val inp1 /\
    (if accum_bits =? 0 then (drop 8 inp, OPENSSL_load_u64_le inp 0, 64) else (inp, accum, accum_bits)) = (inp1, accum1, ab1))
    as (inp1 & accum1 & ab1 & Hab1 & Hp1 & Hv & Hld).
  { destruct Hp as (Ha & Hok & Hm & Hn). destruct (Z.eqb_spec accum_bits 0) as [-> |].
    - assert (8 <= zlen inp) as Hl by dlia. destruct (load_next inp Hok Hl) as (Hld & Hr & Hv & Hok' & Hl').
      exists (drop 8 inp), (le_val (take 8 inp)), 64. rewrite Hld. split; [lia|]. split.
      + unfold pending. split_and!; [lia|lia|done|rewrite Hl'; dlia|lia].
      + split; [|done]. change (2 ^ 0) with 1 in *. rewrite Hv. lia.
    - exists inp, accum, accum_bits. split; [lia|]. by split. }
  rewrite Hv. clear Hv Hp Hab. destruct Hp1 as (Ha & Hok & Hm & Hn). rewrite (decode_step _ _ _ _ _ _ _ _ _ _ _ Hld). clear Hld.
  rewrite Z.eqb_refl. cbn [andb to_digits]. destruct (Z.leb_spec bits ab1).
  - rewrite field_low by lia. destruct (low_digit accum1 (le_val inp1) bits ab1 ltac:(lia)) as [-> ->]. f_equal.
    rewrite Z.shiftr_div_pow2 by lia. apply IH; [lia|lia|]. split_and!; try done.
    + apply Z.div_pos; [lia|apply Z.pow_pos_nonneg; lia].
    + apply Z.div_lt_upper_bound; [apply Z.pow_pos_nonneg; lia|]. rewrite <- Z.pow_add_r by lia. replace (bits + (ab1 - bits)) with ab1 by lia. lia.
    + lia.
  - rewrite field_low by lia. assert (accum1 mod 2 ^ bits = accum1) as ->.
    { apply Z.mod_small. assert (2 ^ ab1 <= 2 ^ bits) by (apply Z.pow_le_mono_r; lia). lia. }
    rewrite decode_partial by (done || lia). f_equal. assert (8 <= zlen inp1) as Hl by dlia.
    destruct (load_next inp1 Hok Hl) as (_ & Hr & Hv & Hok' & Hl').
    destruct (joined_digit accum1 (le_val inp1) ab1 bits ltac:(lia) Ha) as [_ ->]. rewrite Hv.
    destruct (low_digit (le_val (take 8 inp1)) (le_val (drop 8 inp1)) (bits - ab1) 64 ltac:(lia)) as [_ ->].
    apply IH; [lia|lia|]. split_and!; try done.
    + apply Z.div_pos; [lia|apply Z.pow_pos_nonneg; lia].
    + apply Z.div_lt_upper_bound; [apply Z.pow_pos_nonneg; lia|]. rewrite <- Z.pow_add_r by lia.
      replace (bits - ab1 + (64 - (bits - ab1))) with 64 by lia. lia.
    + rewrite Hl'. dlia.
    + lia.
Qed.

(** The decoder is Algorithm 6 of FIPS 203. *)
Lemma scalar_decode_spec inp : bytes_ok inp -> zlen inp = 32 * bits -> scalar_decode inp bits = bit_unpack bits 256 inp.
Proof.
  intros Hok Hl. unfold scalar_decode, bit_unpack. rewrite bitmask_eq, decode_loop_spec.
  - by rewrite Z.add_0_l, Z.mul_1_l.
  - lia.
  - lia.
  - split_and!; [done|done|done|rewrite Hl; dlia|lia].
Qed.
End Decode.

(** ** One bit and twelve bits *)

Lemma encode_1_byte_packs : packs encode_1_byte id 1 8 1.
Proof.
  intros cs Hl Hd. do 8 (destruct cs as [|? cs]; [done|]). destruct cs; [|done].
  cbn [fmap list_fmap] in *. unfold id in *.
  repeat (apply Forall_cons in Hd as [Hx Hd];
    match type of Hx with is_digit _ ?x => assert (x = 0 \/ x = 1) as [-> | ->] by (unfold is_digit in Hx; lia); clear Hx end);
  reflexivity.
Qed.
Lemma scalar_encode_1_spec s : zlen s = 256 -> Forall (is_digit 1) s -> scalar_encode_1 s = bit_pack 1 s.
Proof.
  intros Hl Hd. unfold scalar_encode_1. rewrite (pack_groups_spec 1 8 1 ltac:(lia) ltac:(lia) eq_refl _ id 32).
  - by rewrite list_fmap_id.
  - apply encode_1_byte_packs.
  - unfold zlen in Hl. lia.
  - by rewrite list_fmap_id.
Qed.

Lemma decode_12_pair b1 b2 b3 :
  is_byte b1 -> is_byte b2 -> is_byte b3 ->
  to_digits 12 2 (le_val [b1; b2; b3]) =
  [u16 (Z.lor b1 (Z.shiftl (Z.land b2 0x0f) 8)); u16 (Z.lor (Z.shiftr b2 4) (Z.shiftl b3 4))].
Proof.
  unfold is_byte. intros H1 H2 H3. change 0x0f with (Z.ones 4). rewrite Z.land_ones, Z.shiftr_div_pow2 by lia.
  change (2 ^ 4) with 16. rewrite !lor_shiftl_add by (change (2 ^ 8) with 256; change (2 ^ 4) with 16; lia || dlia).
  change (2 ^ 8) with 256. change (2 ^ 4) with 16. cbn [to_digits le_val]. change (2 ^ 12) with 4096.
  rewrite !u16_small by dlia. f_equal; [dlia|]. f_equal. dlia.
Qed.
Definition all_reduced (s : list Z) : bool := forallb (fun c => c <? ML_KEM_PRIME) s.
Lemma decode_12_loop_spec n inp :
  length inp = (3 * n)%nat -> bytes_ok inp ->
  decode_12_loop n inp = if all_reduced (bit_unpack 12 (2 * n) inp) then Some (bit_unpack 12 (2 * n) inp) else None.
Proof.
  revert inp. induction n as [|n IH]; intros inp Hl Hok; [by destruct inp|].
  destruct inp as [|b1 [|b2 [|b3 inp]]]; cbn [length] in Hl; [lia|lia|lia|].
  rewrite (bit_unpack_group 12 2 3 ltac:(lia) ltac:(lia) eq_refl n) by (done || simpl; lia).
  apply Forall_cons in Hok as [H1 Hok]. apply Forall_cons in Hok as [H2 Hok]. apply Forall_cons in Hok as [H3 Hok].
  cbn [take drop]. rewrite take_0, drop_0, decode_12_pair by done. cbn [decode_12_loop app]. unfold all_reduced. cbn [forallb].
  fold (all_reduced (bit_unpack 12 (2 * n) inp)). rewrite IH by (done || lia). change kPrime with ML_KEM_PRIME. rewrite !Z.leb_antisym.
  destruct (_ <? _), (_ <? _); try done. cbn [negb orb andb]. by destruct (all_reduced _).
Qed.
Lemma scalar_decode_12_spec inp :
  zlen inp = 384 -> bytes_ok inp ->
  scalar_decode_12 inp = if all_reduced (bit_unpack 12 256 inp) then Some (bit_unpack 12 256 inp) else None.
Proof. intros Hl Hok. apply (decode_12_loop_spec 128); [unfold zlen in Hl; lia|done]. Qed.
Lemma all_reduced_ok s : all_reduced s = true -> Forall (is_digit 12) s -> Forall kcoeff_ok s.
Proof.
  intros H Hd. apply Forall_forall. intros x Hx. unfold all_reduced in H. rewrite forallb_forall in H.
  rewrite Forall_forall in Hd. specialize (Hd x Hx). unfold is_digit in Hd. apply list_elem_of_In in Hx. apply H in Hx. unfold kcoeff_ok. lia.
Qed.

(** Adding [round(q / 2)] where the message has a one. *)
Definition add_message_bit (c d : Z) : Z := reduce_once (u16 (c + 1665 * d)).
Lemma add_bits_spec curr b :
  0 <= b -> decode_decompress_add_bits curr b = zip_with add_message_bit curr (to_digits 1 (length curr) b).
Proof.
  revert b. induction curr as [|c curr IH]; intros b Hb; [done|]. cbn [decode_decompress_add_bits length to_digits zip_with].
  change (2 ^ 1) with 2. rewrite IH, Z.shiftr_div_pow2 by (try apply Z.shiftr_nonneg; lia). change (2 ^ 1) with 2. f_equal.
  unfold add_message_bit. change (Z.land b 1) with (Z.land b (Z.ones 1)). rewrite Z.land_ones by lia. change (2 ^ 1) with 2.
  assert (b mod 2 = 0 \/ b mod 2 = 1) as [-> | ->] by dlia; done.
Qed.
Lemma add_loop_spec n curr inp :
  length inp = n -> length curr = (8 * n)%nat -> bytes_ok inp ->
  decode_decompress_add_loop curr inp = zip_with add_message_bit curr (bit_unpack 1 (8 * n) inp).
Proof.
  revert curr inp. induction n as [|n IH]; intros curr inp Hl Hc Hok.
  - destruct inp; [|done]. by destruct curr.
  - destruct inp as [|b inp]; [done|]. rewrite (bit_unpack_group 1 8 1 ltac:(lia) ltac:(lia) eq_refl n) by (done || lia).
    apply Forall_cons in Hok as [Hb Hok]. cbn [decode_decompress_add_loop take drop]. rewrite take_0, drop_0.
    assert (length (take 8 curr) = 8%nat) as Ht by (rewrite length_take; lia). unfold is_byte in Hb.
    rewrite add_bits_spec, Ht, IH by (try done; rewrite ?length_drop; simpl in *; lia). rewrite <- (take_drop 8 curr) at 3.
    rewrite zip_with_app by (by rewrite to_digits_length). f_equal. do 2 f_equal. cbn [le_val]. lia.
Qed.
Lemma decompress_add_ok out inp :
  scalar_ok out -> bytes_ok inp -> zlen inp = 32 ->
  scalar_ok (scalar_decode_decompress_add out inp) /\
  peq (coeff (scalar_decode_decompress_add out inp)) (fun i => coeff out i + 1665 * coeff (bit_unpack 1 256 inp) i).
Proof.
  intros Ho Hok Hl. pose proof Ho as [Hlo _]. unfold scalar_decode_decompress_add.
  change (DEGREE / 8) with 32. rewrite slice_whole by done.
  rewrite (add_loop_spec 32) by (try done; unfold zlen in *; lia). change (8 * 32)%nat with 256%nat.
  assert (zlen (bit_unpack 1 256 inp) = 256) as Hlu by (unfold zlen, bit_unpack; by rewrite to_digits_length).
  apply scalar_ok_intro; [rewrite zlen_zip_with; lia|]. intros i Hi. rewrite coeff_zip_with by lia.
  assert (is_digit 1 (coeff (bit_unpack 1 256 inp) i)) as Hd.
  { pose proof (to_digits_ok 1 256 (le_val inp) ltac:(lia)) as H. rewrite coeff_Forall in H. apply H. unfold bit_unpack in Hlu. lia. }
  unfold is_digit in Hd. change (2 ^ 1) with 2 in Hd. apply add_kok; [by apply scalar_coeff|]. unfold kcoeff_ok. change ML_KEM_PRIME with 3329. lia.
Qed.

(** ** Rounding a scalar *)

Lemma scalar_compress_ok s bits :
  scalar_ok s -> 1 <= bits <= 11 -> zlen (scalar_compress s bits) = 256 /\ Forall (is_digit bits) (scalar_compress s bits).
Proof.
  intros [Hl Hs] Hb. split; [unfold scalar_compress; by rewrite zlen_fmap|]. apply Forall_fmap.
  apply (Forall_impl _ _ _ Hs). intros c Hc. exact (compress_range c bits Hc Hb).
Qed.
Lemma scalar_decompress_ok s bits :
  zlen s = 256 -> Forall (is_digit bits) s -> 1 <= bits <= 11 -> scalar_ok (scalar_decompress s bits).
Proof.
  intros Hl Hs Hb. split; [unfold scalar_decompress; by rewrite zlen_fmap|]. apply Forall_fmap.
  apply (Forall_impl _ _ _ Hs). intros c Hc. exact (decompress_kok c bits Hb Hc).
Qed.
Lemma bit_unpack_len b n inp : zlen (bit_unpack b n inp) = Z.of_nat n.
Proof. unfold zlen, bit_unpack. by rewrite to_digits_length. Qed.
Lemma bit_unpack_digits b n inp : 0 <= b -> Forall (is_digit b) (bit_unpack b n inp).
Proof. apply to_digits_ok. Qed.
Lemma scalar_digits s : scalar_ok s -> Forall (is_digit 12) s.
Proof.
  intros [_ Hs]. apply (Forall_impl _ _ _ Hs). unfold kcoeff_ok, is_digit. change ML_KEM_PRIME with 3329. change (2 ^ 12) with 4096. lia.
Qed.
Lemma scalar_decode_12_Some inp s :
  zlen inp = 384 -> bytes_ok inp -> scalar_decode_12 inp = Some s -> scalar_ok s /\ bit_pack 12 s = inp.
Proof.
  intros Hl Hok. rewrite scalar_decode_12_spec by done. destruct (all_reduced _) eqn:E; [|done]. intros [= <-].
  pose proof (bit_unpack_len 12 256 inp) as Hn. split.
  - split; [done|]. apply all_reduced_ok; [done|]. by apply bit_unpack_digits.
  - apply bit_pack_unpack; [done|done|]. rewrite Hl. done.
Qed.
Lemma all_reduced_intro s : Forall kcoeff_ok s -> all_reduced s = true.
Proof.
  intros H. apply forallb_forall. intros x Hx. apply list_elem_of_In in Hx. rewrite Forall_forall in H.
  specialize (H x Hx). unfold kcoeff_ok in H. lia.
Qed.
Lemma decode_12_encode s : scalar_ok s -> scalar_decode_12 (bit_pack 12 s) = Some s.
Proof.
  intros Hs. pose proof Hs as [Hl Hc]. pose proof (scalar_digits s Hs) as Hd.
  assert (bit_unpack 12 256 (bit_pack 12 s) = s) as Hu.
  { replace 256%nat with (length s) by (unfold zlen in Hl; lia). apply bit_unpack_pack; [lia| |done]. rewrite Hl. done. }
  rewrite scalar_decode_12_spec, Hu, (all_reduced_intro s Hc); [done| |apply bit_pack_ok]. rewrite bit_pack_length, Hl. done.
Qed.
(** The ciphertext codec: rounding, packing, unpacking and scaling back. *)
Lemma encode_decode_compressed s bits :
  scalar_ok s -> 2 <= bits <= 11 ->
  scalar_decode (scalar_encode (scalar_compress s bits) bits) bits = scalar_compress s bits.
Proof.
  intros Hs Hb. destruct (scalar_compress_ok s bits Hs) as [Hl Hd]; [lia|].
  rewrite scalar_encode_spec by (done || lia). rewrite scalar_decode_spec; [|lia|apply bit_pack_ok|].
  - replace 256%nat with (length (scalar_compress s bits)) by (unfold zlen in Hl; lia). apply bit_unpack_pack; [lia| |done].
    rewrite Hl. dlia.
  - rewrite bit_pack_length, Hl. dlia.
Qed.

(** C38: the encoders and decoders are ByteEncode and ByteDecode of FIPS 203.
    Encoding a scalar of [bits]-bit values through the 64-bit accumulator, and the
    one-bit encoder, pack the values as base [2^bits] digits into [32 * bits] bytes;
    the accumulator decoder, for any width of 2 to 12 bits, returns exactly these
    digits, so that it inverts the encoder; the 12-bit decoder returns the digits
    when all of them are below [q] and refuses the input otherwise, so that it
    accepts exactly the encodings of reduced scalars. *)
Theorem ml_kem_codecs_are_bit_packing s inp bits :
  2 <= bits <= 12 -> zlen s = 256 -> Forall (is_digit bits) s -> bytes_ok inp -> zlen inp = 32 * bits ->
  scalar_encode s bits = bit_pack bits s /\ zlen (scalar_encode s bits) = 32 * bits /\
  scalar_decode inp bits = bit_unpack bits 256 inp /\ scalar_decode (scalar_encode s bits) bits = s /\
  scalar_encode (scalar_decode inp bits) bits = inp /\
  (Forall (is_digit 1) s -> scalar_encode_1 s = bit_pack 1 s) /\
  (bits = 12 -> forall t, scalar_decode_12 inp = Some t <-> scalar_ok t /\ scalar_encode t 12 = inp).
Proof.
  intros Hb Hl Hd Hok Hi. assert (zlen (bit_pack bits s) = 32 * bits) as Hp by (rewrite bit_pack_length, Hl; dlia).
  assert (bit_unpack bits 256 (bit_pack bits s) = s) as Hu.
  { replace 256%nat with (length s) by (unfold zlen in Hl; lia). apply bit_unpack_pack; [lia| |done]. rewrite Hl. dlia. }
  split_and!.
  - apply scalar_encode_spec; [lia|done|done].
  - rewrite scalar_encode_spec; [done|lia|done|done].
  - apply scalar_decode_spec; [lia|done|done].
  - rewrite scalar_encode_spec, scalar_decode_spec; [done|lia|apply bit_pack_ok|done|lia|done|done].
  - rewrite scalar_decode_spec, scalar_encode_spec; [|lia|apply bit_unpack_len|apply bit_unpack_digits; lia|lia|done|done].
    apply bit_pack_unpack; [lia|done|]. rewrite Hi. lia.
  - intros Hd1. by apply scalar_encode_1_spec.
  - intros -> t. split.
    + intros [Ht E]%scalar_decode_12_Some; [|done|done]. split; [done|].
      rewrite scalar_encode_spec; [done|lia|apply Ht|by apply scalar_digits].
    + intros [Ht <-]. rewrite scalar_encode_spec; [by apply decode_12_encode|lia|apply Ht|by apply scalar_digits].
Qed.
Lemma ml_kem_codecs_are_bit_packing_witness :
  scalar_decode (scalar_encode (replicate 256 1) 12) 12 = replicate 256 1 /\
  scalar_encode (scalar_decode (zeros 384) 12) 12 = zeros 384.
Proof.
  destruct (ml_kem_codecs_are_bit_packing (replicate 256 1) (zeros 384) 12) as (_ & _ & _ & H & H' & _);
    [lia|done|by apply Forall_replicate|by apply Forall_replicate|done|by split].
Defined.
