(* ===== verification/MlKemHash.v ===== *)
(** * ML-KEM: hashing and sampling

    Model of the hash functions and samplers of [crypto/ml_kem/ml_kem.c].  The digest
    context is a parameter of the model (class [KemDigest]), its documented behaviour
    the laws [KemDigestLaws].  [sample_scalar] runs until the stream has given 256
    values below [q]: its model takes [fuel], the number of blocks squeezed, and
    running out of it is the result [Spin].  Shown here: hashing in pieces is hashing
    the whole, rejection sampling returns the first values of the stream that are in
    range, and the branch-free samplers return the centered binomial values of
    FIPS 203. *)
From S2P Require Import Prelude.
From S2P Require Import ByteOrder.
From S2P Require Import ZSum.
From S2P Require Import BitPack.
From S2P Require Import Result.
From S2P Require Import ModCong.
From S2P Require Import NttPass.
From S2P Require Import MlKemField.
From S2P Require Import MlKemNtt.
From S2P Require Import MlKemCode.

Definition ML_KEM_RANDOM_BYTES : Z := 32.
Definition ML_KEM_SEED_BYTES : Z := ML_KEM_RANDOM_BYTES * 2.
Definition ML_KEM_PKHASH_BYTES : Z := 32.
Definition ML_KEM_SHARED_SECRET_BYTES : Z := 32.
Definition SHAKE128_BLOCKSIZE : Z := (1600 - 128 * 2) / 8.
Definition SCALAR_SAMPLING_BUFSIZE : Z := if SHAKE128_BLOCKSIZE mod 12 =? 0 then SHAKE128_BLOCKSIZE else 168.

(** ** The digest context *)

Inductive KEM_MD := SHAKE128 | SHAKE256 | SHA3_256 | SHA3_512.
Definition EVP_MD_xof (md : KEM_MD) : bool := match md with SHAKE128 | SHAKE256 => true | _ => false end.
(** The digest length of a function that has a fixed one. *)
Definition md_size (md : KEM_MD) : Z := match md with SHA3_512 => 64 | _ => 32 end.

Class KemDigest := {
  EVP_MD_CTX : Type;
  EVP_MD_CTX_new : option EVP_MD_CTX;
  (** resets the context for [md] *)
  EVP_DigestInit_ex : KEM_MD -> option EVP_MD_CTX;
  EVP_MD_CTX_get0_md : EVP_MD_CTX -> KEM_MD;
  EVP_DigestUpdate : EVP_MD_CTX -> list Z -> option EVP_MD_CTX;
  (** the digest; its length is what is stored in [*size] *)
  EVP_DigestFinal_ex : EVP_MD_CTX -> option (list Z);
  EVP_DigestFinalXOF : EVP_MD_CTX -> Z -> option (list Z);
  EVP_DigestSqueeze : EVP_MD_CTX -> Z -> option (list Z * EVP_MD_CTX) }.

Class KemDigestLaws `{KemDigest} : Prop := {
  kem_new_ok : is_Some EVP_MD_CTX_new;
  kem_init_ok md : exists c, EVP_DigestInit_ex md = Some c /\ EVP_MD_CTX_get0_md c = md;
  kem_update_ok c m : exists c', EVP_DigestUpdate c m = Some c' /\ EVP_MD_CTX_get0_md c' = EVP_MD_CTX_get0_md c;
  (** successive updates hash the concatenation *)
  kem_update_app c m m' : EVP_DigestUpdate c (m ++ m') = (c' ← EVP_DigestUpdate c m; EVP_DigestUpdate c' m');
  kem_final_ok c : EVP_MD_xof (EVP_MD_CTX_get0_md c) = false ->
    exists b, EVP_DigestFinal_ex c = Some b /\ zlen b = md_size (EVP_MD_CTX_get0_md c) /\ bytes_ok b;
  kem_final_xof_ok c n : 0 < n -> EVP_MD_xof (EVP_MD_CTX_get0_md c) = true ->
    exists b, EVP_DigestFinalXOF c n = Some b /\ zlen b = n /\ bytes_ok b;
  kem_squeeze_ok c n : 0 < n -> EVP_MD_xof (EVP_MD_CTX_get0_md c) = true ->
    exists b c', EVP_DigestSqueeze c n = Some (b, c') /\ EVP_MD_CTX_get0_md c' = EVP_MD_CTX_get0_md c /\
      zlen b = n /\ bytes_ok b }.

Section Hash.
Context `{KD : KemDigest}.

Definition single_keccak (outlen : Z) (inp : list Z) (mdctx : EVP_MD_CTX) : option (list Z) :=
  mdctx ← EVP_DigestUpdate mdctx inp;
  if EVP_MD_xof (EVP_MD_CTX_get0_md mdctx) then EVP_DigestFinalXOF mdctx outlen
  else
    out ← EVP_DigestFinal_ex mdctx;
    if zlen out =? outlen then Some out else None.

Definition prf (len : Z) (inp : list Z) : option (list Z) :=
  mdctx ← EVP_DigestInit_ex SHAKE256; single_keccak len (slice inp 0 (ML_KEM_RANDOM_BYTES + 1)) mdctx.
Definition hash_h (inp : list Z) : option (list Z) :=
  mdctx ← EVP_DigestInit_ex SHA3_256; single_keccak ML_KEM_PKHASH_BYTES inp mdctx.
(** [do { ... } while (t < end)] over the [rank] scalars of [t] *)
Definition hash_h_pubkey (t : list scalar) (rho : list Z) : option (list Z) :=
  mdctx ← EVP_DigestInit_ex SHA3_256;
  mdctx ← for_loop (length t) 0 (fun i mdctx =>
    EVP_DigestUpdate mdctx (scalar_encode (default [] (t !! Z.to_nat i)) 12)) mdctx;
  mdctx ← EVP_DigestUpdate mdctx (slice rho 0 ML_KEM_RANDOM_BYTES);
  pkhash ← EVP_DigestFinal_ex mdctx;
  if zlen pkhash =? ML_KEM_PKHASH_BYTES then Some pkhash else None.
Definition hash_g (inp : list Z) : option (list Z) :=
  mdctx ← EVP_DigestInit_ex SHA3_512; single_keccak ML_KEM_SEED_BYTES inp mdctx.
Definition kdf (z ctext : list Z) : option (list Z) :=
  mdctx ← EVP_DigestInit_ex SHAKE256;
  mdctx ← EVP_DigestUpdate mdctx (slice z 0 ML_KEM_RANDOM_BYTES);
  mdctx ← EVP_DigestUpdate mdctx ctext;
  EVP_DigestFinalXOF mdctx ML_KEM_SHARED_SECRET_BYTES.

(** ** Rejection sampling *)

(** The inner loop of [sample_scalar]; [out] holds the values before [curr]. *)
Fixpoint sample_block (inp : list Z) (out : list Z) : list Z :=
  match inp with
  | b1 :: b2 :: b3 :: inp' =>
    if DEGREE <=? zlen out then out
    else
      let d := u16 (Z.shiftl (Z.land b2 0x0f) 8 + b1) in
      let out := if d <? kPrime then out ++ [d] else out in
      if DEGREE <=? zlen out then out
      else
        let d := u16 (Z.shiftl b3 4 + Z.shiftr b2 4) in
        let out := if d <? kPrime then out ++ [d] else out in
        sample_block inp' out
  | _ => out
  end.
(** [do { ... } while (curr < endout)] *)
Fixpoint sample_loop (fuel : nat) (mdctx : EVP_MD_CTX) (out : list Z) : res scalar :=
  match fuel with
  | O => Spin
  | S fuel' =>
    '(buf, mdctx) ← of_option (EVP_DigestSqueeze mdctx SCALAR_SAMPLING_BUFSIZE);
    let out := sample_block buf out in
    if zlen out <? DEGREE then sample_loop fuel' mdctx out else Ret out
  end.
Definition sample_scalar `{FU : Fuel} (mdctx : EVP_MD_CTX) : res scalar := sample_loop fuel mdctx [].

(** ** Centered binomial sampling *)

Definition bit0 (b : Z) : Z := Z.land b 1.
Definition bitn (n b : Z) : Z := Z.land (Z.shiftr b n) 1.
(** [value = plus; value -= minus; mask = ...; *curr++ = value + (kPrime & mask);] *)
Definition cbd_value (plus minus : Z) : Z :=
  let value := u16 (u16 plus - minus) in
  let mask := u16 (constish_time_non_zero (Z.shiftr value 15)) in
  u16 (value + Z.land kPrime mask).

Fixpoint cbd_2_loop (r : list Z) : scalar :=
  match r with
  | b :: r' =>
    cbd_value (bit0 b + bitn 1 b) (bitn 2 b + bitn 3 b) ::
    cbd_value (bitn 4 b + bitn 5 b) (bitn 6 b + bitn 7 b) :: cbd_2_loop r'
  | [] => []
  end.
Definition cbd_2 (inp : list Z) : option scalar :=
  randbuf ← prf (4 * DEGREE / 8) inp; Some (cbd_2_loop randbuf).

Fixpoint cbd_3_loop (r : list Z) : scalar :=
  match r with
  | b1 :: b2 :: b3 :: r' =>
    cbd_value (bit0 b1 + bitn 1 b1 + bitn 2 b1) (bitn 3 b1 + bitn 4 b1 + bitn 5 b1) ::
    cbd_value (bitn 6 b1 + bitn 7 b1 + bit0 b2) (bitn 1 b2 + bitn 2 b2 + bitn 3 b2) ::
    cbd_value (bitn 4 b2 + bitn 5 b2 + bitn 6 b2) (bitn 7 b2 + bit0 b3 + bitn 1 b3) ::
    cbd_value (bitn 2 b3 + bitn 3 b3 + bitn 4 b3) (bitn 5 b3 + bitn 6 b3 + bitn 7 b3) :: cbd_3_loop r'
  | _ => []
  end.
Definition cbd_3 (inp : list Z) : option scalar :=
  randbuf ← prf (6 * DEGREE / 8) inp; Some (cbd_3_loop randbuf).

Definition CBD_FUNC : Type := list Z -> option scalar.

(** [do { input[32] = ( *counter)++; ... } while (--rank > 0)], the entries and the counter. *)
Definition gencbd_vector (cbd : CBD_FUNC) (counter : Z) (seed : list Z) (rank : Z) : option (list scalar * Z) :=
  for_loop (Z.to_nat rank) 0 (fun _ '(out, counter) =>
    s ← cbd (slice seed 0 ML_KEM_RANDOM_BYTES ++ [counter]);
    Some (out ++ [s], u8 (counter + 1))) ([], counter).
Definition gencbd_vector_ntt (cbd : CBD_FUNC) (counter : Z) (seed : list Z) (rank : Z) : option (list scalar * Z) :=
  for_loop (Z.to_nat rank) 0 (fun _ '(out, counter) =>
    s ← cbd (slice seed 0 ML_KEM_RANDOM_BYTES ++ [counter]);
    Some (out ++ [scalar_ntt s], u8 (counter + 1))) ([], counter).
End Hash.

(** ** Bits of a digest *)

Lemma bitn_spec n b : 0 <= n -> bitn n b = Z.b2z (Z.testbit b n).
Proof.
  intros Hn. unfold bitn. change 1 with (Z.ones 1). rewrite Z.land_ones by lia. change (2 ^ 1) with 2.
  by rewrite <- Z.bit0_mod, Z.shiftr_spec, Z.add_0_l by lia.
Qed.
Lemma bit0_spec b : bit0 b = Z.b2z (Z.testbit b 0).
Proof. unfold bit0. by rewrite <- (bitn_spec 0 b), <- (Z.shiftr_0_r b) at 1. Qed.

Lemma byte_high_bit b n : is_byte b -> 8 <= n -> Z.testbit b n = false.
Proof. intros Hb Hn. by apply (testbit_out 8). Qed.
Lemma le_val_testbit l n :
  bytes_ok l -> 0 <= n -> Z.testbit (le_val l) n = Z.testbit (byte_at l (n / 8)) (n mod 8).
Proof.
  intros Hok. revert n. induction Hok as [|b l Hb Hok IH]; intros n Hn.
  - unfold byte_at. cbn [le_val]. rewrite lookup_nil. cbn [default]. by rewrite !Z.bits_0.
  - cbn [le_val]. rewrite Z.mul_comm. change 256 with (2 ^ 8). rewrite <- lor_shiftl_add by (done || lia). rewrite Z.lor_spec.
    destruct (Z.lt_ge_cases n 8) as [H8|H8].
    + rewrite Z.shiftl_spec_low, orb_false_r by lia. rewrite Z.div_small, Z.mod_small by lia. done.
    + rewrite Z.shiftl_spec, byte_high_bit, IH by (done || lia). cbn [orb]. f_equal; [|dlia].
      unfold byte_at. replace (Z.to_nat (n / 8)) with (S (Z.to_nat ((n - 8) / 8))) by dlia. done.
Qed.
Lemma digit_testbit b n v k j :
  0 <= b -> 0 <= k < Z.of_nat n -> 0 <= j < b -> Z.testbit (coeff (to_digits b n v) k) j = Z.testbit v (b * k + j).
Proof.
  intros Hb. revert v k. induction n as [|n IH]; intros v k Hk Hj; [lia|]. cbn [to_digits].
  destruct (Z.eq_dec k 0) as [->|Hk0].
  - change (Z.testbit (v mod 2 ^ b) j = Z.testbit v (b * 0 + j)). rewrite Z.mod_pow2_bits_low by lia. f_equal. lia.
  - replace k with (k - 1 + 1) at 1 by lia. rewrite coeff_cons. destruct (Z.leb_spec 0 (k - 1)); [|lia].
    rewrite IH by lia. rewrite Z.div_pow2_bits by nia. f_equal. lia.
Qed.

(** ** Centered binomial values

    Algorithm 8 of FIPS 203: the number of ones among [eta] bits minus the number of
    ones among the next [eta] bits, for every [2 * eta] bits of the input. *)
Definition ones (n : nat) (v : Z) : Z := zsum (fun j => Z.b2z (Z.testbit v j)) n.
Definition cbd_diff (eta : nat) (d : Z) : Z := ones eta d - ones eta (Z.shiftr d (Z.of_nat eta)).
Definition SamplePolyCBD (eta : nat) (bytes : list Z) : list Z :=
  (fun d => cbd_diff eta d mod ML_KEM_PRIME) <$> bit_unpack (2 * Z.of_nat eta) 256 bytes.

Lemma cbd_value_spec plus minus : 0 <= plus <= 3 -> 0 <= minus <= 3 -> cbd_value plus minus = (plus - minus) mod ML_KEM_PRIME.
Proof.
  intros Hp Hm. assert (plus = 0 \/ plus = 1 \/ plus = 2 \/ plus = 3) as [-> | [-> | [-> | ->]]] by lia;
    assert (minus = 0 \/ minus = 1 \/ minus = 2 \/ minus = 3) as [-> | [-> | [-> | ->]]] by lia; reflexivity.
Qed.
(** The [k]-th group of bits of [v]. *)
Lemma cbd_digit eta n v k :
  0 <= k < Z.of_nat n ->
  cbd_diff eta (coeff (to_digits (2 * Z.of_nat eta) n v) k) =
  zsum (fun j => Z.b2z (Z.testbit v (2 * Z.of_nat eta * k + j))) eta -
  zsum (fun j => Z.b2z (Z.testbit v (2 * Z.of_nat eta * k + Z.of_nat eta + j))) eta.
Proof.
  intros Hk. unfold cbd_diff, ones. f_equal; apply zsum_ext; intros j Hj.
  - by rewrite digit_testbit by lia.
  - rewrite Z.shiftr_spec by lia. rewrite digit_testbit by lia. do 2 f_equal. lia.
Qed.
Lemma b2z_range b : 0 <= Z.b2z b <= 1.
Proof. destruct b; simpl; lia. Qed.

Ltac cbd_bits := repeat match goal with |- context [Z.b2z ?b] => pose proof (b2z_range b); generalize dependent (Z.b2z b); intros end.
Lemma cbd_2_byte b :
  is_byte b ->
  [cbd_value (bit0 b + bitn 1 b) (bitn 2 b + bitn 3 b); cbd_value (bitn 4 b + bitn 5 b) (bitn 6 b + bitn 7 b)] =
  (fun d => cbd_diff 2 d mod ML_KEM_PRIME) <$> to_digits 4 2 (le_val [b]).
Proof.
  intros Hb. pose proof (le_val_testbit [b]) as Ht. assert (bytes_ok [b]) as Hok by (by constructor).
  assert (forall v, to_digits 4 2 v = [coeff (to_digits 4 2 v) 0; coeff (to_digits 4 2 v) 1]) as E by done.
  rewrite E. cbn [fmap list_fmap]. change 4 with (2 * Z.of_nat 2). rewrite !cbd_digit by lia. cbn [zsum].
  change (Z.of_nat 0) with 0. change (Z.of_nat 1) with 1. change (Z.of_nat 2) with 2. cbn [Z.mul Z.add Pos.mul Pos.add Pos.succ].
  rewrite !Ht by (done || lia). rewrite !bitn_spec, bit0_spec by lia.
  repeat match goal with |- context [byte_at [b] (?x / 8)] => change (byte_at [b] (x / 8)) with b end.
  repeat match goal with |- context [?x mod 8] => let y := eval vm_compute in (x mod 8) in change (x mod 8) with y end.
  rewrite !cbd_value_spec by (cbd_bits; lia). done.
Qed.
Lemma cbd_3_bytes b1 b2 b3 :
  is_byte b1 -> is_byte b2 -> is_byte b3 ->
  [cbd_value (bit0 b1 + bitn 1 b1 + bitn 2 b1) (bitn 3 b1 + bitn 4 b1 + bitn 5 b1);
   cbd_value (bitn 6 b1 + bitn 7 b1 + bit0 b2) (bitn 1 b2 + bitn 2 b2 + bitn 3 b2);
   cbd_value (bitn 4 b2 + bitn 5 b2 + bitn 6 b2) (bitn 7 b2 + bit0 b3 + bitn 1 b3);
   cbd_value (bitn 2 b3 + bitn 3 b3 + bitn 4 b3) (bitn 5 b3 + bitn 6 b3 + bitn 7 b3)] =
  (fun d => cbd_diff 3 d mod ML_KEM_PRIME) <$> to_digits 6 4 (le_val [b1; b2; b3]).
Proof.
  intros H1 H2 H3. pose proof (le_val_testbit [b1; b2; b3]) as Ht. assert (bytes_ok [b1; b2; b3]) as Hok by (by do 3 (constructor; [done|])).
  assert (forall v, to_digits 6 4 v = [coeff (to_digits 6 4 v) 0; coeff (to_digits 6 4 v) 1; coeff (to_digits 6 4 v) 2; coeff (to_digits 6 4 v) 3]) as E by done.
  rewrite E. cbn [fmap list_fmap]. change 6 with (2 * Z.of_nat 3). rewrite !cbd_digit by lia. cbn [zsum].
  change (Z.of_nat 0) with 0. change (Z.of_nat 1) with 1. change (Z.of_nat 2) with 2. change (Z.of_nat 3) with 3. cbn [Z.mul Z.add Pos.mul Pos.add Pos.succ].
  rewrite !Ht by (done || lia). rewrite !bitn_spec, !bit0_spec by lia.
  repeat match goal with |- context [byte_at ?l (?x / 8)] => let y := eval vm_compute in (x / 8) in change (x / 8) with y end.
  repeat match goal with |- context [?x mod 8] => let y := eval vm_compute in (x mod 8) in change (x mod 8) with y end.
  change (byte_at [b1; b2; b3] 0) with b1. change (byte_at [b1; b2; b3] 1) with b2. change (byte_at [b1; b2; b3] 2) with b3.
  rewrite !cbd_value_spec by (cbd_bits; lia). done.
Qed.
Lemma cbd_2_loop_spec n r :
  length r = n -> bytes_ok r -> cbd_2_loop r = (fun d => cbd_diff 2 d mod ML_KEM_PRIME) <$> bit_unpack 4 (2 * n) r.
Proof.
  revert r. induction n as [|n IH]; intros r Hl Hok; destruct r as [|b r]; try done.
  rewrite (bit_unpack_group 4 2 1 ltac:(lia) ltac:(lia) eq_refl n) by (done || simpl in *; lia).
  apply Forall_cons in Hok as [Hb Hok]. cbn [take drop cbd_2_loop]. rewrite take_0, drop_0, fmap_app, <- cbd_2_byte by done.
  rewrite IH by (done || simpl in *; lia). done.
Qed.
Lemma cbd_3_loop_spec n r :
  length r = (3 * n)%nat -> bytes_ok r -> cbd_3_loop r = (fun d => cbd_diff 3 d mod ML_KEM_PRIME) <$> bit_unpack 6 (4 * n) r.
Proof.
  revert r. induction n as [|n IH]; intros r Hl Hok; [by destruct r|].
  destruct r as [|b1 [|b2 [|b3 r]]]; cbn [length] in Hl; [lia|lia|lia|].
  rewrite (bit_unpack_group 6 4 3 ltac:(lia) ltac:(lia) eq_refl n) by (done || simpl; lia).
  apply Forall_cons in Hok as [H1 Hok]. apply Forall_cons in Hok as [H2 Hok]. apply Forall_cons in Hok as [H3 Hok].
  cbn [take drop cbd_3_loop]. rewrite take_0, drop_0, fmap_app, <- cbd_3_bytes by done. rewrite IH by (done || lia). done.
Qed.

Lemma ones_range n v : 0 <= ones n v <= Z.of_nat n.
Proof.
  unfold ones. induction n as [|n IH]; cbn [zsum]; [lia|]. pose proof (b2z_range (Z.testbit v (Z.of_nat n))). lia.
Qed.
(** The values are reduced and centered ones are at most [eta]. *)
Lemma SamplePolyCBD_ok eta bytes :
  Z.of_nat eta <= kHalfPrime ->
  scalar_ok (SamplePolyCBD eta bytes) /\
  forall i, 0 <= i < 256 -> Z.abs (kcentered (coeff (SamplePolyCBD eta bytes) i)) <= Z.of_nat eta.
Proof.
  intros He. assert (zlen (SamplePolyCBD eta bytes) = 256) as Hl by (unfold SamplePolyCBD; by rewrite zlen_fmap, bit_unpack_len).
  split; [split; [done|]; apply Forall_fmap, Forall_forall; intros d _; apply kcoeff_mod|].
  intros i Hi. unfold SamplePolyCBD. rewrite coeff_map by (rewrite bit_unpack_len; lia). set (d := coeff _ i).
  pose proof (ones_range eta d). pose proof (ones_range eta (Z.shiftr d (Z.of_nat eta))).
  rewrite (kcentered_unique _ (cbd_diff eta d)); [unfold cbd_diff; lia|unfold cbd_diff; lia|by rewrite cong_mod].
Qed.

(** ** Hashing under the laws *)

Section Laws.
Context `{KL : KemDigestLaws}.

Lemma single_keccak_ok md ctx n inp :
  EVP_DigestInit_ex md = Some ctx -> EVP_MD_CTX_get0_md ctx = md -> 0 < n -> (EVP_MD_xof md = false -> n = md_size md) ->
  exists b, single_keccak n inp ctx = Some b /\ zlen b = n /\ bytes_ok b.
Proof.
  intros _ Hmd Hn Hs. unfold single_keccak. destruct (kem_update_ok ctx inp) as (ctx' & -> & Hmd'). cbn [mbind option_bind].
  rewrite Hmd', Hmd. destruct (EVP_MD_xof md) eqn:E.
  - apply kem_final_xof_ok; [done|]. by rewrite Hmd', Hmd.
  - destruct (kem_final_ok ctx') as (b & -> & Hb & Hok); [by rewrite Hmd', Hmd|]. cbn [mbind option_bind].
    rewrite Hmd', Hmd, <- Hs in Hb by done. exists b. by rewrite Hb, Z.eqb_refl.
Qed.
Lemma prf_ok len inp : 0 < len -> exists b, prf len inp = Some b /\ zlen b = len /\ bytes_ok b.
Proof.
  intros Hl. unfold prf. destruct (kem_init_ok SHAKE256) as (c & E & Hc). rewrite E. by apply (single_keccak_ok SHAKE256).
Qed.
Lemma hash_h_ok inp : exists b, hash_h inp = Some b /\ zlen b = 32 /\ bytes_ok b.
Proof. unfold hash_h. destruct (kem_init_ok SHA3_256) as (c & E & Hc). rewrite E. by apply (single_keccak_ok SHA3_256). Qed.
Lemma hash_g_ok inp : exists b, hash_g inp = Some b /\ zlen b = 64 /\ bytes_ok b.
Proof. unfold hash_g. destruct (kem_init_ok SHA3_512) as (c & E & Hc). rewrite E. by apply (single_keccak_ok SHA3_512). Qed.
Lemma kdf_ok z ctext : exists b, kdf z ctext = Some b /\ zlen b = 32 /\ bytes_ok b.
Proof.
  unfold kdf. destruct (kem_init_ok SHAKE256) as (c & -> & Hc). cbn [mbind option_bind].
  destruct (kem_update_ok c (slice z 0 ML_KEM_RANDOM_BYTES)) as (c1 & -> & H1). cbn [mbind option_bind].
  destruct (kem_update_ok c1 ctext) as (c2 & -> & H2). cbn [mbind option_bind]. apply kem_final_xof_ok; [done|]. by rewrite H2, H1, Hc.
Qed.

(** The updates of a loop, one after the other. *)
Lemma updates_concat (f : scalar -> list Z) t0 t1 c :
  for_loop (length t1) (zlen t0) (fun i c => EVP_DigestUpdate c (f (default [] ((t0 ++ t1) !! Z.to_nat i)))) c =
  match t1 with [] => Some c | _ => EVP_DigestUpdate c (mjoin (f <$> t1)) end.
Proof.
  revert t0 c. induction t1 as [|s t1 IH]; intros t0 c; [done|]. cbn [length for_loop fmap list_fmap mjoin list_join].
  rewrite zlen_to_nat, lookup_app_r, Nat.sub_diag by lia. cbn [lookup list_lookup default]. unfold id.
  replace (t0 ++ s :: t1) with ((t0 ++ [s]) ++ t1) by (by rewrite <- app_assoc).
  replace (zlen t0 + 1) with (zlen (t0 ++ [s])) by (rewrite zlen_app; done).
  destruct t1 as [|s' t1].
  - cbn [length for_loop fmap list_fmap mjoin list_join]. rewrite (app_nil_r (f s)). by destruct (EVP_DigestUpdate c (f s)).
  - rewrite kem_update_app. destruct (EVP_DigestUpdate c (f s)) as [c'|]; [|done]. cbn [mbind option_bind]. apply IH.
Qed.
(** The incremental hash of the public key is that of its encoding. *)
Lemma hash_h_pubkey_eq t rho :
  t <> [] -> zlen rho = ML_KEM_RANDOM_BYTES ->
  hash_h_pubkey t rho = hash_h (mjoin ((fun s => scalar_encode s 12) <$> t) ++ rho).
Proof.
  intros Ht Hr. unfold hash_h_pubkey, hash_h, single_keccak. destruct (kem_init_ok SHA3_256) as (c & -> & Hc). cbn [mbind option_bind].
  pose proof (updates_concat (fun s => scalar_encode s 12) [] t c) as Hu. cbn [app] in Hu. change (zlen []) with 0 in Hu.
  rewrite Hu, slice_whole by done. destruct t as [|s t]; [done|]. rewrite kem_update_app.
  destruct (kem_update_ok c (mjoin ((fun s => scalar_encode s 12) <$> s :: t))) as (c1 & -> & H1). cbn [mbind option_bind].
  destruct (kem_update_ok c1 rho) as (c2 & -> & H2). cbn [mbind option_bind]. by rewrite H2, H1, Hc.
Qed.

Lemma cbd_2_ok inp : exists b, prf 128 inp = Some b /\ cbd_2 inp = Some (SamplePolyCBD 2 b) /\ zlen b = 128 /\ bytes_ok b.
Proof.
  unfold cbd_2. change (4 * DEGREE / 8) with 128. destruct (prf_ok 128 inp) as (b & E & Hl & Hok); [lia|]. exists b.
  rewrite E. cbn [mbind option_bind]. split_and!; [done| |done|done]. by rewrite (cbd_2_loop_spec 128) by (try done; unfold zlen in Hl; lia).
Qed.
Lemma cbd_3_ok inp : exists b, prf 192 inp = Some b /\ cbd_3 inp = Some (SamplePolyCBD 3 b) /\ zlen b = 192 /\ bytes_ok b.
Proof.
  unfold cbd_3. change (6 * DEGREE / 8) with 192. destruct (prf_ok 192 inp) as (b & E & Hl & Hok); [lia|]. exists b.
  rewrite E. cbn [mbind option_bind]. split_and!; [done| |done|done]. by rewrite (cbd_3_loop_spec 64) by (try done; unfold zlen in Hl; lia).
Qed.
End Laws.

(** ** Rejection sampling

    Algorithm 7 of FIPS 203: the 12-bit fields of the stream that are below [q]. *)
Definition in_range (n : nat) (bytes : list Z) : list Z := filter (fun d => d < ML_KEM_PRIME) (bit_unpack 12 (2 * n) bytes).

Lemma in_range_triple n b1 b2 b3 inp :
  length inp = (3 * n)%nat -> bytes_ok (b1 :: b2 :: b3 :: inp) ->
  in_range (S n) (b1 :: b2 :: b3 :: inp) =
  filter (fun d => d < ML_KEM_PRIME) [u16 (Z.shiftl (Z.land b2 0x0f) 8 + b1); u16 (Z.shiftl b3 4 + Z.shiftr b2 4)] ++ in_range n inp.
Proof.
  intros Hl Hok. unfold in_range. rewrite (bit_unpack_group 12 2 3 ltac:(lia) ltac:(lia) eq_refl n) by (done || simpl; lia).
  apply Forall_cons in Hok as [H1 Hok]. apply Forall_cons in Hok as [H2 Hok]. apply Forall_cons in Hok as [H3 Hok].
  cbn [take drop]. rewrite take_0, drop_0, decode_12_pair, filter_app by done. f_equal. unfold is_byte in *. f_equal.
  assert (0 <= Z.shiftr b2 4 < 2 ^ 4) as Hr by (rewrite Z.shiftr_div_pow2 by lia; change (2 ^ 4) with 16; dlia).
  rewrite !lor_shiftl_add by (done || lia). rewrite !Z.shiftl_mul_pow2 by lia.
  by rewrite (Z.add_comm b1), (Z.add_comm (Z.shiftr b2 4)).
Qed.
Lemma in_range_app n m a b :
  length a = (3 * n)%nat -> length b = (3 * m)%nat -> bytes_ok a -> bytes_ok b ->
  in_range (n + m) (a ++ b) = in_range n a ++ in_range m b.
Proof.
  revert a. induction n as [|n IH]; intros a Ha Hb Hoa Hob; [by destruct a|].
  destruct a as [|b1 [|b2 [|b3 a]]]; cbn [length] in Ha; [lia|lia|lia|]. cbn [app Nat.add].
  rewrite !in_range_triple; [|lia|done|rewrite length_app; lia|by apply (Forall_app_2 is_byte (b1 :: b2 :: b3 :: a))].
  rewrite IH by (done || lia || (by do 3 apply Forall_cons_1 in Hoa as [_ Hoa])). by rewrite app_assoc.
Qed.

Lemma take_full {A} n (l k : list A) : length l = n -> take n (l ++ k) = l.
Proof. intros <-. apply take_app_length. Qed.
Lemma sample_block_spec n inp out :
  length inp = (3 * n)%nat -> bytes_ok inp -> zlen out <= 256 ->
  sample_block inp out = take 256 (out ++ in_range n inp).
Proof.
  revert inp out. induction n as [|n IH]; intros inp out Hl Hok Ho.
  - destruct inp; [|done]. cbn [sample_block]. unfold in_range. cbn [bit_unpack]. rewrite app_nil_r, take_ge; [done|unfold zlen in Ho; lia].
  - destruct inp as [|b1 [|b2 [|b3 inp]]]; cbn [length] in Hl; [lia|lia|lia|]. rewrite in_range_triple by (done || lia).
    cbn [sample_block]. change kPrime with ML_KEM_PRIME. change DEGREE with 256.
    destruct (Z.leb_spec 256 (zlen out)) as [H|H]; [rewrite take_full; [done|unfold zlen in *; lia]|].
    set (d1 := u16 (_ + b1)). set (d2 := u16 (_ + Z.shiftr b2 4)). rewrite !filter_cons, filter_nil.
    assert (bytes_ok inp) as Hoi by (do 3 apply Forall_cons_1 in Hok as [_ Hok]; done).
    assert (forall x, zlen (out ++ [x]) <= 256) as Ho1 by (intros; rewrite zlen_app; change (zlen [x]) with 1; lia).
    destruct (Z.ltb_spec d1 ML_KEM_PRIME), (decide (d1 < ML_KEM_PRIME)); try lia;
      destruct (Z.ltb_spec d2 ML_KEM_PRIME), (decide (d2 < ML_KEM_PRIME)); try lia.
    all: repeat match goal with |- context [256 <=? ?x] => destruct (Z.leb_spec 256 x) end; try lia.
    all: try (rewrite IH by (done || lia || (rewrite zlen_app; change (zlen [d2]) with 1; lia)); cbn [app]; by rewrite <- ?app_assoc).
    all: cbn [app]; match goal with |- _ = take 256 (?o ++ ?d :: ?x) => change (d :: x) with ([d] ++ x); rewrite (app_assoc o [d] x) end;
      rewrite take_full; [done|specialize (Ho1 d1); unfold zlen in *; lia].
Qed.

Section Sampling.
Context `{KL : KemDigestLaws}.

(** The first [n] blocks of the stream. *)
Fixpoint kem_stream (n : nat) (ctx : EVP_MD_CTX) : list Z :=
  match n with
  | O => []
  | S n' => match EVP_DigestSqueeze ctx SCALAR_SAMPLING_BUFSIZE with Some (b, ctx') => b ++ kem_stream n' ctx' | None => [] end
  end.
(** The 256 first values in range of these blocks, when there are as many. *)
Definition SampleNTT (n : nat) (ctx : EVP_MD_CTX) : res scalar :=
  let vs := take 256 (in_range (56 * n) (kem_stream n ctx)) in if zlen vs =? 256 then Ret vs else Spin.

Lemma kem_stream_ok n ctx :
  EVP_MD_xof (EVP_MD_CTX_get0_md ctx) = true -> length (kem_stream n ctx) = (168 * n)%nat /\ bytes_ok (kem_stream n ctx).
Proof.
  revert ctx. induction n as [|n IH]; intros ctx Hx; [split; [done|constructor]|]. cbn [kem_stream].
  destruct (kem_squeeze_ok ctx SCALAR_SAMPLING_BUFSIZE) as (b & c & -> & Hc & Hl & Hok); [by compute|done|].
  rewrite <- Hc in Hx. destruct (IH c Hx) as [Hl' Hok']. change SCALAR_SAMPLING_BUFSIZE with 168 in Hl.
  rewrite length_app. split; [unfold zlen in Hl; lia|]. by apply Forall_app_2.
Qed.
Lemma sample_loop_spec n ctx out :
  EVP_MD_xof (EVP_MD_CTX_get0_md ctx) = true -> zlen out < 256 ->
  sample_loop n ctx out =
  let vs := take 256 (out ++ in_range (56 * n) (kem_stream n ctx)) in if zlen vs =? 256 then Ret vs else Spin.
Proof.
  cbv zeta. revert ctx out. induction n as [|n IH]; intros ctx out Hx Ho.
  - cbn [sample_loop kem_stream]. unfold in_range. cbn [bit_unpack Nat.mul]. rewrite app_nil_r, take_ge by (unfold zlen in Ho; lia).
    destruct (Z.eqb_spec (zlen out) 256); [lia|done].
  - cbn [sample_loop kem_stream]. destruct (kem_squeeze_ok ctx SCALAR_SAMPLING_BUFSIZE) as (b & c & -> & Hc & Hl & Hok); [by compute|done|].
    cbn [of_option mbind res_bind]. rewrite <- Hc in Hx. destruct (kem_stream_ok n c Hx) as [Hls Hoks].
    change SCALAR_SAMPLING_BUFSIZE with 168 in Hl. replace (56 * S n)%nat with (56 + 56 * n)%nat by lia.
    rewrite in_range_app by (done || unfold zlen in Hl; lia). rewrite (sample_block_spec 56) by (done || unfold zlen in *; lia).
    rewrite app_assoc. set (o := out ++ in_range 56 b). change DEGREE with 256.
    destruct (Z.ltb_spec (zlen (take 256 o)) 256) as [Hz|Hz].
    + assert (length o < 256)%nat by (unfold zlen in Hz; rewrite length_take in Hz; lia). rewrite take_ge in * by lia. by apply IH.
    + assert (256 <= length o)%nat by (unfold zlen in Hz; rewrite length_take in Hz; lia). rewrite take_app_le by lia.
      destruct (Z.eqb_spec (zlen (take 256 o)) 256) as [|E]; [done|]. unfold zlen in *. rewrite length_take in *. lia.
Qed.
Lemma sample_scalar_spec `{FU : Fuel} ctx :
  EVP_MD_xof (EVP_MD_CTX_get0_md ctx) = true -> sample_scalar ctx = SampleNTT fuel ctx.
Proof. intros Hx. unfold sample_scalar. by rewrite sample_loop_spec. Qed.
Lemma SampleNTT_ok n ctx s :
  EVP_MD_xof (EVP_MD_CTX_get0_md ctx) = true -> SampleNTT n ctx = Ret s -> scalar_ok s.
Proof.
  intros Hx. unfold SampleNTT. destruct (Z.eqb_spec (zlen (take 256 (in_range (56 * n) (kem_stream n ctx)))) 256) as [Hl|]; [|done].
  intros [= <-]. split; [done|]. apply Forall_take, Forall_forall. intros d [Hd Hin]%list_elem_of_filter.
  pose proof (bit_unpack_digits 12 (2 * (56 * n)) (kem_stream n ctx) ltac:(lia)) as Hdg. rewrite Forall_forall in Hdg. specialize (Hdg d Hin).
  unfold is_digit in Hdg. unfold kcoeff_ok. lia.
Qed.
End Sampling.

(** C39: sampling is that of FIPS 203.  With the digest context fed with the matrix
    seed, the rejection loop returns the first 256 values below [q] among the 12-bit
    fields of the stream, as soon as the blocks it may squeeze hold as many, and they
    are reduced; the branch-free samplers return, from the PRF's bytes, the centered
    binomial values of Algorithm 8, at most [eta] in absolute value. *)
Theorem ml_kem_sampling_exact `{KL : KemDigestLaws} `{FU : Fuel} seed inp :
  (exists ctx, (c ← EVP_DigestInit_ex SHAKE128; EVP_DigestUpdate c seed) = Some ctx /\
    sample_scalar ctx = SampleNTT fuel ctx /\ (forall s, sample_scalar ctx = Ret s -> scalar_ok s)) /\
  (exists b, prf 128 inp = Some b /\ cbd_2 inp = Some (SamplePolyCBD 2 b) /\
    forall i, 0 <= i < 256 -> Z.abs (kcentered (coeff (SamplePolyCBD 2 b) i)) <= 2) /\
  (exists b, prf 192 inp = Some b /\ cbd_3 inp = Some (SamplePolyCBD 3 b) /\
    forall i, 0 <= i < 256 -> Z.abs (kcentered (coeff (SamplePolyCBD 3 b) i)) <= 3).
Proof.
  split_and!.
  - destruct (kem_init_ok SHAKE128) as (c & -> & Hc). cbn [mbind option_bind].
    destruct (kem_update_ok c seed) as (ctx & -> & Hx). exists ctx. rewrite Hc in Hx.
    assert (EVP_MD_xof (EVP_MD_CTX_get0_md ctx) = true) as Hxof by (by rewrite Hx). split_and!; [done|by apply sample_scalar_spec|].
    intros s. rewrite sample_scalar_spec by done. by apply SampleNTT_ok.
  - destruct (cbd_2_ok inp) as (b & Hp & Hc & _). exists b. split_and!; [done|done|]. by apply (SamplePolyCBD_ok 2).
  - destruct (cbd_3_ok inp) as (b & Hp & Hc & _). exists b. split_and!; [done|done|]. by apply (SamplePolyCBD_ok 3).
Qed.

(** A digest whose output is all zeros. *)
Definition flat_digest : KemDigest := {|
  EVP_MD_CTX := KEM_MD; EVP_MD_CTX_new := Some SHAKE128; EVP_DigestInit_ex md := Some md; EVP_MD_CTX_get0_md c := c;
  EVP_DigestUpdate c m := Some c; EVP_DigestFinal_ex c := Some (zeros (md_size c));
  EVP_DigestFinalXOF c n := Some (zeros n); EVP_DigestSqueeze c n := Some (zeros n, c) |}.
Lemma flat_digest_laws : @KemDigestLaws flat_digest.
Proof.
  split; cbn.
  - by eexists.
  - intros md. by exists md.
  - intros c m. by exists c.
  - done.
  - intros c _. eexists. split; [done|]. split; [by destruct c|apply zeros_ok].
  - intros c n Hn _. eexists. split; [done|]. split; [apply zlen_zeros; lia|apply zeros_ok].
  - intros c n Hn _. eexists _, _. split; [done|]. split; [done|]. split; [apply zlen_zeros; lia|apply zeros_ok].
Qed.
Lemma ml_kem_sampling_exact_witness :
  @sample_scalar flat_digest 3%nat SHAKE128 = Ret (zeros 256) /\ scalar_ok (zeros 256) /\
  @cbd_2 flat_digest [] = Some (SamplePolyCBD 2 (zeros 128)).
Proof.
  assert (@sample_scalar flat_digest 3%nat SHAKE128 = Ret (zeros 256)) as E by (vm_compute; reflexivity).
  destruct (@ml_kem_sampling_exact flat_digest flat_digest_laws 3%nat [] []) as ((ctx & Hc & _ & Hok) & (b & Hb & Hcbd & _) & _).
  injection Hc as <-. injection Hb as <-. split_and!; [exact E|exact (Hok _ E)|exact Hcbd].
Defined.
