(* ===== verification/MlKemPke.v ===== *)
(** * ML-KEM: vectors and public key encryption

    Model of the vector and matrix operations and of K-PKE encryption and decryption
    ([encrypt_cpa], [decrypt_cpa]) of [crypto/ml_kem/ml_kem.c].  A vector is a list of
    [rank] scalars, the matrix a list of [rank * rank]; a loop over the entries of the
    output is [entries], its body the entry it stores.  Decryption is shown to return
    the message whenever the noise of the ciphertext is small enough to round away. *)
From S2P Require Import Prelude.
From S2P Require Import ByteOrder.
From S2P Require Import ZSum.
From S2P Require Import BitPack.
From S2P Require Import Result.
From S2P Require Import ModCong.
From S2P Require Import NttPass.
From S2P Require Import MlKemField.
From S2P Require Import MlKemNtt.
From S2P Require Import MlKemCode.
From S2P Require Import MlKemHash.

(** ** Variants *)

Definition EVP_PKEY_ML_KEM_512 : Z := 1454.
Definition ML_KEM_512_BITS : Z := 512.
Definition ML_KEM_512_RANK : Z := 2.
Definition ML_KEM_512_DU : Z := 10.
Definition ML_KEM_512_DV : Z := 4.
Definition ML_KEM_512_SECBITS : Z := 128.
Definition EVP_PKEY_ML_KEM_768 : Z := 1455.
Definition ML_KEM_768_BITS : Z := 768.
Definition ML_KEM_768_RANK : Z := 3.
Definition ML_KEM_768_DU : Z := 10.
Definition ML_KEM_768_DV : Z := 4.
Definition ML_KEM_768_SECBITS : Z := 192.
Definition EVP_PKEY_ML_KEM_1024 : Z := 1456.
Definition ML_KEM_1024_BITS : Z := 1024.
Definition ML_KEM_1024_RANK : Z := 4.
Definition ML_KEM_1024_DU : Z := 11.
Definition ML_KEM_1024_DV : Z := 5.
Definition ML_KEM_1024_SECBITS : Z := 256.

Record ML_KEM_VINFO := mkML_KEM_VINFO {
  algorithm_name : string; prvkey_bytes : Z; prvalloc : Z; pubkey_bytes : Z; puballoc : Z; ctext_bytes : Z;
  vector_bytes : Z; u_vector_bytes : Z; evp_type : Z; vi_bits : Z; vi_rank : Z; vi_du : Z; vi_dv : Z; vi_secbits : Z }.

(** The macros take the variant; here its rank and widths. *)
Definition VECTOR_BYTES (rank : Z) : Z := 3 * DEGREE / 2 * rank.
Definition PUBKEY_BYTES (rank : Z) : Z := VECTOR_BYTES rank + ML_KEM_RANDOM_BYTES.
Definition PRVKEY_BYTES (rank : Z) : Z := 2 * PUBKEY_BYTES rank + ML_KEM_PKHASH_BYTES.
Definition U_VECTOR_BYTES (du rank : Z) : Z := DEGREE / 8 * du * rank.
Definition V_SCALAR_BYTES (dv : Z) : Z := DEGREE / 8 * dv.
Definition CTEXT_BYTES (du dv rank : Z) : Z := U_VECTOR_BYTES du rank + V_SCALAR_BYTES dv.
(** [sizeof] the storage of a public key ([tbuf], [mbuf]) and of a private one ([sbuf] and [zbuf] too). *)
Definition sizeof_scalar : Z := 2 * ML_KEM_DEGREE.
Definition sizeof_pubkey_alloc (rank : Z) : Z := rank * sizeof_scalar + rank * rank * sizeof_scalar.
Definition sizeof_prvkey_alloc (rank : Z) : Z := sizeof_pubkey_alloc rank + rank * sizeof_scalar + 2 * ML_KEM_RANDOM_BYTES.

Definition vinfo_512 : ML_KEM_VINFO :=
  mkML_KEM_VINFO "ML-KEM-512" (PRVKEY_BYTES ML_KEM_512_RANK) (sizeof_prvkey_alloc ML_KEM_512_RANK)
    (PUBKEY_BYTES ML_KEM_512_RANK) (sizeof_pubkey_alloc ML_KEM_512_RANK)
    (CTEXT_BYTES ML_KEM_512_DU ML_KEM_512_DV ML_KEM_512_RANK) (VECTOR_BYTES ML_KEM_512_RANK)
    (U_VECTOR_BYTES ML_KEM_512_DU ML_KEM_512_RANK) EVP_PKEY_ML_KEM_512 ML_KEM_512_BITS ML_KEM_512_RANK ML_KEM_512_DU
    ML_KEM_512_DV ML_KEM_512_SECBITS.
Definition vinfo_768 : ML_KEM_VINFO :=
  mkML_KEM_VINFO "ML-KEM-768" (PRVKEY_BYTES ML_KEM_768_RANK) (sizeof_prvkey_alloc ML_KEM_768_RANK)
    (PUBKEY_BYTES ML_KEM_768_RANK) (sizeof_pubkey_alloc ML_KEM_768_RANK)
    (CTEXT_BYTES ML_KEM_768_DU ML_KEM_768_DV ML_KEM_768_RANK) (VECTOR_BYTES ML_KEM_768_RANK)
    (U_VECTOR_BYTES ML_KEM_768_DU ML_KEM_768_RANK) EVP_PKEY_ML_KEM_768 ML_KEM_768_BITS ML_KEM_768_RANK ML_KEM_768_DU
    ML_KEM_768_DV ML_KEM_768_SECBITS.
Definition vinfo_1024 : ML_KEM_VINFO :=
  mkML_KEM_VINFO "ML-KEM-1024" (PRVKEY_BYTES ML_KEM_1024_RANK) (sizeof_prvkey_alloc ML_KEM_1024_RANK)
    (PUBKEY_BYTES ML_KEM_1024_RANK) (sizeof_pubkey_alloc ML_KEM_1024_RANK)
    (CTEXT_BYTES ML_KEM_1024_DU ML_KEM_1024_DV ML_KEM_1024_RANK) (VECTOR_BYTES ML_KEM_1024_RANK)
    (U_VECTOR_BYTES ML_KEM_1024_DU ML_KEM_1024_RANK) EVP_PKEY_ML_KEM_1024 ML_KEM_1024_BITS ML_KEM_1024_RANK ML_KEM_1024_DU
    ML_KEM_1024_DV ML_KEM_1024_SECBITS.
Definition vinfo_map : list ML_KEM_VINFO := [vinfo_512; vinfo_768; vinfo_1024].
Definition ossl_ml_kem_get_vinfo (evp_type : Z) : option ML_KEM_VINFO :=
  if evp_type =? EVP_PKEY_ML_KEM_512 then vinfo_map !! 0%nat
  else if evp_type =? EVP_PKEY_ML_KEM_768 then vinfo_map !! 1%nat
  else if evp_type =? EVP_PKEY_ML_KEM_1024 then vinfo_map !! 2%nat
  else None.

(** ** Vectors *)

Definition entry (v : list scalar) (i : Z) : scalar := default [] (v !! Z.to_nat i).
(** The entries stored by a loop over [0 <= i < rank]. *)
Definition entries {A} (rank : Z) (f : Z -> A) : list A := f <$> seqZ 0 rank.

Definition vector_add (lhs rhs : list scalar) (rank : Z) : list scalar :=
  entries rank (fun i => scalar_add (entry lhs i) (entry rhs i)).
Definition vector_encode (a : list scalar) (bits rank : Z) : list Z :=
  mjoin (entries rank (fun i => scalar_encode (entry a i) bits)).
Definition vector_decode_decompress_ntt (inp : list Z) (bits rank : Z) : list scalar :=
  let stride := bits * DEGREE / 8 in
  entries rank (fun i => scalar_ntt (scalar_decompress (scalar_decode (slice inp (i * stride) stride) bits) bits)).
Definition vector_decode_12 (inp : list Z) (rank : Z) : option (list scalar) :=
  let stride := 3 * DEGREE / 2 in
  for_loop (Z.to_nat rank) 0 (fun i out => s ← scalar_decode_12 (slice inp (i * stride) stride); Some (out ++ [s])) [].
Definition vector_compress (a : list scalar) (bits rank : Z) : list scalar :=
  entries rank (fun i => scalar_compress (entry a i) bits).

Definition inner_product (lhs rhs : list scalar) (rank : Z) : scalar :=
  for_each (Z.to_nat (rank - 1)) 1 (fun j out => scalar_mult_add out (entry lhs j) (entry rhs j))
    (scalar_mult (entry lhs 0) (entry rhs 0)).
(** [m] moves on by one entry per product, so that row [i] starts at [i * rank]. *)
Definition matrix_mult_intt (m a : list scalar) (rank : Z) : list scalar :=
  entries rank (fun i => scalar_inverse_ntt (
    for_each (Z.to_nat (rank - 1)) 1 (fun j out => scalar_mult_add out (entry m (i * rank + j)) (entry a j))
      (scalar_mult (entry m (i * rank)) (entry a 0)))).
(** [mc] is the column [i], [mr] moves on by [rank]. *)
Definition matrix_mult_transpose_add (out m a : list scalar) (rank : Z) : list scalar :=
  entries rank (fun i =>
    for_each (Z.to_nat (rank - 1)) 1 (fun j out => scalar_mult_add out (entry m (i + j * rank)) (entry a j))
      (scalar_mult_add (entry out i) (entry m i) (entry a 0))).

Section Pke.
Context `{KD : KemDigest} `{FU : Fuel}.

Definition matrix_expand (rho : list Z) (rank : Z) : res (list scalar) :=
  res_for (Z.to_nat rank) 0 (fun i out =>
    res_for (Z.to_nat rank) 0 (fun j out =>
      mdctx ← of_option (EVP_DigestInit_ex SHAKE128);
      mdctx ← of_option (EVP_DigestUpdate mdctx (slice rho 0 ML_KEM_RANDOM_BYTES ++ [u8 i; u8 j]));
      s ← sample_scalar mdctx;
      Ret (out ++ [s])) out) [].

Definition CBD1 (evp_type : Z) : CBD_FUNC := if evp_type =? EVP_PKEY_ML_KEM_512 then cbd_3 else cbd_2.

(** [t] and [m] are those of the key. *)
Definition encrypt_cpa (vinfo : ML_KEM_VINFO) (t m : list scalar) (message r : list Z) : option (list Z) :=
  let rank := vi_rank vinfo in
  '(y, counter) ← gencbd_vector_ntt (CBD1 (evp_type vinfo)) 0 r rank;
  let v := scalar_inverse_ntt (inner_product t y rank) in
  let u := matrix_mult_intt m y rank in
  '(e1, counter) ← gencbd_vector cbd_2 counter r rank;
  let u := vector_add u e1 rank in
  let u := vector_compress u (vi_du vinfo) rank in
  e2 ← cbd_2 (slice r 0 ML_KEM_RANDOM_BYTES ++ [counter]);
  let v := scalar_add v e2 in
  let v := scalar_decode_decompress_add v message in
  let v := scalar_compress v (vi_dv vinfo) in
  (* [v] is stored at [out + u_vector_bytes], just behind [u] *)
  Some (vector_encode u (vi_du vinfo) rank ++ scalar_encode v (vi_dv vinfo)).

Definition decrypt_cpa (vinfo : ML_KEM_VINFO) (s : list scalar) (ctext : list Z) : list Z :=
  let rank := vi_rank vinfo in
  let u := vector_decode_decompress_ntt ctext (vi_du vinfo) rank in
  let v := scalar_decode (slice ctext (u_vector_bytes vinfo) (V_SCALAR_BYTES (vi_dv vinfo))) (vi_dv vinfo) in
  let v := scalar_decompress v (vi_dv vinfo) in
  let mask := scalar_inverse_ntt (inner_product s u rank) in
  let v := scalar_sub v mask in
  scalar_encode_1 (scalar_compress v 1).
End Pke.

(** ** Entries *)

Lemma entries_len {A} n (f : Z -> A) : 0 <= n -> zlen (entries n f) = n.
Proof. intros Hn. unfold entries. rewrite zlen_fmap. unfold zlen. rewrite length_seqZ. lia. Qed.
Lemma entry_entries n f i : 0 <= i < n -> entry (entries n f) i = f i.
Proof.
  intros Hi. unfold entry, entries. rewrite list_lookup_fmap, lookup_seqZ_lt by lia. cbn [fmap option_fmap option_map default].
  unfold id. f_equal. lia.
Qed.
Lemma entry_map (f : scalar -> scalar) v i : 0 <= i < zlen v -> entry (f <$> v) i = f (entry v i).
Proof.
  intros Hi. unfold entry. rewrite list_lookup_fmap. destruct (lookup_lt_is_Some_2 v (Z.to_nat i)) as [x ->]; [unfold zlen in Hi; lia|done].
Qed.
Lemma entries_entry v : entries (zlen v) (entry v) = v.
Proof.
  apply list_eq. intros i. unfold entries. rewrite list_lookup_fmap. destruct (decide (i < length v)%nat) as [Hi|Hi].
  - rewrite lookup_seqZ_lt by (unfold zlen; lia). cbn [fmap option_fmap option_map]. unfold entry.
    replace (Z.to_nat (0 + Z.of_nat i)) with i by lia. by destruct (lookup_lt_is_Some_2 v i Hi) as [x ->].
  - rewrite lookup_seqZ_ge by (unfold zlen; lia). by rewrite lookup_ge_None_2 by lia.
Qed.
Lemma entries_ext {A} n (f g : Z -> A) : (forall i, 0 <= i < n -> f i = g i) -> entries n f = entries n g.
Proof. intros H. unfold entries. apply list_fmap_ext. intros k x Hx. apply lookup_seqZ in Hx. apply H. lia. Qed.

Definition vector_ok (n : Z) (v : list scalar) : Prop := zlen v = n /\ Forall scalar_ok v.
Lemma vector_entry n v i : vector_ok n v -> 0 <= i < n -> scalar_ok (entry v i).
Proof.
  intros [Hl Hv] Hi. unfold entry. destruct (lookup_lt_is_Some_2 v (Z.to_nat i)) as [x Hx]; [unfold zlen in Hl; lia|].
  rewrite Hx. by apply (Forall_lookup_1 _ _ _ _ Hv Hx).
Qed.
Lemma entries_ok n f : 0 <= n -> (forall i, 0 <= i < n -> scalar_ok (f i)) -> vector_ok n (entries n f).
Proof.
  intros Hn H. split; [by apply entries_len|]. apply Forall_fmap, Forall_forall. intros i [k Hk]%list_elem_of_lookup. apply lookup_seqZ in Hk.
  apply H. lia.
Qed.

(** ** Sums of products *)

Lemma peq_eq f g : (forall i, f i = g i) -> peq f g.
Proof. intros H i _. by rewrite H. Qed.
Lemma pmul_zero f : peq (pmul f (fun _ => 0)) (fun _ => 0).
Proof. intros i Hi. pose proof (pmul_linear 0 0 f (fun _ => 0) (fun _ => 0) i Hi) as H. exact H. Qed.
Lemma pmul_add f g h : peq (pmul f (fun i => g i + h i)) (fun i => pmul f g i + pmul f h i).
Proof.
  intros i Hi. pose proof (pmul_linear 1 1 f g h i Hi) as H. cbv beta in H. rewrite !Z.mul_1_l in H. rewrite <- H.
  apply pmul_proper; [done| |done]. apply peq_eq. intros k. lia.
Qed.
Lemma pmul_zsum f (g : Z -> Z -> Z) n : peq (pmul f (fun x => zsum (fun j => g j x) n)) (fun x => zsum (fun j => pmul f (g j) x) n).
Proof.
  induction n as [|n IH]; [apply pmul_zero|]. cbn [zsum]. rewrite pmul_add. intros x Hx. by rewrite (IH x Hx).
Qed.
Lemma pmul_zsum_l f (g : Z -> Z -> Z) n : peq (pmul (fun x => zsum (fun j => g j x) n) f) (fun x => zsum (fun j => pmul (g j) f x) n).
Proof.
  rewrite pmul_comm, pmul_zsum. intros x Hx. apply zsum_cong. intros j _. by apply pmul_comm.
Qed.

#[local] Opaque zsum pmul.
(** The inner product of two vectors of polynomials. *)
Definition pdot (n : Z) (f g : Z -> Z -> Z) : Z -> Z := fun x => zsum (fun j => pmul (f j) (g j) x) (Z.to_nat n).

Lemma mult_add_loop n j0 (a b : Z -> scalar) (f g : Z -> Z -> Z) o h :
  reps o h -> (forall j, j0 <= j < j0 + Z.of_nat n -> reps (a j) (f j) /\ reps (b j) (g j)) ->
  reps (for_each n j0 (fun j out => scalar_mult_add out (a j) (b j)) o)
    (fun x => h x + zsum (fun j => pmul (f (j0 + j)) (g (j0 + j)) x) n).
Proof.
  revert j0 o h. induction n as [|n IH]; intros j0 o h Ho Hab; cbn [for_each].
  - eapply reps_proper; [|exact Ho]. apply peq_eq. intros x. change (zsum _ 0) with 0. lia.
  - destruct (Hab j0) as [Ha Hb]; [lia|]. eapply reps_proper; [|apply IH; [by apply reps_mult_add|]].
    + apply peq_eq. intros x. cbv beta. rewrite zsum_first. rewrite !Z.add_0_r, Z.add_assoc. f_equal. apply zsum_ext.
      intros j _. by replace (j0 + (1 + j)) with (j0 + 1 + j) by lia.
    + intros j Hj. apply Hab. lia.
Qed.
Lemma dot_loop rank (a b : Z -> scalar) (f g : Z -> Z -> Z) :
  1 <= rank -> (forall j, 0 <= j < rank -> reps (a j) (f j) /\ reps (b j) (g j)) ->
  reps (for_each (Z.to_nat (rank - 1)) 1 (fun j out => scalar_mult_add out (a j) (b j)) (scalar_mult (a 0) (b 0))) (pdot rank f g).
Proof.
  intros Hr Hab. destruct (Hab 0) as [Ha Hb]; [lia|]. eapply reps_proper; [|apply mult_add_loop; [by apply reps_mult|]].
  - apply peq_eq. intros x. unfold pdot. replace (Z.to_nat rank) with (S (Z.to_nat (rank - 1))) by lia. by rewrite zsum_first.
  - intros j Hj. apply Hab. lia.
Qed.
Lemma dot_add_loop rank (a b : Z -> scalar) (f g : Z -> Z -> Z) o h :
  1 <= rank -> reps o h -> (forall j, 0 <= j < rank -> reps (a j) (f j) /\ reps (b j) (g j)) ->
  reps (for_each (Z.to_nat (rank - 1)) 1 (fun j out => scalar_mult_add out (a j) (b j)) (scalar_mult_add o (a 0) (b 0)))
    (fun x => h x + pdot rank f g x).
Proof.
  intros Hr Ho Hab. destruct (Hab 0) as [Ha Hb]; [lia|]. eapply reps_proper; [|apply mult_add_loop; [by apply reps_mult_add|]].
  - apply peq_eq. intros x. unfold pdot. replace (Z.to_nat rank) with (S (Z.to_nat (rank - 1))) by lia. by rewrite zsum_first, Z.add_assoc.
  - intros j Hj. apply Hab. lia.
Qed.

(** The vector [v] holds the transforms of the polynomials [f]. *)
Definition vreps (n : Z) (v : list scalar) (f : Z -> Z -> Z) : Prop := zlen v = n /\ forall i, 0 <= i < n -> reps (entry v i) (f i).
Lemma vreps_ntt n v : vector_ok n v -> vreps n (scalar_ntt <$> v) (fun i => coeff (entry v i)).
Proof.
  intros Hv. pose proof Hv as [Hl _]. split; [by rewrite zlen_fmap|]. intros i Hi. rewrite entry_map by lia.
  apply reps_ntt. by apply (vector_entry n).
Qed.
Lemma vreps_of n v : vector_ok n v -> vreps n v (fun i => coeff (scalar_inverse_ntt (entry v i))).
Proof. intros Hv. split; [apply Hv|]. intros i Hi. apply reps_of. by apply (vector_entry n). Qed.
Lemma vreps_ok n v f : vreps n v f -> vector_ok n v.
Proof.
  intros [Hl H]. split; [done|]. apply Forall_lookup. intros i s Hs. destruct (H (Z.of_nat i)) as [Hok _].
  - apply lookup_lt_Some in Hs. unfold zlen in Hl. lia.
  - unfold entry in Hok. by rewrite Nat2Z.id, Hs in Hok.
Qed.
Lemma inner_product_reps n a b f g : 1 <= n -> vreps n a f -> vreps n b g -> reps (inner_product a b n) (pdot n f g).
Proof. intros Hn [_ Ha] [_ Hb]. apply (dot_loop n (entry a) (entry b)); [done|]. intros j Hj. split; auto. Qed.
(** [m] holds the matrix [F]: entry [(i, j)] at [i * n + j]. *)
Definition mreps (n : Z) (m : list scalar) (F : Z -> Z -> Z -> Z) : Prop :=
  forall i j, 0 <= i < n -> 0 <= j < n -> reps (entry m (i * n + j)) (F i j).
Lemma matrix_mult_intt_spec n m a F f :
  1 <= n -> mreps n m F -> vreps n a f ->
  zlen (matrix_mult_intt m a n) = n /\
  forall i, 0 <= i < n -> scalar_ok (entry (matrix_mult_intt m a n) i) /\ peq (coeff (entry (matrix_mult_intt m a n) i)) (pdot n (F i) f).
Proof.
  intros Hn Hm [_ Ha]. unfold matrix_mult_intt. split; [apply entries_len; lia|]. intros i Hi. rewrite entry_entries by done.
  apply reps_inverse. pose proof (dot_loop n (fun j => entry m (i * n + j)) (entry a) (F i) f Hn) as H. cbv beta in H.
  rewrite Z.add_0_r in H. apply H. intros j Hj. split; [by apply Hm|by apply Ha].
Qed.
Lemma matrix_mult_transpose_reps n o m a F f h :
  1 <= n -> vreps n o h -> mreps n m F -> vreps n a f ->
  vreps n (matrix_mult_transpose_add o m a n) (fun i x => h i x + pdot n (fun j => F j i) f x).
Proof.
  intros Hn [_ Ho] Hm [_ Ha]. unfold matrix_mult_transpose_add. split; [apply entries_len; lia|]. intros i Hi. rewrite entry_entries by done.
  pose proof (dot_add_loop n (fun j => entry m (i + j * n)) (entry a) (fun j => F j i) f (entry o i) (h i) Hn (Ho i Hi)) as H. cbv beta in H.
  rewrite Z.mul_0_l, Z.add_0_r in H. apply H. intros j Hj. rewrite Z.add_comm. split; [by apply Hm|by apply Ha].
Qed.

(** ** The equation behind decryption *)

(** With [t = e + A s] (the matrix transposed), [t . y - s . (A y)] is [e . y]. *)
Lemma lattice_cancel n (F : Z -> Z -> Z -> Z) (s e y : Z -> Z -> Z) :
  peq (fun x => pdot n (fun i x => e i x + pdot n (fun j => F j i) s x) y x - pdot n s (fun i => pdot n (F i) y) x) (pdot n e y).
Proof.
  intros x Hx. unfold pdot.
  assert (zsum (fun j => pmul (fun x => e j x + zsum (fun k => pmul (F k j) (s k) x) (Z.to_nat n)) (y j) x) (Z.to_nat n) ≡ₖ
    zsum (fun j => pmul (e j) (y j) x) (Z.to_nat n) +
    zsum (fun j => zsum (fun k => pmul (pmul (F k j) (s k)) (y j) x) (Z.to_nat n)) (Z.to_nat n)) as ->.
  { rewrite <- zsum_add. apply zsum_cong. intros j _. rewrite (pmul_comm _ (y j) x Hx), (pmul_add _ _ _ x Hx).
    rewrite (pmul_comm (y j) (e j) x Hx), (pmul_comm (y j) _ x Hx). by rewrite (pmul_zsum_l (y j) _ _ x Hx). }
  assert (zsum (fun j => pmul (s j) (fun x => zsum (fun k => pmul (F j k) (y k) x) (Z.to_nat n)) x) (Z.to_nat n) ≡ₖ
    zsum (fun j => zsum (fun k => pmul (pmul (F k j) (s k)) (y j) x) (Z.to_nat n)) (Z.to_nat n)) as ->.
  { rewrite zsum_swap. apply zsum_cong. intros j _. rewrite (pmul_zsum (s j) _ _ x Hx). apply zsum_cong. intros k _.
    rewrite (pmul_assoc (s j) (F j k) (y k) x Hx). apply pmul_proper; [apply pmul_comm|done|done]. }
  kcong_by 0.
Qed.

(** ** Blocks of equal length *)

Lemma slice_app_skip {A} (a b : list A) k n : 0 <= k -> slice (a ++ b) (zlen a + k) n = slice b k n.
Proof.
  intros Hk. unfold slice. replace (Z.to_nat (zlen a + k)) with (length a + Z.to_nat k)%nat by (unfold zlen; lia).
  by rewrite drop_app_add.
Qed.
Lemma slice_app_first {A} (a b : list A) n : zlen a = n -> slice (a ++ b) 0 n = a.
Proof. intros <-. unfold slice. rewrite zlen_to_nat. cbn [Z.to_nat drop]. apply take_app_length. Qed.
Lemma join_len (l : list (list Z)) L : Forall (fun b => zlen b = L) l -> zlen (mjoin l) = zlen l * L.
Proof.
  induction 1 as [|b l Hb _ IH]; [done|]. change (mjoin (b :: l)) with (b ++ mjoin l). rewrite zlen_app, zlen_cons, Hb, IH. lia.
Qed.
Lemma join_slice (l : list (list Z)) rest L i :
  Forall (fun b => zlen b = L) l -> 0 <= L -> 0 <= i < zlen l -> slice (mjoin l ++ rest) (i * L) L = default [] (l !! Z.to_nat i).
Proof.
  intros H HL. revert i. induction H as [|b l Hb _ IH]; intros i Hi; [change (zlen []) with 0 in Hi; lia|]. rewrite zlen_cons in Hi.
  change (mjoin (b :: l)) with (b ++ mjoin l). rewrite <- app_assoc. destruct (Z.eq_dec i 0) as [->|Hi0].
  - rewrite Z.mul_0_l. by apply slice_app_first.
  - replace (i * L) with (zlen b + (i - 1) * L) by lia. rewrite slice_app_skip by nia. rewrite IH by lia.
    replace (Z.to_nat i) with (S (Z.to_nat (i - 1))) by lia. done.
Qed.
Lemma join_entries_len n L (f : Z -> list Z) : 0 <= n -> (forall i, 0 <= i < n -> zlen (f i) = L) -> zlen (mjoin (entries n f)) = n * L.
Proof.
  intros Hn H. rewrite (join_len _ L), entries_len by done || (apply Forall_fmap, Forall_forall; intros i [k Hk]%list_elem_of_lookup;
    apply lookup_seqZ in Hk; apply H; lia). done.
Qed.
Lemma join_entries_slice n L (f : Z -> list Z) rest i :
  0 <= L -> (forall i, 0 <= i < n -> zlen (f i) = L) -> 0 <= i < n -> slice (mjoin (entries n f) ++ rest) (i * L) L = f i.
Proof.
  intros HL H Hi. rewrite (join_slice _ _ L), <- (entry_entries n f i) by (done || (rewrite entries_len; lia) ||
    (apply Forall_fmap, Forall_forall; intros j [k Hk]%list_elem_of_lookup; apply lookup_seqZ in Hk; apply H; lia)). done.
Qed.

Lemma join_slices_from b L m n :
  0 <= m -> 0 <= n -> 0 <= L -> mjoin ((fun i => slice (b : list Z) (i * L) L) <$> seqZ m n) = slice b (m * L) (n * L).
Proof.
  intros Hm Hn HL. revert m Hm. revert n Hn. apply (natlike_ind (fun n => forall m, 0 <= m -> mjoin ((fun i => slice b (i * L) L) <$> seqZ m n) = slice b (m * L) (n * L))).
  - intros m _. rewrite Z.mul_0_l, slice_nil. done.
  - intros n Hn IH m Hm. rewrite seqZ_cons, Z.pred_succ by lia. cbn [fmap list_fmap].
    change (slice b (m * L) L ++ mjoin ((fun i => slice b (i * L) L) <$> seqZ (Z.succ m) n) = slice b (m * L) (Z.succ n * L)).
    rewrite IH by lia. replace (Z.succ n * L) with (L + n * L) by lia. rewrite slice_add by nia. do 2 f_equal. lia.
Qed.
Lemma join_slices (b : list Z) L n : 0 <= n -> 0 <= L -> zlen b = n * L -> mjoin (entries n (fun i => slice b (i * L) L)) = b.
Proof. intros Hn HL Hb. unfold entries. rewrite join_slices_from by lia. rewrite Z.mul_0_l. by apply slice_whole. Qed.

(** ** Sampled vectors *)

Definition samples (cbd : CBD_FUNC) : Prop := forall inp, exists s, cbd inp = Some s /\ scalar_ok s.

Lemma gencbd_loop_ok `{KD : KemDigest} cbd seed n i c out :
  samples cbd -> 0 <= c -> c + Z.of_nat n < 256 -> Forall scalar_ok out ->
  exists v,
    for_loop n i (fun _ '(out, counter) => s ← cbd (seed ++ [counter]); Some (out ++ [s], u8 (counter + 1))) (out, c) =
      Some (out ++ v, c + Z.of_nat n) /\
    for_loop n i (fun _ '(out, counter) => s ← cbd (seed ++ [counter]); Some (out ++ [scalar_ntt s], u8 (counter + 1))) (scalar_ntt <$> out, c) =
      Some (scalar_ntt <$> (out ++ v), c + Z.of_nat n) /\
    length v = n /\ Forall scalar_ok v /\ forall k, (k < n)%nat -> cbd (seed ++ [c + Z.of_nat k]) = v !! k.
Proof.
  intros Hcbd. revert i c out. induction n as [|n IH]; intros i c out Hc Hn Hout; cbn [for_loop].
  - exists []. rewrite app_nil_r. change (Z.of_nat 0) with 0. rewrite Z.add_0_r. split_and!; [done|done|done|constructor|intros; lia].
  - destruct (Hcbd (seed ++ [c])) as (s & Hs & Hok). rewrite Hs. cbn [mbind option_bind]. rewrite u8_small by lia.
    destruct (IH (i + 1) (c + 1) (out ++ [s])) as (v & E1 & E2 & Hl & Hv & Hk); [lia|lia|by apply Forall_app_2; [|constructor]|].
    exists (s :: v). rewrite fmap_app in E2. cbn [fmap list_fmap] in E2. rewrite E1, E2.
    replace (c + 1 + Z.of_nat n) with (c + Z.of_nat (S n)) by lia. rewrite <- app_assoc.
    split_and!; [done|done|simpl; lia|by constructor|]. intros [|k] Hk'.
    + change (Z.of_nat 0) with 0. by rewrite Z.add_0_r.
    + replace (c + Z.of_nat (S k)) with (c + 1 + Z.of_nat k) by lia. by rewrite Hk by lia.
Qed.
Lemma gencbd_ok `{KD : KemDigest} cbd c seed rank :
  samples cbd -> 0 <= c -> 0 <= rank -> c + rank < 256 ->
  exists v, gencbd_vector cbd c seed rank = Some (v, c + rank) /\
    gencbd_vector_ntt cbd c seed rank = Some (scalar_ntt <$> v, c + rank) /\ vector_ok rank v /\
    forall i, 0 <= i < rank -> cbd (slice seed 0 ML_KEM_RANDOM_BYTES ++ [c + i]) = Some (entry v i).
Proof.
  intros Hcbd Hc Hr Hb. unfold gencbd_vector, gencbd_vector_ntt.
  destruct (gencbd_loop_ok cbd (slice seed 0 ML_KEM_RANDOM_BYTES) (Z.to_nat rank) 0 c []) as (v & E1 & E2 & Hl & Hv & Hk);
    [done|done|lia|constructor|]. cbn [fmap list_fmap app] in *. rewrite Z2Nat.id in E1, E2 by done.
  exists v. rewrite E1, E2. split_and!; [done|done|split; [unfold zlen; lia|done]|]. intros i Hi.
  specialize (Hk (Z.to_nat i) ltac:(lia)). rewrite Z2Nat.id in Hk by lia. rewrite Hk. unfold entry.
  by destruct (lookup_lt_is_Some_2 v (Z.to_nat i)) as [x ->]; [lia|].
Qed.
Lemma cbd_2_samples `{KL : KemDigestLaws} : samples cbd_2.
Proof. intros inp. destruct (cbd_2_ok inp) as (b & _ & -> & _). eexists. split; [done|]. by apply (SamplePolyCBD_ok 2). Qed.
Lemma cbd_3_samples `{KL : KemDigestLaws} : samples cbd_3.
Proof. intros inp. destruct (cbd_3_ok inp) as (b & _ & -> & _). eexists. split; [done|]. by apply (SamplePolyCBD_ok 3). Qed.
Lemma CBD1_samples `{KL : KemDigestLaws} ty : samples (CBD1 ty).
Proof. unfold CBD1. destruct (_ =? _); [apply cbd_3_samples|apply cbd_2_samples]. Qed.

(** ** Variants *)

Definition is_variant (vinfo : ML_KEM_VINFO) : Prop := vinfo ∈ vinfo_map.
Lemma variant_cases vinfo : is_variant vinfo -> vinfo = vinfo_512 \/ vinfo = vinfo_768 \/ vinfo = vinfo_1024.
Proof. unfold is_variant, vinfo_map. rewrite !elem_of_cons, elem_of_nil. tauto. Qed.
Lemma variant_facts vinfo :
  is_variant vinfo ->
  2 <= vi_rank vinfo <= 4 /\ 10 <= vi_du vinfo <= 11 /\ 4 <= vi_dv vinfo <= 5 /\
  u_vector_bytes vinfo = vi_rank vinfo * (32 * vi_du vinfo) /\ vector_bytes vinfo = vi_rank vinfo * 384 /\
  pubkey_bytes vinfo = vector_bytes vinfo + 32 /\ prvkey_bytes vinfo = 2 * pubkey_bytes vinfo + 32 /\
  ctext_bytes vinfo = u_vector_bytes vinfo + 32 * vi_dv vinfo.
Proof. intros [-> | [-> | ->]]%variant_cases; repeat split; by compute. Qed.

(** ** Encryption and decryption *)

(** What rounding to [bits] bits and back adds to a coefficient. *)
Definition rounding (s : scalar) (bits x : Z) : Z := coeff (scalar_decompress (scalar_compress s bits) bits) x - coeff s x.

Section Noise.
Context `{KD : KemDigest}.

(** The values of an encryption before they are rounded: [y], [e1], [e2], [u], [v]. *)
Definition encryption_values (vinfo : ML_KEM_VINFO) (t m : list scalar) (message r : list Z) :
    option (list scalar * list scalar * scalar * list scalar * scalar) :=
  let rank := vi_rank vinfo in
  '(y, counter) ← gencbd_vector (CBD1 (evp_type vinfo)) 0 r rank;
  '(e1, counter) ← gencbd_vector cbd_2 counter r rank;
  e2 ← cbd_2 (slice r 0 ML_KEM_RANDOM_BYTES ++ [counter]);
  let yh := scalar_ntt <$> y in
  Some (y, e1, e2, vector_add (matrix_mult_intt m yh rank) e1 rank,
    scalar_decode_decompress_add (scalar_add (scalar_inverse_ntt (inner_product t yh rank)) e2) message).

(** What decryption sees on top of the message: [e . y + e2 + dv - s . (e1 + du)], [du] and
    [dv] the rounding errors; [s] and [e] are the secret and the error of the key. *)
Definition decryption_noise (vinfo : ML_KEM_VINFO) (t m s e : list scalar) (message r : list Z) : option (Z -> Z) :=
  let rank := vi_rank vinfo in
  '(y, e1, e2, u, v) ← encryption_values vinfo t m message r;
  Some (fun x =>
    pdot rank (fun i => coeff (entry e i)) (fun i => coeff (entry y i)) x + coeff e2 x + rounding v (vi_dv vinfo) x -
    pdot rank (fun i => coeff (entry s i)) (fun i k => coeff (entry e1 i) k + rounding (entry u i) (vi_du vinfo) k) x).
(** A message bit is rounded correctly when the noise is within a quarter of [q]. *)
Definition rounds_away (noise : Z -> Z) : bool :=
  forallb (fun x => (-832 <=? kcentered (noise x)) && (kcentered (noise x) <=? 831)) (seqZ 0 256).
Lemma rounds_away_spec noise : rounds_away noise = true <-> forall x, 0 <= x < 256 -> -832 <= kcentered (noise x) <= 831.
Proof.
  unfold rounds_away. rewrite forallb_forall. split.
  - intros H x Hx. specialize (H x). rewrite <- list_elem_of_In, elem_of_seqZ in H. specialize (H ltac:(lia)). lia.
  - intros H x. rewrite <- list_elem_of_In, elem_of_seqZ. intros Hx. specialize (H x ltac:(lia)). lia.
Qed.
End Noise.

Section Encrypt.
Context `{KL : KemDigestLaws} (vinfo : ML_KEM_VINFO) (Hvi : is_variant vinfo).
Let rank := vi_rank vinfo.
Context (t m : list scalar) (ft : Z -> Z -> Z) (F : Z -> Z -> Z -> Z) (Ht : vreps rank t ft) (Hm : mreps rank m F).
Context (message r : list Z) (Hml : zlen message = 32) (Hmok : bytes_ok message).

Lemma encryption_values_ok :
  exists y e1 e2 u v, encryption_values vinfo t m message r = Some (y, e1, e2, u, v) /\
    vector_ok rank y /\ vector_ok rank e1 /\ scalar_ok e2 /\ vector_ok rank u /\ scalar_ok v /\
    (forall i, 0 <= i < rank -> peq (coeff (entry u i)) (fun x => pdot rank (F i) (fun j => coeff (entry y j)) x + coeff (entry e1 i) x)) /\
    peq (coeff v) (fun x => pdot rank ft (fun j => coeff (entry y j)) x + coeff e2 x + 1665 * coeff (bit_unpack 1 256 message) x) /\
    encrypt_cpa vinfo t m message r =
      Some (vector_encode (vector_compress u (vi_du vinfo) rank) (vi_du vinfo) rank ++
        scalar_encode (scalar_compress v (vi_dv vinfo)) (vi_dv vinfo)).
Proof.
  destruct (variant_facts vinfo Hvi) as (Hr & _). fold rank in Hr.
  destruct (gencbd_ok (CBD1 (evp_type vinfo)) 0 r rank) as (y & Ey & Ey' & Hy & _); [apply CBD1_samples|lia|lia|lia|].
  destruct (gencbd_ok cbd_2 (0 + rank) r rank) as (e1 & Ee & _ & He1 & _); [apply cbd_2_samples|lia|lia|lia|].
  destruct (cbd_2_samples (slice r 0 ML_KEM_RANDOM_BYTES ++ [0 + rank + rank])) as (e2 & E2 & He2).
  pose proof (vreps_ntt rank y Hy) as Hyh. destruct (matrix_mult_intt_spec rank m _ F _ ltac:(lia) Hm Hyh) as [_ Hu].
  destruct (reps_inverse _ _ (inner_product_reps rank t _ ft _ ltac:(lia) Ht Hyh)) as [Hv Hvc].
  destruct (scalar_add_ok _ _ Hv He2) as [Hv1 Hv1c]. destruct (decompress_add_ok _ message Hv1 Hmok Hml) as [Hv2 Hv2c].
  eexists y, e1, e2, _, _. unfold encryption_values, encrypt_cpa. fold rank. rewrite Ey, Ey'. cbn [mbind option_bind].
  rewrite Ee. cbn [mbind option_bind]. rewrite E2. cbn [mbind option_bind].
  assert (forall i, 0 <= i < rank -> let w := scalar_add (entry (matrix_mult_intt m (scalar_ntt <$> y) rank) i) (entry e1 i) in
    scalar_ok w /\ peq (coeff w) (fun x => pdot rank (F i) (fun j => coeff (entry y j)) x + coeff (entry e1 i) x)) as Hue.
  { intros i Hi w. destruct (Hu i Hi) as [Hui Huc]. destruct (scalar_add_ok _ _ Hui (vector_entry _ _ _ He1 Hi)) as [Ha Hac].
    split; [done|]. intros x Hx. unfold w. by rewrite (Hac x Hx), (Huc x Hx). }
  split_and!; [done|done|done|done| |done| | |done].
  - apply entries_ok; [lia|]. intros i Hi. by apply Hue.
  - intros i Hi. unfold vector_add. rewrite entry_entries by done. by apply Hue.
  - intros x Hx. by rewrite (Hv2c x Hx), (Hv1c x Hx), (Hvc x Hx).
Qed.
End Encrypt.

Lemma encode_len s bits : zlen s = 256 -> Forall (is_digit bits) s -> 1 <= bits <= 16 -> zlen (scalar_encode s bits) = 32 * bits.
Proof. intros Hl Hd Hb. rewrite scalar_encode_spec by done. rewrite bit_pack_length, Hl. dlia. Qed.
Lemma join_bytes_ok l : Forall bytes_ok l -> bytes_ok (mjoin l).
Proof. induction 1 as [|b l Hb _ IH]; [constructor|]. by apply Forall_app_2. Qed.
Lemma vector_encode_ok a bits n :
  0 <= n -> 1 <= bits <= 16 -> (forall i, 0 <= i < n -> zlen (entry a i) = 256 /\ Forall (is_digit bits) (entry a i)) ->
  zlen (vector_encode a bits n) = n * (32 * bits) /\ bytes_ok (vector_encode a bits n).
Proof.
  intros Hn Hb Ha. unfold vector_encode. split.
  - apply join_entries_len; [done|]. intros i Hi. destruct (Ha i Hi). by apply encode_len.
  - apply join_bytes_ok, Forall_fmap, Forall_forall. intros i [k Hk]%list_elem_of_lookup. apply lookup_seqZ in Hk.
    destruct (Ha i ltac:(lia)). cbn. rewrite scalar_encode_spec by done. apply bit_pack_ok.
Qed.

Section Ciphertext.
Context (vinfo : ML_KEM_VINFO) (Hvi : is_variant vinfo) (u : list scalar) (v : scalar).
Let rank := vi_rank vinfo.
Context (Hu : vector_ok rank u) (Hv : scalar_ok v).
Definition ciphertext : list Z :=
  vector_encode (vector_compress u (vi_du vinfo) rank) (vi_du vinfo) rank ++ scalar_encode (scalar_compress v (vi_dv vinfo)) (vi_dv vinfo).

Lemma compressed_entry i :
  0 <= i < rank -> entry (vector_compress u (vi_du vinfo) rank) i = scalar_compress (entry u i) (vi_du vinfo) /\
    zlen (entry (vector_compress u (vi_du vinfo) rank) i) = 256 /\ Forall (is_digit (vi_du vinfo)) (entry (vector_compress u (vi_du vinfo) rank) i).
Proof.
  intros Hi. destruct (variant_facts vinfo Hvi) as (_ & Hdu & _). unfold vector_compress. rewrite entry_entries by done.
  split; [done|]. apply scalar_compress_ok; [by apply (vector_entry rank)|lia].
Qed.
Lemma ciphertext_ok : zlen ciphertext = ctext_bytes vinfo /\ bytes_ok ciphertext.
Proof.
  destruct (variant_facts vinfo Hvi) as (Hr & Hdu & Hdv & Hub & _ & _ & _ & Hct). fold rank in Hr, Hub.
  destruct (vector_encode_ok (vector_compress u (vi_du vinfo) rank) (vi_du vinfo) rank) as [Hl Hok];
    [lia|lia|intros i Hi; by apply compressed_entry|].
  destruct (scalar_compress_ok v (vi_dv vinfo) Hv ltac:(lia)) as [Hlv Hdg]. unfold ciphertext. split.
  - rewrite zlen_app, Hl, encode_len by (done || lia). lia.
  - apply Forall_app_2; [done|]. rewrite scalar_encode_spec by (done || lia). apply bit_pack_ok.
Qed.
Lemma ciphertext_decode :
  vreps rank (vector_decode_decompress_ntt ciphertext (vi_du vinfo) rank)
    (fun i => coeff (scalar_decompress (scalar_compress (entry u i) (vi_du vinfo)) (vi_du vinfo))) /\
  scalar_decode (slice ciphertext (u_vector_bytes vinfo) (V_SCALAR_BYTES (vi_dv vinfo))) (vi_dv vinfo) = scalar_compress v (vi_dv vinfo).
Proof.
  destruct (variant_facts vinfo Hvi) as (Hr & Hdu & Hdv & Hub & _ & _ & _ & Hct). fold rank in Hr, Hub.
  destruct (vector_encode_ok (vector_compress u (vi_du vinfo) rank) (vi_du vinfo) rank) as [Hl _];
    [lia|lia|intros i Hi; by apply compressed_entry|].
  destruct (scalar_compress_ok v (vi_dv vinfo) Hv ltac:(lia)) as [Hlv Hdg]. split.
  - unfold vector_decode_decompress_ntt. split; [apply entries_len; lia|]. intros i Hi. rewrite entry_entries by done.
    replace (vi_du vinfo * DEGREE / 8) with (32 * vi_du vinfo) by (change DEGREE with 256; dlia). unfold ciphertext, vector_encode.
    rewrite join_entries_slice; [|lia|intros j Hj; destruct (compressed_entry j Hj) as (_ & ? & ?); apply encode_len; [done|done|lia]|done].
    destruct (compressed_entry i Hi) as (-> & _). pose proof (vector_entry _ _ _ Hu Hi) as Hui.
    rewrite encode_decode_compressed by (done || lia). apply reps_ntt. destruct (scalar_compress_ok (entry u i) (vi_du vinfo) Hui ltac:(lia)).
    apply scalar_decompress_ok; [done|done|lia].
  - unfold ciphertext. rewrite Hub, <- Hl. replace (zlen (vector_encode (vector_compress u (vi_du vinfo) rank) (vi_du vinfo) rank))
      with (zlen (vector_encode (vector_compress u (vi_du vinfo) rank) (vi_du vinfo) rank) + 0) by lia.
    rewrite slice_app_skip, slice_whole by (done || (rewrite encode_len by (done || lia); unfold V_SCALAR_BYTES; change (DEGREE / 8) with 32; lia)).
    apply encode_decode_compressed; [done|lia].
Qed.
End Ciphertext.

Lemma pdot_proper n f f' g g' :
  (forall i, 0 <= i < n -> peq (f i) (f' i) /\ peq (g i) (g' i)) -> peq (pdot n f g) (pdot n f' g').
Proof.
  intros H x Hx. unfold pdot. apply zsum_cong. intros i Hi. destruct (H i ltac:(lia)). by apply pmul_proper.
Qed.
Lemma pdot_add n f g h : peq (pdot n f (fun i x => g i x + h i x)) (fun x => pdot n f g x + pdot n f h x).
Proof. intros x Hx. unfold pdot. rewrite <- zsum_add. apply zsum_cong. intros i _. by apply pmul_add. Qed.

(** A bit with little noise rounds to the bit. *)
Lemma round_message w noise message :
  zlen message = 32 -> bytes_ok message -> scalar_ok w ->
  peq (coeff w) (fun x => coeff (bit_unpack 1 256 message) x * 1665 + noise x) -> rounds_away noise = true ->
  scalar_encode_1 (scalar_compress w 1) = message.
Proof.
  intros Hml Hmok Hok Hc Haway. rewrite rounds_away_spec in Haway. pose proof (bit_unpack_len 1 256 message) as Hlu.
  pose proof (bit_unpack_digits 1 256 message ltac:(lia)) as Hdu. pose proof Hok as [Hlw _].
  assert (scalar_compress w 1 = bit_unpack 1 256 message) as ->.
  { set (bs := bit_unpack 1 256 message) in *. clearbody bs. rewrite coeff_Forall in Hdu. change (Z.of_nat 256) with 256 in Hlu.
    apply coeff_ext; [unfold scalar_compress; rewrite zlen_fmap; lia|]. unfold scalar_compress. rewrite zlen_fmap. intros x Hx.
    rewrite coeff_map by done. specialize (Hdu x ltac:(lia)). unfold is_digit in Hdu. change (2 ^ 1) with 2 in Hdu.
    apply (compress_1 _ (kcentered (noise x))); [apply scalar_coeff; [done|lia]|lia|apply Haway; lia|].
    rewrite (Hc x ltac:(lia)), kcentered_cong. done. }
  rewrite scalar_encode_1_spec by done. apply bit_pack_unpack; [lia|done|]. by rewrite Hml.
Qed.

Section Decrypt.
Context `{KL : KemDigestLaws} (vinfo : ML_KEM_VINFO) (Hvi : is_variant vinfo).
Let rank := vi_rank vinfo.
Context (t m s e : list scalar) (F : Z -> Z -> Z -> Z) (Hs : vector_ok rank s) (He : vector_ok rank e) (Hm : mreps rank m F).
(** the public vector is [e + A s] *)
Context (Ht : vreps rank t (fun i x => coeff (entry e i) x + pdot rank (fun j => F j i) (fun j => coeff (entry s j)) x)).
Context (message r : list Z) (Hml : zlen message = 32) (Hmok : bytes_ok message).

(** Decryption computes the message with the noise added. *)
Lemma decrypt_noisy ct noise :
  encrypt_cpa vinfo t m message r = Some ct -> decryption_noise vinfo t m s e message r = Some noise ->
  let v := scalar_decompress (scalar_decode (slice ct (u_vector_bytes vinfo) (V_SCALAR_BYTES (vi_dv vinfo))) (vi_dv vinfo)) (vi_dv vinfo) in
  let mask := scalar_inverse_ntt (inner_product (scalar_ntt <$> s) (vector_decode_decompress_ntt ct (vi_du vinfo) rank) rank) in
  scalar_ok (scalar_sub v mask) /\ peq (coeff (scalar_sub v mask)) (fun x => coeff (bit_unpack 1 256 message) x * 1665 + noise x).
Proof.
  destruct (variant_facts vinfo Hvi) as (Hr & Hdu & Hdv & _). fold rank in Hr.
  destruct (encryption_values_ok vinfo Hvi t m _ F Ht Hm message r Hml Hmok) as (y & e1 & e2 & u & v & Ev & Hy & He1 & He2 & Hu & Hv & Huc & Hvc & ->).
  fold rank in Hy, He1, Hu, Huc, Hvc. unfold decryption_noise. rewrite Ev. cbn [mbind option_bind]. fold rank. intros [= <-] [= <-]. cbv zeta.
  destruct (ciphertext_decode vinfo Hvi u v Hu Hv) as [Hud Hvd]. fold rank in Hud. unfold ciphertext in *. fold rank in Hud, Hvd. rewrite Hvd.
  destruct (scalar_compress_ok v (vi_dv vinfo) Hv ltac:(lia)) as [Hlv Hdg].
  pose proof (scalar_decompress_ok _ _ Hlv Hdg ltac:(lia)) as Hvok.
  destruct (reps_inverse _ _ (inner_product_reps rank _ _ _ _ ltac:(lia) (vreps_ntt rank s Hs) Hud)) as [Hmask Hmc].
  destruct (scalar_sub_ok _ _ Hvok Hmask) as [Hok Hc]. split; [done|]. intros x Hx. rewrite (Hc x Hx), (Hmc x Hx).
  assert (pdot rank (fun i => coeff (entry s i)) (fun i => coeff (scalar_decompress (scalar_compress (entry u i) (vi_du vinfo)) (vi_du vinfo))) x ≡ₖ
    pdot rank (fun i => coeff (entry s i)) (fun i => pdot rank (F i) (fun j => coeff (entry y j))) x +
    pdot rank (fun i => coeff (entry s i)) (fun i k => coeff (entry e1 i) k + rounding (entry u i) (vi_du vinfo) k) x) as ->.
  { rewrite <- (pdot_add rank _ _ _ x Hx). apply pdot_proper; [|done]. intros i Hi. split; [done|]. intros k Hk. unfold rounding.
    rewrite (Huc i Hi k Hk). kcong_by 0. }
  pose proof (lattice_cancel rank F (fun j => coeff (entry s j)) (fun i => coeff (entry e i)) (fun j => coeff (entry y j)) x Hx) as Hl.
  cbv beta in Hl. rewrite <- Hl. unfold rounding at 2. rewrite (Hvc x Hx). kcong_by 0.
Qed.

Lemma decrypt_encrypt ct noise :
  encrypt_cpa vinfo t m message r = Some ct -> decryption_noise vinfo t m s e message r = Some noise ->
  rounds_away noise = true -> decrypt_cpa vinfo (scalar_ntt <$> s) ct = message.
Proof.
  intros Hct Hno Haway. destruct (decrypt_noisy ct noise Hct Hno) as [Hok Hc].
  exact (round_message _ noise message Hml Hmok Hok Hc Haway).
Qed.
End Decrypt.
