(* ===== verification/MlKemKey.v ===== *)
(** * ML-KEM keys

    Model of the keys of [crypto/ml_kem/ml_kem.c]: their life cycle, encoding, parsing
    and generation, and encapsulation and decapsulation.  [rho] and [pkhash] share the
    key's 64-byte [seedbuf] with a seed that has not been expanded, so the pointers of
    the key and the buffers they point into are part of the state.  The operations that
    change a key run in the monad [KM], which keeps the key as the code leaves it when
    they fail.  The key passed is not NULL. *)
From S2P Require Import Prelude.
From S2P Require Import ConstantTime.
From S2P Require Import ByteOrder.
From S2P Require Import KeyMgmt.
From S2P Require Import ZSum.
From S2P Require Import BitPack.
From S2P Require Import Result.
From S2P Require Import ModCong.
From S2P Require Import NttPass.
From S2P Require Import MlKemField.
From S2P Require Import MlKemNtt.
From S2P Require Import MlKemCode.
From S2P Require Import MlKemHash.
From S2P Require Import MlKemPke.

Definition ML_KEM_KEY_RANDOM_PCT : Z := Z.shiftl 1 0.
Definition ML_KEM_KEY_FIXED_PCT : Z := Z.shiftl 1 1.
Definition ML_KEM_KEY_PREFER_SEED : Z := Z.shiftl 1 2.
Definition ML_KEM_KEY_RETAIN_SEED : Z := Z.shiftl 1 3.
Definition ML_KEM_KEY_PROV_FLAGS_DEFAULT : Z :=
  Z.lor (Z.lor ML_KEM_KEY_RANDOM_PCT ML_KEM_KEY_PREFER_SEED) ML_KEM_KEY_RETAIN_SEED.

(** ** Data *)

(** A pointer into [seedbuf], or into the [zbuf] at the end of the storage of a private key. *)
Inductive region := InSeedbuf | InZbuf.
Definition ptr : Type := region * Z.

(** [struct prvkey_*_alloc]; the storage of a public key ends after [mbuf]. *)
Record storage := mkStorage { tbuf : list scalar; mbuf : list scalar; sbuf : list scalar; st_zbuf : list Z }.

(** [struct ossl_ml_kem_key_st]; NULL is [None].  [t], [m] and [s] are the vectors the
    pointers lead to, [zbuf] is the storage behind [s].  A key has its four digests.
    [seedbuf] is allocated uninitialised and stands as zeros until it is written: the
    pointers into it are set only when it is, so no code reads it before. *)
Record ML_KEM_KEY := mkML_KEM_KEY {
  k_vinfo : ML_KEM_VINFO;
  k_rho : option ptr; k_pkhash : option ptr;
  k_t : option (list scalar); k_m : option (list scalar); k_s : option (list scalar); k_zbuf : list Z;
  k_z : option ptr; k_d : option ptr;
  k_prov_flags : Z;
  k_seedbuf : list Z;
  k_encoded_dk : option (list Z) }.

Definition ossl_ml_kem_key_vinfo (key : ML_KEM_KEY) : ML_KEM_VINFO := k_vinfo key.
Definition ossl_ml_kem_have_pubkey (key : ML_KEM_KEY) : bool := bool_decide (is_Some (k_t key)).
Definition ossl_ml_kem_have_prvkey (key : ML_KEM_KEY) : bool := bool_decide (is_Some (k_s key)).
Definition ossl_ml_kem_have_seed (key : ML_KEM_KEY) : bool := bool_decide (is_Some (k_d key)).
Definition ossl_ml_kem_have_dkenc (key : ML_KEM_KEY) : bool := bool_decide (is_Some (k_encoded_dk key)).
Definition ossl_ml_kem_decoded_key (key : ML_KEM_KEY) : bool :=
  ossl_ml_kem_have_dkenc key || (negb (ossl_ml_kem_have_prvkey key) && ossl_ml_kem_have_seed key).

(** Field updates. *)
Definition set_t (x : option (list scalar)) (k : ML_KEM_KEY) : ML_KEM_KEY :=
  mkML_KEM_KEY (k_vinfo k) (k_rho k) (k_pkhash k) x (k_m k) (k_s k) (k_zbuf k) (k_z k) (k_d k) (k_prov_flags k) (k_seedbuf k) (k_encoded_dk k).
Definition set_m (x : option (list scalar)) (k : ML_KEM_KEY) : ML_KEM_KEY :=
  mkML_KEM_KEY (k_vinfo k) (k_rho k) (k_pkhash k) (k_t k) x (k_s k) (k_zbuf k) (k_z k) (k_d k) (k_prov_flags k) (k_seedbuf k) (k_encoded_dk k).
Definition set_s (x : option (list scalar)) (k : ML_KEM_KEY) : ML_KEM_KEY :=
  mkML_KEM_KEY (k_vinfo k) (k_rho k) (k_pkhash k) (k_t k) (k_m k) x (k_zbuf k) (k_z k) (k_d k) (k_prov_flags k) (k_seedbuf k) (k_encoded_dk k).
Definition set_zbuf (x : list Z) (k : ML_KEM_KEY) : ML_KEM_KEY :=
  mkML_KEM_KEY (k_vinfo k) (k_rho k) (k_pkhash k) (k_t k) (k_m k) (k_s k) x (k_z k) (k_d k) (k_prov_flags k) (k_seedbuf k) (k_encoded_dk k).
Definition set_z (x : option ptr) (k : ML_KEM_KEY) : ML_KEM_KEY :=
  mkML_KEM_KEY (k_vinfo k) (k_rho k) (k_pkhash k) (k_t k) (k_m k) (k_s k) (k_zbuf k) x (k_d k) (k_prov_flags k) (k_seedbuf k) (k_encoded_dk k).
Definition set_d (x : option ptr) (k : ML_KEM_KEY) : ML_KEM_KEY :=
  mkML_KEM_KEY (k_vinfo k) (k_rho k) (k_pkhash k) (k_t k) (k_m k) (k_s k) (k_zbuf k) (k_z k) x (k_prov_flags k) (k_seedbuf k) (k_encoded_dk k).
Definition set_rho (x : option ptr) (k : ML_KEM_KEY) : ML_KEM_KEY :=
  mkML_KEM_KEY (k_vinfo k) x (k_pkhash k) (k_t k) (k_m k) (k_s k) (k_zbuf k) (k_z k) (k_d k) (k_prov_flags k) (k_seedbuf k) (k_encoded_dk k).
Definition set_pkhash (x : option ptr) (k : ML_KEM_KEY) : ML_KEM_KEY :=
  mkML_KEM_KEY (k_vinfo k) (k_rho k) x (k_t k) (k_m k) (k_s k) (k_zbuf k) (k_z k) (k_d k) (k_prov_flags k) (k_seedbuf k) (k_encoded_dk k).
Definition set_seedbuf (x : list Z) (k : ML_KEM_KEY) : ML_KEM_KEY :=
  mkML_KEM_KEY (k_vinfo k) (k_rho k) (k_pkhash k) (k_t k) (k_m k) (k_s k) (k_zbuf k) (k_z k) (k_d k) (k_prov_flags k) x (k_encoded_dk k).
Definition set_encoded_dk (x : option (list Z)) (k : ML_KEM_KEY) : ML_KEM_KEY :=
  mkML_KEM_KEY (k_vinfo k) (k_rho k) (k_pkhash k) (k_t k) (k_m k) (k_s k) (k_zbuf k) (k_z k) (k_d k) (k_prov_flags k) (k_seedbuf k) x.

(** ** Memory *)

(** 32 bytes read and written through a pointer of the key; [key_wf] of the specification
    shows that no NULL pointer is followed. *)
Definition peek (p : option ptr) (key : ML_KEM_KEY) : list Z :=
  match p with
  | Some (InSeedbuf, off) => slice (k_seedbuf key) off ML_KEM_RANDOM_BYTES
  | Some (InZbuf, off) => slice (k_zbuf key) off ML_KEM_RANDOM_BYTES
  | None => []
  end.
Definition poke (p : option ptr) (bs : list Z) (key : ML_KEM_KEY) : ML_KEM_KEY :=
  match p with
  | Some (InSeedbuf, off) => set_seedbuf (splice (k_seedbuf key) off bs) key
  | Some (InZbuf, off) => set_zbuf (splice (k_zbuf key) off bs) key
  | None => key
  end.
Definition ptr_add (p : option ptr) (n : Z) : option ptr := (fun '(r, off) => (r, off + n)) <$> p.
Definition vec (v : option (list scalar)) : list scalar := default [] v.
Definition rank_of (key : ML_KEM_KEY) : Z := vi_rank (k_vinfo key).

(** The calls of the allocator, and the library's other services. *)
Inductive kem_site := KeyObject | PubStorage | PrvStorage | KeyCopy | PubCopy | PrvCopy.
Class KemEnv := {
  alloc_at : kem_site -> bool;
  EVP_MD_fetch : KEM_MD -> option string -> bool;
  (** by length and strength *)
  RAND_priv_bytes_ex : Z -> Z -> option (list Z);
  RAND_bytes_ex : Z -> Z -> option (list Z) }.
Class KemEnvLaws `{KemEnv} : Prop := {
  rand_priv_ok n s b : RAND_priv_bytes_ex n s = Some b -> zlen b = n /\ bytes_ok b;
  rand_ok n s b : RAND_bytes_ex n s = Some b -> zlen b = n /\ bytes_ok b }.

Definition KM (A : Type) : Type := ML_KEM_KEY -> res A * ML_KEM_KEY.
#[export] Instance kem_ret : MRet KM := fun A a k => (Ret a, k).
#[export] Instance kem_bind : MBind KM := fun A B f m k =>
  match m k with (Ret a, k') => f a k' | (Err, k') => (Err, k') | (Spin, k') => (Spin, k') end.
Definition kget : KM ML_KEM_KEY := fun k => (Ret k, k).
Definition kset (f : ML_KEM_KEY -> ML_KEM_KEY) : KM unit := fun k => (Ret tt, f k).
Definition klift {A} (r : res A) : KM A := fun k => (r, k).
Definition kcheck (c : bool) : KM unit := klift (check c).

(** ** Life cycle *)

(** Allocated memory before its first use. *)
Definition uninit_scalars (n : Z) : list scalar := replicate (Z.to_nat n) (zeros 256).
Definition uninit_storage (rank : Z) : storage :=
  mkStorage (uninit_scalars rank) (uninit_scalars (rank * rank)) (uninit_scalars rank) (zeros (2 * ML_KEM_RANDOM_BYTES)).

Definition add_storage (p : option storage) (private : bool) (key : ML_KEM_KEY) : option ML_KEM_KEY :=
  p ← p;
  let key := set_seedbuf (zeros 64) key in
  let key := set_rho (Some (InSeedbuf, 0)) key in
  let key := set_pkhash (Some (InSeedbuf, ML_KEM_RANDOM_BYTES)) key in
  let key := set_d None (set_z None key) in
  let key := set_m (Some (mbuf p)) (set_t (Some (tbuf p)) key) in
  Some (if private then set_z (Some (InZbuf, 0)) (set_zbuf (st_zbuf p) (set_s (Some (sbuf p)) key)) else key).

Definition ossl_ml_kem_key_reset (key : ML_KEM_KEY) : ML_KEM_KEY :=
  match k_t key with
  | None => key
  | Some _ =>
    (* the storage is wiped where it is private and released *)
    let key := if ossl_ml_kem_have_prvkey key then set_zbuf (zeros (2 * ML_KEM_RANDOM_BYTES)) key else key in
    set_d None (set_z None (set_s None (set_m None (set_t None key))))
  end.

Section Key.
Context `{KD : KemDigest} `{FU : Fuel} `{KE : KemEnv}.

Definition ossl_ml_kem_key_new (properties : option string) (evp_type : Z) : option ML_KEM_KEY :=
  vinfo ← ossl_ml_kem_get_vinfo evp_type;
  if negb (alloc_at KeyObject) then None
  else if EVP_MD_fetch SHAKE128 properties && EVP_MD_fetch SHAKE256 properties &&
          EVP_MD_fetch SHA3_256 properties && EVP_MD_fetch SHA3_512 properties
  then Some (mkML_KEM_KEY vinfo None None None None None [] None None ML_KEM_KEY_PROV_FLAGS_DEFAULT (zeros 64) None)
  else None.

(** The storage as it is copied: [OPENSSL_memdup(key->t, ...)]. *)
Definition storage_of (key : ML_KEM_KEY) : storage := mkStorage (vec (k_t key)) (vec (k_m key)) (vec (k_s key)) (k_zbuf key).
Definition ossl_ml_kem_key_dup (key : ML_KEM_KEY) (selection : Z) : option ML_KEM_KEY :=
  if ossl_ml_kem_decoded_key key then None
  else if negb (alloc_at KeyCopy) then None
  else
    let ret := set_pkhash None (set_rho None (set_z None (set_d None key))) in
    let ret := set_t None (set_m None (set_s None (set_zbuf [] ret))) in
    let selection :=
      if negb (ossl_ml_kem_have_pubkey key) then 0
      else if negb (ossl_ml_kem_have_prvkey key) then Z.land selection (Z.lnot OSSL_KEYMGMT_SELECT_PRIVATE_KEY)
      else selection in
    let sel := Z.land selection OSSL_KEYMGMT_SELECT_KEYPAIR in
    if sel =? 0 then Some ret
    else if sel =? OSSL_KEYMGMT_SELECT_PUBLIC_KEY then
      ret ← add_storage (if alloc_at PubCopy then Some (storage_of key) else None) false ret;
      let ret := set_rho (Some (InSeedbuf, 0)) ret in
      Some (set_pkhash (ptr_add (k_rho ret) ML_KEM_RANDOM_BYTES) ret)
    else if sel =? OSSL_KEYMGMT_SELECT_PRIVATE_KEY then
      ret ← add_storage (if alloc_at PrvCopy then Some (storage_of key) else None) true ret;
      Some (match k_d key with Some _ => set_d (ptr_add (k_z ret) ML_KEM_RANDOM_BYTES) ret | None => ret end)
    else None.

(** The contents of the object when its memory is released. *)
Definition ossl_ml_kem_key_free (key : ML_KEM_KEY) : ML_KEM_KEY :=
  let key :=
    if ossl_ml_kem_decoded_key key then
      let key := set_seedbuf (zeros 64) key in
      if ossl_ml_kem_have_dkenc key then set_encoded_dk (Some (zeros (prvkey_bytes (k_vinfo key)))) key else key
    else key in
  ossl_ml_kem_key_reset key.

(** ** Encoding and parsing *)

Definition encode_pubkey (key : ML_KEM_KEY) : list Z :=
  vector_encode (vec (k_t key)) 12 (rank_of key) ++ peek (k_rho key) key.
Definition encode_prvkey (key : ML_KEM_KEY) : list Z :=
  vector_encode (vec (k_s key)) 12 (rank_of key) ++ encode_pubkey key ++ peek (k_pkhash key) key ++ peek (k_z key) key.

(** On failure the vectors are incomplete; the callers release them. *)
Definition parse_pubkey (inp : list Z) : KM unit :=
  key ← kget;
  let vinfo := k_vinfo key in
  t ← klift (of_option (vector_decode_12 inp (vi_rank vinfo)));
  kset (set_t (Some t));;
  kset (poke (k_rho key) (slice inp (vector_bytes vinfo) ML_KEM_RANDOM_BYTES));;
  pkhash ← klift (of_option (hash_h (slice inp 0 (pubkey_bytes vinfo))));
  kset (poke (k_pkhash key) pkhash);;
  key ← kget;
  m ← klift (matrix_expand (peek (k_rho key) key) (vi_rank vinfo));
  kset (set_m (Some m)).
Definition parse_prvkey (inp : list Z) : KM unit :=
  key ← kget;
  let vinfo := k_vinfo key in
  s ← klift (of_option (vector_decode_12 inp (vi_rank vinfo)));
  kset (set_s (Some s));;
  let inp := drop (Z.to_nat (vector_bytes vinfo)) inp in
  parse_pubkey inp;;
  let inp := drop (Z.to_nat (pubkey_bytes vinfo)) inp in
  key ← kget;
  kcheck (bool_decide (peek (k_pkhash key) key = slice inp 0 ML_KEM_PKHASH_BYTES));;
  let inp := drop (Z.to_nat ML_KEM_PKHASH_BYTES) inp in
  kset (poke (k_z key) (slice inp 0 ML_KEM_RANDOM_BYTES)).

(** [pubenc]: whether the caller wants the encoding of the public key. *)
Definition genkey (seed : list Z) (pubenc : bool) : KM (option (list Z)) :=
  key ← kget;
  let vinfo := k_vinfo key in
  let cbd_1 := CBD1 (evp_type vinfo) in
  let rank := vi_rank vinfo in
  let augmented_seed := slice seed 0 ML_KEM_RANDOM_BYTES ++ [u8 rank] in
  hashed ← klift (of_option (hash_g augmented_seed));
  let sigma := slice hashed ML_KEM_RANDOM_BYTES ML_KEM_RANDOM_BYTES in
  kset (poke (k_rho key) (slice hashed 0 ML_KEM_RANDOM_BYTES));;
  key ← kget;
  m ← klift (matrix_expand (peek (k_rho key) key) rank);
  kset (set_m (Some m));;
  '(s, counter) ← klift (of_option (gencbd_vector_ntt cbd_1 0 sigma rank));
  kset (set_s (Some s));;
  '(t, counter) ← klift (of_option (gencbd_vector_ntt cbd_1 counter sigma rank));
  kset (set_t (Some (matrix_mult_transpose_add t m s rank)));;
  key ← kget;
  let enc := encode_pubkey key in
  pkhash ← klift (of_option (if pubenc then hash_h enc
                             else hash_h_pubkey (vec (k_t key)) (peek (k_rho key) key)));
  kset (poke (k_pkhash key) pkhash);;
  kset (poke (k_z key) (slice seed ML_KEM_RANDOM_BYTES ML_KEM_RANDOM_BYTES));;
  kset (set_d (ptr_add (k_z key) ML_KEM_RANDOM_BYTES));;
  key ← kget;
  (if negb (Z.land (k_prov_flags key) ML_KEM_KEY_RETAIN_SEED =? 0) then
     kset (poke (k_d key) (slice seed 0 ML_KEM_RANDOM_BYTES))
   else
     kset (poke (k_d key) (zeros ML_KEM_RANDOM_BYTES));;
     kset (set_d None));;
  mret (if pubenc then Some enc else None).

Definition ossl_ml_kem_encode_public_key (len : Z) (key : ML_KEM_KEY) : option (list Z) :=
  if negb (ossl_ml_kem_have_pubkey key) || negb (len =? pubkey_bytes (k_vinfo key)) then None else Some (encode_pubkey key).
Definition ossl_ml_kem_encode_private_key (len : Z) (key : ML_KEM_KEY) : option (list Z) :=
  if negb (ossl_ml_kem_have_prvkey key) || negb (len =? prvkey_bytes (k_vinfo key)) then None else Some (encode_prvkey key).
Definition ossl_ml_kem_encode_seed (len : Z) (key : ML_KEM_KEY) : option (list Z) :=
  if negb (ossl_ml_kem_have_seed key) || negb (len =? ML_KEM_SEED_BYTES) then None
  else Some (peek (k_d key) key ++ peek (k_z key) key).
Definition ossl_ml_kem_set_seed (seed : list Z) : KM unit :=
  key ← kget;
  kcheck (negb (ossl_ml_kem_have_pubkey key || ossl_ml_kem_have_seed key || negb (zlen seed =? ML_KEM_SEED_BYTES)));;
  kset (set_z (Some (InSeedbuf, 0)));;
  kset (set_d (Some (InSeedbuf, ML_KEM_RANDOM_BYTES)));;
  kset (poke (Some (InSeedbuf, ML_KEM_RANDOM_BYTES)) (slice seed 0 ML_KEM_RANDOM_BYTES));;
  kset (poke (Some (InSeedbuf, 0)) (slice seed ML_KEM_RANDOM_BYTES ML_KEM_RANDOM_BYTES)).

(** [if (add_storage(OPENSSL_malloc(...), private, key)) ret = body; if (!ret) ossl_ml_kem_key_reset(key);] *)
Definition with_storage {A} (where_ : kem_site) (private : bool) (body : KM A) : KM A := fun key =>
  match add_storage (if alloc_at where_ then Some (uninit_storage (rank_of key)) else None) private key with
  | None => (Err, ossl_ml_kem_key_reset key)
  | Some key =>
    match body key with
    | (Ret a, key) => (Ret a, key)
    | (Err, key) => (Err, ossl_ml_kem_key_reset key)
    | (Spin, key) => (Spin, key)
    end
  end.

(** [len] is the length of [inp]. *)
Definition ossl_ml_kem_parse_public_key (inp : list Z) : KM unit :=
  key ← kget;
  kcheck (negb (ossl_ml_kem_have_pubkey key || ossl_ml_kem_have_dkenc key));;
  kcheck (zlen inp =? pubkey_bytes (k_vinfo key));;
  kcheck (bool_decide (is_Some EVP_MD_CTX_new));;
  with_storage PubStorage false (parse_pubkey inp).
Definition ossl_ml_kem_parse_private_key (inp : list Z) : KM unit :=
  key ← kget;
  kcheck (negb (ossl_ml_kem_have_pubkey key || ossl_ml_kem_have_dkenc key));;
  kcheck (zlen inp =? prvkey_bytes (k_vinfo key));;
  kcheck (bool_decide (is_Some EVP_MD_CTX_new));;
  with_storage PrvStorage true (parse_prvkey inp).

(** [publen]: NULL or a buffer of that length for the encoding. *)
Definition ossl_ml_kem_genkey (publen : option Z) : KM (option (list Z)) :=
  key ← kget;
  let vinfo := k_vinfo key in
  kcheck (negb (ossl_ml_kem_have_pubkey key || ossl_ml_kem_have_dkenc key));;
  kcheck (match publen with Some n => n =? pubkey_bytes vinfo | None => true end);;
  seed ← (if ossl_ml_kem_have_seed key then
            seed ← klift (of_option (ossl_ml_kem_encode_seed ML_KEM_SEED_BYTES key));
            kset (fun key => set_d None (set_z None key));;
            mret seed
          else klift (of_option (RAND_priv_bytes_ex ML_KEM_SEED_BYTES (vi_secbits vinfo))));
  kcheck (bool_decide (is_Some EVP_MD_CTX_new));;
  with_storage PrvStorage true (genkey seed (bool_decide (is_Some publen))).

(** ** Encapsulation *)

Definition encap (entropy : list Z) (key : ML_KEM_KEY) : option (list Z * list Z) :=
  let entropy := slice entropy 0 ML_KEM_RANDOM_BYTES in
  Kr ← hash_g (entropy ++ peek (k_pkhash key) key);
  let r := slice Kr ML_KEM_SHARED_SECRET_BYTES ML_KEM_RANDOM_BYTES in
  ctext ← encrypt_cpa (k_vinfo key) (vec (k_t key)) (vec (k_m key)) entropy r;
  Some (ctext, slice Kr 0 ML_KEM_SHARED_SECRET_BYTES).

Definition CRYPTO_memcmp (a b : list Z) (len : Z) : Z :=
  for_each (Z.to_nat len) 0 (fun i x => u8 (Z.lor x (Z.lxor (byte_at a i) (byte_at b i)))) 0.

Definition decap (ctext : list Z) (key : ML_KEM_KEY) : option (list Z) :=
  let vinfo := k_vinfo key in
  failure_key ← kdf (peek (k_z key) key) (slice ctext 0 (ctext_bytes vinfo));
  let decrypted := decrypt_cpa vinfo (vec (k_s key)) ctext in
  match
    Kr ← hash_g (decrypted ++ peek (k_pkhash key) key);
    tmp_ctext ← encrypt_cpa vinfo (vec (k_t key)) (vec (k_m key)) decrypted (slice Kr ML_KEM_SHARED_SECRET_BYTES ML_KEM_RANDOM_BYTES);
    Some (Kr, tmp_ctext)
  with
  | None => Some failure_key
  | Some (Kr, tmp_ctext) =>
    let mask := constant_time_eq_int_8 0 (CRYPTO_memcmp ctext tmp_ctext (ctext_bytes vinfo)) in
    Some ((fun i => constant_time_select_8 mask (byte_at Kr i) (byte_at failure_key i)) <$> seqZ 0 ML_KEM_SHARED_SECRET_BYTES)
  end.

(** [ctext], [shared_secret]: NULL or a buffer of the given length; [entropy]: NULL or
    the bytes.  The switch over the variants only sizes the stack buffers. *)
Definition ossl_ml_kem_encap_seed (ctext shared_secret : option Z) (entropy : option (list Z)) (key : ML_KEM_KEY) :
    option (list Z * list Z) :=
  if negb (ossl_ml_kem_have_pubkey key) then None
  else
    clen ← ctext;
    if negb (clen =? ctext_bytes (k_vinfo key)) then None
    else
      slen ← shared_secret;
      if negb (slen =? ML_KEM_SHARED_SECRET_BYTES) then None
      else
        entropy ← entropy;
        if negb (zlen entropy =? ML_KEM_RANDOM_BYTES) then None
        else
          _ ← EVP_MD_CTX_new;
          encap entropy key.
Definition ossl_ml_kem_encap_rand (ctext shared_secret : option Z) (key : ML_KEM_KEY) : option (list Z * list Z) :=
  r ← RAND_bytes_ex ML_KEM_RANDOM_BYTES (vi_secbits (k_vinfo key));
  ossl_ml_kem_encap_seed ctext shared_secret (Some r) key.

(** What a call does with the caller's buffer: the value returned and the buffer's
    contents, or a write that does not fit the buffer. *)
Inductive buf_result := Wrote (ret : bool) (buf : list Z) | OutOfBounds.
(** [(void)RAND_bytes_ex(..., shared_secret, ML_KEM_SHARED_SECRET_BYTES, ...); return 0;] *)
Definition decap_random (buf : list Z) (vinfo : ML_KEM_VINFO) : buf_result :=
  match RAND_bytes_ex ML_KEM_SHARED_SECRET_BYTES (vi_secbits vinfo) with
  | Some b => if zlen buf <? ML_KEM_SHARED_SECRET_BYTES then OutOfBounds else Wrote false (splice buf 0 b)
  | None => Wrote false buf
  end.
(** [shared_secret]: NULL or the buffer, whose length is [slen]. *)
Definition ossl_ml_kem_decap (shared_secret : option (list Z)) (ctext : option (list Z)) (key : ML_KEM_KEY) : buf_result :=
  if negb (ossl_ml_kem_have_prvkey key) then Wrote false (default [] shared_secret)
  else
    let vinfo := k_vinfo key in
    match shared_secret, ctext with
    | Some buf, Some c =>
      if (zlen buf =? ML_KEM_SHARED_SECRET_BYTES) && (zlen c =? ctext_bytes vinfo) && bool_decide (is_Some EVP_MD_CTX_new) then
        match decap c key with Some secret => Wrote true secret | None => Wrote false buf end
      else decap_random buf vinfo
    | Some buf, None => decap_random buf vinfo
    | None, _ => match RAND_bytes_ex ML_KEM_SHARED_SECRET_BYTES (vi_secbits vinfo) with Some _ => OutOfBounds | None => Wrote false [] end
    end.

Definition ossl_ml_kem_pubkey_cmp (key1 key2 : ML_KEM_KEY) : bool :=
  if ossl_ml_kem_have_pubkey key1 && ossl_ml_kem_have_pubkey key2 then
    bool_decide (peek (k_pkhash key1) key1 = peek (k_pkhash key2) key2)
  else negb (xorb (ossl_ml_kem_have_pubkey key1) (ossl_ml_kem_have_pubkey key2)).
End Key.
