(* ===== verification/MlKemKeySpec.v ===== *)
(** * ML-KEM keys: what the operations guarantee

    Theorems on [MlKemKey]: the invariant of a key's life, encoding and parsing as
    inverses of each other, key generation as the equations of FIPS 203. *)
From S2P Require Import Prelude.
From S2P Require Import ByteOrder.
From S2P Require Import KeyMgmt.
From S2P Require Import ZSum.
From S2P Require Import BitPack.
From S2P Require Import Result.
From S2P Require Import ModCong.
From S2P Require Import NttPass.
From S2P Require Import MlKemField.
From S2P Require Import MlKemNtt.
From S2P Require Import MlKemCode.
From S2P Require Import MlKemHash.
From S2P Require Import MlKemPke.
From S2P Require Import MlKemKey.

(** ** Decoding vectors *)

(** A loop that collects one value per round. *)
Lemma collect_loop {A} n i (f : Z -> option A) out r :
  for_loop n i (fun i out => s ← f i; Some (out ++ [s])) out = Some r <->
  exists v, r = out ++ v /\ length v = n /\ forall k, (k < n)%nat -> f (i + Z.of_nat k) = v !! k.
Proof.
  revert i out. induction n as [|n IH]; intros i out; cbn [for_loop].
  - split.
    + intros [= <-]. exists []. rewrite app_nil_r. split_and!; [done|done|intros; lia].
    + intros (v & -> & Hl & _). destruct v; [|done]. by rewrite app_nil_r.
  - split.
    + destruct (f i) as [s|] eqn:Ef; [|done]. cbn [mbind option_bind]. intros (v & -> & Hl & Hk)%IH. exists (s :: v).
      rewrite <- app_assoc. split_and!; [done|simpl; lia|]. intros [|k] Hk'; [by rewrite Z.add_0_r|].
      replace (i + Z.of_nat (S k)) with (i + 1 + Z.of_nat k) by lia. by rewrite Hk by lia.
    + intros ([|s v] & -> & Hl & Hk); [done|]. pose proof (Hk 0%nat ltac:(lia)) as H0. rewrite Z.add_0_r in H0. rewrite H0.
      cbn [lookup list_lookup mbind option_bind]. apply IH. exists v. rewrite <- app_assoc. split_and!; [done|simpl in Hl; lia|].
      intros k Hk'. specialize (Hk (S k) ltac:(lia)). by replace (i + 1 + Z.of_nat k) with (i + Z.of_nat (S k)) by lia.
Qed.

Lemma slice_slice_0 (b : list Z) off n m : 0 <= off -> off + n <= m -> slice (slice b 0 m) off n = slice b off n.
Proof.
  intros Ho Hm. unfold slice. cbn [Z.to_nat]. rewrite drop_0, skipn_firstn_comm, take_take. f_equal. lia.
Qed.

Lemma vector_decode_12_len inp rank v : 0 <= rank -> vector_decode_12 inp rank = Some v -> zlen v = rank.
Proof. intros Hr (w & -> & Hl & _)%collect_loop. unfold zlen. cbn [app]. lia. Qed.
(** The decoder accepts exactly the encodings of reduced vectors. *)
Lemma vector_decode_12_spec inp rank v :
  0 <= rank -> zlen inp = rank * 384 -> bytes_ok inp ->
  vector_decode_12 inp rank = Some v <-> vector_ok rank v /\ vector_encode v 12 rank = inp.
Proof.
  intros Hr Hl Hok. unfold vector_decode_12. change (3 * DEGREE / 2) with 384. rewrite collect_loop. split.
  - intros (w & -> & Hlw & Hk). cbn [app]. assert (forall i, 0 <= i < rank -> scalar_ok (entry w i) /\ bit_pack 12 (entry w i) = slice inp (i * 384) 384) as He.
    { intros i Hi. specialize (Hk (Z.to_nat i) ltac:(lia)). rewrite Z2Nat.id, Z.add_0_l in Hk by lia. unfold entry.
      destruct (lookup_lt_is_Some_2 w (Z.to_nat i)) as [s Hs]; [lia|]. rewrite Hs in *. apply scalar_decode_12_Some; [|by apply slice_ok|done].
      apply slice_length; lia. }
    assert (zlen w = rank) as Hw by (unfold zlen; lia). split.
    + rewrite <- (entries_entry w), Hw. apply entries_ok; [done|]. intros i Hi. by apply He.
    + unfold vector_encode. rewrite (entries_ext _ _ (fun i => slice inp (i * 384) 384)).
      * by apply join_slices.
      * intros i Hi. destruct (He i Hi) as [Hs <-]. apply scalar_encode_spec; [lia|apply Hs|by apply scalar_digits].
  - intros [Hv <-]. exists v. pose proof Hv as [Hlv _]. split_and!; [done|unfold zlen in Hlv; lia|]. intros k Hk. rewrite Z.add_0_l.
    pose proof (vector_entry _ _ (Z.of_nat k) Hv ltac:(lia)) as He. unfold vector_encode.
    rewrite <- (app_nil_r (mjoin _)), join_entries_slice; [|lia| |lia].
    + rewrite scalar_encode_spec, decode_12_encode by (done || lia || apply He || by apply scalar_digits). unfold entry. rewrite Nat2Z.id.
      by destruct (lookup_lt_is_Some_2 v k) as [s ->]; [unfold zlen in Hlv; lia|].
    + intros i Hi. pose proof (vector_entry _ _ i Hv Hi) as Hs. apply encode_len; [apply Hs|by apply scalar_digits|lia].
Qed.

Lemma vector_decode_12_prefix inp rank :
  0 <= rank -> vector_decode_12 inp rank = vector_decode_12 (slice inp 0 (rank * 384)) rank.
Proof.
  intros Hr. unfold vector_decode_12. change (3 * DEGREE / 2) with 384. apply for_loop_ext. intros i out Hi. rewrite slice_slice_0 by lia. done.
Qed.
Lemma vector_encode_12_ok rank v :
  vector_ok rank v -> zlen (vector_encode v 12 rank) = rank * 384 /\ bytes_ok (vector_encode v 12 rank).
Proof.
  intros Hv. pose proof Hv as [Hl _]. pose proof (zlen_nonneg v). change 384 with (32 * 12). apply vector_encode_ok; [lia|lia|].
  intros i Hi. pose proof (vector_entry _ _ i Hv Hi) as Hs. split; [apply Hs|by apply scalar_digits].
Qed.
Lemma vector_decode_encode rank v rest :
  0 <= rank -> vector_ok rank v -> vector_decode_12 (vector_encode v 12 rank ++ rest) rank = Some v.
Proof.
  intros Hr Hv. destruct (vector_encode_12_ok rank v Hv) as [Hl Hok]. rewrite vector_decode_12_prefix, slice_app_first by done.
  by apply vector_decode_12_spec.
Qed.

(** ** The matrix *)

Section Matrix.
Context `{KL : KemDigestLaws} `{FU : Fuel}.

(** The entry of the matrix that a seed and its indices determine. *)
Definition matrix_entry (rho : list Z) (i j : Z) : res scalar :=
  mdctx ← of_option (EVP_DigestInit_ex SHAKE128);
  mdctx ← of_option (EVP_DigestUpdate mdctx (slice rho 0 ML_KEM_RANDOM_BYTES ++ [u8 i; u8 j]));
  SampleNTT fuel mdctx.

Lemma matrix_entry_ok rho i j s : matrix_entry rho i j = Ret s -> scalar_ok s.
Proof.
  unfold matrix_entry. destruct (kem_init_ok SHAKE128) as (c & -> & Hc). cbn [of_option mbind res_bind].
  destruct (kem_update_ok c (slice rho 0 ML_KEM_RANDOM_BYTES ++ [u8 i; u8 j])) as (c' & -> & Hc'). cbn [of_option mbind res_bind].
  apply SampleNTT_ok. by rewrite Hc', Hc.
Qed.
Lemma matrix_step rho i j (out : list scalar) :
  (mdctx ← of_option (EVP_DigestInit_ex SHAKE128);
   mdctx ← of_option (EVP_DigestUpdate mdctx (slice rho 0 ML_KEM_RANDOM_BYTES ++ [u8 i; u8 j]));
   s ← sample_scalar mdctx; Ret (out ++ [s])) = (s ← matrix_entry rho i j; Ret (out ++ [s])).
Proof.
  unfold matrix_entry. destruct (kem_init_ok SHAKE128) as (c & -> & Hc). cbn [of_option mbind res_bind].
  destruct (kem_update_ok c (slice rho 0 ML_KEM_RANDOM_BYTES ++ [u8 i; u8 j])) as (c' & -> & Hc'). cbn [of_option mbind res_bind].
  by rewrite sample_scalar_spec by (by rewrite Hc', Hc).
Qed.
(** A loop that appends what it samples. *)
Lemma res_collect n i (f : Z -> res scalar) out r :
  res_for n i (fun j out => s ← f j; Ret (out ++ [s])) out = Ret r <->
  exists v, r = out ++ v /\ length v = n /\ forall k s, v !! k = Some s -> f (i + Z.of_nat k) = Ret s.
Proof.
  revert i out. induction n as [|n IH]; intros i out; cbn [res_for].
  - split.
    + intros [= <-]. exists []. by rewrite app_nil_r.
    + intros (v & -> & Hl & _). destruct v; [|done]. by rewrite app_nil_r.
  - split.
    + destruct (f i) as [s| |] eqn:Ef; [|done..]. cbn [mbind res_bind]. intros (v & -> & Hl & Hk)%IH. exists (s :: v).
      rewrite <- app_assoc. split_and!; [done|simpl; lia|]. intros [|k] s' Hs'; [injection Hs' as <-; by rewrite Z.add_0_r|].
      replace (i + Z.of_nat (S k)) with (i + 1 + Z.of_nat k) by lia. by apply Hk.
    + intros ([|s v] & -> & Hl & Hk); [done|]. pose proof (Hk 0%nat s eq_refl) as H0. rewrite Z.add_0_r in H0. rewrite H0.
      cbn [mbind res_bind]. apply IH. exists v. rewrite <- app_assoc. split_and!; [done|simpl in Hl; lia|].
      intros k s' Hs'. replace (i + 1 + Z.of_nat k) with (i + Z.of_nat (S k)) by lia. by apply Hk.
Qed.
Lemma res_for_total {St} (P : Z -> St -> Prop) n i body s :
  P i s -> (forall j t, i <= j < i + Z.of_nat n -> P j t -> exists t', body j t = Ret t' /\ P (j + 1) t') ->
  exists s', res_for n i body s = Ret s' /\ P (i + Z.of_nat n) s'.
Proof.
  revert i s. induction n as [|n IH]; intros i s Hi Hstep; cbn [res_for].
  - exists s. by rewrite Z.add_0_r.
  - destruct (Hstep i s) as (t & -> & Ht); [lia|done|]. cbn [mbind res_bind].
    replace (i + Z.of_nat (S n)) with (i + 1 + Z.of_nat n) by lia. apply IH; [done|]. intros j u Hj. apply Hstep. lia.
Qed.

(** The first [i] rows of the matrix. *)
Definition rows (rho : list Z) (rank i : Z) (m : list scalar) : Prop :=
  zlen m = i * rank /\ forall i' j, 0 <= i' < i -> 0 <= j < rank -> matrix_entry rho i' j = Ret (entry m (i' * rank + j)).
Lemma rows_step rho rank i m v :
  0 <= i -> rows rho rank i m -> zlen v = rank -> (forall j, 0 <= j < rank -> matrix_entry rho i j = Ret (entry v j)) ->
  rows rho rank (i + 1) (m ++ v).
Proof.
  intros Hi [Hl Hm] Hv Hrow. split; [rewrite zlen_app; lia|]. intros i' j Hi' Hj. unfold entry.
  destruct (Z.eq_dec i' i) as [->|Hne].
  - rewrite lookup_app_r by (unfold zlen in Hl; lia). rewrite Hrow by done. unfold entry. do 3 f_equal. unfold zlen in Hl. lia.
  - rewrite lookup_app_l by (unfold zlen in Hl; nia). apply Hm; lia.
Qed.
Lemma matrix_expand_rows rho rank m : 0 <= rank -> matrix_expand rho rank = Ret m <-> rows rho rank rank m.
Proof.
  intros Hr. unfold matrix_expand.
  rewrite (res_for_ext _ _ _ (fun i out => res_for (Z.to_nat rank) 0 (fun j out => s ← matrix_entry rho i j; Ret (out ++ [s])) out))
    by (intros i out; apply res_for_ext; intros j o; apply matrix_step).
  split.
  - intros Hm. replace rank with (0 + Z.of_nat (Z.to_nat rank)) at 2 by lia.
    apply (res_for_inv (fun i out => rows rho rank i out) _ _ _ _ _) in Hm; [done| |].
    + split; [done|]. intros. lia.
    + intros i t t' Hi Ht (v & -> & Hlv & Hv)%res_collect. apply rows_step; [lia|done|unfold zlen; lia|]. intros j Hj.
      destruct (lookup_lt_is_Some_2 v (Z.to_nat j)) as [s Hs]; [lia|]. specialize (Hv _ _ Hs). rewrite Z2Nat.id, Z.add_0_l in Hv by lia.
      rewrite Hv. unfold entry. by rewrite Hs.
  - intros [Hl Hm].
    destruct (res_for_total (fun i out => out = take (Z.to_nat (i * rank)) m) (Z.to_nat rank) 0
      (fun i out => res_for (Z.to_nat rank) 0 (fun j out => s ← matrix_entry rho i j; Ret (out ++ [s])) out) []) as (m' & -> & ->).
    + done.
    + intros i t Hi ->. eexists. split; [|done]. apply res_collect. exists (take (Z.to_nat rank) (drop (Z.to_nat (i * rank)) m)).
      assert (i * rank + rank <= rank * rank) by nia. unfold zlen in Hl. split_and!.
      * replace ((i + 1) * rank) with (i * rank + rank) by lia. rewrite Z2Nat.inj_add by nia. by rewrite take_take_drop.
      * rewrite length_take, length_drop. nia.
      * intros k s Hs. apply lookup_take_Some in Hs as [Hs Hk]. rewrite lookup_drop in Hs. rewrite Z.add_0_l, Hm by lia. unfold entry.
        replace (Z.to_nat (i * rank + Z.of_nat k)) with (Z.to_nat (i * rank) + k)%nat by nia. by rewrite Hs.
    + f_equal. apply take_ge. unfold zlen in Hl. nia.
Qed.
Lemma matrix_expand_ok rho rank m :
  0 <= rank -> matrix_expand rho rank = Ret m ->
  vector_ok (rank * rank) m /\ mreps rank m (fun i j => coeff (scalar_inverse_ntt (entry m (i * rank + j)))).
Proof.
  intros Hr [Hl Hm]%matrix_expand_rows; [|done].
  assert (forall i j, 0 <= i < rank -> 0 <= j < rank -> scalar_ok (entry m (i * rank + j))) as Hok
    by (intros i j Hi Hj; by eapply matrix_entry_ok, Hm).
  split; [|intros i j Hi Hj; by apply reps_of, Hok]. rewrite <- (entries_entry m), Hl. apply entries_ok; [nia|]. intros k Hk.
  replace k with (k / rank * rank + k mod rank) by (rewrite Z.mul_comm; symmetry; apply Z.div_mod; lia).
  apply Hok; [split; [apply Z.div_pos; lia|apply Z.div_lt_upper_bound; lia]|apply Z.mod_pos_bound; lia].
Qed.
Lemma res_for_no_err {St} n i (body : Z -> St -> res St) s : (forall j t, body j t <> Err) -> res_for n i body s <> Err.
Proof.
  intros Hb. revert i s. induction n as [|n IH]; intros i s; cbn [res_for]; [done|]. pose proof (Hb i s). destruct (body i s); [apply IH|done..].
Qed.
(** Only a digest that fails makes the expansion fail. *)
Lemma matrix_expand_no_err rho rank : matrix_expand rho rank <> Err.
Proof.
  unfold matrix_expand. apply res_for_no_err. intros i out. apply res_for_no_err. intros j o. rewrite matrix_step. unfold matrix_entry.
  destruct (kem_init_ok SHAKE128) as (c & -> & _). cbn [of_option mbind res_bind].
  destruct (kem_update_ok c (slice rho 0 ML_KEM_RANDOM_BYTES ++ [u8 i; u8 j])) as (c' & -> & _). cbn [of_option mbind res_bind].
  unfold SampleNTT. by destruct (zlen _ =? 256).
Qed.
End Matrix.

(** ** The seed buffer *)

Lemma seedbuf_fill (b x y : list Z) : zlen b = 64 -> zlen x = 32 -> zlen y = 32 -> splice (splice b 0 x) 32 y = x ++ y.
Proof.
  unfold zlen. intros Hb Hx Hy. unfold splice. cbn [Z.to_nat]. rewrite take_0. cbn [app].
  change (Z.to_nat 0) with 0%nat. cbn [Nat.add take app]. change (Z.to_nat 32) with 32%nat.
  rewrite take_app_length' by lia. rewrite (drop_ge (x ++ _)); [by rewrite app_nil_r|]. rewrite length_app, length_drop. lia.
Qed.
Lemma half_first (x y : list Z) : zlen x = 32 -> slice (x ++ y) 0 32 = x.
Proof. apply slice_app_first. Qed.
Lemma half_second (x y : list Z) : zlen x = 32 -> zlen y = 32 -> slice (x ++ y) 32 32 = y.
Proof. intros Hx Hy. rewrite <- Hx at 1. rewrite <- (Z.add_0_r (zlen x)), slice_app_skip by lia. by apply slice_whole. Qed.
Lemma splice_first (b x : list Z) : zlen b = 64 -> zlen x = 32 -> slice (splice b 0 x) 0 32 = x.
Proof. intros Hb Hx. rewrite <- Hx. apply slice_splice_same; lia. Qed.

(** Run an operation on a key. *)
Ltac krun := cbv [mbind mret kem_bind kem_ret kget kset klift kcheck check]; cbn [of_option].

(** ** A key's public and private parts *)

Section Keys.
Context `{KL : KemDigestLaws} `{FU : Fuel} `{KE : KemEnv}.

Definition rho_of (key : ML_KEM_KEY) : list Z := peek (k_rho key) key.
Definition pkhash_of (key : ML_KEM_KEY) : list Z := peek (k_pkhash key) key.
Definition z_of (key : ML_KEM_KEY) : list Z := peek (k_z key) key.

(** The public vector, the matrix its seed determines, and the hash of the encoding. *)
Definition public_wf (key : ML_KEM_KEY) (t : list scalar) : Prop :=
  k_encoded_dk key = None /\ k_rho key = Some (InSeedbuf, 0) /\ k_pkhash key = Some (InSeedbuf, 32) /\
  vector_ok (rank_of key) t /\ (exists m, k_m key = Some m /\ matrix_expand (rho_of key) (rank_of key) = Ret m) /\
  hash_h (encode_pubkey key) = Some (pkhash_of key).
Definition private_wf (key : ML_KEM_KEY) (s : list scalar) : Prop :=
  vector_ok (rank_of key) s /\ zlen (k_zbuf key) = 64 /\ bytes_ok (k_zbuf key) /\ k_z key = Some (InZbuf, 0) /\
  (k_d key = None \/ k_d key = Some (InZbuf, 32)).
Definition key_wf (key : ML_KEM_KEY) : Prop :=
  is_variant (k_vinfo key) /\ zlen (k_seedbuf key) = 64 /\ bytes_ok (k_seedbuf key) /\
  match k_t key with
  | None => k_m key = None /\ k_s key = None /\
    (k_z key = None /\ k_d key = None \/ k_z key = Some (InSeedbuf, 0) /\ k_d key = Some (InSeedbuf, 32))
  | Some t => public_wf key t /\ match k_s key with None => k_z key = None /\ k_d key = None | Some s => private_wf key s end
  end.

(** The key with storage added, filled with a public part. *)
Definition with_public (t m : list scalar) (rho h : list Z) (key : ML_KEM_KEY) : ML_KEM_KEY :=
  set_m (Some m) (set_seedbuf (rho ++ h) (set_t (Some t) key)).

Lemma variant_rank key : is_variant (k_vinfo key) -> 2 <= rank_of key <= 4.
Proof. intros H'%variant_facts. apply H'. Qed.

(** What an empty key is after [add_storage]. *)
Definition prepared (key : ML_KEM_KEY) : Prop :=
  is_variant (k_vinfo key) /\ k_rho key = Some (InSeedbuf, 0) /\ k_pkhash key = Some (InSeedbuf, 32) /\ zlen (k_seedbuf key) = 64.

Lemma parse_pubkey_run inp key :
  prepared key -> zlen inp = pubkey_bytes (k_vinfo key) -> bytes_ok inp ->
  match parse_pubkey inp key with
  | (Ret _, key') => exists t m rho h, key' = with_public t m rho h key /\ vector_ok (rank_of key) t /\ zlen rho = 32 /\ zlen h = 32 /\
      bytes_ok rho /\ bytes_ok h /\ vector_encode t 12 (rank_of key) ++ rho = inp /\ hash_h inp = Some h /\ matrix_expand rho (rank_of key) = Ret m
  | (Err, key') => key' = key /\ vector_decode_12 inp (rank_of key) = None
  | (Spin, _) => matrix_expand (slice inp (vector_bytes (k_vinfo key)) 32) (rank_of key) = Spin
  end.
Proof.
  intros (Hvi & Hrho & Hpk & Hsb) Hl Hok. destruct (variant_facts _ Hvi) as (Hr & _ & _ & _ & Hvb & Hpb & _). fold (rank_of key) in *.
  unfold parse_pubkey. krun. fold (rank_of key).
  destruct (vector_decode_12 inp (rank_of key)) as [t|] eqn:Et; cbn [of_option]; [|done].
  rewrite vector_decode_12_prefix in Et by lia. apply vector_decode_12_spec in Et as [Ht Ht']; [|lia|apply slice_length; lia|by apply slice_ok].
  destruct (hash_h_ok (slice inp 0 (pubkey_bytes (k_vinfo key)))) as (h & Eh & Hlh & Hh). rewrite Eh. cbn [of_option].
  rewrite Hrho, Hpk. cbn [poke k_rho k_pkhash k_seedbuf set_t set_seedbuf]. rewrite Hrho. unfold peek. cbn [k_seedbuf].
  change ML_KEM_RANDOM_BYTES with 32.
  assert (zlen (slice inp (vector_bytes (k_vinfo key)) 32) = 32) as Hlr by (apply slice_length; lia).
  set (rho := slice inp (vector_bytes (k_vinfo key)) 32) in *. rewrite seedbuf_fill by done.
  match goal with |- context [k_seedbuf (set_seedbuf ?x ?k)] => change (k_seedbuf (set_seedbuf x k)) with x end. rewrite half_first by done.
  destruct (matrix_expand rho (rank_of key)) as [m| |] eqn:Em.
  - exists t, m, rho, h. unfold with_public. rewrite slice_whole in Eh by done.
    split_and!; [done|done|done|done|by apply slice_ok|done| |done|done].
    rewrite Ht'. unfold rho. rewrite Hvb. pose proof (slice_add inp 0 (rank_of key * 384) 32) as E. rewrite Z.add_0_l in E. rewrite <- E by lia. apply slice_whole. lia.
  - exfalso. by apply (matrix_expand_no_err rho (rank_of key)).
  - done.
Qed.

(** A key whose storage can be released. *)
Definition failed (key key' : ML_KEM_KEY) : Prop :=
  k_vinfo key' = k_vinfo key /\ is_Some (k_t key') /\ zlen (k_seedbuf key') = 64 /\ bytes_ok (k_seedbuf key') /\
  k_encoded_dk key' = k_encoded_dk key /\ k_prov_flags key' = k_prov_flags key.

(** Only the bytes of the public key are read. *)
Lemma parse_pubkey_long inp key :
  pubkey_bytes (k_vinfo key) <= zlen inp -> is_variant (k_vinfo key) ->
  parse_pubkey inp key = parse_pubkey (slice inp 0 (pubkey_bytes (k_vinfo key))) key.
Proof.
  intros Hl Hvi. destruct (variant_facts _ Hvi) as (Hr & _ & _ & _ & Hvb & Hpb & _). unfold parse_pubkey. krun.
  set (pb := pubkey_bytes (k_vinfo key)) in *. set (rank := vi_rank (k_vinfo key)) in *.
  assert (vector_decode_12 (slice inp 0 pb) rank = vector_decode_12 inp rank) as ->.
  { rewrite (vector_decode_12_prefix (slice inp 0 pb)), (vector_decode_12_prefix inp) by lia. by rewrite slice_slice_0 by lia. }
  rewrite slice_slice, slice_slice_0 by (change ML_KEM_RANDOM_BYTES with 32; lia). done.
Qed.

(** ** The states the operations lead to *)

(** An empty key with storage, a key with a public part, and one with both parts. *)
Definition empty_public (key : ML_KEM_KEY) : ML_KEM_KEY :=
  let st := uninit_storage (rank_of key) in
  mkML_KEM_KEY (k_vinfo key) (Some (InSeedbuf, 0)) (Some (InSeedbuf, 32)) (Some (tbuf st)) (Some (mbuf st)) (k_s key) (k_zbuf key)
    None None (k_prov_flags key) (zeros 64) (k_encoded_dk key).
Definition empty_private (key : ML_KEM_KEY) : ML_KEM_KEY :=
  let st := uninit_storage (rank_of key) in
  mkML_KEM_KEY (k_vinfo key) (Some (InSeedbuf, 0)) (Some (InSeedbuf, 32)) (Some (tbuf st)) (Some (mbuf st)) (Some (sbuf st)) (st_zbuf st)
    (Some (InZbuf, 0)) None (k_prov_flags key) (zeros 64) (k_encoded_dk key).
Definition public_key (key : ML_KEM_KEY) (t m : list scalar) (rho h : list Z) : ML_KEM_KEY :=
  mkML_KEM_KEY (k_vinfo key) (Some (InSeedbuf, 0)) (Some (InSeedbuf, 32)) (Some t) (Some m) (k_s key) (k_zbuf key)
    None None (k_prov_flags key) (rho ++ h) (k_encoded_dk key).
Definition private_key (key : ML_KEM_KEY) (t m s : list scalar) (rho h z d : list Z) (dptr : option ptr) : ML_KEM_KEY :=
  mkML_KEM_KEY (k_vinfo key) (Some (InSeedbuf, 0)) (Some (InSeedbuf, 32)) (Some t) (Some m) (Some s) (z ++ d)
    (Some (InZbuf, 0)) dptr (k_prov_flags key) (rho ++ h) (k_encoded_dk key).

(** The components of a public key belong together. *)
Definition public_parts (rank : Z) (t m : list scalar) (rho h : list Z) : Prop :=
  vector_ok rank t /\ zlen rho = 32 /\ zlen h = 32 /\ bytes_ok rho /\ bytes_ok h /\
  hash_h (vector_encode t 12 rank ++ rho) = Some h /\ matrix_expand rho rank = Ret m.

Lemma with_storage_public {A} (body : KM A) key :
  alloc_at PubStorage = true ->
  with_storage PubStorage false body key =
  match body (empty_public key) with (Err, key') => (Err, ossl_ml_kem_key_reset key') | r => r end.
Proof. intros Ha. unfold with_storage. rewrite Ha. cbn [add_storage mbind option_bind]. change (set_m _ _) with (empty_public key). by destruct (body (empty_public key)) as [[| |] ?]. Qed.
Lemma with_storage_private {A} (body : KM A) key :
  alloc_at PrvStorage = true ->
  with_storage PrvStorage true body key =
  match body (empty_private key) with (Err, key') => (Err, ossl_ml_kem_key_reset key') | r => r end.
Proof. intros Ha. unfold with_storage. rewrite Ha. cbn [add_storage mbind option_bind]. change (set_z _ _) with (empty_private key). by destruct (body (empty_private key)) as [[| |] ?]. Qed.

Lemma empty_failed key : failed key (empty_public key) /\ failed key (empty_private key).
Proof. split; split_and!; try done; try (by eexists); apply zeros_ok. Qed.

Lemma parse_public_run inp key :
  is_variant (k_vinfo key) -> zlen inp = pubkey_bytes (k_vinfo key) -> bytes_ok inp ->
  match parse_pubkey inp (empty_public key) with
  | (Ret _, key') => exists t m rho h, key' = public_key key t m rho h /\ public_parts (rank_of key) t m rho h /\
      vector_encode t 12 (rank_of key) ++ rho = inp
  | (Err, key') => failed key key' /\ vector_decode_12 inp (rank_of key) = None
  | (Spin, _) => matrix_expand (slice inp (vector_bytes (k_vinfo key)) 32) (rank_of key) = Spin
  end.
Proof.
  intros Hvi Hl Hok. pose proof (parse_pubkey_run inp (empty_public key)) as Hrun. change (rank_of (empty_public key)) with (rank_of key) in Hrun.
  specialize (Hrun ltac:(by split_and!) Hl Hok). destruct (parse_pubkey inp (empty_public key)) as [[u| |] key'];
    [|by destruct Hrun as [-> Hd]; split; [apply empty_failed|done]|done].
  destruct Hrun as (t & m & rho & h & -> & Ht & Hr & Hh & Hrb & Hhb & Hi & Eh & Em). exists t, m, rho, h.
  split_and!; [done| |done]. unfold public_parts. rewrite Hi. by split_and!.
Qed.

Lemma drop_slice (b : list Z) off k n : 0 <= off -> 0 <= k -> slice (drop (Z.to_nat off) b) k n = slice b (off + k) n.
Proof. intros Ho Hk. unfold slice. rewrite drop_drop. do 2 f_equal. lia. Qed.
Lemma zbuf_first (b x : list Z) : zlen b = 64 -> zlen x = 32 -> splice b 0 x = x ++ slice b 32 32.
Proof.
  intros Hb Hx. unfold splice, slice, zlen in *. change (Z.to_nat 0) with 0%nat. cbn [take app Nat.add]. change (Z.to_nat 32) with 32%nat.
  rewrite (take_ge (drop 32 b)) by (rewrite length_drop; lia). by replace (length x) with 32%nat by lia.
Qed.

Lemma zbuf_second (x y w : list Z) : zlen x = 32 -> zlen y = 32 -> zlen w = 32 -> splice (x ++ y) 32 w = x ++ w.
Proof.
  intros Hx Hy Hw. unfold splice, zlen in *. change (Z.to_nat 32) with 32%nat. rewrite take_app_length' by lia.
  rewrite (drop_ge (x ++ y)) by (rewrite length_app; lia). by rewrite app_nil_r.
Qed.

Lemma parse_private_run inp key :
  is_variant (k_vinfo key) -> zlen inp = prvkey_bytes (k_vinfo key) -> bytes_ok inp ->
  match parse_prvkey inp (empty_private key) with
  | (Ret _, key') => exists t m s rho h z, key' = private_key key t m s rho h z (zeros 32) None /\ public_parts (rank_of key) t m rho h /\
      vector_ok (rank_of key) s /\ zlen z = 32 /\ bytes_ok z /\
      vector_encode s 12 (rank_of key) ++ (vector_encode t 12 (rank_of key) ++ rho) ++ h ++ z = inp
  | (Err, key') => failed key key' /\
    let vb := vector_bytes (k_vinfo key) in let pb := pubkey_bytes (k_vinfo key) in
    (vector_decode_12 inp (rank_of key) = None \/ vector_decode_12 (slice inp vb pb) (rank_of key) = None \/
    hash_h (slice inp vb pb) <> Some (slice inp (vb + pb) 32))
  | (Spin, _) => matrix_expand (slice (slice inp (vector_bytes (k_vinfo key)) (pubkey_bytes (k_vinfo key))) (vector_bytes (k_vinfo key)) 32) (rank_of key) = Spin
  end.
Proof.
  intros Hvi Hl Hok. destruct (variant_facts _ Hvi) as (Hr & _ & _ & _ & Hvb & Hpb & Hprv & _). fold (rank_of key) in *.
  unfold parse_prvkey. krun. change (k_vinfo (empty_private key)) with (k_vinfo key). fold (rank_of key).
  destruct (vector_decode_12 inp (rank_of key)) as [s|] eqn:Es; cbn [of_option]; [|by split; [apply empty_failed|left]].
  rewrite vector_decode_12_prefix in Es by lia. apply vector_decode_12_spec in Es as [Hs Hs']; [|lia|apply slice_length; lia|by apply slice_ok].
  set (key1 := set_s (Some s) (empty_private key)). set (vb := vector_bytes (k_vinfo key)) in *. set (pb := pubkey_bytes (k_vinfo key)) in *.
  assert (slice (drop (Z.to_nat vb) inp) 0 pb = slice inp vb pb) as Ed by (rewrite drop_slice by lia; by rewrite Z.add_0_r).
  pose proof (parse_pubkey_long (drop (Z.to_nat vb) inp) key1) as Hlong. change (k_vinfo key1) with (k_vinfo key) in Hlong. fold pb in Hlong.
  rewrite Ed in Hlong. specialize (Hlong ltac:(unfold zlen in *; rewrite length_drop; lia) Hvi). rewrite Hlong.
  pose proof (parse_pubkey_run (slice inp vb pb) key1) as Hrun. change (k_vinfo key1) with (k_vinfo key) in Hrun. fold pb in Hrun.
  change (rank_of key1) with (rank_of key) in Hrun.
  specialize (Hrun ltac:(by split_and!) ltac:(apply slice_length; lia) ltac:(by apply slice_ok)).
  destruct (parse_pubkey (slice inp vb pb) key1) as [[u| |] key'];
    [|by destruct Hrun as [-> Hd]; split; [exact (proj2 (empty_failed key))|right; left]|done].
  destruct Hrun as (t & m & rho & h & -> & Ht & Hlr & Hlh & Hrb & Hhb & Hi & Eh & Em). cbn [of_option].
  unfold with_public. change (k_pkhash _) with (Some (InSeedbuf, 32)). cbn [peek]. change (k_seedbuf _) with (rho ++ h).
  change ML_KEM_RANDOM_BYTES with 32. rewrite half_second by done. rewrite !drop_drop.
  change ML_KEM_PKHASH_BYTES with 32.
  replace (Z.to_nat vb + Z.to_nat pb)%nat with (Z.to_nat (vb + pb)) by lia.
  rewrite drop_slice by lia. rewrite Z.add_0_r. case_bool_decide as Eq.
  2: { split; [|by right; right; rewrite Eh; intros [= ->]]. split_and!;
      [done|by eexists|change (zlen (rho ++ h) = 64); rewrite zlen_app; lia|change (bytes_ok (rho ++ h)); by apply Forall_app_2|done|done]. }
  change (k_z _) with (Some (InZbuf, 0)). cbn [poke]. change (k_zbuf _) with (zeros 64).
  replace (Z.to_nat (vb + pb) + Z.to_nat 32)%nat with (Z.to_nat (vb + pb + 32)) by lia. rewrite drop_slice, Z.add_0_r by lia.
  assert (zlen (slice inp (vb + pb + 32) 32) = 32) as Hlz by (apply slice_length; lia). set (z := slice inp (vb + pb + 32) 32) in *.
  exists t, m, s, rho, h, z. rewrite zbuf_first by done. split_and!; [done| |done|done|by apply slice_ok|].
  - unfold public_parts. rewrite Hi. by split_and!.
  - rewrite Hi, Hs', Eq. unfold z. rewrite <- (slice_add inp (vb + pb) 32 32), <- (slice_add inp vb pb (32 + 32)) by lia.
    rewrite <- Hvb. fold vb. pose proof (slice_add inp 0 vb (pb + (32 + 32))) as E. rewrite Z.add_0_l in E. rewrite <- E by lia. apply slice_whole. lia.
Qed.

(** ** Key generation *)

Definition retains_seed (key : ML_KEM_KEY) : bool := negb (Z.land (k_prov_flags key) ML_KEM_KEY_RETAIN_SEED =? 0).

(** Algorithm 13 of FIPS 203 with the seed [d]: the matrix seed, the secret and the
    error vector as sampled, the matrix, and the public vector in transformed form. *)
Definition kpke_keygen (vinfo : ML_KEM_VINFO) (d rho : list Z) (m s e t : list scalar) : Prop :=
  let rank := vi_rank vinfo in
  exists hashed sigma, hash_g (d ++ [rank]) = Some hashed /\ rho = slice hashed 0 32 /\ sigma = slice hashed 32 32 /\
    matrix_expand rho rank = Ret m /\
    gencbd_vector (CBD1 (evp_type vinfo)) 0 sigma rank = Some (s, rank) /\
    gencbd_vector (CBD1 (evp_type vinfo)) rank sigma rank = Some (e, rank + rank) /\
    t = matrix_mult_transpose_add (scalar_ntt <$> e) m (scalar_ntt <$> s) rank.

Lemma kpke_facts vinfo d rho m s e t :
  is_variant vinfo -> kpke_keygen vinfo d rho m s e t ->
  vector_ok (vi_rank vinfo) s /\ vector_ok (vi_rank vinfo) e /\ vector_ok (vi_rank vinfo) t /\
  mreps (vi_rank vinfo) m (fun i j => coeff (scalar_inverse_ntt (entry m (i * vi_rank vinfo + j)))) /\
  vreps (vi_rank vinfo) t (fun i x => coeff (entry e i) x +
    pdot (vi_rank vinfo) (fun j => coeff (scalar_inverse_ntt (entry m (j * vi_rank vinfo + i)))) (fun j => coeff (entry s j)) x) /\
  vector_ok (vi_rank vinfo) (scalar_ntt <$> s) /\ zlen rho = 32 /\ bytes_ok rho.
Proof.
  intros Hvi (hashed & sigma & Hh & -> & -> & Hm & Es & Ee & ->). destruct (variant_facts _ Hvi) as (Hr & _). set (rank := vi_rank vinfo) in *.
  destruct (gencbd_ok (CBD1 (evp_type vinfo)) 0 (slice hashed 32 32) rank) as (s' & Es' & _ & Hs & _); [apply CBD1_samples|lia|lia|lia|].
  rewrite Es in Es'. injection Es' as <-.
  destruct (gencbd_ok (CBD1 (evp_type vinfo)) rank (slice hashed 32 32) rank) as (e' & Ee' & _ & He & _); [apply CBD1_samples|lia|lia|lia|].
  rewrite Ee in Ee'. injection Ee' as <-. destruct (matrix_expand_ok _ rank _ ltac:(lia) Hm) as [_ HM].
  pose proof (matrix_mult_transpose_reps rank _ m _ _ _ _ ltac:(lia) (vreps_ntt rank e He) HM (vreps_ntt rank s Hs)) as Ht.
  destruct (hash_g_ok (d ++ [rank])) as (b & E & Hb & Hbok). rewrite Hh in E. injection E as <-.
  split_and!; [done|done|by eapply vreps_ok|done|done|by eapply vreps_ok, vreps_ntt|apply slice_length; lia|by apply slice_ok].
Qed.

Lemma genkey_run seed pubenc key :
  is_variant (k_vinfo key) -> zlen seed = 64 ->
  match genkey seed pubenc (empty_private key) with
  | (Ret enc, key') => exists rho m s e t h, kpke_keygen (k_vinfo key) (slice seed 0 32) rho m s e t /\
      public_parts (rank_of key) t m rho h /\
      enc = (if pubenc then Some (vector_encode t 12 (rank_of key) ++ rho) else None) /\
      key' = private_key key t m (scalar_ntt <$> s) rho h (slice seed 32 32)
        (if retains_seed key then slice seed 0 32 else zeros 32) (if retains_seed key then Some (InZbuf, 32) else None)
  | (Err, _) => False
  | (Spin, _) => exists hashed, hash_g (slice seed 0 32 ++ [rank_of key]) = Some hashed /\ matrix_expand (slice hashed 0 32) (rank_of key) = Spin
  end.
Proof.
  intros Hvi Hl. destruct (variant_facts _ Hvi) as (Hr & _). unfold genkey. krun. change ML_KEM_RANDOM_BYTES with 32.
  change (k_vinfo (empty_private key)) with (k_vinfo key). set (vinfo := k_vinfo key) in *. set (rank := vi_rank vinfo) in *.
  rewrite u8_small by lia.
  destruct (hash_g_ok (slice seed 0 32 ++ [rank])) as (hashed & Eh & Hlh & Hhok). rewrite Eh. cbn [of_option].
  change (k_rho (empty_private key)) with (Some (InSeedbuf, 0)). cbn [poke]. change (k_seedbuf (empty_private key)) with (zeros 64).
  assert (zlen (slice hashed 0 32) = 32) as Hlr by (apply slice_length; lia).
  set (rho := slice hashed 0 32) in *. set (sigma := slice hashed 32 32).
  set (key1 := set_seedbuf (splice (zeros 64) 0 rho) (empty_private key)).
  assert (peek (k_rho key1) key1 = rho) as Erho.
  { change (slice (splice (zeros 64) 0 rho) 0 32 = rho). by apply splice_first. }
  rewrite Erho. destruct (matrix_expand rho rank) as [m| |] eqn:Em; [|by apply (matrix_expand_no_err rho rank)|by exists hashed].
  destruct (gencbd_ok (CBD1 (evp_type vinfo)) 0 sigma rank) as (s & Es & Es' & Hs & _); [apply CBD1_samples|lia|lia|lia|].
  rewrite Es'. cbn [of_option].
  destruct (gencbd_ok (CBD1 (evp_type vinfo)) (0 + rank) sigma rank) as (e & Ee & Ee' & He & _); [apply CBD1_samples|lia|lia|lia|].
  rewrite Ee'. cbn [of_option]. set (t := matrix_mult_transpose_add _ _ _ _). rewrite Z.add_0_l in *.
  assert (kpke_keygen vinfo (slice seed 0 32) rho m s e t) as Hk by (exists hashed, sigma; by split_and!).
  destruct (kpke_facts _ _ _ _ _ _ _ Hvi Hk) as (_ & _ & Ht & _ & _ & _ & _ & Hrok). fold rank in Ht.
  set (key2 := set_t (Some t) (set_s (Some (scalar_ntt <$> s)) (set_m (Some m) key1))).
  assert (encode_pubkey key2 = vector_encode t 12 rank ++ rho) as Eenc by (unfold encode_pubkey; f_equal; exact Erho).
  assert (t <> []) as Htn by (intros E; rewrite E in Ht; destruct Ht as [Ht _]; change (zlen []) with 0 in Ht; lia).
  assert (hash_h_pubkey (vec (k_t key2)) (peek (k_rho key2) key2) = hash_h (vector_encode t 12 rank ++ rho)) as Einc.
  { change (peek (k_rho key2) key2) with (peek (k_rho key1) key1). rewrite Erho. change (vec (k_t key2)) with t.
    rewrite hash_h_pubkey_eq by done. unfold vector_encode, entries. destruct Ht as [Hlt _]. rewrite <- Hlt.
    rewrite <- (entries_entry t) at 1. unfold entries. by rewrite <- list_fmap_compose. }
  rewrite Einc, Eenc. destruct (hash_h_ok (vector_encode t 12 rank ++ rho)) as (h & Ehh & Hlhh & Hhhok).
  replace (if pubenc then hash_h (vector_encode t 12 rank ++ rho) else hash_h (vector_encode t 12 rank ++ rho))
    with (hash_h (vector_encode t 12 rank ++ rho)) by (by destruct pubenc). rewrite Ehh. cbn [of_option].
  set (b1 := splice (k_seedbuf key2) 32 h). assert (b1 = rho ++ h) as Eb by (by apply seedbuf_fill).
  change (poke (k_pkhash key2) h key2) with (set_seedbuf b1 key2). rewrite Eb.
  assert (zlen (slice seed 32 32) = 32) as Hlz by (apply slice_length; lia).
  assert (zlen (slice seed 0 32) = 32) as Hld by (apply slice_length; lia).
  set (z := slice seed 32 32) in *. set (d := slice seed 0 32) in *.
  assert (splice (zeros 64) 0 z = z ++ zeros 32) as Ez by (by apply zbuf_first).
  change (poke (k_z key2) z (set_seedbuf (rho ++ h) key2)) with (set_zbuf (splice (zeros 64) 0 z) (set_seedbuf (rho ++ h) key2)). rewrite Ez.
  set (key3 := set_d _ _). change (k_prov_flags key3) with (k_prov_flags key). fold (retains_seed key).
  assert (forall x, zlen x = 32 -> poke (k_d key3) x key3 = set_zbuf (z ++ x) key3) as Ed.
  { intros x Hx. change (poke (k_d key3) x key3) with (set_zbuf (splice (z ++ zeros 32) 32 x) key3). by rewrite zbuf_second. }
  destruct (retains_seed key).
  - rewrite Ed by done. exists rho, m, s, e, t, h. split_and!; [done|by split_and!|done|done].
  - rewrite Ed by done. exists rho, m, s, e, t, h. split_and!; [done|by split_and!|done|done].
Qed.

(** ** Well-formed results *)

Lemma join_64 (x y : list Z) : zlen x = 32 -> zlen y = 32 -> bytes_ok x -> bytes_ok y -> zlen (x ++ y) = 64 /\ bytes_ok (x ++ y).
Proof. intros Hx Hy Hxo Hyo. split; [rewrite zlen_app; lia|by apply Forall_app_2]. Qed.
(** A public part stored as the operations store it. *)
Lemma stored_public key' t m rho h :
  k_encoded_dk key' = None -> k_rho key' = Some (InSeedbuf, 0) -> k_pkhash key' = Some (InSeedbuf, 32) -> k_seedbuf key' = rho ++ h ->
  k_t key' = Some t -> k_m key' = Some m -> public_parts (rank_of key') t m rho h ->
  public_wf key' t /\ rho_of key' = rho /\ pkhash_of key' = h.
Proof.
  intros Hdk Hr Hp Hs Ht Hm (Htok & Hlr & Hlh & Hrb & Hhb & Eh & Em).
  assert (rho_of key' = rho) as Er by (unfold rho_of; rewrite Hr; cbn [peek]; rewrite Hs; by apply half_first).
  assert (pkhash_of key' = h) as Ep by (unfold pkhash_of; rewrite Hp; cbn [peek]; rewrite Hs; by apply half_second).
  split; [|done]. unfold public_wf. rewrite Er, Ep. split_and!; [done|done|done|done|by exists m|].
  unfold encode_pubkey. rewrite Ht. fold (rho_of key'). by rewrite Er.
Qed.
Lemma public_key_wf key t m rho h :
  is_variant (k_vinfo key) -> k_encoded_dk key = None -> k_s key = None -> public_parts (rank_of key) t m rho h ->
  key_wf (public_key key t m rho h).
Proof.
  intros Hvi Hdk Hs Hp. pose proof Hp as (_ & Hlr & Hlh & Hrb & Hhb & _). destruct (join_64 rho h Hlr Hlh Hrb Hhb) as [Hl Hok].
  split_and!; [done|done|done|]. cbn [k_t public_key k_s]. rewrite Hs. split; [|done]. by apply (stored_public _ t m rho h).
Qed.
Lemma private_key_wf key t m s rho h z d dptr :
  is_variant (k_vinfo key) -> k_encoded_dk key = None -> public_parts (rank_of key) t m rho h -> vector_ok (rank_of key) s ->
  zlen z = 32 -> zlen d = 32 -> bytes_ok z -> bytes_ok d -> dptr = None \/ dptr = Some (InZbuf, 32) ->
  key_wf (private_key key t m s rho h z d dptr).
Proof.
  intros Hvi Hdk Hp Hs Hlz Hld Hzb Hdb Hdp. pose proof Hp as (_ & Hlr & Hlh & Hrb & Hhb & _).
  destruct (join_64 rho h Hlr Hlh Hrb Hhb) as [Hl Hok]. destruct (join_64 z d Hlz Hld Hzb Hdb) as [Hl' Hok'].
  split_and!; [done|done|done|]. cbn [k_t private_key k_s]. split; [by apply (stored_public _ t m rho h)|]. by split_and!.
Qed.
Lemma failed_reset_wf key key' : is_variant (k_vinfo key) -> failed key key' -> key_wf (ossl_ml_kem_key_reset key').
Proof.
  intros Hvi (Ev & [t Ht] & Hl & Hok & _). unfold ossl_ml_kem_key_reset. rewrite Ht.
  destruct (ossl_ml_kem_have_prvkey key'); (split_and!; [change (is_variant (k_vinfo key')); by rewrite Ev|done|done|]); cbn; by auto.
Qed.
Lemma reset_key_wf key : key_wf key -> key_wf (ossl_ml_kem_key_reset key).
Proof.
  intros Hwf. pose proof Hwf as (Hvi & Hl & Hok & Ht). destruct (k_t key) as [t|] eqn:E.
  - apply (failed_reset_wf key); [done|]. by split_and!.
  - unfold ossl_ml_kem_key_reset. by rewrite E.
Qed.
End Keys.
