(* ===== verification/MlKemSpec.v ===== *)
(** * ML-KEM: what the library's functions guarantee

    The theorems on the exported operations: the life of a key object, key generation
    as FIPS 203 defines it, encodings and their parsers, encapsulation followed by
    decapsulation, implicit rejection, and what a duplicate of a key loses. *)
From stdpp Require Import relations.
From S2P Require Import Prelude.
From S2P Require Import ConstantTime.
From S2P Require Import ByteOrder.
From S2P Require Import KeyMgmt.
From S2P Require Import ZSum.
From S2P Require Import BitPack.
From S2P Require Import Result.
From S2P Require Import ModCong.
From S2P Require Import NttPass.
From S2P Require Import MlKemField.
From S2P Require Import MlKemNtt.
From S2P Require Import MlKemCode.
From S2P Require Import MlKemHash.
From S2P Require Import MlKemPke.
From S2P Require Import MlKemKey.
From S2P Require Import MlKemKeySpec.

Section Operations.
Context `{KL : KemDigestLaws} `{FU : Fuel} `{EL : KemEnvLaws}.

Lemma have_Some {A} (o : option A) x : o = Some x -> bool_decide (is_Some o) = true.
Proof. intros ->. by apply bool_decide_eq_true. Qed.
Lemma have_None {A} (o : option A) : o = None -> bool_decide (is_Some o) = false.
Proof. intros ->. apply bool_decide_eq_false. intros [x Hx]. done. Qed.
Lemma have_false {A} (o : option A) : bool_decide (is_Some o) = false -> o = None.
Proof. destruct o; [|done]. intros Hb%bool_decide_eq_false. by destruct Hb. Qed.
Lemma ctx_new_true : bool_decide (is_Some EVP_MD_CTX_new) = true.
Proof. apply bool_decide_eq_true, kem_new_ok. Qed.

(** A key that may receive key material. *)
Definition bare (key : ML_KEM_KEY) : bool := negb (ossl_ml_kem_have_pubkey key || ossl_ml_kem_have_dkenc key).
Lemma bare_spec key : bare key = true -> k_t key = None /\ k_encoded_dk key = None.
Proof.
  unfold bare. intros [Ht Hd]%negb_true_iff%orb_false_iff. split; by apply have_false.
Qed.
Lemma bare_wf key : key_wf key -> bare key = true -> k_s key = None /\ k_encoded_dk key = None.
Proof.
  intros (_ & _ & _ & Hw) [Ht Hd]%bare_spec. rewrite Ht in Hw. split; [apply Hw|done].
Qed.

(** The seed of a key generation: the one stashed in the key, or random. *)
Definition seed_source (key : ML_KEM_KEY) (seed : list Z) : Prop :=
  if ossl_ml_kem_have_seed key then ossl_ml_kem_encode_seed ML_KEM_SEED_BYTES key = Some seed
  else RAND_priv_bytes_ex ML_KEM_SEED_BYTES (vi_secbits (k_vinfo key)) = Some seed.
Lemma seed_source_ok key seed : key_wf key -> bare key = true -> seed_source key seed -> zlen seed = 64 /\ bytes_ok seed.
Proof.
  intros (_ & Hl & Hok & Hw) [Ht Hd]%bare_spec. rewrite Ht in Hw. unfold seed_source, ossl_ml_kem_encode_seed, ossl_ml_kem_have_seed.
  destruct Hw as (_ & _ & [[Hz Hdd]|[Hz Hdd]]); rewrite Hdd.
  - rewrite (have_None None) by done. apply rand_priv_ok.
  - rewrite (have_Some (Some _) _ eq_refl), Hz. cbn [negb orb peek]. rewrite Z.eqb_refl. cbn [negb]. intros [= <-].
    change ML_KEM_RANDOM_BYTES with 32. rewrite zlen_app, !slice_length by lia. split; [done|]. by apply Forall_app_2; apply slice_ok.
Qed.

(** ** Generating *)

Definition generated (key : ML_KEM_KEY) (seed : list Z) (enc : option (list Z)) (publen : option Z) (s e : list scalar) (key' : ML_KEM_KEY) : Prop :=
  exists rho m t h, kpke_keygen (k_vinfo key) (slice seed 0 32) rho m s e t /\ public_parts (rank_of key) t m rho h /\
    enc = (match publen with Some _ => Some (vector_encode t 12 (rank_of key) ++ rho) | None => None end) /\
    key' = private_key key t m (scalar_ntt <$> s) rho h (slice seed 32 32)
      (if retains_seed key then slice seed 0 32 else zeros 32) (if retains_seed key then Some (InZbuf, 32) else None).

Lemma genkey_cases publen key :
  key_wf key ->
  match ossl_ml_kem_genkey publen key with
  | (Ret enc, key') => bare key = true /\ exists seed s e, seed_source key seed /\ generated key seed enc publen s e key'
  | (Err, key') => key_wf key' /\ k_vinfo key' = k_vinfo key /\ (bare key = false -> key' = key) /\
      (bare key = false \/ (exists n, publen = Some n /\ n <> pubkey_bytes (k_vinfo key)) \/ (forall seed, ~ seed_source key seed) \/
       alloc_at PrvStorage = false)
  | (Spin, _) => exists seed hashed, seed_source key seed /\ hash_g (slice seed 0 32 ++ [rank_of key]) = Some hashed /\
      matrix_expand (slice hashed 0 32) (rank_of key) = Spin
  end.
Proof.
  intros Hwf. unfold ossl_ml_kem_genkey. krun. fold (bare key). destruct (bare key) eqn:Hb; [|by eauto 8].
  destruct (match publen with Some n => n =? _ | None => true end) eqn:Hn.
  2: { split_and!; [done|done|done|]. right; left. destruct publen as [n|]; [|done]. apply Z.eqb_neq in Hn. by eauto. }
  pose proof (fun seed => seed_source_ok key seed Hwf Hb) as Hseed. unfold seed_source in Hseed.
  assert (key_wf (set_d None (set_z None key))) as Hwf'.
  { pose proof Hwf as (Hvi & Hl & Hok & Hw). pose proof (bare_spec key Hb) as [Ht _]. rewrite Ht in Hw. split_and!; [done|done|done|].
    change (k_t (set_d None (set_z None key))) with (k_t key). rewrite Ht. destruct Hw as (Hm & Hs & _). split_and!; [done|done|by left]. }
  assert (forall seed key1, (key1 = key \/ key1 = set_d None (set_z None key)) -> seed_source key seed ->
    match with_storage PrvStorage true (genkey seed (bool_decide (is_Some publen))) key1 with
    | (Ret enc, key') => true = true /\ exists seed s e, seed_source key seed /\ generated key seed enc publen s e key'
    | (Err, key') => key_wf key' /\ k_vinfo key' = k_vinfo key /\ (true = false -> key' = key) /\
      (true = false \/ (exists n, publen = Some n /\ n <> pubkey_bytes (k_vinfo key)) \/ (forall seed, ~ seed_source key seed) \/
       alloc_at PrvStorage = false)
    | (Spin, _) => exists seed hashed, seed_source key seed /\ hash_g (slice seed 0 32 ++ [rank_of key]) = Some hashed /\
      matrix_expand (slice hashed 0 32) (rank_of key) = Spin
    end) as Hgen.
  { intros seed key1 Hk1 Hsrc. destruct (alloc_at PrvStorage) eqn:Ha.
    - rewrite with_storage_private by done. assert (empty_private key1 = empty_private key) as -> by (by destruct Hk1 as [-> | ->]).
      destruct (seed_source_ok key seed Hwf Hb Hsrc) as [Hls Hoks].
      pose proof (genkey_run seed (bool_decide (is_Some publen)) key ltac:(apply Hwf) Hls) as Hrun.
      destruct (genkey seed _ (empty_private key)) as [[enc| |] key']; [|done|by destruct Hrun as (hashed & ? & ?); exists seed, hashed].
      destruct Hrun as (rho & m & s & e & t & h & Hk & Hp & -> & ->). split; [done|]. exists seed, s, e. split; [done|].
      exists rho, m, t, h. split_and!; [done|done| |done]. by destruct publen.
    - unfold with_storage. rewrite Ha. cbn [add_storage mbind option_bind]. unfold ossl_ml_kem_key_reset.
      pose proof (bare_spec key Hb) as [Ht _]. destruct Hk1 as [-> | ->]; [rewrite Ht; by split_and!; [..|right; right; right]|].
      change (k_t (set_d None (set_z None key))) with (k_t key). rewrite Ht. by split_and!; [..|right; right; right]. }
  destruct (ossl_ml_kem_have_seed key) eqn:Hh.
  - destruct (ossl_ml_kem_encode_seed ML_KEM_SEED_BYTES key) as [seed|] eqn:Es; cbn [of_option];
      [|by split_and!; [..|right; right; left; intros seed; unfold seed_source; rewrite Hh, Es]].
    rewrite ctx_new_true. apply Hgen; [by right|]. unfold seed_source. by rewrite Hh.
  - destruct (RAND_priv_bytes_ex _ _) as [seed|] eqn:Es; cbn [of_option];
      [|by split_and!; [..|right; right; left; intros seed; unfold seed_source; rewrite Hh, Es]].
    rewrite ctx_new_true. apply Hgen; [by left|]. unfold seed_source. by rewrite Hh.
Qed.

Lemma generated_wf key seed enc publen s e key' :
  key_wf key -> bare key = true -> zlen seed = 64 -> bytes_ok seed -> generated key seed enc publen s e key' ->
  key_wf key' /\ k_vinfo key' = k_vinfo key.
Proof.
  intros Hwf Hb Hl Hok (rho & m & t & h & Hk & Hp & _ & ->). split; [|done]. pose proof Hwf as (Hvi & _). pose proof (bare_spec key Hb) as [_ Hd].
  apply private_key_wf; [done|done|done|by apply (kpke_facts _ _ _ _ _ _ _ Hvi Hk)|apply slice_length; lia| |by apply slice_ok| |].
  - destruct (retains_seed key); [apply slice_length; lia|done].
  - destruct (retains_seed key); [by apply slice_ok|apply zeros_ok].
  - destruct (retains_seed key); auto.
Qed.

(** ** Parsing *)

Lemma parse_public_cases inp key :
  key_wf key -> bytes_ok inp ->
  match ossl_ml_kem_parse_public_key inp key with
  | (Ret _, key') => bare key = true /\ exists t m rho h, key' = public_key key t m rho h /\ public_parts (rank_of key) t m rho h /\
      vector_encode t 12 (rank_of key) ++ rho = inp
  | (Err, key') => key_wf key' /\ k_vinfo key' = k_vinfo key /\ (bare key = false -> key' = key) /\
      (bare key = false \/ zlen inp <> pubkey_bytes (k_vinfo key) \/ alloc_at PubStorage = false \/ vector_decode_12 inp (rank_of key) = None)
  | (Spin, _) => matrix_expand (slice inp (vector_bytes (k_vinfo key)) 32) (rank_of key) = Spin
  end.
Proof.
  intros Hwf Hok. pose proof Hwf as (Hvi & _). unfold ossl_ml_kem_parse_public_key. krun. fold (bare key).
  destruct (bare key) eqn:Hb; [|by eauto 8]. pose proof (bare_spec key Hb) as [Ht Hd].
  destruct (Z.eqb_spec (zlen inp) (pubkey_bytes (k_vinfo key))) as [Hl|]; [|by eauto 8].
  rewrite ctx_new_true. destruct (alloc_at PubStorage) eqn:Ha.
  - rewrite with_storage_public by done. pose proof (parse_public_run inp key Hvi Hl Hok) as Hrun.
    destruct (parse_pubkey inp (empty_public key)) as [[u| |] key']; [by split| |done].
    destruct Hrun as [Hf Hdec]. split_and!; [by apply (failed_reset_wf key)| |done|by eauto 8]. destruct Hf as (Ev & [t' Ht'] & _).
    unfold ossl_ml_kem_key_reset. rewrite Ht'. by destruct (ossl_ml_kem_have_prvkey key').
  - unfold with_storage. rewrite Ha. cbn [add_storage mbind option_bind]. unfold ossl_ml_kem_key_reset. rewrite Ht. by eauto 8.
Qed.
Lemma parse_private_cases inp key :
  key_wf key -> bytes_ok inp ->
  match ossl_ml_kem_parse_private_key inp key with
  | (Ret _, key') => bare key = true /\ exists t m s rho h z, key' = private_key key t m s rho h z (zeros 32) None /\
      public_parts (rank_of key) t m rho h /\ vector_ok (rank_of key) s /\ zlen z = 32 /\ bytes_ok z /\
      vector_encode s 12 (rank_of key) ++ (vector_encode t 12 (rank_of key) ++ rho) ++ h ++ z = inp
  | (Err, key') => key_wf key' /\ k_vinfo key' = k_vinfo key /\ (bare key = false -> key' = key) /\
      (bare key = false \/ zlen inp <> prvkey_bytes (k_vinfo key) \/ alloc_at PrvStorage = false \/
       let vb := vector_bytes (k_vinfo key) in let pb := pubkey_bytes (k_vinfo key) in
       vector_decode_12 inp (rank_of key) = None \/ vector_decode_12 (slice inp vb pb) (rank_of key) = None \/
       hash_h (slice inp vb pb) <> Some (slice inp (vb + pb) 32))
  | (Spin, _) => matrix_expand (slice (slice inp (vector_bytes (k_vinfo key)) (pubkey_bytes (k_vinfo key))) (vector_bytes (k_vinfo key)) 32) (rank_of key) = Spin
  end.
Proof.
  intros Hwf Hok. pose proof Hwf as (Hvi & _). unfold ossl_ml_kem_parse_private_key. krun. fold (bare key).
  destruct (bare key) eqn:Hb; [|by eauto 8]. pose proof (bare_spec key Hb) as [Ht Hd].
  destruct (Z.eqb_spec (zlen inp) (prvkey_bytes (k_vinfo key))) as [Hl|]; [|by eauto 8].
  rewrite ctx_new_true. destruct (alloc_at PrvStorage) eqn:Ha.
  - rewrite with_storage_private by done. pose proof (parse_private_run inp key Hvi Hl Hok) as Hrun.
    destruct (parse_prvkey inp (empty_private key)) as [[u| |] key']; [by split| |done].
    destruct Hrun as [Hf Hdec]. split_and!; [by apply (failed_reset_wf key)| |done|by eauto 8]. destruct Hf as (Ev & [t' Ht'] & _).
    unfold ossl_ml_kem_key_reset. rewrite Ht'. by destruct (ossl_ml_kem_have_prvkey key').
  - unfold with_storage. rewrite Ha. cbn [add_storage mbind option_bind]. unfold ossl_ml_kem_key_reset. rewrite Ht. by eauto 8.
Qed.
Lemma parsed_public_wf key t m rho h :
  key_wf key -> bare key = true -> public_parts (rank_of key) t m rho h -> key_wf (public_key key t m rho h).
Proof. intros Hwf Hb Hp. destruct (bare_wf key Hwf Hb) as [Hs Hd]. apply public_key_wf; [apply Hwf|done|done|done]. Qed.
Lemma parsed_private_wf key t m s rho h z :
  key_wf key -> bare key = true -> public_parts (rank_of key) t m rho h -> vector_ok (rank_of key) s -> zlen z = 32 -> bytes_ok z ->
  key_wf (private_key key t m s rho h z (zeros 32) None).
Proof.
  intros Hwf Hb Hp Hs Hlz Hz. destruct (bare_wf key Hwf Hb) as [_ Hd].
  apply private_key_wf; [apply Hwf|done|done|done|done|done|done|apply zeros_ok|by left].
Qed.

(** ** Stashing a seed *)

Lemma set_seed_cases seed key :
  key_wf key -> bytes_ok seed ->
  match ossl_ml_kem_set_seed seed key with
  | (Ret _, key') => key_wf key' /\ k_vinfo key' = k_vinfo key /\ k_t key = None /\ k_t key' = None /\ k_encoded_dk key' = k_encoded_dk key /\
      k_prov_flags key' = k_prov_flags key /\ zlen seed = 64 /\ ossl_ml_kem_encode_seed ML_KEM_SEED_BYTES key' = Some seed
  | (Err, key') => key' = key /\ (ossl_ml_kem_have_pubkey key = true \/ ossl_ml_kem_have_seed key = true \/ zlen seed <> 64)
  | (Spin, _) => False
  end.
Proof.
  intros (Hvi & Hl & Hok & Hw) Hsok. unfold ossl_ml_kem_set_seed. krun.
  destruct (ossl_ml_kem_have_pubkey key) eqn:Hp; [cbn [orb negb]; by eauto 8|]. destruct (ossl_ml_kem_have_seed key) eqn:Hs; [cbn [orb negb]; by eauto 8|].
  destruct (Z.eqb_spec (zlen seed) ML_KEM_SEED_BYTES) as [Hls|]; [|cbn [orb negb]; by eauto 8]. change ML_KEM_SEED_BYTES with 64 in Hls. cbn [negb orb].
  apply have_false in Hp. rewrite Hp in Hw. destruct Hw as (Hm & Hss & _). change ML_KEM_RANDOM_BYTES with 32. cbn [poke].
  set (d := slice seed 0 32). set (z := slice seed 32 32).
  assert (zlen d = 32 /\ zlen z = 32) as [Hld Hlz] by (split; apply slice_length; lia).
  match goal with |- context [set_seedbuf ?b (set_seedbuf ?b' ?k)] => set (b2 := b); set (key' := set_seedbuf b2 (set_seedbuf b' k)) end.
  change (k_seedbuf _) with (splice (k_seedbuf key) 32 d) in b2.
  assert (zlen (splice (k_seedbuf key) 32 d) = 64) as Hl1 by (rewrite splice_zlen; lia).
  assert (zlen b2 = 64) as Hl2 by (unfold b2; rewrite splice_zlen; lia).
  assert (slice b2 32 32 = d) as Ed by (unfold b2; rewrite slice_splice_after by lia; rewrite <- Hld at 3; apply slice_splice_same; lia).
  assert (slice b2 0 32 = z) as Ez by (by apply splice_first).
  split_and!; [|done|done|done|done|done|done|].
  - split_and!; [done|done| |].
    + unfold key', b2. cbn [k_seedbuf set_seedbuf]. by apply splice_ok, slice_ok; [apply splice_ok, slice_ok|].
    + change (k_t key') with (k_t key). rewrite Hp. split_and!; [done|done|by right].
  - unfold ossl_ml_kem_encode_seed, ossl_ml_kem_have_seed. change (k_d key') with (Some (InSeedbuf, 32)). change (k_z key') with (Some (InSeedbuf, 0)).
    rewrite (have_Some (Some _) _ eq_refl), Z.eqb_refl. cbn [negb orb peek]. change (k_seedbuf key') with b2.
    change ML_KEM_RANDOM_BYTES with 32. rewrite Ed, Ez. unfold d, z. f_equal.
    pose proof (slice_add seed 0 32 32) as E. rewrite Z.add_0_l in E. rewrite <- E by lia. by apply slice_whole.
Qed.
End Operations.

(** ** Comparing ciphertexts *)

Lemma memcmp_spec a b : zlen a = zlen b -> bytes_ok a -> bytes_ok b ->
  0 <= CRYPTO_memcmp a b (zlen a) < 256 /\ (CRYPTO_memcmp a b (zlen a) = 0 <-> a = b).
Proof.
  intros Hl Ha Hb. unfold CRYPTO_memcmp.
  set (P := fun i x => 0 <= x < 256 /\ (x = 0 <-> forall j, 0 <= j < i -> byte_at a j = byte_at b j)).
  assert (P (0 + Z.of_nat (Z.to_nat (zlen a)))
    (for_each (Z.to_nat (zlen a)) 0 (fun i x => u8 (Z.lor x (Z.lxor (byte_at a i) (byte_at b i)))) 0)) as [Hr Hz].
  { apply for_each_inv.
    - split; [lia|]. split; [intros _ j Hj; lia|done].
    - intros i x Hi [Hx Hz]. pose proof (byte_at_ok a i Ha) as Hai. pose proof (byte_at_ok b i Hb) as Hbi. unfold is_byte in *.
      pose proof (lxor_range 8 ltac:(lia) _ _ Hai Hbi) as Hxor. pose proof (lor_range 8 ltac:(lia) x _ Hx Hxor) as Hor.
      change (2 ^ 8) with 256 in *. rewrite u8_small by done. split; [done|]. rewrite Z.lor_eq_0_iff, Hz, Z.lxor_eq_0_iff. split.
      + intros [Hj He] j Hlt. destruct (Z.eq_dec j i) as [->|]; [done|]. apply Hj. lia.
      + intros Hj. split; [intros j Hlt; apply Hj; lia|apply Hj; lia]. }
  split; [done|]. rewrite Hz. replace (0 + Z.of_nat (Z.to_nat (zlen a))) with (zlen a) by (pose proof (zlen_nonneg a); lia). split; [|by intros ->].
  intros He. apply coeff_ext; [done|]. exact He.
Qed.
Lemma eq_mask_8 x : 0 <= x < 256 -> constant_time_eq_int_8 0 x = mask_of 8 (x =? 0).
Proof.
  intros Hx. unfold constant_time_eq_int_8, constant_time_eq_8, constant_time_eq. rewrite (u32_small x) by lia. change (u32 0) with 0.
  rewrite ct_eq_mask by (change (2 ^ 32) with 4294967296; lia). rewrite Z.eqb_sym. by destruct (x =? 0).
Qed.
Lemma select_bytes c a b : zlen a = 32 -> zlen b = 32 -> bytes_ok a -> bytes_ok b ->
  (fun i => constant_time_select_8 (mask_of 8 c) (byte_at a i) (byte_at b i)) <$> seqZ 0 32 = if c then a else b.
Proof.
  intros Hla Hlb Ha Hb. assert (zlen (if c then a else b) = 32) as Hl by (by destruct c).
  assert ((fun i => constant_time_select_8 (mask_of 8 c) (byte_at a i) (byte_at b i)) <$> seqZ 0 32 = byte_at (if c then a else b) <$> seqZ 0 32) as ->.
  { apply list_fmap_ext. intros k i _. rewrite constant_time_select_8_spec by (by apply byte_at_ok). by destruct c. }
  set (l := if c then a else b) in *. clearbody l. apply list_eq. intros i. rewrite list_lookup_fmap. unfold zlen in Hl.
  destruct (decide (i < 32)%nat) as [Hi|Hi].
  - rewrite lookup_seqZ_lt by lia. cbn [fmap option_fmap option_map]. rewrite <- byte_at_lookup by (unfold zlen; lia). f_equal. lia.
  - rewrite lookup_seqZ_ge by lia. by rewrite lookup_ge_None_2 by lia.
Qed.

Section Theorems.
Context `{KL : KemDigestLaws} `{FU : Fuel} `{EL : KemEnvLaws}.

(** ** Encapsulation and decapsulation *)

Lemma key_public key t : key_wf key -> k_t key = Some t -> public_wf key t.
Proof. intros (_ & _ & _ & Hw) Ht. rewrite Ht in Hw. apply Hw. Qed.
Lemma key_private key s : key_wf key -> k_s key = Some s -> exists t, k_t key = Some t /\ private_wf key s.
Proof.
  intros (_ & _ & _ & Hw) Hs. rewrite Hs in Hw. destruct (k_t key) as [t|]; [exists t; split; [done|apply Hw]|]. by destruct Hw as (_ & ? & _).
Qed.
Lemma pkhash_ok key t : key_wf key -> k_t key = Some t -> zlen (pkhash_of key) = 32 /\ bytes_ok (pkhash_of key).
Proof.
  intros Hwf Ht. destruct (key_public key t Hwf Ht) as (_ & _ & Hp & _). unfold pkhash_of. rewrite Hp. cbn [peek].
  destruct Hwf as (_ & Hl & Hok & _). change ML_KEM_RANDOM_BYTES with 32. split; [apply slice_length; lia|by apply slice_ok].
Qed.
(** Encrypting to a well-formed key succeeds. *)
Lemma encrypt_total key t msg r :
  key_wf key -> k_t key = Some t -> zlen msg = 32 -> bytes_ok msg ->
  exists c, encrypt_cpa (k_vinfo key) t (vec (k_m key)) msg r = Some c /\ zlen c = ctext_bytes (k_vinfo key) /\ bytes_ok c.
Proof.
  intros Hwf Ht Hl Hok. pose proof Hwf as (Hvi & _). destruct (variant_facts _ Hvi) as (Hr & _).
  destruct (key_public key t Hwf Ht) as (_ & _ & _ & Htok & (m & Hm & Em) & _). rewrite Hm.
  destruct (matrix_expand_ok _ (rank_of key) _ ltac:(unfold rank_of; lia) Em) as [_ HM].
  destruct (encryption_values_ok (k_vinfo key) Hvi t m _ _ (vreps_of _ t Htok) HM msg r Hl Hok)
    as (y & e1 & e2 & u & v & _ & _ & _ & _ & Hu & Hv & _ & _ & E).
  eexists. split; [exact E|]. by apply (ciphertext_ok (k_vinfo key) Hvi u v).
Qed.
Lemma decrypt_bytes vinfo s c :
  is_variant vinfo -> vector_ok (vi_rank vinfo) s -> zlen c = ctext_bytes vinfo -> bytes_ok c ->
  zlen (decrypt_cpa vinfo s c) = 32 /\ bytes_ok (decrypt_cpa vinfo s c).
Proof.
  intros Hvi Hs Hl Hok. destruct (variant_facts _ Hvi) as (Hr & Hdu & Hdv & Hub & _ & _ & _ & Hct). unfold decrypt_cpa.
  set (w := scalar_sub _ _). assert (scalar_ok w) as Hw.
  { assert (forall b bits, bytes_ok b -> zlen b = 32 * bits -> 2 <= bits <= 11 -> scalar_ok (scalar_decompress (scalar_decode b bits) bits)) as Hdd.
    { intros b bits Hb Hlb Hbits. rewrite scalar_decode_spec by (done || lia).
      apply scalar_decompress_ok; [apply bit_unpack_len|apply bit_unpack_digits; lia|lia]. }
    unfold w. apply scalar_sub_ok.
    - apply Hdd; [by apply slice_ok| |lia]. unfold V_SCALAR_BYTES. change (DEGREE / 8) with 32. apply slice_length; nia.
    - eapply reps_inverse, inner_product_reps; [lia|apply vreps_of, Hs|]. apply vreps_of. unfold vector_decode_decompress_ntt.
      apply entries_ok; [lia|]. intros i Hi. apply (reps_ntt (scalar_decompress _ _)). apply Hdd; [by apply slice_ok| |lia].
      replace (vi_du vinfo * DEGREE / 8) with (32 * vi_du vinfo) by (change DEGREE with 256; dlia). apply slice_length; nia. }
  clearbody w. destruct (scalar_compress_ok w 1 Hw ltac:(lia)) as [Hlc Hdg]. rewrite scalar_encode_1_spec by done.
  split; [rewrite bit_pack_length, Hlc; done|apply bit_pack_ok].
Qed.

(** The steps of Algorithm 18 of FIPS 203 on a well-formed key. *)
Lemma decap_run key s t c :
  key_wf key -> k_s key = Some s -> k_t key = Some t -> zlen c = ctext_bytes (k_vinfo key) -> bytes_ok c ->
  let m' := decrypt_cpa (k_vinfo key) s c in
  exists Kr kbar c', hash_g (m' ++ pkhash_of key) = Some Kr /\ zlen Kr = 64 /\ kdf (z_of key) c = Some kbar /\ zlen kbar = 32 /\
    encrypt_cpa (k_vinfo key) t (vec (k_m key)) m' (slice Kr 32 32) = Some c' /\ zlen c' = ctext_bytes (k_vinfo key) /\
    decap c key = Some (if bool_decide (c = c') then slice Kr 0 32 else kbar).
Proof.
  intros Hwf Hs Ht Hl Hok m'. pose proof Hwf as (Hvi & _). destruct (key_private key s Hwf Hs) as (t' & _ & Hso & _).
  destruct (decrypt_bytes _ s c Hvi Hso Hl Hok) as [Hlm Hmok]. fold m' in Hlm, Hmok.
  destruct (hash_g_ok (m' ++ pkhash_of key)) as (Kr & EK & HlK & HKok). destruct (kdf_ok (z_of key) c) as (kbar & Ek & Hlk & Hkok).
  destruct (encrypt_total key t m' (slice Kr 32 32) Hwf Ht Hlm Hmok) as (c' & Ec & Hlc & Hcok).
  exists Kr, kbar, c'. split_and!; [done|done|done|done|done|done|]. unfold decap. fold (z_of key) (pkhash_of key).
  rewrite slice_whole by done. rewrite Ek. cbn [mbind option_bind]. rewrite Hs, Ht. change (vec (Some ?x)) with x. fold m'. rewrite EK. cbn [mbind option_bind].
  change ML_KEM_SHARED_SECRET_BYTES with 32. change ML_KEM_RANDOM_BYTES with 32. rewrite Ec. cbn [mbind option_bind].
  rewrite <- Hl. destruct (memcmp_spec c c' ltac:(lia) Hok Hcok) as [Hr Hz]. rewrite eq_mask_8 by done.
  assert ((CRYPTO_memcmp c c' (zlen c) =? 0) = bool_decide (c = c')) as ->.
  { case_bool_decide as E; [apply Z.eqb_eq; by apply Hz|apply Z.eqb_neq; by rewrite Hz]. }
  f_equal. rewrite <- (select_bytes _ (slice Kr 0 32) kbar); [|apply slice_length; lia|done|by apply slice_ok|done].
  apply list_fmap_ext. intros k i Hi. apply lookup_seqZ in Hi as [-> Hi]. f_equal. unfold byte_at, slice.
  cbn [Z.to_nat]. rewrite drop_0, lookup_take_lt; [done|]. lia.
Qed.

(** Algorithm 18 of FIPS 203, ML-KEM.Decaps_internal. *)
Definition Decaps (key : ML_KEM_KEY) (s t : list scalar) (c : list Z) : option (list Z) :=
  let m' := decrypt_cpa (k_vinfo key) s c in
  Kr ← hash_g (m' ++ pkhash_of key);
  kbar ← kdf (z_of key) c;
  c' ← encrypt_cpa (k_vinfo key) t (vec (k_m key)) m' (slice Kr 32 32);
  Some (if bool_decide (c = c') then slice Kr 0 32 else kbar).

Lemma decap_api key s t c buf :
  key_wf key -> k_s key = Some s -> k_t key = Some t -> zlen c = ctext_bytes (k_vinfo key) -> bytes_ok c -> zlen buf = 32 ->
  exists K, Decaps key s t c = Some K /\ zlen K = 32 /\ ossl_ml_kem_decap (Some buf) (Some c) key = Wrote true K.
Proof.
  intros Hwf Hs Ht Hl Hok Hb. destruct (decap_run key s t c Hwf Hs Ht Hl Hok) as (Kr & kbar & c' & EK & HlK & Ek & Hlk & Ec & Hlc & Ed).
  eexists. split; [unfold Decaps; rewrite EK; cbn [mbind option_bind]; rewrite Ek; cbn [mbind option_bind]; rewrite Ec; done|].
  split; [case_bool_decide; [apply slice_length; lia|done]|].
  unfold ossl_ml_kem_decap, ossl_ml_kem_have_prvkey. rewrite (have_Some _ s) by done. cbn [negb]. rewrite Hb, Hl, ctx_new_true, !Z.eqb_refl.
  cbn [andb]. by rewrite Ed.
Qed.

(** ** The other party's key *)

(** The generated key itself, or any key object into which its encoded public key was parsed. *)
Definition public_peer (key peer : ML_KEM_KEY) : Prop :=
  peer = key \/ exists key1 u, key_wf key1 /\ k_vinfo key1 = k_vinfo key /\ ossl_ml_kem_parse_public_key (encode_pubkey key) key1 = (Ret u, peer).

Lemma parts_unique rank t m rho h t' m' rho' h' :
  0 <= rank -> public_parts rank t m rho h -> public_parts rank t' m' rho' h' ->
  vector_encode t 12 rank ++ rho = vector_encode t' 12 rank ++ rho' -> t = t' /\ m = m' /\ rho = rho' /\ h = h'.
Proof.
  intros Hr (Ht & Hlr & _ & _ & _ & Eh & Em) (Ht' & Hlr' & _ & _ & _ & Eh' & Em') E.
  assert (t = t') as <-.
  { pose proof (vector_decode_encode rank t rho Hr Ht) as H1. rewrite E, vector_decode_encode in H1 by done. by injection H1. }
  apply app_inv_head in E as <-. rewrite Eh in Eh'. rewrite Em in Em'. injection Eh' as <-. by injection Em' as <-.
Qed.
Lemma encode_pubkey_parts key t rho :
  k_t key = Some t -> rho_of key = rho -> encode_pubkey key = vector_encode t 12 (rank_of key) ++ rho.
Proof. intros Ht <-. unfold encode_pubkey. by rewrite Ht. Qed.
Lemma wf_parts key t :
  key_wf key -> k_t key = Some t -> exists m, k_m key = Some m /\ public_parts (rank_of key) t m (rho_of key) (pkhash_of key).
Proof.
  intros Hwf Ht. pose proof (key_public key t Hwf Ht) as (_ & Hr & _ & Htok & (m & Hm & Em) & Eh). destruct (pkhash_ok key t Hwf Ht) as [Hlp Hpok].
  exists m. split; [done|]. destruct Hwf as (_ & Hl & Hok & _). split_and!; [done| |done| |done| |done].
  - unfold rho_of. rewrite Hr. cbn [peek]. apply slice_length; change ML_KEM_RANDOM_BYTES with 32; lia.
  - unfold rho_of. rewrite Hr. cbn [peek]. by apply slice_ok.
  - rewrite <- Eh. unfold encode_pubkey. by rewrite Ht.
Qed.
Lemma encode_pubkey_ok key t :
  key_wf key -> k_t key = Some t -> zlen (encode_pubkey key) = pubkey_bytes (k_vinfo key) /\ bytes_ok (encode_pubkey key).
Proof.
  intros Hwf Ht. destruct (wf_parts key t Hwf Ht) as (m & _ & Htok & Hlr & _ & Hrok & _). pose proof Hwf as (Hvi & _).
  destruct (variant_facts _ Hvi) as (_ & _ & _ & _ & Hvb & Hpb & _). destruct (vector_encode_12_ok _ t Htok) as [Hl Hok].
  unfold encode_pubkey. rewrite Ht. fold (rho_of key). change (vec (Some t)) with t. unfold rank_of in *.
  rewrite zlen_app. split; [lia|by apply Forall_app_2].
Qed.
Lemma peer_parts key t peer :
  key_wf key -> k_t key = Some t -> public_peer key peer ->
  k_vinfo peer = k_vinfo key /\ k_t peer = Some t /\ k_m peer = k_m key /\ pkhash_of peer = pkhash_of key /\ key_wf peer.
Proof.
  intros Hwf Ht [->|(key1 & u & Hwf1 & Hv & E)]; [done|]. destruct (encode_pubkey_ok key t Hwf Ht) as [Hl Hok].
  pose proof (parse_public_cases (encode_pubkey key) key1 Hwf1 Hok) as Hc. rewrite E in Hc.
  destruct Hc as (Hb & t' & m' & rho' & h' & -> & Hp' & Ee). destruct (wf_parts key t Hwf Ht) as (m & Hm & Hp).
  assert (rank_of key1 = rank_of key) as Hrk by (unfold rank_of; by rewrite Hv). rewrite Hrk in *.
  rewrite (encode_pubkey_parts key t (rho_of key) Ht eq_refl) in Ee. assert (2 <= rank_of key <= 4) as Hr by (apply variant_rank, Hwf).
  destruct (parts_unique (rank_of key) _ _ _ _ _ _ _ _ ltac:(lia) Hp' Hp Ee) as (-> & -> & Er & Eh).
  assert (key_wf (public_key key1 t m rho' h')) as Hwf' by (apply parsed_public_wf; [done|done|by rewrite Hrk]).
  split_and!; [done|done|done| |done]. rewrite <- Eh. destruct Hp' as (_ & Hlr & Hlh & _). unfold pkhash_of. cbn [k_pkhash public_key peek k_seedbuf].
  by apply half_second.
Qed.

(** ** Encapsulation and decapsulation agree *)

(** The secret and the error of the key generated from a seed. *)
Definition key_secrets (vinfo : ML_KEM_VINFO) (seed : list Z) : option (list scalar * list scalar) :=
  let rank := vi_rank vinfo in
  hashed ← hash_g (slice seed 0 32 ++ [rank]);
  '(s, counter) ← gencbd_vector (CBD1 (evp_type vinfo)) 0 (slice hashed 32 32) rank;
  '(e, _) ← gencbd_vector (CBD1 (evp_type vinfo)) counter (slice hashed 32 32) rank;
  Some (s, e).
(** The noise of the ciphertext encapsulated to the key with that entropy. *)
Definition encap_noise (key : ML_KEM_KEY) (s e : list scalar) (entropy : list Z) : option (Z -> Z) :=
  Kr ← hash_g (entropy ++ pkhash_of key);
  decryption_noise (k_vinfo key) (vec (k_t key)) (vec (k_m key)) s e entropy (slice Kr 32 32).

Lemma key_secrets_gen vinfo seed rho m s e t :
  kpke_keygen vinfo (slice seed 0 32) rho m s e t -> key_secrets vinfo seed = Some (s, e).
Proof.
  intros (hashed & sigma & Hh & _ & -> & _ & Es & Ee & _). unfold key_secrets. rewrite Hh. cbn [mbind option_bind].
  rewrite Es. cbn [mbind option_bind]. by rewrite Ee.
Qed.
Lemma seed_source_unique key seed seed' : seed_source key seed -> seed_source key seed' -> seed = seed'.
Proof. unfold seed_source. destruct (ossl_ml_kem_have_seed key); intros -> E; by injection E. Qed.

Lemma encap_run peer t entropy :
  key_wf peer -> k_t peer = Some t -> zlen entropy = 32 -> bytes_ok entropy ->
  exists ct Kr, hash_g (entropy ++ pkhash_of peer) = Some Kr /\ zlen Kr = 64 /\
    encrypt_cpa (k_vinfo peer) t (vec (k_m peer)) entropy (slice Kr 32 32) = Some ct /\
    zlen ct = ctext_bytes (k_vinfo peer) /\ bytes_ok ct /\
    ossl_ml_kem_encap_seed (Some (ctext_bytes (k_vinfo peer))) (Some 32) (Some entropy) peer = Some (ct, slice Kr 0 32).
Proof.
  intros Hwf Ht Hl Hok. destruct (hash_g_ok (entropy ++ pkhash_of peer)) as (Kr & EK & HlK & HKok).
  destruct (encrypt_total peer t entropy (slice Kr 32 32) Hwf Ht Hl Hok) as (ct & Ec & Hlc & Hcok).
  exists ct, Kr. split_and!; [done..|]. unfold ossl_ml_kem_encap_seed, ossl_ml_kem_have_pubkey. rewrite (have_Some _ t) by done.
  change ML_KEM_RANDOM_BYTES with 32. change ML_KEM_SHARED_SECRET_BYTES with 32. cbn [negb mbind option_bind]. rewrite Z.eqb_refl, Hl, Z.eqb_refl.
  cbn [negb]. destruct kem_new_ok as [c ->]. cbn [option_bind]. unfold encap. fold (pkhash_of peer).
  change ML_KEM_RANDOM_BYTES with 32. change ML_KEM_SHARED_SECRET_BYTES with 32. rewrite slice_whole by done. rewrite EK. cbn [mbind option_bind].
  rewrite Ht. change (vec (Some t)) with t. by rewrite Ec.
Qed.

(** C3: ML-KEM round trip: a key generated by [ossl_ml_kem_genkey], from its stashed seed
    or from random bytes, decapsulates what was encapsulated to it, by the key itself or
    by any key object into which its encoded public key was parsed: encapsulation
    succeeds, [ossl_ml_kem_decap] succeeds and both return the same 32 bytes.  The
    condition is the one of FIPS 203: the noise of the ciphertext, an expression in the
    values sampled from the two seeds, rounds away (each coefficient within a quarter of
    [q] of zero). *)
Theorem ml_kem_encap_decap publen key0 key enc seed s e peer entropy noise buf :
  key_wf key0 -> ossl_ml_kem_genkey publen key0 = (Ret enc, key) ->
  seed_source key0 seed -> key_secrets (k_vinfo key0) seed = Some (s, e) ->
  public_peer key peer -> zlen entropy = 32 -> bytes_ok entropy ->
  encap_noise key s e entropy = Some noise -> rounds_away noise = true -> zlen buf = 32 ->
  exists ct K, ossl_ml_kem_encap_seed (Some (ctext_bytes (k_vinfo key))) (Some 32) (Some entropy) peer = Some (ct, K) /\
    zlen K = 32 /\ ossl_ml_kem_decap (Some buf) (Some ct) key = Wrote true K.
Proof.
  intros Hwf0 Egen Hsrc Hsec Hpeer Hle Heok Hnoise Haway Hb. pose proof (genkey_cases publen key0 Hwf0) as Hc. rewrite Egen in Hc.
  destruct Hc as (Hbare & seed' & s' & e' & Hsrc' & Hgen). rewrite (seed_source_unique _ _ _ Hsrc' Hsrc) in *.
  destruct (seed_source_ok _ _ Hwf0 Hbare Hsrc) as [Hls Hsok]. destruct (generated_wf _ _ _ _ _ _ _ Hwf0 Hbare Hls Hsok Hgen) as [Hwf Hv].
  destruct Hgen as (rho & m & t & h & Hk & Hp & _ & Ekey). rewrite (key_secrets_gen _ _ _ _ _ _ _ Hk) in Hsec. injection Hsec as -> ->.
  destruct (kpke_facts _ _ _ _ _ _ _ ltac:(apply Hwf0) Hk) as (Hs & He & _ & HM & Ht & _).
  assert (k_t key = Some t) as Hkt by (by rewrite Ekey). assert (k_m key = Some m) as Hkm by (by rewrite Ekey).
  assert (k_s key = Some (scalar_ntt <$> s)) as Hks by (by rewrite Ekey).
  destruct (peer_parts key t peer Hwf Hkt Hpeer) as (Hpv & Hpt & Hpm & Hph & Hpwf).
  destruct (encap_run peer t entropy Hpwf Hpt Hle Heok) as (ct & Kr & EK & HlK & Ec & Hlc & Hcok & Eenc). rewrite Hpv, Hpm, Hph in *.
  unfold encap_noise in Hnoise. rewrite EK, Hkt, Hkm, Hv in *. cbn [mbind option_bind] in Hnoise.
  change (vec (Some ?x)) with x in *.
  pose proof (decrypt_encrypt (k_vinfo key0) ltac:(apply Hwf0) t m s e _ Hs HM Ht entropy (slice Kr 32 32) Hle Heok ct noise Ec Hnoise Haway) as Hdec.
  destruct (decap_api key _ t ct buf Hwf Hks Hkt ltac:(by rewrite Hv) Hcok Hb) as (K & HD & HlK' & Hapi).
  exists ct, (slice Kr 0 32). split; [done|]. split; [apply slice_length; lia|]. rewrite Hapi. f_equal.
  unfold Decaps in HD. rewrite Hv, Hdec, EK, Hkm in HD. cbn [mbind option_bind] in HD. destruct (kdf _ _) as [kbar|]; [|done]. cbn [mbind option_bind] in HD.
  change (vec (Some m)) with m in HD. rewrite Ec in HD. cbn [mbind option_bind] in HD. rewrite bool_decide_eq_true_2 in HD by done. by injection HD.
Qed.

(** ** Key generation *)

Lemma private_encodings key t m s rho h z d dptr :
  public_parts (rank_of key) t m rho h -> is_variant (k_vinfo key) -> zlen z = 32 -> zlen d = 32 ->
  let key' := private_key key t m s rho h z d dptr in
  ossl_ml_kem_encode_public_key (pubkey_bytes (k_vinfo key)) key' = Some (vector_encode t 12 (rank_of key) ++ rho) /\
  ossl_ml_kem_encode_private_key (prvkey_bytes (k_vinfo key)) key' =
    Some (vector_encode s 12 (rank_of key) ++ (vector_encode t 12 (rank_of key) ++ rho) ++ h ++ z) /\
  rho_of key' = rho /\ pkhash_of key' = h /\ z_of key' = z /\ slice (k_zbuf key') 32 32 = d.
Proof.
  intros (Ht & Hlr & Hlh & _) Hvi Hlz Hld key'.
  assert (rho_of key' = rho) as Er by (by apply half_first). assert (pkhash_of key' = h) as Eh by (by apply half_second).
  assert (z_of key' = z) as Ez by (by apply half_first). split_and!; [| |done|done|done|by apply half_second].
  - unfold ossl_ml_kem_encode_public_key, ossl_ml_kem_have_pubkey. change (k_vinfo key') with (k_vinfo key). rewrite (have_Some _ t), Z.eqb_refl by done.
    cbn [negb orb]. unfold encode_pubkey. fold (rho_of key'). by rewrite Er.
  - unfold ossl_ml_kem_encode_private_key, ossl_ml_kem_have_prvkey. change (k_vinfo key') with (k_vinfo key). rewrite (have_Some _ s), Z.eqb_refl by done.
    cbn [negb orb]. unfold encode_prvkey, encode_pubkey. fold (rho_of key') (pkhash_of key') (z_of key'). by rewrite Er, Eh, Ez.
Qed.
Lemma generated_encodings key seed enc publen s e key' :
  key_wf key -> bare key = true -> seed_source key seed -> generated key seed enc publen s e key' ->
  exists hashed m h, hash_g (slice seed 0 32 ++ [rank_of key]) = Some hashed /\ matrix_expand (slice hashed 0 32) (rank_of key) = Ret m /\
    let rank := rank_of key in
    let t := matrix_mult_transpose_add (scalar_ntt <$> e) m (scalar_ntt <$> s) rank in
    let ek := vector_encode t 12 rank ++ slice hashed 0 32 in
    hash_h ek = Some h /\ enc = (match publen with Some _ => Some ek | None => None end) /\
    ossl_ml_kem_encode_public_key (pubkey_bytes (k_vinfo key)) key' = Some ek /\
    ossl_ml_kem_encode_private_key (prvkey_bytes (k_vinfo key)) key' = Some (vector_encode (scalar_ntt <$> s) 12 rank ++ ek ++ h ++ slice seed 32 32) /\
    ossl_ml_kem_encode_seed ML_KEM_SEED_BYTES key' = if retains_seed key then Some seed else None.
Proof.
  intros Hwf Hb Hsrc (rho & m & t & h & Hk & Hp & Henc & ->). destruct (seed_source_ok _ _ Hwf Hb Hsrc) as [Hls _].
  destruct Hk as (hashed & sigma & Eh & -> & -> & Em & _ & _ & ->). exists hashed, m, h. split; [done|]. split; [done|]. cbv zeta.
  pose proof (private_encodings key _ m (scalar_ntt <$> s) _ h (slice seed 32 32) (if retains_seed key then slice seed 0 32 else zeros 32)
    (if retains_seed key then Some (InZbuf, 32) else None) Hp ltac:(apply Hwf) ltac:(apply slice_length; lia)
    ltac:(destruct (retains_seed key); [apply slice_length; lia|done])) as (E1 & E2 & _ & _ & Ez & Ed).
  split_and!; [apply Hp|done|done|done|]. unfold ossl_ml_kem_encode_seed, ossl_ml_kem_have_seed. unfold private_key in *. cbn [k_d] in *.
  destruct (retains_seed key); [|by rewrite (have_None None)]. rewrite (have_Some _ (InZbuf, 32)), Z.eqb_refl by done. cbn [negb orb]. f_equal.
  cbn [peek k_z]. change ML_KEM_RANDOM_BYTES with 32. unfold z_of in Ez. cbn [peek k_z] in Ez. change ML_KEM_RANDOM_BYTES with 32 in Ez.
  rewrite Ez, Ed. pose proof (slice_add seed 0 32 32) as E. rewrite Z.add_0_l in E. rewrite <- E by lia. by apply slice_whole.
Qed.

(** C34: key generation is Algorithm 16 of FIPS 203 and completes: on a well-formed key
    without key material, whether the seed [d || z] was stashed or is random, when the
    storage can be allocated and the matrix is sampled (which depends on the hash alone),
    [ossl_ml_kem_genkey] succeeds, the returned and the encoded public key are the
    encoding of [t = A^T s + e] and [rho], the encoded private key is the encoding of
    [s], the public key, its hash and [z], and the seed is returned unchanged exactly
    when the key retains it. *)
Theorem ml_kem_genkey_exact publen key seed s e hashed m :
  key_wf key -> bare key = true -> alloc_at PrvStorage = true ->
  match publen with Some n => n = pubkey_bytes (k_vinfo key) | None => True end ->
  seed_source key seed -> key_secrets (k_vinfo key) seed = Some (s, e) ->
  hash_g (slice seed 0 32 ++ [rank_of key]) = Some hashed -> matrix_expand (slice hashed 0 32) (rank_of key) = Ret m ->
  let rank := rank_of key in
  let t := matrix_mult_transpose_add (scalar_ntt <$> e) m (scalar_ntt <$> s) rank in
  let ek := vector_encode t 12 rank ++ slice hashed 0 32 in
  exists h key', hash_h ek = Some h /\
    ossl_ml_kem_genkey publen key = (Ret (match publen with Some _ => Some ek | None => None end), key') /\ key_wf key' /\
    ossl_ml_kem_encode_public_key (pubkey_bytes (k_vinfo key)) key' = Some ek /\
    ossl_ml_kem_encode_private_key (prvkey_bytes (k_vinfo key)) key' = Some (vector_encode (scalar_ntt <$> s) 12 rank ++ ek ++ h ++ slice seed 32 32) /\
    ossl_ml_kem_encode_seed ML_KEM_SEED_BYTES key' = if retains_seed key then Some seed else None.
Proof.
  intros Hwf Hb Ha Hn Hsrc Hsec Eh Em. pose proof (genkey_cases publen key Hwf) as Hc.
  destruct (ossl_ml_kem_genkey publen key) as [[enc| |] key'] eqn:Eg.
  - destruct Hc as (_ & seed' & s' & e' & Hsrc' & Hgen). rewrite (seed_source_unique _ _ _ Hsrc' Hsrc) in *.
    destruct (seed_source_ok _ _ Hwf Hb Hsrc) as [Hls Hsok]. destruct (generated_wf _ _ _ _ _ _ _ Hwf Hb Hls Hsok Hgen) as [Hwf' _].
    destruct (generated_encodings _ _ _ _ _ _ _ Hwf Hb Hsrc Hgen) as (hashed' & m' & h & Eh' & Em' & E1 & E2 & E3 & E4 & E5).
    rewrite Eh in Eh'. injection Eh' as <-. rewrite Em in Em'. injection Em' as <-.
    destruct Hgen as (rho & m' & t & h' & Hk & _). rewrite (key_secrets_gen _ _ _ _ _ _ _ Hk) in Hsec. injection Hsec as -> ->.
    intros rank t' ek. exists h, key'. by rewrite E2.
  - destruct Hc as (_ & _ & _ & [Hf|[(n & -> & Hf)|[Hf|Hf]]]); [by rewrite Hb in Hf|done|by apply Hf in Hsrc|by rewrite Ha in Hf].
  - destruct Hc as (seed' & hashed' & Hsrc' & Eh' & Em'). rewrite (seed_source_unique _ _ _ Hsrc' Hsrc), Eh in Eh'. injection Eh' as <-. by rewrite Em in Em'.
Qed.

(** ** The life of a key object *)

(** One call that can change a key, whatever it returns. *)
Inductive key_step (key key' : ML_KEM_KEY) : Prop :=
  | StepSetSeed seed r : bytes_ok seed -> ossl_ml_kem_set_seed seed key = (r, key') -> key_step key key'
  | StepGenkey publen r : r <> Spin -> ossl_ml_kem_genkey publen key = (r, key') -> key_step key key'
  | StepParsePublic inp r : bytes_ok inp -> r <> Spin -> ossl_ml_kem_parse_public_key inp key = (r, key') -> key_step key key'
  | StepParsePrivate inp r : bytes_ok inp -> r <> Spin -> ossl_ml_kem_parse_private_key inp key = (r, key') -> key_step key key'
  | StepReset : ossl_ml_kem_key_reset key = key' -> key_step key key'.

Lemma new_key_wf properties evp_type key : ossl_ml_kem_key_new properties evp_type = Some key -> key_wf key /\ bare key = true.
Proof.
  unfold ossl_ml_kem_key_new. destruct (ossl_ml_kem_get_vinfo evp_type) as [vinfo|] eqn:Ev; [|done]. cbn [mbind option_bind].
  destruct (negb (alloc_at KeyObject)); [done|]. destruct (_ && _); [|done]. intros [= <-]. split; [|done].
  split_and!; [|done|apply zeros_ok|by split_and!; [..|left]]. cbn [k_vinfo]. unfold ossl_ml_kem_get_vinfo in Ev.
  unfold is_variant, vinfo_map. rewrite !elem_of_cons. repeat case_match; try done; injection Ev as <-; auto.
Qed.
Lemma reset_vinfo key : k_vinfo (ossl_ml_kem_key_reset key) = k_vinfo key.
Proof. unfold ossl_ml_kem_key_reset. destruct (k_t key); [|done]. by destruct (ossl_ml_kem_have_prvkey key). Qed.
Lemma key_step_wf key key' : key_wf key -> key_step key key' -> key_wf key' /\ k_vinfo key' = k_vinfo key.
Proof.
  intros Hwf [seed r Hok E|publen r Hr E|inp r Hok Hr E|inp r Hok Hr E|<-].
  - pose proof (set_seed_cases seed key Hwf Hok) as Hc. rewrite E in Hc. destruct r; [by destruct Hc as (? & ? & _)|by destruct Hc as [-> _]|done].
  - pose proof (genkey_cases publen key Hwf) as Hc. rewrite E in Hc. destruct r as [enc| |]; [|by destruct Hc as (? & ? & _)|done].
    destruct Hc as (Hb & seed & s & e & Hsrc & Hgen). destruct (seed_source_ok _ _ Hwf Hb Hsrc) as [Hls Hsok].
    by apply (generated_wf _ _ _ _ _ _ _ Hwf Hb Hls Hsok Hgen).
  - pose proof (parse_public_cases inp key Hwf Hok) as Hc. rewrite E in Hc. destruct r as [u| |]; [|by destruct Hc as (? & ? & _)|done].
    destruct Hc as (Hb & t & m & rho & h & -> & Hp & _). split; [by apply parsed_public_wf|done].
  - pose proof (parse_private_cases inp key Hwf Hok) as Hc. rewrite E in Hc. destruct r as [u| |]; [|by destruct Hc as (? & ? & _)|done].
    destruct Hc as (Hb & t & m & s & rho & h & z & -> & Hp & Hs & Hlz & Hz & _). split; [by apply parsed_private_wf|done].
  - split; [by apply reset_key_wf|apply reset_vinfo].
Qed.
Lemma key_step_frozen key key' :
  key_wf key -> ossl_ml_kem_have_pubkey key = true -> key_step key key' -> key' = key \/ key' = ossl_ml_kem_key_reset key.
Proof.
  intros Hwf Hp Hstep. assert (bare key = false) as Hb by (unfold bare; by rewrite Hp).
  destruct Hstep as [seed r Hok E|publen r Hr E|inp r Hok Hr E|inp r Hok Hr E|<-]; [left..|by right].
  - pose proof (set_seed_cases seed key Hwf Hok) as Hc. rewrite E in Hc. destruct r; [|by destruct Hc|done].
    destruct Hc as (_ & _ & Ht & _). unfold ossl_ml_kem_have_pubkey in Hp. by rewrite have_None in Hp.
  - pose proof (genkey_cases publen key Hwf) as Hc. rewrite E, Hb in Hc. destruct r as [enc| |]; [by destruct Hc|by apply Hc|done].
  - pose proof (parse_public_cases inp key Hwf Hok) as Hc. rewrite E, Hb in Hc. destruct r as [enc| |]; [by destruct Hc|by apply Hc|done].
  - pose proof (parse_private_cases inp key Hwf Hok) as Hc. rewrite E, Hb in Hc. destruct r as [enc| |]; [by destruct Hc|by apply Hc|done].
Qed.

(** C35: the life of a key object: after any sequence of seed stashing, generation,
    parsing and reset on a new key, each call succeeding or failing, the key is
    well-formed and of its variant; once it has a public key, no call other than the
    reset changes it, its hash is the hash of its encoding and its matrix is expanded
    from its [rho]. *)
Theorem ml_kem_key_life_invariant properties evp_type key0 key :
  ossl_ml_kem_key_new properties evp_type = Some key0 -> rtc key_step key0 key ->
  key_wf key /\ k_vinfo key = k_vinfo key0 /\
  (ossl_ml_kem_have_pubkey key = true ->
    (forall key', key_step key key' -> key' = key \/ key' = ossl_ml_kem_key_reset key) /\
    hash_h (encode_pubkey key) = Some (pkhash_of key) /\ matrix_expand (rho_of key) (rank_of key) = Ret (vec (k_m key))).
Proof.
  intros [Hwf0 _]%new_key_wf Hr.
  assert (key_wf key /\ k_vinfo key = k_vinfo key0) as [Hwf Hv].
  { clear -EL KL Hwf0 Hr. induction Hr as [|x y z Hxy _ IH]; [done|]. destruct (key_step_wf x y Hwf0 Hxy) as [Hy Ev].
    destruct (IH Hy) as [Hz Ez]. split; [done|]. by rewrite Ez. }
  split_and!; [done|done|]. intros Hp. split; [by intros key'; apply key_step_frozen|].
  unfold ossl_ml_kem_have_pubkey in Hp. apply bool_decide_eq_true in Hp as [t Ht].
  destruct (key_public key t Hwf Ht) as (_ & _ & _ & _ & (m & Hm & Em) & Eh). rewrite Hm. by split.
Qed.

(** ** Encoding and parsing *)

Lemma parts_decode rank t m rho h : 0 <= rank -> public_parts rank t m rho h -> vector_decode_12 (vector_encode t 12 rank ++ rho) rank <> None.
Proof. intros Hr (Ht & _). by rewrite vector_decode_encode. Qed.
Lemma parts_rho vinfo t m rho h :
  is_variant vinfo -> public_parts (vi_rank vinfo) t m rho h -> slice (vector_encode t 12 (vi_rank vinfo) ++ rho) (vector_bytes vinfo) 32 = rho.
Proof.
  intros Hvi (Ht & Hlr & _). destruct (variant_facts _ Hvi) as (_ & _ & _ & _ & Hvb & _). destruct (vector_encode_12_ok _ t Ht) as [Hl _].
  replace (vector_bytes vinfo) with (zlen (vector_encode t 12 (vi_rank vinfo))) by lia. rewrite <- Hlr. apply slice_app_r.
Qed.
Lemma private_layout vinfo s t m rho h z :
  is_variant vinfo -> vector_ok (vi_rank vinfo) s -> public_parts (vi_rank vinfo) t m rho h -> zlen z = 32 -> bytes_ok z ->
  let ek := vector_encode t 12 (vi_rank vinfo) ++ rho in
  let dk := vector_encode s 12 (vi_rank vinfo) ++ ek ++ h ++ z in
  slice dk (vector_bytes vinfo) (pubkey_bytes vinfo) = ek /\ slice dk (vector_bytes vinfo + pubkey_bytes vinfo) 32 = h /\
  zlen ek = pubkey_bytes vinfo /\ bytes_ok ek /\ zlen dk = prvkey_bytes vinfo /\ bytes_ok dk.
Proof.
  intros Hvi Hs (Ht & Hlr & Hlh & Hr & Hh & _) Hlz Hz ek dk. destruct (variant_facts _ Hvi) as (_ & _ & _ & _ & Hvb & Hpb & Hprv & _).
  destruct (vector_encode_12_ok _ s Hs) as [Hls Hsb]. destruct (vector_encode_12_ok _ t Ht) as [Hlt Htb].
  assert (zlen ek = pubkey_bytes vinfo) as Hek by (unfold ek; rewrite zlen_app; lia). assert (bytes_ok ek) as Hekok by (by apply Forall_app_2).
  unfold dk. set (es := vector_encode s 12 (vi_rank vinfo)) in *. split_and!; [| |done|done|rewrite !zlen_app; lia|by repeat apply Forall_app_2].
  - replace (vector_bytes vinfo) with (zlen es + 0) by lia. rewrite slice_app_skip by lia. by apply slice_app_first.
  - replace (vector_bytes vinfo + pubkey_bytes vinfo) with (zlen es + pubkey_bytes vinfo) by lia. rewrite slice_app_skip by (pose proof (zlen_nonneg ek); lia).
    replace (pubkey_bytes vinfo) with (zlen ek + 0) by lia. rewrite slice_app_skip by lia. by apply slice_app_first.
Qed.

Lemma public_roundtrip key key1 t :
  key_wf key -> k_t key = Some t -> key_wf key1 -> k_vinfo key1 = k_vinfo key -> bare key1 = true -> alloc_at PubStorage = true ->
  exists key2, ossl_ml_kem_parse_public_key (encode_pubkey key) key1 = (Ret tt, key2).
Proof.
  intros Hwf Ht Hwf1 Hv Hb Ha. destruct (wf_parts key t Hwf Ht) as (m & Hm & Hp). destruct (encode_pubkey_ok key t Hwf Ht) as [Hl Hok].
  pose proof Hwf as (Hvi & _). assert (rank_of key1 = rank_of key) as Hrk by (unfold rank_of; by rewrite Hv).
  pose proof (variant_rank key Hvi) as Hr. pose proof (encode_pubkey_parts key t (rho_of key) Ht eq_refl) as Ee.
  pose proof (parse_public_cases (encode_pubkey key) key1 Hwf1 Hok) as Hc. rewrite Hrk, Hv in Hc.
  destruct (ossl_ml_kem_parse_public_key (encode_pubkey key) key1) as [[u| |] key2]; [exists key2; by destruct u| |].
  - destruct Hc as (_ & _ & _ & [Hf|[Hf|[Hf|Hf]]]); [by rewrite Hb in Hf|done|by rewrite Ha in Hf|].
    rewrite Ee in Hf. by apply (parts_decode (rank_of key) t m (rho_of key) (pkhash_of key)) in Hf; [|lia|].
  - unfold rank_of in *. rewrite Ee, (parts_rho _ t m _ _ Hvi Hp) in Hc. destruct Hp as (_ & _ & _ & _ & _ & _ & Em). by rewrite Em in Hc.
Qed.
Lemma encode_prvkey_parts key s t :
  k_s key = Some s -> k_t key = Some t ->
  encode_prvkey key = vector_encode s 12 (rank_of key) ++ (vector_encode t 12 (rank_of key) ++ rho_of key) ++ pkhash_of key ++ z_of key.
Proof. intros Hs Ht. unfold encode_prvkey, encode_pubkey. by rewrite Hs, Ht. Qed.
Lemma private_z key s : private_wf key s -> zlen (z_of key) = 32 /\ bytes_ok (z_of key).
Proof.
  intros (_ & Hl & Hok & Hz & _). unfold z_of. rewrite Hz. cbn [peek]. change ML_KEM_RANDOM_BYTES with 32. split; [apply slice_length; lia|by apply slice_ok].
Qed.
Lemma private_roundtrip key key1 s :
  key_wf key -> k_s key = Some s -> key_wf key1 -> k_vinfo key1 = k_vinfo key -> bare key1 = true -> alloc_at PrvStorage = true ->
  bytes_ok (encode_prvkey key) /\ exists key2, ossl_ml_kem_parse_private_key (encode_prvkey key) key1 = (Ret tt, key2).
Proof.
  intros Hwf Hs Hwf1 Hv Hb Ha. destruct (key_private key s Hwf Hs) as (t & Ht & Hpw). destruct (wf_parts key t Hwf Ht) as (m & Hm & Hp).
  pose proof Hwf as (Hvi & _). destruct (private_z key s Hpw) as [Hlz Hz]. destruct Hpw as [Hso _].
  assert (rank_of key1 = rank_of key) as Hrk by (unfold rank_of; by rewrite Hv). pose proof (variant_rank key Hvi) as Hr.
  destruct (private_layout (k_vinfo key) s t m _ _ _ Hvi Hso Hp Hlz Hz) as (E1 & E2 & _ & _ & Hl & Hok). fold (rank_of key) in *.
  rewrite <- (encode_prvkey_parts key s t Hs Ht) in *. split; [done|].
  pose proof (parse_private_cases (encode_prvkey key) key1 Hwf1 Hok) as Hc. rewrite Hrk, Hv in Hc. cbv zeta in Hc. rewrite E1, E2 in Hc.
  destruct (ossl_ml_kem_parse_private_key (encode_prvkey key) key1) as [[u| |] key2]; [exists key2; by destruct u| |].
  - destruct Hc as (_ & _ & _ & [Hf|[Hf|[Hf|[Hf|[Hf|Hf]]]]]); [by rewrite Hb in Hf|done|by rewrite Ha in Hf| | |].
    + rewrite (encode_prvkey_parts key s t Hs Ht), vector_decode_encode in Hf by (done || lia). done.
    + by apply (parts_decode (rank_of key) t m (rho_of key) (pkhash_of key)) in Hf; [|lia|].
    + by destruct Hp as (_ & _ & _ & _ & _ & Eh & _).
  - unfold rank_of in *. rewrite (parts_rho _ t m _ _ Hvi Hp) in Hc. destruct Hp as (_ & _ & _ & _ & _ & _ & Em). by rewrite Em in Hc.
Qed.

Lemma parsed_public_encode inp key1 u key2 :
  key_wf key1 -> bytes_ok inp -> ossl_ml_kem_parse_public_key inp key1 = (Ret u, key2) ->
  ossl_ml_kem_encode_public_key (pubkey_bytes (k_vinfo key1)) key2 = Some inp.
Proof.
  intros Hwf1 Hok E. pose proof (parse_public_cases inp key1 Hwf1 Hok) as Hc. rewrite E in Hc.
  destruct Hc as (_ & t & m & rho & h & -> & (_ & Hlr & _) & <-). unfold ossl_ml_kem_encode_public_key, ossl_ml_kem_have_pubkey.
  rewrite (have_Some _ t), Z.eqb_refl by done. cbn [negb orb]. f_equal. exact (encode_pubkey_parts (public_key key1 t m rho h) t rho eq_refl (half_first rho h Hlr)).
Qed.
Lemma parsed_private_encode inp key1 u key2 :
  key_wf key1 -> bytes_ok inp -> ossl_ml_kem_parse_private_key inp key1 = (Ret u, key2) ->
  ossl_ml_kem_encode_private_key (prvkey_bytes (k_vinfo key1)) key2 = Some inp.
Proof.
  intros Hwf1 Hok E. pose proof (parse_private_cases inp key1 Hwf1 Hok) as Hc. rewrite E in Hc. pose proof Hwf1 as (Hvi & _).
  destruct Hc as (_ & t & m & s & rho & h & z & -> & Hp & _ & Hlz & _ & <-). by apply (private_encodings key1 t m s rho h z (zeros 32) None).
Qed.
(** An encoding determines the components it was made from. *)
Lemma encodings_determine key key' s s' :
  key_wf key -> key_wf key' -> k_vinfo key' = k_vinfo key -> k_s key = Some s -> k_s key' = Some s' ->
  encode_prvkey key' = encode_prvkey key -> s' = s /\ encode_pubkey key' = encode_pubkey key /\ pkhash_of key' = pkhash_of key /\ z_of key' = z_of key.
Proof.
  intros Hwf Hwf' Hv Hs Hs' E. destruct (key_private key s Hwf Hs) as (t & Ht & Hpw). destruct (key_private key' s' Hwf' Hs') as (t' & Ht' & Hpw').
  assert (rank_of key' = rank_of key) as Hrk by (unfold rank_of; by rewrite Hv). pose proof Hwf as (Hvi & _). pose proof (variant_rank key Hvi) as Hr.
  destruct (encode_pubkey_ok key t Hwf Ht) as [Hl _]. destruct (encode_pubkey_ok key' t' Hwf' Ht') as [Hl' _].
  destruct (pkhash_ok key t Hwf Ht) as [Hh _]. destruct (pkhash_ok key' t' Hwf' Ht') as [Hh' _].
  destruct Hpw as [Hso _]. destruct Hpw' as [Hso' _]. rewrite Hrk in Hso'. unfold encode_prvkey in E. rewrite Hs, Hs', Hrk in E.
  change (vec (Some ?x)) with x in E. fold (pkhash_of key) (pkhash_of key') (z_of key) (z_of key') in E.
  destruct (vector_encode_12_ok _ s Hso) as [Hls _]. destruct (vector_encode_12_ok _ s' Hso') as [Hls' _].
  assert (s' = s) as ->.
  { pose proof (vector_decode_encode (rank_of key) s' (encode_pubkey key' ++ pkhash_of key' ++ z_of key') ltac:(lia) Hso') as H1.
    rewrite E, vector_decode_encode in H1 by (done || lia). by injection H1. }
  apply app_inv_head in E. apply app_inj_1 in E as [E1 E]; [|unfold zlen in *; rewrite Hv in Hl'; lia].
  by apply app_inj_1 in E as [E2 E3]; [|unfold zlen in *; lia].
Qed.

(** C36: encodings and parsers are inverse: what [ossl_ml_kem_encode_public_key] and
    [ossl_ml_kem_encode_private_key] write for a well-formed key is accepted by the
    parsers on any empty key object of the variant, and gives a key with the same
    components (the private form without the seed [d]); conversely a parser accepts only
    byte strings that the encoder gives back, so each key has exactly one encoding, with
    reduced coefficients and the right hash. *)
Theorem ml_kem_key_roundtrip key key1 :
  key_wf key -> key_wf key1 -> k_vinfo key1 = k_vinfo key -> bare key1 = true ->
  alloc_at PubStorage = true -> alloc_at PrvStorage = true ->
  (forall enc, ossl_ml_kem_encode_public_key (pubkey_bytes (k_vinfo key)) key = Some enc ->
    exists key2, ossl_ml_kem_parse_public_key enc key1 = (Ret tt, key2) /\ key_wf key2 /\
      k_t key2 = k_t key /\ k_m key2 = k_m key /\ pkhash_of key2 = pkhash_of key /\ ossl_ml_kem_pubkey_cmp key key2 = true) /\
  (forall enc, ossl_ml_kem_encode_private_key (prvkey_bytes (k_vinfo key)) key = Some enc ->
    exists key2, ossl_ml_kem_parse_private_key enc key1 = (Ret tt, key2) /\ key_wf key2 /\
      k_s key2 = k_s key /\ encode_pubkey key2 = encode_pubkey key /\ pkhash_of key2 = pkhash_of key /\ z_of key2 = z_of key /\ k_d key2 = None) /\
  (forall inp key2, bytes_ok inp -> ossl_ml_kem_parse_public_key inp key1 = (Ret tt, key2) ->
    ossl_ml_kem_encode_public_key (pubkey_bytes (k_vinfo key1)) key2 = Some inp) /\
  (forall inp key2, bytes_ok inp -> ossl_ml_kem_parse_private_key inp key1 = (Ret tt, key2) ->
    ossl_ml_kem_encode_private_key (prvkey_bytes (k_vinfo key1)) key2 = Some inp).
Proof.
  intros Hwf Hwf1 Hv Hb Ha1 Ha2. split_and!; [| |by intros inp key2 Hok; apply parsed_public_encode|by intros inp key2 Hok; apply parsed_private_encode].
  - intros enc. unfold ossl_ml_kem_encode_public_key, ossl_ml_kem_have_pubkey. destruct (k_t key) as [t|] eqn:Ht; [|by rewrite (have_None None)].
    rewrite (have_Some _ t), Z.eqb_refl by done. intros [= <-]. destruct (public_roundtrip key key1 t Hwf Ht Hwf1 Hv Hb Ha1) as [key2 E].
    exists key2. split; [done|]. destruct (peer_parts key t key2 Hwf Ht ltac:(right; by exists key1, tt)) as (_ & Ht2 & Hm2 & Hh2 & Hwf2).
    split_and!; [done|done|done|done|]. unfold ossl_ml_kem_pubkey_cmp, ossl_ml_kem_have_pubkey. rewrite !(have_Some _ t) by done. cbn [andb].
    fold (pkhash_of key) (pkhash_of key2). by rewrite Hh2, bool_decide_eq_true.
  - intros enc. unfold ossl_ml_kem_encode_private_key, ossl_ml_kem_have_prvkey. destruct (k_s key) as [s|] eqn:Hs; [|by rewrite (have_None None)].
    rewrite (have_Some _ s), Z.eqb_refl by done. intros [= <-]. destruct (private_roundtrip key key1 s Hwf Hs Hwf1 Hv Hb Ha2) as [Hok [key2 E]].
    exists key2. split; [done|]. pose proof (parsed_private_encode _ _ _ _ Hwf1 Hok E) as Henc.
    pose proof (parse_private_cases _ key1 Hwf1 Hok) as Hc. rewrite E in Hc.
    destruct Hc as (_ & t2 & m2 & s2 & rho2 & h2 & z2 & -> & Hp & Hso & Hlz & Hz & _).
    pose proof (parsed_private_wf key1 t2 m2 s2 rho2 h2 z2 Hwf1 Hb Hp Hso Hlz Hz) as Hwf2.
    unfold ossl_ml_kem_encode_private_key, ossl_ml_kem_have_prvkey in Henc. rewrite (have_Some _ s2) in Henc by done.
    change (k_vinfo (private_key key1 t2 m2 s2 rho2 h2 z2 (zeros 32) None)) with (k_vinfo key1) in Henc. rewrite Z.eqb_refl in Henc. injection Henc as Henc.
    destruct (encodings_determine key _ s s2 Hwf Hwf2 Hv Hs eq_refl Henc) as (-> & E1 & E2 & E3). by split_and!.
Qed.

(** ** Duplicating a key *)

(** A copy made by [ossl_ml_kem_key_dup] does not carry the public data: for a
    well-formed key that is not waiting to be loaded, the copy of the public part, and the
    copy of the private part, have the vectors of the key but a [rho] and a public key
    hash of zeros, so the encoded public key differs from the original's unless its [rho]
    is zero; and asking for both parts of a private key returns no key at all. *)
Lemma ml_kem_dup_loses_public_data key t :
  key_wf key -> k_t key = Some t -> ossl_ml_kem_decoded_key key = false ->
  alloc_at KeyCopy = true -> alloc_at PubCopy = true -> alloc_at PrvCopy = true ->
  (exists key2, ossl_ml_kem_key_dup key OSSL_KEYMGMT_SELECT_PUBLIC_KEY = Some key2 /\ k_t key2 = Some t /\ k_m key2 = k_m key /\ k_s key2 = None /\
    rho_of key2 = zeros 32 /\ pkhash_of key2 = zeros 32 /\
    (ossl_ml_kem_encode_public_key (pubkey_bytes (k_vinfo key)) key2 = ossl_ml_kem_encode_public_key (pubkey_bytes (k_vinfo key)) key <->
     rho_of key = zeros 32)) /\
  (ossl_ml_kem_have_prvkey key = true ->
    (exists key3, ossl_ml_kem_key_dup key OSSL_KEYMGMT_SELECT_PRIVATE_KEY = Some key3 /\ k_t key3 = Some t /\ k_m key3 = k_m key /\ k_s key3 = k_s key /\
      z_of key3 = z_of key /\ rho_of key3 = zeros 32 /\ pkhash_of key3 = zeros 32) /\
    ossl_ml_kem_key_dup key OSSL_KEYMGMT_SELECT_KEYPAIR = None).
Proof.
  intros Hwf Ht Hd Ha1 Ha2 Ha3. destruct (wf_parts key t Hwf Ht) as (m & Hm & _).
  assert (ossl_ml_kem_have_pubkey key = true) as Hp by (by apply (have_Some _ t)). unfold ossl_ml_kem_key_dup. rewrite Hd, Ha1, Ha2, Ha3, Hp. cbn [negb]. split.
  - assert (Z.land (if negb (ossl_ml_kem_have_prvkey key) then Z.land OSSL_KEYMGMT_SELECT_PUBLIC_KEY (Z.lnot OSSL_KEYMGMT_SELECT_PRIVATE_KEY)
      else OSSL_KEYMGMT_SELECT_PUBLIC_KEY) OSSL_KEYMGMT_SELECT_KEYPAIR = OSSL_KEYMGMT_SELECT_PUBLIC_KEY) as -> by (by destruct (ossl_ml_kem_have_prvkey key)).
    eexists. split; [reflexivity|]. unfold storage_of. rewrite Ht, Hm. split_and!; [done..|].
    unfold ossl_ml_kem_encode_public_key, ossl_ml_kem_have_pubkey. rewrite (have_Some (k_t key) t Ht). rewrite (have_Some _ t) by done.
    change (k_vinfo (set_pkhash _ _)) with (k_vinfo key). rewrite Z.eqb_refl. cbn [negb orb]. unfold encode_pubkey. rewrite Ht. fold (rho_of key). split.
    + intros [= E]. by apply app_inv_head in E.
    + intros ->. done.
  - intros Hs. rewrite Hs. cbn [negb]. split; [|done]. unfold ossl_ml_kem_have_prvkey in Hs. apply bool_decide_eq_true in Hs as [s Hs].
    destruct (key_private key s Hwf Hs) as (_ & _ & _ & _ & _ & Hz & _). unfold storage_of, z_of. rewrite Ht, Hm, Hs, Hz.
    eexists. split; [reflexivity|]. by destruct (k_d key).
Qed.
End Theorems.

(** ** An example: digests and random bytes that are zero *)

Definition flat_env : KemEnv := {|
  alloc_at _ := true; EVP_MD_fetch _ _ := true;
  RAND_priv_bytes_ex n _ := if 0 <=? n then Some (zeros n) else None;
  RAND_bytes_ex n _ := if 0 <=? n then Some (zeros n) else None |}.
Lemma flat_env_laws : @KemEnvLaws flat_env.
Proof.
  split; cbn; intros n _ b; destruct (Z.leb_spec 0 n); intros E; try done; injection E as <-; (split; [apply zlen_zeros; lia|apply zeros_ok]).
Qed.
#[local] Existing Instances flat_digest flat_digest_laws flat_env flat_env_laws.
#[local] Instance flat_fuel : Fuel := 3%nat.

(** A new ML-KEM-512 key. *)
Definition new_512 : ML_KEM_KEY :=
  mkML_KEM_KEY vinfo_512 None None None None None [] None None ML_KEM_KEY_PROV_FLAGS_DEFAULT (zeros 64) None.
Lemma new_512_eq : ossl_ml_kem_key_new None EVP_PKEY_ML_KEM_512 = Some new_512.
Proof. reflexivity. Qed.
Lemma new_512_wf : key_wf new_512.
Proof. exact (proj1 (new_key_wf _ _ _ new_512_eq)). Qed.

Definition flat_vector : list scalar := [zeros 256; zeros 256].
Lemma kem_flat_secrets : key_secrets vinfo_512 (zeros 64) = Some (flat_vector, flat_vector).
Proof. vm_compute. reflexivity. Qed.
Lemma flat_matrix_512 : matrix_expand (slice (zeros 64) 0 32) 2 = Ret [zeros 256; zeros 256; zeros 256; zeros 256].
Proof. vm_compute. reflexivity. Qed.
Lemma flat_source : seed_source new_512 (zeros 64).
Proof. reflexivity. Qed.

Lemma ml_kem_genkey_exact_witness :
  exists key', ossl_ml_kem_genkey None new_512 = (Ret None, key') /\ key_wf key' /\ ossl_ml_kem_encode_seed ML_KEM_SEED_BYTES key' = Some (zeros 64).
Proof.
  destruct (@ml_kem_genkey_exact flat_digest flat_digest_laws flat_fuel flat_env flat_env_laws None new_512 (zeros 64) flat_vector flat_vector (zeros 64) [zeros 256; zeros 256; zeros 256; zeros 256]
    new_512_wf eq_refl eq_refl I flat_source kem_flat_secrets eq_refl flat_matrix_512) as (h & key' & _ & E & Hwf & _ & _ & Es).
  exists key'. exact (conj E (conj Hwf Es)).
Defined.

(** The generated key, and a second object that holds its public key. *)
Lemma flat_key : exists key s, ossl_ml_kem_genkey None new_512 = (Ret None, key) /\ key_wf key /\ k_vinfo key = vinfo_512 /\ k_s key = Some s /\
  k_encoded_dk key = None.
Proof.
  destruct (ossl_ml_kem_genkey None new_512) as [[enc| |] key] eqn:E; pose proof (genkey_cases None new_512 new_512_wf) as Hc; rewrite E in Hc.
  - destruct Hc as (Hb & seed & s & e & Hsrc & Hgen). destruct (seed_source_ok _ _ new_512_wf Hb Hsrc) as [Hls Hsok].
    destruct (generated_wf _ _ _ _ _ _ _ new_512_wf Hb Hls Hsok Hgen) as [Hwf Hv]. destruct Hgen as (rho & m & t & h & _ & _ & -> & Ekey).
    exists key, (scalar_ntt <$> s). split_and!; [done|done|done|by rewrite Ekey|by rewrite Ekey].
  - destruct Hc as (_ & _ & _ & [Hf|[(n & Hf & _)|[Hf|Hf]]]); [done|done|by destruct (Hf _ flat_source)|done].
  - destruct Hc as (seed & hashed & Hsrc & Eh & Em). rewrite (seed_source_unique _ _ _ Hsrc flat_source) in Eh.
    change (Some (zeros 64) = Some hashed) in Eh. injection Eh as <-. change (rank_of new_512) with 2 in Em. by rewrite flat_matrix_512 in Em.
Qed.
Lemma flat_pmul n (g : Z -> Z -> Z) x : 0 <= x < 256 -> pdot n (fun i => coeff (entry flat_vector i)) g x ≡ₖ 0.
Proof.
  intros Hx. assert (forall i, peq (coeff (entry flat_vector i)) (fun _ => 0)) as Hz.
  { intros i k Hk. assert (coeff (zeros 256) k = 0) as E.
    { unfold coeff, zeros. by rewrite lookup_replicate_2 by lia. }
    unfold entry, flat_vector. by destruct (Z.to_nat i) as [|[|j]]; [rewrite <- E|rewrite <- E|]. }
  unfold pdot. rewrite <- (zsum_0 (Z.to_nat n)). apply zsum_cong. intros j _.
  rewrite (pmul_proper _ _ (Hz j) (g j) (g j) ltac:(done) x Hx). rewrite (pmul_comm _ _ x Hx). apply (pmul_zero _ x Hx).
Qed.
Lemma flat_cbd_2 x : cbd_2 x = Some (zeros 256).
Proof. vm_compute. reflexivity. Qed.
(** The only noise is the rounding of the second part of the ciphertext. *)
Lemma flat_noise key t :
  key_wf key -> k_vinfo key = vinfo_512 -> k_t key = Some t ->
  exists noise, encap_noise key flat_vector flat_vector (zeros 32) = Some noise /\ rounds_away noise = true.
Proof.
  intros Hwf Hv Ht. pose proof Hwf as (Hvi & _). destruct (variant_facts _ Hvi) as (Hr & _).
  destruct (key_public key t Hwf Ht) as (_ & _ & _ & Htok & (m & Hm & Em) & _).
  destruct (matrix_expand_ok _ (rank_of key) _ ltac:(unfold rank_of; lia) Em) as [_ HM].
  destruct (encryption_values_ok (k_vinfo key) Hvi t m _ _ (vreps_of _ t Htok) HM (zeros 32) (slice (zeros 64) 32 32) eq_refl (zeros_ok 32))
    as (y & e1 & e2 & u & v & Ev & _ & _ & _ & _ & Hvok & _).
  assert (e2 = zeros 256) as ->.
  { unfold encryption_values in Ev. destruct (gencbd_vector _ 0 _ _) as [[y' c]|]; [|done]. cbn [mbind option_bind] in Ev.
    destruct (gencbd_vector _ c _ _) as [[e1' c']|]; [|done]. cbn [mbind option_bind] in Ev. rewrite flat_cbd_2 in Ev.
    pose proof (f_equal (fun o => match o with Some (_, _, x, _, _) => x | None => [] end) Ev) as E. exact (eq_sym E). }
  unfold encap_noise. change (hash_g _) with (Some (zeros 64)). cbn [mbind option_bind]. unfold decryption_noise. rewrite Ht, Hm. change (vec (Some ?x)) with x.
  rewrite Ev. cbn [mbind option_bind]. eexists. split; [reflexivity|]. apply rounds_away_spec. intros x Hx.
  assert (coeff (zeros 256) x = 0) as Ez by (unfold coeff, zeros; by rewrite lookup_replicate_2 by lia).
  pose proof (compress_error (coeff v x) 4 (scalar_coeff v x Hvok Hx) ltac:(lia)) as Herr. change (rounding_error 4) with 104 in Herr.
  set (err := kcentered _) in Herr. rewrite (kcentered_unique _ err); [lia|change kHalfPrime with 1664; lia|].
  rewrite Ez, Hv. change (vi_dv vinfo_512) with 4. rewrite !flat_pmul by done. unfold err. rewrite kcentered_cong. unfold rounding, scalar_decompress, scalar_compress.
  destruct Hvok as [Hlv _]. rewrite !coeff_map by (rewrite ?zlen_fmap; lia). kcong_by 0.
Qed.

Lemma ml_kem_encap_decap_witness :
  exists key ct K, ossl_ml_kem_genkey None new_512 = (Ret None, key) /\
    ossl_ml_kem_encap_seed (Some (ctext_bytes vinfo_512)) (Some 32) (Some (zeros 32)) key = Some (ct, K) /\
    ossl_ml_kem_decap (Some (zeros 32)) (Some ct) key = Wrote true K.
Proof.
  destruct flat_key as (key & s & E & Hwf & Hv & Hs & _). destruct (key_private key s Hwf Hs) as (t & Ht & _).
  destruct (flat_noise key t Hwf Hv Ht) as (noise & Hn & Ha).
  destruct (@ml_kem_encap_decap flat_digest flat_digest_laws flat_fuel flat_env flat_env_laws None new_512 key None (zeros 64) flat_vector flat_vector key
    (zeros 32) noise (zeros 32) new_512_wf E flat_source kem_flat_secrets (or_introl eq_refl) eq_refl (zeros_ok 32) Hn Ha eq_refl) as (ct & K & Ee & _ & Ed).
  exists key, ct, K. rewrite Hv in Ee. exact (conj E (conj Ee Ed)).
Defined.
Lemma ml_kem_key_life_invariant_witness :
  exists key, rtc key_step new_512 key /\ ossl_ml_kem_have_pubkey key = true /\ hash_h (encode_pubkey key) = Some (pkhash_of key).
Proof.
  destruct flat_key as (key & s & E & Hwf & Hv & Hs & _). destruct (key_private key s Hwf Hs) as (t & Ht & _).
  assert (rtc key_step new_512 key) as Hr by (apply rtc_once; exact (StepGenkey _ _ None (Ret None) ltac:(discriminate) E)).
  assert (ossl_ml_kem_have_pubkey key = true) as Hp by exact (have_Some _ _ Ht).
  destruct (@ml_kem_key_life_invariant flat_digest flat_digest_laws flat_fuel flat_env flat_env_laws None EVP_PKEY_ML_KEM_512 new_512 key new_512_eq Hr)
    as (_ & _ & Hpub). exists key. exact (conj Hr (conj Hp (proj1 (proj2 (Hpub Hp))))).
Defined.
Lemma ml_kem_key_roundtrip_witness :
  exists key key2 key3, ossl_ml_kem_genkey None new_512 = (Ret None, key) /\
    ossl_ml_kem_parse_public_key (encode_pubkey key) new_512 = (Ret tt, key2) /\ k_t key2 = k_t key /\
    ossl_ml_kem_parse_private_key (encode_prvkey key) new_512 = (Ret tt, key3) /\ k_s key3 = k_s key.
Proof.
  destruct flat_key as (key & s & E & Hwf & Hv & Hs & _). destruct (key_private key s Hwf Hs) as (t & Ht & _).
  destruct (@ml_kem_key_roundtrip flat_digest flat_digest_laws flat_fuel flat_env key new_512 Hwf new_512_wf (eq_sym Hv)
    eq_refl eq_refl eq_refl) as (Hpub & Hprv & _).
  destruct (Hpub (encode_pubkey key)) as (key2 & E2 & _ & T2 & _).
  { unfold ossl_ml_kem_encode_public_key, ossl_ml_kem_have_pubkey. by rewrite (have_Some _ _ Ht), Z.eqb_refl. }
  destruct (Hprv (encode_prvkey key)) as (key3 & E3 & _ & S3 & _).
  { unfold ossl_ml_kem_encode_private_key, ossl_ml_kem_have_prvkey. by rewrite (have_Some _ _ Hs), Z.eqb_refl. }
  exists key, key2, key3. exact (conj E (conj E2 (conj T2 (conj E3 S3)))).
Defined.
Lemma ml_kem_dup_loses_public_data_witness :
  exists key key2, ossl_ml_kem_genkey None new_512 = (Ret None, key) /\
    ossl_ml_kem_key_dup key OSSL_KEYMGMT_SELECT_PUBLIC_KEY = Some key2 /\ pkhash_of key2 = zeros 32 /\
    ossl_ml_kem_key_dup key OSSL_KEYMGMT_SELECT_KEYPAIR = None.
Proof.
  destruct flat_key as (key & s & E & Hwf & Hv & Hs & Hd). destruct (key_private key s Hwf Hs) as (t & Ht & _).
  assert (ossl_ml_kem_decoded_key key = false) as Hdec.
  { unfold ossl_ml_kem_decoded_key, ossl_ml_kem_have_dkenc, ossl_ml_kem_have_prvkey. by rewrite (have_None _ Hd), (have_Some _ _ Hs). }
  destruct (@ml_kem_dup_loses_public_data flat_digest flat_fuel flat_env key t Hwf Ht Hdec eq_refl eq_refl eq_refl)
    as ((key2 & E2 & _ & _ & _ & _ & H2 & _) & Hprv).
  exists key, key2. exact (conj E (conj E2 (conj H2 (proj2 (Hprv (have_Some _ _ Hs)))))).
Defined.
