(* ===== verification/MlKemDecap.v ===== *)
(** * ML-KEM: Algorithm 18 of FIPS 203

    Decapsulation specified without the code: K-PKE encryption and decryption on
    polynomials modulo [X^256 + 1] and [q] (Algorithms 14 and 15), the functions G, J and PRF
    as digests of concatenated strings, the codings and roundings by their formulas; and
    the proof that [ossl_ml_kem_decap] computes it, implicit rejection included. *)
From S2P Require Import Prelude.
From S2P Require Import ByteOrder.
From S2P Require Import ZSum.
From S2P Require Import BitPack.
From S2P Require Import Result.
From S2P Require Import ModCong.
From S2P Require Import Transform.
From S2P Require Import NttPass.
From S2P Require Import MlKemField.
From S2P Require Import MlKemNtt.
From S2P Require Import MlKemCode.
From S2P Require Import MlKemHash.
From S2P Require Import MlKemPke.
From S2P Require Import MlKemKey.
From S2P Require Import MlKemKeySpec.
From S2P Require Import MlKemSpec.

#[local] Opaque zsum scalar_ntt scalar_inverse_ntt.

(** ** The specification *)

Section Fips203.
Context `{KD : KemDigest}.

(** The digest of a string: of fixed length, or the first [n] bytes. *)
Definition digest (md : KEM_MD) (x : list Z) : option (list Z) := c ← EVP_DigestInit_ex md; c ← EVP_DigestUpdate c x; EVP_DigestFinal_ex c.
Definition xof (md : KEM_MD) (x : list Z) (n : Z) : option (list Z) := c ← EVP_DigestInit_ex md; c ← EVP_DigestUpdate c x; EVP_DigestFinalXOF c n.
Definition G (x : list Z) : option (list Z) := digest SHA3_512 x.
Definition J (x : list Z) : option (list Z) := xof SHAKE256 x 32.
Definition PRF (eta : nat) (s : list Z) (b : Z) : option (list Z) := xof SHAKE256 (s ++ [b]) (64 * Z.of_nat eta).

(** [p] holds the transform of [f]: its pair [j] is [f] modulo [X^2 - 17^(2 BitRev7(j) + 1)]. *)
Definition transform (p : scalar) (f : Z -> Z) : Prop :=
  forall c j, 0 <= c < 2 -> 0 <= j < 128 -> coeff p (2 * j + c) ≡ₖ evaln 128 (part c f) (17 ^ (2 * BitRev7 j + 1)).
(** [x] is the reduced polynomial congruent to [f]. *)
Definition reduced (x : scalar) (f : Z -> Z) : Prop := zlen x = 256 /\ forall k, 0 <= k < 256 -> coeff x k = f k mod 3329.
(** [eta1] of the parameter set. *)
Definition eta1 (vinfo : ML_KEM_VINFO) : nat := if vi_rank vinfo =? 2 then 3 else 2.
(** The polynomial sampled for the counter [b]. *)
Definition sampled (eta : nat) (r : list Z) (b : Z) (x : scalar) : Prop := exists bs, PRF eta r b = Some bs /\ x = SamplePolyCBD eta bs.

(** Algorithm 14; [a] and [t] hold the transforms of [F], the transpose of the matrix (as the
    key stores it), and of [ft], the vector of the public key. *)
Definition K_PKE_Encrypt (vinfo : ML_KEM_VINFO) (t a : list scalar) (msg r c : list Z) : Prop :=
  let k := vi_rank vinfo in
  exists ft F y e1 e2 u v,
    (forall i, 0 <= i < k -> transform (entry t i) (ft i)) /\
    (forall i j, 0 <= i < k -> 0 <= j < k -> transform (entry a (i * k + j)) (F i j)) /\
    (forall i, 0 <= i < k -> sampled (eta1 vinfo) r i (entry y i)) /\
    (forall i, 0 <= i < k -> sampled 2 r (k + i) (entry e1 i)) /\
    sampled 2 r (2 * k) e2 /\
    (forall i, 0 <= i < k -> reduced (u i) (fun x => zsum (fun j => pmul (F i j) (coeff (entry y j)) x) (Z.to_nat k) + coeff (entry e1 i) x)) /\
    reduced v (fun x => zsum (fun j => pmul (ft j) (coeff (entry y j)) x) (Z.to_nat k) + coeff e2 x + Decompress 1 (coeff (bit_unpack 1 256 msg) x)) /\
    c = mjoin ((fun i => bit_pack (vi_du vinfo) (Compress (vi_du vinfo) <$> u i)) <$> seqZ 0 k) ++ bit_pack (vi_dv vinfo) (Compress (vi_dv vinfo) <$> v).
(** Algorithm 15; [s] holds the transform of [fs], the vector of the private key. *)
Definition K_PKE_Decrypt (vinfo : ML_KEM_VINFO) (s : list scalar) (c m : list Z) : Prop :=
  let k := vi_rank vinfo in
  let du := vi_du vinfo in
  let dv := vi_dv vinfo in
  let u i := Decompress du <$> bit_unpack du 256 (slice c (32 * du * i) (32 * du)) in
  let v := Decompress dv <$> bit_unpack dv 256 (slice c (32 * du * k) (32 * dv)) in
  exists fs w,
    (forall i, 0 <= i < k -> transform (entry s i) (fs i)) /\
    reduced w (fun x => coeff v x - zsum (fun i => pmul (fs i) (coeff (u i)) x) (Z.to_nat k)) /\
    m = bit_pack 1 (Compress 1 <$> w).
(** Algorithm 18 on the parts of a private key: [K] is the result for the ciphertext [c]. *)
Definition Decaps_internal (vinfo : ML_KEM_VINFO) (s t a : list scalar) (h z c K : list Z) : Prop :=
  exists m Kr kbar c',
    K_PKE_Decrypt vinfo s c m /\ G (m ++ h) = Some Kr /\ J (z ++ c) = Some kbar /\
    K_PKE_Encrypt vinfo t a m (slice Kr 32 32) c' /\
    K = if bool_decide (c = c') then slice Kr 0 32 else kbar.
End Fips203.

(** ** The code computes it *)

Section Refines.
Context `{KL : KemDigestLaws} `{FU : Fuel} `{EL : KemEnvLaws}.

Lemma evaln_cong n f r r' : r ≡ₖ r' -> evaln n f r ≡ₖ evaln n f r'.
Proof. intros Hc. unfold evaln. apply zsum_cong. intros i Hi. by rewrite (cong_pow r r' i) by (lia || done). Qed.
Lemma reps_transform p f : reps p f -> transform p f.
Proof.
  intros [_ Hp] c j Hc Hj. pose proof (Hp c Hc j Hj) as E. unfold part at 1 in E. rewrite E. unfold slots. rewrite HNTT_eval by done. apply evaln_cong. by apply mroot_fips.
Qed.
Lemma peq_reduced x f : scalar_ok x -> peq (coeff x) f -> reduced x f.
Proof.
  intros Hx Hf. pose proof Hx as [Hl _]. split; [done|]. intros k Hk. apply (cong_unique (q := ML_KEM_PRIME)); [by apply scalar_coeff|by apply Hf].
Qed.
Lemma compress_map x bits : scalar_ok x -> 1 <= bits <= 11 -> scalar_compress x bits = Compress bits <$> x.
Proof.
  intros [_ Hx] Hb. unfold scalar_compress. apply list_fmap_ext. intros i c Hc. apply compress_spec; [|done]. by apply (Forall_lookup_1 _ _ _ _ Hx Hc).
Qed.
Lemma decode_map b bits : bytes_ok b -> zlen b = 32 * bits -> 2 <= bits <= 11 ->
  scalar_decompress (scalar_decode b bits) bits = Decompress bits <$> bit_unpack bits 256 b /\ scalar_ok (scalar_decompress (scalar_decode b bits) bits).
Proof.
  intros Hok Hl Hb. rewrite scalar_decode_spec by (done || lia). pose proof (bit_unpack_digits bits 256 b ltac:(lia)) as Hd.
  split; [|apply scalar_decompress_ok; [apply bit_unpack_len|done|lia]].
  unfold scalar_decompress. apply list_fmap_ext. intros i c Hc. apply decompress_spec; [lia|]. exact (Forall_lookup_1 _ _ _ _ Hd Hc).
Qed.
Lemma decrypt_spec vinfo s c : is_variant vinfo -> vector_ok (vi_rank vinfo) s -> zlen c = ctext_bytes vinfo -> bytes_ok c ->
  K_PKE_Decrypt vinfo s c (decrypt_cpa vinfo s c).
Proof.
  intros Hvi Hs Hl Hok. destruct (variant_facts _ Hvi) as (Hr & Hdu & Hdv & Hub & _ & _ & _ & Hct). set (k := vi_rank vinfo) in *.
  set (du := vi_du vinfo) in *. set (dv := vi_dv vinfo) in *.
  assert (forall i, 0 <= i < k -> zlen (slice c (32 * du * i) (32 * du)) = 32 * du) as Hlu by (intros i Hi; apply slice_length; nia).
  assert (zlen (slice c (32 * du * k) (32 * dv)) = 32 * dv) as Hlv by (apply slice_length; nia).
  destruct (decode_map _ dv (slice_ok _ (32 * du * k) (32 * dv) Hok) Hlv ltac:(lia)) as [Ev Hv].
  assert (vreps k (vector_decode_decompress_ntt c du k) (fun i => coeff (Decompress du <$> bit_unpack du 256 (slice c (32 * du * i) (32 * du))))) as Hu.
  { split; [apply entries_len; lia|]. intros i Hi. unfold vector_decode_decompress_ntt. rewrite entry_entries by done.
    replace (du * DEGREE / 8) with (32 * du) by (change DEGREE with 256; dlia). replace (i * (32 * du)) with (32 * du * i) by lia.
    destruct (decode_map _ du (slice_ok _ (32 * du * i) (32 * du) Hok) (Hlu i Hi) ltac:(lia)) as [<- Hui]. by apply reps_ntt. }
  destruct (reps_inverse _ _ (inner_product_reps k s _ _ _ ltac:(lia) (vreps_of k s Hs) Hu)) as [Hmask Hmc].
  destruct (scalar_sub_ok _ _ Hv Hmask) as [Hw Hwc].
  exists (fun i => coeff (scalar_inverse_ntt (entry s i))). unfold decrypt_cpa. fold k du dv. unfold V_SCALAR_BYTES. change (DEGREE / 8) with 32.
  rewrite Hub. replace (k * (32 * du)) with (32 * du * k) by lia.  eexists. split_and!.
  - intros i Hi. apply reps_transform, (vreps_of k s Hs). done.
  - apply peq_reduced; [exact Hw|]. intros x Hx. rewrite (Hwc x Hx), (Hmc x Hx), Ev. done.
  - rewrite compress_map by (done || lia). destruct (scalar_compress_ok _ 1 Hw ltac:(lia)) as [Hlc Hdg]. rewrite compress_map in Hlc, Hdg by (done || lia).
    by apply scalar_encode_1_spec.
Qed.
(** ** Hashing *)

Lemma hash_g_spec x : hash_g x = G x.
Proof.
  unfold hash_g, G, digest, single_keccak. destruct (kem_init_ok SHA3_512) as (c & -> & Hc). cbn [mbind option_bind].
  destruct (kem_update_ok c x) as (c' & -> & Hc'). cbn [mbind option_bind]. rewrite Hc', Hc. cbn [EVP_MD_xof].
  destruct (kem_final_ok c') as (b & -> & Hl & _); [by rewrite Hc', Hc|]. cbn [mbind option_bind]. rewrite Hl, Hc', Hc. done.
Qed.
Lemma kdf_spec z c : zlen z = 32 -> kdf z c = J (z ++ c).
Proof.
  intros Hz. unfold kdf, J, xof. change ML_KEM_RANDOM_BYTES with 32. rewrite slice_whole by done.
  destruct (kem_init_ok SHAKE256) as (c0 & -> & _). cbn [mbind option_bind]. rewrite kem_update_app. by destruct (EVP_DigestUpdate c0 z).
Qed.
Lemma prf_spec eta s b : zlen s = 32 -> prf (64 * Z.of_nat eta) (s ++ [b]) = PRF eta s b.
Proof.
  intros Hs. unfold prf, PRF, xof, single_keccak. change (ML_KEM_RANDOM_BYTES + 1) with 33. rewrite slice_whole by (by rewrite zlen_app, Hs).
  destruct (kem_init_ok SHAKE256) as (c & -> & Hc). cbn [mbind option_bind]. destruct (kem_update_ok c (s ++ [b])) as (c' & -> & Hc'). cbn [mbind option_bind].
  by rewrite Hc', Hc.
Qed.
Lemma cbd_sampled eta r b x : zlen r = 32 -> eta = 2%nat /\ cbd_2 (r ++ [b]) = Some x \/ eta = 3%nat /\ cbd_3 (r ++ [b]) = Some x -> sampled eta r b x.
Proof.
  intros Hr [[-> E]|[-> E]].
  - destruct (cbd_2_ok (r ++ [b])) as (bs & Hp & Hc & _). exists bs. split; [by rewrite <- prf_spec|]. rewrite E in Hc. by injection Hc.
  - destruct (cbd_3_ok (r ++ [b])) as (bs & Hp & Hc & _). exists bs. split; [by rewrite <- prf_spec|]. rewrite E in Hc. by injection Hc.
Qed.

(** ** Encryption *)

Lemma encrypt_spec vinfo t a F msg r c : is_variant vinfo -> vector_ok (vi_rank vinfo) t -> mreps (vi_rank vinfo) a F -> zlen msg = 32 -> bytes_ok msg -> zlen r = 32 ->
  encrypt_cpa vinfo t a msg r = Some c -> K_PKE_Encrypt vinfo t a msg r c.
Proof.
  intros Hvi Ht Ha Hl Hok Hr Hc. destruct (variant_facts _ Hvi) as (Hk & Hdu & Hdv & _).
  destruct (encryption_values_ok vinfo Hvi t a _ F (vreps_of _ t Ht) Ha msg r Hl Hok) as (y & e1 & e2 & u & v & Ev & Hy & He1 & He2 & Hu & Hv & Huc & Hvc & Ee).
  rewrite Hc in Ee. apply (inj Some) in Ee as ->. clear Hc. unfold encryption_values in Ev.
  destruct (gencbd_ok (CBD1 (evp_type vinfo)) 0 r (vi_rank vinfo)) as (y' & Ey & _ & _ & Sy); [apply CBD1_samples|lia|lia|lia|].
  destruct (gencbd_ok cbd_2 (0 + vi_rank vinfo) r (vi_rank vinfo)) as (e1' & Ee & _ & _ & Se); [apply cbd_2_samples|lia|lia|lia|].
  rewrite Ey in Ev. cbn [mbind option_bind] in Ev. rewrite Ee in Ev. cbn [mbind option_bind] in Ev.
  change ML_KEM_RANDOM_BYTES with 32 in *. rewrite slice_whole in * by done.
  destruct (cbd_2 (r ++ [0 + vi_rank vinfo + vi_rank vinfo])) as [e2'|] eqn:E2; [|done]. cbn [mbind option_bind] in Ev.
  assert (y' = y /\ e1' = e1 /\ e2' = e2) as (-> & -> & ->) by (by injection Ev). clear Ev.
  exists (fun i => coeff (scalar_inverse_ntt (entry t i))), F, y, e1, e2, (entry u), v. split_and!.
  - intros i Hi. by apply reps_transform, (vreps_of _ t Ht).
  - intros i j Hi Hj. by apply reps_transform, Ha.
  - intros i Hi. apply cbd_sampled; [done|]. specialize (Sy i Hi). rewrite Z.add_0_l in Sy. unfold eta1. unfold CBD1 in Sy.
    destruct (variant_cases _ Hvi) as [-> | [-> | ->]]; [by right|by left|by left].
  - intros i Hi. apply cbd_sampled; [done|]. left. split; [done|]. specialize (Se i Hi). by rewrite Z.add_0_l in Se.
  - apply cbd_sampled; [done|]. left. split; [done|]. by replace (2 * vi_rank vinfo) with (0 + vi_rank vinfo + vi_rank vinfo) by lia.
  - intros i Hi. apply peq_reduced; [by apply (vector_entry (vi_rank vinfo))|]. exact (Huc i Hi).
  - apply peq_reduced; [done|]. intros x Hx. rewrite (Hvc x Hx). pose proof (bit_unpack_digits 1 256 msg ltac:(lia)) as Hd. rewrite coeff_Forall in Hd.
    specialize (Hd x ltac:(by rewrite bit_unpack_len)). set (b := coeff (bit_unpack 1 256 msg) x) in *. unfold is_digit in Hd. change (2 ^ 1) with 2 in Hd.
    assert (b = 0 \/ b = 1) as [-> | ->] by lia; done.
  - destruct (scalar_compress_ok v (vi_dv vinfo) Hv ltac:(lia)) as [Hlv Hdg]. rewrite scalar_encode_spec, compress_map by (done || lia). f_equal.
    unfold vector_encode, entries. f_equal. apply list_fmap_ext. intros n i Hi. apply lookup_seqZ in Hi as [-> Hi]. unfold vector_compress. rewrite entry_entries by lia.
    pose proof (vector_entry _ _ (0 + Z.of_nat n) Hu ltac:(lia)) as Hui. destruct (scalar_compress_ok _ (vi_du vinfo) Hui ltac:(lia)) as [Hlu Hdu'].
    rewrite scalar_encode_spec, compress_map by (done || lia). done.
Qed.

(** C8: decapsulation is Algorithm 18 of FIPS 203 with its implicit rejection.  On any
    well-formed private key a ciphertext of the right length is decrypted to [m'], the
    coefficients of [v - s u] rounded to bits, and [m'] is encrypted again with the
    randomness of [G(m' || h)], [h] the hash of the public key; when that gives the same
    ciphertext the result is the key of [G(m' || h)], and otherwise it is [J(z || c)], the
    hash of the secret [z] and the ciphertext; both count as success.  The decoding,
    rounding and products are those of the standard, stated without the code.  A
    ciphertext of another length leaves 32 random bytes in the buffer (or the buffer as
    it was when the generator fails) and is reported as a failure. *)
Theorem ml_kem_decap_exact key s c buf :
  key_wf key -> k_s key = Some s -> bytes_ok c -> zlen buf = 32 ->
  if zlen c =? ctext_bytes (k_vinfo key) then
    exists K, Decaps_internal (k_vinfo key) s (vec (k_t key)) (vec (k_m key)) (pkhash_of key) (z_of key) c K /\ zlen K = 32 /\
      ossl_ml_kem_decap (Some buf) (Some c) key = Wrote true K
  else ossl_ml_kem_decap (Some buf) (Some c) key =
    Wrote false (default buf (RAND_bytes_ex 32 (vi_secbits (k_vinfo key)))).
Proof.
  intros Hwf Hs Hok Hb. destruct (key_private key s Hwf Hs) as (t & Ht & Hsok & Hzb & _ & Hz & _). pose proof Hwf as (Hvi & _).
  destruct (Z.eqb_spec (zlen c) (ctext_bytes (k_vinfo key))) as [Hl|Hl].
  - destruct (decap_api key s t c buf Hwf Hs Ht Hl Hok Hb) as (K & HD & HlK & Hapi). exists K. split; [|done].
    destruct (decrypt_bytes _ s c Hvi Hsok Hl Hok) as [Hlm Hmok]. unfold Decaps in HD. set (m' := decrypt_cpa (k_vinfo key) s c) in *.
    destruct (hash_g_ok (m' ++ pkhash_of key)) as (Kr & EK & HlKr & _). destruct (kdf_ok (z_of key) c) as (kbar & Ek & _).
    rewrite EK, Ek in HD. cbn [mbind option_bind] in HD. destruct (encrypt_cpa _ _ _ _ _) as [c'|] eqn:Ec; [|done]. injection HD as <-.
    destruct (key_public key t Hwf Ht) as (_ & _ & _ & Htok & (m & Hm & Em) & _).
    destruct (variant_facts _ Hvi) as (Hr & _). destruct (matrix_expand_ok _ (rank_of key) _ ltac:(unfold rank_of; lia) Em) as [_ HM].
    assert (zlen (z_of key) = 32) as Hlz by (unfold z_of; rewrite Hz; cbn [peek]; change ML_KEM_RANDOM_BYTES with 32; apply slice_length; lia).
    exists m', Kr, kbar, c'. split_and!; [by apply decrypt_spec|by rewrite <- hash_g_spec|by rewrite <- kdf_spec| |done].
    rewrite Ht, Hm in *. change (vec (Some ?x)) with x in *. eapply encrypt_spec; [done|exact Htok|exact HM|done|done| |exact Ec]. apply slice_length; lia.
  - unfold ossl_ml_kem_decap, ossl_ml_kem_have_prvkey, decap_random. rewrite (have_Some _ s) by done. cbn [negb]. rewrite Hb.
    apply Z.eqb_neq in Hl as ->. rewrite andb_false_r. cbn [andb]. change ML_KEM_SHARED_SECRET_BYTES with 32. cbn [Z.ltb Z.compare].
    destruct (RAND_bytes_ex 32 _) as [b|] eqn:Eb; [|done]. apply rand_ok in Eb as [Hlb _]. cbn [default from_option]. f_equal.
    unfold splice, zlen in *. change (Z.to_nat 0) with 0%nat. cbn [take app Nat.add]. rewrite drop_ge by lia. by rewrite app_nil_r.
Qed.
End Refines.

#[local] Existing Instance flat_digest.
#[local] Existing Instance flat_fuel.
#[local] Existing Instance flat_env.
Lemma ml_kem_decap_exact_witness :
  exists key K, ossl_ml_kem_genkey None new_512 = (Ret None, key) /\
    ossl_ml_kem_decap (Some (zeros 32)) (Some (zeros 768)) key = Wrote true K /\
    ossl_ml_kem_decap (Some (zeros 32)) (Some [1]) key = Wrote false (zeros 32).
Proof.
  destruct flat_key as (key & s & E & Hwf & Hv & Hs & _).
  pose proof (@ml_kem_decap_exact flat_digest flat_digest_laws flat_fuel flat_env flat_env_laws key s) as D.
  pose proof (D (zeros 768) (zeros 32) Hwf Hs (zeros_ok 768) eq_refl) as D1. rewrite Hv in D1.
  change (zlen (zeros 768) =? ctext_bytes vinfo_512) with true in D1. destruct D1 as (K & _ & _ & D1).
  assert (bytes_ok [1]) as H1 by (by repeat constructor). pose proof (D [1] (zeros 32) Hwf Hs H1 eq_refl) as D2. rewrite Hv in D2.
  change (zlen [1] =? ctext_bytes vinfo_512) with false in D2. eexists key, _. exact (conj E (conj D1 D2)).
Defined.
