(* ===== verification/Keccak.v ===== *)
(** * The Keccak permutation

    Model of the portable C code of [crypto/sha/keccak1600.c]: the reference round and its
    four optimised forms (the macros [KECCAK_REF], [KECCAK_1X], [KECCAK_1X_ALT],
    [KECCAK_2X] with and without the complementing transform, [KECCAK_INPLACE]), for
    machines with 64-bit registers ([BIT_INTERLEAVE] is 0).  The state [A[5][5]] is the
    list of its 25 lanes in memory order; in the unrolled rounds the variable [Ayx] is
    [A[y][x]].  The theorem says that all forms compute the permutation of FIPS 202. *)
From Stdlib Require Import Btauto.
From S2P Require Import Prelude.
From S2P Require Import ZSum.

Declare Scope keccak_scope.
Delimit Scope keccak_scope with K.
Notation "a ⊕ b" := (Z.lxor a b) (at level 50, left associativity) : keccak_scope.
Infix "⊓" := Z.land : keccak_scope.
Infix "⊔" := Z.lor : keccak_scope.
#[local] Open Scope keccak_scope.

(** ** Lanes *)

Definition not64 (x : Z) : Z := u64 (Z.lnot x).
Definition ROL64 (val offset : Z) : Z :=
  if offset =? 0 then val else u64 (Z.shiftl val offset) ⊔ Z.shiftr val (64 - offset).

Definition rhotates : list (list Z) :=
  [[0; 1; 62; 28; 27]; [36; 44; 6; 55; 20]; [3; 10; 43; 25; 39]; [41; 45; 15; 21; 8]; [18; 2; 61; 56; 14]].
Definition rhotate (y x : nat) : Z := default 0 (rhotates !! y ≫= (.!! x)).
Definition iotas : list Z :=
  [0x0000000000000001; 0x0000000000008082; 0x800000000000808a; 0x8000000080008000; 0x000000000000808b; 0x0000000080000001;
   0x8000000080008081; 0x8000000000008009; 0x000000000000008a; 0x0000000000000088; 0x0000000080008009; 0x000000008000000a;
   0x000000008000808b; 0x800000000000008b; 0x8000000000008089; 0x8000000000008003; 0x8000000000008002; 0x8000000000000080;
   0x000000000000800a; 0x800000008000000a; 0x8000000080008081; 0x8000000000008080; 0x0000000080000001; 0x8000000080008008].
Definition iota_at (i : Z) : Z := default 0 (iotas !! Z.to_nat i).

(** [A[y][x]], and the state with entries [f y x]. *)
Definition lane (A : list Z) (y x : nat) : Z := default 0 (A !! (5 * y + x)%nat).
Definition lanes (f : nat -> nat -> Z) : list Z := (fun k => f (k / 5) (k mod 5))%nat <$> seq 0 25.

(** ** The reference form *)

(** The loops update each entry from itself and the arrays [C] and [D]. *)
Definition Theta (A : list Z) : list Z :=
  let C x := fold_left (fun c y => c ⊕ lane A y x) [1; 2; 3; 4]%nat (lane A 0 x) in
  let D x := match x with
    | 0 => ROL64 (C 1) 1 ⊕ C 4
    | 1 => ROL64 (C 2) 1 ⊕ C 0
    | 2 => ROL64 (C 3) 1 ⊕ C 1
    | 3 => ROL64 (C 4) 1 ⊕ C 2
    | _ => ROL64 (C 0) 1 ⊕ C 3
    end%nat in
  lanes (fun y x => lane A y x ⊕ D x).
Definition Rho (A : list Z) : list Z := lanes (fun y x => ROL64 (lane A y x) (rhotate y x)).
Definition Pi (A : list Z) : list Z :=
  let T := lane A in
  [T 0 0; T 1 1; T 2 2; T 3 3; T 4 4;
   T 0 3; T 1 4; T 2 0; T 3 1; T 4 2;
   T 0 1; T 1 2; T 2 3; T 3 4; T 4 0;
   T 0 4; T 1 0; T 2 1; T 3 2; T 4 3;
   T 0 2; T 1 3; T 2 4; T 3 0; T 4 1]%nat.
Definition Chi (A : list Z) : list Z :=
  lanes (fun y x => match x with
    | 0 => lane A y 0 ⊕ (not64 (lane A y 1) ⊓ lane A y 2)
    | 1 => lane A y 1 ⊕ (not64 (lane A y 2) ⊓ lane A y 3)
    | 2 => lane A y 2 ⊕ (not64 (lane A y 3) ⊓ lane A y 4)
    | 3 => lane A y 3 ⊕ (not64 (lane A y 4) ⊓ lane A y 0)
    | _ => lane A y 4 ⊕ (not64 (lane A y 0) ⊓ lane A y 1)
    end%nat).
Definition Iota (A : list Z) (i : Z) : list Z := <[0%nat := lane A 0 0 ⊕ iota_at i]> A.
(** The body of the loop of [KeccakF1600]. *)
Definition Round_ref (A : list Z) (i : Z) : list Z := Iota (Chi (Pi (Rho (Theta A)))) i.
Definition KeccakF1600_ref (A : list Z) : list Z := for_each 24 0 (fun i A => Round_ref A i) A.

(** ** The optimised forms *)

(** The form for other processors than 32-bit ARM. *)
Definition Round_1X (A : list Z) (i : Z) : list Z :=
  match A with
  | [A00; A01; A02; A03; A04; A10; A11; A12; A13; A14; A20; A21; A22; A23; A24; A30; A31; A32; A33; A34; A40; A41; A42; A43; A44] =>
    let C0 := A00 ⊕ A10 ⊕ A20 ⊕ A30 ⊕ A40 in let C1 := A01 ⊕ A11 ⊕ A21 ⊕ A31 ⊕ A41 in
    let C2 := A02 ⊕ A12 ⊕ A22 ⊕ A32 ⊕ A42 in let C3 := A03 ⊕ A13 ⊕ A23 ⊕ A33 ⊕ A43 in
    let C4 := A04 ⊕ A14 ⊕ A24 ⊕ A34 ⊕ A44 in
    let D0 := ROL64 C1 1 ⊕ C4 in let D1 := ROL64 C2 1 ⊕ C0 in let D2 := ROL64 C3 1 ⊕ C1 in
    let D3 := ROL64 C4 1 ⊕ C2 in let D4 := ROL64 C0 1 ⊕ C3 in
    let T00 := A30 ⊕ D0 in let T01 := A01 ⊕ D1 in let T02 := A02 ⊕ D2 in let T03 := A03 ⊕ D3 in let T04 := A04 ⊕ D4 in
    let C0 := A00 ⊕ D0 in let C1 := ROL64 (A11 ⊕ D1) (rhotate 1 1) in let C2 := ROL64 (A22 ⊕ D2) (rhotate 2 2) in
    let C3 := ROL64 (A33 ⊕ D3) (rhotate 3 3) in let C4 := ROL64 (A44 ⊕ D4) (rhotate 4 4) in
    let A00 := C0 ⊕ (not64 C1 ⊓ C2) ⊕ iota_at i in let A01 := C1 ⊕ (not64 C2 ⊓ C3) in
    let A02 := C2 ⊕ (not64 C3 ⊓ C4) in let A03 := C3 ⊕ (not64 C4 ⊓ C0) in let A04 := C4 ⊕ (not64 C0 ⊓ C1) in
    let C3 := D0 in let T10 := A10 ⊕ C3 in let C4 := D1 in let T11 := A21 ⊕ C4 in let E0 := D2 in
    let T12 := A12 ⊕ E0 in let E1 := D3 in let T13 := A13 ⊕ E1 in let C2 := D4 in let T14 := A24 ⊕ C2 in
    let C0 := ROL64 T03 (rhotate 0 3) in let C1 := ROL64 (A14 ⊕ C2) (rhotate 1 4) in
    let C2 := ROL64 (A20 ⊕ C3) (rhotate 2 0) in let C3 := ROL64 (A31 ⊕ C4) (rhotate 3 1) in
    let C4 := ROL64 (A42 ⊕ E0) (rhotate 4 2) in
    let A10 := C0 ⊕ (not64 C1 ⊓ C2) in let A11 := C1 ⊕ (not64 C2 ⊓ C3) in let A12 := C2 ⊕ (not64 C3 ⊓ C4) in
    let A13 := C3 ⊕ (not64 C4 ⊓ C0) in let A14 := C4 ⊕ (not64 C0 ⊓ C1) in
    let C0 := ROL64 T01 (rhotate 0 1) in let C1 := ROL64 T12 (rhotate 1 2) in
    let C2 := ROL64 (A23 ⊕ D3) (rhotate 2 3) in let C3 := ROL64 (A34 ⊕ D4) (rhotate 3 4) in
    let C4 := ROL64 (A40 ⊕ D0) (rhotate 4 0) in
    let A20 := C0 ⊕ (not64 C1 ⊓ C2) in let A21 := C1 ⊕ (not64 C2 ⊓ C3) in let A22 := C2 ⊕ (not64 C3 ⊓ C4) in
    let A23 := C3 ⊕ (not64 C4 ⊓ C0) in let A24 := C4 ⊕ (not64 C0 ⊓ C1) in
    let C0 := ROL64 T04 (rhotate 0 4) in let C1 := ROL64 T10 (rhotate 1 0) in let C2 := ROL64 T11 (rhotate 2 1) in
    let C3 := ROL64 (A32 ⊕ D2) (rhotate 3 2) in let C4 := ROL64 (A43 ⊕ D3) (rhotate 4 3) in
    let A30 := C0 ⊕ (not64 C1 ⊓ C2) in let A31 := C1 ⊕ (not64 C2 ⊓ C3) in let A32 := C2 ⊕ (not64 C3 ⊓ C4) in
    let A33 := C3 ⊕ (not64 C4 ⊓ C0) in let A34 := C4 ⊕ (not64 C0 ⊓ C1) in
    let C0 := ROL64 T02 (rhotate 0 2) in let C1 := ROL64 T13 (rhotate 1 3) in let C2 := ROL64 T14 (rhotate 2 4) in
    let C3 := ROL64 T00 (rhotate 3 0) in let C4 := ROL64 (A41 ⊕ D1) (rhotate 4 1) in
    let A40 := C0 ⊕ (not64 C1 ⊓ C2) in let A41 := C1 ⊕ (not64 C2 ⊓ C3) in let A42 := C2 ⊕ (not64 C3 ⊓ C4) in
    let A43 := C3 ⊕ (not64 C4 ⊓ C0) in let A44 := C4 ⊕ (not64 C0 ⊓ C1) in
    [A00; A01; A02; A03; A04; A10; A11; A12; A13; A14; A20; A21; A22; A23; A24; A30; A31; A32; A33; A34; A40; A41; A42; A43; A44]
  | _ => A
  end.

(** The form with the beginning for 32-bit ARM. *)
Definition Round_1X_arm (A : list Z) (i : Z) : list Z :=
  match A with
  | [A00; A01; A02; A03; A04; A10; A11; A12; A13; A14; A20; A21; A22; A23; A24; A30; A31; A32; A33; A34; A40; A41; A42; A43; A44] =>
    let C0 := A00 ⊕ A10 ⊕ A20 ⊕ A30 ⊕ A40 in let C1 := A01 ⊕ A11 ⊕ A21 ⊕ A31 ⊕ A41 in
    let C2 := A02 ⊕ A12 ⊕ A22 ⊕ A32 ⊕ A42 in let C3 := A03 ⊕ A13 ⊕ A23 ⊕ A33 ⊕ A43 in
    let C4 := A04 ⊕ A14 ⊕ A24 ⊕ A34 ⊕ A44 in
    let E0 := ROL64 C2 1 ⊕ C0 in let D1 := E0 in let E1 := ROL64 C0 1 ⊕ C3 in let D4 := E1 in
    let C0 := ROL64 C1 1 ⊕ C4 in let D0 := C0 in let C1 := ROL64 C3 1 ⊕ C1 in let D2 := C1 in let C2 := ROL64 C4 1 ⊕ C2 in let D3 := C2 in
    let T00 := A30 ⊕ C0 in let T01 := A01 ⊕ E0 in let T02 := A02 ⊕ C1 in let T03 := A03 ⊕ C2 in let T04 := A04 ⊕ E1 in
    let C3 := ROL64 (A33 ⊕ C2) (rhotate 3 3) in let C4 := ROL64 (A44 ⊕ E1) (rhotate 4 4) in let C0 := A00 ⊕ C0 in
    let C2 := ROL64 (A22 ⊕ C1) (rhotate 2 2) in let C1 := ROL64 (A11 ⊕ E0) (rhotate 1 1) in
    let A00 := C0 ⊕ (not64 C1 ⊓ C2) ⊕ iota_at i in let A01 := C1 ⊕ (not64 C2 ⊓ C3) in
    let A02 := C2 ⊕ (not64 C3 ⊓ C4) in let A03 := C3 ⊕ (not64 C4 ⊓ C0) in let A04 := C4 ⊕ (not64 C0 ⊓ C1) in
    let C3 := D0 in let T10 := A10 ⊕ C3 in let C4 := D1 in let T11 := A21 ⊕ C4 in let E0 := D2 in
    let T12 := A12 ⊕ E0 in let E1 := D3 in let T13 := A13 ⊕ E1 in let C2 := D4 in let T14 := A24 ⊕ C2 in
    let C0 := ROL64 T03 (rhotate 0 3) in let C1 := ROL64 (A14 ⊕ C2) (rhotate 1 4) in
    let C2 := ROL64 (A20 ⊕ C3) (rhotate 2 0) in let C3 := ROL64 (A31 ⊕ C4) (rhotate 3 1) in
    let C4 := ROL64 (A42 ⊕ E0) (rhotate 4 2) in
    let A10 := C0 ⊕ (not64 C1 ⊓ C2) in let A11 := C1 ⊕ (not64 C2 ⊓ C3) in let A12 := C2 ⊕ (not64 C3 ⊓ C4) in
    let A13 := C3 ⊕ (not64 C4 ⊓ C0) in let A14 := C4 ⊕ (not64 C0 ⊓ C1) in
    let C0 := ROL64 T01 (rhotate 0 1) in let C1 := ROL64 T12 (rhotate 1 2) in
    let C2 := ROL64 (A23 ⊕ D3) (rhotate 2 3) in let C3 := ROL64 (A34 ⊕ D4) (rhotate 3 4) in
    let C4 := ROL64 (A40 ⊕ D0) (rhotate 4 0) in
    let A20 := C0 ⊕ (not64 C1 ⊓ C2) in let A21 := C1 ⊕ (not64 C2 ⊓ C3) in let A22 := C2 ⊕ (not64 C3 ⊓ C4) in
    let A23 := C3 ⊕ (not64 C4 ⊓ C0) in let A24 := C4 ⊕ (not64 C0 ⊓ C1) in
    let C0 := ROL64 T04 (rhotate 0 4) in let C1 := ROL64 T10 (rhotate 1 0) in let C2 := ROL64 T11 (rhotate 2 1) in
    let C3 := ROL64 (A32 ⊕ D2) (rhotate 3 2) in let C4 := ROL64 (A43 ⊕ D3) (rhotate 4 3) in
    let A30 := C0 ⊕ (not64 C1 ⊓ C2) in let A31 := C1 ⊕ (not64 C2 ⊓ C3) in let A32 := C2 ⊕ (not64 C3 ⊓ C4) in
    let A33 := C3 ⊕ (not64 C4 ⊓ C0) in let A34 := C4 ⊕ (not64 C0 ⊓ C1) in
    let C0 := ROL64 T02 (rhotate 0 2) in let C1 := ROL64 T13 (rhotate 1 3) in let C2 := ROL64 T14 (rhotate 2 4) in
    let C3 := ROL64 T00 (rhotate 3 0) in let C4 := ROL64 (A41 ⊕ D1) (rhotate 4 1) in
    let A40 := C0 ⊕ (not64 C1 ⊓ C2) in let A41 := C1 ⊕ (not64 C2 ⊓ C3) in let A42 := C2 ⊕ (not64 C3 ⊓ C4) in
    let A43 := C3 ⊕ (not64 C4 ⊓ C0) in let A44 := C4 ⊕ (not64 C0 ⊓ C1) in
    [A00; A01; A02; A03; A04; A10; A11; A12; A13; A14; A20; A21; A22; A23; A24; A30; A31; A32; A33; A34; A40; A41; A42; A43; A44]
  | _ => A
  end.

Definition Round_1X_ALT (A : list Z) (i : Z) : list Z :=
  match A with
  | [A00; A01; A02; A03; A04; A10; A11; A12; A13; A14; A20; A21; A22; A23; A24; A30; A31; A32; A33; A34; A40; A41; A42; A43; A44] =>
    let C0 := A00 ⊕ A10 ⊕ A20 ⊕ A30 ⊕ A40 in let C1 := A01 ⊕ A11 ⊕ A21 ⊕ A31 ⊕ A41 in
    let C2 := A02 ⊕ A12 ⊕ A22 ⊕ A32 ⊕ A42 in let C3 := A03 ⊕ A13 ⊕ A23 ⊕ A33 ⊕ A43 in
    let C4 := A04 ⊕ A14 ⊕ A24 ⊕ A34 ⊕ A44 in
    let D1 := C0 ⊕ ROL64 C2 1 in let D2 := C1 ⊕ ROL64 C3 1 in let C2 := C2 ⊕ (ROL64 C4 1) in let D3 := C2 in
    let C3 := C3 ⊕ (ROL64 C0 1) in let D4 := C3 in let C4 := C4 ⊕ (ROL64 C1 1) in let D0 := C4 in
    let A01 := A01 ⊕ D1 in let A11 := A11 ⊕ D1 in let A21 := A21 ⊕ D1 in let A31 := A31 ⊕ D1 in let A41 := A41 ⊕ D1 in
    let A02 := A02 ⊕ D2 in let A12 := A12 ⊕ D2 in let A22 := A22 ⊕ D2 in let A32 := A32 ⊕ D2 in let A42 := A42 ⊕ D2 in
    let A03 := A03 ⊕ C2 in let A13 := A13 ⊕ C2 in let A23 := A23 ⊕ C2 in let A33 := A33 ⊕ C2 in let A43 := A43 ⊕ C2 in
    let A04 := A04 ⊕ C3 in let A14 := A14 ⊕ C3 in let A24 := A24 ⊕ C3 in let A34 := A34 ⊕ C3 in let A44 := A44 ⊕ C3 in
    let A00 := A00 ⊕ C4 in let A10 := A10 ⊕ C4 in let A20 := A20 ⊕ C4 in let A30 := A30 ⊕ C4 in let A40 := A40 ⊕ C4 in
    let C1 := A01 in let C2 := A02 in let C3 := A03 in let C4 := A04 in
    let A01 := ROL64 A11 (rhotate 1 1) in let A02 := ROL64 A22 (rhotate 2 2) in let A03 := ROL64 A33 (rhotate 3 3) in
    let A04 := ROL64 A44 (rhotate 4 4) in
    let A11 := ROL64 A14 (rhotate 1 4) in let A22 := ROL64 A23 (rhotate 2 3) in let A33 := ROL64 A32 (rhotate 3 2) in
    let A44 := ROL64 A41 (rhotate 4 1) in
    let A14 := ROL64 A42 (rhotate 4 2) in let A23 := ROL64 A34 (rhotate 3 4) in let A32 := ROL64 A21 (rhotate 2 1) in
    let A41 := ROL64 A13 (rhotate 1 3) in
    let A42 := ROL64 A24 (rhotate 2 4) in let A34 := ROL64 A43 (rhotate 4 3) in let A21 := ROL64 A12 (rhotate 1 2) in
    let A13 := ROL64 A31 (rhotate 3 1) in
    let A24 := ROL64 A40 (rhotate 4 0) in let A43 := ROL64 A30 (rhotate 3 0) in let A12 := ROL64 A20 (rhotate 2 0) in
    let A31 := ROL64 A10 (rhotate 1 0) in
    let A10 := ROL64 C3 (rhotate 0 3) in let A20 := ROL64 C1 (rhotate 0 1) in let A30 := ROL64 C4 (rhotate 0 4) in
    let A40 := ROL64 C2 (rhotate 0 2) in
    let C0 := A00 in let C1 := A10 in let D0 := A01 in let D1 := A11 in
    let A00 := A00 ⊕ (not64 A01 ⊓ A02) in let A10 := A10 ⊕ (not64 A11 ⊓ A12) in let A01 := A01 ⊕ (not64 A02 ⊓ A03) in
    let A11 := A11 ⊕ (not64 A12 ⊓ A13) in let A02 := A02 ⊕ (not64 A03 ⊓ A04) in let A12 := A12 ⊕ (not64 A13 ⊓ A14) in
    let A03 := A03 ⊕ (not64 A04 ⊓ C0) in let A13 := A13 ⊕ (not64 A14 ⊓ C1) in let A04 := A04 ⊕ (not64 C0 ⊓ D0) in
    let A14 := A14 ⊕ (not64 C1 ⊓ D1) in
    let C2 := A20 in let C3 := A30 in let D2 := A21 in let D3 := A31 in
    let A20 := A20 ⊕ (not64 A21 ⊓ A22) in let A30 := A30 ⊕ (not64 A31 ⊓ A32) in let A21 := A21 ⊕ (not64 A22 ⊓ A23) in
    let A31 := A31 ⊕ (not64 A32 ⊓ A33) in let A22 := A22 ⊕ (not64 A23 ⊓ A24) in let A32 := A32 ⊕ (not64 A33 ⊓ A34) in
    let A23 := A23 ⊕ (not64 A24 ⊓ C2) in let A33 := A33 ⊕ (not64 A34 ⊓ C3) in let A24 := A24 ⊕ (not64 C2 ⊓ D2) in
    let A34 := A34 ⊕ (not64 C3 ⊓ D3) in
    let C4 := A40 in let D4 := A41 in
    let A40 := A40 ⊕ (not64 A41 ⊓ A42) in let A41 := A41 ⊕ (not64 A42 ⊓ A43) in let A42 := A42 ⊕ (not64 A43 ⊓ A44) in
    let A43 := A43 ⊕ (not64 A44 ⊓ C4) in let A44 := A44 ⊕ (not64 C4 ⊓ D4) in let A00 := A00 ⊕ (iota_at i) in
    [A00; A01; A02; A03; A04; A10; A11; A12; A13; A14; A20; A21; A22; A23; A24; A30; A31; A32; A33; A34; A40; A41; A42; A43; A44]
  | _ => A
  end.

Definition Round_2X (A : list Z) (i : Z) : list Z :=
  match A with
  | [A00; A01; A02; A03; A04; A10; A11; A12; A13; A14; A20; A21; A22; A23; A24; A30; A31; A32; A33; A34; A40; A41; A42; A43; A44] =>
    let C0 := A00 ⊕ A10 ⊕ A20 ⊕ A30 ⊕ A40 in let C1 := A01 ⊕ A11 ⊕ A21 ⊕ A31 ⊕ A41 in
    let C2 := A02 ⊕ A12 ⊕ A22 ⊕ A32 ⊕ A42 in let C3 := A03 ⊕ A13 ⊕ A23 ⊕ A33 ⊕ A43 in
    let C4 := A04 ⊕ A14 ⊕ A24 ⊕ A34 ⊕ A44 in
    let D0 := ROL64 C1 1 ⊕ C4 in let D1 := ROL64 C2 1 ⊕ C0 in let D2 := ROL64 C3 1 ⊕ C1 in
    let D3 := ROL64 C4 1 ⊕ C2 in let D4 := ROL64 C0 1 ⊕ C3 in
    let C0 := A00 ⊕ D0 in let C1 := ROL64 (A11 ⊕ D1) (rhotate 1 1) in let C2 := ROL64 (A22 ⊕ D2) (rhotate 2 2) in
    let C3 := ROL64 (A33 ⊕ D3) (rhotate 3 3) in let C4 := ROL64 (A44 ⊕ D4) (rhotate 4 4) in
    let R00 := C0 ⊕ (not64 C1 ⊓ C2) ⊕ iota_at i in let R01 := C1 ⊕ (not64 C2 ⊓ C3) in
    let R02 := C2 ⊕ (not64 C3 ⊓ C4) in let R03 := C3 ⊕ (not64 C4 ⊓ C0) in let R04 := C4 ⊕ (not64 C0 ⊓ C1) in
    let C0 := ROL64 (A03 ⊕ D3) (rhotate 0 3) in let C1 := ROL64 (A14 ⊕ D4) (rhotate 1 4) in
    let C2 := ROL64 (A20 ⊕ D0) (rhotate 2 0) in let C3 := ROL64 (A31 ⊕ D1) (rhotate 3 1) in
    let C4 := ROL64 (A42 ⊕ D2) (rhotate 4 2) in
    let R10 := C0 ⊕ (not64 C1 ⊓ C2) in let R11 := C1 ⊕ (not64 C2 ⊓ C3) in let R12 := C2 ⊕ (not64 C3 ⊓ C4) in
    let R13 := C3 ⊕ (not64 C4 ⊓ C0) in let R14 := C4 ⊕ (not64 C0 ⊓ C1) in
    let C0 := ROL64 (A01 ⊕ D1) (rhotate 0 1) in let C1 := ROL64 (A12 ⊕ D2) (rhotate 1 2) in
    let C2 := ROL64 (A23 ⊕ D3) (rhotate 2 3) in let C3 := ROL64 (A34 ⊕ D4) (rhotate 3 4) in
    let C4 := ROL64 (A40 ⊕ D0) (rhotate 4 0) in
    let R20 := C0 ⊕ (not64 C1 ⊓ C2) in let R21 := C1 ⊕ (not64 C2 ⊓ C3) in let R22 := C2 ⊕ (not64 C3 ⊓ C4) in
    let R23 := C3 ⊕ (not64 C4 ⊓ C0) in let R24 := C4 ⊕ (not64 C0 ⊓ C1) in
    let C0 := ROL64 (A04 ⊕ D4) (rhotate 0 4) in let C1 := ROL64 (A10 ⊕ D0) (rhotate 1 0) in
    let C2 := ROL64 (A21 ⊕ D1) (rhotate 2 1) in let C3 := ROL64 (A32 ⊕ D2) (rhotate 3 2) in
    let C4 := ROL64 (A43 ⊕ D3) (rhotate 4 3) in
    let R30 := C0 ⊕ (not64 C1 ⊓ C2) in let R31 := C1 ⊕ (not64 C2 ⊓ C3) in let R32 := C2 ⊕ (not64 C3 ⊓ C4) in
    let R33 := C3 ⊕ (not64 C4 ⊓ C0) in let R34 := C4 ⊕ (not64 C0 ⊓ C1) in
    let C0 := ROL64 (A02 ⊕ D2) (rhotate 0 2) in let C1 := ROL64 (A13 ⊕ D3) (rhotate 1 3) in
    let C2 := ROL64 (A24 ⊕ D4) (rhotate 2 4) in let C3 := ROL64 (A30 ⊕ D0) (rhotate 3 0) in
    let C4 := ROL64 (A41 ⊕ D1) (rhotate 4 1) in
    let R40 := C0 ⊕ (not64 C1 ⊓ C2) in let R41 := C1 ⊕ (not64 C2 ⊓ C3) in let R42 := C2 ⊕ (not64 C3 ⊓ C4) in
    let R43 := C3 ⊕ (not64 C4 ⊓ C0) in let R44 := C4 ⊕ (not64 C0 ⊓ C1) in
    [R00; R01; R02; R03; R04; R10; R11; R12; R13; R14; R20; R21; R22; R23; R24; R30; R31; R32; R33; R34; R40; R41; R42; R43; R44]
  | _ => A
  end.

Definition Round_2X_ct (A : list Z) (i : Z) : list Z :=
  match A with
  | [A00; A01; A02; A03; A04; A10; A11; A12; A13; A14; A20; A21; A22; A23; A24; A30; A31; A32; A33; A34; A40; A41; A42; A43; A44] =>
    let C0 := A00 ⊕ A10 ⊕ A20 ⊕ A30 ⊕ A40 in let C1 := A01 ⊕ A11 ⊕ A21 ⊕ A31 ⊕ A41 in
    let C2 := A02 ⊕ A12 ⊕ A22 ⊕ A32 ⊕ A42 in let C3 := A03 ⊕ A13 ⊕ A23 ⊕ A33 ⊕ A43 in
    let C4 := A04 ⊕ A14 ⊕ A24 ⊕ A34 ⊕ A44 in
    let D0 := ROL64 C1 1 ⊕ C4 in let D1 := ROL64 C2 1 ⊕ C0 in let D2 := ROL64 C3 1 ⊕ C1 in
    let D3 := ROL64 C4 1 ⊕ C2 in let D4 := ROL64 C0 1 ⊕ C3 in
    let C0 := A00 ⊕ D0 in let C1 := ROL64 (A11 ⊕ D1) (rhotate 1 1) in let C2 := ROL64 (A22 ⊕ D2) (rhotate 2 2) in
    let C3 := ROL64 (A33 ⊕ D3) (rhotate 3 3) in let C4 := ROL64 (A44 ⊕ D4) (rhotate 4 4) in
    let R00 := C0 ⊕ (C1 ⊔ C2) ⊕ iota_at i in let R01 := C1 ⊕ (not64 C2 ⊔ C3) in let R02 := C2 ⊕ (C3 ⊓ C4) in
    let R03 := C3 ⊕ (C4 ⊔ C0) in let R04 := C4 ⊕ (C0 ⊓ C1) in
    let C0 := ROL64 (A03 ⊕ D3) (rhotate 0 3) in let C1 := ROL64 (A14 ⊕ D4) (rhotate 1 4) in
    let C2 := ROL64 (A20 ⊕ D0) (rhotate 2 0) in let C3 := ROL64 (A31 ⊕ D1) (rhotate 3 1) in
    let C4 := ROL64 (A42 ⊕ D2) (rhotate 4 2) in
    let R10 := C0 ⊕ (C1 ⊔ C2) in let R11 := C1 ⊕ (C2 ⊓ C3) in let R12 := C2 ⊕ (C3 ⊔ not64 C4) in
    let R13 := C3 ⊕ (C4 ⊔ C0) in let R14 := C4 ⊕ (C0 ⊓ C1) in
    let C0 := ROL64 (A01 ⊕ D1) (rhotate 0 1) in let C1 := ROL64 (A12 ⊕ D2) (rhotate 1 2) in
    let C2 := ROL64 (A23 ⊕ D3) (rhotate 2 3) in let C3 := ROL64 (A34 ⊕ D4) (rhotate 3 4) in
    let C4 := ROL64 (A40 ⊕ D0) (rhotate 4 0) in
    let R20 := C0 ⊕ (C1 ⊔ C2) in let R21 := C1 ⊕ (C2 ⊓ C3) in let R22 := C2 ⊕ (not64 C3 ⊓ C4) in
    let R23 := not64 C3 ⊕ (C4 ⊔ C0) in let R24 := C4 ⊕ (C0 ⊓ C1) in
    let C0 := ROL64 (A04 ⊕ D4) (rhotate 0 4) in let C1 := ROL64 (A10 ⊕ D0) (rhotate 1 0) in
    let C2 := ROL64 (A21 ⊕ D1) (rhotate 2 1) in let C3 := ROL64 (A32 ⊕ D2) (rhotate 3 2) in
    let C4 := ROL64 (A43 ⊕ D3) (rhotate 4 3) in
    let R30 := C0 ⊕ (C1 ⊓ C2) in let R31 := C1 ⊕ (C2 ⊔ C3) in let R32 := C2 ⊕ (not64 C3 ⊔ C4) in
    let R33 := not64 C3 ⊕ (C4 ⊓ C0) in let R34 := C4 ⊕ (C0 ⊔ C1) in
    let C0 := ROL64 (A02 ⊕ D2) (rhotate 0 2) in let C1 := ROL64 (A13 ⊕ D3) (rhotate 1 3) in
    let C2 := ROL64 (A24 ⊕ D4) (rhotate 2 4) in let C3 := ROL64 (A30 ⊕ D0) (rhotate 3 0) in
    let C4 := ROL64 (A41 ⊕ D1) (rhotate 4 1) in
    let R40 := C0 ⊕ (not64 C1 ⊓ C2) in let R41 := not64 C1 ⊕ (C2 ⊔ C3) in let R42 := C2 ⊕ (C3 ⊓ C4) in
    let R43 := C3 ⊕ (C4 ⊔ C0) in let R44 := C4 ⊕ (C0 ⊓ C1) in
    [R00; R01; R02; R03; R04; R10; R11; R12; R13; R14; R20; R21; R22; R23; R24; R30; R31; R32; R33; R34; R40; R41; R42; R43; R44]
  | _ => A
  end.

Definition FourRounds_0 (A : list Z) (i : Z) : list Z * list Z :=
  match A with
  | [A00; A01; A02; A03; A04; A10; A11; A12; A13; A14; A20; A21; A22; A23; A24; A30; A31; A32; A33; A34; A40; A41; A42; A43; A44] =>
    let C0 := A00 ⊕ A10 ⊕ A20 ⊕ A30 ⊕ A40 in let C1 := A01 ⊕ A11 ⊕ A21 ⊕ A31 ⊕ A41 in
    let C2 := A02 ⊕ A12 ⊕ A22 ⊕ A32 ⊕ A42 in let C3 := A03 ⊕ A13 ⊕ A23 ⊕ A33 ⊕ A43 in
    let C4 := A04 ⊕ A14 ⊕ A24 ⊕ A34 ⊕ A44 in
    let D0 := ROL64 C1 1 ⊕ C4 in let D1 := ROL64 C2 1 ⊕ C0 in let D2 := ROL64 C3 1 ⊕ C1 in
    let D3 := ROL64 C4 1 ⊕ C2 in let D4 := ROL64 C0 1 ⊕ C3 in
    let B0 := A00 ⊕ D0 in let B1 := ROL64 (A11 ⊕ D1) (rhotate 1 1) in let B2 := ROL64 (A22 ⊕ D2) (rhotate 2 2) in
    let B3 := ROL64 (A33 ⊕ D3) (rhotate 3 3) in let B4 := ROL64 (A44 ⊕ D4) (rhotate 4 4) in
    let A00 := B0 ⊕ (not64 B1 ⊓ B2) ⊕ iota_at i in let C0 := A00 in let A11 := B1 ⊕ (not64 B2 ⊓ B3) in
    let C1 := A11 in let A22 := B2 ⊕ (not64 B3 ⊓ B4) in let C2 := A22 in let A33 := B3 ⊕ (not64 B4 ⊓ B0) in
    let C3 := A33 in let A44 := B4 ⊕ (not64 B0 ⊓ B1) in let C4 := A44 in
    let B0 := ROL64 (A03 ⊕ D3) (rhotate 0 3) in let B1 := ROL64 (A14 ⊕ D4) (rhotate 1 4) in
    let B2 := ROL64 (A20 ⊕ D0) (rhotate 2 0) in let B3 := ROL64 (A31 ⊕ D1) (rhotate 3 1) in
    let B4 := ROL64 (A42 ⊕ D2) (rhotate 4 2) in
    let A20 := B0 ⊕ (not64 B1 ⊓ B2) in let C0 := C0 ⊕ A20 in let A31 := B1 ⊕ (not64 B2 ⊓ B3) in let C1 := C1 ⊕ A31 in
    let A42 := B2 ⊕ (not64 B3 ⊓ B4) in let C2 := C2 ⊕ A42 in let A03 := B3 ⊕ (not64 B4 ⊓ B0) in let C3 := C3 ⊕ A03 in
    let A14 := B4 ⊕ (not64 B0 ⊓ B1) in let C4 := C4 ⊕ A14 in
    let B0 := ROL64 (A01 ⊕ D1) (rhotate 0 1) in let B1 := ROL64 (A12 ⊕ D2) (rhotate 1 2) in
    let B2 := ROL64 (A23 ⊕ D3) (rhotate 2 3) in let B3 := ROL64 (A34 ⊕ D4) (rhotate 3 4) in
    let B4 := ROL64 (A40 ⊕ D0) (rhotate 4 0) in
    let A40 := B0 ⊕ (not64 B1 ⊓ B2) in let C0 := C0 ⊕ A40 in let A01 := B1 ⊕ (not64 B2 ⊓ B3) in let C1 := C1 ⊕ A01 in
    let A12 := B2 ⊕ (not64 B3 ⊓ B4) in let C2 := C2 ⊕ A12 in let A23 := B3 ⊕ (not64 B4 ⊓ B0) in let C3 := C3 ⊕ A23 in
    let A34 := B4 ⊕ (not64 B0 ⊓ B1) in let C4 := C4 ⊕ A34 in
    let B0 := ROL64 (A04 ⊕ D4) (rhotate 0 4) in let B1 := ROL64 (A10 ⊕ D0) (rhotate 1 0) in
    let B2 := ROL64 (A21 ⊕ D1) (rhotate 2 1) in let B3 := ROL64 (A32 ⊕ D2) (rhotate 3 2) in
    let B4 := ROL64 (A43 ⊕ D3) (rhotate 4 3) in
    let A10 := B0 ⊕ (not64 B1 ⊓ B2) in let C0 := C0 ⊕ A10 in let A21 := B1 ⊕ (not64 B2 ⊓ B3) in let C1 := C1 ⊕ A21 in
    let A32 := B2 ⊕ (not64 B3 ⊓ B4) in let C2 := C2 ⊕ A32 in let A43 := B3 ⊕ (not64 B4 ⊓ B0) in let C3 := C3 ⊕ A43 in
    let A04 := B4 ⊕ (not64 B0 ⊓ B1) in let C4 := C4 ⊕ A04 in
    let B0 := ROL64 (A02 ⊕ D2) (rhotate 0 2) in let B1 := ROL64 (A13 ⊕ D3) (rhotate 1 3) in
    let B2 := ROL64 (A24 ⊕ D4) (rhotate 2 4) in let B3 := ROL64 (A30 ⊕ D0) (rhotate 3 0) in
    let B4 := ROL64 (A41 ⊕ D1) (rhotate 4 1) in
    let A30 := B0 ⊕ (not64 B1 ⊓ B2) in let C0 := C0 ⊕ A30 in let A41 := B1 ⊕ (not64 B2 ⊓ B3) in let C1 := C1 ⊕ A41 in
    let A02 := B2 ⊕ (not64 B3 ⊓ B4) in let C2 := C2 ⊕ A02 in let A13 := B3 ⊕ (not64 B4 ⊓ B0) in let C3 := C3 ⊕ A13 in
    let A24 := B4 ⊕ (not64 B0 ⊓ B1) in let C4 := C4 ⊕ A24 in
    ([A00; A01; A02; A03; A04; A10; A11; A12; A13; A14; A20; A21; A22; A23; A24; A30; A31; A32; A33; A34; A40; A41; A42; A43; A44], [C0; C1; C2; C3; C4])
  | _ => (A, [])
  end.

Definition FourRounds_1 (AC : list Z * list Z) (i : Z) : list Z * list Z :=
  match AC with
  | ([A00; A01; A02; A03; A04; A10; A11; A12; A13; A14; A20; A21; A22; A23; A24; A30; A31; A32; A33; A34; A40; A41; A42; A43; A44], [C0; C1; C2; C3; C4]) =>
    let D0 := ROL64 C1 1 ⊕ C4 in let D1 := ROL64 C2 1 ⊕ C0 in let D2 := ROL64 C3 1 ⊕ C1 in
    let D3 := ROL64 C4 1 ⊕ C2 in let D4 := ROL64 C0 1 ⊕ C3 in
    let B0 := A00 ⊕ D0 in let B1 := ROL64 (A31 ⊕ D1) (rhotate 1 1) in let B2 := ROL64 (A12 ⊕ D2) (rhotate 2 2) in
    let B3 := ROL64 (A43 ⊕ D3) (rhotate 3 3) in let B4 := ROL64 (A24 ⊕ D4) (rhotate 4 4) in
    let A00 := B0 ⊕ (not64 B1 ⊓ B2) ⊕ iota_at (i + 1) in let C0 := A00 in let A31 := B1 ⊕ (not64 B2 ⊓ B3) in
    let C1 := A31 in let A12 := B2 ⊕ (not64 B3 ⊓ B4) in let C2 := A12 in let A43 := B3 ⊕ (not64 B4 ⊓ B0) in
    let C3 := A43 in let A24 := B4 ⊕ (not64 B0 ⊓ B1) in let C4 := A24 in
    let B0 := ROL64 (A33 ⊕ D3) (rhotate 0 3) in let B1 := ROL64 (A14 ⊕ D4) (rhotate 1 4) in
    let B2 := ROL64 (A40 ⊕ D0) (rhotate 2 0) in let B3 := ROL64 (A21 ⊕ D1) (rhotate 3 1) in
    let B4 := ROL64 (A02 ⊕ D2) (rhotate 4 2) in
    let A40 := B0 ⊕ (not64 B1 ⊓ B2) in let C0 := C0 ⊕ A40 in let A21 := B1 ⊕ (not64 B2 ⊓ B3) in let C1 := C1 ⊕ A21 in
    let A02 := B2 ⊕ (not64 B3 ⊓ B4) in let C2 := C2 ⊕ A02 in let A33 := B3 ⊕ (not64 B4 ⊓ B0) in let C3 := C3 ⊕ A33 in
    let A14 := B4 ⊕ (not64 B0 ⊓ B1) in let C4 := C4 ⊕ A14 in
    let B0 := ROL64 (A11 ⊕ D1) (rhotate 0 1) in let B1 := ROL64 (A42 ⊕ D2) (rhotate 1 2) in
    let B2 := ROL64 (A23 ⊕ D3) (rhotate 2 3) in let B3 := ROL64 (A04 ⊕ D4) (rhotate 3 4) in
    let B4 := ROL64 (A30 ⊕ D0) (rhotate 4 0) in
    let A30 := B0 ⊕ (not64 B1 ⊓ B2) in let C0 := C0 ⊕ A30 in let A11 := B1 ⊕ (not64 B2 ⊓ B3) in let C1 := C1 ⊕ A11 in
    let A42 := B2 ⊕ (not64 B3 ⊓ B4) in let C2 := C2 ⊕ A42 in let A23 := B3 ⊕ (not64 B4 ⊓ B0) in let C3 := C3 ⊕ A23 in
    let A04 := B4 ⊕ (not64 B0 ⊓ B1) in let C4 := C4 ⊕ A04 in
    let B0 := ROL64 (A44 ⊕ D4) (rhotate 0 4) in let B1 := ROL64 (A20 ⊕ D0) (rhotate 1 0) in
    let B2 := ROL64 (A01 ⊕ D1) (rhotate 2 1) in let B3 := ROL64 (A32 ⊕ D2) (rhotate 3 2) in
    let B4 := ROL64 (A13 ⊕ D3) (rhotate 4 3) in
    let A20 := B0 ⊕ (not64 B1 ⊓ B2) in let C0 := C0 ⊕ A20 in let A01 := B1 ⊕ (not64 B2 ⊓ B3) in let C1 := C1 ⊕ A01 in
    let A32 := B2 ⊕ (not64 B3 ⊓ B4) in let C2 := C2 ⊕ A32 in let A13 := B3 ⊕ (not64 B4 ⊓ B0) in let C3 := C3 ⊕ A13 in
    let A44 := B4 ⊕ (not64 B0 ⊓ B1) in let C4 := C4 ⊕ A44 in
    let B0 := ROL64 (A22 ⊕ D2) (rhotate 0 2) in let B1 := ROL64 (A03 ⊕ D3) (rhotate 1 3) in
    let B2 := ROL64 (A34 ⊕ D4) (rhotate 2 4) in let B3 := ROL64 (A10 ⊕ D0) (rhotate 3 0) in
    let B4 := ROL64 (A41 ⊕ D1) (rhotate 4 1) in
    let A10 := B0 ⊕ (not64 B1 ⊓ B2) in let C0 := C0 ⊕ A10 in let A41 := B1 ⊕ (not64 B2 ⊓ B3) in let C1 := C1 ⊕ A41 in
    let A22 := B2 ⊕ (not64 B3 ⊓ B4) in let C2 := C2 ⊕ A22 in let A03 := B3 ⊕ (not64 B4 ⊓ B0) in let C3 := C3 ⊕ A03 in
    let A34 := B4 ⊕ (not64 B0 ⊓ B1) in let C4 := C4 ⊕ A34 in
    ([A00; A01; A02; A03; A04; A10; A11; A12; A13; A14; A20; A21; A22; A23; A24; A30; A31; A32; A33; A34; A40; A41; A42; A43; A44], [C0; C1; C2; C3; C4])
  | _ => AC
  end.

Definition FourRounds_2 (AC : list Z * list Z) (i : Z) : list Z * list Z :=
  match AC with
  | ([A00; A01; A02; A03; A04; A10; A11; A12; A13; A14; A20; A21; A22; A23; A24; A30; A31; A32; A33; A34; A40; A41; A42; A43; A44], [C0; C1; C2; C3; C4]) =>
    let D0 := ROL64 C1 1 ⊕ C4 in let D1 := ROL64 C2 1 ⊕ C0 in let D2 := ROL64 C3 1 ⊕ C1 in
    let D3 := ROL64 C4 1 ⊕ C2 in let D4 := ROL64 C0 1 ⊕ C3 in
    let B0 := A00 ⊕ D0 in let B1 := ROL64 (A21 ⊕ D1) (rhotate 1 1) in let B2 := ROL64 (A42 ⊕ D2) (rhotate 2 2) in
    let B3 := ROL64 (A13 ⊕ D3) (rhotate 3 3) in let B4 := ROL64 (A34 ⊕ D4) (rhotate 4 4) in
    let A00 := B0 ⊕ (not64 B1 ⊓ B2) ⊕ iota_at (i + 2) in let C0 := A00 in let A21 := B1 ⊕ (not64 B2 ⊓ B3) in
    let C1 := A21 in let A42 := B2 ⊕ (not64 B3 ⊓ B4) in let C2 := A42 in let A13 := B3 ⊕ (not64 B4 ⊓ B0) in
    let C3 := A13 in let A34 := B4 ⊕ (not64 B0 ⊓ B1) in let C4 := A34 in
    let B0 := ROL64 (A43 ⊕ D3) (rhotate 0 3) in let B1 := ROL64 (A14 ⊕ D4) (rhotate 1 4) in
    let B2 := ROL64 (A30 ⊕ D0) (rhotate 2 0) in let B3 := ROL64 (A01 ⊕ D1) (rhotate 3 1) in
    let B4 := ROL64 (A22 ⊕ D2) (rhotate 4 2) in
    let A30 := B0 ⊕ (not64 B1 ⊓ B2) in let C0 := C0 ⊕ A30 in let A01 := B1 ⊕ (not64 B2 ⊓ B3) in let C1 := C1 ⊕ A01 in
    let A22 := B2 ⊕ (not64 B3 ⊓ B4) in let C2 := C2 ⊕ A22 in let A43 := B3 ⊕ (not64 B4 ⊓ B0) in let C3 := C3 ⊕ A43 in
    let A14 := B4 ⊕ (not64 B0 ⊓ B1) in let C4 := C4 ⊕ A14 in
    let B0 := ROL64 (A31 ⊕ D1) (rhotate 0 1) in let B1 := ROL64 (A02 ⊕ D2) (rhotate 1 2) in
    let B2 := ROL64 (A23 ⊕ D3) (rhotate 2 3) in let B3 := ROL64 (A44 ⊕ D4) (rhotate 3 4) in
    let B4 := ROL64 (A10 ⊕ D0) (rhotate 4 0) in
    let A10 := B0 ⊕ (not64 B1 ⊓ B2) in let C0 := C0 ⊕ A10 in let A31 := B1 ⊕ (not64 B2 ⊓ B3) in let C1 := C1 ⊕ A31 in
    let A02 := B2 ⊕ (not64 B3 ⊓ B4) in let C2 := C2 ⊕ A02 in let A23 := B3 ⊕ (not64 B4 ⊓ B0) in let C3 := C3 ⊕ A23 in
    let A44 := B4 ⊕ (not64 B0 ⊓ B1) in let C4 := C4 ⊕ A44 in
    let B0 := ROL64 (A24 ⊕ D4) (rhotate 0 4) in let B1 := ROL64 (A40 ⊕ D0) (rhotate 1 0) in
    let B2 := ROL64 (A11 ⊕ D1) (rhotate 2 1) in let B3 := ROL64 (A32 ⊕ D2) (rhotate 3 2) in
    let B4 := ROL64 (A03 ⊕ D3) (rhotate 4 3) in
    let A40 := B0 ⊕ (not64 B1 ⊓ B2) in let C0 := C0 ⊕ A40 in let A11 := B1 ⊕ (not64 B2 ⊓ B3) in let C1 := C1 ⊕ A11 in
    let A32 := B2 ⊕ (not64 B3 ⊓ B4) in let C2 := C2 ⊕ A32 in let A03 := B3 ⊕ (not64 B4 ⊓ B0) in let C3 := C3 ⊕ A03 in
    let A24 := B4 ⊕ (not64 B0 ⊓ B1) in let C4 := C4 ⊕ A24 in
    let B0 := ROL64 (A12 ⊕ D2) (rhotate 0 2) in let B1 := ROL64 (A33 ⊕ D3) (rhotate 1 3) in
    let B2 := ROL64 (A04 ⊕ D4) (rhotate 2 4) in let B3 := ROL64 (A20 ⊕ D0) (rhotate 3 0) in
    let B4 := ROL64 (A41 ⊕ D1) (rhotate 4 1) in
    let A20 := B0 ⊕ (not64 B1 ⊓ B2) in let C0 := C0 ⊕ A20 in let A41 := B1 ⊕ (not64 B2 ⊓ B3) in let C1 := C1 ⊕ A41 in
    let A12 := B2 ⊕ (not64 B3 ⊓ B4) in let C2 := C2 ⊕ A12 in let A33 := B3 ⊕ (not64 B4 ⊓ B0) in let C3 := C3 ⊕ A33 in
    let A04 := B4 ⊕ (not64 B0 ⊓ B1) in let C4 := C4 ⊕ A04 in
    ([A00; A01; A02; A03; A04; A10; A11; A12; A13; A14; A20; A21; A22; A23; A24; A30; A31; A32; A33; A34; A40; A41; A42; A43; A44], [C0; C1; C2; C3; C4])
  | _ => AC
  end.

Definition FourRounds_3 (AC : list Z * list Z) (i : Z) : list Z :=
  match AC with
  | ([A00; A01; A02; A03; A04; A10; A11; A12; A13; A14; A20; A21; A22; A23; A24; A30; A31; A32; A33; A34; A40; A41; A42; A43; A44], [C0; C1; C2; C3; C4]) =>
    let D0 := ROL64 C1 1 ⊕ C4 in let D1 := ROL64 C2 1 ⊕ C0 in let D2 := ROL64 C3 1 ⊕ C1 in
    let D3 := ROL64 C4 1 ⊕ C2 in let D4 := ROL64 C0 1 ⊕ C3 in
    let B0 := A00 ⊕ D0 in let B1 := ROL64 (A01 ⊕ D1) (rhotate 1 1) in let B2 := ROL64 (A02 ⊕ D2) (rhotate 2 2) in
    let B3 := ROL64 (A03 ⊕ D3) (rhotate 3 3) in let B4 := ROL64 (A04 ⊕ D4) (rhotate 4 4) in
    let A00 := B0 ⊕ (not64 B1 ⊓ B2) ⊕ iota_at (i + 3) in let A01 := B1 ⊕ (not64 B2 ⊓ B3) in
    let A02 := B2 ⊕ (not64 B3 ⊓ B4) in let A03 := B3 ⊕ (not64 B4 ⊓ B0) in let A04 := B4 ⊕ (not64 B0 ⊓ B1) in
    let B0 := ROL64 (A13 ⊕ D3) (rhotate 0 3) in let B1 := ROL64 (A14 ⊕ D4) (rhotate 1 4) in
    let B2 := ROL64 (A10 ⊕ D0) (rhotate 2 0) in let B3 := ROL64 (A11 ⊕ D1) (rhotate 3 1) in
    let B4 := ROL64 (A12 ⊕ D2) (rhotate 4 2) in
    let A10 := B0 ⊕ (not64 B1 ⊓ B2) in let A11 := B1 ⊕ (not64 B2 ⊓ B3) in let A12 := B2 ⊕ (not64 B3 ⊓ B4) in
    let A13 := B3 ⊕ (not64 B4 ⊓ B0) in let A14 := B4 ⊕ (not64 B0 ⊓ B1) in
    let B0 := ROL64 (A21 ⊕ D1) (rhotate 0 1) in let B1 := ROL64 (A22 ⊕ D2) (rhotate 1 2) in
    let B2 := ROL64 (A23 ⊕ D3) (rhotate 2 3) in let B3 := ROL64 (A24 ⊕ D4) (rhotate 3 4) in
    let B4 := ROL64 (A20 ⊕ D0) (rhotate 4 0) in
    let A20 := B0 ⊕ (not64 B1 ⊓ B2) in let A21 := B1 ⊕ (not64 B2 ⊓ B3) in let A22 := B2 ⊕ (not64 B3 ⊓ B4) in
    let A23 := B3 ⊕ (not64 B4 ⊓ B0) in let A24 := B4 ⊕ (not64 B0 ⊓ B1) in
    let B0 := ROL64 (A34 ⊕ D4) (rhotate 0 4) in let B1 := ROL64 (A30 ⊕ D0) (rhotate 1 0) in
    let B2 := ROL64 (A31 ⊕ D1) (rhotate 2 1) in let B3 := ROL64 (A32 ⊕ D2) (rhotate 3 2) in
    let B4 := ROL64 (A33 ⊕ D3) (rhotate 4 3) in
    let A30 := B0 ⊕ (not64 B1 ⊓ B2) in let A31 := B1 ⊕ (not64 B2 ⊓ B3) in let A32 := B2 ⊕ (not64 B3 ⊓ B4) in
    let A33 := B3 ⊕ (not64 B4 ⊓ B0) in let A34 := B4 ⊕ (not64 B0 ⊓ B1) in
    let B0 := ROL64 (A42 ⊕ D2) (rhotate 0 2) in let B1 := ROL64 (A43 ⊕ D3) (rhotate 1 3) in
    let B2 := ROL64 (A44 ⊕ D4) (rhotate 2 4) in let B3 := ROL64 (A40 ⊕ D0) (rhotate 3 0) in
    let B4 := ROL64 (A41 ⊕ D1) (rhotate 4 1) in
    let A40 := B0 ⊕ (not64 B1 ⊓ B2) in let A41 := B1 ⊕ (not64 B2 ⊓ B3) in let A42 := B2 ⊕ (not64 B3 ⊓ B4) in
    let A43 := B3 ⊕ (not64 B4 ⊓ B0) in let A44 := B4 ⊕ (not64 B0 ⊓ B1) in
    [A00; A01; A02; A03; A04; A10; A11; A12; A13; A14; A20; A21; A22; A23; A24; A30; A31; A32; A33; A34; A40; A41; A42; A43; A44]
  | _ => fst AC
  end.
Definition FourRounds (A : list Z) (i : Z) : list Z := FourRounds_3 (FourRounds_2 (FourRounds_1 (FourRounds_0 A i) i) i) i.

Definition KeccakF1600_1X (A : list Z) : list Z := for_each 24 0 (fun i A => Round_1X A i) A.
Definition KeccakF1600_1X_arm (A : list Z) : list Z := for_each 24 0 (fun i A => Round_1X_arm A i) A.
Definition KeccakF1600_1X_ALT (A : list Z) : list Z := for_each 24 0 (fun i A => Round_1X_ALT A i) A.
(** [for (i = 0; i < 24; i += 2)], [T] being the buffer between the two rounds. *)
Definition KeccakF1600_2X (A : list Z) : list Z :=
  for_each 12 0 (fun k A => let i := 2 * k in let T := Round_2X A i in Round_2X T (i + 1)) A.
Definition complement (A : list Z) : list Z :=
  let A := <[1%nat := not64 (lane A 0 1)]> A in
  let A := <[2%nat := not64 (lane A 0 2)]> A in
  let A := <[8%nat := not64 (lane A 1 3)]> A in
  let A := <[12%nat := not64 (lane A 2 2)]> A in
  let A := <[17%nat := not64 (lane A 3 2)]> A in
  <[20%nat := not64 (lane A 4 0)]> A.
Definition KeccakF1600_2X_ct (A : list Z) : list Z :=
  complement (for_each 12 0 (fun k A => let i := 2 * k in let T := Round_2X_ct A i in Round_2X_ct T (i + 1)) (complement A)).
Definition KeccakF1600_INPLACE (A : list Z) : list Z := for_each 6 0 (fun k A => FourRounds A (4 * k)) A.

(** The default on machines with an "and with complement" instruction, and without. *)
Definition KeccakF1600 (complementing : bool) : list Z -> list Z :=
  if complementing then KeccakF1600_2X_ct else KeccakF1600_2X.

(** ** FIPS 202, section 3.2 *)

(** The state array [A[x, y, z]] of bits. *)
Definition bits := Z -> Z -> Z -> bool.
Definition state_bits (A : list Z) : bits := fun x y z => Z.testbit (lane A (Z.to_nat y) (Z.to_nat x)) z.

Definition theta_spec (A : bits) : bits :=
  let C x z := xorb (xorb (xorb (xorb (A x 0 z) (A x 1 z)) (A x 2 z)) (A x 3 z)) (A x 4 z) in
  let D x z := xorb (C ((x - 1) mod 5) z) (C ((x + 1) mod 5) ((z - 1) mod 64)) in
  fun x y z => xorb (A x y z) (D x z).
(** The offsets met on the walk [(x, y) := (y, 2x + 3y)] from [(1, 0)]. *)
Fixpoint rho_walk (n : nat) (t x y x0 y0 : Z) : Z :=
  match n with
  | O => 0
  | S n => if (x =? x0) && (y =? y0) then (t + 1) * (t + 2) / 2 else rho_walk n (t + 1) y ((2 * x + 3 * y) mod 5) x0 y0
  end.
Definition rho_offset (x y : Z) : Z := rho_walk 24 0 1 0 x y mod 64.
Definition rho_spec (A : bits) : bits := fun x y z => A x y ((z - rho_offset x y) mod 64).
Definition pi_spec (A : bits) : bits := fun x y z => A ((x + 3 * y) mod 5) x z.
Definition chi_spec (A : bits) : bits := fun x y z =>
  xorb (A x y z) (negb (A ((x + 1) mod 5) y z) && A ((x + 2) mod 5) y z).
(** Algorithm 5: the shift register of the round constants. *)
Definition rc_step (R : list bool) : list bool :=
  let R := false :: R in
  let b k := default false (R !! k) in
  [xorb (b 0) (b 8); b 1; b 2; b 3; xorb (b 4) (b 8); xorb (b 5) (b 8); xorb (b 6) (b 8); b 7]%nat.
Definition rc (t : Z) : bool :=
  if t mod 255 =? 0 then true
  else default false (Nat.iter (Z.to_nat (t mod 255)) rc_step [true; false; false; false; false; false; false; false] !! 0%nat).
Definition RC (ir z : Z) : bool := existsb (fun j => if z =? 2 ^ j - 1 then rc (j + 7 * ir) else false) (seqZ 0 7).
Definition iota_spec (A : bits) (ir : Z) : bits := fun x y z => if (x =? 0) && (y =? 0) then xorb (A x y z) (RC ir z) else A x y z.
Definition Rnd (A : bits) (ir : Z) : bits := iota_spec (chi_spec (pi_spec (rho_spec (theta_spec A)))) ir.
Definition KECCAK_f (A : bits) : bits := for_each 24 0 (fun ir A => Rnd A ir) A.

(** ** 64-bit words *)

Definition w64 (x : Z) : Prop := 0 <= x < 2 ^ 64.
Definition state_ok (A : list Z) : Prop := length A = 25%nat /\ Forall w64 A.

Lemma w64_bits x : w64 x -> forall i, 64 <= i -> Z.testbit x i = false.
Proof.
  intros [H0 H1] i Hi. destruct (Z.eq_dec x 0) as [->|]; [apply Z.testbit_0_l|]. apply Z.bits_above_log2; [done|].
  pose proof (proj1 (Z.log2_lt_pow2 x 64 ltac:(lia)) H1). lia.
Qed.
Lemma w64_ext a b : w64 a -> w64 b -> (forall i, 0 <= i < 64 -> Z.testbit a i = Z.testbit b i) -> a = b.
Proof.
  intros Ha Hb H. apply Z.bits_inj'. intros i Hi. destruct (Z_lt_ge_dec i 64); [apply H; lia|]. by rewrite !w64_bits by (done || lia).
Qed.
Lemma u64_w64 x : w64 (u64 x).
Proof. apply u64_range. Qed.
Lemma u64_bit x i : 0 <= i < 64 -> Z.testbit (u64 x) i = Z.testbit x i.
Proof. intros Hi. unfold u64. change 18446744073709551616 with (2 ^ 64). apply Z.mod_pow2_bits_low. lia. Qed.
Lemma w64_not x : w64 (not64 x).
Proof. apply u64_w64. Qed.
Lemma w64_lxor a b : w64 a -> w64 b -> w64 (a ⊕ b).
Proof. apply (lxor_range 64). lia. Qed.
Lemma w64_land a b : w64 a -> w64 b -> w64 (a ⊓ b).
Proof. intros Ha _. by apply (land_range_l 64). Qed.
Lemma w64_ROL a r : w64 a -> 0 <= r < 64 -> w64 (ROL64 a r).
Proof.
  intros Ha Hr. unfold ROL64. destruct (Z.eqb_spec r 0); [done|]. apply (lor_range 64); [lia|apply u64_w64|]. destruct Ha as [H0 H1].
  rewrite Z.shiftr_div_pow2 by lia. split; [apply Z.div_pos; lia|]. apply Z.le_lt_trans with a; [apply Z.div_le_upper_bound; nia|done].
Qed.
Ltac solve_w64 :=
  lazymatch goal with
  | |- w64 (Z.lxor _ _) => apply w64_lxor; solve_w64
  | |- w64 (Z.land _ _) => apply w64_land; solve_w64
  | |- w64 (ROL64 _ _) => apply w64_ROL; [solve_w64|lia]
  | |- w64 (not64 _) => apply w64_not
  | |- w64 _ => auto
  end.

Lemma not64_bit x i : 0 <= i < 64 -> Z.testbit (not64 x) i = negb (Z.testbit x i).
Proof. intros Hi. unfold not64. rewrite u64_bit, Z.lnot_spec by lia. done. Qed.
(** A rotation moves bit [i - r] to bit [i]. *)
Lemma ROL64_bit a r i : w64 a -> 0 <= r < 64 -> 0 <= i < 64 -> Z.testbit (ROL64 a r) i = Z.testbit a ((i - r) mod 64).
Proof.
  intros Ha Hr Hi. unfold ROL64. destruct (Z.eqb_spec r 0) as [->|Hn]; [rewrite Z.sub_0_r, Z.mod_small by lia; done|].
  rewrite Z.lor_spec, u64_bit, Z.shiftl_spec, Z.shiftr_spec by lia. destruct (Z_lt_ge_dec i r).
  - rewrite (Z.testbit_neg_r a (i - r)) by lia. replace ((i - r) mod 64) with (i + (64 - r)) by dlia. done.
  - rewrite (w64_bits a Ha (i + (64 - r))) by lia. rewrite Z.mod_small by lia. by rewrite orb_false_r.
Qed.

(** ** States *)

Lemma lane_ok A y x : state_ok A -> w64 (lane A y x).
Proof.
  intros [_ Hf]. unfold lane. destruct (A !! (5 * y + x)%nat) as [v|] eqn:E; cbn [default from_option]; [by eapply Forall_lookup_1|by compute].
Qed.
Lemma lane_lanes f y x : (y < 5)%nat -> (x < 5)%nat -> lane (lanes f) y x = f y x.
Proof. intros Hy Hx. do 5 (destruct y as [|y]; [do 5 (destruct x as [|x]; [reflexivity|]); lia|]). lia. Qed.
Lemma lanes_ok f : (forall y x, (y < 5)%nat -> (x < 5)%nat -> w64 (f y x)) -> state_ok (lanes f).
Proof.
  intros H. split; [done|]. unfold lanes. apply Forall_fmap, Forall_forall. intros k Hk%elem_of_seq. apply H.
  - apply Nat.Div0.div_lt_upper_bound. lia.
  - by apply Nat.mod_upper_bound.
Qed.
Lemma lanes_lane A : length A = 25%nat -> lanes (lane A) = A.
Proof. intros H. do 25 (destruct A as [|? A]; [done|]). by destruct A. Qed.
Lemma state_ext A B : state_ok A -> state_ok B ->
  (forall x y z, 0 <= x < 5 -> 0 <= y < 5 -> 0 <= z < 64 -> state_bits A x y z = state_bits B x y z) -> A = B.
Proof.
  intros HA HB H. rewrite <- (lanes_lane A), <- (lanes_lane B) by (apply HA || apply HB). unfold lanes. apply list_fmap_ext.
  intros _ k Hk%list_elem_of_lookup_2%elem_of_seq. apply w64_ext; [by apply lane_ok..|]. intros z Hz.
  specialize (H (Z.of_nat (k mod 5)) (Z.of_nat (k / 5)) z). unfold state_bits in H. rewrite !Nat2Z.id in H. apply H; [| |done].
  - pose proof (Nat.mod_upper_bound k 5). lia.
  - pose proof (Nat.Div0.div_lt_upper_bound k 5 5). lia.
Qed.
(** An index below 5 is one of five. *)
Lemma five (P : Z -> Prop) : P 0 -> P 1 -> P 2 -> P 3 -> P 4 -> forall x, 0 <= x < 5 -> P x.
Proof. intros. assert (x = 0 \/ x = 1 \/ x = 2 \/ x = 3 \/ x = 4) as [-> | [-> | [-> | [-> | ->]]]] by lia; done. Qed.
Lemma rhotate_range y x : 0 <= rhotate y x < 64.
Proof. do 5 (destruct y as [|y]; [do 6 (destruct x as [|x]; [by compute|]); by compute|]). by compute. Qed.
Ltac small_nats :=
  try change (Z.to_nat 0) with 0%nat; try change (Z.to_nat 1) with 1%nat; try change (Z.to_nat 2) with 2%nat;
  try change (Z.to_nat 3) with 3%nat; try change (Z.to_nat 4) with 4%nat; cbv iota beta.

(** ** The reference round is the round of the standard *)

Definition bits_eq (A B : bits) : Prop := forall x y z, 0 <= x < 5 -> 0 <= y < 5 -> 0 <= z < 64 -> A x y z = B x y z.

Lemma Theta_ok A : state_ok A -> state_ok (Theta A).
Proof.
  intros H. apply lanes_ok. intros y x _ Hx. assert (forall y x, w64 (lane A y x)) as Hl by (intros; by apply lane_ok).
  do 5 (destruct x as [|x]; [cbn [fold_left]; solve_w64|]). lia.
Qed.
Lemma Theta_bits A : state_ok A -> bits_eq (state_bits (Theta A)) (theta_spec (state_bits A)).
Proof.
  intros H x y z Hx Hy Hz. unfold state_bits at 1, Theta. cbv zeta. rewrite lane_lanes by lia. rewrite Z.lxor_spec.
  assert (forall y x, w64 (lane A y x)) as Hl by (intros; by apply lane_ok).
  cbn [fold_left]. unfold theta_spec. f_equal. revert x Hx. apply five; small_nats.
  all: rewrite Z.lxor_spec, ROL64_bit by (solve_w64 || lia); rewrite xorb_comm, !Z.lxor_spec; reflexivity.
Qed.
Lemma Rho_ok A : state_ok A -> state_ok (Rho A).
Proof. intros H. apply lanes_ok. intros y x _ _. apply w64_ROL; [by apply lane_ok|apply rhotate_range]. Qed.
Lemma rho_offsets x y : 0 <= x < 5 -> 0 <= y < 5 -> rhotate (Z.to_nat y) (Z.to_nat x) = rho_offset x y.
Proof. revert x. apply (five (fun x => 0 <= y < 5 -> _)); revert y; by apply five. Qed.
Lemma Rho_bits A : state_ok A -> bits_eq (state_bits (Rho A)) (rho_spec (state_bits A)).
Proof.
  intros H x y z Hx Hy Hz. unfold state_bits at 1, Rho. rewrite lane_lanes by lia.
  rewrite ROL64_bit by (by apply lane_ok || apply rhotate_range || done). by rewrite rho_offsets.
Qed.
Lemma Pi_ok A : state_ok A -> state_ok (Pi A).
Proof. intros H. split; [done|]. repeat apply Forall_cons_2; try apply Forall_nil_2; by apply lane_ok. Qed.
Lemma Pi_bits A : bits_eq (state_bits (Pi A)) (pi_spec (state_bits A)).
Proof.
  intros x y z Hx Hy Hz. revert x Hx. apply (five (fun x => _)); revert y Hy; by apply (five (fun y => _)).
Qed.
Lemma Chi_ok A : state_ok A -> state_ok (Chi A).
Proof.
  intros H. apply lanes_ok. intros y x _ Hx. assert (forall y x, w64 (lane A y x)) as Hl by (intros; by apply lane_ok).
  do 5 (destruct x as [|x]; [solve_w64|]). lia.
Qed.
Lemma Chi_bits A : bits_eq (state_bits (Chi A)) (chi_spec (state_bits A)).
Proof.
  intros x y z Hx Hy Hz. unfold state_bits at 1, Chi. rewrite lane_lanes by lia. revert x Hx.
  apply five; small_nats; rewrite Z.lxor_spec, Z.land_spec, not64_bit by done; reflexivity.
Qed.
Lemma iota_ok i : w64 (iota_at i).
Proof.
  unfold iota_at. destruct (iotas !! Z.to_nat i) as [v|] eqn:E; [|by compute]. cbn [default from_option].
  assert (Forall w64 iotas) as Hf by (repeat apply Forall_cons_2; try apply Forall_nil_2; by compute). by eapply Forall_lookup_1.
Qed.
Lemma Iota_ok A i : state_ok A -> state_ok (Iota A i).
Proof.
  intros H. pose proof (lane_ok A 0 0 H) as H0. destruct H as [Hl Hf]. split; [by unfold Iota; rewrite length_insert|].
  apply Forall_insert; [done|]. by apply w64_lxor, iota_ok.
Qed.
Lemma iota_RC i z : 0 <= i < 24 -> 0 <= z < 64 -> Z.testbit (iota_at i) z = RC i z.
Proof.
  intros Hi Hz. assert (forallb (fun i => forallb (fun z => eqb (Z.testbit (iota_at i) z) (RC i z)) (seqZ 0 64)) (seqZ 0 24) = true) as H by (vm_compute; reflexivity).
  rewrite forallb_forall in H. specialize (H i). rewrite <- list_elem_of_In, elem_of_seqZ, forallb_forall in H.
  specialize (H ltac:(lia) z). rewrite <- list_elem_of_In, elem_of_seqZ in H. by apply eqb_prop, H.
Qed.
Lemma Iota_bits A i : state_ok A -> 0 <= i < 24 -> bits_eq (state_bits (Iota A i)) (iota_spec (state_bits A) i).
Proof.
  intros [Hl _] Hi x y z Hx Hy Hz. unfold state_bits, iota_spec, Iota. destruct (Z.eqb_spec x 0) as [->|Hx0], (Z.eqb_spec y 0) as [->|Hy0]; cbn [andb].
  - unfold lane at 1. rewrite list_lookup_insert_eq by (cbn; lia). cbn [from_option]; unfold id. by rewrite Z.lxor_spec, iota_RC.
  - unfold lane at 1. rewrite list_lookup_insert_ne by lia. done.
  - unfold lane at 1. rewrite list_lookup_insert_ne by lia. done.
  - unfold lane at 1. rewrite list_lookup_insert_ne by lia. done.
Qed.
Lemma Round_ok A i : state_ok A -> state_ok (Round_ref A i).
Proof. intros H. by apply Iota_ok, Chi_ok, Pi_ok, Rho_ok, Theta_ok. Qed.

Lemma mod5 x : 0 <= x mod 5 < 5.
Proof. by apply Z.mod_pos_bound. Qed.
Lemma mod64 x : 0 <= x mod 64 < 64.
Proof. by apply Z.mod_pos_bound. Qed.
Lemma theta_proper A B : bits_eq A B -> bits_eq (theta_spec A) (theta_spec B).
Proof.
  intros H x y z Hx Hy Hz. pose proof (mod5 (x - 1)). pose proof (mod5 (x + 1)). pose proof (mod64 (z - 1)).
  unfold theta_spec. rewrite (H x y z) by done. f_equal. by rewrite !H by lia.
Qed.
Lemma rho_proper A B : bits_eq A B -> bits_eq (rho_spec A) (rho_spec B).
Proof. intros H x y z Hx Hy Hz. apply H; [done|done|apply mod64]. Qed.
Lemma pi_proper A B : bits_eq A B -> bits_eq (pi_spec A) (pi_spec B).
Proof. intros H x y z Hx Hy Hz. apply H; [apply mod5|done|done]. Qed.
Lemma chi_proper A B : bits_eq A B -> bits_eq (chi_spec A) (chi_spec B).
Proof. intros H x y z Hx Hy Hz. pose proof (mod5 (x + 1)). pose proof (mod5 (x + 2)). unfold chi_spec. by rewrite !H. Qed.
Lemma iota_proper A B i : bits_eq A B -> bits_eq (iota_spec A i) (iota_spec B i).
Proof. intros H x y z Hx Hy Hz. unfold iota_spec. by rewrite H. Qed.
#[local] Instance bits_eq_equivalence : Equivalence bits_eq.
Proof.
  split; [done| |].
  - intros A B H x y z Hx Hy Hz. by rewrite H.
  - intros A B C H1 H2 x y z Hx Hy Hz. by rewrite H1, H2.
Qed.
Lemma Rnd_proper A B i : bits_eq A B -> bits_eq (Rnd A i) (Rnd B i).
Proof. intros H. by apply iota_proper, chi_proper, pi_proper, rho_proper, theta_proper. Qed.
(** Before the last two steps. *)
Lemma linear_bits A : state_ok A -> bits_eq (state_bits (Pi (Rho (Theta A)))) (pi_spec (rho_spec (theta_spec (state_bits A)))).
Proof.
  intros H. rewrite Pi_bits. apply pi_proper. rewrite Rho_bits by (by apply Theta_ok). apply rho_proper. by apply Theta_bits.
Qed.
Lemma Round_bits A i : state_ok A -> 0 <= i < 24 -> bits_eq (state_bits (Round_ref A i)) (Rnd (state_bits A) i).
Proof.
  intros H Hi. unfold Round_ref. rewrite Iota_bits by (done || by apply Chi_ok, Pi_ok, Rho_ok, Theta_ok). apply iota_proper.
  rewrite Chi_bits. apply chi_proper. by apply linear_bits.
Qed.
Lemma KeccakF1600_ref_bits A : state_ok A -> state_ok (KeccakF1600_ref A) /\ bits_eq (state_bits (KeccakF1600_ref A)) (KECCAK_f (state_bits A)).
Proof.
  intros H. unfold KeccakF1600_ref, KECCAK_f.
  assert (forall n i A B, 0 <= i -> i + Z.of_nat n <= 24 -> state_ok A -> bits_eq (state_bits A) B ->
    state_ok (for_each n i (fun i A => Round_ref A i) A) /\
    bits_eq (state_bits (for_each n i (fun i A => Round_ref A i) A)) (for_each n i (fun ir A => Rnd A ir) B)) as Hn.
  { clear. induction n as [|n IH]; intros i A B Hi Hn HA HB; [done|]. cbn [for_each]. apply IH; [lia|lia|by apply Round_ok|].
    rewrite Round_bits by (done || lia). by apply Rnd_proper. }
  by apply Hn.
Qed.

(** ** The optimised rounds *)

(** A state is its 25 lanes. *)
Ltac open_state A H := do 25 (destruct A as [|? A]; [discriminate H|]); destruct A; [|discriminate H].

Lemma Round_1X_eq A i : length A = 25%nat -> Round_1X A i = Round_ref A i.
Proof. intros H. open_state A H. reflexivity. Qed.
Lemma Round_2X_eq A i : length A = 25%nat -> Round_2X A i = Round_ref A i.
Proof. intros H. open_state A H. reflexivity. Qed.
(** The reference round with the sums of [D] the other way round. *)
Definition Theta_alt (A : list Z) : list Z :=
  let C x := lane A 0 x ⊕ lane A 1 x ⊕ lane A 2 x ⊕ lane A 3 x ⊕ lane A 4 x in
  lanes (fun y x => lane A y x ⊕ (C ((x + 4) mod 5)%nat ⊕ ROL64 (C ((x + 1) mod 5)%nat) 1)).
Lemma Theta_alt_eq A : Theta_alt A = Theta A.
Proof.
  unfold Theta_alt, Theta, lanes. apply list_fmap_ext. intros _ k Hk%list_elem_of_lookup_2%elem_of_seq. f_equal.
  assert (k mod 5 < 5)%nat as Hx by (by apply Nat.mod_upper_bound). rewrite Z.lxor_comm. cbn [fold_left].
  destruct (k mod 5)%nat as [|[|[|[|[|x]]]]]; [done..|lia].
Qed.
Lemma Round_1X_ALT_eq A i : length A = 25%nat -> Round_1X_ALT A i = Round_ref A i.
Proof. intros H. unfold Round_ref. rewrite <- Theta_alt_eq. open_state A H. reflexivity. Qed.

(** In the in-place form, row [y] of the storage has in column [x] the lane of row [a y + b x]. *)
Definition gather (a b : nat) (A : list Z) : list Z := lanes (fun y x => lane A ((a * y + b * x) mod 5)%nat x).
Definition column_sums (A : list Z) : list Z := (fun x => lane A 0 x ⊕ lane A 1 x ⊕ lane A 2 x ⊕ lane A 3 x ⊕ lane A 4 x) <$> seq 0 5.
Lemma FourRounds_0_eq A i : length A = 25%nat -> FourRounds_0 A i = (gather 3 2 (Round_ref A i), column_sums (Round_ref A i)).
Proof. intros H. open_state A H. cbv -[Z.lxor Z.land ROL64 not64 iota_at rhotate Z.add]. reflexivity. Qed.
Lemma FourRounds_1_eq A i : length A = 25%nat ->
  FourRounds_1 (gather 3 2 A, column_sums A) i = (gather 4 3 (Round_ref A (i + 1)), column_sums (Round_ref A (i + 1))).
Proof. intros H. open_state A H. cbv -[Z.lxor Z.land ROL64 not64 iota_at rhotate Z.add]. reflexivity. Qed.
Lemma FourRounds_2_eq A i : length A = 25%nat ->
  FourRounds_2 (gather 4 3 A, column_sums A) i = (gather 2 1 (Round_ref A (i + 2)), column_sums (Round_ref A (i + 2))).
Proof. intros H. open_state A H. cbv -[Z.lxor Z.land ROL64 not64 iota_at rhotate Z.add]. reflexivity. Qed.
Lemma FourRounds_3_eq A i : length A = 25%nat -> FourRounds_3 (gather 2 1 A, column_sums A) i = Round_ref A (i + 3).
Proof. intros H. open_state A H. cbv -[Z.lxor Z.land ROL64 not64 iota_at rhotate Z.add]. reflexivity. Qed.
Lemma FourRounds_eq A i : state_ok A ->
  FourRounds A i = Round_ref (Round_ref (Round_ref (Round_ref A i) (i + 1)) (i + 2)) (i + 3).
Proof.
  intros H. unfold FourRounds. pose proof (Round_ok _ i H) as H1. pose proof (Round_ok _ (i + 1) H1) as H2. pose proof (Round_ok _ (i + 2) H2) as H3.
  rewrite FourRounds_0_eq by apply H. rewrite FourRounds_1_eq by apply H1. rewrite FourRounds_2_eq by apply H2. apply FourRounds_3_eq, H3.
Qed.

(** ** The complementing transform *)

(** The lanes kept complemented between rounds, and those that are after the first three
    steps; both as bits that do not depend on [z]. *)
Definition flipped : bits := fun x y _ => existsb (fun '(y', x') => (y =? y') && (x =? x')) [(0, 1); (0, 2); (1, 3); (2, 2); (3, 2); (4, 0)].
Definition flip_bits (m A : bits) : bits := fun x y z => xorb (A x y z) (m x y z).

Lemma complement_ok A : state_ok A -> state_ok (complement A).
Proof.
  intros [Hl Hf]. unfold complement. split; [by rewrite !length_insert|]. by repeat (apply Forall_insert; [|apply w64_not]).
Qed.
Lemma complement_bits A : length A = 25%nat -> bits_eq (state_bits (complement A)) (flip_bits flipped (state_bits A)).
Proof.
  intros H x y z Hx Hy Hz. open_state A H. unfold state_bits, flip_bits.
  revert x Hx. apply (five (fun x => _)); revert y Hy; apply (five (fun y => _)); small_nats; cbn -[Z.testbit not64];
    rewrite ?not64_bit by done; rewrite ?xorb_true_r, ?xorb_false_r; reflexivity.
Qed.
Lemma complement_involutive A : state_ok A -> complement (complement A) = A.
Proof.
  intros H. pose proof (complement_ok A H) as H1. apply state_ext; [by apply complement_ok|done|]. intros x y z Hx Hy Hz.
  rewrite complement_bits by (done || apply H1). unfold flip_bits at 1. rewrite complement_bits by (done || apply H).
  unfold flip_bits. change (flipped x y z) with (flipped x y 0). btauto.
Qed.

(** The last two steps of the complementing round. *)
Definition Chi_ct (B : list Z) (i : Z) : list Z :=
  match B with
  | [B00; B01; B02; B03; B04; B10; B11; B12; B13; B14; B20; B21; B22; B23; B24; B30; B31; B32; B33; B34; B40; B41; B42; B43; B44] =>
    [B00 ⊕ (B01 ⊔ B02) ⊕ iota_at i; B01 ⊕ (not64 B02 ⊔ B03); B02 ⊕ (B03 ⊓ B04); B03 ⊕ (B04 ⊔ B00); B04 ⊕ (B00 ⊓ B01);
     B10 ⊕ (B11 ⊔ B12); B11 ⊕ (B12 ⊓ B13); B12 ⊕ (B13 ⊔ not64 B14); B13 ⊕ (B14 ⊔ B10); B14 ⊕ (B10 ⊓ B11);
     B20 ⊕ (B21 ⊔ B22); B21 ⊕ (B22 ⊓ B23); B22 ⊕ (not64 B23 ⊓ B24); not64 B23 ⊕ (B24 ⊔ B20); B24 ⊕ (B20 ⊓ B21);
     B30 ⊕ (B31 ⊓ B32); B31 ⊕ (B32 ⊔ B33); B32 ⊕ (not64 B33 ⊔ B34); not64 B33 ⊕ (B34 ⊓ B30); B34 ⊕ (B30 ⊔ B31);
     B40 ⊕ (not64 B41 ⊓ B42); not64 B41 ⊕ (B42 ⊔ B43); B42 ⊕ (B43 ⊓ B44); B43 ⊕ (B44 ⊔ B40); B44 ⊕ (B40 ⊓ B41)]
  | _ => B
  end.
Lemma Round_2X_ct_split A i : length A = 25%nat -> Round_2X_ct A i = Chi_ct (Pi (Rho (Theta A))) i.
Proof. intros H. open_state A H. cbv -[Z.lxor Z.land Z.lor ROL64 not64 iota_at rhotate]. reflexivity. Qed.
(** The complements after the linear steps. *)
Definition flipped_B : bits := pi_spec (rho_spec (theta_spec flipped)).
Lemma linear_flip A : bits_eq (pi_spec (rho_spec (theta_spec (flip_bits flipped A)))) (flip_bits flipped_B (pi_spec (rho_spec (theta_spec A)))).
Proof. intros x y z _ _ _. unfold flipped_B, pi_spec, rho_spec, theta_spec, flip_bits. btauto. Qed.
Lemma flipped_B_z x y z : flipped_B x y z = flipped_B x y 0.
Proof. reflexivity. Qed.

Lemma w64_lor a b : w64 a -> w64 b -> w64 (a ⊔ b).
Proof. apply (lor_range 64). lia. Qed.
Lemma Chi_ct_ok B i : state_ok B -> state_ok (Chi_ct B i).
Proof.
  intros [Hl Hf]. open_state B Hl. split; [done|]. repeat (apply Forall_cons in Hf as [? Hf]). pose proof (iota_ok i).
  repeat apply Forall_cons_2; try apply Forall_nil_2; repeat (apply w64_lxor || apply w64_not || (apply w64_lor; [|by try apply w64_not]) || (apply w64_land; [|done])); done.
Qed.
Ltac flip_fact Hb x y :=
  let E := fresh "E" in
  assert (0 <= x < 5 /\ 0 <= y < 5) as E by lia; apply (fun H => Hb x y (proj1 H) (proj2 H)) in E;
  let b := eval vm_compute in (flipped_B x y 0) in change (flipped_B x y 0) with b in E;
  let i := eval vm_compute in (Z.to_nat x) in let j := eval vm_compute in (Z.to_nat y) in
  change (Z.to_nat x) with i in E; change (Z.to_nat y) with j in E; cbn [lane lookup list_lookup Nat.add Nat.mul from_option] in E; unfold lane in E; cbn in E.
(** On complemented lanes it gives the complemented result of the reference. *)
Lemma Chi_ct_bits B B' i : length B = 25%nat -> length B' = 25%nat -> bits_eq (state_bits B') (flip_bits flipped_B (state_bits B)) ->
  bits_eq (state_bits (Chi_ct B' i)) (flip_bits flipped (state_bits (Iota (Chi B) i))).
Proof.
  intros H H' HB x y z Hx Hy Hz.
  assert (forall x y, 0 <= x < 5 -> 0 <= y < 5 ->
    Z.testbit (lane B' (Z.to_nat y) (Z.to_nat x)) z = xorb (Z.testbit (lane B (Z.to_nat y) (Z.to_nat x)) z) (flipped_B x y 0)) as Hb.
  { intros x' y' Hx' Hy'. exact (HB x' y' z Hx' Hy' Hz). }
  open_state B H. open_state B' H'.
  flip_fact Hb 0 0; flip_fact Hb 1 0; flip_fact Hb 2 0; flip_fact Hb 3 0; flip_fact Hb 4 0.
  flip_fact Hb 0 1; flip_fact Hb 1 1; flip_fact Hb 2 1; flip_fact Hb 3 1; flip_fact Hb 4 1.
  flip_fact Hb 0 2; flip_fact Hb 1 2; flip_fact Hb 2 2; flip_fact Hb 3 2; flip_fact Hb 4 2.
  flip_fact Hb 0 3; flip_fact Hb 1 3; flip_fact Hb 2 3; flip_fact Hb 3 3; flip_fact Hb 4 3.
  flip_fact Hb 0 4; flip_fact Hb 1 4; flip_fact Hb 2 4; flip_fact Hb 3 4; flip_fact Hb 4 4.
  clear Hb HB. unfold flip_bits, state_bits. revert x Hx. apply (five (fun x => _)); revert y Hy; apply (five (fun y => _)); small_nats.
  all: cbn -[Z.testbit not64 Z.lxor Z.land Z.lor iota_at].
  all: rewrite ?Z.lxor_spec, ?Z.land_spec, ?Z.lor_spec, ?not64_bit by done.
  all: repeat match goal with E : Z.testbit ?v ?k = xorb _ _ |- context [Z.testbit ?v ?k] => rewrite E; clear E end; btauto.
Qed.
Lemma Round_2X_ct_eq A i : state_ok A -> Round_2X_ct (complement A) i = complement (Round_ref A i).
Proof.
  intros H. pose proof (complement_ok A H) as Hc. rewrite Round_2X_ct_split by apply Hc.
  assert (forall A, state_ok A -> state_ok (Pi (Rho (Theta A)))) as Hlin by (intros; by apply Pi_ok, Rho_ok, Theta_ok).
  apply state_ext; [by apply Chi_ct_ok, Hlin|by apply complement_ok, Round_ok|].
  assert (bits_eq (state_bits (Chi_ct (Pi (Rho (Theta (complement A)))) i)) (flip_bits flipped (state_bits (Round_ref A i)))) as E.
  { apply Chi_ct_bits; [by apply Hlin|by apply Hlin|]. rewrite linear_bits by done.
    transitivity (pi_spec (rho_spec (theta_spec (flip_bits flipped (state_bits A))))).
    - apply pi_proper, rho_proper, theta_proper. apply complement_bits, H.
    - rewrite linear_flip. intros x y z Hx Hy Hz. unfold flip_bits. f_equal. symmetry. by apply linear_bits. }
  intros x y z Hx Hy Hz. rewrite E by done. symmetry. by apply complement_bits; [apply Round_ok|..].
Qed.

(** ** All forms compute the permutation *)

Lemma for_each_eq (f g : Z -> list Z -> list Z) n : (forall i A, state_ok A -> f i A = g i A) -> (forall i A, state_ok A -> state_ok (g i A)) ->
  forall i A, state_ok A -> for_each n i f A = for_each n i g A.
Proof.
  intros Hfg Hok. induction n as [|n IH]; intros i A HA; [done|]. cbn [for_each]. rewrite Hfg by done. by apply IH, Hok.
Qed.
Lemma for_each_ok (g : Z -> list Z -> list Z) n : (forall i A, state_ok A -> state_ok (g i A)) -> forall i A, state_ok A -> state_ok (for_each n i g A).
Proof. intros Hok. induction n as [|n IH]; intros i A HA; [done|]. cbn [for_each]. by apply IH, Hok. Qed.
Lemma two_rounds_ct n : forall k A, state_ok A ->
  for_each n k (fun k A => let i := 2 * k in let T := Round_2X_ct A i in Round_2X_ct T (i + 1)) (complement A) =
  complement (for_each n k (fun k A => Round_ref (Round_ref A (2 * k)) (2 * k + 1)) A).
Proof.
  induction n as [|n IH]; intros k A H; [done|]. cbn [for_each]. rewrite Round_2X_ct_eq by done. rewrite Round_2X_ct_eq by (by apply Round_ok).
  by apply IH, Round_ok, Round_ok.
Qed.
Lemma KeccakF1600_forms A : state_ok A ->
  KeccakF1600_1X A = KeccakF1600_ref A /\ KeccakF1600_1X_ALT A = KeccakF1600_ref A /\ KeccakF1600_2X A = KeccakF1600_ref A /\
  KeccakF1600_2X_ct A = KeccakF1600_ref A /\ KeccakF1600_INPLACE A = KeccakF1600_ref A.
Proof.
  intros H. pose proof (fun i A => Round_ok A i) as Hok. split_and!.
  - apply for_each_eq; [|done|done]. intros i B HB. apply Round_1X_eq, HB.
  - apply for_each_eq; [|done|done]. intros i B HB. apply Round_1X_ALT_eq, HB.
  - transitivity (for_each 12 0 (fun k A => Round_ref (Round_ref A (2 * k)) (2 * k + 1)) A); [|reflexivity].
    apply for_each_eq; [|by auto|done]. intros k B HB. cbv zeta. rewrite (Round_2X_eq B) by apply HB. apply Round_2X_eq, Round_ok, HB.
  - unfold KeccakF1600_2X_ct. rewrite two_rounds_ct by done. rewrite complement_involutive by (apply for_each_ok; by auto). reflexivity.
  - transitivity (for_each 6 0 (fun k A => Round_ref (Round_ref (Round_ref (Round_ref A (4 * k)) (4 * k + 1)) (4 * k + 2)) (4 * k + 3)) A); [|reflexivity].
    apply for_each_eq; [|by auto|done]. intros k B HB. by apply FourRounds_eq.
Qed.

(** On ARM the differences are kept in registers as well. *)
Lemma KeccakF1600_1X_arm_eq A : KeccakF1600_1X_arm A = KeccakF1600_1X A.
Proof. unfold KeccakF1600_1X_arm, KeccakF1600_1X. f_equal. Qed.

Lemma zero_state_ok : state_ok (replicate 25 0).
Proof. split; [done|]. by apply Forall_replicate. Qed.
