(* ===== verification/Sha3.v ===== *)
(** * SHA-3 and SHAKE

    Model of the sponge of [crypto/sha/keccak1600.c] ([SHA3_absorb], [SHA3_squeeze]), of
    [crypto/sha/sha3.c] and of the generic code of the digest provider
    [providers/implementations/digests/sha3_prov.c].  A context is a record of its fields;
    an operation returns the C result, the bytes it writes and the context it leaves.
    [complementing] selects the compiled form of the permutation.  Lengths are [size_t];
    the theorems keep [bufsz] within the block, so no operation on them wraps. *)
From S2P Require Import Prelude.
From S2P Require Import ByteOrder.
From S2P Require Import ZSum.
From S2P Require Import Keccak.
#[local] Open Scope keccak_scope.

Definition KECCAK1600_WIDTH : Z := 1600.
Definition SHA3_BLOCKSIZE (bitlen : Z) : Z := u64 (KECCAK1600_WIDTH - u64 (bitlen * 2)) / 8.
Definition SHA3_BUF : Z := KECCAK1600_WIDTH / 8 - 32.

Inductive xof_state := XOF_STATE_INIT | XOF_STATE_ABSORB | XOF_STATE_FINAL | XOF_STATE_SQUEEZE.
#[export] Instance xof_state_eq_dec : EqDecision xof_state.
Proof. solve_decision. Defined.
(** The two tables of generic functions differ in [squeeze], NULL in the first. *)
Inductive PROV_SHA3_METHOD := sha3_generic_md | shake_generic_md.

(** [struct keccak_st] *)
Record KECCAK1600_CTX := mkKECCAK1600_CTX {
  k_A : list Z; k_buf : list Z; k_block_size : Z; k_md_size : Z; k_bufsz : Z; k_pad : Z;
  k_meth : PROV_SHA3_METHOD; k_xof_state : xof_state }.
Definition set_A (x : list Z) (c : KECCAK1600_CTX) : KECCAK1600_CTX :=
  mkKECCAK1600_CTX x (k_buf c) (k_block_size c) (k_md_size c) (k_bufsz c) (k_pad c) (k_meth c) (k_xof_state c).
Definition set_buf (x : list Z) (c : KECCAK1600_CTX) : KECCAK1600_CTX :=
  mkKECCAK1600_CTX (k_A c) x (k_block_size c) (k_md_size c) (k_bufsz c) (k_pad c) (k_meth c) (k_xof_state c).
Definition set_md_size (x : Z) (c : KECCAK1600_CTX) : KECCAK1600_CTX :=
  mkKECCAK1600_CTX (k_A c) (k_buf c) (k_block_size c) x (k_bufsz c) (k_pad c) (k_meth c) (k_xof_state c).
Definition set_bufsz (x : Z) (c : KECCAK1600_CTX) : KECCAK1600_CTX :=
  mkKECCAK1600_CTX (k_A c) (k_buf c) (k_block_size c) (k_md_size c) x (k_pad c) (k_meth c) (k_xof_state c).
Definition set_meth (x : PROV_SHA3_METHOD) (c : KECCAK1600_CTX) : KECCAK1600_CTX :=
  mkKECCAK1600_CTX (k_A c) (k_buf c) (k_block_size c) (k_md_size c) (k_bufsz c) (k_pad c) x (k_xof_state c).
Definition set_xof_state (x : xof_state) (c : KECCAK1600_CTX) : KECCAK1600_CTX :=
  mkKECCAK1600_CTX (k_A c) (k_buf c) (k_block_size c) (k_md_size c) (k_bufsz c) (k_pad c) (k_meth c) x.

Section Sha3.
Context (complementing : bool).

(** ** The sponge *)

(** [(uint64_t)inp[0] | (uint64_t)inp[1] << 8 | ...] at offset [o] *)
Definition load_lane (inp : list Z) (o : Z) : Z :=
  byte_at inp o ⊔ Z.shiftl (byte_at inp (o + 1)) 8 ⊔ Z.shiftl (byte_at inp (o + 2)) 16 ⊔ Z.shiftl (byte_at inp (o + 3)) 24 ⊔
  Z.shiftl (byte_at inp (o + 4)) 32 ⊔ Z.shiftl (byte_at inp (o + 5)) 40 ⊔ Z.shiftl (byte_at inp (o + 6)) 48 ⊔
  Z.shiftl (byte_at inp (o + 7)) 56.
(** [for (i = 0; i < w; i++) A_flat[i] ^= ...] *)
Definition xor_block (A : list Z) (inp : list Z) (w : Z) : list Z :=
  for_each (Z.to_nat w) 0 (fun i A => <[Z.to_nat i := default 0 (A !! Z.to_nat i) ⊕ load_lane inp (8 * i)]> A) A.
(** [while (len >= r)]; each round takes [r >= 1] bytes, so [len] rounds are enough. *)
Fixpoint absorb_loop (n : nat) (A : list Z) (inp : list Z) (len r : Z) : list Z * Z :=
  match n with
  | O => (A, len)
  | S n => if r <=? len then absorb_loop n (KeccakF1600 complementing (xor_block A inp (r / 8))) (drop (Z.to_nat r) inp) (len - r) r else (A, len)
  end.
Definition SHA3_absorb (A : list Z) (inp : list Z) (len r : Z) : list Z * Z := absorb_loop (Z.to_nat len) A inp len r.

(** [for (i = 0; i < len; i++) { *out++ = (unsigned char)Ai; Ai >>= 8; }] *)
Fixpoint store_bytes (n : nat) (Ai : Z) : list Z :=
  match n with O => [] | S n => u8 Ai :: store_bytes n (Z.shiftr Ai 8) end.
(** The loop over the lanes [A_flat[i]] with [i < w]: the bytes written and what remains of [len]. *)
Fixpoint squeeze_lanes (As : list Z) (len : Z) : list Z * Z :=
  match As with
  | [] => ([], len)
  | Ai :: As =>
    if len =? 0 then ([], 0)
    else if len <? 8 then (store_bytes (Z.to_nat len) Ai, 0)
    else
      let '(out, len) := squeeze_lanes As (len - 8) in
      ([u8 Ai; u8 (Z.shiftr Ai 8); u8 (Z.shiftr Ai 16); u8 (Z.shiftr Ai 24); u8 (Z.shiftr Ai 32); u8 (Z.shiftr Ai 40);
        u8 (Z.shiftr Ai 48); u8 (Z.shiftr Ai 56)] ++ out, len)
  end.
(** [while (len != 0)]; each round writes at least one byte. *)
Fixpoint squeeze_loop (n : nat) (A : list Z) (len r : Z) (next : bool) : list Z * list Z :=
  match n with
  | O => (A, [])
  | S n =>
    if len =? 0 then (A, [])
    else
      let A := if next then KeccakF1600 complementing A else A in
      let '(out, len) := squeeze_lanes (take (Z.to_nat (r / 8)) A) len in
      let '(A, out') := squeeze_loop n A len r true in
      (A, out ++ out')
  end.
Definition SHA3_squeeze (A : list Z) (len r : Z) (next : bool) : list Z * list Z := squeeze_loop (Z.to_nat len) A len r next.

(** ** [sha3.c] *)

Definition ossl_sha3_reset (ctx : KECCAK1600_CTX) : KECCAK1600_CTX :=
  set_xof_state XOF_STATE_INIT (set_bufsz 0 (set_A (replicate 25 0) ctx)).
Definition ossl_sha3_init (ctx : KECCAK1600_CTX) (pad bitlen : Z) : bool * KECCAK1600_CTX :=
  let bsz := SHA3_BLOCKSIZE bitlen in
  if bsz <=? SHA3_BUF then
    let ctx := ossl_sha3_reset ctx in
    (true, mkKECCAK1600_CTX (k_A ctx) (k_buf ctx) bsz (bitlen / 8) (k_bufsz ctx) pad (k_meth ctx) (k_xof_state ctx))
  else (false, ctx).
Definition ossl_keccak_init (ctx : KECCAK1600_CTX) (pad bitlen mdlen : Z) : bool * KECCAK1600_CTX :=
  let '(ret, ctx) := ossl_sha3_init ctx pad bitlen in
  (ret, if ret then set_md_size (mdlen / 8) ctx else ctx).

(** The end of [ossl_sha3_update]: whole blocks of [inp], then what is left into [buf]. *)
Definition update_rest (ctx : KECCAK1600_CTX) (inp : list Z) : bool * KECCAK1600_CTX :=
  let bsz := k_block_size ctx in
  let '(A, rem) := if bsz <=? zlen inp then SHA3_absorb (k_A ctx) inp (zlen inp) bsz else (k_A ctx, zlen inp) in
  let ctx := set_A A ctx in
  (true, if rem =? 0 then ctx else set_bufsz rem (set_buf (splice (k_buf ctx) 0 (slice inp (zlen inp - rem) rem)) ctx)).
Definition ossl_sha3_update (ctx : KECCAK1600_CTX) (inp : list Z) : bool * KECCAK1600_CTX :=
  let bsz := k_block_size ctx in
  let len := zlen inp in
  if len =? 0 then (true, ctx)
  else if bool_decide (k_xof_state ctx = XOF_STATE_SQUEEZE) || bool_decide (k_xof_state ctx = XOF_STATE_FINAL) then (false, ctx)
  else
    let num := k_bufsz ctx in
    if num =? 0 then update_rest ctx inp
    else
      let rem := bsz - num in
      if len <? rem then (true, set_bufsz (num + len) (set_buf (splice (k_buf ctx) num inp) ctx))
      else
        let ctx := set_buf (splice (k_buf ctx) num (slice inp 0 rem)) ctx in
        let ctx := set_bufsz 0 (set_A (fst (SHA3_absorb (k_A ctx) (k_buf ctx) bsz bsz)) ctx) in
        update_rest ctx (drop (Z.to_nat rem) inp).

(** [memset(ctx->buf + num, 0, bsz - num); ctx->buf[num] = ctx->pad; ctx->buf[bsz - 1] |= 0x80; SHA3_absorb(...);] *)
Definition absorb_padded (ctx : KECCAK1600_CTX) : KECCAK1600_CTX :=
  let bsz := k_block_size ctx in
  let num := k_bufsz ctx in
  let buf := splice (k_buf ctx) num (zeros (bsz - num)) in
  let buf := <[Z.to_nat num := k_pad ctx]> buf in
  let buf := <[Z.to_nat (bsz - 1) := byte_at buf (bsz - 1) ⊔ 0x80]> buf in
  set_A (fst (SHA3_absorb (k_A ctx) buf bsz bsz)) (set_buf buf ctx).
Definition ossl_sha3_final (ctx : KECCAK1600_CTX) (outlen : Z) : bool * list Z * KECCAK1600_CTX :=
  if outlen =? 0 then (true, [], ctx)
  else if bool_decide (k_xof_state ctx = XOF_STATE_SQUEEZE) || bool_decide (k_xof_state ctx = XOF_STATE_FINAL) then (false, [], ctx)
  else
    let ctx := set_xof_state XOF_STATE_FINAL (absorb_padded ctx) in
    let '(A, out) := SHA3_squeeze (k_A ctx) outlen (k_block_size ctx) false in
    (true, out, set_A A ctx).
(** Steps 2 to 4 of [ossl_sha3_squeeze]. *)
Definition squeeze_blocks (ctx : KECCAK1600_CTX) (outlen : Z) (next : bool) : list Z * KECCAK1600_CTX :=
  let bsz := k_block_size ctx in
  let len := bsz * (outlen / bsz) in
  let '(A, out, next) :=
    if bsz <=? outlen then let '(A, out) := SHA3_squeeze (k_A ctx) len bsz next in (A, out, true) else (k_A ctx, [], next) in
  let outlen := if bsz <=? outlen then outlen - len else outlen in
  if 0 <? outlen then
    let '(A, block) := SHA3_squeeze A bsz bsz next in
    (out ++ slice block 0 outlen, set_bufsz (bsz - outlen) (set_buf (splice (k_buf ctx) 0 block) (set_A A ctx)))
  else (out, set_A A ctx).
Definition ossl_sha3_squeeze (ctx : KECCAK1600_CTX) (outlen : Z) : bool * list Z * KECCAK1600_CTX :=
  if outlen =? 0 then (true, [], ctx)
  else if bool_decide (k_xof_state ctx = XOF_STATE_FINAL) then (false, [], ctx)
  else
    let first := negb (bool_decide (k_xof_state ctx = XOF_STATE_SQUEEZE)) in
    let ctx := if first then set_bufsz 0 (set_xof_state XOF_STATE_SQUEEZE (absorb_padded ctx)) else ctx in
    let bsz := k_block_size ctx in
    let num := k_bufsz ctx in
    let len := if num =? 0 then 0 else Z.min outlen num in
    let out := slice (k_buf ctx) (bsz - num) len in
    let ctx := set_bufsz (num - len) ctx in
    if outlen - len =? 0 then (true, out, ctx)
    else
      let '(out', ctx) := squeeze_blocks ctx (outlen - len) (negb first) in
      (true, out ++ out', ctx).

(** ** The provider *)

(** [ossl_prov_is_running()] *)
Context (running : bool).

Definition keccak_init (ctx : KECCAK1600_CTX) : bool * KECCAK1600_CTX :=
  if running then (true, ossl_sha3_reset ctx) else (false, ctx).
Definition generic_sha3_absorb (ctx : KECCAK1600_CTX) (inp : list Z) : Z * KECCAK1600_CTX :=
  if bool_decide (k_xof_state ctx = XOF_STATE_INIT) || bool_decide (k_xof_state ctx = XOF_STATE_ABSORB) then
    let '(A, rem) := SHA3_absorb (k_A ctx) inp (zlen inp) (k_block_size ctx) in
    (rem, set_A A (set_xof_state XOF_STATE_ABSORB ctx))
  else (0, ctx).
Definition keccak_update (ctx : KECCAK1600_CTX) (inp : list Z) : bool * KECCAK1600_CTX :=
  let bsz := k_block_size ctx in
  let len := zlen inp in
  let rest ctx inp :=
    let '(rem, ctx) := generic_sha3_absorb ctx inp in
    (true, if rem =? 0 then ctx else set_bufsz rem (set_buf (splice (k_buf ctx) 0 (slice inp (zlen inp - rem) rem)) ctx)) in
  if len =? 0 then (true, ctx)
  else
    let num := k_bufsz ctx in
    if num =? 0 then rest ctx inp
    else
      let rem := bsz - num in
      if len <? rem then (true, set_bufsz (num + len) (set_buf (splice (k_buf ctx) num inp) ctx))
      else
        let ctx := set_buf (splice (k_buf ctx) num (slice inp 0 rem)) ctx in
        let ctx := set_bufsz 0 (snd (generic_sha3_absorb ctx (slice (k_buf ctx) 0 bsz))) in
        rest ctx (drop (Z.to_nat rem) inp).
(** The value of [*outl] is the second component of a success. *)
Definition keccak_final (ctx : KECCAK1600_CTX) (outlen : Z) : bool * list Z * Z * KECCAK1600_CTX :=
  if negb running then (false, [], 0, ctx)
  else if k_md_size ctx =? SIZE_MAX then (false, [], 0, ctx)
  else
    let '(ret, out, ctx) := if 0 <? outlen then ossl_sha3_final ctx (k_md_size ctx) else (true, [], ctx) in
    (ret, out, k_md_size ctx, ctx).
Definition shake_squeeze (ctx : KECCAK1600_CTX) (outlen : Z) : bool * list Z * Z * KECCAK1600_CTX :=
  if negb running then (false, [], 0, ctx)
  else match k_meth ctx with
  | sha3_generic_md => (false, [], 0, ctx)
  | shake_generic_md =>
    let '(ret, out, ctx) := if 0 <? outlen then ossl_sha3_squeeze ctx outlen else (true, [], ctx) in
    (ret, out, outlen, ctx)
  end.
(** The parameter [xoflen], or [size], when it is given. *)
Definition shake_set_ctx_params (ctx : KECCAK1600_CTX) (xoflen : option Z) : bool * KECCAK1600_CTX :=
  (true, match xoflen with Some n => set_md_size n ctx | None => ctx end).
Definition keccak_init_params (ctx : KECCAK1600_CTX) (xoflen : option Z) : bool * KECCAK1600_CTX :=
  let '(ret, ctx) := keccak_init ctx in
  if ret then shake_set_ctx_params ctx xoflen else (false, ctx).

(** [OPENSSL_zalloc], which can fail *)
Context (zalloc : bool).
Definition zeroed : KECCAK1600_CTX := mkKECCAK1600_CTX (replicate 25 0) (zeros SHA3_BUF) 0 0 0 0 sha3_generic_md XOF_STATE_INIT.
Definition SHA3_newctx (bitlen pad : Z) : option KECCAK1600_CTX :=
  if running && zalloc then Some (set_meth sha3_generic_md (snd (ossl_sha3_init zeroed pad bitlen))) else None.
Definition SHAKE_newctx (bitlen mdlen pad : Z) : option KECCAK1600_CTX :=
  if running && zalloc then
    let ctx := snd (ossl_keccak_init zeroed pad bitlen mdlen) in
    let ctx := if mdlen =? 0 then set_md_size SIZE_MAX ctx else ctx in
    Some (set_meth shake_generic_md ctx)
  else None.
Definition KMAC_newctx (bitlen pad : Z) : option KECCAK1600_CTX :=
  if running && zalloc then Some (set_meth sha3_generic_md (snd (ossl_keccak_init zeroed pad bitlen (2 * bitlen)))) else None.
Definition keccak_copyctx (outctx inctx : KECCAK1600_CTX) : KECCAK1600_CTX := inctx.
Definition keccak_dupctx (ctx : KECCAK1600_CTX) : option KECCAK1600_CTX := if running && zalloc then Some ctx else None.
End Sha3.

(** [IMPLEMENT_SHA3_functions], [IMPLEMENT_KECCAK_functions], [IMPLEMENT_SHAKE_functions] and
    [IMPLEMENT_KMAC_functions]: the context of each function of the tables. *)
Inductive sha3_alg := SHA3 (bitlen : Z) | KECCAK (bitlen : Z) | SHAKE (bitlen : Z) | KECCAK_KMAC (bitlen : Z).
Definition sha3_algs : list sha3_alg :=
  [SHA3 224; SHA3 256; SHA3 384; SHA3 512; KECCAK 224; KECCAK 256; KECCAK 384; KECCAK 512; SHAKE 128; SHAKE 256; KECCAK_KMAC 128; KECCAK_KMAC 256].
Definition newctx (running zalloc : bool) (alg : sha3_alg) : option KECCAK1600_CTX :=
  match alg with
  | SHA3 bitlen => SHA3_newctx running zalloc bitlen 0x06
  | KECCAK bitlen => SHA3_newctx running zalloc bitlen 0x01
  | SHAKE bitlen => SHAKE_newctx running zalloc bitlen 0 0x1f
  | KECCAK_KMAC bitlen => KMAC_newctx running zalloc bitlen 0x04
  end.
