(* ===== verification/Sha3Spec.v ===== *)
(** * SHA-3 and SHAKE: the code computes the functions of FIPS 202

    The sponge of FIPS 202 over byte strings, on states of 200 bytes and with the
    bit-level permutation; that a context holds, between any two calls, the sponge of the
    bytes absorbed so far or a position in the stream squeezed from it, however the input
    and the output were cut into pieces. *)
From S2P Require Import Prelude.
From S2P Require Import ByteOrder.
From S2P Require Import ZSum.
From S2P Require Import Keccak.
From S2P Require Import Sha3.
#[local] Open Scope keccak_scope.

(** ** FIPS 202, sections 3.1, 4 and 5 *)

Definition byte_of (g : Z -> bool) : Z :=
  Z.b2z (g 0) + 2 * Z.b2z (g 1) + 4 * Z.b2z (g 2) + 8 * Z.b2z (g 3) + 16 * Z.b2z (g 4) + 32 * Z.b2z (g 5) + 64 * Z.b2z (g 6) + 128 * Z.b2z (g 7).
(** Bit [z] of lane [(x, y)] is bit [64 (5 y + x) + z] of the string. *)
Definition bits_of (S : list Z) : bits := fun x y z => Z.testbit (byte_at S (8 * (5 * y + x) + z / 8)) (z mod 8).
Definition bytes_of (B : bits) : list Z :=
  (fun j => byte_of (fun b => B ((j / 8) mod 5) (j / 8 / 5) (8 * (j mod 8) + b))) <$> seqZ 0 200.
Definition f_bytes (S : list Z) : list Z := bytes_of (KECCAK_f (bits_of S)).
Definition xor_bytes (S P : list Z) : list Z := zip_with Z.lxor S (P ++ zeros (200 - zlen P)).
(** The suffix of the function and the first bit of the padding are in the byte [pad]. *)
Definition pad10 (r pad mlen : Z) : list Z :=
  let n := r - mlen mod r in
  if n =? 1 then [pad ⊔ 0x80] else pad :: zeros (n - 2) ++ [0x80].
Fixpoint absorb_spec (n : nat) (r : Z) (S P : list Z) : list Z :=
  match n with O => S | S n => absorb_spec n r (f_bytes (xor_bytes S (slice P 0 r))) (drop (Z.to_nat r) P) end.
(** [Trunc_r(S) || Trunc_r(f(S)) || ...], from byte [off], [n] bytes *)
Definition squeeze_spec (r : Z) (S : list Z) (off n : Z) : list Z :=
  (fun j => byte_at (Nat.iter (Z.to_nat (j / r)) f_bytes S) (j mod r)) <$> seqZ off n.
Definition absorbed (r pad : Z) (M : list Z) : list Z :=
  let P := M ++ pad10 r pad (zlen M) in absorb_spec (Z.to_nat (zlen P / r)) r (zeros 200) P.
(** SPONGE[f, pad10*1, r] of a message and its suffix: bytes [off] to [off + n]. *)
Definition SPONGE (r pad : Z) (M : list Z) (off n : Z) : list Z := squeeze_spec r (absorbed r pad M) off n.

(** ** Bytes and lanes *)

Lemma table_zlen (f : Z -> Z) off n : 0 <= n -> zlen (f <$> seqZ off n) = n.
Proof. intros Hn. unfold zlen. rewrite length_fmap, length_seqZ. lia. Qed.
Lemma table_at (f : Z -> Z) off n j : 0 <= j < n -> byte_at (f <$> seqZ off n) j = f (off + j).
Proof. intros Hj. unfold byte_at. rewrite list_lookup_fmap, lookup_seqZ_lt by lia. cbn [fmap option_fmap option_map from_option]. unfold id. f_equal. lia. Qed.
(** Two byte strings are equal when their bytes are. *)
Lemma bytes_ext (a b : list Z) : zlen a = zlen b -> (forall j, 0 <= j < zlen a -> byte_at a j = byte_at b j) -> a = b.
Proof. exact (coeff_ext a b). Qed.

Definition state_bytes (A : list Z) : list Z := concat (le_bytes 8 <$> A).

Lemma byte_bits a : is_byte a -> forall i, 8 <= i -> Z.testbit a i = false.
Proof.
  intros [H0 H1] i Hi. destruct (Z.eq_dec a 0) as [->|]; [apply Z.testbit_0_l|]. apply Z.bits_above_log2; [done|].
  pose proof (proj1 (Z.log2_lt_pow2 a 8 ltac:(lia)) H1). lia.
Qed.
Lemma byte_ext a b : is_byte a -> is_byte b -> (forall i, 0 <= i < 8 -> Z.testbit a i = Z.testbit b i) -> a = b.
Proof.
  intros Ha Hb H. apply Z.bits_inj'. intros i Hi. destruct (Z_lt_ge_dec i 8); [apply H; lia|]. by rewrite !byte_bits by (done || lia).
Qed.
Lemma eight (P : Z -> Prop) : P 0 -> P 1 -> P 2 -> P 3 -> P 4 -> P 5 -> P 6 -> P 7 -> forall x, 0 <= x < 8 -> P x.
Proof.
  intros. assert (x = 0 \/ x = 1 \/ x = 2 \/ x = 3 \/ x = 4 \/ x = 5 \/ x = 6 \/ x = 7) as Hx by lia.
  destruct Hx as [-> | [-> | [-> | [-> | [-> | [-> | [-> | ->]]]]]]]; done.
Qed.
Lemma byte_of_ok g : is_byte (byte_of g) /\ forall b, 0 <= b < 8 -> Z.testbit (byte_of g) b = g b.
Proof.
  unfold byte_of. split.
  - unfold is_byte. destruct (g 0), (g 1), (g 2), (g 3), (g 4), (g 5), (g 6), (g 7); cbn; lia.
  - apply eight; destruct (g 0), (g 1), (g 2), (g 3), (g 4), (g 5), (g 6), (g 7); reflexivity.
Qed.
Lemma le_bytes_nth n v k : (k < n)%nat -> le_bytes n v !! k = Some ((v / 256 ^ Z.of_nat k) mod 256).
Proof.
  revert v k. induction n as [|n IH]; intros v k Hk; [lia|]. cbn [le_bytes]. destruct k as [|k]; cbn [lookup list_lookup].
  - by rewrite Z.div_1_r.
  - rewrite IH by lia. rewrite Z.div_div by (lia || apply Z.pow_pos_nonneg; lia). by rewrite Nat2Z.inj_succ, Z.pow_succ_r by lia.
Qed.
Lemma concat_le_lookup (A : list Z) (k i : nat) : (i < 8)%nat -> concat (le_bytes 8 <$> A) !! (8 * k + i)%nat = (fun v => (v / 256 ^ Z.of_nat i) mod 256) <$> A !! k.
Proof.
  intros Hi. revert k. induction A as [|a A IH]; intros k; [done|]. change (concat (le_bytes 8 <$> a :: A)) with (le_bytes 8 a ++ concat (le_bytes 8 <$> A)).
  destruct k as [|k].
  - rewrite lookup_app_l by (rewrite le_bytes_length; lia). by apply le_bytes_nth.
  - rewrite lookup_app_r by (rewrite le_bytes_length; lia). rewrite le_bytes_length. replace (8 * S k + i - 8)%nat with (8 * k + i)%nat by lia. apply IH.
Qed.
Lemma concat_le_length (A : list Z) : length (concat (le_bytes 8 <$> A)) = (8 * length A)%nat.
Proof.
  induction A as [|a A IH]; [done|]. change (concat (le_bytes 8 <$> a :: A)) with (le_bytes 8 a ++ concat (le_bytes 8 <$> A)).
  rewrite length_app, IH, le_bytes_length. cbn [length]. lia.
Qed.
Lemma concat_le_ok (A : list Z) : bytes_ok (concat (le_bytes 8 <$> A)).
Proof. induction A as [|a A IH]; [by apply Forall_nil|]. apply Forall_app_2; [apply le_bytes_ok|exact IH]. Qed.
Lemma state_bytes_len A : length A = 25%nat -> zlen (state_bytes A) = 200.
Proof. intros H. unfold zlen, state_bytes. rewrite concat_le_length. lia. Qed.
Lemma state_bytes_ok A : bytes_ok (state_bytes A).
Proof. apply concat_le_ok. Qed.
(** The bits of the bytes are the bits of the lanes. *)
Lemma state_byte_bit A j b : 0 <= j < 8 * Z.of_nat (length A) -> 0 <= b < 8 ->
  Z.testbit (byte_at (state_bytes A) j) b = Z.testbit (default 0 (A !! Z.to_nat (j / 8))) (8 * (j mod 8) + b).
Proof.
  intros Hj Hb. unfold byte_at, state_bytes. pose proof (Z.mod_pos_bound j 8 ltac:(lia)) as Hm.
  replace (Z.to_nat j) with (8 * Z.to_nat (j / 8) + Z.to_nat (j mod 8))%nat by dlia. rewrite concat_le_lookup by lia.
  destruct (A !! Z.to_nat (j / 8)) as [v|] eqn:E; [|apply lookup_ge_None_1 in E; dlia]. cbn [fmap option_fmap option_map from_option]. unfold id.
  rewrite Z2Nat.id by lia. change 256 with (2 ^ 8). rewrite Z.mod_pow2_bits_low by lia. rewrite <- Z.pow_mul_r by lia.
  rewrite Z.div_pow2_bits by lia. f_equal. lia.
Qed.
Lemma bits_of_state A : state_ok A -> bits_eq (bits_of (state_bytes A)) (state_bits A).
Proof.
  intros [Hl _] x y z Hx Hy Hz. unfold bits_of, state_bits, lane. rewrite state_byte_bit by dlia.
  replace ((8 * (5 * y + x) + z / 8) / 8) with (5 * y + x) by dlia. replace (8 * ((8 * (5 * y + x) + z / 8) mod 8) + z mod 8) with z by dlia.
  do 2 f_equal. by replace (Z.to_nat (5 * y + x)) with (5 * Z.to_nat y + Z.to_nat x)%nat by lia.
Qed.
Lemma KECCAK_f_proper A B : bits_eq A B -> bits_eq (KECCAK_f A) (KECCAK_f B).
Proof.
  unfold KECCAK_f. generalize 24%nat, 0. intros n. revert A B. induction n as [|n IH]; intros A B i H; [done|]. cbn [for_each]. by apply IH, Rnd_proper.
Qed.
Lemma f_bytes_state A : state_ok A -> f_bytes (state_bytes A) = state_bytes (KeccakF1600_ref A).
Proof.
  intros H. destruct (KeccakF1600_ref_bits A H) as [Hok Hb]. pose proof (state_bytes_len _ (proj1 Hok)) as Hl.
  unfold f_bytes, bytes_of. apply bytes_ext; [by rewrite table_zlen|]. rewrite table_zlen by lia. intros j Hj. rewrite table_at by done. rewrite Z.add_0_l.
  destruct (byte_of_ok (fun b => KECCAK_f (bits_of (state_bytes A)) ((j / 8) mod 5) (j / 8 / 5) (8 * (j mod 8) + b))) as [Hby Hbit].
  apply byte_ext; [done|apply byte_at_ok, state_bytes_ok|]. intros b Hbb. rewrite Hbit by done. rewrite state_byte_bit by (destruct Hok; lia).
  rewrite (KECCAK_f_proper _ (state_bits A)) by (by apply bits_of_state || dlia). rewrite <- Hb by dlia. unfold state_bits, lane.
  do 2 f_equal. by replace (5 * Z.to_nat (j / 8 / 5) + Z.to_nat ((j / 8) mod 5))%nat with (Z.to_nat (j / 8)) by dlia.
Qed.

(** ** Absorbing *)

Lemma load_lane_bit inp o k b : bytes_ok inp -> 0 <= k < 8 -> 0 <= b < 8 ->
  Z.testbit (load_lane inp o) (8 * k + b) = Z.testbit (byte_at inp (o + k)) b.
Proof.
  intros Hok Hk Hb. unfold load_lane. rewrite !Z.lor_spec, !Z.shiftl_spec by lia.
  assert (forall i m, m < 0 -> Z.testbit (byte_at inp i) m = false) as Hneg by (intros; by apply Z.testbit_neg_r).
  assert (forall i m, 8 <= m -> Z.testbit (byte_at inp i) m = false) as Hbig by (intros; by apply byte_bits; [apply byte_at_ok|]).
  revert k Hk. apply eight; rewrite ?Z.add_0_r.
  all: repeat match goal with |- context [Z.testbit (byte_at _ ?i) ?m] => (rewrite (Hneg i m) by lia) || (rewrite (Hbig i m) by lia) end.
  all: rewrite ?orb_false_r, ?orb_false_l; f_equal; lia.
Qed.
Lemma load_lane_ok inp o : bytes_ok inp -> w64 (load_lane inp o).
Proof.
  intros Hok. assert (forall i k, 0 <= k <= 56 -> w64 (Z.shiftl (byte_at inp i) k)) as Hs.
  { intros i k Hk. pose proof (byte_at_ok inp i Hok) as [H0 H1]. rewrite Z.shiftl_mul_pow2 by lia. split; [nia|].
    change (2 ^ 64) with (2 ^ 8 * 2 ^ 56). assert (2 ^ k <= 2 ^ 56) by (apply Z.pow_le_mono_r; lia). nia. }
  unfold load_lane. repeat apply w64_lor; try apply Hs; try lia. rewrite <- Z.shiftl_0_r. apply Hs. lia.
Qed.
Lemma xor_block_lane inp w : bytes_ok inp -> 0 <= w <= 25 -> forall A, state_ok A ->
  state_ok (xor_block A inp w) /\
  forall i, 0 <= i < 25 -> default 0 (xor_block A inp w !! Z.to_nat i) =
    if i <? w then default 0 (A !! Z.to_nat i) ⊕ load_lane inp (8 * i) else default 0 (A !! Z.to_nat i).
Proof.
  intros Hok Hw A HA. unfold xor_block.
  set (P := fun n B => state_ok B /\ forall i, 0 <= i < 25 -> default 0 (B !! Z.to_nat i) =
    if i <? n then default 0 (A !! Z.to_nat i) ⊕ load_lane inp (8 * i) else default 0 (A !! Z.to_nat i)).
  assert (P (0 + Z.of_nat (Z.to_nat w))
    (for_each (Z.to_nat w) 0 (fun i A => <[Z.to_nat i := default 0 (A !! Z.to_nat i) ⊕ load_lane inp (8 * i)]> A) A)) as HP.
  { apply for_each_inv.
    - split; [done|]. intros i Hi. by rewrite (proj2 (Z.ltb_ge i 0)) by lia.
    - intros j B Hj [[HlB HfB] HB]. split.
      + split; [by rewrite length_insert|]. apply Forall_insert; [done|]. apply w64_lxor; [|by apply load_lane_ok].
        destruct (B !! Z.to_nat j) as [v|] eqn:E; [by eapply Forall_lookup_1|by compute].
      + intros i Hi. destruct (Z.eq_dec i j) as [->|Hne].
        * rewrite list_lookup_insert_eq by lia. cbn [from_option]. unfold id. rewrite HB by done. rewrite (proj2 (Z.ltb_ge j j)), (proj2 (Z.ltb_lt j (j + 1))) by lia. done.
        * rewrite list_lookup_insert_ne by lia. rewrite HB by done. destruct (Z.ltb_spec i j), (Z.ltb_spec i (j + 1)); done || lia. }
  replace (0 + Z.of_nat (Z.to_nat w)) with w in HP by lia. exact HP.
Qed.
Lemma xor_block_bytes A inp r : state_ok A -> bytes_ok inp -> 0 <= r <= 200 -> r mod 8 = 0 -> r <= zlen inp ->
  state_bytes (xor_block A inp (r / 8)) = xor_bytes (state_bytes A) (slice inp 0 r).
Proof.
  intros HA Hok Hr Hm Hl. destruct (xor_block_lane inp (r / 8) Hok ltac:(dlia) A HA) as [HB Hlanes].
  pose proof (state_bytes_len _ (proj1 HA)) as HlA. pose proof (state_bytes_len _ (proj1 HB)) as HlB.
  assert (zlen (slice inp 0 r) = r) as Hls by (apply slice_length; lia).
  assert (zlen (slice inp 0 r ++ zeros (200 - zlen (slice inp 0 r))) = 200) as Hlp by (rewrite zlen_app, zlen_zeros; lia).
  assert (bytes_ok (slice inp 0 r ++ zeros (200 - zlen (slice inp 0 r)))) as Hpok by (apply Forall_app_2; [by apply slice_ok|apply zeros_ok]).
  set (p := slice inp 0 r ++ zeros (200 - zlen (slice inp 0 r))) in *.
  assert (zlen (xor_bytes (state_bytes A) (slice inp 0 r)) = 200) as Hlx by (unfold xor_bytes, zlen in *; fold p; rewrite length_zip_with; lia).
  apply bytes_ext; [lia|]. intros j Hj. rewrite HlB in Hj.
  assert (byte_at (xor_bytes (state_bytes A) (slice inp 0 r)) j = byte_at (state_bytes A) j ⊕ byte_at p j) as ->.
  { unfold xor_bytes. fold p. unfold byte_at, zlen in *. rewrite lookup_zip_with.
    destruct (state_bytes A !! Z.to_nat j) as [a|] eqn:E1; [|apply lookup_ge_None_1 in E1; lia].
    destruct (p !! Z.to_nat j) as [c|] eqn:E2; [done|apply lookup_ge_None_1 in E2; lia]. }
  pose proof (byte_at_ok _ j (state_bytes_ok A)) as Ha. pose proof (byte_at_ok _ j Hpok) as Hp.
  apply byte_ext; [apply byte_at_ok, state_bytes_ok|by apply (lxor_range 8)|]. intros b Hb.
  rewrite Z.lxor_spec. rewrite !state_byte_bit by (destruct HA, HB; lia). rewrite Hlanes by dlia. destruct (Z.ltb_spec (j / 8) (r / 8)) as [Hlt|Hge].
  - rewrite Z.lxor_spec, load_lane_bit by (done || dlia). do 2 f_equal. unfold p, byte_at, slice.
    rewrite lookup_app_l by (unfold zlen, slice in *; cbn [Z.to_nat] in *; rewrite drop_0, length_take in *; dlia).
    cbn [Z.to_nat]. rewrite drop_0, lookup_take_lt by dlia. do 2 f_equal. dlia.
  - assert (byte_at p j = 0) as ->; [|by rewrite Z.testbit_0_l, xorb_false_r]. unfold p, byte_at. unfold zlen in Hls. rewrite lookup_app_r by dlia.
    unfold zeros. destruct (decide (Z.to_nat j - length (slice inp 0 r) < Z.to_nat (200 - zlen (slice inp 0 r)))%nat);
      [by rewrite lookup_replicate_2|by rewrite lookup_ge_None_2 by (rewrite length_replicate; lia)].
Qed.

#[local] Abbreviation F := KeccakF1600_ref.
Lemma F_eq complementing A : state_ok A -> KeccakF1600 complementing A = F A.
Proof. intros H. destruct (KeccakF1600_forms A H) as (_ & _ & E3 & E4 & _). destruct complementing; [exact E4|exact E3]. Qed.
#[local] Opaque KeccakF1600_ref KeccakF1600 f_bytes.

Section Sponge.
Context (complementing : bool) (r : Z) (Hr : 0 < r <= 168) (Hr8 : r mod 8 = 0).

Lemma F_ok A : state_ok A -> state_ok (F A).
Proof. apply KeccakF1600_ref_bits. Qed.

(** Absorbing [n] blocks of a string. *)
Fixpoint absorb_n (n : nat) (A P : list Z) : list Z :=
  match n with O => A | S n => absorb_n n (F (xor_block A P (r / 8))) (drop (Z.to_nat r) P) end.

Lemma xor_block_ok A P : state_ok A -> bytes_ok P -> state_ok (xor_block A P (r / 8)).
Proof. intros HA HP. apply xor_block_lane; [done|dlia|done]. Qed.
Lemma absorb_n_ok n A P : state_ok A -> bytes_ok P -> state_ok (absorb_n n A P).
Proof. revert A P. induction n as [|n IH]; intros A P HA HP; [done|]. apply IH; [by apply F_ok, xor_block_ok|by apply Forall_drop]. Qed.
Lemma zlen_drop (P : list Z) : r <= zlen P -> zlen (drop (Z.to_nat r) P) = zlen P - r.
Proof. intros H. unfold zlen in *. rewrite length_drop. lia. Qed.
Lemma absorb_n_bytes n A P : state_ok A -> bytes_ok P -> Z.of_nat n * r <= zlen P ->
  state_bytes (absorb_n n A P) = absorb_spec n r (state_bytes A) P.
Proof.
  revert A P. induction n as [|n IH]; intros A P HA HP Hn; [done|]. cbn [absorb_n absorb_spec].
  rewrite IH; [|by apply F_ok, xor_block_ok|by apply Forall_drop|rewrite zlen_drop; nia].
  rewrite <- f_bytes_state by (by apply xor_block_ok). by rewrite xor_block_bytes by (done || nia).
Qed.
Lemma xor_block_prefix A P Q : r <= zlen P -> xor_block A (P ++ Q) (r / 8) = xor_block A P (r / 8).
Proof.
  intros Hl. unfold xor_block.
  assert (forall n i B, 0 <= i -> i + Z.of_nat n <= r / 8 ->
    for_each n i (fun i (A : list Z) => <[Z.to_nat i := default 0 (A !! Z.to_nat i) ⊕ load_lane (P ++ Q) (8 * i)]> A) B =
    for_each n i (fun i (A : list Z) => <[Z.to_nat i := default 0 (A !! Z.to_nat i) ⊕ load_lane P (8 * i)]> A) B) as H; [|apply H; dlia].
  induction n as [|n IH]; intros i B Hi Hn; [done|]. cbn [for_each].
  assert (forall k, 0 <= k < 8 -> byte_at (P ++ Q) (8 * i + k) = byte_at P (8 * i + k)) as Hb.
  { intros k Hk. unfold byte_at, zlen in *. rewrite lookup_app_l; [done|]. dlia. }
  assert (load_lane (P ++ Q) (8 * i) = load_lane P (8 * i)) as ->; [|apply IH; lia].
  unfold load_lane. pose proof (Hb 0 ltac:(lia)) as H0. rewrite Z.add_0_r in H0. rewrite H0. by rewrite !Hb by lia.
Qed.
#[local] Opaque xor_block.
Lemma absorb_n_prefix n A P Q : Z.of_nat n * r <= zlen P -> absorb_n n A (P ++ Q) = absorb_n n A P.
Proof.
  revert A P. induction n as [|n IH]; intros A P Hn; [done|]. cbn [absorb_n]. rewrite xor_block_prefix by nia.
  rewrite drop_app_le by (unfold zlen in *; nia). apply IH. rewrite zlen_drop; nia.
Qed.
Lemma absorb_n_add a b A P : absorb_n (a + b) A P = absorb_n b (absorb_n a A P) (drop (a * Z.to_nat r) P).
Proof.
  revert A P. induction a as [|a IH]; intros A P; [done|]. cbn [Nat.add absorb_n]. rewrite IH, drop_drop. done.
Qed.
Lemma absorb_loop_eq n : forall A inp, state_ok A -> bytes_ok inp -> zlen inp <= Z.of_nat n ->
  absorb_loop complementing n A inp (zlen inp) r = (absorb_n (Z.to_nat (zlen inp / r)) A inp, zlen inp mod r).
Proof.
  induction n as [|n IH]; intros A inp HA Hok Hn; cbn [absorb_loop].
  - pose proof (zlen_nonneg inp). by replace (zlen inp) with 0 by lia.
  - pose proof (zlen_nonneg inp). destruct (Z.leb_spec r (zlen inp)) as [Hle|Hlt]; [|by rewrite Z.div_small, Z.mod_small by lia].
    pose proof (zlen_drop inp Hle) as Hd. rewrite <- Hd, F_eq by (by apply xor_block_ok). rewrite IH; [|by apply F_ok, xor_block_ok|by apply Forall_drop|lia].
    rewrite Hd. assert (Z.to_nat (zlen inp / r) = S (Z.to_nat ((zlen inp - r) / r))) as ->.
    { replace (zlen inp) with (zlen inp - r + 1 * r) at 1 by lia. rewrite Z.div_add by lia. assert (0 <= (zlen inp - r) / r) by (apply Z.div_pos; lia). lia. }
    cbn [absorb_n]. f_equal. replace (zlen inp) with (zlen inp - r + 1 * r) at 2 by lia. by rewrite Z.mod_add by lia.
Qed.
Lemma SHA3_absorb_eq A inp : state_ok A -> bytes_ok inp ->
  SHA3_absorb complementing A inp (zlen inp) r = (absorb_n (Z.to_nat (zlen inp / r)) A inp, zlen inp mod r).
Proof. intros HA Hok. apply absorb_loop_eq; [done|done|]. pose proof (zlen_nonneg inp). lia. Qed.
(** Only [len] bytes are read. *)
Lemma SHA3_absorb_one A buf : state_ok A -> bytes_ok buf -> r <= zlen buf ->
  fst (SHA3_absorb complementing A buf r r) = absorb_n 1 A (slice buf 0 r).
Proof.
  intros HA Hok Hl. unfold SHA3_absorb. replace (Z.to_nat r) with (S (Z.to_nat (r - 1))) by lia. cbn [absorb_loop]. rewrite Z.leb_refl, Z.sub_diag.
  rewrite F_eq by (by apply xor_block_ok). assert (slice buf 0 r ++ drop (Z.to_nat r) buf = buf) as E by (unfold slice; cbn [Z.to_nat]; rewrite drop_0; apply take_drop).
  transitivity (F (xor_block A buf (r / 8))).
  - destruct (Z.to_nat (r - 1)); cbn [absorb_loop]; [done|]. by rewrite (proj2 (Z.leb_gt r 0)) by lia.
  - cbn [absorb_n]. rewrite <- E at 1. rewrite xor_block_prefix; [done|]. rewrite slice_length; lia.
Qed.

(** ** Squeezing *)

Lemma shiftr_byte v k : 0 <= k -> u8 (Z.shiftr v (8 * k)) = (v / 256 ^ k) mod 256.
Proof. intros Hk. unfold u8. rewrite Z.shiftr_div_pow2 by lia. change 256 with (2 ^ 8) at 2. by rewrite <- Z.pow_mul_r by lia. Qed.
Lemma store_bytes_eq n m v : (n <= m)%nat -> store_bytes n v = take n (le_bytes m v).
Proof.
  revert m v. induction n as [|n IH]; intros m v Hm; [done|]. destruct m as [|m]; [lia|]. cbn [store_bytes le_bytes take]. f_equal.
  rewrite (IH m) by lia. by rewrite Z.shiftr_div_pow2 by lia.
Qed.
Lemma store_lane v : [u8 v; u8 (Z.shiftr v 8); u8 (Z.shiftr v 16); u8 (Z.shiftr v 24); u8 (Z.shiftr v 32); u8 (Z.shiftr v 40);
  u8 (Z.shiftr v 48); u8 (Z.shiftr v 56)] = le_bytes 8 v.
Proof. rewrite <- (firstn_all (le_bytes 8 v)), le_bytes_length, <- store_bytes_eq by lia. cbn [store_bytes]. by rewrite !Z.shiftr_shiftr by lia. Qed.
Lemma squeeze_lanes_eq As len : 0 <= len ->
  squeeze_lanes As len = (take (Z.to_nat len) (concat (le_bytes 8 <$> As)), Z.max 0 (len - 8 * zlen As)).
Proof.
  revert len. induction As as [|a As IH]; intros len Hl; cbn [squeeze_lanes].
  - change (concat (le_bytes 8 <$> [])) with (@nil Z). rewrite take_nil. f_equal. unfold zlen. cbn [length]. lia.
  - change (concat (le_bytes 8 <$> a :: As)) with (le_bytes 8 a ++ concat (le_bytes 8 <$> As)). rewrite zlen_cons. pose proof (zlen_nonneg As).
    destruct (Z.eqb_spec len 0) as [->|]; [f_equal; lia|]. destruct (Z.ltb_spec len 8).
    + rewrite (store_bytes_eq _ 8) by lia. rewrite take_app_le by (rewrite le_bytes_length; lia). f_equal. lia.
    + rewrite IH by lia. rewrite store_lane. f_equal; [|lia].
      rewrite take_app_ge by (rewrite le_bytes_length; lia). rewrite le_bytes_length. do 2 f_equal. lia.
Qed.

(** The stream of a state: byte [j] is byte [j mod r] of the state permuted [j / r] times. *)
Definition stream (A : list Z) (off n : Z) : list Z :=
  (fun j => byte_at (state_bytes (Nat.iter (Z.to_nat (j / r)) F A)) (j mod r)) <$> seqZ off n.
Lemma stream_zlen A off n : 0 <= n -> zlen (stream A off n) = n.
Proof. apply table_zlen. Qed.
Lemma iter_ok A n : state_ok A -> state_ok (Nat.iter n F A).
Proof. intros HA. induction n; [done|]. by apply F_ok. Qed.
Lemma sponge_stream_ok A off n : bytes_ok (stream A off n).
Proof. unfold stream. apply Forall_fmap, Forall_forall. intros j _. apply byte_at_ok, state_bytes_ok. Qed.
Lemma stream_add A off n m : 0 <= n -> 0 <= m -> stream A off (n + m) = stream A off n ++ stream A (off + n) m.
Proof. intros Hn Hm. unfold stream. by rewrite seqZ_app, fmap_app by lia. Qed.
Lemma iter_comm A n : Nat.iter n F (F A) = F (Nat.iter n F A).
Proof. apply Nat.iter_swap. Qed.
Lemma stream_shift A off n k : 0 <= off -> 0 <= k -> stream A (off + k * r) n = stream (Nat.iter (Z.to_nat k) F A) off n.
Proof.
  intros Ho Hk. unfold stream. apply bytes_ext; [unfold zlen; by rewrite !length_fmap, !length_seqZ|]. intros j Hj. unfold zlen in Hj. rewrite length_fmap, length_seqZ in Hj.
  rewrite !table_at by lia. replace (off + k * r + j) with (off + j + k * r) by lia. rewrite Z.div_add, Z.mod_add by lia.
  assert (0 <= (off + j) / r) by (apply Z.div_pos; lia). rewrite Z2Nat.inj_add by lia. by rewrite Nat.iter_add.
Qed.
(** One block. *)
Lemma stream_block A n : state_ok A -> 0 <= n <= r -> take (Z.to_nat n) (concat (le_bytes 8 <$> take (Z.to_nat (r / 8)) A)) = stream A 0 n.
Proof.
  intros [HlA _] Hn. assert (zlen (take (Z.to_nat n) (concat (le_bytes 8 <$> take (Z.to_nat (r / 8)) A))) = n) as Hl.
  { unfold zlen. rewrite length_take, concat_le_length, length_take. dlia. }
  apply bytes_ext; [rewrite stream_zlen by lia; done|]. rewrite Hl. intros j Hj. unfold stream. rewrite table_at by lia. rewrite Z.add_0_l, (Z.div_small j r), (Z.mod_small j r) by lia.
  cbn [Z.to_nat Nat.iter nat_rect]. unfold byte_at, state_bytes. rewrite lookup_take_lt by lia. f_equal.
  pose proof (Z.mod_pos_bound j 8 ltac:(lia)). replace (Z.to_nat j) with (8 * Z.to_nat (j / 8) + Z.to_nat (j mod 8))%nat by dlia.
  rewrite !concat_le_lookup by lia. by rewrite lookup_take_lt by dlia.
Qed.
Lemma squeeze_loop_eq n : forall A len (next : bool), state_ok A -> 0 < len <= Z.of_nat n ->
  let B := if next then F A else A in
  squeeze_loop complementing n A len r next = (Nat.iter (Z.to_nat ((len - 1) / r)) F B, stream B 0 len).
Proof.
  induction n as [|n IH]; intros A len next HA Hl B; [lia|]. cbn [squeeze_loop]. rewrite (proj2 (Z.eqb_neq len 0)) by lia.
  assert ((if next then KeccakF1600 complementing A else A) = B) as -> by (unfold B; destruct next; [by apply F_eq|done]).
  assert (state_ok B) as HB by (unfold B; destruct next; [by apply F_ok|done]). clearbody B. clear A HA next.
  assert (zlen (take (Z.to_nat (r / 8)) B) = r / 8) as Hlt by (unfold zlen; rewrite length_take, (proj1 HB); dlia).
  rewrite squeeze_lanes_eq by lia. rewrite Hlt. replace (8 * (r / 8)) with r by dlia. destruct (Z_le_gt_dec len r) as [Hle|Hgt].
  - rewrite (stream_block B len) by (done || lia). replace (Z.max 0 (len - r)) with 0 by lia.
    assert (squeeze_loop complementing n B 0 r true = (B, [])) as -> by (destruct n; reflexivity). rewrite app_nil_r, (Z.div_small (len - 1) r) by lia. reflexivity.
  - replace (Z.max 0 (len - r)) with (len - r) by lia. rewrite IH by (done || lia). cbv zeta.
    rewrite take_ge by (rewrite concat_le_length; unfold zlen in Hlt; dlia).
    assert (concat (le_bytes 8 <$> take (Z.to_nat (r / 8)) B) = stream B 0 r) as ->.
    { rewrite <- (stream_block B r) by (done || lia). symmetry. apply take_ge. rewrite concat_le_length. unfold zlen in Hlt. dlia. }
    f_equal.
    + replace (len - 1) with (len - r - 1 + 1 * r) by lia. rewrite Z.div_add by lia. assert (0 <= (len - r - 1) / r) by (apply Z.div_pos; lia).
      replace (Z.to_nat ((len - r - 1) / r + 1)) with (S (Z.to_nat ((len - r - 1) / r))) by lia. cbn [Nat.iter nat_rect]. apply iter_comm.
    + replace len with (r + (len - r)) at 2 by lia. rewrite stream_add by lia. f_equal. replace (0 + r) with (0 + 1 * r) by lia. by rewrite stream_shift by lia.
Qed.
Lemma SHA3_squeeze_eq A len (next : bool) : state_ok A -> 0 < len ->
  let B := if next then F A else A in
  SHA3_squeeze complementing A len r next = (Nat.iter (Z.to_nat ((len - 1) / r)) F B, stream B 0 len).
Proof. intros HA Hl. apply squeeze_loop_eq; [done|lia]. Qed.
Lemma stream_spec A off n : state_ok A -> stream A off n = squeeze_spec r (state_bytes A) off n.
Proof.
  intros HA. unfold stream, squeeze_spec. apply list_fmap_ext. intros _ j _. f_equal. induction (Z.to_nat (j / r)) as [|k IH]; [done|].
  cbn [Nat.iter nat_rect]. unfold Nat.iter in IH. rewrite <- IH. symmetry. apply f_bytes_state. by apply (iter_ok A k).
Qed.

(** ** A context that absorbs *)

Definition zero_state : list Z := replicate 25 0.
(** What does not fill a block. *)
Definition tail_of (M : list Z) : list Z := drop (Z.to_nat (r * (zlen M / r))) M.
Definition absorbs (pad : Z) (M : list Z) (ctx : KECCAK1600_CTX) : Prop :=
  k_block_size ctx = r /\ k_pad ctx = pad /\ zlen (k_buf ctx) = SHA3_BUF /\ bytes_ok (k_buf ctx) /\ bytes_ok M /\
  (k_xof_state ctx = XOF_STATE_INIT \/ k_xof_state ctx = XOF_STATE_ABSORB) /\ k_bufsz ctx = zlen M mod r /\
  k_A ctx = absorb_n (Z.to_nat (zlen M / r)) zero_state M /\ slice (k_buf ctx) 0 (zlen M mod r) = tail_of M.

Lemma div_nonneg (M : list Z) : 0 <= zlen M / r.
Proof. pose proof (zlen_nonneg M). apply Z.div_pos; lia. Qed.
Lemma tail_zlen M : zlen (tail_of M) = zlen M mod r.
Proof. pose proof (div_nonneg M). pose proof (zlen_nonneg M). unfold tail_of, zlen in *. rewrite length_drop. rewrite Z.mod_eq by lia. pose proof (Z.mul_div_le (Z.of_nat (length M)) r). nia. Qed.
Lemma tail_app M inp : drop (Z.to_nat (r * (zlen M / r))) (M ++ inp) = tail_of M ++ inp.
Proof. pose proof (div_nonneg M). pose proof (zlen_nonneg M). unfold tail_of, zlen in *. apply drop_app_le. pose proof (Z.mul_div_le (Z.of_nat (length M)) r). nia. Qed.
(** After the blocks of [M], the rest of the input is what [M] left over and [inp]. *)
Lemma absorb_more n M inp :
  absorb_n (Z.to_nat (zlen M / r) + n) zero_state (M ++ inp) = absorb_n n (absorb_n (Z.to_nat (zlen M / r)) zero_state M) (tail_of M ++ inp).
Proof.
  pose proof (div_nonneg M). pose proof (Z.mul_div_le (zlen M) r ltac:(lia)). rewrite absorb_n_add. rewrite absorb_n_prefix by (done || lia). f_equal.
  rewrite <- tail_app. f_equal. nia.
Qed.
Lemma absorbs_A pad M ctx : absorbs pad M ctx -> state_ok (k_A ctx).
Proof. intros (_ & _ & _ & _ & HM & _ & _ & -> & _). apply absorb_n_ok; [exact zero_state_ok|done]. Qed.
Lemma SHA3_BUF_eq : SHA3_BUF = 168.
Proof. reflexivity. Qed.

(** A piece that does not fill the block goes to the buffer. *)
Lemma absorbs_short pad M ctx inp : absorbs pad M ctx -> bytes_ok inp -> zlen M mod r + zlen inp < r ->
  absorbs pad (M ++ inp) (set_bufsz (k_bufsz ctx + zlen inp) (set_buf (splice (k_buf ctx) (k_bufsz ctx) inp) ctx)).
Proof.
  intros (Hb & Hp & Hl & Hbok & HM & Hx & Hz & HA & Ht) Hok Hlt. rewrite SHA3_BUF_eq in Hl. pose proof (zlen_nonneg inp). pose proof (zlen_nonneg M).
  pose proof (Z.mod_pos_bound (zlen M) r ltac:(lia)) as Hm.
  assert (zlen (M ++ inp) / r = zlen M / r /\ zlen (M ++ inp) mod r = zlen M mod r + zlen inp) as [Ed Em].
  { rewrite zlen_app. pose proof (Z.div_mod (zlen M) r ltac:(lia)) as E.
    split; symmetry; [apply (Z.div_unique_pos _ r _ (zlen M mod r + zlen inp))|apply (Z.mod_unique_pos _ r (zlen M / r))]; lia. }
  unfold absorbs. cbn [k_block_size k_pad k_buf k_bufsz k_A k_xof_state set_bufsz set_buf]. rewrite Hz, Em, Ed.
  split_and!; [done|done|rewrite splice_zlen, ?SHA3_BUF_eq; lia|by apply splice_ok|by apply Forall_app_2|done|done| |].
  - pose proof (absorb_more 0 M inp) as E. rewrite Nat.add_0_r in E. by rewrite E.
  - unfold tail_of at 1. rewrite Ed, tail_app, <- Ht. unfold slice at 1. cbn [Z.to_nat]. rewrite drop_0, take_splice_end by lia. by unfold slice; cbn [Z.to_nat]; rewrite drop_0.
Qed.
(** A piece that fills the block. *)
Lemma absorbs_fill pad M ctx x st : absorbs pad M ctx -> bytes_ok x -> zlen M mod r + zlen x = r ->
  (st = XOF_STATE_INIT \/ st = XOF_STATE_ABSORB) ->
  let buf := splice (k_buf ctx) (k_bufsz ctx) x in
  absorbs pad (M ++ x) (set_bufsz 0 (set_A (absorb_n 1 (k_A ctx) (slice buf 0 r)) (set_xof_state st (set_buf buf ctx)))).
Proof.
  intros (Hb & Hp & Hl & Hbok & HM & Hx & Hz & HA & Ht) Hok Hlt Hst buf. rewrite SHA3_BUF_eq in Hl. pose proof (zlen_nonneg x). pose proof (zlen_nonneg M).
  pose proof (Z.mod_pos_bound (zlen M) r ltac:(lia)) as Hm. pose proof (div_nonneg M).
  assert (zlen (M ++ x) / r = zlen M / r + 1 /\ zlen (M ++ x) mod r = 0) as [Ed Em].
  { assert (zlen (M ++ x) = (zlen M / r + 1) * r) as -> by (rewrite zlen_app; pose proof (Z.div_mod (zlen M) r ltac:(lia)); lia).
    split; [by rewrite Z.div_mul by lia|by rewrite Z.mod_mul by lia]. }
  unfold absorbs. cbn [k_block_size k_pad k_buf k_bufsz k_A k_xof_state set_bufsz set_buf set_A set_xof_state]. rewrite Em, Ed.
  assert (slice buf 0 r = tail_of M ++ x) as Es.
  { rewrite <- Ht. unfold buf, slice. cbn [Z.to_nat]. rewrite !drop_0. replace r with (k_bufsz ctx + zlen x) at 1 by lia. rewrite take_splice_end by lia. by rewrite Hz. }
  split_and!; [done|done|unfold buf; rewrite splice_zlen, ?SHA3_BUF_eq; lia|by apply splice_ok|by apply Forall_app_2|done|done| |].
  - rewrite Z2Nat.inj_add, absorb_more by lia. by rewrite Es, HA.
  - unfold tail_of. rewrite Ed. rewrite drop_ge; [done|]. unfold zlen in *. pose proof (Z.div_mod (Z.of_nat (length M)) r ltac:(lia)). rewrite length_app. nia.
Qed.
(** Whole blocks, and what remains. *)
Lemma absorbs_rest pad M ctx inp st : absorbs pad M ctx -> bytes_ok inp -> zlen M mod r = 0 ->
  (st = XOF_STATE_INIT \/ st = XOF_STATE_ABSORB) ->
  let rem := zlen inp mod r in
  let ctx := set_A (absorb_n (Z.to_nat (zlen inp / r)) (k_A ctx) inp) (set_xof_state st ctx) in
  absorbs pad (M ++ inp) (if rem =? 0 then ctx else set_bufsz rem (set_buf (splice (k_buf ctx) 0 (slice inp (zlen inp - rem) rem)) ctx)).
Proof.
  intros (Hb & Hp & Hl & Hbok & HM & Hx & Hz & HA & Ht) Hok H0 Hst rem ctx'. rewrite SHA3_BUF_eq in Hl. pose proof (zlen_nonneg inp). pose proof (zlen_nonneg M).
  pose proof (Z.mod_pos_bound (zlen inp) r ltac:(lia)) as Hm. fold rem in Hm. pose proof (div_nonneg M). pose proof (div_nonneg inp).
  assert (tail_of M = []) as Et by (pose proof (tail_zlen M) as E; rewrite H0 in E; unfold zlen in E; destruct (tail_of M); [done|cbn in E; lia]).
  assert (zlen (M ++ inp) / r = zlen M / r + zlen inp / r /\ zlen (M ++ inp) mod r = rem) as [Ed Em].
  { rewrite zlen_app. pose proof (Z.div_mod (zlen M) r ltac:(lia)) as E. pose proof (Z.div_mod (zlen inp) r ltac:(lia)) as E'. fold rem in E'.
    split; symmetry; [apply (Z.div_unique_pos _ r _ rem)|apply (Z.mod_unique_pos _ r (zlen M / r + zlen inp / r))]; lia. }
  assert (zlen (slice inp (zlen inp - rem) rem) = rem) as Hls by (apply slice_length; pose proof (Z.mod_le (zlen inp) r); lia).
  assert (absorb_n (Z.to_nat (zlen inp / r)) (k_A ctx) inp = absorb_n (Z.to_nat (zlen (M ++ inp) / r)) zero_state (M ++ inp)) as EA.
  { rewrite Ed, Z2Nat.inj_add, absorb_more by lia. by rewrite Et, HA. }
  assert (tail_of (M ++ inp) = slice inp (zlen inp - rem) rem) as Etl.
  { unfold tail_of. rewrite Ed. replace (Z.to_nat (r * (zlen M / r + zlen inp / r))) with (Z.to_nat (r * (zlen M / r)) + Z.to_nat (r * (zlen inp / r)))%nat by nia.
    rewrite <- drop_drop, tail_app, Et. cbn [app]. unfold slice. replace (zlen inp - rem) with (r * (zlen inp / r)) by (pose proof (Z.div_mod (zlen inp) r ltac:(lia)); lia).
    rewrite take_ge; [done|]. rewrite length_drop. pose proof (Z.div_mod (zlen inp) r ltac:(lia)). unfold zlen in *. lia. }
  destruct (Z.eqb_spec rem 0) as [Hrem|Hrem]; unfold absorbs, ctx'; cbn [k_block_size k_pad k_buf k_bufsz k_A k_xof_state set_bufsz set_buf set_A set_xof_state]; rewrite Em.
  - rewrite Hrem in *. split_and!; [done|done|done|done|by apply Forall_app_2|done|lia|done|]. rewrite Etl. reflexivity.
  - split_and!; [done|done|rewrite splice_zlen, ?SHA3_BUF_eq; lia|by apply splice_ok, slice_ok|by apply Forall_app_2|done|done|done|].
    rewrite Etl. pose proof (slice_splice_same (k_buf ctx) 0 (slice inp (zlen inp - rem) rem)) as E. rewrite Hls in E. apply E; lia.
Qed.

Definition kept (ctx ctx' : KECCAK1600_CTX) : Prop := k_md_size ctx' = k_md_size ctx /\ k_meth ctx' = k_meth ctx.
Lemma absorbs_set_same pad M ctx : absorbs pad M ctx -> set_xof_state (k_xof_state ctx) ctx = ctx.
Proof. intros _. by destruct ctx. Qed.
Lemma ite_kept (b : bool) ctx c1 c2 : kept ctx c1 -> kept ctx c2 -> kept ctx (if b then c1 else c2).
Proof. by destruct b. Qed.

Lemma update_rest_eq pad M ctx inp : absorbs pad M ctx -> bytes_ok inp -> zlen M mod r = 0 ->
  exists ctx', update_rest complementing ctx inp = (true, ctx') /\ absorbs pad (M ++ inp) ctx' /\ kept ctx ctx'.
Proof.
  intros H Hok H0. pose proof (absorbs_A _ _ _ H) as HA. pose proof H as (Hb & _ & _ & _ & _ & Hx & _). unfold update_rest. rewrite Hb.
  assert ((if r <=? zlen inp then SHA3_absorb complementing (k_A ctx) inp (zlen inp) r else (k_A ctx, zlen inp)) =
    (absorb_n (Z.to_nat (zlen inp / r)) (k_A ctx) inp, zlen inp mod r)) as ->.
  { destruct (Z.leb_spec r (zlen inp)); [by apply SHA3_absorb_eq|]. pose proof (zlen_nonneg inp). by rewrite Z.div_small, Z.mod_small by lia. }
  eexists. split; [reflexivity|]. split; [|by apply ite_kept].
  pose proof (absorbs_rest pad M ctx inp (k_xof_state ctx) H Hok H0 Hx) as E. cbv zeta in E. by rewrite (absorbs_set_same pad M) in E.
Qed.
Lemma split_piece (inp : list Z) n : 0 <= n <= zlen inp -> slice inp 0 n ++ drop (Z.to_nat n) inp = inp /\ zlen (slice inp 0 n) = n.
Proof. intros Hn. split; [unfold slice; cbn [Z.to_nat]; rewrite drop_0; apply take_drop|apply slice_length; lia]. Qed.
Lemma not_squeezing pad M ctx : absorbs pad M ctx ->
  bool_decide (k_xof_state ctx = XOF_STATE_SQUEEZE) = false /\ bool_decide (k_xof_state ctx = XOF_STATE_FINAL) = false /\
  bool_decide (k_xof_state ctx = XOF_STATE_INIT) || bool_decide (k_xof_state ctx = XOF_STATE_ABSORB) = true.
Proof. intros (_ & _ & _ & _ & _ & Hx & _). by destruct Hx as [-> | ->]. Qed.

Lemma sha3_update_eq pad M ctx inp : absorbs pad M ctx -> bytes_ok inp ->
  exists ctx', ossl_sha3_update complementing ctx inp = (true, ctx') /\ absorbs pad (M ++ inp) ctx' /\ kept ctx ctx'.
Proof.
  intros H Hok. pose proof H as (Hb & _ & Hl & Hbok & HM & Hx & Hz & _). rewrite SHA3_BUF_eq in Hl. pose proof (zlen_nonneg inp).
  pose proof (Z.mod_pos_bound (zlen M) r ltac:(lia)) as Hm. destruct (not_squeezing _ _ _ H) as (N1 & N2 & _).
  unfold ossl_sha3_update. rewrite Hb, N1, N2. cbn [orb]. destruct (Z.eqb_spec (zlen inp) 0) as [E0|E0].
  { exists ctx. assert (inp = []) as -> by (unfold zlen in E0; destruct inp; [done|cbn in E0; lia]). by rewrite app_nil_r. }
  destruct (Z.eqb_spec (k_bufsz ctx) 0) as [Ez|Ez]; [apply update_rest_eq; (done || lia)|].
  destruct (Z.ltb_spec (zlen inp) (r - k_bufsz ctx)).
  { eexists. split; [reflexivity|]. split; [apply absorbs_short; (done || lia)|done]. }
  destruct (split_piece inp (r - k_bufsz ctx) ltac:(lia)) as [Ep Hlp]. set (x := slice inp 0 (r - k_bufsz ctx)) in *. set (rest := drop _ inp) in *.
  assert (bytes_ok x /\ bytes_ok rest) as [Hxok Hrok] by (rewrite <- Ep in Hok; by apply Forall_app in Hok).
  pose proof (absorbs_fill pad M ctx x (k_xof_state ctx) H Hxok ltac:(lia) Hx) as Hf. cbv zeta in Hf.
  cbn [k_A k_buf set_buf]. rewrite SHA3_absorb_one; [|by eapply absorbs_A|by apply splice_ok|rewrite splice_zlen; lia].
  assert (set_xof_state (k_xof_state ctx) (set_buf (splice (k_buf ctx) (k_bufsz ctx) x) ctx) = set_buf (splice (k_buf ctx) (k_bufsz ctx) x) ctx) as Es by done.
  rewrite Es in Hf. destruct (update_rest_eq pad (M ++ x) _ rest Hf Hrok) as (ctx' & E & Ha & Hk).
  { rewrite zlen_app. pose proof (Z.div_mod (zlen M) r ltac:(lia)). symmetry. apply (Z.mod_unique_pos _ r (zlen M / r + 1)); lia. }
  exists ctx'. split; [exact E|]. split; [|exact Hk]. by rewrite <- Ep, app_assoc.
Qed.
(** The update of the provider does the same. *)
Lemma generic_absorb_eq pad M ctx inp : absorbs pad M ctx -> bytes_ok inp ->
  generic_sha3_absorb complementing ctx inp =
  (zlen inp mod r, set_A (absorb_n (Z.to_nat (zlen inp / r)) (k_A ctx) inp) (set_xof_state XOF_STATE_ABSORB ctx)).
Proof.
  intros H Hok. destruct (not_squeezing _ _ _ H) as (_ & _ & N). pose proof H as (Hb & _). unfold generic_sha3_absorb. rewrite N, Hb.
  rewrite SHA3_absorb_eq; [done|by eapply absorbs_A|done].
Qed.
Lemma keccak_update_eq pad M ctx inp : absorbs pad M ctx -> bytes_ok inp ->
  exists ctx', keccak_update complementing ctx inp = (true, ctx') /\ absorbs pad (M ++ inp) ctx' /\ kept ctx ctx'.
Proof.
  intros H Hok. pose proof H as (Hb & _ & Hl & Hbok & HM & Hx & Hz & _). rewrite SHA3_BUF_eq in Hl. pose proof (zlen_nonneg inp).
  pose proof (Z.mod_pos_bound (zlen M) r ltac:(lia)) as Hm.
  assert (forall M ctx inp, absorbs pad M ctx -> bytes_ok inp -> zlen M mod r = 0 ->
    exists ctx', (let '(rem, ctx) := generic_sha3_absorb complementing ctx inp in
      (true, if rem =? 0 then ctx else set_bufsz rem (set_buf (splice (k_buf ctx) 0 (slice inp (zlen inp - rem) rem)) ctx))) = (true, ctx') /\
      absorbs pad (M ++ inp) ctx' /\ kept ctx ctx') as Hrest.
  { clear M ctx inp H Hok Hb Hl Hbok HM Hx Hz H0 Hm. intros M ctx inp H Hok H0. rewrite (generic_absorb_eq pad M) by done. eexists. split; [reflexivity|].
    split; [|by apply ite_kept]. apply (absorbs_rest pad M ctx inp XOF_STATE_ABSORB H Hok H0). by right. }
  unfold keccak_update. rewrite Hb. destruct (Z.eqb_spec (zlen inp) 0) as [E0|E0].
  { exists ctx. assert (inp = []) as -> by (unfold zlen in E0; destruct inp; [done|cbn in E0; lia]). by rewrite app_nil_r. }
  destruct (Z.eqb_spec (k_bufsz ctx) 0) as [Ez|Ez]; [apply Hrest; (done || lia)|].
  destruct (Z.ltb_spec (zlen inp) (r - k_bufsz ctx)).
  { eexists. split; [reflexivity|]. split; [apply absorbs_short; (done || lia)|done]. }
  destruct (split_piece inp (r - k_bufsz ctx) ltac:(lia)) as [Ep Hlp]. set (x := slice inp 0 (r - k_bufsz ctx)) in *. set (rest := drop _ inp) in *.
  assert (bytes_ok x /\ bytes_ok rest) as [Hxok Hrok] by (rewrite <- Ep in Hok; by apply Forall_app in Hok).
  pose proof (absorbs_fill pad M ctx x XOF_STATE_ABSORB H Hxok ltac:(lia) (or_intror eq_refl)) as Hf. cbv zeta in Hf.
  set (buf := splice (k_buf ctx) (k_bufsz ctx) x) in *.
  assert (generic_sha3_absorb complementing (set_buf buf ctx) (slice buf 0 r) =
    (0, set_A (absorb_n 1 (k_A ctx) (slice buf 0 r)) (set_xof_state XOF_STATE_ABSORB (set_buf buf ctx)))) as Eg.
  { assert (zlen (slice buf 0 r) = r) as Hls by (apply slice_length; unfold buf; rewrite ?splice_zlen; lia).
    unfold generic_sha3_absorb. cbn [k_xof_state k_A k_block_size set_buf]. destruct (not_squeezing _ _ _ H) as (_ & _ & ->). rewrite Hb.
    rewrite SHA3_absorb_eq; [|by eapply absorbs_A|by apply slice_ok, splice_ok]. rewrite Hls, Z.mod_same, Z.div_same by lia. done. }
  cbn [k_buf set_buf]. rewrite Eg. cbn [snd]. destruct (Hrest (M ++ x) _ rest Hf Hrok) as (ctx' & E & Ha & Hk).
  { rewrite zlen_app. pose proof (Z.div_mod (zlen M) r ltac:(lia)). symmetry. apply (Z.mod_unique_pos _ r (zlen M / r + 1)); lia. }
  exists ctx'. split; [exact E|]. split; [|exact Hk]. by rewrite <- Ep, app_assoc.
Qed.

(** ** Padding *)

Lemma byte_insert b i v j : 0 <= i < zlen b -> 0 <= j -> byte_at (<[Z.to_nat i := v]> b) j = if j =? i then v else byte_at b j.
Proof.
  intros Hi Hj. unfold byte_at, zlen in *. destruct (Z.eqb_spec j i) as [->|].
  - by rewrite list_lookup_insert_eq by lia.
  - by rewrite list_lookup_insert_ne by lia.
Qed.
Lemma byte_app a b j : 0 <= j -> byte_at (a ++ b) j = if j <? zlen a then byte_at a j else byte_at b (j - zlen a).
Proof.
  intros Hj. unfold byte_at, zlen. destruct (Z.ltb_spec j (Z.of_nat (length a))).
  - by rewrite lookup_app_l by lia.
  - rewrite lookup_app_r by lia. do 2 f_equal. lia.
Qed.
Lemma byte_zeros n j : byte_at (zeros n) j = 0.
Proof.
  unfold byte_at, zeros. destruct (decide (Z.to_nat j < Z.to_nat n)%nat); [by rewrite lookup_replicate_2|by rewrite lookup_ge_None_2 by (rewrite length_replicate; lia)].
Qed.
Lemma byte_slice b off n j : 0 <= off -> 0 <= j < n -> byte_at (slice b off n) j = byte_at b (off + j).
Proof.
  intros Ho Hj. unfold byte_at, slice. rewrite lookup_take_lt by lia. rewrite lookup_drop. do 2 f_equal. lia.
Qed.
Lemma byte_splice_end b off d j : 0 <= off -> off + zlen d <= zlen b -> 0 <= j < off + zlen d ->
  byte_at (splice b off d) j = if j <? off then byte_at b j else byte_at d (j - off).
Proof.
  intros Ho Hl Hj. unfold splice. assert (zlen (take (Z.to_nat off) b) = off) as Ht by (pose proof (zlen_nonneg d); unfold zlen in *; rewrite length_take; lia).
  rewrite byte_app, Ht by lia. destruct (Z.ltb_spec j off).
  - unfold byte_at. by rewrite lookup_take_lt by lia.
  - rewrite byte_app by lia. by rewrite (proj2 (Z.ltb_lt _ _)) by lia.
Qed.
Lemma pad10_zlen pad mlen : zlen (pad10 r pad mlen) = r - mlen mod r.
Proof.
  pose proof (Z.mod_pos_bound mlen r ltac:(lia)). unfold pad10. destruct (Z.eqb_spec (r - mlen mod r) 1) as [->|]; [done|].
  rewrite zlen_cons, zlen_app, zlen_zeros by lia. change (zlen [128]) with 1. lia.
Qed.
Lemma pad10_ok pad mlen : is_byte pad -> bytes_ok (pad10 r pad mlen).
Proof.
  intros Hp. unfold pad10. destruct (_ =? _).
  - apply Forall_cons_2; [|by apply Forall_nil]. by apply (lor_range 8).
  - apply Forall_cons_2; [done|]. apply Forall_app_2; [apply zeros_ok|]. by apply Forall_cons_2; [|by apply Forall_nil].
Qed.
Lemma pad10_at pad mlen k : 0 <= k < r - mlen mod r ->
  byte_at (pad10 r pad mlen) k = (if k =? 0 then pad else 0) ⊔ (if k =? r - mlen mod r - 1 then 0x80 else 0).
Proof.
  intros Hk. unfold pad10. destruct (Z.eqb_spec (r - mlen mod r) 1) as [E|E].
  - replace k with 0 by lia. by rewrite E.
  - set (n := r - mlen mod r) in *. destruct (Z.eqb_spec k 0) as [->|].
    + rewrite (proj2 (Z.eqb_neq 0 (n - 1))) by lia. by rewrite Z.lor_0_r.
    + rewrite Z.lor_0_l. change (pad :: zeros (n - 2) ++ [128]) with ([pad] ++ zeros (n - 2) ++ [128]). rewrite byte_app by lia. change (zlen [pad]) with 1.
      rewrite (proj2 (Z.ltb_ge k 1)), byte_app, zlen_zeros by lia. destruct (Z.eqb_spec k (n - 1)) as [->|].
      * rewrite (proj2 (Z.ltb_ge _ _)) by lia. by replace (n - 1 - 1 - (n - 2)) with 0 by lia.
      * rewrite (proj2 (Z.ltb_lt _ _)) by lia. apply byte_zeros.
Qed.
(** The last block of [ossl_sha3_final] and of the first squeeze is the padded rest. *)
Lemma padded_block pad M ctx : absorbs pad M ctx -> is_byte pad ->
  let num := k_bufsz ctx in
  let buf1 := splice (k_buf ctx) num (zeros (r - num)) in
  let buf2 := <[Z.to_nat num := pad]> buf1 in
  let buf3 := <[Z.to_nat (r - 1) := byte_at buf2 (r - 1) ⊔ 0x80]> buf2 in
  zlen buf3 = 168 /\ bytes_ok buf3 /\ slice buf3 0 r = tail_of M ++ pad10 r pad (zlen M).
Proof.
  intros (_ & _ & Hl & Hbok & _ & _ & Hz & _ & Ht) Hp num buf1 buf2 buf3. rewrite SHA3_BUF_eq in Hl. pose proof (Z.mod_pos_bound (zlen M) r ltac:(lia)) as Hm. rewrite <- Hz in Hm. fold num in Hm, Hz.
  assert (zlen (zeros (r - num)) = r - num) as Hlz by (apply zlen_zeros; lia).
  assert (zlen buf1 = 168) as Hl1 by (unfold buf1; rewrite splice_zlen; lia).
  assert (zlen buf2 = 168) as Hl2 by (unfold buf2, zlen in *; by rewrite length_insert).
  assert (zlen buf3 = 168) as Hl3 by (unfold buf3, zlen in *; by rewrite length_insert).
  assert (bytes_ok buf2) as Hok2 by (apply Forall_insert; [by apply splice_ok, zeros_ok|done]).
  split_and!; [done|apply Forall_insert; [done|by apply (lor_range 8); [lia|apply byte_at_ok|]]|].
  assert (zlen (slice buf3 0 r) = r) as Hls by (apply slice_length; lia). pose proof (tail_zlen M) as Htl. rewrite <- Hz in Htl.
  apply bytes_ext; [rewrite zlen_app, pad10_zlen; lia|]. rewrite Hls. intros j Hj. rewrite byte_slice, Z.add_0_l by lia.
  assert (byte_at buf2 j = if j =? num then pad else if j <? num then byte_at (k_buf ctx) j else 0) as E2.
  { unfold buf2. rewrite byte_insert by lia. destruct (Z.eqb_spec j num); [done|]. unfold buf1. rewrite byte_splice_end by lia.
    destruct (j <? num); [done|apply byte_zeros]. }
  rewrite byte_app, Htl by lia. unfold buf3. rewrite byte_insert by lia.
  assert ((if j =? r - 1 then byte_at buf2 (r - 1) ⊔ 128 else byte_at buf2 j) = byte_at buf2 j ⊔ (if j =? r - 1 then 128 else 0)) as ->
    by (destruct (Z.eqb_spec j (r - 1)) as [->|]; [done|by rewrite Z.lor_0_r]).
  rewrite E2. destruct (Z.ltb_spec j num).
  - rewrite (proj2 (Z.eqb_neq j num)), (proj2 (Z.eqb_neq j (r - 1))), Z.lor_0_r by lia. rewrite <- Ht, <- Hz, byte_slice by lia. done.
  - rewrite pad10_at by lia. rewrite <- Hz.
    assert ((j =? r - 1) = (j - num =? r - num - 1)) as -> by lia. assert ((j =? num) = (j - num =? 0)) as -> by lia. done.
Qed.
Lemma zero_bytes : state_bytes zero_state = zeros 200.
Proof. reflexivity. Qed.
Lemma absorb_padded_eq pad M ctx : absorbs pad M ctx -> is_byte pad ->
  exists A buf, absorb_padded complementing ctx = set_A A (set_buf buf ctx) /\ state_ok A /\ state_bytes A = absorbed r pad M /\ zlen buf = 168 /\ bytes_ok buf.
Proof.
  intros H Hp. pose proof (absorbs_A _ _ _ H) as HA. destruct (padded_block pad M ctx H Hp) as (Hl & Hok & Es).
  pose proof H as (Hb & Hpad & _ & _ & HM & _ & _ & EA & _). unfold absorb_padded. rewrite Hb, Hpad.
  set (buf := <[Z.to_nat (r - 1) := _]> _) in *. eexists _, buf. split; [reflexivity|].
  rewrite SHA3_absorb_one by (done || lia). rewrite Es, EA, <- absorb_more. pose proof (div_nonneg M). pose proof (Z.mod_pos_bound (zlen M) r ltac:(lia)).
  pose proof (Z.div_mod (zlen M) r ltac:(lia)) as Edm.
  assert (zlen (M ++ pad10 r pad (zlen M)) = (zlen M / r + 1) * r) as Ez by (rewrite zlen_app, pad10_zlen; lia).
  assert (bytes_ok (M ++ pad10 r pad (zlen M))) as Hpok by (apply Forall_app_2; [done|by apply pad10_ok]).
  split_and!; [apply absorb_n_ok; [exact zero_state_ok|done]| |done|done].
  unfold absorbed. rewrite Ez, Z.div_mul by lia. rewrite Z2Nat.inj_add by lia. rewrite <- zero_bytes. apply absorb_n_bytes; [exact zero_state_ok|done|]. rewrite Ez. nia.
Qed.

(** ** Output *)

Lemma stream_slice A off n a m : 0 <= a -> 0 <= m -> a + m <= n -> slice (stream A off n) a m = stream A (off + a) m.
Proof.
  intros Ha Hm Hn. assert (zlen (slice (stream A off n) a m) = m) as Hl by (apply slice_length; rewrite ?stream_zlen; lia).
  apply bytes_ext; [by rewrite stream_zlen|]. rewrite Hl. intros j Hj. rewrite byte_slice by lia. unfold stream. rewrite !table_at by lia. by rewrite Z.add_assoc.
Qed.
Lemma sha3_final_eq pad M ctx outlen : absorbs pad M ctx -> is_byte pad -> 0 < outlen ->
  exists ctx', ossl_sha3_final complementing ctx outlen = (true, SPONGE r pad M 0 outlen, ctx') /\ k_xof_state ctx' = XOF_STATE_FINAL /\ kept ctx ctx'.
Proof.
  intros H Hp Ho. destruct (absorb_padded_eq pad M ctx H Hp) as (A & buf & E & HA & EA & _ & _). destruct (not_squeezing _ _ _ H) as (N1 & N2 & _). pose proof H as (Hb & _).
  unfold ossl_sha3_final. rewrite (proj2 (Z.eqb_neq outlen 0)), N1, N2 by lia. cbn [orb]. rewrite E. cbn [k_A k_block_size set_A set_buf set_xof_state]. rewrite Hb.
  pose proof (SHA3_squeeze_eq A outlen false HA Ho) as Es. cbv zeta in Es. rewrite Es. unfold SPONGE. rewrite <- EA, <- stream_spec by done.
  eexists. split; [reflexivity|]. by split_and!.
Qed.

Definition same_setup (ctx ctx' : KECCAK1600_CTX) : Prop :=
  k_block_size ctx' = k_block_size ctx /\ k_pad ctx' = k_pad ctx /\ k_xof_state ctx' = k_xof_state ctx /\ kept ctx ctx'.
Lemma squeeze_blocks_eq ctx n (next : bool) : k_block_size ctx = r -> state_ok (k_A ctx) -> zlen (k_buf ctx) = 168 -> 0 < n ->
  let B := if next then F (k_A ctx) else k_A ctx in
  exists ctx', squeeze_blocks complementing ctx n next = (stream B 0 n, ctx') /\ same_setup ctx ctx' /\ zlen (k_buf ctx') = 168 /\
    (bytes_ok (k_buf ctx) -> bytes_ok (k_buf ctx')) /\ k_A ctx' = Nat.iter (Z.to_nat ((n - 1) / r)) F B /\
    if n mod r =? 0 then k_bufsz ctx' = k_bufsz ctx
    else k_bufsz ctx' = r - n mod r /\ slice (k_buf ctx') (n mod r) (r - n mod r) = stream B n (r - n mod r).
Proof.
  intros Hb HA Hl Hn B. assert (state_ok B) as HB by (unfold B; destruct next; [by apply F_ok|done]).
  pose proof (Z.div_mod n r ltac:(lia)) as Edm. pose proof (Z.mod_pos_bound n r ltac:(lia)) as Hm. assert (0 <= n / r) as Hq by (apply Z.div_pos; lia).
  set (q := n / r) in *. set (o := n mod r) in *.
  (* after the whole blocks *)
  assert (exists A1 next1, (if r <=? n then let '(A, out) := SHA3_squeeze complementing (k_A ctx) (r * q) r next in (A, out, true) else (k_A ctx, [], next)) =
      (A1, stream B 0 (r * q), next1) /\ state_ok A1 /\ (if next1 then F A1 else A1) = Nat.iter (Z.to_nat q) F B /\
      (o = 0 -> A1 = Nat.iter (Z.to_nat ((n - 1) / r)) F B)) as (A1 & next1 & E1 & HA1 & EB & E0).
  { destruct (Z.leb_spec r n) as [Hle|Hlt].
    - assert (1 <= q) as Hq1 by (unfold q; apply Z.div_le_lower_bound; lia).
      pose proof (SHA3_squeeze_eq (k_A ctx) (r * q) next HA ltac:(nia)) as Es. cbv zeta in Es. fold B in Es. rewrite Es.
      assert ((r * q - 1) / r = q - 1) as Ed by (symmetry; apply (Z.div_unique_pos _ r _ (r - 1)); lia). rewrite Ed.
      exists (Nat.iter (Z.to_nat (q - 1)) F B), true. split_and!; [done|by apply iter_ok| |].
      + replace (Z.to_nat q) with (S (Z.to_nat (q - 1))) by lia. reflexivity.
      + intros Ho. do 2 f_equal. apply (Z.div_unique_pos _ r _ (r - 1)); lia.
    - assert (q = 0) as Eq0 by (unfold q; apply Z.div_small; lia). exists (k_A ctx), next. rewrite Eq0. split_and!; [|done|done|].
      + by rewrite Z.mul_0_r.
      + intros Ho. lia. }
  unfold squeeze_blocks. rewrite Hb. fold q. rewrite E1.
  assert ((if r <=? n then n - r * q else n) = o) as -> by (destruct (Z.leb_spec r n); [lia|]; assert (q = 0) by (unfold q; apply Z.div_small; lia); nia).
  destruct (Z.eqb_spec o 0) as [Ho|Ho].
  - rewrite Ho. cbn [Z.ltb Z.compare]. eexists. split; [replace (r * q) with n by lia; reflexivity|]. split_and!; [by split_and!|done|done|by apply E0|done].
  - rewrite (proj2 (Z.ltb_lt 0 o)) by lia. pose proof (SHA3_squeeze_eq A1 r next1 HA1 ltac:(lia)) as Es. cbv zeta in Es. rewrite EB in Es. rewrite Es.
    assert ((r - 1) / r = 0) as Ez by (apply Z.div_small; lia). rewrite Ez. change (Nat.iter (Z.to_nat 0) F ?x) with x.
    set (B1 := Nat.iter (Z.to_nat q) F B). assert (zlen (stream B1 0 r) = r) as Hlb by (apply stream_zlen; lia).
    assert (forall a m, 0 <= a -> 0 <= m -> stream B (a + q * r) m = stream B1 a m) as Hsh by (intros; by apply stream_shift).
    assert (stream B 0 (r * q) ++ slice (stream B1 0 r) 0 o = stream B 0 n) as ->.
    { rewrite stream_slice, <- Hsh by lia. rewrite Edm, stream_add by lia. do 2 f_equal. lia. }
    eexists. split; [reflexivity|]. cbn [k_buf k_A k_bufsz set_bufsz set_buf set_A]. split_and!.
    + by split_and!.
    + rewrite splice_zlen; lia.
    + intros. by apply splice_ok; [|apply sponge_stream_ok].
    + unfold B1. do 2 f_equal. apply (Z.div_unique_pos _ r _ (o - 1)); lia.
    + done.
    + rewrite slice_splice_sub by lia. rewrite Z.sub_0_r, stream_slice by lia. rewrite Z.add_0_l, <- Hsh by lia. f_equal. lia.
Qed.

(** A context from which [k] bytes have been squeezed, the last block started being [q - 1]. *)
Definition squeezes (pad : Z) (M : list Z) (k : Z) (ctx : KECCAK1600_CTX) : Prop :=
  k_block_size ctx = r /\ k_pad ctx = pad /\ zlen (k_buf ctx) = 168 /\ k_xof_state ctx = XOF_STATE_SQUEEZE /\ 0 < k /\
  exists A0 q, state_ok A0 /\ state_bytes A0 = absorbed r pad M /\ 0 < q /\ 0 <= k_bufsz ctx < r /\ k + k_bufsz ctx = q * r /\
    k_A ctx = Nat.iter (Z.to_nat (q - 1)) F A0 /\ slice (k_buf ctx) (r - k_bufsz ctx) (k_bufsz ctx) = stream A0 k (k_bufsz ctx).

(** Squeezing on from block [q], with nothing left over. *)
Lemma squeeze_from pad M ctx A0 q n (next : bool) :
  k_block_size ctx = r -> k_pad ctx = pad -> zlen (k_buf ctx) = 168 -> k_xof_state ctx = XOF_STATE_SQUEEZE -> k_bufsz ctx = 0 ->
  state_ok A0 -> state_bytes A0 = absorbed r pad M -> 0 <= q -> state_ok (k_A ctx) ->
  (if next then F (k_A ctx) else k_A ctx) = Nat.iter (Z.to_nat q) F A0 -> 0 < n ->
  exists ctx', squeeze_blocks complementing ctx n next = (stream A0 (q * r) n, ctx') /\ squeezes pad M (q * r + n) ctx' /\ kept ctx ctx'.
Proof.
  intros Hb Hp Hl Hx Hz HA0 EA Hq HA EB Hn. destruct (squeeze_blocks_eq ctx n next Hb HA Hl Hn) as (ctx' & E & (Sb & Sp & Sx & Sk) & Hl' & _ & EA' & Eb).
  cbv zeta in E, EA', Eb. rewrite EB in E, EA', Eb.
  assert (forall a m, 0 <= a -> 0 <= m -> stream (Nat.iter (Z.to_nat q) F A0) a m = stream A0 (a + q * r) m) as Hsh by (intros; by rewrite stream_shift).
  rewrite Hsh, Z.add_0_l in E by lia. exists ctx'. split; [done|]. split; [|done].
  pose proof (Z.div_mod n r ltac:(lia)) as Edm. pose proof (Z.mod_pos_bound n r ltac:(lia)) as Hm. assert (0 <= (n - 1) / r) by (apply Z.div_pos; lia).
  rewrite <- Nat.iter_add in EA'. split_and!; [by rewrite Sb|by rewrite Sp|done|by rewrite Sx|nia|]. exists A0, (q + (n - 1) / r + 1).
  assert (k_A ctx' = Nat.iter (Z.to_nat (q + (n - 1) / r + 1 - 1)) F A0) as EA''.
  { rewrite EA'. f_equal. lia. }
  destruct (Z.eqb_spec (n mod r) 0) as [E0|E0].
  - assert ((n - 1) / r = n / r - 1) as Ed by (symmetry; apply (Z.div_unique_pos _ r _ (r - 1)); lia).
    rewrite Hz in Eb. rewrite Eb. split_and!; [done|done|lia|lia|lia|rewrite Ed; nia|done|]. unfold slice, stream. by rewrite seqZ_nil by lia.
  - assert ((n - 1) / r = n / r) as Ed by (symmetry; apply (Z.div_unique_pos _ r _ (n mod r - 1)); lia).
    destruct Eb as [Ez Es]. rewrite Ez. split_and!; [done|done|lia|lia|lia|rewrite Ed; nia|done|].
    replace (r - (r - n mod r)) with (n mod r) by lia. rewrite Es, Hsh by lia. f_equal. lia.
Qed.
Lemma sha3_squeeze_first pad M ctx n : absorbs pad M ctx -> is_byte pad -> 0 < n ->
  exists ctx', ossl_sha3_squeeze complementing ctx n = (true, SPONGE r pad M 0 n, ctx') /\ squeezes pad M n ctx' /\ kept ctx ctx'.
Proof.
  intros H Hp Hn. destruct (absorb_padded_eq pad M ctx H Hp) as (A & buf & E & HA & EA & Hl & _). destruct (not_squeezing _ _ _ H) as (N1 & N2 & _).
  pose proof H as (Hb & Hpad & _). unfold ossl_sha3_squeeze. rewrite (proj2 (Z.eqb_neq n 0)), N2, N1 by lia. cbn [negb]. rewrite E.
  cbn [k_bufsz k_block_size k_buf set_bufsz set_xof_state set_A set_buf]. rewrite Hb. cbn [Z.eqb]. rewrite Z.sub_0_r, (proj2 (Z.eqb_neq n 0)) by lia.
  set (ctx1 := set_bufsz (0 - 0) _).
  destruct (squeeze_from pad M ctx1 A 0 n false Hb Hpad Hl eq_refl eq_refl HA EA ltac:(lia) HA eq_refl Hn) as (ctx' & Es & Hs & Hk).
  rewrite Es. exists ctx'. rewrite Z.mul_0_l, Z.add_0_l in *. unfold SPONGE. rewrite <- EA, <- stream_spec by done. by split.
Qed.
Lemma sha3_squeeze_next pad M k ctx n : squeezes pad M k ctx -> 0 < n ->
  exists ctx', ossl_sha3_squeeze complementing ctx n = (true, SPONGE r pad M k n, ctx') /\ squeezes pad M (k + n) ctx' /\ kept ctx ctx'.
Proof.
  intros (Hb & Hp & Hl & Hx & Hk & A0 & q & HA0 & EA & Hq & Hz & Ez & EkA & Es) Hn. unfold SPONGE. rewrite <- EA, <- stream_spec by done.
  unfold ossl_sha3_squeeze. rewrite (proj2 (Z.eqb_neq n 0)), Hx by lia.
  change (bool_decide (XOF_STATE_SQUEEZE = XOF_STATE_FINAL)) with false. change (bool_decide (XOF_STATE_SQUEEZE = XOF_STATE_SQUEEZE)) with true. cbn [negb]. cbv iota. rewrite Hb.
  set (num := k_bufsz ctx) in *. assert ((if num =? 0 then 0 else Z.min n num) = Z.min n num) as -> by (destruct (Z.eqb_spec num 0); lia).
  assert (slice (k_buf ctx) (r - num) (Z.min n num) = stream A0 k (Z.min n num)) as Ep.
  { transitivity (slice (slice (k_buf ctx) (r - num) num) 0 (Z.min n num)).
    - unfold slice. cbn [Z.to_nat]. rewrite drop_0, take_take. f_equal. lia.
    - rewrite Es, stream_slice by lia. by rewrite Z.add_0_r. }
  rewrite Ep. destruct (Z.eqb_spec (n - Z.min n num) 0) as [E0|E0].
  - assert (n <= num) as Hle by lia. replace (Z.min n num) with n in * by lia. eexists. split; [reflexivity|]. split; [|done]. split_and!; [done|done|done|done|lia|]. exists A0, q.
    cbn [k_bufsz k_A k_buf set_bufsz]. split_and!; [done|done|lia|lia|lia|lia|done|].
    transitivity (slice (slice (k_buf ctx) (r - num) num) n (num - n)).
    + unfold slice. rewrite skipn_firstn_comm, take_take, drop_drop. f_equal; [lia|]. f_equal. lia.
    + rewrite Es, stream_slice by lia. done.
  - assert (num < n) as Hgt by lia. replace (Z.min n num) with num in * by lia. set (ctx1 := set_bufsz (num - num) ctx).
    assert (state_ok (k_A ctx)) as HkA by (rewrite EkA; by apply iter_ok).
    destruct (squeeze_from pad M ctx1 A0 q (n - num) true Hb Hp Hl Hx ltac:(cbn; lia) HA0 EA ltac:(lia) HkA) as (ctx' & E & Hs & Hkk).
    { change (F (k_A ctx) = Nat.iter (Z.to_nat q) F A0). rewrite EkA. replace (Z.to_nat q) with (S (Z.to_nat (q - 1))) by lia. reflexivity. }
    { lia. }
    rewrite E. exists ctx'. split; [|split; [|done]].
    + do 2 f_equal. replace n with (num + (n - num)) at 2 by lia. rewrite stream_add by lia. do 2 f_equal. lia.
    + by replace (k + n) with (q * r + (n - num)) by lia.
Qed.
End Sponge.

(** ** The functions of the tables *)

Definition rate (alg : sha3_alg) : Z :=
  match alg with SHA3 b | KECCAK b | SHAKE b | KECCAK_KMAC b => (1600 - 2 * b) / 8 end.
(** The domain suffix and the first bit of the padding: 01, nothing, 1111 and 00. *)
Definition suffix (alg : sha3_alg) : Z := match alg with SHA3 _ => 0x06 | KECCAK _ => 0x01 | SHAKE _ => 0x1f | KECCAK_KMAC _ => 0x04 end.
Definition has_squeeze (alg : sha3_alg) : bool := match alg with SHAKE _ => true | _ => false end.
Definition digest_size (alg : sha3_alg) : Z :=
  match alg with SHA3 b | KECCAK b => b / 8 | KECCAK_KMAC b => 2 * b / 8 | SHAKE _ => SIZE_MAX end.

Lemma alg_facts alg : alg ∈ sha3_algs -> 0 < rate alg <= 168 /\ rate alg mod 8 = 0 /\ is_byte (suffix alg).
Proof. unfold sha3_algs. rewrite !elem_of_cons, elem_of_nil. intros H. repeat destruct H as [-> | H]; done. Qed.
Lemma newctx_absorbs alg ctx : alg ∈ sha3_algs -> newctx true true alg = Some ctx ->
  absorbs (rate alg) (suffix alg) [] ctx /\ k_md_size ctx = digest_size alg /\ k_meth ctx = (if has_squeeze alg then shake_generic_md else sha3_generic_md).
Proof.
  intros Ha E. unfold sha3_algs in Ha. rewrite !elem_of_cons, elem_of_nil in Ha.
  repeat destruct Ha as [-> | Ha]; try done; injection E as <-; (split; [split_and!; try done; [apply zeros_ok|by apply Forall_nil|by left]|done]).
Qed.
(** The calls of an incremental digest. *)
Definition feed (update : KECCAK1600_CTX -> list Z -> bool * KECCAK1600_CTX) (ctx : KECCAK1600_CTX) (pieces : list (list Z)) : bool * KECCAK1600_CTX :=
  fold_left (fun '(ok, ctx) piece => let '(ret, ctx) := update ctx piece in (ok && ret, ctx)) pieces (true, ctx).
Definition is_update (complementing : bool) (update : KECCAK1600_CTX -> list Z -> bool * KECCAK1600_CTX) : Prop :=
  update = ossl_sha3_update complementing \/ update = keccak_update complementing.
Lemma feed_absorbs complementing update r pad M ctx pieces : 0 < r <= 168 -> r mod 8 = 0 -> is_update complementing update ->
  absorbs r pad M ctx -> Forall bytes_ok pieces ->
  exists ctx', feed update ctx pieces = (true, ctx') /\ absorbs r pad (M ++ concat pieces) ctx' /\ kept ctx ctx'.
Proof.
  intros Hr Hr8 Hu. unfold feed. revert M ctx. induction pieces as [|p pieces IH]; intros M ctx H Hok.
  - exists ctx. by rewrite app_nil_r.
  - apply Forall_cons in Hok as [Hp Hok].
    assert (exists ctx', update ctx p = (true, ctx') /\ absorbs r pad (M ++ p) ctx' /\ kept ctx ctx') as (ctx1 & E & H1 & Hk).
    { destruct Hu as [-> | ->]; [by apply sha3_update_eq|by apply keccak_update_eq]. }
    destruct (IH (M ++ p) ctx1 H1 Hok) as (ctx' & E' & H' & Hk'). exists ctx'. cbn [fold_left]. rewrite E. cbn [andb]. split; [exact E'|].
    split; [by rewrite <- app_assoc in H'|]. destruct Hk, Hk'. split; congruence.
Qed.


(** Squeezing piece by piece. *)
Definition draw (complementing : bool) (ctx : KECCAK1600_CTX) (lens : list Z) : bool * list Z * KECCAK1600_CTX :=
  fold_left (fun '(ok, out, ctx) n => let '(ret, b, _, ctx) := shake_squeeze complementing true ctx n in (ok && ret, out ++ b, ctx)) lens (true, [], ctx).
Definition total (lens : list Z) : Z := foldr Z.add 0 lens.

Lemma shake_squeeze_step complementing r pad M k ctx n : 0 < r <= 168 -> r mod 8 = 0 -> is_byte pad -> 0 <= n -> k_meth ctx = shake_generic_md ->
  (k = 0 /\ absorbs r pad M ctx \/ squeezes r pad M k ctx) ->
  exists ctx', shake_squeeze complementing true ctx n = (true, SPONGE r pad M k n, n, ctx') /\ k_meth ctx' = shake_generic_md /\
    (k + n = 0 /\ absorbs r pad M ctx' \/ squeezes r pad M (k + n) ctx').
Proof.
  intros Hr Hr8 Hp Hn Hm H. unfold shake_squeeze. cbn [negb]. rewrite Hm. destruct (Z.ltb_spec 0 n) as [Hlt|Hle].
  - destruct H as [[-> H]|H].
    + destruct (sha3_squeeze_first complementing r Hr Hr8 pad M ctx n H Hp Hlt) as (ctx' & -> & H' & _ & Hk). exists ctx'. split; [done|]. split; [congruence|]. by right.
    + destruct (sha3_squeeze_next complementing r Hr Hr8 pad M k ctx n H Hlt) as (ctx' & -> & H' & _ & Hk). exists ctx'. split; [done|]. split; [congruence|]. by right.
  - replace n with 0 by lia. exists ctx. rewrite Z.add_0_r. split; [done|]. split; [done|]. destruct H as [[-> H]|H]; [by left|by right].
Qed.
Lemma SPONGE_add r pad M k n m : 0 <= n -> 0 <= m -> SPONGE r pad M k n ++ SPONGE r pad M (k + n) m = SPONGE r pad M k (n + m).
Proof. intros Hn Hm. unfold SPONGE, squeeze_spec. by rewrite seqZ_app, fmap_app by lia. Qed.
Lemma total_nonneg lens : Forall (fun n => 0 <= n) lens -> 0 <= total lens.
Proof. unfold total. induction 1; cbn [foldr]; lia. Qed.
Lemma draw_eq complementing r pad M lens : 0 < r <= 168 -> r mod 8 = 0 -> is_byte pad -> Forall (fun n => 0 <= n) lens ->
  forall k out ctx, k_meth ctx = shake_generic_md -> (k = 0 /\ absorbs r pad M ctx \/ squeezes r pad M k ctx) ->
  exists ctx', fold_left (fun '(ok, out, ctx) n => let '(ret, b, _, ctx) := shake_squeeze complementing true ctx n in (ok && ret, out ++ b, ctx)) lens (true, out, ctx) =
    (true, out ++ SPONGE r pad M k (total lens), ctx').
Proof.
  intros Hr Hr8 Hp Hl. induction Hl as [|n lens Hn Hl IH]; intros k out ctx Hm H.
  - exists ctx. cbn. by rewrite app_nil_r.
  - destruct (shake_squeeze_step complementing r pad M k ctx n Hr Hr8 Hp Hn Hm H) as (ctx1 & E & Hm1 & H1).
    destruct (IH (k + n) (out ++ SPONGE r pad M k n) ctx1 Hm1 H1) as (ctx' & E'). exists ctx'. cbn [fold_left]. rewrite E. cbn [andb]. rewrite E'.
    rewrite <- app_assoc, SPONGE_add by (done || by apply total_nonneg). done.
Qed.
(** Squeezing refines the XOF stream: after a message absorbed in any pieces, the
    outputs of any sequence of [shake_squeeze] calls, of any lengths, zero included, are
    consecutive parts of the stream of SHAKE of FIPS 202 and together are what a single
    final call of the total length returns. *)
Lemma shake_squeeze_is_stream complementing alg ctx update pieces lens :
  alg ∈ sha3_algs -> has_squeeze alg = true -> newctx true true alg = Some ctx -> is_update complementing update -> Forall bytes_ok pieces ->
  Forall (fun n => 0 <= n) lens -> 0 < total lens ->
  exists ctx1 ctx2 ctx3, feed update ctx pieces = (true, ctx1) /\
    draw complementing ctx1 lens = (true, SPONGE (rate alg) (suffix alg) (concat pieces) 0 (total lens), ctx2) /\
    ossl_sha3_final complementing ctx1 (total lens) = (true, SPONGE (rate alg) (suffix alg) (concat pieces) 0 (total lens), ctx3).
Proof.
  intros Ha Hs E Hu Hok Hl Ht. destruct (alg_facts alg Ha) as (Hr & Hr8 & Hp). destruct (newctx_absorbs alg ctx Ha E) as (H & _ & Hm). rewrite Hs in Hm.
  destruct (feed_absorbs complementing update _ _ [] ctx pieces Hr Hr8 Hu H Hok) as (ctx1 & Ef & H1 & _ & Hk1). cbn [app] in H1.
  destruct (draw_eq complementing _ _ _ lens Hr Hr8 Hp Hl 0 [] ctx1 ltac:(congruence) (or_introl (conj eq_refl H1))) as (ctx2 & E2).
  destruct (sha3_final_eq complementing _ Hr Hr8 _ _ _ (total lens) H1 Hp Ht) as (ctx3 & E3 & _). by exists ctx1, ctx2, ctx3.
Qed.
Lemma shake_squeeze_is_stream_witness :
  let ctx := default zeroed (newctx true true (SHAKE 128)) in
  exists ctx1 ctx2, feed (ossl_sha3_update false) ctx [[1; 2]; [3]] = (true, ctx1) /\
    draw false ctx1 [1; 0; 200] = (true, SPONGE 168 0x1f [1; 2; 3] 0 201, ctx2).
Proof.
  cbv zeta. edestruct (shake_squeeze_is_stream false (SHAKE 128) (default zeroed (newctx true true (SHAKE 128))) (ossl_sha3_update false) [[1; 2]; [3]] [1; 0; 200])
    as (ctx1 & ctx2 & ctx3 & Ef & Ed & _).
  - unfold sha3_algs. rewrite !elem_of_cons. tauto.
  - reflexivity.
  - reflexivity.
  - by left.
  - by repeat constructor.
  - by repeat constructor.
  - reflexivity.
  - exists ctx1, ctx2. exact (conj Ef Ed).
Defined.
