(* ===== verification/Sha3Safe.v ===== *)
(** * SHA-3 and SHAKE: calls in any order

    The sponge context of [Sha3] under any sequence of calls, those a caller should not make
    included: the buffer is never left over-full, so every access stays within it; which
    calls each state refuses, and that a call writes the bytes it reports. *)
From stdpp Require Import relations.
From S2P Require Import Prelude.
From S2P Require Import ByteOrder.
From S2P Require Import ZSum.
From S2P Require Import Keccak.
From S2P Require Import Sha3.
From S2P Require Import Sha3Spec.
#[local] Open Scope keccak_scope.
(** ** Any order of calls *)

(** What memory safety needs: [bufsz] stays below the block size. *)
Definition shape (r : Z) (ctx : KECCAK1600_CTX) : Prop :=
  k_block_size ctx = r /\ state_ok (k_A ctx) /\ zlen (k_buf ctx) = 168 /\ bytes_ok (k_buf ctx) /\ 0 <= k_bufsz ctx < r /\ is_byte (k_pad ctx).
(** Every call of [sha3.c] and of the provider, in any state of the context, whatever it returns. *)
Inductive sha3_step (complementing running : bool) (ctx : KECCAK1600_CTX) : KECCAK1600_CTX -> Prop :=
  | StepUpdate inp : bytes_ok inp -> sha3_step complementing running ctx (snd (ossl_sha3_update complementing ctx inp))
  | StepFinal n : 0 <= n -> sha3_step complementing running ctx (snd (ossl_sha3_final complementing ctx n))
  | StepSqueeze n : 0 <= n -> sha3_step complementing running ctx (snd (ossl_sha3_squeeze complementing ctx n))
  | StepReset : sha3_step complementing running ctx (ossl_sha3_reset ctx)
  | StepProvInit xoflen : default 0 xoflen >= 0 -> sha3_step complementing running ctx (snd (keccak_init_params running ctx xoflen))
  | StepProvUpdate inp : bytes_ok inp -> sha3_step complementing running ctx (snd (keccak_update complementing ctx inp))
  | StepProvFinal n : 0 <= n -> sha3_step complementing running ctx (snd (keccak_final complementing running ctx n))
  | StepProvSqueeze n : 0 <= n -> sha3_step complementing running ctx (snd (shake_squeeze complementing running ctx n)).

Section Shape.
Context (complementing : bool) (r : Z) (Hr : 0 < r <= 168) (Hr8 : r mod 8 = 0).

Lemma shape_rest ctx inp A rem : shape r ctx -> bytes_ok inp -> state_ok A -> 0 <= rem < r -> rem <= zlen inp ->
  shape r (if rem =? 0 then set_A A ctx else set_bufsz rem (set_buf (splice (k_buf ctx) 0 (slice inp (zlen inp - rem) rem)) (set_A A ctx))).
Proof.
  intros (Hb & HA & Hl & Hok & Hz & Hp) Hi HA' Hrem Hle. destruct (Z.eqb_spec rem 0); [exact (conj Hb (conj HA' (conj Hl (conj Hok (conj Hz Hp)))))|].
  assert (zlen (slice inp (zlen inp - rem) rem) = rem) as Hs by (apply slice_length; lia).
  unfold shape. cbn [k_block_size k_A k_buf k_bufsz k_pad set_bufsz set_buf set_A].
  refine (conj Hb (conj HA' (conj _ (conj _ (conj _ Hp))))); [rewrite splice_zlen; lia|by apply splice_ok, slice_ok|lia].
Qed.
Lemma absorb_shape ctx inp : shape r ctx -> bytes_ok inp ->
  exists A, SHA3_absorb complementing (k_A ctx) inp (zlen inp) r = (A, zlen inp mod r) /\ state_ok A.
Proof. intros (_ & HA & _) Hi. eexists. split; [by apply SHA3_absorb_eq|by apply absorb_n_ok]. Qed.
Lemma mod_facts (inp : list Z) : 0 <= zlen inp mod r < r /\ zlen inp mod r <= zlen inp.
Proof. pose proof (zlen_nonneg inp). split; [apply Z.mod_pos_bound; lia|apply Z.mod_le; lia]. Qed.
Lemma update_rest_shape ctx inp : shape r ctx -> bytes_ok inp -> shape r (snd (update_rest complementing ctx inp)).
Proof.
  intros H Hi. pose proof H as (Hb & HA & _). unfold update_rest. rewrite Hb. destruct (absorb_shape ctx inp H Hi) as (A & E & HA'). pose proof (zlen_nonneg inp).
  destruct (Z.leb_spec r (zlen inp)) as [|Hlt]; [rewrite E|]; cbn [snd k_buf set_A].
  - destruct (mod_facts inp). by apply shape_rest.
  - apply shape_rest; (done || lia).
Qed.
Lemma set_state_shape st ctx : shape r ctx -> shape r (set_xof_state st ctx).
Proof. intros H. exact H. Qed.
(** Filling the buffer, and absorbing it. *)
Lemma fill_shape ctx inp : shape r ctx -> bytes_ok inp -> k_bufsz ctx + zlen inp <= r -> shape r (set_buf (splice (k_buf ctx) (k_bufsz ctx) inp) ctx).
Proof.
  intros (Hb & HA & Hl & Hok & Hz & Hp) Hi Hle. refine (conj Hb (conj HA (conj _ (conj _ (conj Hz Hp))))); cbn [k_buf set_buf]; [rewrite splice_zlen; lia|by apply splice_ok].
Qed.
Lemma bufsz_shape ctx n : shape r ctx -> 0 <= n < r -> shape r (set_bufsz n ctx).
Proof. intros (Hb & HA & Hl & Hok & Hz & Hp) Hn. exact (conj Hb (conj HA (conj Hl (conj Hok (conj Hn Hp))))). Qed.
Lemma A_shape ctx A : shape r ctx -> state_ok A -> shape r (set_A A ctx).
Proof. intros (Hb & _ & Hl & Hok & Hz & Hp) HA. exact (conj Hb (conj HA (conj Hl (conj Hok (conj Hz Hp))))). Qed.
Lemma absorb_one_shape ctx : shape r ctx -> shape r (set_A (fst (SHA3_absorb complementing (k_A ctx) (k_buf ctx) r r)) ctx).
Proof.
  intros H. pose proof H as (_ & HA & Hl & Hok & _). apply A_shape; [done|]. rewrite SHA3_absorb_one by (done || lia). apply absorb_n_ok; [done|done|done|by apply slice_ok].
Qed.
Lemma update_shape ctx inp : shape r ctx -> bytes_ok inp -> shape r (snd (ossl_sha3_update complementing ctx inp)).
Proof.
  intros H Hi. pose proof H as (Hb & HA & Hl & Hok & Hz & Hp). pose proof (zlen_nonneg inp). unfold ossl_sha3_update. rewrite Hb.
  destruct (Z.eqb_spec (zlen inp) 0); [done|]. destruct (_ || _); [done|]. destruct (Z.eqb_spec (k_bufsz ctx) 0); [by apply update_rest_shape|].
  destruct (Z.ltb_spec (zlen inp) (r - k_bufsz ctx)).
  - cbn [snd]. apply bufsz_shape; [apply fill_shape; (done || lia)|lia].
  - apply update_rest_shape; [|by apply Forall_drop]. apply bufsz_shape; [|lia]. apply absorb_one_shape, fill_shape; [done|by apply slice_ok|]. rewrite slice_length; lia.
Qed.
Lemma generic_shape ctx inp : shape r ctx -> bytes_ok inp ->
  exists rem A st, generic_sha3_absorb complementing ctx inp = (rem, set_A A (set_xof_state st ctx)) /\ state_ok A /\ 0 <= rem < r /\ rem <= zlen inp.
Proof.
  intros H Hi. pose proof H as (Hb & HA & _). unfold generic_sha3_absorb. rewrite Hb. destruct (_ || _).
  - destruct (absorb_shape ctx inp H Hi) as (A & -> & HA'). destruct (mod_facts inp). by exists (zlen inp mod r), A, XOF_STATE_ABSORB.
  - exists 0, (k_A ctx), (k_xof_state ctx). pose proof (zlen_nonneg inp). split; [by destruct ctx|]. split; [done|lia].
Qed.
Lemma provider_update_shape ctx inp : shape r ctx -> bytes_ok inp -> fst (keccak_update complementing ctx inp) = true /\ shape r (snd (keccak_update complementing ctx inp)).
Proof.
  intros H Hi. pose proof H as (Hb & HA & Hl & Hok & Hz & Hp). pose proof (zlen_nonneg inp). unfold keccak_update. rewrite Hb.
  assert (forall ctx inp, shape r ctx -> bytes_ok inp ->
    let res := (let '(rem, ctx) := generic_sha3_absorb complementing ctx inp in
      (true, if rem =? 0 then ctx else set_bufsz rem (set_buf (splice (k_buf ctx) 0 (slice inp (zlen inp - rem) rem)) ctx))) in
    fst res = true /\ shape r (snd res)) as Hrest.
  { clear -Hr Hr8. intros ctx inp H Hi. destruct (generic_shape ctx inp H Hi) as (rem & A & st & -> & HA & Hrem & Hle). split; [done|].
    apply (shape_rest (set_xof_state st ctx) inp A rem); (done || lia). }
  destruct (Z.eqb_spec (zlen inp) 0); [done|]. destruct (Z.eqb_spec (k_bufsz ctx) 0); [by apply Hrest|].
  destruct (Z.ltb_spec (zlen inp) (r - k_bufsz ctx)).
  - split; [done|]. cbn [snd]. apply bufsz_shape; [apply fill_shape; (done || lia)|lia].
  - apply Hrest; [|by apply Forall_drop]. apply bufsz_shape; [|lia]. set (ctx1 := set_buf _ ctx).
    assert (shape r ctx1) as Hc1 by (apply fill_shape; [done|by apply slice_ok|rewrite slice_length; lia]).
    destruct (generic_shape ctx1 (slice (k_buf ctx1) 0 r) Hc1) as (rem & A & st & -> & HA' & _); [apply slice_ok, Hc1|]. by apply A_shape.
Qed.
Lemma padded_shape ctx : shape r ctx -> shape r (absorb_padded complementing ctx).
Proof.
  intros (Hb & HA & Hl & Hok & Hz & Hp). unfold absorb_padded. rewrite Hb. set (buf1 := splice _ _ _). set (buf2 := <[_ := _]> buf1). set (buf3 := <[_ := _]> buf2).
  assert (zlen buf1 = 168) as Hl1 by (unfold buf1; rewrite splice_zlen; rewrite ?zlen_zeros; lia).
  assert (bytes_ok buf2) as Hok2 by (apply Forall_insert; [by apply splice_ok, zeros_ok|done]).
  assert (zlen buf3 = 168) as Hl3 by (unfold buf3, buf2, zlen in *; by rewrite !length_insert).
  assert (bytes_ok buf3) as Hok3 by (apply Forall_insert; [done|by apply (lor_range 8); [lia|apply byte_at_ok|]]).
  apply (absorb_one_shape (set_buf buf3 ctx)). exact (conj Hb (conj HA (conj Hl3 (conj Hok3 (conj Hz Hp))))).
Qed.
Lemma final_shape ctx n : shape r ctx -> 0 <= n ->
  exists ret out ctx', ossl_sha3_final complementing ctx n = (ret, out, ctx') /\ shape r ctx' /\ zlen out = (if ret then n else 0).
Proof.
  intros H Hn. unfold ossl_sha3_final. destruct (Z.eqb_spec n 0) as [->|]; [by exists true, [], ctx|]. destruct (_ || _); [by exists false, [], ctx|].
  pose proof (padded_shape ctx H) as H1. pose proof H1 as (Hb1 & HA1 & _). cbn [k_A k_block_size set_xof_state]. rewrite Hb1.
  pose proof (SHA3_squeeze_eq complementing r Hr Hr8 (k_A (absorb_padded complementing ctx)) n false HA1 ltac:(lia)) as Es. cbv zeta in Es. rewrite Es.
  eexists _, _, _. split; [reflexivity|]. split; [|by apply stream_zlen]. by apply A_shape, iter_ok.
Qed.
Lemma squeeze_shape ctx n : shape r ctx -> 0 <= n ->
  exists ret out ctx', ossl_sha3_squeeze complementing ctx n = (ret, out, ctx') /\ shape r ctx' /\ zlen out = (if ret then n else 0).
Proof.
  intros H Hn. unfold ossl_sha3_squeeze. destruct (Z.eqb_spec n 0) as [->|]; [by exists true, [], ctx|]. destruct (bool_decide _); [by exists false, [], ctx|].
  set (first := negb _). set (ctx1 := if first then _ else ctx).
  assert (shape r ctx1) as H1 by (unfold ctx1; destruct first; [apply bufsz_shape; [by apply padded_shape|lia]|done]).
  pose proof H1 as (Hb1 & HA1 & Hl1 & Hok1 & Hz1 & Hp1). rewrite Hb1. set (num := k_bufsz ctx1) in *.
  assert ((if num =? 0 then 0 else Z.min n num) = Z.min n num) as -> by (destruct (Z.eqb_spec num 0); lia).
  assert (zlen (slice (k_buf ctx1) (r - num) (Z.min n num)) = Z.min n num) as Hs by (apply slice_length; lia).
  assert (shape r (set_bufsz (num - Z.min n num) ctx1)) as H2 by (apply bufsz_shape; [done|lia]).
  destruct (Z.eqb_spec (n - Z.min n num) 0) as [E|E]; [eexists _, _, _; split; [reflexivity|]; split; [done|lia]|].
  destruct (squeeze_blocks_eq complementing r Hr Hr8 (set_bufsz (num - Z.min n num) ctx1) (n - Z.min n num) (negb first) Hb1 HA1 Hl1 ltac:(lia))
    as (ctx' & Eb & (Sb & Sp & _) & Hl' & Hok' & EA' & Ez).
  rewrite Eb. eexists _, _, _. split; [reflexivity|]. split; [|rewrite zlen_app, stream_zlen; lia].
  set (m := n - Z.min n num) in *. pose proof (Z.mod_pos_bound m r ltac:(lia)) as Hm. unfold shape. rewrite Sb, Sp, EA'. cbn [k_block_size k_pad set_bufsz].
  refine (conj Hb1 (conj _ (conj Hl' (conj (Hok' Hok1) (conj _ Hp1))))).
  - apply iter_ok. cbn [k_A set_bufsz]. destruct (negb first); [by apply F_ok|done].
  - cbn [k_bufsz set_bufsz] in Ez. destruct (Z.eqb_spec (m mod r) 0); [rewrite Ez; lia|]. destruct Ez as [-> _]. lia.
Qed.
Lemma reset_shape ctx : shape r ctx -> shape r (ossl_sha3_reset ctx).
Proof.
  intros (Hb & HA & Hl & Hok & Hz & Hp). refine (conj Hb (conj _ (conj Hl (conj Hok (conj _ Hp))))); [apply zero_state_ok|cbn; lia].
Qed.

(** ** The length of the digest is kept *)

Lemma absorb_generic_md ctx inp : k_md_size (snd (generic_sha3_absorb complementing ctx inp)) = k_md_size ctx.
Proof. unfold generic_sha3_absorb. by repeat case_match. Qed.
Lemma update_rest_md ctx inp : k_md_size (snd (update_rest complementing ctx inp)) = k_md_size ctx.
Proof. unfold update_rest. by repeat case_match. Qed.
Lemma update_md ctx inp : k_md_size (snd (ossl_sha3_update complementing ctx inp)) = k_md_size ctx.
Proof. unfold ossl_sha3_update. repeat (case_match; try done); by rewrite update_rest_md. Qed.
Lemma final_md ctx n : k_md_size (snd (ossl_sha3_final complementing ctx n)) = k_md_size ctx.
Proof. unfold ossl_sha3_final. by repeat case_match. Qed.
Lemma squeeze_blocks_md ctx n next : k_md_size (snd (squeeze_blocks complementing ctx n next)) = k_md_size ctx.
Proof. unfold squeeze_blocks. by repeat case_match. Qed.
Lemma squeeze_md ctx n : k_md_size (snd (ossl_sha3_squeeze complementing ctx n)) = k_md_size ctx.
Proof.
  unfold ossl_sha3_squeeze. destruct (n =? 0); [done|]. destruct (bool_decide (_ = XOF_STATE_FINAL)); [done|]. destruct (negb _).
  all: case_match; [done|]; match goal with |- context [squeeze_blocks _ ?c ?m ?x] => pose proof (squeeze_blocks_md c m x) as E; destruct (squeeze_blocks _ c m x) end; exact E.
Qed.
Lemma provider_update_md ctx inp : k_md_size (snd (keccak_update complementing ctx inp)) = k_md_size ctx.
Proof.
  unfold keccak_update. destruct (zlen inp =? 0); [done|]. destruct (k_bufsz ctx =? 0).
  - pose proof (absorb_generic_md ctx inp) as E. destruct (generic_sha3_absorb _ ctx inp) as [rem ctx']. cbn [snd] in *. by destruct (rem =? 0).
  - destruct (zlen inp <? _); [done|]. set (ctx1 := set_bufsz 0 _). assert (k_md_size ctx1 = k_md_size ctx) as E1 by exact (absorb_generic_md (set_buf _ ctx) _). clearbody ctx1.
    set (inp1 := drop _ inp). pose proof (absorb_generic_md ctx1 inp1) as E. destruct (generic_sha3_absorb _ ctx1 inp1) as [rem ctx']. cbn [snd] in *.
    rewrite <- E1, <- E. by destruct (rem =? 0).
Qed.
(** ** Every step keeps the shape *)

Definition safe (ctx : KECCAK1600_CTX) : Prop := shape r ctx /\ 0 <= k_md_size ctx.
Lemma final_safe ctx n : safe ctx -> 0 <= n -> safe (snd (ossl_sha3_final complementing ctx n)).
Proof. intros [H Hd] Hn. split; [|by rewrite final_md]. by destruct (final_shape ctx n H Hn) as (? & ? & ? & -> & ? & _). Qed.
Lemma squeeze_safe ctx n : safe ctx -> 0 <= n -> safe (snd (ossl_sha3_squeeze complementing ctx n)).
Proof. intros [H Hd] Hn. split; [|by rewrite squeeze_md]. by destruct (squeeze_shape ctx n H Hn) as (? & ? & ? & -> & ? & _). Qed.
Lemma provider_final_safe running ctx n : safe ctx -> safe (snd (keccak_final complementing running ctx n)).
Proof.
  intros Hs. unfold keccak_final. destruct (negb running); [done|]. destruct (k_md_size ctx =? SIZE_MAX); [done|]. destruct (0 <? n); [|done].
  pose proof (final_safe ctx (k_md_size ctx) Hs ltac:(apply Hs)) as H. by destruct (ossl_sha3_final _ ctx _) as [[? ?] ?].
Qed.
Lemma provider_squeeze_safe running ctx n : safe ctx -> 0 <= n -> safe (snd (shake_squeeze complementing running ctx n)).
Proof.
  intros Hs Hn. unfold shake_squeeze. destruct (negb running); [done|]. destruct (k_meth ctx); [done|]. destruct (0 <? n); [|done].
  pose proof (squeeze_safe ctx n Hs Hn) as H. by destruct (ossl_sha3_squeeze _ ctx _) as [[? ?] ?].
Qed.
Lemma step_safe running ctx ctx' : safe ctx -> sha3_step complementing running ctx ctx' -> safe ctx'.
Proof.
  intros Hs Hst. pose proof Hs as [H Hd]. destruct Hst as [inp Hi|n Hn|n Hn| |xoflen Hx|inp Hi|n Hn|n Hn].
  - split; [by apply update_shape|by rewrite update_md].
  - by apply final_safe.
  - by apply squeeze_safe.
  - split; [by apply reset_shape|done].
  - unfold keccak_init_params, keccak_init. destruct running; [|done]. destruct xoflen as [x|]; [|by split; [apply reset_shape|]].
    split; [exact (reset_shape ctx H)|cbn in *; lia].
  - split; [by apply provider_update_shape|by rewrite provider_update_md].
  - by apply provider_final_safe.
  - by apply provider_squeeze_safe.
Qed.
Lemma steps_safe running ctx ctx' : rtc (sha3_step complementing running) ctx ctx' -> safe ctx -> safe ctx'.
Proof. induction 1 as [|ctx ctx1 ctx' Hst _ IH]; [done|]. intros Hs. by apply IH, (step_safe running ctx). Qed.
End Shape.

Lemma newctx_safe alg ctx : alg ∈ sha3_algs -> newctx true true alg = Some ctx -> safe (rate alg) ctx.
Proof.
  intros Ha E. destruct (newctx_absorbs alg ctx Ha E) as (H & Hd & _). destruct (alg_facts alg Ha) as (Hr & Hr8 & Hp).
  pose proof (absorbs_A _ Hr Hr8 _ _ _ H) as HA. destruct H as (Hb & Hpad & Hl & Hok & _ & _ & Hz & _).
  split; [refine (conj Hb (conj HA (conj Hl (conj Hok (conj _ _)))))|].
  - rewrite Hz. apply Z.mod_pos_bound. lia.
  - by rewrite Hpad.
  - rewrite Hd. clear -Ha. unfold sha3_algs in Ha. rewrite !elem_of_cons, elem_of_nil in Ha. repeat destruct Ha as [-> | Ha]; done.
Qed.

(** The provider's final and squeeze in any state. *)
Definition has_length (ctx : KECCAK1600_CTX) : bool := negb (k_md_size ctx =? SIZE_MAX).
Definition squeezable (ctx : KECCAK1600_CTX) : bool := match k_meth ctx with shake_generic_md => true | sha3_generic_md => false end.
Definition is_open (ctx : KECCAK1600_CTX) : bool := negb (bool_decide (k_xof_state ctx = XOF_STATE_SQUEEZE) || bool_decide (k_xof_state ctx = XOF_STATE_FINAL)).
Definition is_final (ctx : KECCAK1600_CTX) : bool := bool_decide (k_xof_state ctx = XOF_STATE_FINAL).
Section Outputs.
Context (complementing : bool) (r : Z) (Hr : 0 < r <= 168) (Hr8 : r mod 8 = 0).
Lemma final_output ctx n : shape r ctx -> 0 <= n ->
  exists out ctx', ossl_sha3_final complementing ctx n = ((n =? 0) || is_open ctx, out, ctx') /\ zlen out = (if is_open ctx then n else 0) /\ k_md_size ctx' = k_md_size ctx.
Proof.
  intros H Hn. destruct (final_shape complementing r Hr Hr8 ctx n H Hn) as (ret & out & ctx' & E & _ & Hl). pose proof (final_md complementing ctx n) as Hmd. rewrite E in Hmd.
  exists out, ctx'. assert (ret = (n =? 0) || is_open ctx) as ->.
  { unfold ossl_sha3_final in E. unfold is_open. destruct (n =? 0); [by injection E as <- _ _|]. by destruct (_ || _); repeat case_match; simplify_eq. }
  split; [done|]. split; [|done]. rewrite Hl. destruct (Z.eqb_spec n 0) as [-> |]; [by destruct (is_open ctx)|done].
Qed.
Lemma squeeze_output ctx n : shape r ctx -> 0 < n ->
  exists out ctx', ossl_sha3_squeeze complementing ctx n = (negb (is_final ctx), out, ctx') /\ zlen out = if is_final ctx then 0 else n.
Proof.
  intros H Hn. destruct (squeeze_shape complementing r Hr Hr8 ctx n H ltac:(lia)) as (ret & out & ctx' & E & _ & Hl). exists out, ctx'.
  assert (ret = negb (is_final ctx)) as -> by
    (unfold ossl_sha3_squeeze in E; unfold is_final; rewrite (proj2 (Z.eqb_neq n 0)) in E by lia; by repeat case_match; simplify_eq).
  split; [done|]. rewrite Hl. by destruct (is_final ctx).
Qed.
Lemma provider_final_output running ctx n : safe r ctx -> 0 < n ->
  exists out ctx', keccak_final complementing running ctx n =
      (running && has_length ctx && ((k_md_size ctx =? 0) || is_open ctx), out, (if running && has_length ctx then k_md_size ctx else 0), ctx') /\
    zlen out = if running && has_length ctx && is_open ctx then k_md_size ctx else 0.
Proof.
  intros [H Hd] Hn. unfold keccak_final, has_length. destruct running; cbn [negb andb]; [|by exists [], ctx]. destruct (k_md_size ctx =? SIZE_MAX); cbn [negb andb]; [by exists [], ctx|].
  rewrite (proj2 (Z.ltb_lt 0 n) Hn). destruct (final_output ctx (k_md_size ctx) H Hd) as (out & ctx' & -> & Hl & ->). by exists out, ctx'.
Qed.
Lemma provider_squeeze_output running ctx n : shape r ctx -> 0 < n ->
  exists out ctx', shake_squeeze complementing running ctx n =
      (running && squeezable ctx && negb (is_final ctx), out, (if running && squeezable ctx then n else 0), ctx') /\
    zlen out = if running && squeezable ctx && negb (is_final ctx) then n else 0.
Proof.
  intros H Hn. unfold shake_squeeze, squeezable. destruct running; cbn [negb andb]; [|by exists [], ctx]. destruct (k_meth ctx); cbn [andb]; [by exists [], ctx|].
  rewrite (proj2 (Z.ltb_lt 0 n) Hn). destruct (squeeze_output ctx n H Hn) as (out & ctx' & -> & Hl). exists out, ctx'. split; [done|]. by destruct (is_final ctx).
Qed.
End Outputs.


(** The provider's update does not look at the state: on a context already squeezed it
    reports success, takes no data and moves the read position back, so that the next
    squeeze returns bytes already returned; the update of [sha3.c] refuses the call. *)
Lemma provider_update_after_squeeze_repeats :
  let ctx := default zeroed (newctx true true (SHAKE 128)) in
  let '(r1, out1, _, ctx1) := shake_squeeze false true ctx 100 in
  let '(r2, ctx2) := keccak_update false ctx1 [1; 2; 3; 4] in
  let '(r3, out3, _, _) := shake_squeeze false true ctx2 4 in
  (r1, r2, r3) = (true, true, true) /\ out3 = slice out1 96 4 /\ fst (ossl_sha3_update false ctx1 [1; 2; 3; 4]) = false.
Proof. by vm_compute. Qed.
