(* ===== verification/EvpDigest.v ===== *)
(** * EVP digests

    Model of the digest layer of [crypto/evp/digest.c] (and of [EVP_MD_CTX_get_size_ex] of
    [evp_lib.c]) over a provider's implementation, the class [DigestProvider]: a context
    made with no engine, no public key operation and no legacy method.  [None] is a call
    that dereferences the NULL [algctx] a failed initialisation or copy leaves.  A digest is
    identified with the fetched [EVP_MD]. *)
From S2P Require Import Prelude.

(** The dispatch table of the provider; [xoflen] is the parameter of that name. *)
Class DigestProvider := {
  EVP_MD : Type;
  EVP_MD_eq :: EqDecision EVP_MD;
  ALGCTX : Type;
  md_newctx : EVP_MD -> option ALGCTX;
  md_dinit : EVP_MD -> ALGCTX -> option Z -> bool * ALGCTX;
  md_dupdate : EVP_MD -> ALGCTX -> list Z -> bool * ALGCTX;
  (** the result, the bytes written at [out], [*outl] *)
  md_dfinal : EVP_MD -> ALGCTX -> Z -> bool * list Z * Z * ALGCTX;
  md_dsqueeze : EVP_MD -> option (ALGCTX -> Z -> bool * list Z * Z * ALGCTX);
  (** the parameter set on a context, which may be NULL *)
  md_set_ctx_params : EVP_MD -> option (option ALGCTX -> Z -> bool * option ALGCTX);
  (** the size reported for a context, which may be NULL *)
  md_get_ctx_params : EVP_MD -> option (option ALGCTX -> option Z);
  md_dupctx : EVP_MD -> ALGCTX -> option ALGCTX;
  md_copyctx : EVP_MD -> ALGCTX -> ALGCTX -> ALGCTX;
  EVP_MD_get_size : EVP_MD -> Z;
  EVP_MD_xof : EVP_MD -> bool }.

Section Digest.
Context `{DP : DigestProvider}.

(** [c_finalised] is the flag [EVP_MD_CTX_FLAG_FINALISED]. *)
Record EVP_MD_CTX := mkEVP_MD_CTX { c_digest : option EVP_MD; c_algctx : option ALGCTX; c_finalised : bool }.

(** The context when the allocation succeeds; where it can fail, [alloc] says whether it does. *)
Definition EVP_MD_CTX_new : EVP_MD_CTX := mkEVP_MD_CTX None None false.
(** [freectx] and [OPENSSL_cleanse] *)
Definition EVP_MD_CTX_reset (ctx : EVP_MD_CTX) : EVP_MD_CTX := mkEVP_MD_CTX None None false.

Definition evp_md_init_internal (ctx : EVP_MD_CTX) (type : option EVP_MD) (params : option Z) : bool * EVP_MD_CTX :=
  let ctx := mkEVP_MD_CTX (c_digest ctx) (c_algctx ctx) false in
  match (match type with Some t => Some t | None => c_digest ctx end) with
  | None => (false, ctx)
  | Some t =>
    let algctx := if bool_decide (c_digest ctx = Some t) then c_algctx ctx else None in
    match (match algctx with Some a => Some a | None => md_newctx t end) with
    | None => (false, mkEVP_MD_CTX (Some t) None false)
    | Some a => let '(ret, a) := md_dinit t a params in (ret, mkEVP_MD_CTX (Some t) (Some a) false)
    end
  end.
Definition EVP_DigestInit_ex2 (ctx : EVP_MD_CTX) (type : option EVP_MD) (params : option Z) : bool * EVP_MD_CTX := evp_md_init_internal ctx type params.
Definition EVP_DigestInit_ex (ctx : EVP_MD_CTX) (type : option EVP_MD) : bool * EVP_MD_CTX := evp_md_init_internal ctx type None.
Definition EVP_DigestInit (ctx : EVP_MD_CTX) (type : option EVP_MD) : bool * EVP_MD_CTX := evp_md_init_internal (EVP_MD_CTX_reset ctx) type None.

Definition EVP_DigestUpdate (ctx : EVP_MD_CTX) (data : list Z) : option (bool * EVP_MD_CTX) :=
  if zlen data =? 0 then Some (true, ctx)
  else if c_finalised ctx then Some (false, ctx)
  else match c_digest ctx with
  | None => Some (false, ctx)
  | Some md => a ← c_algctx ctx; let '(ret, a) := md_dupdate md a data in Some (ret, mkEVP_MD_CTX (Some md) (Some a) (c_finalised ctx))
  end.

(** Negative when it is not known; the [size_t] is returned as an [int]. *)
Definition EVP_MD_CTX_get_size_ex (ctx : EVP_MD_CTX) : Z :=
  match c_digest ctx with
  | None => -1
  | Some md =>
    match md_get_ctx_params md with
    | Some get => match get (c_algctx ctx) with Some sz => if (sz =? SIZE_MAX) || (sz =? 0) then -1 else i32 sz | None => -1 end
    | None => EVP_MD_get_size md
    end
  end.
Definition UINT_MAX : Z := 4294967295.
(** The result, the bytes written at [md] and [*isize], a pointer that is not NULL. *)
Definition EVP_DigestFinal_ex (ctx : EVP_MD_CTX) : option (bool * list Z * Z * EVP_MD_CTX) :=
  match c_digest ctx with
  | None => Some (false, [], 0, ctx)
  | Some md =>
    let sz := EVP_MD_CTX_get_size_ex ctx in
    if sz <? 0 then Some (false, [], 0, ctx)
    else if c_finalised ctx then Some (false, [], 0, ctx)
    else
      a ← c_algctx ctx;
      let '(ret, out, size, a) := md_dfinal md a sz in
      let ctx := mkEVP_MD_CTX (Some md) (Some a) true in
      Some (if size <=? UINT_MAX then (ret, out, size, ctx) else (false, out, 0, ctx))
  end.
Definition EVP_DigestFinal (ctx : EVP_MD_CTX) : option (bool * list Z * Z * EVP_MD_CTX) :=
  '(ret, out, size, ctx) ← EVP_DigestFinal_ex ctx; Some (ret, out, size, EVP_MD_CTX_reset ctx).

(** With the parameter [xoflen]: 0 where the digest has none. *)
Definition EVP_MD_CTX_set_params (ctx : EVP_MD_CTX) (xoflen : Z) : bool * EVP_MD_CTX :=
  match (md ← c_digest ctx; md_set_ctx_params md) with
  | Some set => let '(ret, a) := set (c_algctx ctx) xoflen in (ret, mkEVP_MD_CTX (c_digest ctx) a (c_finalised ctx))
  | None => (false, ctx)
  end.
(** The result of setting the parameter, 0 or 1, is never below 0. *)
Definition EVP_DigestFinalXOF (ctx : EVP_MD_CTX) (size : Z) : option (bool * list Z * EVP_MD_CTX) :=
  match c_digest ctx with
  | None => Some (false, [], ctx)
  | Some md =>
    if c_finalised ctx then Some (false, [], ctx)
    else
      let ctx := snd (EVP_MD_CTX_set_params ctx size) in
      a ← c_algctx ctx;
      let '(ret, out, _, a) := md_dfinal md a size in
      Some (ret, out, mkEVP_MD_CTX (Some md) (Some a) true)
  end.
Definition EVP_DigestSqueeze (ctx : EVP_MD_CTX) (size : Z) : option (bool * list Z * EVP_MD_CTX) :=
  match c_digest ctx with
  | None => Some (false, [], ctx)
  | Some md =>
    match md_dsqueeze md with
    | None => Some (false, [], ctx)
    | Some squeeze => a ← c_algctx ctx; let '(ret, out, _, a) := squeeze a size in Some (ret, out, mkEVP_MD_CTX (Some md) (Some a) (c_finalised ctx))
    end
  end.

Definition EVP_MD_CTX_copy_ex (out inctx : EVP_MD_CTX) : option (bool * EVP_MD_CTX) :=
  match c_digest inctx with
  | None => Some (true, inctx)
  | Some md =>
    if bool_decide (c_digest out = Some md) then
      o ← c_algctx out;
      i ← c_algctx inctx;
      Some (true, mkEVP_MD_CTX (Some md) (Some (md_copyctx md o i)) (c_finalised inctx))
    else match c_algctx inctx with
    | None => Some (true, inctx)
    | Some i =>
      match md_dupctx md i with
      | None => Some (false, mkEVP_MD_CTX (Some md) None (c_finalised inctx))
      | Some a => Some (true, mkEVP_MD_CTX (Some md) (Some a) (c_finalised inctx))
      end
    end
  end.
Definition EVP_MD_CTX_copy (out inctx : EVP_MD_CTX) : option (bool * EVP_MD_CTX) := EVP_MD_CTX_copy_ex (EVP_MD_CTX_reset out) inctx.
Definition EVP_MD_CTX_dup (alloc : bool) (inctx : EVP_MD_CTX) : option (option EVP_MD_CTX) :=
  if negb alloc then Some None
  else '(ret, out) ← EVP_MD_CTX_copy_ex EVP_MD_CTX_new inctx; Some (if ret : bool then Some out else None).

(** In one call: the result, the bytes written at [md] and [*size]. *)
Definition EVP_Digest (alloc : bool) (data : list Z) (type : EVP_MD) : option (bool * list Z * Z) :=
  let '(ret, ctx) := EVP_DigestInit_ex EVP_MD_CTX_new (Some type) in
  if negb alloc then Some (false, [], 0)
  else if negb ret then Some (false, [], 0)
  else
    '(ret, ctx) ← EVP_DigestUpdate ctx data;
    if negb ret then Some (false, [], 0)
    else '(ret, out, size, _) ← EVP_DigestFinal_ex ctx; Some (ret, out, size).
End Digest.
Arguments EVP_MD_CTX {_}.
