(* ===== verification/EvpSha3.v ===== *)
(** * EVP digests over the SHA-3 provider

    The dispatch tables of [providers/implementations/digests/sha3_prov.c] as an instance of
    [DigestProvider], what a digest context over the provider holds (the bytes absorbed so
    far, or how many were squeezed), and what each call of [digest.c] does to it: the base
    of the specification of [EvpSpec] and of the digests of ML-KEM, ML-DSA and SLH-DSA. *)
From S2P Require Import Prelude.
From S2P Require Import ByteOrder.
From S2P Require Import ZSum.
From S2P Require Import Keccak.
From S2P Require Import Sha3.
From S2P Require Import Sha3Spec.
From S2P Require Import Sha3Safe.
From S2P Require Import EvpDigest.

#[export] Instance sha3_alg_eq_dec : EqDecision sha3_alg.
Proof. solve_decision. Defined.

(** [PROV_FUNC_SHA3_DIGEST] against [PROV_FUNC_SHAKE_DIGEST] *)
Definition shake_table (alg : sha3_alg) : bool := match alg with SHA3 _ | KECCAK _ => false | SHAKE _ | KECCAK_KMAC _ => true end.
Definition sha3_provider (complementing running zalloc : bool) : DigestProvider := {|
  EVP_MD := sha3_alg;
  ALGCTX := KECCAK1600_CTX;
  md_newctx := newctx running zalloc;
  md_dinit alg a params := if shake_table alg then keccak_init_params running a params else keccak_init running a;
  md_dupdate alg := keccak_update complementing;
  md_dfinal alg := keccak_final complementing running;
  md_dsqueeze alg := if shake_table alg then Some (shake_squeeze complementing running) else None;
  md_set_ctx_params alg := if shake_table alg then Some (fun a n => match a with
      | None => (false, None)
      | Some a => let '(ret, a) := shake_set_ctx_params a (Some n) in (ret, Some a)
      end) else None;
  md_get_ctx_params alg := if shake_table alg then Some (fun a => k_md_size <$> a) else None;
  md_dupctx alg := keccak_dupctx running zalloc;
  md_copyctx alg := keccak_copyctx;
  EVP_MD_get_size alg := match alg with SHA3 bitlen | KECCAK bitlen => bitlen / 8 | SHAKE _ => 0 | KECCAK_KMAC bitlen => 2 * (bitlen / 8) end;
  EVP_MD_xof := shake_table |}.

(** ** Digest contexts

    What a context that is initialised and not finalised holds: the bytes absorbed so far,
    or the number of bytes squeezed. *)

Inductive evp_state := Absorbing (alg : sha3_alg) (M : list Z) | Squeezing (alg : sha3_alg) (M : list Z) (k : Z).
Definition hashes (alg : sha3_alg) : list Z -> Z -> Z -> list Z := SPONGE (rate alg) (suffix alg).

(** The output is bytes, as many as asked. *)
Lemma f_bytes_ok S : bytes_ok (f_bytes S).
Proof. unfold f_bytes, bytes_of. apply Forall_fmap, Forall_forall. intros j _. apply byte_of_ok. Qed.
#[local] Opaque f_bytes.
Lemma absorb_spec_ok n r S P : bytes_ok S -> bytes_ok (absorb_spec n r S P).
Proof. revert S P. induction n as [|n IH]; intros S P HS; [exact HS|]. exact (IH _ _ (f_bytes_ok _)). Qed.
Lemma hashes_ok alg M k n : bytes_ok (hashes alg M k n).
Proof.
  unfold hashes, SPONGE, squeeze_spec. apply Forall_fmap, Forall_forall. intros j _. apply byte_at_ok. generalize (Z.to_nat (j / rate alg)) as i.
  intros i. destruct i as [|i]; [exact (absorb_spec_ok _ _ _ _ (zeros_ok 200))|exact (f_bytes_ok _)].
Qed.
Lemma hashes_zlen alg M k n : 0 <= n -> zlen (hashes alg M k n) = n.
Proof. apply table_zlen. Qed.
Lemma u8s_ok data : bytes_ok (u8 <$> data).
Proof. apply Forall_fmap, Forall_forall. intros x _. apply (Z.mod_pos_bound x 256). lia. Qed.

Section Refines.
Context (complementing : bool).
Let provider : DigestProvider := sha3_provider complementing true true.
#[local] Existing Instance provider | 0.

(** ** The simulation *)

Definition set_up (alg : sha3_alg) (a : KECCAK1600_CTX) : Prop :=
  alg ∈ sha3_algs /\ shape (rate alg) a /\ k_pad a = suffix alg /\ k_meth a = (if has_squeeze alg then shake_generic_md else sha3_generic_md) /\
  (shake_table alg = false -> k_md_size a = digest_size alg).
Definition evp_rel (st : evp_state) (ctx : EVP_MD_CTX) : Prop :=
  match st with
  | Absorbing alg M => exists a, ctx = mkEVP_MD_CTX (Some alg) (Some a) false /\ set_up alg a /\ absorbs (rate alg) (suffix alg) M a
  | Squeezing alg M k => exists a, ctx = mkEVP_MD_CTX (Some alg) (Some a) false /\ set_up alg a /\
      has_squeeze alg = true /\ squeezes (rate alg) (suffix alg) M k a
  end.

Lemma reset_set_up alg a : set_up alg a -> set_up alg (ossl_sha3_reset a).
Proof. intros (Ha & H & Hp & Hm & Hd). destruct (alg_facts alg Ha) as (Hr & _). exact (conj Ha (conj (reset_shape _ Hr a H) (conj Hp (conj Hm Hd)))). Qed.
Lemma reset_absorbs alg a : set_up alg a -> absorbs (rate alg) (suffix alg) [] (ossl_sha3_reset a).
Proof.
  intros (_ & (Hb & _ & Hl & Hok & _) & Hp & _). unfold absorbs. refine (conj Hb (conj Hp (conj Hl (conj Hok (conj (Forall_nil_2 _) (conj (or_introl eq_refl) (conj eq_refl (conj eq_refl _)))))))).
  unfold tail_of. by rewrite drop_nil.
Qed.
Lemma newctx_set_up alg a : alg ∈ sha3_algs -> newctx true true alg = Some a -> set_up alg a.
Proof.
  intros Ha E. destruct (newctx_absorbs alg a Ha E) as ((Hb & Hp & _) & Hd & Hm). destruct (newctx_safe alg a Ha E) as [Hs _].
  exact (conj Ha (conj Hs (conj Hp (conj Hm (fun _ => Hd))))).
Qed.
Lemma newctx_Some alg : exists a, newctx true true alg = Some a.
Proof. destruct alg; by eexists. Qed.
Lemma dinit_eq alg a : md_dinit alg a None = (true, ossl_sha3_reset a).
Proof. cbn. by destruct (shake_table alg). Qed.

Lemma init_refines alg ctx : alg ∈ sha3_algs -> (forall a, c_digest ctx = Some alg -> c_algctx ctx = Some a -> set_up alg a) ->
  exists ctx', EVP_DigestInit_ex ctx (Some alg) = (true, ctx') /\ evp_rel (Absorbing alg []) ctx'.
Proof.
  intros Ha Hc. unfold EVP_DigestInit_ex, evp_md_init_internal. cbn [c_digest c_algctx].
  assert (forall a, set_up alg a -> exists ctx', (let '(ret, a) := md_dinit alg a None in (ret, mkEVP_MD_CTX (Some alg) (Some a) false)) = (true, ctx') /\
    evp_rel (Absorbing alg []) ctx') as Hfin.
  { intros a Hs. rewrite dinit_eq. eexists. split; [reflexivity|]. exists (ossl_sha3_reset a). split_and!; [done|by apply reset_set_up|by apply reset_absorbs]. }
  destruct (newctx_Some alg) as [a0 E0]. pose proof (newctx_set_up alg a0 Ha E0) as H0. cbn [md_newctx provider sha3_provider]. rewrite E0.
  case_bool_decide as Ed; [|by apply Hfin]. destruct (c_algctx ctx) as [a|] eqn:Ea; [|by apply Hfin]. by apply Hfin, Hc.
Qed.
Lemma set_up_kept alg a a' : set_up alg a -> shape (rate alg) a' -> k_pad a' = suffix alg -> kept a a' -> set_up alg a'.
Proof. intros (Ha & _ & _ & Hm & Hd) Hs Hp [Hk1 Hk2]. refine (conj Ha (conj Hs (conj Hp (conj _ _)))); [congruence|]. intros E. rewrite Hk1. by apply Hd. Qed.
Lemma final_pad a n : k_pad (snd (ossl_sha3_final complementing a n)) = k_pad a.
Proof. unfold ossl_sha3_final. by repeat case_match. Qed.
Lemma set_md_set_up alg a n : set_up alg a -> shake_table alg = true -> set_up alg (set_md_size n a).
Proof. intros (Ha & Hs & Hp & Hm & _) Ht. refine (conj Ha (conj Hs (conj Hp (conj Hm _)))). congruence. Qed.

(** The provider's update. *)
Lemma update_call alg M a data : set_up alg a -> absorbs (rate alg) (suffix alg) M a -> bytes_ok data ->
  exists a', keccak_update complementing a data = (true, a') /\ set_up alg a' /\ absorbs (rate alg) (suffix alg) (M ++ data) a' /\ kept a a'.
Proof.
  intros Hs H Hok. destruct (alg_facts alg (proj1 Hs)) as (Hr & Hr8 & _). destruct (keccak_update_eq complementing _ Hr Hr8 _ _ _ data H Hok) as (a' & E' & H' & Hk).
  destruct (provider_update_shape complementing _ Hr Hr8 a data (proj1 (proj2 Hs)) Hok) as [_ Hsh]. rewrite E' in *. exists a'. split_and!; [done| |done|done].
  apply (set_up_kept alg a); [done|done|apply H'|done].
Qed.
Lemma update_refines alg M ctx data : evp_rel (Absorbing alg M) ctx -> bytes_ok data ->
  exists ctx', EVP_DigestUpdate ctx data = Some (true, ctx') /\ evp_rel (Absorbing alg (M ++ data)) ctx'.
Proof.
  intros (a & -> & Hs & H) Hok. unfold EVP_DigestUpdate. destruct (Z.eqb_spec (zlen data) 0) as [E|E].
  - destruct data; [|done]. eexists. split; [reflexivity|]. exists a. rewrite app_nil_r. by split_and!.
  - cbn [c_finalised c_digest c_algctx mbind option_bind md_dupdate provider sha3_provider].
    destruct (update_call alg M a data Hs H Hok) as (a' & -> & Hs' & H' & _). eexists. split; [reflexivity|]. by exists a'.
Qed.
(** The provider's final on a context of known digest length. *)
Lemma final_call alg M a n : set_up alg a -> absorbs (rate alg) (suffix alg) M a -> 0 < n -> 0 < k_md_size a < SIZE_MAX ->
  exists a', keccak_final complementing true a n = (true, hashes alg M 0 (k_md_size a), k_md_size a, a') /\ set_up alg a' /\ k_xof_state a' = XOF_STATE_FINAL /\ kept a a'.
Proof.
  intros Hs H Hn Hmd. destruct (alg_facts alg (proj1 Hs)) as (Hr & Hr8 & Hp). unfold keccak_final. cbn [negb].
  rewrite (proj2 (Z.eqb_neq (k_md_size a) SIZE_MAX)), (proj2 (Z.ltb_lt 0 n)) by lia.
  destruct (sha3_final_eq complementing _ Hr Hr8 _ _ _ (k_md_size a) H Hp ltac:(lia)) as (a' & E & Hx & Hk).
  destruct (final_shape complementing _ Hr Hr8 a (k_md_size a) (proj1 (proj2 Hs)) ltac:(lia)) as (ret & out & a'' & E'' & Hsh & _).
  pose proof (final_pad a (k_md_size a)) as Hpad. rewrite E in *. injection E'' as <- <- <-. exists a'. split; [by rewrite (proj1 Hk)|]. split; [|done].
  apply (set_up_kept alg a); [done|done| |done]. cbn in Hpad. rewrite Hpad. apply Hs.
Qed.
Lemma fixed_size alg : alg ∈ sha3_algs -> shake_table alg = false -> 0 < digest_size alg < SIZE_MAX /\ EVP_MD_get_size alg = digest_size alg /\ digest_size alg <= UINT_MAX.
Proof. intros Ha Ht. unfold sha3_algs in Ha. rewrite !elem_of_cons, elem_of_nil in Ha. repeat destruct Ha as [-> | Ha]; done. Qed.
Lemma final_refines alg M ctx : evp_rel (Absorbing alg M) ctx -> shake_table alg = false ->
  exists ctx', EVP_DigestFinal_ex ctx = Some (true, hashes alg M 0 (digest_size alg), digest_size alg, ctx').
Proof.
  intros (a & -> & Hs & H) Ht. destruct (fixed_size alg (proj1 Hs) Ht) as (Hd & Hsz & Hu). pose proof Hs as (_ & _ & _ & _ & Hmd).
  unfold EVP_DigestFinal_ex, EVP_MD_CTX_get_size_ex. cbn [c_digest c_algctx c_finalised md_get_ctx_params md_dfinal provider sha3_provider].
  rewrite Ht, Hsz, (proj2 (Z.ltb_ge _ 0)) by lia. cbn [mbind option_bind]. rewrite <- (Hmd Ht) in *.
  destruct (final_call alg M a (k_md_size a) Hs H) as (a' & -> & _); [lia|lia|]. rewrite (proj2 (Z.leb_le _ _) Hu). by eexists.
Qed.
Lemma final_xof_refines alg M ctx n : evp_rel (Absorbing alg M) ctx ->
  (if shake_table alg then (0 <? n) && (n <? SIZE_MAX) else n =? digest_size alg) = true ->
  exists ctx', EVP_DigestFinalXOF ctx n = Some (true, hashes alg M 0 n, ctx').
Proof.
  intros (a & -> & Hs & H) Hn. unfold EVP_DigestFinalXOF, EVP_MD_CTX_set_params. cbn [c_digest c_algctx c_finalised mbind option_bind md_set_ctx_params md_dfinal provider sha3_provider].
  destruct (shake_table alg) eqn:Ht; cbn [shake_set_ctx_params snd c_algctx mbind option_bind].
  - apply andb_true_iff in Hn as [Hn1%Z.ltb_lt Hn2%Z.ltb_lt].
    destruct (final_call alg M (set_md_size n a) n) as (a' & -> & _); [by apply set_md_set_up|exact H|done|cbn; lia|]. by eexists.
  - apply Z.eqb_eq in Hn as ->. destruct (fixed_size alg (proj1 Hs) Ht) as (Hd & _). pose proof Hs as (_ & _ & _ & _ & Hmd). rewrite <- (Hmd Ht) in *.
    destruct (final_call alg M a (k_md_size a) Hs H) as (a' & -> & _); [lia|lia|]. by eexists.
Qed.
Lemma squeeze_call alg M k a n : has_squeeze alg = true -> set_up alg a ->
  (k = 0 /\ absorbs (rate alg) (suffix alg) M a \/ squeezes (rate alg) (suffix alg) M k a) -> 0 < n ->
  exists a', shake_squeeze complementing true a n = (true, hashes alg M k n, n, a') /\ set_up alg a' /\ squeezes (rate alg) (suffix alg) M (k + n) a' /\ kept a a'.
Proof.
  intros Hq Hs H Hn. destruct (alg_facts alg (proj1 Hs)) as (Hr & Hr8 & Hp). unfold shake_squeeze. cbn [negb].
  rewrite (proj2 (Z.ltb_lt 0 n) Hn). pose proof Hs as (_ & Hsh & _ & Hm & _). rewrite Hq in Hm. rewrite Hm.
  assert (exists a', ossl_sha3_squeeze complementing a n = (true, hashes alg M k n, a') /\ squeezes (rate alg) (suffix alg) M (k + n) a' /\ kept a a') as (a' & E & Hsq & Hk).
  { destruct H as [[-> H]|H]; [by apply sha3_squeeze_first|by apply sha3_squeeze_next]. }
  destruct (squeeze_shape complementing _ Hr Hr8 a n Hsh ltac:(lia)) as (ret & out & a'' & E'' & Hsh' & _). rewrite E in *. injection E'' as <- <- <-.
  exists a'. split; [done|]. split; [|done]. apply (set_up_kept alg a); [done|done|apply Hsq|done].
Qed.
Lemma shake_has_table alg : has_squeeze alg = true -> shake_table alg = true.
Proof. by destruct alg. Qed.
Lemma hashes_nil alg M k : hashes alg M k 0 = [].
Proof. unfold hashes, SPONGE, squeeze_spec. by rewrite seqZ_nil by lia. Qed.
(** Squeezing nothing. *)
Lemma squeeze_zero alg a : has_squeeze alg = true -> set_up alg a -> shake_squeeze complementing true a 0 = (true, [], 0, a).
Proof. intros Hq (_ & _ & _ & Hm & _). unfold shake_squeeze. rewrite Hm, Hq. done. Qed.
(** A digest that does not squeeze refuses. *)
Lemma squeeze_none alg a fin n : has_squeeze alg = false -> set_up alg a ->
  EVP_DigestSqueeze (mkEVP_MD_CTX (Some alg) (Some a) fin) n = Some (false, [], mkEVP_MD_CTX (Some alg) (Some a) fin).
Proof.
  intros Hq (_ & _ & _ & Hm & _). rewrite Hq in Hm. unfold EVP_DigestSqueeze. cbn. destruct (shake_table alg); [|done]. cbn. unfold shake_squeeze. by rewrite Hm.
Qed.
Lemma squeeze_refines alg M k ctx n : evp_rel (if k =? 0 then Absorbing alg M else Squeezing alg M k) ctx -> has_squeeze alg = true -> 0 <= k -> 0 < n ->
  exists ctx', EVP_DigestSqueeze ctx n = Some (true, hashes alg M k n, ctx') /\ evp_rel (Squeezing alg M (k + n)) ctx'.
Proof.
  intros H Hq Hk Hn. assert (exists a, ctx = mkEVP_MD_CTX (Some alg) (Some a) false /\ set_up alg a /\
    (k = 0 /\ absorbs (rate alg) (suffix alg) M a \/ squeezes (rate alg) (suffix alg) M k a)) as (a & -> & Hs & Ha).
  { destruct (Z.eqb_spec k 0); [destruct H as (a & ? & ? & ?)|destruct H as (a & ? & ? & ? & ?)]; exists a; eauto. }
  unfold EVP_DigestSqueeze. cbn [c_digest c_algctx c_finalised md_dsqueeze provider sha3_provider]. rewrite (shake_has_table alg Hq). cbn [mbind option_bind].
  destruct (squeeze_call alg M k a n Hq Hs Ha Hn) as (a' & -> & Hs' & H' & _). eexists. split; [reflexivity|]. by exists a'.
Qed.
End Refines.

(** ** Outside the documented use *)

(** [EVP_DigestFinalXOF] on a digest of fixed length writes the whole digest, whatever the
    size of the buffer it was given. *)
Lemma final_xof_ignores_size complementing : let provider := sha3_provider complementing true true in
  exists ctx ctx', @EVP_DigestInit_ex provider EVP_MD_CTX_new (Some (SHA3 256)) = (true, ctx) /\
    @EVP_DigestFinalXOF provider ctx 1 = Some (true, hashes (SHA3 256) [] 0 32, ctx').
Proof.
  cbv zeta. destruct (init_refines complementing (SHA3 256) (@EVP_MD_CTX_new (sha3_provider complementing true true))) as (ctx & E & a & -> & Hs & H).
  - unfold sha3_algs. rewrite !elem_of_cons. tauto.
  - done.
  - pose proof Hs as (_ & _ & _ & _ & Hmd). specialize (Hmd eq_refl). destruct (final_call complementing (SHA3 256) [] a 1 Hs H) as (a' & Ef & _); [done|by rewrite Hmd|].
    eexists _, _. split; [exact E|]. unfold EVP_DigestFinalXOF.
    unfold EVP_MD_CTX_set_params. cbn [c_digest c_algctx c_finalised mbind option_bind md_set_ctx_params md_dfinal sha3_provider shake_table snd]. rewrite Ef, Hmd. reflexivity.
Qed.
(** A copy that failed for lack of memory leaves a context without [algctx]; copying to it
    again the same digest dereferences NULL. *)
Lemma copy_after_failed_copy complementing alg a fin : let provider := sha3_provider complementing true false in
  let inctx := @mkEVP_MD_CTX provider (Some alg) (Some a) fin in
  exists out, EVP_MD_CTX_copy_ex EVP_MD_CTX_new inctx = Some (false, out) /\ EVP_MD_CTX_copy_ex out inctx = None.
Proof.
  cbv zeta. exists (mkEVP_MD_CTX (Some alg) None fin). split; [done|]. unfold EVP_MD_CTX_copy_ex. cbn [c_digest c_algctx]. by rewrite bool_decide_eq_true_2.
Qed.
