(* ===== verification/EvpSpec.v ===== *)
(** * What EVP promises of a digest

    An abstract specification of the digest interface of [crypto/evp/digest.c]: any number
    of contexts, each one unset or holding a function, what its sponge has absorbed or
    given out, the length its digest has and whether it was finalised; and the proof that
    the code over the SHA-3 provider refines it, for every sequence of calls.  The
    specification is silent in two cases, the [None] of [evp_spec]: data given to a context
    that was already squeezed, and the length of a digest that is longer than an [int]. *)
From S2P Require Import Prelude.
From S2P Require Import Keccak.
From S2P Require Import Sha3.
From S2P Require Import Sha3Spec.
From S2P Require Import Sha3Safe.
From S2P Require Import EvpDigest.
From S2P Require Import EvpSha3.

(** ** The specification *)

(** [Closed]: the digest was taken. *)
Inductive phase := Absorbed (M : list Z) | Squeezed (M : list Z) (k : Z) | Closed.
(** [len] is the number of bytes of a final digest, [SIZE_MAX] when it is not set; once
    [fin], neither data nor a final call are accepted. *)
Inductive digest_obj := Unset | Digest (alg : sha3_alg) (s : phase) (len : Z) (fin : bool).

(** The calls on one context; [params] and [n] of [OSetParams] are the parameter [xoflen]. *)
Inductive evp_op :=
  | OInit_ex2 (type : option sha3_alg) (params : option Z) | OInit_ex (type : option sha3_alg) | OInit (type : option sha3_alg)
  | OSetParams (n : Z) | OGetSize | OUpdate (data : list Z) | OFinal_ex | OFinal | OFinalXOF (n : Z) | OSqueeze (n : Z) | OReset.
(** The calls on a number of contexts, [EVP_MD_CTX_new] first. *)
Inductive evp_call := CNew | COn (i : nat) (op : evp_op) | CCopy_ex (out i : nat) | CCopy (out i : nat) | CDup (i : nat) | CDigest (data : list Z) (alg : sha3_alg).

Definition is_size (n : Z) : Prop := 0 <= n <= SIZE_MAX.
Definition known (type : option sha3_alg) : Prop := match type with Some alg => alg ∈ sha3_algs | None => True end.
Definition op_ok (op : evp_op) : Prop :=
  match op with
  | OInit_ex2 type params => known type /\ is_size (default 0 params)
  | OInit_ex type | OInit type => known type
  | OSetParams n | OFinalXOF n | OSqueeze n => is_size n
  | OUpdate data => bytes_ok data
  | _ => True
  end.
Definition call_ok (c : evp_call) : Prop :=
  match c with COn _ op => op_ok op | CDigest data alg => bytes_ok data /\ alg ∈ sha3_algs | _ => True end.

(** A function of the standard has a length of its own, an XOF the one set last, also on an
    earlier use of the context for the same function. *)
Definition start (alg : sha3_alg) (st : digest_obj) (params : option Z) : digest_obj :=
  let len := match st with Digest alg' _ len _ => if bool_decide (alg' = alg) then len else digest_size alg | Unset => digest_size alg end in
  Digest alg (Absorbed []) (match params with Some n => if shake_table alg then n else len | None => len end) false.
Definition chosen (st : digest_obj) (type : option sha3_alg) : option sha3_alg :=
  match type, st with Some alg, _ => Some alg | None, Digest alg _ _ _ => Some alg | None, Unset => None end.
Definition init_spec (st : digest_obj) (type : option sha3_alg) (params : option Z) : bool * list Z * Z * digest_obj :=
  match chosen st type with Some alg => (true, [], 0, start alg st params) | None => (false, [], 0, st) end.
Definition no_length (len : Z) : bool := (len =? 0) || (len =? SIZE_MAX).
Definition beyond_int (len : Z) : bool := (2147483647 <? len) && (len <? SIZE_MAX).
Definition digest_spec (alg : sha3_alg) (s : phase) (len : Z) : bool * list Z * phase :=
  match s with Absorbed M => (true, hashes alg M 0 len, Closed) | _ => (false, [], s) end.
Definition final_spec (st : digest_obj) : option (bool * list Z * Z * digest_obj) :=
  match st with
  | Unset => Some (false, [], 0, st)
  | Digest alg s len fin =>
    if beyond_int len then None
    else if no_length len || fin then Some (false, [], 0, st)
    else let '(ret, out, s) := digest_spec alg s len in Some (ret, out, len, Digest alg s len true)
  end.

(** The value returned, the output, the length reported and the next state. *)
Definition evp_spec (st : digest_obj) (op : evp_op) : option (bool * list Z * Z * digest_obj) :=
  match op, st with
  | OInit_ex2 type params, _ => Some (init_spec st type params)
  | OInit_ex type, _ => Some (init_spec st type None)
  | OInit type, _ => Some (init_spec Unset type None)
  | OReset, _ => Some (true, [], 0, Unset)
  | OGetSize, Unset => Some (true, [], -1, st)
  | OGetSize, Digest _ _ len _ => if beyond_int len then None else Some (true, [], if no_length len then -1 else len, st)
  | OSetParams n, Digest alg s len fin => Some (if shake_table alg then (true, [], 0, Digest alg s n fin) else (false, [], 0, st))
  | OUpdate [], _ => Some (true, [], 0, st)
  | OUpdate data, Digest alg (Absorbed M) len false => Some (true, [], 0, Digest alg (Absorbed (M ++ data)) len false)
  | OUpdate _, Digest _ (Squeezed _ _) _ false => None
  | OFinal_ex, _ => final_spec st
  | OFinal, _ => '(ret, out, size, _) ← final_spec st; Some (ret, out, size, Unset)
  | OFinalXOF n, Digest alg s len false =>
    let len := if shake_table alg then n else len in
    let '(ret, out, s) := if n =? 0 then (true, [], s) else if len =? SIZE_MAX then (false, [], s) else digest_spec alg s len in
    Some (ret, out, 0, Digest alg s len true)
  | OSqueeze n, Digest alg s len fin =>
    Some (if negb (has_squeeze alg) then (false, [], 0, st)
          else if n =? 0 then (true, [], 0, st)
          else match s with
               | Absorbed M => (true, hashes alg M 0 n, 0, Digest alg (Squeezed M n) len fin)
               | Squeezed M k => (true, hashes alg M k n, 0, Digest alg (Squeezed M (k + n)) len fin)
               | Closed => (false, [], 0, st)
               end)
  | _, _ => Some (false, [], 0, st)
  end.
(** A copy holds what the original holds; a context copied with [EVP_MD_CTX_copy] onto
    itself is reset first. *)
Definition call_spec (sts : list digest_obj) (c : evp_call) : option (bool * list Z * Z * list digest_obj) :=
  match c with
  | CNew => Some (true, [], 0, sts ++ [Unset])
  | COn i op => st ← sts !! i; '(ret, out, size, st) ← evp_spec st op; Some (ret, out, size, <[i := st]> sts)
  | CCopy_ex out i => _ ← sts !! out; st ← sts !! i; Some (true, [], 0, <[out := st]> sts)
  | CCopy out i => _ ← sts !! out; st ← <[out := Unset]> sts !! i; Some (true, [], 0, <[out := st]> sts)
  | CDup i => st ← sts !! i; Some (true, [], 0, sts ++ [st])
  | CDigest data alg =>
    Some (if digest_size alg =? SIZE_MAX then (false, [], 0, sts) else (true, hashes alg data 0 (digest_size alg), digest_size alg, sts))
  end.
Fixpoint spec_run (sts : list digest_obj) (cs : list evp_call) : option (list (bool * list Z * Z)) :=
  match cs with
  | [] => Some []
  | c :: cs => '(ret, out, size, sts) ← call_spec sts c; rs ← spec_run sts cs; Some ((ret, out, size) :: rs)
  end.

(** ** The code *)

Section Refines.
Context (complementing : bool).
Let provider : DigestProvider := sha3_provider complementing true true.
#[local] Existing Instance provider | 0.

Definition evp_exec (ctx : EVP_MD_CTX) (op : evp_op) : option (bool * list Z * Z * EVP_MD_CTX) :=
  match op with
  | OInit_ex2 type params => let '(ret, ctx) := EVP_DigestInit_ex2 ctx type params in Some (ret, [], 0, ctx)
  | OInit_ex type => let '(ret, ctx) := EVP_DigestInit_ex ctx type in Some (ret, [], 0, ctx)
  | OInit type => let '(ret, ctx) := EVP_DigestInit ctx type in Some (ret, [], 0, ctx)
  | OSetParams n => let '(ret, ctx) := EVP_MD_CTX_set_params ctx n in Some (ret, [], 0, ctx)
  | OGetSize => Some (true, [], EVP_MD_CTX_get_size_ex ctx, ctx)
  | OUpdate data => '(ret, ctx) ← EVP_DigestUpdate ctx data; Some (ret, [], 0, ctx)
  | OFinal_ex => EVP_DigestFinal_ex ctx
  | OFinal => EVP_DigestFinal ctx
  | OFinalXOF n => '(ret, out, ctx) ← EVP_DigestFinalXOF ctx n; Some (ret, out, 0, ctx)
  | OSqueeze n => '(ret, out, ctx) ← EVP_DigestSqueeze ctx n; Some (ret, out, 0, ctx)
  | OReset => Some (true, [], 0, EVP_MD_CTX_reset ctx)
  end.
Definition evp_do (ctxs : list EVP_MD_CTX) (c : evp_call) : option (bool * list Z * Z * list EVP_MD_CTX) :=
  match c with
  | CNew => Some (true, [], 0, ctxs ++ [EVP_MD_CTX_new])
  | COn i op => ctx ← ctxs !! i; '(ret, out, size, ctx) ← evp_exec ctx op; Some (ret, out, size, <[i := ctx]> ctxs)
  | CCopy_ex out i => o ← ctxs !! out; c ← ctxs !! i; '(ret, o) ← EVP_MD_CTX_copy_ex o c; Some (ret, [], 0, <[out := o]> ctxs)
  | CCopy out i =>
    o ← ctxs !! out;
    c ← <[out := EVP_MD_CTX_reset o]> ctxs !! i;
    '(ret, o) ← EVP_MD_CTX_copy o c; Some (ret, [], 0, <[out := o]> ctxs)
  | CDup i => c ← ctxs !! i; r ← EVP_MD_CTX_dup true c; Some (match r with Some o => (true, [], 0, ctxs ++ [o]) | None => (false, [], 0, ctxs) end)
  | CDigest data alg => '(ret, out, size) ← EVP_Digest true data alg; Some (ret, out, size, ctxs)
  end.
Fixpoint evp_run (ctxs : list EVP_MD_CTX) (cs : list evp_call) : option (list (bool * list Z * Z)) :=
  match cs with
  | [] => Some []
  | c :: cs => '(ret, out, size, ctxs) ← evp_do ctxs c; rs ← evp_run ctxs cs; Some ((ret, out, size) :: rs)
  end.

(** ** The simulation *)

Definition sponge_rel (alg : sha3_alg) (s : phase) (fin : bool) (a : KECCAK1600_CTX) : Prop :=
  match s with
  | Absorbed M => absorbs (rate alg) (suffix alg) M a
  | Squeezed M k => has_squeeze alg = true /\ squeezes (rate alg) (suffix alg) M k a
  | Closed => k_xof_state a = XOF_STATE_FINAL /\ fin = true
  end.
Definition obj_rel (st : digest_obj) (ctx : EVP_MD_CTX) : Prop :=
  match st with
  | Unset => ctx = EVP_MD_CTX_new
  | Digest alg s len fin =>
    exists a, ctx = mkEVP_MD_CTX (Some alg) (Some a) fin /\ set_up alg a /\ k_md_size a = len /\ is_size len /\ sponge_rel alg s fin a
  end.
Definition simulates (st : digest_obj) (ctx : EVP_MD_CTX) (op : evp_op) : Prop :=
  forall ret out size st', evp_spec st op = Some (ret, out, size, st') -> exists ctx', evp_exec ctx op = Some (ret, out, size, ctx') /\ obj_rel st' ctx'.

Lemma digest_size_is_size alg : alg ∈ sha3_algs -> is_size (digest_size alg).
Proof. intros Ha. unfold sha3_algs in Ha. rewrite !elem_of_cons, elem_of_nil in Ha. repeat destruct Ha as [-> | Ha]; done. Qed.
(** The context the provider is given, and the length it starts from. *)
Lemma init_start alg a params : set_up alg a -> is_size (k_md_size a) -> is_size (default 0 params) ->
  exists a', md_dinit alg a params = (true, a') /\
    obj_rel (Digest alg (Absorbed []) (match params with Some n => if shake_table alg then n else k_md_size a | None => k_md_size a end) false)
      (mkEVP_MD_CTX (Some alg) (Some a') false).
Proof.
  intros Hs Hsz Hp. pose proof (reset_set_up alg a Hs) as Hs'. pose proof (reset_absorbs alg a Hs) as Ha'.
  cbn [md_dinit provider sha3_provider]. destruct (shake_table alg) eqn:Ht; cbn [keccak_init_params keccak_init shake_set_ctx_params].
  - destruct params as [n|]; eexists; (split; [reflexivity|]); eexists; (split; [reflexivity|]); split_and!; try done. by apply set_md_set_up.
  - eexists. split; [reflexivity|]. eexists. split; [reflexivity|]. by destruct params.
Qed.
Lemma init_known st ctx alg params : obj_rel st ctx -> alg ∈ sha3_algs -> is_size (default 0 params) ->
  exists ctx', evp_md_init_internal ctx (Some alg) params = (true, ctx') /\ obj_rel (start alg st params) ctx'.
Proof.
  intros H Ha Hp. destruct (newctx_Some alg) as [a0 E0]. pose proof (newctx_set_up alg a0 Ha E0) as H0. destruct (newctx_absorbs alg a0 Ha E0) as (_ & Hd & _).
  pose proof (digest_size_is_size alg Ha) as Hz0. rewrite <- Hd in Hz0.
  unfold evp_md_init_internal, start. cbn [c_digest c_algctx md_newctx provider sha3_provider]. rewrite E0. destruct st as [|alg' s len fin].
  - rewrite H. cbn [c_digest c_algctx EVP_MD_CTX_new]. rewrite bool_decide_eq_false_2, <- Hd by done. destruct (init_start alg a0 params H0 Hz0 Hp) as (a' & -> & Hr). by eexists.
  - destruct H as (a & -> & Hs & <- & Hz & _). cbn [c_digest c_algctx]. destruct (decide (alg' = alg)) as [-> |Hne].
    + rewrite !bool_decide_eq_true_2 by done. destruct (init_start alg a params Hs Hz Hp) as (a' & -> & Hr). by eexists.
    + rewrite !bool_decide_eq_false_2, <- Hd by congruence. destruct (init_start alg a0 params H0 Hz0 Hp) as (a' & -> & Hr). by eexists.
Qed.
Lemma init_simulates st ctx type params : obj_rel st ctx -> known type -> is_size (default 0 params) ->
  exists ret ctx' st', evp_md_init_internal ctx type params = (ret, ctx') /\ init_spec st type params = (ret, [], 0, st') /\ obj_rel st' ctx'.
Proof.
  intros H Ht Hp. destruct type as [alg|]; [destruct (init_known st ctx alg params H Ht Hp) as (ctx' & E & H'); by exists true, ctx', (start alg st params)|].
  destruct st as [|alg s len fin]; [rewrite H; by exists false, EVP_MD_CTX_new, Unset|].
  pose proof H as (a & E & (Ha & _) & _). destruct (init_known _ ctx alg params H Ha Hp) as (ctx' & E' & H'). exists true, ctx', (start alg (Digest alg s len fin) params).
  split; [|done]. rewrite <- E'. by rewrite E.
Qed.
(** The reported length, and that of the final call. *)
Lemma get_size_refines alg s len fin ctx : obj_rel (Digest alg s len fin) ctx -> beyond_int len = false ->
  EVP_MD_CTX_get_size_ex ctx = if no_length len then -1 else len.
Proof.
  intros (a & -> & Hs & <- & Hz & _) Hb. unfold is_size in Hz. unfold EVP_MD_CTX_get_size_ex. cbn [c_digest c_algctx md_get_ctx_params provider sha3_provider].
  assert (no_length (k_md_size a) = false -> 0 < k_md_size a <= 2147483647) as Hl.
  { unfold beyond_int in Hb. unfold no_length. rewrite orb_false_iff, !Z.eqb_neq. apply andb_false_iff in Hb as [Hb%Z.ltb_ge|Hb%Z.ltb_ge]; lia. }
  destruct (shake_table alg) eqn:Ht.
  - cbn. rewrite orb_comm. fold (no_length (k_md_size a)). destruct (no_length _); [done|]. specialize (Hl eq_refl). apply i32_small. lia.
  - pose proof Hs as (Ha & _ & _ & _ & Hd). destruct (fixed_size complementing alg Ha Ht) as (Hd1 & Hd2 & _). rewrite (Hd Ht). unfold no_length.
    rewrite (proj2 (Z.eqb_neq (digest_size alg) 0)), (proj2 (Z.eqb_neq (digest_size alg) SIZE_MAX)) by lia. exact Hd2.
Qed.
(** The provider's final call with a length. *)
Lemma final_provider alg s fin a n ret out s' : set_up alg a -> is_size (k_md_size a) -> sponge_rel alg s fin a -> fin = false -> 0 < n -> no_length (k_md_size a) = false ->
  digest_spec alg s (k_md_size a) = (ret, out, s') ->
  exists a', keccak_final complementing true a n = (ret, out, k_md_size a, a') /\ set_up alg a' /\ k_md_size a' = k_md_size a /\ sponge_rel alg s' true a'.
Proof.
  intros Hs Hz Hr -> Hn [Hl1%Z.eqb_neq Hl2%Z.eqb_neq]%orb_false_iff E. unfold is_size in Hz. destruct s as [M|M k|]; injection E as <- <- <-.
  - destruct (final_call complementing alg M a n Hs Hr Hn ltac:(lia)) as (a' & E & Hs' & Hx & Hk & _). by exists a'.
  - destruct Hr as [Hq Hr]. unfold keccak_final, ossl_sha3_final. rewrite (proj2 (Z.eqb_neq _ _) Hl1), (proj2 (Z.eqb_neq _ _) Hl2), (proj2 (Z.ltb_lt 0 n) Hn).
    pose proof Hr as (_ & _ & _ & -> & _). by exists a.
  - by destruct Hr.
Qed.
Lemma final_ex_simulates st ctx ret out size st' : obj_rel st ctx -> final_spec st = Some (ret, out, size, st') ->
  exists ctx', EVP_DigestFinal_ex ctx = Some (ret, out, size, ctx') /\ obj_rel st' ctx'.
Proof.
  intros H E. destruct st as [|alg s len fin]; [injection E as <- <- <- <-; rewrite H; by exists EVP_MD_CTX_new|]. cbn [final_spec] in E.
  destruct (beyond_int len) eqn:Hb; [done|]. pose proof (get_size_refines _ _ _ _ _ H Hb) as Hg. destruct H as (a & -> & Hs & Hl & Hz & Hr).
  unfold EVP_DigestFinal_ex. rewrite Hg. cbn [c_digest c_finalised c_algctx mbind option_bind]. destruct (no_length len) eqn:Hn; cbn [orb] in E.
  { injection E as <- <- <- <-. eexists. split; [reflexivity|]. by exists a. }
  assert (0 < len <= UINT_MAX) as Hlen.
  { unfold is_size, UINT_MAX, no_length, beyond_int in *. apply orb_false_iff in Hn as [?%Z.eqb_neq ?%Z.eqb_neq]. apply andb_false_iff in Hb as [Hb%Z.ltb_ge|Hb%Z.ltb_ge]; lia. }
  rewrite (proj2 (Z.ltb_ge len 0)) by lia. destruct fin; [injection E as <- <- <- <-; eexists; split; [reflexivity|]; by exists a|].
  destruct (digest_spec alg s len) as [[ret1 out1] s1] eqn:Ed. injection E as <- <- <- <-. subst len.
  destruct (final_provider alg s false a (k_md_size a) ret1 out1 s1 Hs Hz Hr eq_refl ltac:(lia) Hn Ed) as (a' & E' & Hs' & Hl' & Hr').
  cbn [md_dfinal provider sha3_provider]. rewrite E', (proj2 (Z.leb_le _ UINT_MAX)) by lia. eexists. split; [reflexivity|]. by exists a'.
Qed.
Lemma update_simulates st ctx data : obj_rel st ctx -> bytes_ok data -> simulates st ctx (OUpdate data).
Proof.
  intros H Hok ret out size st' E. cbn [evp_exec]. destruct data as [|b data]; [injection E as <- <- <- <-; by exists ctx|].
  destruct st as [|alg s len fin]; [injection E as <- <- <- <-; rewrite H; by exists EVP_MD_CTX_new|]. destruct H as (a & -> & Hs & Hl & Hz & Hr).
  destruct fin; [destruct s; injection E as <- <- <- <-; eexists; (split; [reflexivity|]); by exists a|].
  destruct s as [M|M k|]; [|done|by destruct Hr]. injection E as <- <- <- <-. unfold EVP_DigestUpdate.
  cbn [c_finalised c_digest c_algctx mbind option_bind md_dupdate provider sha3_provider].
  destruct (update_call complementing alg M a (b :: data) Hs Hr Hok) as (a' & E' & Hs' & Hr' & Hk & _).
  destruct (Z.eqb_spec (zlen (b :: data)) 0) as [E0|_]; [by pose proof (zlen_nonneg data); rewrite zlen_cons in E0; lia|].
  rewrite E'. eexists. split; [reflexivity|]. exists a'. split_and!; [done|done|congruence|exact Hz|exact Hr'].
Qed.
Lemma set_params_eq (alg : sha3_alg) (a : KECCAK1600_CTX) n fin :
  EVP_MD_CTX_set_params (mkEVP_MD_CTX (Some alg) (Some a) fin) n =
    (shake_table alg, mkEVP_MD_CTX (Some alg) (Some (if shake_table alg then set_md_size n a else a)) fin).
Proof. unfold EVP_MD_CTX_set_params. cbn. by destruct (shake_table alg). Qed.
Ltac set_params := match goal with |- context [EVP_MD_CTX_set_params ?c ?n] => let E := fresh in pose proof (set_params_eq _ _ n _ : EVP_MD_CTX_set_params c n = _) as E; rewrite E; clear E end.
(** Setting the length of the digest of a context. *)
Lemma set_params_rel alg s len fin a n : obj_rel (Digest alg s len fin) (mkEVP_MD_CTX (Some alg) (Some a) fin) -> is_size n ->
  obj_rel (Digest alg s (if shake_table alg then n else len) fin) (mkEVP_MD_CTX (Some alg) (Some (if shake_table alg then set_md_size n a else a)) fin).
Proof.
  intros H Hn. destruct (shake_table alg) eqn:Ht; [|done]. destruct H as (a' & [= <-] & Hs & _ & _ & Hr). exists (set_md_size n a).
  split_and!; [done|by apply set_md_set_up|done|exact Hn|destruct s; exact Hr].
Qed.
Lemma finalised_rel alg s fin a : sponge_rel alg s fin a -> sponge_rel alg s true a.
Proof. destruct s; [done|done|by intros [? _]]. Qed.
Lemma final_xof_simulates st ctx n : obj_rel st ctx -> is_size n -> simulates st ctx (OFinalXOF n).
Proof.
  intros H Hn ret out size st' E. cbn [evp_exec]. destruct st as [|alg s len fin]; [injection E as <- <- <- <-; rewrite H; by exists EVP_MD_CTX_new|].
  pose proof H as (a & -> & Hs & Hl & _). destruct fin; [injection E as <- <- <- <-; eexists; split; [reflexivity|]; exact H|].
  apply (set_params_rel alg s len false a n) in H; [|done]. cbn [evp_spec] in E. unfold EVP_DigestFinalXOF. cbn [c_digest c_finalised]. set_params.
  cbn [c_digest c_finalised c_algctx snd mbind option_bind md_dfinal provider sha3_provider]. set (a1 := if shake_table alg then set_md_size n a else a) in *.
  assert ((n = 0 -> k_md_size a1 <> SIZE_MAX) /\ (n <> 0 -> k_md_size a1 <> 0)) as [Hn1 Hn2].
  { unfold a1. destruct (shake_table alg) eqn:Ht; [by split; [intros ->|]|]. destruct (fixed_size complementing alg (proj1 Hs) Ht) as (Hd & _).
    pose proof Hs as (_ & _ & _ & _ & ->); [|done]. split; intros _; lia. }
  set (len1 := if shake_table alg then n else len) in *. destruct H as (a2 & [= <-] & Hs1 & Hl1 & Hz1 & Hr1). clearbody a1 len1. subst len1.
  unfold keccak_final at 1. destruct (Z.eqb_spec n 0) as [-> |Hn0].
  - injection E as <- <- <- <-. rewrite (proj2 (Z.eqb_neq _ _) (Hn1 eq_refl)). eexists. split; [reflexivity|]. exists a1. split_and!; try done. exact (finalised_rel _ _ _ _ Hr1).
  - destruct (Z.eqb_spec (k_md_size a1) SIZE_MAX) as [Ez|Ez].
    + injection E as <- <- <- <-. eexists. split; [reflexivity|]. exists a1. split_and!; try done. exact (finalised_rel _ _ _ _ Hr1).
    + destruct (digest_spec alg s (k_md_size a1)) as [[ret1 out1] s1] eqn:Ed. injection E as <- <- <- <-. unfold is_size in Hn.
      destruct (final_provider alg s false a1 n ret1 out1 s1 Hs1 Hz1 Hr1 eq_refl ltac:(lia)) as (a' & E' & Hs' & Hl' & Hr'); [|done|].
      { unfold no_length. by rewrite (proj2 (Z.eqb_neq _ _) (Hn2 Hn0)), (proj2 (Z.eqb_neq _ _) Ez). }
      unfold keccak_final in E'. cbn [negb] in *. rewrite (proj2 (Z.eqb_neq _ _) Ez) in E'. rewrite E'. eexists. split; [reflexivity|]. by exists a'.
Qed.
Lemma squeeze_simulates st ctx n : obj_rel st ctx -> is_size n -> simulates st ctx (OSqueeze n).
Proof.
  intros H Hn ret out size st' E. cbn [evp_exec]. destruct st as [|alg s len fin]; [injection E as <- <- <- <-; rewrite H; by exists EVP_MD_CTX_new|].
  pose proof H as (a & -> & Hs & Hl & Hz & Hr). cbn [evp_spec] in E. unfold is_size in Hn. destruct (has_squeeze alg) eqn:Hq; cbn [negb] in E.
  2: { injection E as <- <- <- <-. exists (@mkEVP_MD_CTX provider (Some alg) (Some a) fin). split; [|done].
       exact (f_equal (fun r => '(ret, out, ctx) ← r; Some (ret, out, 0, ctx)) (squeeze_none complementing alg a fin n Hq Hs)). }
  unfold EVP_DigestSqueeze. cbn [c_digest c_algctx c_finalised md_dsqueeze provider sha3_provider]. rewrite (shake_has_table alg Hq). cbn [mbind option_bind].
  destruct (Z.eqb_spec n 0) as [-> |Hn0]; [injection E as <- <- <- <-; rewrite (squeeze_zero complementing alg) by done; by eexists|].
  assert (forall M k, (k = 0 /\ absorbs (rate alg) (suffix alg) M a \/ squeezes (rate alg) (suffix alg) M k a) ->
    exists ctx', ('(ret, out, ctx) ← (let '(ret, out, _, a) := shake_squeeze complementing true a n in Some (ret, out, mkEVP_MD_CTX (Some alg) (Some a) fin)); Some (ret, out, 0, ctx)) =
      Some (true, hashes alg M k n, 0, ctx') /\ obj_rel (Digest alg (Squeezed M (k + n)) len fin) ctx') as Hsq.
  { intros M k Ha. destruct (squeeze_call complementing alg M k a n Hq Hs Ha ltac:(lia)) as (a' & -> & Hs' & Hr' & Hk & _).
    eexists. split; [reflexivity|]. exists a'. split_and!; [done|done|congruence|exact Hz|by split]. }
  destruct s as [M|M k|]; injection E as <- <- <- <-.
  - apply (Hsq M 0). by left.
  - apply Hsq. right. apply Hr.
  - unfold shake_squeeze. cbn [negb]. pose proof Hs as (_ & _ & _ & Hm & _). rewrite Hm, Hq, (proj2 (Z.ltb_lt 0 n)) by lia.
    unfold ossl_sha3_squeeze. rewrite (proj2 (Z.eqb_neq n 0)), (proj1 Hr) by lia. by eexists.
Qed.
Lemma op_simulates st ctx op : obj_rel st ctx -> op_ok op -> simulates st ctx op.
Proof.
  intros H Hok. assert (forall st ctx type params, obj_rel st ctx -> known type -> is_size (default 0 params) -> forall ret out size st', init_spec st type params = (ret, out, size, st') ->
    exists ctx', (let '(ret, ctx) := evp_md_init_internal ctx type params in Some (ret, [], 0, ctx)) = Some (ret, out, size, ctx') /\ obj_rel st' ctx') as Hi.
  { clear. intros st ctx type params H Ht Hp ret out size st' E. destruct (init_simulates st ctx type params H Ht Hp) as (ret1 & ctx1 & st1 & E1 & E2 & H').
    rewrite E in E2. injection E2 as -> -> -> ->. rewrite E1. by eexists. }
  destruct op as [type params|type|type|n| |data| | |n|n|]; [..|by apply final_xof_simulates|by apply squeeze_simulates|]; intros ret out size st' E.
  - apply (inj Some) in E. exact (Hi st ctx type params H (proj1 Hok) (proj2 Hok) ret out size st' E).
  - apply (inj Some) in E. exact (Hi st ctx type None H Hok ltac:(done) ret out size st' E).
  - apply (inj Some) in E. exact (Hi Unset EVP_MD_CTX_new type None eq_refl Hok ltac:(done) ret out size st' E).
  - cbn [evp_exec]. destruct st as [|alg s len fin]; [injection E as <- <- <- <-; rewrite H; by exists EVP_MD_CTX_new|].
    pose proof H as (a & -> & _). set_params. pose proof (set_params_rel alg s len fin a n H Hok) as H'. cbn [evp_spec] in E.
    destruct (shake_table alg); injection E as <- <- <- <-; by eexists.
  - destruct st as [|alg s len fin]; cbn [evp_spec] in E; [injection E as <- <- <- <-; rewrite H; by exists EVP_MD_CTX_new|].
    destruct (beyond_int len) eqn:Hb; [done|]. injection E as <- <- <- <-. cbn [evp_exec]. rewrite (get_size_refines _ _ _ _ _ H Hb). by eexists.
  - exact (update_simulates st ctx data H Hok ret out size st' E).
  - by apply (final_ex_simulates st).
  - cbn [evp_spec] in E. destruct (final_spec st) as [[[[ret1 out1] size1] st1]|] eqn:Ef; [|done]. injection E as <- <- <- <-.
    destruct (final_ex_simulates st ctx _ _ _ _ H Ef) as (ctx' & E' & _). cbn [evp_exec]. unfold EVP_DigestFinal. rewrite E'. by eexists.
  - injection E as <- <- <- <-. by eexists.
Qed.
(** A copy holds what the original holds, whatever the target held. *)
Lemma copy_simulates st ctx st' out : obj_rel st ctx -> obj_rel st' out -> EVP_MD_CTX_copy_ex out ctx = Some (true, ctx).
Proof.
  intros H H'. destruct st as [|alg s len fin]; [by rewrite H|]. destruct H as (a & -> & _). unfold EVP_MD_CTX_copy_ex. cbn [c_digest c_algctx c_finalised].
  case_bool_decide as Ed; [|done]. destruct st'; [by rewrite H' in Ed|]. by destruct H' as (o & -> & _).
Qed.
(** The digest in one call is the composition of the others. *)
Lemma one_shot sts data alg ret out size sts' : alg ∈ sha3_algs -> bytes_ok data -> call_spec sts (CDigest data alg) = Some (ret, out, size, sts') ->
  EVP_Digest true data alg = Some (ret, out, size) /\ sts' = sts.
Proof.
  intros Ha Hok E. cbn [call_spec] in E. destruct (init_known Unset EVP_MD_CTX_new alg None eq_refl Ha ltac:(done)) as (ctx & Ei & H). cbn [start] in H.
  unfold EVP_Digest, EVP_DigestInit_ex. cbn [EVP_MD provider sha3_provider] in *. rewrite Ei. cbn [negb].
  assert (exists ctx', EVP_DigestUpdate ctx data = Some (true, ctx') /\ obj_rel (Digest alg (Absorbed data) (digest_size alg) false) ctx') as (ctx1 & -> & H1).
  { destruct data as [|b data]; [by exists ctx|]. destruct (update_simulates _ ctx (b :: data) H Hok _ _ _ _ eq_refl) as (ctx' & Eu & H').
    exists ctx'. split; [|done]. cbn [evp_exec] in Eu. destruct (EVP_DigestUpdate ctx (b :: data)) as [[ret1 ctx1]|]; [|done]. by injection Eu as -> ->. }
  cbn [mbind option_bind negb]. assert (beyond_int (digest_size alg) = false /\ no_length (digest_size alg) = (digest_size alg =? SIZE_MAX)) as [Hb Hn].
  { clear -Ha. unfold sha3_algs in Ha. rewrite !elem_of_cons, elem_of_nil in Ha. repeat destruct Ha as [-> | Ha]; done. }
  destruct (final_ex_simulates _ ctx1 (negb (digest_size alg =? SIZE_MAX)) (if digest_size alg =? SIZE_MAX then [] else hashes alg data 0 (digest_size alg))
    (if digest_size alg =? SIZE_MAX then 0 else digest_size alg) (if digest_size alg =? SIZE_MAX then Digest alg (Absorbed data) (digest_size alg) false else Digest alg Closed (digest_size alg) true) H1) as (ctx2 & -> & _).
  - cbn [final_spec]. rewrite Hb, Hn. by destruct (_ =? _).
  - cbn [mbind option_bind]. by destruct (_ =? _); injection E as <- <- <- <-.
Qed.
Lemma call_simulates sts ctxs c ret out size sts' : Forall2 obj_rel sts ctxs -> call_ok c -> call_spec sts c = Some (ret, out, size, sts') ->
  exists ctxs', evp_do ctxs c = Some (ret, out, size, ctxs') /\ Forall2 obj_rel sts' ctxs'.
Proof.
  intros H Hok E. destruct c as [|i op|o i|o i|i|data alg]; cbn [call_spec evp_do] in *.
  - injection E as <- <- <- <-. eexists. split; [reflexivity|]. apply Forall2_app; [done|]. by repeat constructor.
  - destruct (sts !! i) as [st|] eqn:Ei; [|done]. destruct (Forall2_lookup_l _ _ _ _ _ H Ei) as (ctx & -> & Hc). cbn [mbind option_bind] in *.
    destruct (evp_spec st op) as [[[[ret1 out1] size1] st1]|] eqn:Es; [|done]. injection E as <- <- <- <-.
    destruct (op_simulates st ctx op Hc Hok _ _ _ _ Es) as (ctx' & -> & Hc'). eexists. split; [reflexivity|]. by apply Forall2_insert.
  - destruct (sts !! o) as [sto|] eqn:Eo; [|done]. destruct (Forall2_lookup_l _ _ _ _ _ H Eo) as (ctxo & -> & Ho). cbn [mbind option_bind] in *.
    destruct (sts !! i) as [st|] eqn:Ei; [|done]. destruct (Forall2_lookup_l _ _ _ _ _ H Ei) as (ctx & -> & Hc). injection E as <- <- <- <-. cbn [mbind option_bind].
    rewrite (copy_simulates st ctx sto ctxo Hc Ho). eexists. split; [reflexivity|]. by apply Forall2_insert.
  - destruct (sts !! o) as [sto|] eqn:Eo; [|done]. destruct (Forall2_lookup_l _ _ _ _ _ H Eo) as (ctxo & -> & Ho). cbn [mbind option_bind] in *.
    destruct (<[o := Unset]> sts !! i) as [st|] eqn:Ei; [|done]. assert (Forall2 obj_rel (<[o := Unset]> sts) (<[o := EVP_MD_CTX_reset ctxo]> ctxs)) as H1 by (by apply Forall2_insert).
    destruct (Forall2_lookup_l _ _ _ _ _ H1 Ei) as (ctx & -> & Hc). injection E as <- <- <- <-. cbn [mbind option_bind]. unfold EVP_MD_CTX_copy.
    rewrite (copy_simulates st ctx Unset (EVP_MD_CTX_reset ctxo) Hc eq_refl). eexists. split; [reflexivity|]. by apply Forall2_insert.
  - destruct (sts !! i) as [st|] eqn:Ei; [|done]. destruct (Forall2_lookup_l _ _ _ _ _ H Ei) as (ctx & -> & Hc). injection E as <- <- <- <-. cbn [mbind option_bind].
    unfold EVP_MD_CTX_dup. cbn [negb]. rewrite (copy_simulates st ctx Unset EVP_MD_CTX_new Hc eq_refl). eexists. split; [reflexivity|]. apply Forall2_app; [done|]. by repeat constructor.
  - destruct (one_shot sts data alg ret out size sts' (proj2 Hok) (proj1 Hok) E) as [E' ->]. exists ctxs. split; [|done].
    exact (f_equal (fun r => '(ret, out, size) ← r; Some (ret, out, size, ctxs)) E').
Qed.
Lemma run_simulates cs : Forall call_ok cs -> forall sts ctxs rs, Forall2 obj_rel sts ctxs -> spec_run sts cs = Some rs -> evp_run ctxs cs = Some rs.
Proof.
  induction 1 as [|c cs Hok _ IH]; intros sts ctxs rs H E; [done|]. cbn [spec_run evp_run] in *.
  destruct (call_spec sts c) as [[[[ret out] size] sts']|] eqn:Es; [|done]. cbn [mbind option_bind] in E.
  destruct (call_simulates sts ctxs c ret out size sts' H Hok Es) as (ctxs' & -> & H'). cbn [mbind option_bind].
  destruct (spec_run sts' cs) as [rs'|] eqn:Er; [|done]. by rewrite (IH sts' ctxs' rs' H' Er).
Qed.
End Refines.

