(* ===== verification/MlKemSha3.v ===== *)
(** * ML-KEM over the SHA-3 code

    The digests of ML-KEM, a parameter of its model, given by the code: [digest.c] over the
    SHA-3 provider.  The functions of FIPS 202 satisfy the laws [KemDigestLaws], so that
    every theorem of [MlKemSpec] holds over them; and every operation of ML-KEM over the
    code is the same operation over the functions of FIPS 202. *)
From S2P Require Import Prelude.
From S2P Require Import ByteOrder.
From S2P Require Import ZSum.
From S2P Require Import Result.
From S2P Require Import Keccak.
From S2P Require Import Sha3.
From S2P Require Import Sha3Spec.
From S2P Require Import Sha3Safe.
From S2P Require Import EvpDigest.
From S2P Require Import EvpSha3.
From S2P Require Import MlKemField.
From S2P Require Import MlKemNtt.
From S2P Require Import MlKemCode.
From S2P Require Import MlKemHash.
From S2P Require Import MlKemPke.
From S2P Require Import MlKemKey.
From S2P Require Import MlKemKeySpec.

Definition kem_alg (md : KEM_MD) : sha3_alg := match md with SHAKE128 => SHAKE 128 | SHAKE256 => SHAKE 256 | SHA3_256 => SHA3 256 | SHA3_512 => SHA3 512 end.
Definition kem_md (alg : sha3_alg) : KEM_MD :=
  if decide (alg = SHAKE 128) then SHAKE128 else if decide (alg = SHAKE 256) then SHAKE256 else if decide (alg = SHA3 256) then SHA3_256 else SHA3_512.

(** ** The functions of FIPS 202 as digests

    A context is the function, the bytes absorbed and the number of bytes squeezed. *)
#[local] Instance fips202 : KemDigest := {|
  EVP_MD_CTX := KEM_MD * list Z * Z;
  EVP_MD_CTX_new := Some (SHAKE128, [], 0);
  EVP_DigestInit_ex md := Some (md, [], 0);
  EVP_MD_CTX_get0_md c := let '(md, _, _) := c in md;
  EVP_DigestUpdate c data := let '(md, M, k) := c in Some (md, M ++ (u8 <$> data), k);
  EVP_DigestFinal_ex c := let '(md, M, _) := c in Some (hashes (kem_alg md) M 0 (md_size md));
  EVP_DigestFinalXOF c n := let '(md, M, _) := c in Some (hashes (kem_alg md) M 0 n);
  EVP_DigestSqueeze c n := let '(md, M, k) := c in Some (hashes (kem_alg md) M k n, (md, M, k + n)) |}.

Lemma fips202_laws : KemDigestLaws.
Proof.
  split.
  - by eexists.
  - intros md. by eexists.
  - intros [[md M] k] m. by eexists.
  - intros [[md M] k] m m'. cbn. by rewrite fmap_app, app_assoc.
  - intros [[md M] k] _. eexists. split; [done|]. split; [apply hashes_zlen; by destruct md|apply hashes_ok].
  - intros [[md M] k] n Hn _. eexists. split; [done|]. split; [apply hashes_zlen; lia|apply hashes_ok].
  - intros [[md M] k] n Hn _. eexists _, _. split; [done|]. split; [done|]. split; [apply hashes_zlen; lia|apply hashes_ok].
Qed.

(** ** The code as digests

    [ML-KEM] initialises the same context again and again; that the outcome does not depend
    on what it held is [init_refines]. *)
Section Code.
Context (complementing : bool).
#[local] Abbreviation provider := (sha3_provider complementing true true).

Definition sha3_code : KemDigest := {|
  EVP_MD_CTX := @EvpDigest.EVP_MD_CTX provider;
  EVP_MD_CTX_new := Some EvpDigest.EVP_MD_CTX_new;
  EVP_DigestInit_ex md :=
    let '(ret, ctx) := @EvpDigest.EVP_DigestInit_ex provider EvpDigest.EVP_MD_CTX_new (Some (kem_alg md)) in if ret : bool then Some ctx else None;
  EVP_MD_CTX_get0_md ctx := kem_md (default (SHAKE 128) (c_digest ctx));
  EVP_DigestUpdate ctx data := '(ret, ctx) ← @EvpDigest.EVP_DigestUpdate provider ctx (u8 <$> data); if ret : bool then Some ctx else None;
  EVP_DigestFinal_ex ctx := '(ret, out, _, _) ← @EvpDigest.EVP_DigestFinal_ex provider ctx; if ret : bool then Some out else None;
  EVP_DigestFinalXOF ctx n := '(ret, out, _) ← @EvpDigest.EVP_DigestFinalXOF provider ctx n; if ret : bool then Some out else None;
  EVP_DigestSqueeze ctx n := '(ret, out, ctx) ← @EvpDigest.EVP_DigestSqueeze provider ctx n; if ret : bool then Some (out, ctx) else None |}.

Definition kem_rel (c : KEM_MD * list Z * Z) (ctx : @EVP_MD_CTX sha3_code) : Prop :=
  let '(md, M, k) := c in 0 <= k /\ evp_rel complementing (if k =? 0 then Absorbing (kem_alg md) M else Squeezing (kem_alg md) M k) ctx.

Lemma kem_alg_in md : kem_alg md ∈ sha3_algs.
Proof. unfold sha3_algs. rewrite !elem_of_cons. destruct md; cbn [kem_alg]; tauto. Qed.
Lemma kem_md_alg md : kem_md (kem_alg md) = md.
Proof. by destruct md. Qed.
Lemma kem_rel_md c ctx : kem_rel c ctx -> @EVP_MD_CTX_get0_md sha3_code ctx = EVP_MD_CTX_get0_md c.
Proof. destruct c as [[md M] k]. intros [_ H]. destruct (k =? 0); destruct H as (a & -> & _); apply kem_md_alg. Qed.
Lemma kem_init md : exists ctx, @EVP_DigestInit_ex sha3_code md = Some ctx /\ kem_rel (md, [], 0) ctx.
Proof.
  destruct (init_refines complementing (kem_alg md) (@EvpDigest.EVP_MD_CTX_new provider) (kem_alg_in md)) as (ctx & E & H); [done|].
  exists ctx. split; [|done]. exact (f_equal (fun p : bool * _ => let '(ret, ctx) := p in if ret then Some ctx else None) E).
Qed.
Lemma kem_update md M ctx data : kem_rel (md, M, 0) ctx -> exists ctx', @EVP_DigestUpdate sha3_code ctx data = Some ctx' /\ kem_rel (md, M ++ (u8 <$> data), 0) ctx'.
Proof.
  intros [_ H]. destruct (update_refines complementing (kem_alg md) M ctx (u8 <$> data) H (u8s_ok data)) as (ctx' & E & H').
  exists ctx'. split; [|done]. cbn [EVP_DigestUpdate sha3_code]. by rewrite E.
Qed.
Lemma kem_final md M ctx : kem_rel (md, M, 0) ctx -> EVP_MD_xof md = false -> @EVP_DigestFinal_ex sha3_code ctx = Some (hashes (kem_alg md) M 0 (md_size md)).
Proof.
  intros [_ H] Hx. assert (shake_table (kem_alg md) = false) as Ht by (by destruct md). destruct (final_refines complementing _ _ _ H Ht) as (ctx' & E).
  cbn [EVP_DigestFinal_ex sha3_code]. rewrite E. cbn [mbind option_bind]. by destruct md.
Qed.
Lemma kem_final_xof md M ctx n : kem_rel (md, M, 0) ctx -> EVP_MD_xof md = true -> 0 < n < SIZE_MAX -> @EVP_DigestFinalXOF sha3_code ctx n = Some (hashes (kem_alg md) M 0 n).
Proof.
  intros [_ H] Hx Hn. destruct (final_xof_refines complementing _ _ _ n H) as (ctx' & E).
  - assert (shake_table (kem_alg md) = true) as -> by (by destruct md). apply andb_true_iff. split; apply Z.ltb_lt; lia.
  - cbn [EVP_DigestFinalXOF sha3_code]. by rewrite E.
Qed.
Lemma kem_squeeze md M k ctx n : kem_rel (md, M, k) ctx -> EVP_MD_xof md = true -> 0 < n ->
  exists ctx', @EVP_DigestSqueeze sha3_code ctx n = Some (hashes (kem_alg md) M k n, ctx') /\ kem_rel (md, M, k + n) ctx'.
Proof.
  intros [Hk H] Hx Hn. assert (has_squeeze (kem_alg md) = true) as Hq by (by destruct md).
  destruct (squeeze_refines complementing (kem_alg md) M k ctx n H Hq Hk Hn) as (ctx' & E & H').
  exists ctx'. split; [cbn [EVP_DigestSqueeze sha3_code]; by rewrite E|]. split; [lia|]. by rewrite (proj2 (Z.eqb_neq (k + n) 0)) by lia.
Qed.

(** ** Hashing *)

Lemma keccak_agrees md M ctx n inp : kem_rel (md, M, 0) ctx -> 0 < n < SIZE_MAX -> @single_keccak sha3_code n inp ctx = single_keccak n inp (md, M, 0).
Proof.
  intros H Hn. unfold single_keccak. destruct (kem_update md M ctx inp H) as (ctx' & E & H'). rewrite E. cbn [mbind option_bind EVP_DigestUpdate fips202].
  rewrite (kem_rel_md _ _ H'). cbn [EVP_MD_CTX_get0_md fips202]. destruct (EVP_MD_xof md) eqn:Hx; [by apply kem_final_xof|].
  rewrite (kem_final _ _ _ H' Hx). done.
Qed.
Lemma init_agrees {B} md (f : @EVP_MD_CTX sha3_code -> option B) (g : @EVP_MD_CTX fips202 -> option B) :
  (forall ctx, kem_rel (md, [], 0) ctx -> f ctx = g (md, [], 0)) -> (@EVP_DigestInit_ex sha3_code md ≫= f) = (@EVP_DigestInit_ex fips202 md ≫= g).
Proof. intros Hf. destruct (kem_init md) as (ctx & E & H). rewrite E. by apply Hf. Qed.
Lemma prf_agrees len inp : 0 < len < SIZE_MAX -> @prf sha3_code len inp = prf len inp.
Proof. intros Hl. apply init_agrees. intros ctx H. by apply keccak_agrees. Qed.
Lemma hash_h_agrees inp : @hash_h sha3_code inp = hash_h inp.
Proof. apply init_agrees. intros ctx H. by apply keccak_agrees. Qed.
Lemma hash_g_agrees inp : @hash_g sha3_code inp = hash_g inp.
Proof. apply init_agrees. intros ctx H. by apply keccak_agrees. Qed.
Lemma kdf_agrees z ctext : @kdf sha3_code z ctext = kdf z ctext.
Proof.
  apply init_agrees. intros ctx H. destruct (kem_update _ _ ctx (slice z 0 ML_KEM_RANDOM_BYTES) H) as (ctx1 & E1 & H1).
  destruct (kem_update _ _ ctx1 ctext H1) as (ctx2 & E2 & H2). rewrite E1. cbn [mbind option_bind]. rewrite E2. cbn [mbind option_bind].
  by rewrite (kem_final_xof _ _ _ _ H2).
Qed.
Lemma updates_agree (f : Z -> list Z) n i : forall ctx md M, kem_rel (md, M, 0) ctx ->
  exists ctx' M', for_loop n i (fun i c => @EVP_DigestUpdate sha3_code c (f i)) ctx = Some ctx' /\ kem_rel (md, M', 0) ctx' /\
    for_loop n i (fun i c => @EVP_DigestUpdate fips202 c (f i)) (md, M, 0) = Some (md, M', 0).
Proof.
  revert i. induction n as [|n IH]; intros i ctx md M H; [by exists ctx, M|]. destruct (kem_update md M ctx (f i) H) as (ctx1 & E1 & H1).
  destruct (IH (i + 1) ctx1 _ _ H1) as (ctx' & M' & E & H' & E'). exists ctx', M'. cbn [for_loop]. rewrite E1. cbn [mbind option_bind]. by rewrite E.
Qed.
Lemma hash_h_pubkey_agrees t rho : @hash_h_pubkey sha3_code t rho = hash_h_pubkey t rho.
Proof.
  apply init_agrees. intros ctx H. destruct (updates_agree (fun i => scalar_encode (default [] (t !! Z.to_nat i)) 12) (length t) 0 ctx _ _ H) as (ctx1 & M1 & E1 & H1 & E1').
  rewrite E1, E1'. cbn [mbind option_bind]. destruct (kem_update _ _ ctx1 (slice rho 0 ML_KEM_RANDOM_BYTES) H1) as (ctx2 & E2 & H2). rewrite E2. cbn [mbind option_bind].
  by rewrite (kem_final _ _ _ H2).
Qed.

(** ** Sampling *)

Lemma sample_loop_agrees n : forall md M k ctx out, kem_rel (md, M, k) ctx -> EVP_MD_xof md = true ->
  @sample_loop sha3_code n ctx out = sample_loop n (md, M, k) out.
Proof.
  induction n as [|n IH]; intros md M k ctx out H Hx; [done|]. cbn [sample_loop]. destruct (kem_squeeze md M k ctx SCALAR_SAMPLING_BUFSIZE H Hx) as (ctx' & E & H'); [done|].
  rewrite E. cbn [of_option mbind res_bind EVP_DigestSqueeze fips202]. destruct (_ <? DEGREE); [by apply IH|done].
Qed.
Lemma cbd_2_agrees inp : @cbd_2 sha3_code inp = cbd_2 inp.
Proof. unfold cbd_2. by rewrite prf_agrees. Qed.
Lemma cbd_3_agrees inp : @cbd_3 sha3_code inp = cbd_3 inp.
Proof. unfold cbd_3. by rewrite prf_agrees. Qed.
Lemma CBD1_agrees ty inp : @CBD1 sha3_code ty inp = CBD1 ty inp.
Proof. unfold CBD1. destruct (_ =? _); [apply cbd_3_agrees|apply cbd_2_agrees]. Qed.
Lemma gencbd_ext f g c seed rank : (forall x, f x = g x) -> gencbd_vector f c seed rank = gencbd_vector g c seed rank /\ gencbd_vector_ntt f c seed rank = gencbd_vector_ntt g c seed rank.
Proof. intros H. split; apply for_loop_ext; intros i [out counter] _; by rewrite H. Qed.

(** ** The operations *)

Context `{FU : Fuel} `{KE : KemEnv}.

Lemma matrix_expand_agrees rho rank : @matrix_expand sha3_code FU rho rank = @matrix_expand fips202 FU rho rank.
Proof.
  unfold matrix_expand. apply res_for_ext. intros i out. apply res_for_ext. intros j out'. destruct (kem_init SHAKE128) as (ctx & -> & H).
  cbn [of_option mbind res_bind EVP_DigestInit_ex fips202]. destruct (kem_update _ _ ctx (slice rho 0 ML_KEM_RANDOM_BYTES ++ [u8 i; u8 j]) H) as (ctx' & -> & H').
  cbn [of_option mbind res_bind EVP_DigestUpdate fips202]. unfold sample_scalar. by rewrite (sample_loop_agrees _ _ _ _ _ _ H').
Qed.
Lemma encrypt_agrees vinfo t m msg r : @encrypt_cpa sha3_code vinfo t m msg r = @encrypt_cpa fips202 vinfo t m msg r.
Proof.
  unfold encrypt_cpa. rewrite (proj2 (gencbd_ext _ (@CBD1 fips202 (evp_type vinfo)) 0 r (vi_rank vinfo) (CBD1_agrees _))).
  destruct (gencbd_vector_ntt _ 0 r (vi_rank vinfo)) as [[y c]|]; [|done]. cbn [mbind option_bind].
  rewrite (proj1 (gencbd_ext _ (@cbd_2 fips202) c r (vi_rank vinfo) cbd_2_agrees)). destruct (gencbd_vector _ c r (vi_rank vinfo)) as [[e1 c']|]; [|done]. cbn [mbind option_bind].
  by rewrite cbd_2_agrees.
Qed.
Lemma kbind_agrees {A B} (m m' : KM A) (f f' : A -> KM B) key : m key = m' key -> (forall a k, f a k = f' a k) -> (m ≫= f) key = (m' ≫= f') key.
Proof. intros Hm Hf. unfold mbind, kem_bind. rewrite Hm. destruct (m' key) as [[a| |] k]; [apply Hf|done|done]. Qed.
Lemma parse_pubkey_agrees inp key : @parse_pubkey sha3_code FU inp key = @parse_pubkey fips202 FU inp key.
Proof.
  unfold parse_pubkey. repeat (apply kbind_agrees; [done|intros]). apply kbind_agrees; [by rewrite hash_h_agrees|intros].
  repeat (apply kbind_agrees; [done|intros]). apply kbind_agrees; [by rewrite matrix_expand_agrees|done].
Qed.
Lemma parse_prvkey_agrees inp key : @parse_prvkey sha3_code FU inp key = @parse_prvkey fips202 FU inp key.
Proof.
  unfold parse_prvkey. repeat (apply kbind_agrees; [done|intros]). apply kbind_agrees; [apply parse_pubkey_agrees|intros].
  repeat (apply kbind_agrees; [done|intros]). done.
Qed.
Lemma genkey_agrees seed pubenc key : @genkey sha3_code FU seed pubenc key = @genkey fips202 FU seed pubenc key.
Proof.
  unfold genkey. apply kbind_agrees; [done|intros key0 ?]. rewrite hash_g_agrees. repeat (apply kbind_agrees; [done|intros]).
  rewrite matrix_expand_agrees. repeat (apply kbind_agrees; [done|intros]).
  rewrite (proj2 (gencbd_ext _ (@CBD1 fips202 (evp_type (k_vinfo key0))) _ _ _ (CBD1_agrees _))).
  apply kbind_agrees; [done|]. intros [s counter] ?. repeat (apply kbind_agrees; [done|intros]).
  rewrite (proj2 (gencbd_ext _ (@CBD1 fips202 (evp_type (k_vinfo key0))) _ _ _ (CBD1_agrees _))).
  apply kbind_agrees; [done|]. intros [t counter'] ?. repeat (apply kbind_agrees; [done|intros]).
  rewrite hash_h_agrees, hash_h_pubkey_agrees. repeat (apply kbind_agrees; [done|intros]). done.
Qed.
Lemma with_storage_agrees {A} where_ private (body body' : KM A) key : (forall k, body k = body' k) -> with_storage where_ private body key = with_storage where_ private body' key.
Proof. intros H. unfold with_storage. destruct (add_storage _ private key); [|done]. by rewrite H. Qed.
Lemma encap_agrees entropy key : @encap sha3_code entropy key = @encap fips202 entropy key.
Proof. unfold encap. rewrite hash_g_agrees. destruct (hash_g _); [|done]. cbn [mbind option_bind]. by rewrite encrypt_agrees. Qed.
Lemma decap_agrees ctext key : @decap sha3_code ctext key = @decap fips202 ctext key.
Proof.
  unfold decap. rewrite kdf_agrees. destruct (kdf _ _); [|done]. cbn [mbind option_bind]. rewrite hash_g_agrees. destruct (hash_g _); [|done]. cbn [mbind option_bind].
  by rewrite encrypt_agrees.
Qed.
End Code.

(** C9: ML-KEM over the SHA-3 code is ML-KEM over the functions of FIPS 202.  With digests
    computed by [digest.c], [sha3_prov.c], [sha3.c] and [keccak1600.c], in both forms of the
    permutation, the generation of a key, the parsing of public and private keys,
    encapsulation and decapsulation return what they return with the hash functions
    taken from FIPS 202, on every input, and leave the same key; and the functions of
    FIPS 202 satisfy the laws that the theorems on ML-KEM ask of its digests. *)
Theorem ml_kem_on_sha3_code `{FU : Fuel} `{KE : KemEnv} complementing key :
  @KemDigestLaws fips202 /\
  (forall publen, @ossl_ml_kem_genkey (sha3_code complementing) FU KE publen key = @ossl_ml_kem_genkey fips202 FU KE publen key) /\
  (forall inp, @ossl_ml_kem_parse_public_key (sha3_code complementing) FU KE inp key = @ossl_ml_kem_parse_public_key fips202 FU KE inp key) /\
  (forall inp, @ossl_ml_kem_parse_private_key (sha3_code complementing) FU KE inp key = @ossl_ml_kem_parse_private_key fips202 FU KE inp key) /\
  (forall clen slen entropy, @ossl_ml_kem_encap_seed (sha3_code complementing) clen slen entropy key = @ossl_ml_kem_encap_seed fips202 clen slen entropy key) /\
  (forall secret ctext, @ossl_ml_kem_decap (sha3_code complementing) KE secret ctext key = @ossl_ml_kem_decap fips202 KE secret ctext key).
Proof.
  split; [exact fips202_laws|]. split_and!.
  - intros publen. unfold ossl_ml_kem_genkey. repeat (apply kbind_agrees; [done|intros]). apply with_storage_agrees. intros ?. apply genkey_agrees.
  - intros inp. unfold ossl_ml_kem_parse_public_key. repeat (apply kbind_agrees; [done|intros]). apply with_storage_agrees. intros ?. apply parse_pubkey_agrees.
  - intros inp. unfold ossl_ml_kem_parse_private_key. repeat (apply kbind_agrees; [done|intros]). apply with_storage_agrees. intros ?. apply parse_prvkey_agrees.
  - intros clen slen entropy. unfold ossl_ml_kem_encap_seed. destruct (negb _); [done|]. destruct clen; [|done]. cbn [mbind option_bind]. destruct (negb _); [done|].
    destruct slen; [|done]. cbn [mbind option_bind]. destruct (negb _); [done|]. destruct entropy; [|done]. cbn [mbind option_bind]. destruct (negb _); [done|]. apply encap_agrees.
  - intros secret ctext. unfold ossl_ml_kem_decap. destruct (negb _); [done|]. destruct secret, ctext; try done. cbn [EVP_MD_CTX_new sha3_code fips202]. by rewrite decap_agrees.
Qed.
