(* ===== verification/MlDsaSha3.v ===== *)
(** * ML-DSA over the SHA-3 code

    The extendable-output functions of ML-DSA, a parameter of its model, given by the code:
    [digest.c] over the SHA-3 provider.  SHAKE of FIPS 202 satisfies the laws [XofLaws], and
    every operation of ML-DSA over the code is the same operation over SHAKE. *)
From S2P Require Import Prelude.
From S2P Require Import ConstantTime.
From S2P Require Import Packet.
From S2P Require Import WPacket.
From S2P Require Import Result.
From S2P Require Import ModCong.
From S2P Require Import ByteOrder.
From S2P Require Import ZSum.
From S2P Require Import Keccak.
From S2P Require Import Sha3.
From S2P Require Import Sha3Spec.
From S2P Require Import EvpDigest.
From S2P Require Import EvpSha3.
From S2P Require Import MlDsaField.
From S2P Require Import NttPass.
From S2P Require Import MlDsaRound.
From S2P Require Import MlDsaNtt.
From S2P Require Import MlDsaPoly.
From S2P Require Import MlDsaParams.
From S2P Require Import MlDsaSig.
From S2P Require Import MlDsaSample.
From S2P Require Import MlDsaKey.
From S2P Require Import MlDsaSign.

Definition xof_alg (md : XOF_MD) : sha3_alg := match md with SHAKE128 => SHAKE 128 | SHAKE256 => SHAKE 256 end.

(** A context is the function, the bytes absorbed and the number of bytes squeezed. *)
#[local] Instance fips202_xof : Xof := {|
  EVP_MD_CTX := XOF_MD * list Z * Z;
  EVP_MD_CTX_new := Some (SHAKE128, [], 0);
  EVP_DigestInit_ex2 md := Some (md, [], 0);
  EVP_DigestUpdate c data := let '(md, M, k) := c in Some (md, M ++ (u8 <$> data), k);
  EVP_DigestSqueeze c n := let '(md, M, k) := c in Some (hashes (xof_alg md) M k n, (md, M, k + n)) |}.
Lemma fips202_xof_laws : XofLaws.
Proof.
  split.
  - by eexists.
  - intros md. by eexists.
  - intros [[md M] k] m. by eexists.
  - intros [[md M] k]. cbn. by rewrite app_nil_r.
  - intros [[md M] k] n Hn. eexists _, _. split; [done|]. split; [apply hashes_zlen; lia|apply hashes_ok].
Qed.

Section Code.
Context (complementing : bool).
#[local] Abbreviation provider := (sha3_provider complementing true true).

Definition shake_code : Xof := {|
  EVP_MD_CTX := @EvpDigest.EVP_MD_CTX provider;
  EVP_MD_CTX_new := Some EvpDigest.EVP_MD_CTX_new;
  EVP_DigestInit_ex2 md :=
    let '(ret, ctx) := @EvpDigest.EVP_DigestInit_ex2 provider EvpDigest.EVP_MD_CTX_new (Some (xof_alg md)) None in if ret : bool then Some ctx else None;
  EVP_DigestUpdate ctx data := '(ret, ctx) ← @EvpDigest.EVP_DigestUpdate provider ctx (u8 <$> data); if ret : bool then Some ctx else None;
  EVP_DigestSqueeze ctx n := '(ret, out, ctx) ← @EvpDigest.EVP_DigestSqueeze provider ctx n; if ret : bool then Some (out, ctx) else None |}.

Definition xof_rel (c : XOF_MD * list Z * Z) (ctx : @EVP_MD_CTX shake_code) : Prop :=
  let '(md, M, k) := c in 0 <= k /\ evp_rel complementing (if k =? 0 then Absorbing (xof_alg md) M else Squeezing (xof_alg md) M k) ctx.
Lemma xof_alg_in md : xof_alg md ∈ sha3_algs.
Proof. unfold sha3_algs. rewrite !elem_of_cons. destruct md; cbn [xof_alg]; tauto. Qed.
Lemma xof_init md : exists ctx, @EVP_DigestInit_ex2 shake_code md = Some ctx /\ xof_rel (md, [], 0) ctx.
Proof.
  destruct (init_refines complementing (xof_alg md) (@EvpDigest.EVP_MD_CTX_new provider) (xof_alg_in md)) as (ctx & E & H); [done|].
  exists ctx. split; [|done]. exact (f_equal (fun p : bool * _ => let '(ret, ctx) := p in if ret then Some ctx else None) E).
Qed.
Lemma xof_update md M ctx data : xof_rel (md, M, 0) ctx -> exists ctx', @EVP_DigestUpdate shake_code ctx data = Some ctx' /\ xof_rel (md, M ++ (u8 <$> data), 0) ctx'.
Proof.
  intros [_ H]. destruct (update_refines complementing (xof_alg md) M ctx (u8 <$> data) H (u8s_ok data)) as (ctx' & E & H').
  exists ctx'. split; [|done]. cbn [EVP_DigestUpdate shake_code]. by rewrite E.
Qed.
Lemma xof_squeeze md M k ctx n : xof_rel (md, M, k) ctx -> 0 < n ->
  exists ctx', @EVP_DigestSqueeze shake_code ctx n = Some (hashes (xof_alg md) M k n, ctx') /\ xof_rel (md, M, k + n) ctx'.
Proof.
  intros [Hk H] Hn. assert (has_squeeze (xof_alg md) = true) as Hq by (by destruct md).
  destruct (squeeze_refines complementing (xof_alg md) M k ctx n H Hq Hk Hn) as (ctx' & E & H').
  exists ctx'. split; [cbn [EVP_DigestSqueeze shake_code]; by rewrite E|]. split; [lia|]. by rewrite (proj2 (Z.eqb_neq (k + n) 0)) by lia.
Qed.
(** Of any length, and only for the output. *)
Lemma xof_output md M ctx n : xof_rel (md, M, 0) ctx -> exists ctx', @EVP_DigestSqueeze shake_code ctx n = Some (hashes (xof_alg md) M 0 n, ctx').
Proof.
  intros H. destruct (Z.ltb_spec 0 n) as [Hn|Hn]; [destruct (xof_squeeze md M 0 ctx n H Hn) as (ctx' & E & _); by exists ctx'|].
  destruct H as (_ & a & -> & Hs & _). exists (@mkEVP_MD_CTX provider (Some (xof_alg md)) (Some a) false). cbn [EVP_DigestSqueeze shake_code].
  unfold EvpDigest.EVP_DigestSqueeze. cbn [c_digest c_algctx c_finalised md_dsqueeze sha3_provider]. rewrite shake_has_table by (by destruct md). cbn [mbind option_bind].
  unfold shake_squeeze. pose proof Hs as (_ & _ & _ & -> & _). rewrite (proj2 (Z.ltb_ge 0 n)) by lia. unfold hashes, SPONGE, squeeze_spec. rewrite seqZ_nil by lia. by destruct md.
Qed.

(** ** One-shot output *)

Lemma xof_bind {B} md in1 n (k : list Z -> res B) :
  ('(b, _) ← of_option (@shake_xof shake_code md in1 n); k b) = ('(b, _) ← of_option (shake_xof md in1 n); k b).
Proof.
  unfold shake_xof. destruct (xof_init md) as (c0 & -> & H0). cbn [mbind option_bind]. destruct (xof_update _ _ c0 in1 H0) as (c1 & -> & H1). cbn [mbind option_bind].
  by destruct (xof_output _ _ c1 n H1) as (c2 & ->).
Qed.
Lemma xof_2_bind {B} md in1 in2 n (k : list Z -> res B) :
  ('(b, _) ← of_option (@shake_xof_2 shake_code md in1 in2 n); k b) = ('(b, _) ← of_option (shake_xof_2 md in1 in2 n); k b).
Proof.
  unfold shake_xof_2. destruct (xof_init md) as (c0 & -> & H0). cbn [mbind option_bind]. destruct (xof_update _ _ c0 in1 H0) as (c1 & -> & H1). cbn [mbind option_bind].
  destruct (xof_update _ _ c1 in2 H1) as (c2 & -> & H2). cbn [mbind option_bind]. by destruct (xof_output _ _ c2 n H2) as (c3 & ->).
Qed.
Lemma xof_3_bind {B} md in1 in2 in3 n (k : list Z -> res B) :
  ('(b, _) ← of_option (@shake_xof_3 shake_code md in1 in2 in3 n); k b) = ('(b, _) ← of_option (shake_xof_3 md in1 in2 in3 n); k b).
Proof.
  unfold shake_xof_3. destruct (xof_init md) as (c0 & -> & H0). cbn [mbind option_bind]. destruct (xof_update _ _ c0 in1 H0) as (c1 & -> & H1). cbn [mbind option_bind].
  destruct (xof_update _ _ c1 in2 H1) as (c2 & -> & H2). cbn [mbind option_bind]. destruct (xof_update _ _ c2 in3 H2) as (c3 & -> & H3). cbn [mbind option_bind].
  by destruct (xof_output _ _ c3 n H3) as (c4 & ->).
Qed.
(** The first block of a stream, and a context to go on. *)
Lemma xof_start md seed n : 0 < n -> exists b ctx c, @shake_xof shake_code md seed n = Some (b, ctx) /\ shake_xof md seed n = Some (b, c) /\ xof_rel c ctx.
Proof.
  intros Hn. unfold shake_xof. destruct (xof_init md) as (c0 & -> & H0). cbn [mbind option_bind]. destruct (xof_update _ _ c0 seed H0) as (c1 & -> & H1). cbn [mbind option_bind].
  destruct (xof_squeeze _ _ _ c1 n H1 Hn) as (c2 & -> & H2). by eexists _, _, _.
Qed.

(** ** Sampling *)

Lemma rej_loop_agrees {A} (try : A -> Z -> POLY -> POLY * bool) split bs n : 0 < bs -> forall c ctx blocks j out, xof_rel c ctx ->
  @rej_loop shake_code A try split bs n ctx blocks j out = rej_loop try split bs n c blocks j out.
Proof.
  intros Hb. induction n as [|n IH]; intros [[md M] k] ctx blocks j out H; cbn [rej_loop]; [done|]. destruct (rej_scan try (split blocks) j out) as [[j' out']|]; [|done].
  destruct (xof_squeeze md M k ctx bs H Hb) as (ctx' & -> & H'). cbn [of_option mbind res_bind EVP_DigestSqueeze fips202_xof]. by apply IH.
Qed.
Context `{FU : Fuel}.
Lemma rej_ntt_agrees md seed out : @rej_ntt_poly shake_code FU md seed out = @rej_ntt_poly fips202_xof FU md seed out.
Proof.
  unfold rej_ntt_poly. destruct (xof_start md seed SHAKE128_BLOCKSIZE eq_refl) as (b & ctx & c & -> & -> & H). cbn [of_option mbind res_bind]. by apply rej_loop_agrees.
Qed.
Lemma rej_bounded_agrees md f seed out : @rej_bounded_poly shake_code FU md f seed out = @rej_bounded_poly fips202_xof FU md f seed out.
Proof.
  unfold rej_bounded_poly. destruct (xof_start md seed SHAKE256_BLOCKSIZE eq_refl) as (b & ctx & c & -> & -> & H). cbn [of_option mbind res_bind]. by apply rej_loop_agrees.
Qed.
Lemma expand_A_agrees md rho out : @ossl_ml_dsa_matrix_expand_A shake_code FU md rho out = @ossl_ml_dsa_matrix_expand_A fips202_xof FU md rho out.
Proof.
  unfold ossl_ml_dsa_matrix_expand_A. erewrite res_for_ext; [reflexivity|]. intros i st. apply res_for_ext. intros j [poly polys]. by rewrite rej_ntt_agrees.
Qed.
Lemma expand_S_agrees md eta seed s1 s2 : @ossl_ml_dsa_vector_expand_S shake_code FU md eta seed s1 s2 = @ossl_ml_dsa_vector_expand_S fips202_xof FU md eta seed s1 s2.
Proof.
  assert (forall f v counter, @expand_S_loop shake_code FU md f seed v counter = @expand_S_loop fips202_xof FU md f seed v counter) as Hl.
  { intros f v counter. apply res_for_ext. intros i [c w]. by rewrite rej_bounded_agrees. }
  unfold ossl_ml_dsa_vector_expand_S. rewrite Hl. destruct (expand_S_loop md _ seed s1 0) as [[c v]| |]; [|done|done]. cbn [mbind res_bind]. by rewrite Hl.
Qed.
Lemma expand_mask_agrees seed gamma1 md : @ossl_ml_dsa_poly_expand_mask shake_code seed gamma1 md = @ossl_ml_dsa_poly_expand_mask fips202_xof seed gamma1 md.
Proof.
  unfold ossl_ml_dsa_poly_expand_mask. destruct (xof_start md seed (32 * (if gamma1 =? ML_DSA_GAMMA1_TWO_POWER_19 then 20 else 18))) as (b & ctx & c & -> & -> & _); [|done].
  by destruct (_ =? _).
Qed.
Lemma for_each_agrees {St} n i (b b' : Z -> St -> St) s : (forall j t, b j t = b' j t) -> for_each n i b s = for_each n i b' s.
Proof. intros H. revert i s. induction n as [|n IH]; intros i s; [done|]. cbn [for_each]. by rewrite H, IH. Qed.
Lemma vector_mask_agrees out rho kappa gamma1 md : @vector_expand_mask shake_code out rho kappa gamma1 md = @vector_expand_mask fips202_xof out rho kappa gamma1 md.
Proof. unfold vector_expand_mask. apply for_each_agrees. intros i v. cbv zeta. by rewrite expand_mask_agrees. Qed.

(** The states of the sampling of a challenge: the same block and position, related contexts. *)
Definition ball_rel (s : @EVP_MD_CTX shake_code * list Z * Z) (t : @EVP_MD_CTX fips202_xof * list Z * Z) : Prop :=
  xof_rel (fst (fst t)) (fst (fst s)) /\ snd (fst s) = snd (fst t) /\ snd s = snd t.
Definition res_rel {A B} (R : A -> B -> Prop) (x : res A) (y : res B) : Prop :=
  match x, y with Ret a, Ret b => R a b | Err, Err => True | Spin, Spin => True | _, _ => False end.
Lemma ball_index_agrees n : forall c ctx block offset end_, xof_rel c ctx ->
  res_rel (fun x y => fst x = fst y /\ ball_rel (snd x) (snd y)) (@ball_index shake_code n ctx block offset end_) (@ball_index fips202_xof n c block offset end_).
Proof.
  induction n as [|n IH]; intros [[md M] k] ctx block offset end_ H; [done|]. cbn [ball_index]. destruct (offset =? SHAKE256_BLOCKSIZE).
  - destruct (xof_squeeze md M k ctx SHAKE256_BLOCKSIZE H eq_refl) as (ctx' & -> & H'). cbn [of_option mbind res_bind EVP_DigestSqueeze fips202_xof].
    destruct (_ <=? end_); [done|by apply IH].
  - cbn [mbind res_bind]. destruct (_ <=? end_); [done|by apply IH].
Qed.
Lemma res_for_rel {S T} (R : S -> T -> Prop) n i (f : Z -> S -> res S) (g : Z -> T -> res T) s t :
  (forall j s t, R s t -> res_rel R (f j s) (g j t)) -> R s t -> res_rel R (res_for n i f s) (res_for n i g t).
Proof.
  intros Hf. revert i s t. induction n as [|n IH]; intros i s t H; [done|]. cbn [res_for]. pose proof (Hf i s t H) as Hr.
  destruct (f i s), (g i t); try done. cbn [mbind res_bind]. by apply IH.
Qed.
Lemma in_ball_agrees seed md tau : @ossl_ml_dsa_poly_sample_in_ball shake_code FU seed md tau = @ossl_ml_dsa_poly_sample_in_ball fips202_xof FU seed md tau.
Proof.
  unfold ossl_ml_dsa_poly_sample_in_ball. destruct (xof_start md seed SHAKE256_BLOCKSIZE eq_refl) as (b & ctx & c & -> & -> & H). cbn [of_option mbind res_bind].
  match goal with |- context [res_for ?n ?i ?f ?s] => match goal with |- _ = mbind _ (res_for n i ?g ?t) => assert (res_rel (fun x y => ball_rel (fst (fst x)) (fst (fst y)) /\ snd (fst x) = snd (fst y) /\ snd x = snd y) (res_for n i f s) (res_for n i g t)) as Hr end end.
  { apply res_for_rel; [|done]. intros j [[[[cx bl] o] sg] p] [[[[cy bl'] o'] sg'] p'] ((Hc & Hb & Ho) & Hs & Hp). cbn [fst snd] in *. subst bl' o' sg' p'.
    pose proof (ball_index_agrees fuel cy cx bl o j Hc) as Hi. destruct (ball_index fuel cx bl o j) as [[x st]| |], (ball_index fuel cy bl o j) as [[y st']| |]; try done.
    destruct Hi as [E Hst]. cbn [fst snd] in E, Hst. subst y. done. }
  destruct (res_for _ _ _ _) as [[[x1 x2] x3]| |], (res_for _ _ _ _) as [[[y1 y2] y3]| |]; try done. destruct Hr as (_ & _ & E). cbn [snd] in E. by subst y3.
Qed.
Lemma ball_ntt_agrees seed md tau : @poly_sample_in_ball_ntt shake_code FU seed md tau = @poly_sample_in_ball_ntt fips202_xof FU seed md tau.
Proof. unfold poly_sample_in_ball_ntt. by rewrite in_ball_agrees. Qed.

(** ** Signing *)

Context `{KE : KeyEnv} `{AL : Allocator}.
Lemma mu_agrees key b m : @message_mu shake_code key b m = @message_mu fips202_xof key b m.
Proof. unfold message_mu. destruct b; [done|]. apply xof_2_bind. Qed.
Lemma attempt_agrees e kappa y w : @sign_attempt shake_code FU AL e kappa y w = @sign_attempt fips202_xof FU AL e kappa y w.
Proof.
  unfold sign_attempt. rewrite vector_mask_agrees. destruct (ossl_ml_dsa_w1_encode _ _ w) as [x w1]. etransitivity; [apply xof_2_bind|].
  destruct (of_option (shake_xof_2 _ _ w1 _)) as [[ct c]| |]; [|done|done]. cbn [mbind res_bind]. by rewrite ball_ntt_agrees.
Qed.
Lemma sign_loop_agrees n e : forall kappa y w, @sign_loop shake_code FU AL n e kappa y w = @sign_loop fips202_xof FU AL n e kappa y w.
Proof.
  induction n as [|n IH]; intros kappa y w; [done|]. cbn [sign_loop]. rewrite attempt_agrees. destruct (sign_attempt e kappa y w) as [[[y' w'] [sig|]]| |]; try done.
  cbn [mbind res_bind]. apply IH.
Qed.
Lemma sign_agrees priv b m rnd out : @ml_dsa_sign_internal shake_code FU KE AL priv b m rnd out = @ml_dsa_sign_internal fips202_xof FU KE AL priv b m rnd out.
Proof.
  unfold ml_dsa_sign_internal. destruct (check (alloc_at ScratchPolys)) as [[]| |]; [|done|done]. cbn [mbind res_bind].
  change (@EVP_MD_CTX_new shake_code) with (Some (@EvpDigest.EVP_MD_CTX_new provider)). rewrite expand_A_agrees, mu_agrees. cbn [has EVP_MD_CTX_new fips202_xof check mbind res_bind].
  destruct (ossl_ml_dsa_matrix_expand_A _ _ _) as [a| |]; [|done|done]. cbn [mbind res_bind].
  destruct (message_mu priv b m) as [mu| |]; [|done|done]. cbn [mbind res_bind]. etransitivity; [apply xof_3_bind|].
  destruct (of_option (shake_xof_3 _ _ _ _ _)) as [[rp c]| |]; [|done|done]. cbn [mbind res_bind]. by rewrite sign_loop_agrees.
Qed.
Lemma verify_agrees pub b m sig : @ml_dsa_verify_internal shake_code FU KE AL pub b m sig = @ml_dsa_verify_internal fips202_xof FU KE AL pub b m sig.
Proof.
  unfold ml_dsa_verify_internal. destruct (check (alloc_at ScratchPolys)) as [[]| |]; [|done|done]. cbn [mbind res_bind].
  change (@EVP_MD_CTX_new shake_code) with (Some (@EvpDigest.EVP_MD_CTX_new provider)). rewrite expand_A_agrees, mu_agrees. cbn [has EVP_MD_CTX_new fips202_xof check mbind res_bind].
  destruct (of_option (ossl_ml_dsa_sig_decode _ sig _)) as [sg| |]; [|done|done]. cbn [mbind res_bind].
  destruct (ossl_ml_dsa_matrix_expand_A _ _ _) as [a| |]; [|done|done]. cbn [mbind res_bind].
  destruct (message_mu pub b m) as [mu| |]; [|done|done]. cbn [mbind res_bind]. rewrite ball_ntt_agrees.
  destruct (poly_sample_in_ball_ntt _ _ _) as [cn| |]; [|done|done]. cbn [mbind res_bind]. destruct (ossl_ml_dsa_w1_encode _ _ _) as [x w1]. apply xof_3_bind.
Qed.

(** ** Keys *)

Lemma kbind_ext {A B} (m m' : KM A) (f f' : A -> KM B) key : m key = m' key -> (forall a k, f a k = f' a k) -> (m ≫= f) key = (m' ≫= f') key.
Proof. intros Hm Hf. unfold mbind, KM_bind. rewrite Hm. destruct (m' key) as [[a| |] k]; [apply Hf|done|done]. Qed.
Lemma kxof_bind {B} md in1 n (f f' : list Z -> KM B) key : (forall b k, f b k = f' b k) ->
  ('(b, _) ← klift (of_option (@shake_xof shake_code md in1 n)); f b) key = ('(b, _) ← klift (of_option (@shake_xof fips202_xof md in1 n)); f' b) key.
Proof.
  intros Hf. pose proof (xof_bind md in1 n Ret) as Hx. unfold mbind, KM_bind, klift. destruct (of_option (@shake_xof shake_code md in1 n)) as [[b c]| |], (of_option (shake_xof md in1 n)) as [[b' c']| |];
    try done. injection Hx as ->. apply Hf.
Qed.
Ltac same := repeat (apply kbind_ext; [reflexivity|intros ? ?; repeat match goal with |- context [match ?p with pair _ _ => _ end] => is_var p; destruct p end]).
Lemma from_private_agrees key : @public_from_private shake_code FU KE key = @public_from_private fips202_xof FU KE key.
Proof. unfold public_from_private. by rewrite expand_A_agrees. Qed.
Lemma hash_public_agrees key : @hash_public shake_code key = @hash_public fips202_xof key.
Proof. unfold hash_public. same. by apply kxof_bind. Qed.
#[local] Opaque hash_public.
Lemma pk_decode_agrees inp key : @ossl_ml_dsa_pk_decode shake_code KE inp key = @ossl_ml_dsa_pk_decode fips202_xof KE inp key.
Proof. unfold ossl_ml_dsa_pk_decode. same. apply kxof_bind. intros. reflexivity. Qed.
Lemma private_public_agrees key : @ossl_ml_dsa_key_public_from_private AL shake_code FU KE key = @ossl_ml_dsa_key_public_from_private AL fips202_xof FU KE key.
Proof. unfold ossl_ml_dsa_key_public_from_private. same. rewrite from_private_agrees. same. apply hash_public_agrees. Qed.
Lemma sk_decode_agrees b inp key : @ossl_ml_dsa_sk_decode AL shake_code FU KE b inp key = @ossl_ml_dsa_sk_decode AL fips202_xof FU KE b inp key.
Proof. unfold ossl_ml_dsa_sk_decode. same. unfold check_public. by rewrite private_public_agrees. Qed.
Lemma keygen_agrees key : @keygen_internal AL shake_code FU KE key = @keygen_internal AL fips202_xof FU KE key.
Proof.
  assert (@keygen_body AL shake_code FU KE key = @keygen_body AL fips202_xof FU KE key) as E; [|unfold keygen_internal; by rewrite E].
  unfold keygen_body. same. apply kxof_bind. intros. same. rewrite expand_S_agrees. same. rewrite from_private_agrees. same.
  apply kbind_ext; [apply hash_public_agrees|done].
Qed.
Lemma generate_agrees key : @ossl_ml_dsa_generate_key AL shake_code FU KE key = @ossl_ml_dsa_generate_key AL fips202_xof FU KE key.
Proof.
  unfold ossl_ml_dsa_generate_key. same. destruct (mk_priv_encoding _); [|apply keygen_agrees]. apply kbind_ext; [apply keygen_agrees|done].
Qed.
Lemma pairwise_agrees key : @ossl_ml_dsa_key_pairwise_check shake_code FU KE key = @ossl_ml_dsa_key_pairwise_check fips202_xof FU KE key.
Proof. unfold ossl_ml_dsa_key_pairwise_check. by rewrite from_private_agrees. Qed.
End Code.

(** C10: ML-DSA over the SHA-3 code is ML-DSA over SHAKE of FIPS 202.  With the digests
    computed by [digest.c], [sha3_prov.c], [sha3.c] and [keccak1600.c], in both forms of the
    permutation, key generation, the decoding of public and private keys, the check of a
    pair, signing and verification return what they return with SHAKE taken from
    FIPS 202, on every input, and leave the same key; and SHAKE satisfies the laws the
    theorems on ML-DSA ask of it. *)
Theorem ml_dsa_on_sha3_code `{FU : Fuel} `{KE : KeyEnv} `{AL : Allocator} complementing key :
  @XofLaws fips202_xof /\
  @ossl_ml_dsa_generate_key AL (shake_code complementing) FU KE key = @ossl_ml_dsa_generate_key AL fips202_xof FU KE key /\
  (forall inp, @ossl_ml_dsa_pk_decode (shake_code complementing) KE inp key = @ossl_ml_dsa_pk_decode fips202_xof KE inp key) /\
  (forall b inp, @ossl_ml_dsa_sk_decode AL (shake_code complementing) FU KE b inp key = @ossl_ml_dsa_sk_decode AL fips202_xof FU KE b inp key) /\
  @ossl_ml_dsa_key_pairwise_check (shake_code complementing) FU KE key = @ossl_ml_dsa_key_pairwise_check fips202_xof FU KE key /\
  (forall b msg ctx rand encode sig size, @ossl_ml_dsa_sign (shake_code complementing) FU KE AL key b msg ctx rand encode sig size =
     @ossl_ml_dsa_sign fips202_xof FU KE AL key b msg ctx rand encode sig size) /\
  (forall b msg ctx encode sig, @ossl_ml_dsa_verify (shake_code complementing) FU KE AL key b msg ctx encode sig =
     @ossl_ml_dsa_verify fips202_xof FU KE AL key b msg ctx encode sig).
Proof.
  split; [exact fips202_xof_laws|]. split_and!.
  - apply generate_agrees.
  - intros inp. apply pk_decode_agrees.
  - intros b inp. apply sk_decode_agrees.
  - apply pairwise_agrees.
  - intros b msg ctx rand encode sig size. unfold ossl_ml_dsa_sign. destruct (check _) as [[]| |]; [|done|done]. cbn [mbind res_bind]. destruct sig as [out|]; [|done].
    destruct (check _) as [[]| |]; [|done|done]. cbn [mbind res_bind]. destruct (if b then _ else _) as [m| |]; [|done|done]. cbn [mbind res_bind]. by rewrite sign_agrees.
  - intros b msg ctx encode sig. unfold ossl_ml_dsa_verify. destruct (check _) as [[]| |]; [|done|done]. cbn [mbind res_bind].
    destruct (if b then _ else _) as [m| |]; [|done|done]. cbn [mbind res_bind]. apply verify_agrees.
Qed.
