(* ===== verification/SlhSha3.v ===== *)
(** * SLH-DSA over the SHA-3 code

    The SHAKE of SLH-DSA, part of the parameter [EVP] of its model, given by the code:
    [digest.c] over the SHA-3 provider.  The laws [EVPLaws] then only remain to be assumed
    of SHA-2 and HMAC, which the SHAKE parameter sets do not call. *)
From S2P Require Import Prelude.
From S2P Require Import ByteOrder.
From S2P Require Import ZSum.
From S2P Require Import WPacket.
From S2P Require Import WPacketSpec.
From S2P Require Import Keccak.
From S2P Require Import Sha3.
From S2P Require Import Sha3Spec.
From S2P Require Import EvpDigest.
From S2P Require Import EvpSha3.
From S2P Require Import SlhAdrs.
From S2P Require Import SlhParams.
From S2P Require Import SlhHash.
From S2P Require Import SlhDsa.

Section Code.
Context (complementing : bool).
#[local] Abbreviation provider := (sha3_provider complementing true true).

Fixpoint update_all (ctx : @EVP_MD_CTX provider) (ins : list (list Z)) : option (@EVP_MD_CTX provider) :=
  match ins with
  | [] => Some ctx
  | data :: ins => '(ret, ctx) ← @EVP_DigestUpdate provider ctx (u8 <$> data); if ret : bool then update_all ctx ins else None
  end.
(** [Init; Update...; EVP_DigestFinalXOF(out, len)] with SHAKE-256 *)
Definition xof_code (ins : list (list Z)) (n : Z) : option (list Z) :=
  let '(ret, ctx) := @EVP_DigestInit_ex2 provider EVP_MD_CTX_new (Some (SHAKE 256)) None in
  if ret : bool then
    ctx ← update_all ctx ins;
    '(ret, out, _) ← @EVP_DigestFinalXOF provider ctx n;
    if ret : bool then Some out else None
  else None.
(** SHA-2 and HMAC are those of [base]. *)
Definition evp_code (base : EVP) : EVP := {|
  evp_digest := @evp_digest base;
  evp_xof md ins n := match md with SHAKE_256 => xof_code ins n | _ => @evp_xof base md ins n end;
  evp_hmac := @evp_hmac base;
  SlhHash.EVP_MD_get_size := @SlhHash.EVP_MD_get_size base |}.

Definition SHAKE256 (M : list Z) (n : Z) : list Z := hashes (SHAKE 256) (u8 <$> M) 0 n.

Lemma update_all_eq ins : forall M ctx, evp_rel complementing (Absorbing (SHAKE 256) M) ctx ->
  exists ctx', update_all ctx ins = Some ctx' /\ evp_rel complementing (Absorbing (SHAKE 256) (M ++ (u8 <$> concat ins))) ctx'.
Proof.
  induction ins as [|data ins IH]; intros M ctx H; cbn [update_all]; [exists ctx; by rewrite app_nil_r|].
  destruct (update_refines complementing (SHAKE 256) M ctx (u8 <$> data) H (u8s_ok data)) as (ctx1 & -> & H1). cbn [mbind option_bind].
  destruct (IH _ ctx1 H1) as (ctx' & E & H'). exists ctx'. split; [done|]. cbn [concat]. by rewrite fmap_app, app_assoc.
Qed.
Lemma xof_code_eq ins n : 0 <= n < SIZE_MAX -> xof_code ins n = Some (SHAKE256 (concat ins) n).
Proof.
  intros Hn. unfold xof_code. destruct (init_refines complementing (SHAKE 256) (@EVP_MD_CTX_new provider)) as (ctx & E & H).
  { unfold sha3_algs. rewrite !elem_of_cons. tauto. } { done. }
  change (@EVP_DigestInit_ex2 provider EVP_MD_CTX_new (Some (SHAKE 256)) None) with (@EVP_DigestInit_ex provider EVP_MD_CTX_new (Some (SHAKE 256))).
  destruct (@EVP_DigestInit_ex provider EVP_MD_CTX_new (Some (SHAKE 256))) as [ret ctx0] eqn:E0.
  assert ((ret, ctx0) = (true, ctx)) as [= -> ->] by (rewrite <- E0; exact E).
  destruct (update_all_eq ins [] ctx H) as (ctx1 & -> & H1). cbn [mbind option_bind app] in *. destruct (Z.eqb_spec n 0) as [-> |Hn0].
  - destruct H1 as (a & -> & Hs & _). unfold SHAKE256. by rewrite hashes_nil.
  - destruct (final_xof_refines complementing (SHAKE 256) _ ctx1 n H1) as (ctx2 & ->); [|done]. apply andb_true_iff. split; apply Z.ltb_lt; lia.
Qed.
End Code.

(** C11: SLH-DSA over the SHA-3 code.  With SHAKE-256 computed by [digest.c], [sha3_prov.c],
    [sha3.c] and [keccak1600.c], in both forms of the permutation: the digests satisfy all
    the laws that the theorems on SLH-DSA ask of them, once SHA-2 and HMAC do; and for
    every context of a SHAKE parameter set H_msg, PRF_msg (written to the packet), PRF,
    F, H and T are the functions of FIPS 205 section 11.1, SHAKE-256 of FIPS 202 of the
    concatenated inputs. *)
Theorem slh_on_sha3_code `{AL : Allocator} complementing base ctx r pk_seed pk_root msg sk_seed sk_prf opt_rand pkt adrs m1 m2 :
  @EVPLaws base -> ctx_wf ctx -> p_is_shake (ctx_params ctx) = true ->
  let n := ctx_n ctx in
  @EVPLaws (evp_code complementing base) /\
  @slh_hmsg_shake (evp_code complementing base) ctx r pk_seed pk_root msg =
    Some (SHAKE256 (slice r 0 n ++ slice pk_seed 0 n ++ slice pk_root 0 n ++ msg) (p_m (ctx_params ctx))) /\
  slh_prf_msg_shake (EV := evp_code complementing base) ctx sk_prf opt_rand msg pkt =
    (ctx, match WPACKET_memcpy (SHAKE256 (slice sk_prf 0 n ++ slice opt_rand 0 n ++ msg) n) pkt with Done _ pkt' => Some pkt' | _ => None end) /\
  @slh_prf_shake (evp_code complementing base) ctx pk_seed sk_seed adrs =
    Some (SHAKE256 (slice pk_seed 0 n ++ slice adrs 0 SLH_ADRS_SIZE ++ slice sk_seed 0 n) n) /\
  @slh_f_shake (evp_code complementing base) ctx pk_seed adrs m1 = Some (SHAKE256 (slice pk_seed 0 n ++ slice adrs 0 SLH_ADRS_SIZE ++ m1) n) /\
  @slh_h_shake (evp_code complementing base) ctx pk_seed adrs m1 m2 =
    Some (SHAKE256 (slice pk_seed 0 n ++ slice adrs 0 SLH_ADRS_SIZE ++ slice m1 0 n ++ slice m2 0 n) n) /\
  @slh_t_shake (evp_code complementing base) ctx pk_seed adrs m1 = Some (SHAKE256 (slice pk_seed 0 n ++ slice adrs 0 SLH_ADRS_SIZE ++ m1) n).
Proof.
  intros HL Hwf Hsh n. pose proof (ctx_n_cases ctx Hwf) as Hn. destruct Hwf as [Hp Hw]. rewrite Hsh in Hw. destruct Hw as (_ & Hmd & _).
  split.
  { split.
    - exact (@size_sha2_256 base HL).
    - exact (@size_sha2_512 base HL).
    - exact (@digest_ok base HL).
    - intros ins k Hk. exists (SHAKE256 (concat ins) k). split; [apply xof_code_eq; unfold SIZE_MAX; lia|]. split; [apply hashes_zlen; lia|apply hashes_ok].
    - exact (@hmac_ok base HL). }
  unfold slh_hmsg_shake, slh_prf_msg_shake, slh_prf_shake, slh_f_shake, slh_h_shake, slh_t_shake, xof_digest_3, xof_digest_4. rewrite Hmd. cbn [evp_xof evp_code]. fold n. fold n in Hn.
  assert (0 <= p_m (ctx_params ctx) < SIZE_MAX) as Hm by (pose proof (params_m _ Hp); unfold SIZE_MAX; lia).
  assert (0 <= n < SIZE_MAX) as Hn' by (unfold SIZE_MAX; lia).
  rewrite !xof_code_eq by done. cbn [concat mbind option_bind]. rewrite !app_nil_r. unfold write_n.
  set (out := SHAKE256 (slice sk_prf 0 n ++ slice opt_rand 0 n ++ msg) n). assert (zlen out = n) as Ho by (apply hashes_zlen; lia).
  assert (slice out 0 n = out) as -> by (unfold slice; cbn [Z.to_nat]; rewrite drop_0; apply take_ge; unfold zlen in *; lia). by split_and!.
Qed.
Lemma slh_on_sha3_code_witness :
  @EVPLaws (evp_code true pad_evp) /\
  @slh_f_shake (evp_code true pad_evp) (zero_ctx true) [1] [2] [3] = Some (SHAKE256 [1; 2; 3] 16).
Proof.
  destruct (slh_on_sha3_code (AL := always_alloc) true pad_evp (zero_ctx true) [] [1] [] [] [] [] [] blank [2] [3] [] pad_evp_laws (zero_ctx_wf true) eq_refl) as (HL & _ & _ & _ & HF & _).
  split; [exact HL|exact HF].
Defined.
